(* ===== verification/_CoqProject ===== *)
-Q . S2P
Prelude.v
Text.v
Unicode.v
AccessRules.v
Crypto.v
ToyPrimitives.v
CryptoProps.v
Store.v
Effects.v
CryptoOps.v
ToyOps.v
CryptoOpsProps.v
Concurrency.v
ServerBase.v
ToyPlatform.v
AuditLog.v
AuditChain.v
Archive.v
ArchiveProps.v
Auth.v
AuthProps.v
Admin.v
AdminProps.v
Threshold.v
ThresholdProps.v
ReadLimit.v
Secrets.v
SecretsLemmas.v
SecretsProps.v
Keys.v
KeysProps.v
Files.v
FilesLemmas.v
FilesContent.v
FilesProps.v
Tunnel.v
TunnelProps.v
TunnelRelay.v
RelayProps.v
CredStore.v
FileSteps.v
Persistence.v
PersistenceProps.v
Session.v
SessionProps.v
External.v
ExternalProps.v
ClientSecrets.v
ClientSecretsProps.v
Presentation.v
KeyClient.v
CryptoCommands.v
CryptoCommandsProps.v
Client.v
Routes.v
RoutesProps.v
Mcp.v
McpProps.v
Commands.v
CommandsProps.v
ClientFiles.v
ClientFilesProps.v
Identity.v
WebConsole.v
WebConsoleProps.v
