(* ===== verification/Prelude.v ===== *)
(** * Blackbook: a secrets server and its command line client

    This library models the Rust program under [src/src] and proves what makes
    it correct. This file is its root: the shared vocabulary and, here, the
    documentation of the whole.

    ** The program

    The server ([main.rs], [server.rs], [auth.rs], [keys_api.rs]) keeps secrets,
    files and cryptographic keys in Postgres and a blob directory, each item
    under its own key, each key wrapped under the master key
    ([blackbook_core.rs]), which lies sealed on the data volume
    ([persistence.rs]). A caller authenticates with a client certificate and a
    bearer token, belongs to domains, and may do what ACL rules allow, within
    schedules, rates and use limits; items can also demand a TOTP code or the
    approval of K of N signatories. Every request leaves a row in a hash-chained
    audit log, which can be archived and pruned ([audit_archive.rs]). Two clients
    can open an end-to-end encrypted tunnel that the server relays
    ([tunnel_relay.rs], [tunnel_crypto.rs]).

    The client ([main.rs], [client.rs]) keeps a profile sealed under a
    passphrase and a small unlock agent ([credstore.rs]), can encrypt before it
    sends, splits the keys of resident files with the server, and offers the
    crypto toolkit ([crypto_ops.rs], [crypto_cli.rs]) over local or managed keys.

    ** How code becomes definitions

    A handler or command is a program of the monad [Effects.M]: a tree of atomic
    actions on one [World] (tables, files, clock, random generator, pending
    faults), ended by a value, an early response or an error. One SQL statement
    or transaction, one file operation, one clock reading, one draw is one
    action. [run] executes a program alone; [Concurrency.pool_steps] interleaves
    any number of them action by action. A fault in [faults] makes the next
    fallible action fail, so every error path runs. Tables are lists of records
    ([Store.v]); machine integers are [Z] with their wrap-around or range checks
    written out ([wrap_i32], [wrap_i64], [in_range]), INTEGER counters included
    ([Auth.count_acl_use]); the 64-bit read counters are taken not to run out.
    Identifiers of twelve and more random bytes are taken to be new where a table
    has no other constraint that says so. Strings are byte strings; a derived
    [Serialize] writes its members in the order of the fields, and the parser
    reads them in any ([CryptoOps.json_norm]). A date past chrono's range is a
    panic ([Auth.expiry_in_days]), which ends the request (as [Raise 500]).

    What lies outside [src/] is a class of parameters with the documented facts
    the code relies on as laws, and a toy instance that satisfies them, for the
    witnesses:
    - [Crypto.Primitives], [PrimitiveLaws]: aes-gcm, aes-kw, sha3, scrypt,
      pbkdf2, ed25519-dalek, hex, base64 ([ToyPrimitives.v]);
    - [CryptoOps.OpsLib], [CryptoOpsProps.OpsLaws]: serde_json, hmac, sha2,
      argon2, HKDF, PEM ([ToyOps.v]);
    - [ServerBase.Platform]: chrono, totp-rs, rcgen, base32 ([ToyPlatform.v]);
    - [Archive.ArchiveCodec] (gzip), [Persistence.KeyCodec], [Persistence.CaLib],
      [Tunnel.TunnelPrimitives] (X25519, P-256);
    - [CredStore.Environment]: environment variables, home directory, terminal;
    - [Client.UrlLib] and [Routes.Web]: the url crate, reqwest's and actix's
      parsing of requests;
    - [connect], [ClientSecrets.ServerApi], [KeyClient.KeyApi]: the server as a
      command sees it; [blackbook_api] and [blackbook_keys] are the instances
      made of the handlers of this library, and [secrets_over_http] says that the
      client's calls over the routes are those of the first.

    ** Files

    Foundations:
    - [Prelude], [Text], [Unicode]: notations, tactics, integers, strings, UTF-8;
    - [Store], [Effects], [Concurrency]: tables, programs, interleavings and an
      accounting logic for "at most n of them end in this way";
    - [Crypto], [CryptoProps]: [blackbook_core.rs];
    - [CryptoOps], [CryptoOpsProps]: [crypto_ops.rs].

    Server:
    - [AccessRules]: the pure rules of [auth.rs] (glob matcher, cron window, rate);
    - [ServerBase]: helpers of [server.rs];
    - [AuditLog], [AuditChain]: the log and its chain; [Archive],
      [ArchiveProps]: [audit_archive.rs] and its endpoints;
    - [Auth], [AuthProps]: [auth.rs] and the gates of [server.rs];
    - [Admin], [AdminProps]: clients, rules, domains, members;
    - [Threshold], [ThresholdProps]: K-of-N approvals and MFA endpoints;
    - [ReadLimit]: the interface (class [Limited]) by which secrets and files
      share the accounting of read counters;
    - [Secrets], [SecretsLemmas], [SecretsProps]: store, retrieve, delete, list, cleanup;
    - [Files], [FilesLemmas], [FilesContent], [FilesProps]: the file endpoints;
    - [Keys], [KeysProps]: [keys_api.rs];
    - [Tunnel], [TunnelProps]: [tunnel_crypto.rs]; [TunnelRelay], [RelayProps]:
      the relay as a step relation;
    - [Persistence], [PersistenceProps]: [persistence.rs] and the boot path of [main.rs].

    Client:
    - [CredStore], [FileSteps]: [credstore.rs] and reasoning about local files;
    - [Session], [SessionProps]: profiles ([client.rs], [main.rs]);
    - [External], [ExternalProps]: client-side encryption ([main.rs]);
    - [ClientSecrets], [ClientSecretsProps]: put, get, rekey against the server;
    - [Presentation]: [presentation.rs];
    - [KeyClient], [CryptoCommands], [CryptoCommandsProps]: the key calls of
      [client.rs] and all of [crypto_cli.rs];
    - [Client]: every HTTP call of [client.rs]; [Routes], [RoutesProps]: the route
      table of [run_server], and that each call reaches the handler it means;
    - [Mcp], [McpProps]: [mcp.rs];
    - [Commands], [CommandsProps], [ClientFiles], [ClientFilesProps]: the commands
      of [main.rs] over those calls, with what they print;
    - [Identity]: [whoami], [mfa] and [profile] ([main.rs]);
    - [WebConsole], [WebConsoleProps]: the endpoints of [webui.rs] over the child
      processes they start.

    A handler keeps its name; where its body goes through phases (lookup, gates,
    claim, answer) each phase is a definition of its own and the handler composes
    them in the order of the code.

    ** What the theorems show

    - Access: authentication needs both factors of one live client; revocation
      and rotation are final; nobody gains rights by administration calls they
      were not entitled to; a rule grants what it says; the glob matcher accepts
      only what the pattern means, and all of it on texts without a star; a
      served secret passed every gate of its row.
    - Quorum: a protected read needs K distinct signatories of the row's policy
      ([ThresholdProps.row_quorum]). The gate does not compare the domain and the
      policy a request was opened under, so the theorems name the one exception
      ([stray_quorum], [request_crosses_domains]); while requests and policies
      stay in step it does not arise ([requests_follow_policies]).
    - Limits under concurrency: reads never exceed the limit, an approval opens
      one read, a quorum is distinct signatories, approvals are not lost,
      immutable rows stay, key versions stay contiguous.
    - Integrity: the audit chain survives any interleaving and any fault, detects
      changes, and survives archiving and pruning.
    - Rotation: a rotation that reports success has put a fresh draw in the place
      of the data encryption key or the file key, and the master key, the
      contents, the policy and all else are what they were.
    - Round trips: files, profiles, resident stashes, local and managed
      ciphertexts, tokens, the data volume across restarts; client and server
      together from [put] to [get], for secrets and for files sealed by the server,
      by the client, or resident; every client call from its arguments to the
      handler and back; rate limits as [bbk acl ls] shows them; the words of a line
      quoted for the web console.
    - Confidentiality by construction: a resident file is sealed under a fresh key
      of which the server gets one half, and that half is consistent with every
      key; what [crypto encrypt] does before the envelope
      is written does not depend on the data.
    - Confinement: an MCP server runs only the tools it was allowed, without
      prompting and without network where it must not.
      A line typed into the web console runs at most this program, with those words; its
      profile menu is the list of profiles.
    - Tunnel: handshakes agree and bind, the channel refines a FIFO, nonces do not
      repeat, the relay confines traffic to the two parties.
    - Termination: loops of the code run on fuel that is proved enough. The glob
      matcher takes at most a round per pair of positions ([AccessRules.glob_fuel]); scrubbing one round per 4096 bytes
      ([FileSteps.scrub_terminates]: it may stop early on an I/O error, and has
      overwritten everything when there was none); [get --wait] polls every three seconds up to its
      deadline ([wait_fuel]); lossy UTF-8 decoding and PEM parsing consume a byte or a
      line per round.

    Cryptographic strength is not modelled: claims about it are stated as "or the
    hash collides", "the signature verifies under that key".

    ** Not modelled

    - in [main.rs] the argument parser and the dispatch, shell completion, the
      tunnel commands, the hints that go to standard error, and the order of the
      boot steps whose parts are in [Persistence];
    - the page of [webui.rs] and the actix application it is mounted in;
    - [tls.rs] and the HTTP, TLS and WebSocket libraries; sockets and tasks of
      [tunnel_client.rs];
    - [net_ratelimit.rs], a token bucket in floating point;
    - the identifiers, tokens and in-memory index of [blackbook_core.rs] that no
      handler uses. *)
From Stdlib Require Export ZArith Lia.
From Stdlib Require Import Strings.Byte Strings.String.
From Stdlib Require Export Strings.Ascii Sorting.Sorted.
From stdpp Require Export base gmap strings list pretty.

#[global] Set Default Goal Selector "!".

Declare Scope bbk_scope.
Delimit Scope bbk_scope with bbk.
Open Scope Z_scope.
Open Scope stdpp_scope.
Open Scope bbk_scope.

(** ** Bytes *)

Abbreviation byte := Byte.byte.
Abbreviation bytes := (list Byte.byte).

#[export] Instance byte_eq_dec : EqDecision byte := Byte.byte_eq_dec.

Definition Z_of_byte (b : byte) : Z := Z.of_N (Byte.to_N b).
Definition byte_of_Z (z : Z) : byte := default Byte.x00 (Byte.of_N (Z.to_N (z mod 256))).

(** [s.as_bytes()] and the unchecked inverse: a Rust string is held as its
    UTF-8 bytes, one [ascii] per byte. *)
Definition as_bytes (s : string) : bytes := String.list_byte_of_string s.
Definition of_bytes (b : bytes) : string := String.string_of_list_byte b.

Lemma Z_of_byte_range b : 0 <= Z_of_byte b < 256.
Proof.
  unfold Z_of_byte. pose proof (Byte.to_N_bounded b). lia.
Qed.

Lemma Z_of_byte_of_Z z : Z_of_byte (byte_of_Z z) = z mod 256.
Proof.
  unfold byte_of_Z. pose proof (Z.mod_pos_bound z 256 ltac:(lia)) as Hb.
  destruct (Byte.of_N (Z.to_N (z mod 256))) as [b|] eqn:E; simpl.
  - apply Byte.to_of_N in E. unfold Z_of_byte. rewrite E. lia.
  - apply Byte.of_N_None_iff in E. lia.
Qed.

Lemma byte_of_Z_of_byte b : byte_of_Z (Z_of_byte b) = b.
Proof.
  unfold byte_of_Z, Z_of_byte. rewrite Z.mod_small by apply Z_of_byte_range.
  by rewrite N2Z.id, Byte.of_to_N.
Qed.

Lemma Z_of_byte_inj b c : Z_of_byte b = Z_of_byte c -> b = c.
Proof. intros H. by rewrite <- (byte_of_Z_of_byte b), H, byte_of_Z_of_byte. Qed.

Lemma of_as_bytes s : of_bytes (as_bytes s) = s.
Proof. apply String.string_of_list_byte_of_string. Qed.

Lemma as_of_bytes b : as_bytes (of_bytes b) = b.
Proof. apply String.list_byte_of_string_of_list_byte. Qed.

Lemma as_bytes_inj s t : as_bytes s = as_bytes t -> s = t.
Proof. intros H. by rewrite <- (of_as_bytes s), H, of_as_bytes. Qed.

Lemma as_bytes_app s t : as_bytes (s +:+ t) = as_bytes s ++ as_bytes t.
Proof.
  induction s as [|c s IH]; [done|].
  change (as_bytes (String c s +:+ t)) with (Ascii.byte_of_ascii c :: as_bytes (s +:+ t)).
  by rewrite IH.
Qed.

(** ** Big-endian machine integers: [to_be_bytes] / [from_be_bytes] *)

Fixpoint be_bytes (n : nat) (z : Z) : bytes :=
  match n with
  | O => []
  | S n' => be_bytes n' (z / 256) ++ [byte_of_Z z]
  end.

Definition be_value (bs : bytes) : Z :=
  foldl (fun acc b => acc * 256 + Z_of_byte b) 0 bs.

Lemma be_bytes_length n z : length (be_bytes n z) = n.
Proof. revert z. induction n as [|n IH]; intros z; [done|]. simpl. rewrite length_app, IH. simpl. lia. Qed.

Lemma be_value_snoc bs b : be_value (bs ++ [b]) = be_value bs * 256 + Z_of_byte b.
Proof. unfold be_value. by rewrite foldl_app. Qed.

Lemma be_value_be_bytes n z : be_value (be_bytes n z) = z mod 256 ^ Z.of_nat n.
Proof.
  revert z. induction n as [|n IH]; intros z; [by rewrite Z.mod_1_r|].
  cbn [be_bytes]. rewrite be_value_snoc, IH, Z_of_byte_of_Z.
  rewrite Nat2Z.inj_succ, Z.pow_succ_r by lia.
  rewrite Z.rem_mul_r by lia. lia.
Qed.

Lemma be_bytes_inj n x y :
  be_bytes n x = be_bytes n y -> x mod 256 ^ Z.of_nat n = y mod 256 ^ Z.of_nat n.
Proof. intros H. by rewrite <- !be_value_be_bytes, H. Qed.

(** Rust's [as u32], [as i32], [i64] wrap-around. *)
Definition wrap_u32 (z : Z) : Z := z mod 2 ^ 32.
Definition wrap_signed (w z : Z) : Z := (z + 2 ^ (w - 1)) mod 2 ^ w - 2 ^ (w - 1).
Definition wrap_i32 (z : Z) : Z := wrap_signed 32 z.
Definition wrap_i64 (z : Z) : Z := wrap_signed 64 z.
Definition i64_max : Z := 2 ^ 63 - 1.
Definition i32_max : Z := 2 ^ 31 - 1.
Definition i64_min : Z := - 2 ^ 63.
Definition u64_max : Z := 2 ^ 64 - 1.

Lemma wrap_signed_id w z : 0 < w -> - 2 ^ (w - 1) <= z < 2 ^ (w - 1) -> wrap_signed w z = z.
Proof.
  intros Hw Hz. unfold wrap_signed.
  assert (2 ^ w = 2 * 2 ^ (w - 1)).
  { rewrite <- Z.pow_succ_r by lia. f_equal. lia. }
  rewrite Z.mod_small; lia.
Qed.

Lemma wrap_i32_id z : - 2 ^ 31 <= z < 2 ^ 31 -> wrap_i32 z = z.
Proof. intros. apply wrap_signed_id; [lia|]. by change (32 - 1) with 31. Qed.

Lemma wrap_i64_id z : i64_min <= z <= i64_max -> wrap_i64 z = z.
Proof. unfold i64_min, i64_max. intros. apply wrap_signed_id; [lia|]. change (64 - 1) with 63. lia. Qed.

(** ** UTF-8: [String::from_utf8] and [str::chars] *)

Definition is_cont (b : Z) : bool := (128 <=? b) && (b <=? 191).

(** Second byte of a three-byte sequence (no overlong form, no surrogate). *)
Definition ok3 (a b : Z) : bool :=
  if a =? 224 then (160 <=? b) && (b <=? 191)
  else if a =? 237 then (128 <=? b) && (b <=? 159)
  else (225 <=? a) && (a <=? 239) && is_cont b.

(** Second byte of a four-byte sequence (no overlong form, at most U+10FFFF). *)
Definition ok4 (a b : Z) : bool :=
  if a =? 240 then (144 <=? b) && (b <=? 191)
  else if a =? 244 then (128 <=? b) && (b <=? 143)
  else (241 <=? a) && (a <=? 243) && is_cont b.

(** Scalar values of a byte string; [None] when it is not UTF-8. *)
Fixpoint utf8_decode (bs : list Z) : option (list Z) :=
  match bs with
  | [] => Some []
  | a :: r1 =>
    if (0 <=? a) && (a <? 128) then cons a <$> utf8_decode r1
    else match r1 with
    | [] => None
    | b :: r2 =>
      if (194 <=? a) && (a <=? 223) && is_cont b
      then cons (a mod 32 * 64 + b mod 64) <$> utf8_decode r2
      else match r2 with
      | [] => None
      | c :: r3 =>
        if ok3 a b && is_cont c
        then cons (a mod 16 * 4096 + b mod 64 * 64 + c mod 64) <$> utf8_decode r3
        else match r3 with
        | [] => None
        | d :: r4 =>
          if ok4 a b && is_cont c && is_cont d
          then cons (a mod 8 * 262144 + b mod 64 * 4096 + c mod 64 * 64 + d mod 64)
                 <$> utf8_decode r4
          else None
        end
      end
    end
  end.

Definition from_utf8 (b : bytes) : option string :=
  match utf8_decode (Z_of_byte <$> b) with
  | Some _ => Some (of_bytes b)
  | None => None
  end.

(** A Rust [&str] is UTF-8 by construction. *)
Definition is_str (s : string) : Prop := from_utf8 (as_bytes s) = Some s.

(** [s.chars()] as scalar values. *)
Definition chars (s : string) : list Z := default [] (utf8_decode (Z_of_byte <$> as_bytes s)).

Lemma from_utf8_as_bytes b s : from_utf8 b = Some s -> as_bytes s = b.
Proof.
  unfold from_utf8. destruct (utf8_decode _); [|done].
  intros [= <-]. apply as_of_bytes.
Qed.

(** ** String helpers of the Rust standard library *)

Fixpoint strip_prefix (p s : string) : option string :=
  match p, s with
  | EmptyString, _ => Some s
  | String a p', String b s' => if Ascii.eqb a b then strip_prefix p' s' else None
  | String _ _, EmptyString => None
  end.

Definition starts_with (p s : string) : bool := bool_decide (is_Some (strip_prefix p s)).

Lemma strip_prefix_app p s : strip_prefix p (p +:+ s) = Some s.
Proof.
  induction p as [|a p IH]; [done|].
  change (String a p +:+ s) with (String a (p +:+ s)). simpl. by rewrite Ascii.eqb_refl.
Qed.

Lemma strip_prefix_Some p s r : strip_prefix p s = Some r -> s = p +:+ r.
Proof.
  revert s. induction p as [|a p IH]; intros s; [by intros [= ->]|].
  destruct s as [|b s]; simpl; [done|]. destruct (Ascii.eqb_spec a b) as [->|]; [|done].
  intros H%IH. by rewrite H.
Qed.

Arguments strip_prefix : simpl never.

(** [s.contains(sub)], [s.ends_with(suf)] *)
Fixpoint str_contains (sub s : string) : bool :=
  starts_with sub s || match s with EmptyString => false | String _ s' => str_contains sub s' end.

Fixpoint ends_with (suf s : string) : bool :=
  String.eqb suf s || match s with EmptyString => false | String _ s' => ends_with suf s' end.

(** [s.split_once(c)] for a one-byte separator. *)
Fixpoint split_once (c : Ascii.ascii) (s : string) : option (string * string) :=
  match s with
  | EmptyString => None
  | String a s' =>
      if Ascii.eqb a c then Some (EmptyString, s')
      else match split_once c s' with
           | Some (l, r) => Some (String a l, r)
           | None => None
           end
  end.

(** [s.split(c)] for a one-byte separator: always at least one piece. *)
Fixpoint split_on (c : Ascii.ascii) (s : string) : list string :=
  match s with
  | EmptyString => [EmptyString]
  | String a s' =>
      if Ascii.eqb a c then EmptyString :: split_on c s'
      else match split_on c s' with
           | p :: ps => String a p :: ps
           | [] => [String a EmptyString]
           end
  end.

(** Does the string hold the one-byte character [c]? *)
Fixpoint has_char (c : Ascii.ascii) (s : string) : bool :=
  match s with
  | EmptyString => false
  | String a s' => Ascii.eqb a c || has_char c s'
  end.

Lemma split_once_app c p s :
  has_char c p = false -> split_once c (p +:+ String c s) = Some (p, s).
Proof.
  induction p as [|a p IH]; simpl; intros H.
  - change (EmptyString +:+ String c s) with (String c s). simpl. by rewrite Ascii.eqb_refl.
  - apply orb_false_iff in H as [Ha Hp].
    change (String a p +:+ String c s) with (String a (p +:+ String c s)). simpl.
    by rewrite Ha, IH.
Qed.

(** Bytes of the Unicode [White_Space] character a string starts with ([0]: none). *)
Definition ws_len (s : string) : nat :=
  match Z_of_byte <$> as_bytes (substring 0 3 s) with
  | a :: rest =>
      if ((9 <=? a) && (a <=? 13)) || (a =? 32) then 1%nat
      else match rest with
      | b :: rest' =>
          if (a =? 194) && ((b =? 133) || (b =? 160)) then 2%nat
          else match rest' with
          | c :: _ =>
              if ((a =? 225) && (b =? 154) && (c =? 128))
                 || ((a =? 226) && (b =? 128)
                     && (((128 <=? c) && (c <=? 138)) || (c =? 168) || (c =? 169) || (c =? 175)))
                 || ((a =? 226) && (b =? 129) && (c =? 159))
                 || ((a =? 227) && (b =? 128) && (c =? 128))
              then 3%nat else 0%nat
          | [] => 0%nat
          end
      | [] => 0%nat
      end
  | [] => 0%nat
  end.

(** [skip] counts the remaining bytes of a multi-byte space being dropped. *)
Fixpoint trim_start_aux (skip : nat) (s : string) : string :=
  match s with
  | EmptyString => EmptyString
  | String a s' =>
      match skip with
      | S k => trim_start_aux k s'
      | O => match ws_len s with O => s | S k => trim_start_aux k s' end
      end
  end.

Definition trim_start (s : string) : string := trim_start_aux 0 s.

(** [trim_end]: cut the string where only white space follows. *)
Fixpoint trim_end (s : string) : string :=
  match s with
  | EmptyString => EmptyString
  | String a s' =>
      if String.eqb (trim_start s) EmptyString then EmptyString else String a (trim_end s')
  end.

Definition trim (s : string) : string := trim_end (trim_start s).

(** [split_whitespace]: the maximal runs of non-space characters. *)
Fixpoint split_ws_aux (skip : nat) (cur : string) (s : string) : list string :=
  let flush := if String.eqb cur EmptyString then [] else [cur] in
  match s with
  | EmptyString => flush
  | String a s' =>
      match skip with
      | S k => split_ws_aux k cur s'
      | O => match ws_len s with
             | O => split_ws_aux 0 (cur +:+ String a EmptyString) s'
             | S k => flush ++ split_ws_aux k EmptyString s'
             end
      end
  end.

Definition split_whitespace (s : string) : list string := split_ws_aux 0 EmptyString s.

(** [to_ascii_lowercase] *)
Definition ascii_lower (a : Ascii.ascii) : Ascii.ascii :=
  let n := Ascii.nat_of_ascii a in
  if ((65 <=? n) && (n <=? 90))%nat then Ascii.ascii_of_nat (n + 32) else a.

Fixpoint to_ascii_lowercase (s : string) : string :=
  match s with
  | EmptyString => EmptyString
  | String a s' => String (ascii_lower a) (to_ascii_lowercase s')
  end.

(** *** [str::parse] for integers *)

Definition digit_of (a : Ascii.ascii) : option Z :=
  let n := Z.of_nat (Ascii.nat_of_ascii a) in
  if (48 <=? n) && (n <=? 57) then Some (n - 48) else None.

Fixpoint parse_digits (acc : Z) (s : string) : option Z :=
  match s with
  | EmptyString => Some acc
  | String a s' => match digit_of a with Some d => parse_digits (acc * 10 + d) s' | None => None end
  end.

Definition parse_magnitude (s : string) : option Z :=
  if String.eqb s EmptyString then None else parse_digits 0 s.

Definition in_range (lo hi : Z) (z : Z) : option Z :=
  if (lo <=? z) && (z <=? hi) then Some z else None.

(** [parse::<u32>()]: an optional [+], then digits, at most [u32::MAX]. *)
Definition parse_u32 (s : string) : option Z :=
  z ← parse_magnitude (default s (strip_prefix "+" s)); in_range 0 (2 ^ 32 - 1) z.

(** [parse::<i32>()]: an optional sign, then digits, in range. *)
Definition parse_i32 (s : string) : option Z :=
  match strip_prefix "-" s with
  | Some r => z ← parse_magnitude r; in_range (- 2 ^ 31) (2 ^ 31 - 1) (- z)
  | None => z ← parse_magnitude (default s (strip_prefix "+" s));
            in_range (- 2 ^ 31) (2 ^ 31 - 1) z
  end.

(** [trim_start_matches] and [trim_end_matches] of one character. *)
Fixpoint trim_start_char (c : Ascii.ascii) (s : string) : string :=
  match s with String a s' => if Ascii.eqb a c then trim_start_char c s' else s | "" => "" end.
Fixpoint trim_end_char (c : Ascii.ascii) (s : string) : string :=
  match s with
  | "" => ""
  | String a s' => match trim_end_char c s' with "" => if Ascii.eqb a c then "" else String a "" | r => String a r end
  end.

Definition is_set {A} (o : option A) : bool := match o with Some _ => true | None => false end.

(** [i64::from_str]: an optional sign and at least one digit. *)
Definition parse_i64 (s : string) : option Z :=
  z ← match strip_prefix "-" s with
      | Some r => Z.opp <$> parse_magnitude r
      | None => parse_magnitude (default s (strip_prefix "+" s))
      end;
  in_range i64_min i64_max z.

(** [format!("{n}")] *)
Definition show_Z (z : Z) : string := pretty z.

(** ** Fallible computations: Rust's [Result] *)

Inductive result (E A : Type) : Type :=
| Ok (a : A)
| Err (e : E).
Arguments Ok {E A} a.
Arguments Err {E A} e.

#[export] Instance result_ret E : MRet (result E) := fun A a => Ok a.
#[export] Instance result_bind E : MBind (result E) :=
  fun A B f m => match m with Ok a => f a | Err e => Err e end.
#[export] Instance result_fmap E : FMap (result E) :=
  fun A B f m => match m with Ok a => Ok (f a) | Err e => Err e end.
#[export] Instance result_eq_dec E A `{EqDecision E, EqDecision A} : EqDecision (result E A).
Proof. solve_decision. Defined.

Definition ok_or {E A} (e : E) (o : option A) : result E A :=
  match o with Some a => Ok a | None => Err e end.
Definition map_err {E E' A} (f : E -> E') (r : result E A) : result E' A :=
  match r with Ok a => Ok a | Err e => Err (f e) end.
Definition ok {E A} (r : result E A) : option A :=
  match r with Ok a => Some a | Err _ => None end.
Definition unwrap_or {E A} (d : A) (r : result E A) : A :=
  match r with Ok a => a | Err _ => d end.

Lemma result_bind_Ok {E A B} (m : result E A) (f : A -> result E B) b :
  (m ≫= f) = Ok b -> exists a, m = Ok a /\ f a = Ok b.
Proof. destruct m as [a|e]; simpl; [eauto|done]. Qed.

Lemma bind_Ok {E A B} (a : A) (f : A -> result E B) : Ok a ≫= f = f a.
Proof. done. Qed.
Lemma bind_Err {E A B} (e : E) (f : A -> result E B) : Err e ≫= f = Err e.
Proof. done. Qed.
Create Rewrite HintDb bbk.
#[export] Hint Rewrite @bind_Ok @bind_Err : bbk.

(** ** Tactics *)

(** Break a successful chain of [result] binds into its steps. *)
Ltac result_inv :=
  repeat match goal with
  | H : (_ ≫= _) = Ok _ |- _ => apply result_bind_Ok in H as (? & ? & ?)
  | H : ok_or _ ?o = Ok _ |- _ => destruct o eqn:?; simpl in H; [|discriminate H]
  | H : Ok _ = Ok _ |- _ => injection H as H; try subst
  | H : Err _ = Ok _ |- _ => discriminate H
  | H : Ok _ = Err _ |- _ => discriminate H
  end.

(** Turn boolean tests of the source into propositions. *)
Ltac bool_to_prop :=
  repeat match goal with
  | H : _ && _ = true |- _ => apply andb_true_iff in H as [? ?]
  | H : _ || _ = false |- _ => apply orb_false_iff in H as [? ?]
  | H : negb _ = true |- _ => apply negb_true_iff in H
  | H : negb _ = false |- _ => apply negb_false_iff in H
  | H : (_ =? _) = true |- _ => apply Z.eqb_eq in H
  | H : (_ =? _) = false |- _ => apply Z.eqb_neq in H
  | H : (_ <=? _) = true |- _ => apply Z.leb_le in H
  | H : (_ <=? _) = false |- _ => apply Z.leb_gt in H
  | H : (_ <? _) = true |- _ => apply Z.ltb_lt in H
  | H : (_ <? _) = false |- _ => apply Z.ltb_ge in H
  | H : String.eqb _ _ = true |- _ => apply String.eqb_eq in H
  | H : String.eqb _ _ = false |- _ => apply String.eqb_neq in H
  | H : bool_decide _ = true |- _ => apply bool_decide_eq_true in H
  | H : bool_decide _ = false |- _ => apply bool_decide_eq_false in H
  end.

(** ** Ordered query results ([ORDER BY key]) *)

Section order_by.
Context {A : Type} (key : A -> Z).

Fixpoint insert_by (x : A) (l : list A) : list A :=
  match l with
  | [] => [x]
  | y :: l' => if key x <=? key y then x :: l else y :: insert_by x l'
  end.

(** Ascending and stable; a descending order negates the key. *)
Definition order_by (l : list A) : list A := foldr insert_by [] l.

Lemma insert_by_perm x l : insert_by x l ≡ₚ x :: l.
Proof.
  induction l as [|y l IH]; simpl; [done|]. case_match; [done|]. rewrite IH. apply Permutation_swap.
Qed.

Lemma order_by_perm l : order_by l ≡ₚ l.
Proof. induction l as [|x l IH]; simpl; [done|]. by rewrite insert_by_perm, IH. Qed.

Lemma elem_of_order_by x l : x ∈ order_by l <-> x ∈ l.
Proof. by rewrite order_by_perm. Qed.

Lemma insert_by_last x l : (forall y, y ∈ l -> key y < key x) -> insert_by x l = l ++ [x].
Proof.
  induction l as [|y l IH]; intros H; [done|]. simpl.
  destruct (Z.leb_spec (key x) (key y)) as [Hle|_].
  - specialize (H y (list_elem_of_here _ _)). lia.
  - rewrite IH; [done|]. intros z Hz. apply H. by right.
Qed.

(** A strictly ascending table is already in [ORDER BY key] order. *)
Lemma order_by_ascending l : StronglySorted Z.lt (key <$> l) -> order_by l = l.
Proof.
  induction l as [|x l IH]; intros Hs; [done|]. apply StronglySorted_inv in Hs as [Hs Hx].
  simpl. rewrite IH by done. destruct l as [|y l]; [done|]. simpl.
  apply Forall_cons in Hx as [Hxy _]. by rewrite (proj2 (Z.leb_le _ _)) by lia.
Qed.
End order_by.

Lemma order_by_descending {A} (key : A -> Z) l :
  StronglySorted Z.lt (key <$> l) -> order_by (fun r => - key r) l = rev l.
Proof.
  induction l as [|x l IH]; intros Hs; [done|]. apply StronglySorted_inv in Hs as [Hs Hx].
  simpl. rewrite IH by done. apply insert_by_last. intros y Hy.
  rewrite <- in_rev, <- list_elem_of_In in Hy || rewrite list_elem_of_In, <- in_rev, <- list_elem_of_In in Hy.
  rewrite Forall_forall in Hx. specialize (Hx (key y)). 
  assert (key y ∈ key <$> l) as Hin by (by apply list_elem_of_fmap_2). specialize (Hx Hin). lia.
Qed.

Lemma StronglySorted_snoc (l : list Z) z :
  StronglySorted Z.lt l -> Forall (fun y => y < z) l -> StronglySorted Z.lt (l ++ [z]).
Proof.
  induction 1 as [|x l Hs IH Hx]; intros Hz; [by repeat constructor|].
  apply Forall_cons in Hz as [Hxz Hz]. simpl. constructor; [by apply IH|].
  apply Forall_app. split; [done|]. by repeat constructor.
Qed.

(** ** Optional strings are UTF-8 *)
Definition is_str_opt (o : option string) : Prop := match o with Some s => is_str s | None => True end.
