(* ===== verification/Text.v ===== *)
(** Lemmas on the text operations of the prelude: graphic strings are not
    trimmed, separators split what was joined, decimal numbers read back. *)
From S2P Require Import Prelude.

Fixpoint all_chars (f : Ascii.ascii -> bool) (s : string) : bool :=
  match s with "" => true | String a s' => f a && all_chars f s' end.

(** Printable ASCII without the space. *)
Definition graphic (a : Ascii.ascii) : bool :=
  let n := Z.of_nat (Ascii.nat_of_ascii a) in (33 <=? n) && (n <=? 126).

Lemma string_app_cons a s t : String a s +:+ t = String a (s +:+ t).
Proof. done. Qed.
Lemma string_app_nil_l s : "" +:+ s = s.
Proof. done. Qed.
Lemma string_app_nil_r s : s +:+ "" = s.
Proof. induction s as [|a s IH]; [done|]. by rewrite string_app_cons, IH. Qed.
Lemma string_app_assoc s t u : (s +:+ t) +:+ u = s +:+ (t +:+ u).
Proof. induction s as [|a s IH]; [done|]. by rewrite !string_app_cons, IH. Qed.
Lemma string_app_length s t : String.length (s +:+ t) = (String.length s + String.length t)%nat.
Proof. induction s as [|a s IH]; [done|]. rewrite string_app_cons. simpl. by rewrite IH. Qed.

Lemma all_chars_app f s t : all_chars f (s +:+ t) = all_chars f s && all_chars f t.
Proof. induction s as [|a s IH]; [done|]. rewrite string_app_cons. simpl. by rewrite IH, andb_assoc. Qed.

Lemma all_chars_impl (f g : Ascii.ascii -> bool) s :
  (forall a, f a = true -> g a = true) -> all_chars f s = true -> all_chars g s = true.
Proof.
  intros H. induction s as [|a s IH]; [done|]. simpl. intros [Ha Hs]%andb_true_iff. by rewrite H, IH.
Qed.

Lemma has_char_all c f s : all_chars f s = true -> f c = false -> has_char c s = false.
Proof.
  intros H Hc. induction s as [|a s IH]; [done|]. simpl in *. apply andb_true_iff in H as [Ha Hs].
  rewrite IH by done. destruct (Ascii.eqb_spec a c) as [->|]; [congruence|done].
Qed.

(** ** Trimming *)

Lemma byte_of_ascii a : Z_of_byte (Ascii.byte_of_ascii a) = Z.of_nat (Ascii.nat_of_ascii a).
Proof. destruct a as [[] [] [] [] [] [] [] []]; reflexivity. Qed.

Lemma ws_len_graphic a s : graphic a = true -> ws_len (String a s) = 0%nat.
Proof.
  unfold graphic. intros H. assert (Ha : exists n t, Z_of_byte <$> as_bytes (String.substring 0 3 (String a s)) = n :: t /\
    33 <= n <= 126).
  { eexists _, _. split; [simpl; reflexivity|]. rewrite byte_of_ascii. lia. }
  destruct Ha as (n & t & Ha & Hn). unfold ws_len. rewrite Ha.
  assert (((9 <=? n) && (n <=? 13)) || (n =? 32) = false) as -> by lia.
  destruct t as [|b t]; [done|]. assert (n =? 194 = false) as -> by lia. cbn [andb].
  destruct t as [|c t]; [done|].
  assert (n =? 225 = false) as -> by lia. assert (n =? 226 = false) as -> by lia.
  assert (n =? 227 = false) as -> by lia. done.
Qed.

Lemma trim_start_graphic a s : graphic a = true -> trim_start (String a s) = String a s.
Proof. intros H. unfold trim_start. cbn [trim_start_aux]. by rewrite ws_len_graphic. Qed.

Lemma trim_graphic s : all_chars graphic s = true -> trim s = s.
Proof.
  intros H. unfold trim. assert (trim_start s = s) as ->.
  { destruct s as [|a s]; [done|]. simpl in H. apply andb_true_iff in H as [Ha _]. by apply trim_start_graphic. }
  induction s as [|a s IH]; [done|]. cbn [all_chars] in H. apply andb_true_iff in H as [Ha Hs]. cbn [trim_end].
  rewrite trim_start_graphic by done. simpl. by rewrite IH.
Qed.

(** ** Splitting *)

Lemma split_on_last c p : has_char c p = false -> split_on c p = [p].
Proof.
  induction p as [|a p IH]; [done|]. simpl. intros [Ha Hp]%orb_false_iff. by rewrite Ha, IH.
Qed.

Lemma split_on_app c p s : has_char c p = false -> split_on c (p +:+ String c s) = p :: split_on c s.
Proof.
  induction p as [|a p IH]; intros H.
  - rewrite string_app_nil_l. simpl. by rewrite Ascii.eqb_refl.
  - simpl in H. apply orb_false_iff in H as [Ha Hp]. rewrite string_app_cons. simpl. by rewrite Ha, IH.
Qed.

(** ** Decimal numbers *)

Definition is_digit (a : Ascii.ascii) : bool := match digit_of a with Some _ => true | None => false end.

Lemma digit_of_pretty x : (x < 10)%N -> digit_of (pretty_N_char x) = Some (Z.of_N x).
Proof.
  intros H. assert (x = 0 \/ x = 1 \/ x = 2 \/ x = 3 \/ x = 4 \/ x = 5 \/ x = 6 \/ x = 7 \/ x = 8 \/ x = 9)%N
    as Hx by lia.
  by destruct Hx as [->|[->|[->|[->|[->|[->|[->|[->|[->| ->]]]]]]]]].
Qed.

Lemma pretty_N_go_unfold x s : (0 < x)%N ->
  pretty_N_go x s = pretty_N_go (x / 10) (String (pretty_N_char (x mod 10)) s).
Proof. intros H. by rewrite pretty_N_go_step. Qed.

Lemma parse_digits_pretty x s : parse_digits 0 (pretty_N_go x s) = parse_digits (Z.of_N x) s.
Proof.
  revert s. induction (N.lt_wf_0 x) as [x _ IH]. intros s.
  destruct (N.eq_0_gt_0_cases x) as [->|Hx]; [by rewrite pretty_N_go_0|].
  rewrite pretty_N_go_unfold, IH by (try apply N.div_lt; lia). simpl.
  rewrite digit_of_pretty by (apply N.mod_lt; lia). f_equal.
  rewrite N2Z.inj_div, N2Z.inj_mod. pose proof (Z.div_mod (Z.of_N x) 10). lia.
Qed.

Lemma pretty_N_go_digits x s : all_chars is_digit s = true -> all_chars is_digit (pretty_N_go x s) = true.
Proof.
  revert s. induction (N.lt_wf_0 x) as [x _ IH]. intros s Hs.
  destruct (N.eq_0_gt_0_cases x) as [->|Hx]; [by rewrite pretty_N_go_0|].
  rewrite pretty_N_go_unfold by done. apply IH; [apply N.div_lt; lia|]. simpl.
  unfold is_digit at 1. by rewrite digit_of_pretty by (apply N.mod_lt; lia).
Qed.

Lemma show_Z_digits z : 0 < z -> all_chars is_digit (show_Z z) = true /\ parse_magnitude (show_Z z) = Some z.
Proof.
  intros Hz. assert (He : show_Z z = pretty_N_go (Z.to_N z) "").
  { destruct z as [|p|p]; [lia| |lia]. unfold show_Z. reflexivity. }
  rewrite He. split; [by apply pretty_N_go_digits|]. unfold parse_magnitude.
  destruct (String.eqb_spec (pretty_N_go (Z.to_N z) "") "") as [E|_].
  - pose proof (parse_digits_pretty (Z.to_N z) "") as H. rewrite E in H. simpl in H. injection H. lia.
  - rewrite parse_digits_pretty. simpl. f_equal. lia.
Qed.

Lemma is_digit_inv a : is_digit a = true -> 48 <= Z.of_nat (Ascii.nat_of_ascii a) <= 57.
Proof. unfold is_digit, digit_of. destruct (_ && _) eqn:E; [|done]. lia. Qed.

Lemma digits_graphic s : all_chars is_digit s = true -> all_chars graphic s = true.
Proof. apply all_chars_impl. intros a H%is_digit_inv. unfold graphic. lia. Qed.

Lemma parse_i32_show z : 0 < z < 2 ^ 31 -> parse_i32 (show_Z z) = Some z.
Proof.
  intros Hz. destruct (show_Z_digits z ltac:(lia)) as [Hd Hp].
  assert (Hs : forall c r, is_digit c = false -> strip_prefix (String c "") (show_Z z) = Some r -> False).
  { intros c r Hc H. apply strip_prefix_Some in H. rewrite H, string_app_cons in Hd. simpl in Hd. by rewrite Hc in Hd. }
  unfold parse_i32. destruct (strip_prefix "-" (show_Z z)) as [r|] eqn:E; [by apply Hs in E|].
  destruct (strip_prefix "+" (show_Z z)) as [r|] eqn:E'; [by apply Hs in E'|]. simpl. rewrite Hp. simpl.
  unfold in_range. assert ((- 2 ^ 31 <=? z) && (z <=? 2 ^ 31 - 1) = true) as ->; [lia|done].
Qed.

(** ** ASCII text is UTF-8 *)

Lemma utf8_decode_ascii l : Forall (fun z => 0 <= z < 128) l -> utf8_decode l = Some l.
Proof.
  induction 1 as [|z l Hz _ IH]; [done|]. simpl. assert ((0 <=? z) && (z <? 128) = true) as -> by lia. by rewrite IH.
Qed.

Definition is_ascii (a : Ascii.ascii) : bool := Z.of_nat (Ascii.nat_of_ascii a) <? 128.

Lemma ascii_is_str s : all_chars is_ascii s = true -> is_str s.
Proof.
  intros H. unfold is_str, from_utf8. rewrite utf8_decode_ascii; [simpl; by rewrite of_as_bytes|].
  induction s as [|a s IH]; [constructor|]. cbn [all_chars] in H. apply andb_true_iff in H as [Ha Hs].
  change (as_bytes (String a s)) with (Ascii.byte_of_ascii a :: as_bytes s). rewrite fmap_cons.
  constructor; [|by apply IH]. rewrite byte_of_ascii. unfold is_ascii in Ha. lia.
Qed.

Lemma digits_ascii s : all_chars is_digit s = true -> all_chars is_ascii s = true.
Proof. apply all_chars_impl. intros a H%is_digit_inv. unfold is_ascii. lia. Qed.

Lemma show_Z_ascii z : all_chars is_ascii (show_Z z) = true.
Proof.
  destruct (Z.lt_trichotomy z 0) as [Hz|[->|Hz]]; [|done|].
  - assert (show_Z z = "-" +:+ show_Z (- z)) as -> by (destruct z; done || lia).
    rewrite all_chars_app. simpl. apply digits_ascii, show_Z_digits. lia.
  - apply digits_ascii, show_Z_digits. lia.
Qed.
