(* ===== verification/Unicode.v ===== *)
(** Strings as sequences of scalar values: [char::encode_utf8], [String] built
    from [char]s, and [String::from_utf8_lossy]. *)
From S2P Require Import Prelude Text.

(** A Unicode scalar value: no surrogate, at most U+10FFFF. *)
Definition is_scalar (c : Z) : bool := ((0 <=? c) && (c <? 55296)) || ((57344 <=? c) && (c <=? 1114111)).

(** [char::encode_utf8] *)
Definition utf8_encode (c : Z) : list Z :=
  if c <? 128 then [c]
  else if c <? 2048 then [192 + c / 64; 128 + c mod 64]
  else if c <? 65536 then [224 + c / 4096; 128 + c / 64 mod 64; 128 + c mod 64]
  else [240 + c / 262144; 128 + c / 4096 mod 64; 128 + c / 64 mod 64; 128 + c mod 64].

(** [chars.collect::<String>()] *)
Definition str_of_chars (cs : list Z) : string := of_bytes (byte_of_Z <$> concat (utf8_encode <$> cs)).

(** The length of the well-formed sequence at the head, or of the longest
    prefix of one, which is what a replacement character stands for. *)
Definition utf8_head (bs : list Z) : bool * nat :=
  match bs with
  | [] => (false, 0%nat)
  | a :: r =>
      if (0 <=? a) && (a <? 128) then (true, 1%nat)
      else if (194 <=? a) && (a <=? 223) then
        match r with b :: _ => if is_cont b then (true, 2%nat) else (false, 1%nat) | [] => (false, 1%nat) end
      else
        match r with
        | b :: r2 =>
            if ok3 a b then
              match r2 with c :: _ => if is_cont c then (true, 3%nat) else (false, 2%nat) | [] => (false, 2%nat) end
            else if ok4 a b then
              match r2 with
              | c :: r3 =>
                  if is_cont c then
                    match r3 with d :: _ => if is_cont d then (true, 4%nat) else (false, 3%nat) | [] => (false, 3%nat) end
                  else (false, 2%nat)
              | [] => (false, 2%nat)
              end
            else (false, 1%nat)
        | [] => (false, 1%nat)
        end
  end.

Definition REPLACEMENT : list Z := [239; 191; 189].

(** Every round takes at least one byte. *)
Fixpoint lossy (fuel : nat) (bs : list Z) : list Z :=
  match fuel, bs with
  | S fuel', _ :: _ =>
      let '(good, n) := utf8_head bs in
      (if good : bool then take n bs else REPLACEMENT) ++ lossy fuel' (drop n bs)
  | _, _ => []
  end.

Definition from_utf8_lossy (b : bytes) : string :=
  of_bytes (byte_of_Z <$> lossy (length b) (Z_of_byte <$> b)).

(** ** Encoding reads back *)

#[local] Ltac Zify.zify_post_hook ::= Z.div_mod_to_equations.

#[local] Ltac decide_test t v := assert (t = v) as -> by (unfold is_cont, ok3, ok4; lia).

Lemma utf8_decode_encode c l r :
  is_scalar c = true -> utf8_decode r = Some l -> utf8_decode (utf8_encode c ++ r) = Some (c :: l).
Proof.
  intros Hc Hr. unfold is_scalar in Hc. unfold utf8_encode.
  destruct (c <? 128) eqn:E1; [|destruct (c <? 2048) eqn:E2; [|destruct (c <? 65536) eqn:E3]]; cbn [app utf8_decode].
  - decide_test ((0 <=? c) && (c <? 128)) true. by rewrite Hr.
  - decide_test ((0 <=? 192 + c / 64) && (192 + c / 64 <? 128)) false.
    decide_test ((194 <=? 192 + c / 64) && (192 + c / 64 <=? 223) && is_cont (128 + c mod 64)) true.
    rewrite Hr. cbn. do 2 f_equal. lia.
  - decide_test ((0 <=? 224 + c / 4096) && (224 + c / 4096 <? 128)) false.
    decide_test ((194 <=? 224 + c / 4096) && (224 + c / 4096 <=? 223) && is_cont (128 + c / 64 mod 64)) false.
    assert (ok3 (224 + c / 4096) (128 + c / 64 mod 64) && is_cont (128 + c mod 64) = true) as ->.
    { unfold ok3, is_cont. destruct (224 + c / 4096 =? 224) eqn:?; [lia|]. destruct (224 + c / 4096 =? 237) eqn:?; lia. }
    rewrite Hr. cbn. do 2 f_equal. lia.
  - decide_test ((0 <=? 240 + c / 262144) && (240 + c / 262144 <? 128)) false.
    decide_test ((194 <=? 240 + c / 262144) && (240 + c / 262144 <=? 223) && is_cont (128 + c / 4096 mod 64)) false.
    assert (ok3 (240 + c / 262144) (128 + c / 4096 mod 64) && is_cont (128 + c / 64 mod 64) = false) as ->.
    { unfold ok3. assert (240 + c / 262144 =? 224 = false) as -> by lia. assert (240 + c / 262144 =? 237 = false) as -> by lia. lia. }
    assert (ok4 (240 + c / 262144) (128 + c / 4096 mod 64) && is_cont (128 + c / 64 mod 64) && is_cont (128 + c mod 64) = true) as ->.
    { unfold ok4, is_cont. destruct (240 + c / 262144 =? 240) eqn:?; [lia|]. destruct (240 + c / 262144 =? 244) eqn:?; lia. }
    rewrite Hr. cbn. do 2 f_equal. lia.
Qed.

Lemma utf8_encode_range c z : is_scalar c = true -> z ∈ utf8_encode c -> 0 <= z < 256.
Proof.
  unfold is_scalar, utf8_encode. intros Hc Hz. repeat case_match; set_unfold in Hz; lia.
Qed.

Lemma chars_of_chars cs : forallb is_scalar cs = true -> chars (str_of_chars cs) = cs.
Proof.
  intros Hcs. unfold chars, str_of_chars. rewrite as_of_bytes.
  assert (Z_of_byte <$> (byte_of_Z <$> concat (utf8_encode <$> cs)) = concat (utf8_encode <$> cs)) as ->.
  { rewrite <- list_fmap_compose. rewrite <- (list_fmap_id (concat (utf8_encode <$> cs))) at 2. apply list_fmap_ext. intros i z Hz.
    apply list_elem_of_lookup_2, list_elem_of_In, in_concat in Hz as (l & Hl & Hz%list_elem_of_In).
    apply list_elem_of_In, list_elem_of_fmap in Hl as (c & -> & Hin).
    cbn. rewrite Z_of_byte_of_Z. apply Z.mod_small. eapply utf8_encode_range; [|exact Hz].
    rewrite forallb_forall in Hcs. by apply Hcs, list_elem_of_In. }
  assert (utf8_decode (concat (utf8_encode <$> cs)) = Some cs) as ->; [|done].
  induction cs as [|c cs IH]; [done|]. cbn [forallb] in Hcs. apply andb_true_iff in Hcs as [Hc Hcs].
  rewrite fmap_cons. cbn [concat]. apply utf8_decode_encode; [done|by apply IH].
Qed.

(** ** Lossy reading changes nothing in UTF-8 text *)

Lemma utf8_head_decode bs l : utf8_decode bs = Some l -> bs <> [] ->
  (utf8_head bs).1 = true /\ (0 < (utf8_head bs).2)%nat /\ exists l', utf8_decode (drop (utf8_head bs).2 bs) = Some l'.
Proof.
  destruct bs as [|a r]; [done|]. intros H _. cbn [utf8_decode utf8_head] in *.
  destruct ((0 <=? a) && (a <? 128)) eqn:E1.
  { apply fmap_Some in H as (l' & H & _). cbn. eauto with lia. }
  destruct r as [|b r]; [done|]. destruct ((194 <=? a) && (a <=? 223)) eqn:E2.
  { destruct (is_cont b) eqn:Eb; cbn [andb] in H.
    - apply fmap_Some in H as (l' & H & _). cbn. eauto with lia.
    - assert (ok3 a b = false) as E3. { unfold ok3, is_cont in *. destruct (a =? 224) eqn:?; [lia|]. destruct (a =? 237) eqn:?; lia. }
      assert (ok4 a b = false) as E4. { unfold ok4, is_cont in *. destruct (a =? 240) eqn:?; [lia|]. destruct (a =? 244) eqn:?; lia. }
      rewrite E3 in H. destruct r as [|c r]; [done|]. cbn [andb] in H. rewrite E4 in H. by destruct r. }
  cbn [andb] in H. destruct (ok3 a b) eqn:E3.
  { assert (ok4 a b = false) as E4.
    { unfold ok3, ok4, is_cont in *. destruct (a =? 224) eqn:?, (a =? 237) eqn:?, (a =? 240) eqn:?, (a =? 244) eqn:?; lia. }
    destruct r as [|c r]; [done|]. cbn [andb] in H. destruct (is_cont c).
    - apply fmap_Some in H as (l' & H & _). cbn. eauto with lia.
    - rewrite E4 in H. by destruct r. }
  destruct r as [|c r]; [done|]. cbn [andb] in H. destruct r as [|d r]; [done|].
  destruct (ok4 a b); [|done]. cbn [andb] in H. destruct (is_cont c); [|done]. cbn [andb] in H.
  destruct (is_cont d); [|done]. apply fmap_Some in H as (l' & H & _). cbn. eauto with lia.
Qed.

Lemma lossy_utf8 fuel bs l : utf8_decode bs = Some l -> (length bs <= fuel)%nat -> lossy fuel bs = bs.
Proof.
  revert bs l. induction fuel as [|fuel IH]; intros bs l H Hl; [by destruct bs; cbn in Hl; [|lia]|].
  destruct bs as [|a r]; [done|]. cbn [lossy]. destruct (utf8_head_decode (a :: r) l H) as (Hg & Hn & l' & H'); [done|].
  destruct (utf8_head (a :: r)) as [good n]. cbn [fst snd] in *. subst good.
  rewrite (IH _ l' H'); [apply take_drop|]. rewrite length_drop. cbn [length] in *. lia.
Qed.

Lemma from_utf8_lossy_str s : is_str s -> from_utf8_lossy (as_bytes s) = s.
Proof.
  unfold is_str, from_utf8, from_utf8_lossy. destruct (utf8_decode _) as [l|] eqn:E; [intros _|done].
  rewrite (lossy_utf8 _ _ _ E) by by rewrite length_fmap. rewrite <- list_fmap_compose.
  transitivity (of_bytes (id <$> as_bytes s)); [|by rewrite list_fmap_id, of_as_bytes]. f_equal.
  apply list_fmap_ext. intros i b _. apply byte_of_Z_of_byte.
Qed.

(** ** ASCII *)

Definition code (a : Ascii.ascii) : Z := Z.of_nat (Ascii.nat_of_ascii a).

Lemma as_bytes_codes s : Z_of_byte <$> as_bytes s = code <$> String.list_ascii_of_string s.
Proof.
  induction s as [|a s IH]; [done|]. change (as_bytes (String a s)) with (Ascii.byte_of_ascii a :: as_bytes s).
  cbn [String.list_ascii_of_string]. rewrite !fmap_cons, IH. f_equal. apply byte_of_ascii.
Qed.

Lemma all_chars_list f s : all_chars f s = forallb f (String.list_ascii_of_string s).
Proof. induction s as [|a s IH]; [done|]. cbn. by rewrite IH. Qed.

Lemma chars_ascii s : all_chars is_ascii s = true -> chars s = code <$> String.list_ascii_of_string s.
Proof.
  intros Hs. unfold chars. rewrite as_bytes_codes, utf8_decode_ascii; [done|]. rewrite all_chars_list, forallb_forall in Hs.
  apply Forall_fmap, Forall_forall. intros a Ha. specialize (Hs a). rewrite <- list_elem_of_In in Hs.
  specialize (Hs Ha). unfold is_ascii in Hs. cbn. unfold code. lia.
Qed.

Lemma str_of_code a cs : is_ascii a = true -> str_of_chars (code a :: cs) = String a (str_of_chars cs).
Proof.
  intros Ha. unfold str_of_chars. rewrite fmap_cons. cbn [concat]. unfold is_ascii in Ha. unfold utf8_encode at 1.
  assert (code a <? 128 = true) as -> by (unfold code; lia). rewrite fmap_app. cbn [fmap list_fmap app]. unfold code.
  rewrite <- byte_of_ascii, byte_of_Z_of_byte. unfold of_bytes.
  unfold String.string_of_list_byte. cbn [List.map String.string_of_list_ascii]. by rewrite Ascii.ascii_of_byte_of_ascii.
Qed.

Lemma str_of_codes l : forallb is_ascii l = true -> str_of_chars (code <$> l) = String.string_of_list_ascii l.
Proof.
  induction l as [|a l IH]; [done|]. cbn [forallb]. intros [Ha Hl]%andb_true_iff.
  rewrite fmap_cons, str_of_code by done. cbn [String.string_of_list_ascii]. by rewrite IH.
Qed.

Lemma string_of_list_length l : String.length (String.string_of_list_ascii l) = length l.
Proof. induction l as [|a l IH]; [done|]. cbn. by rewrite IH. Qed.
