(* ===== verification/AccessRules.v ===== *)
(** Access-rule predicates of [src/src/auth.rs]: the glob matcher
    [sql_like_match], the cron access window and the fixed-window rate test.
    All three are pure; [Auth.v] uses them inside the ACL check. *)
From S2P Require Import Prelude.

(** * Glob matching *)

(** [*] is U+002A and [_] is U+005F; patterns and texts are scalar values. *)
Definition star_c : Z := 42.
Definition any_c : Z := 95.

(** The local variables of the matcher: [i] over the text, [j] over the
    pattern, the index of the last [*] and the text index it was seen at. *)
Record glob_state := GlobState {
  g_i : nat;
  g_j : nat;
  g_star : option nat;
  g_mark : nat;
}.

(** One iteration of [while i < t.len()]. *)
Definition glob_step (p t : list Z) (s : glob_state) : glob_state + bool :=
  match t !! g_i s with
  | None => inr true
  | Some c =>
      match p !! g_j s with
      | Some d =>
          if (d =? any_c) || (d =? c)
          then inl (GlobState (S (g_i s)) (S (g_j s)) (g_star s) (g_mark s))
          else if d =? star_c
          then inl (GlobState (g_i s) (S (g_j s)) (Some (g_j s)) (g_i s))
          else match g_star s with
               | Some k => inl (GlobState (S (g_mark s)) (S k) (Some k) (S (g_mark s)))
               | None => inr false
               end
      | None =>
          match g_star s with
          | Some k => inl (GlobState (S (g_mark s)) (S k) (Some k) (S (g_mark s)))
          | None => inr false
          end
      end
  end.

(** The loop that skips trailing stars, then [j == p.len()]. *)
Definition only_stars (p : list Z) : bool := forallb (fun d => d =? star_c) p.

(** [None] only when the fuel is used up, which [glob_loop_total] excludes. *)
Fixpoint glob_loop (fuel : nat) (p t : list Z) (s : glob_state) : option bool :=
  match fuel with
  | O => None
  | S fuel' =>
      match glob_step p t s with
      | inl s' => glob_loop fuel' p t s'
      | inr true => Some (only_stars (drop (g_j s) p))
      | inr false => Some false
      end
  end.

Definition glob_init : glob_state := GlobState 0 0 None 0.

(** The iteration bound: one more than [|t| * (|p| + 1) + |p|]. *)
Definition glob_fuel (p t : list Z) : nat := S (length t * S (length p) + length p).

Definition sql_like_match (pattern text : string) : bool :=
  default false (glob_loop (glob_fuel (chars pattern) (chars text))
                           (chars pattern) (chars text) glob_init).

(** ** Reference definition *)

(** What the doc comment promises: [*] any sequence, [_] one character,
    everything else literal. *)
Inductive like : list Z -> list Z -> Prop :=
| like_nil : like [] []
| like_any p c t : like p t -> like (any_c :: p) (c :: t)
| like_lit p c t : c <> star_c -> c <> any_c -> like p t -> like (c :: p) (c :: t)
| like_skip p t : like p t -> like (star_c :: p) t
| like_eat p c t : like (star_c :: p) t -> like (star_c :: p) (c :: t).

Create HintDb glob.
#[export] Hint Constructors like : glob.

(** ** Termination: O(pattern * text) iterations *)

Definition glob_inv (p t : list Z) (s : glob_state) : Prop :=
  (g_mark s <= g_i s <= length t /\ g_j s <= length p)%nat /\
  match g_star s with Some k => (k < g_j s)%nat | None => True end.

Definition glob_measure (p t : list Z) (s : glob_state) : nat :=
  ((length t - g_mark s) * S (length p) + (length p - g_j s))%nat.

Lemma glob_measure_backtrack n m a b c :
  (m < n -> b <= c -> (n - S m) * S c + (c - a) < (n - m) * S c + (c - b))%nat.
Proof. intros Hm Hb. replace (n - m)%nat with (S (n - S m)) by lia. simpl. lia. Qed.

Lemma glob_measure_star n m i j c :
  (m <= i -> S j <= c -> (n - i) * S c + (c - S j) < (n - m) * S c + (c - j))%nat.
Proof.
  intros Hm Hj. assert ((n - i) * S c <= (n - m) * S c)%nat by (apply Nat.mul_le_mono_r; lia). lia.
Qed.

Lemma glob_step_inv p t s s' :
  glob_inv p t s -> glob_step p t s = inl s' ->
  glob_inv p t s' /\ (glob_measure p t s' < glob_measure p t s)%nat.
Proof.
  destruct s as [i j st mk]. unfold glob_inv, glob_measure, glob_step; cbn -[Nat.mul Nat.sub].
  intros [[Hm Hj] Hst] Hs.
  destruct (t !! i) as [c|] eqn:Ht; [|done]. apply lookup_lt_Some in Ht.
  destruct (p !! j) as [d|] eqn:Hp.
  - apply lookup_lt_Some in Hp.
    destruct (_ || _); [|destruct (d =? star_c); [|destruct st as [k|]]]; simplify_eq; cbn -[Nat.mul Nat.sub].
    + split; [|lia]. split; [lia|]. destruct st; lia.
    + split; [lia|]. apply glob_measure_star; lia.
    + split; [lia|]. apply glob_measure_backtrack; lia.
  - apply lookup_ge_None in Hp. destruct st as [k|]; simplify_eq; cbn -[Nat.mul Nat.sub].
    split; [lia|]. apply glob_measure_backtrack; lia.
Qed.

Lemma glob_loop_enough p t fuel s :
  glob_inv p t s -> (glob_measure p t s < fuel)%nat -> is_Some (glob_loop fuel p t s).
Proof.
  revert s. induction fuel as [|fuel IH]; intros s Hi Hf; [lia|]. simpl.
  destruct (glob_step p t s) as [s'|[]] eqn:E; [|by eauto..].
  destruct (glob_step_inv _ _ _ _ Hi E). apply IH; [done|lia].
Qed.

Lemma glob_inv_init p t : glob_inv p t glob_init.
Proof. unfold glob_inv, glob_init; simpl. lia. Qed.

(** ** The matcher decides [like] *)

Lemma like_app p p' t t' : like p t -> like p' t' -> like (p ++ p') (t ++ t').
Proof. induction 1; intros; simpl; eauto with glob. Qed.

Lemma like_stars p : only_stars p = true -> like p [].
Proof.
  induction p as [|d p IH]; simpl; intros H; bool_to_prop; subst; eauto with glob.
Qed.

Lemma like_nil_inv p : like p [] -> only_stars p = true.
Proof. remember [] as t eqn:E. induction 1; simplify_eq; simpl; rewrite ?Z.eqb_refl; auto. Qed.

(** A trailing [*] absorbs one more character. *)
Lemma like_star_snoc q t c : like (q ++ [star_c]) t -> like (q ++ [star_c]) (t ++ [c]).
Proof.
  remember (q ++ [star_c]) as p eqn:E. intros H. revert q E.
  induction H as [|p c' t H IH|p c' t H1 H2 H IH|p t H IH|p c' t H IH]; intros q E; simpl.
  - by destruct q.
  - destruct q; simplify_eq/=. constructor. by eapply IH.
  - destruct q; simplify_eq/=. constructor; [done..|]. by eapply IH.
  - destruct q as [|? q]; simplify_eq/=.
    + inversion H; subst. apply like_eat, like_skip, like_nil.
    + apply like_skip. by eapply IH.
  - apply like_eat. by eapply IH.
Qed.

(** Characters the pattern fragment [q] matches one for one. *)
Definition plain (d c : Z) : Prop := d <> star_c /\ (d = any_c \/ d = c).

Lemma like_plain_snoc p t d c : plain d c -> like p t -> like (p ++ [d]) (t ++ [c]).
Proof.
  intros [Hs Hd] H. apply like_app; [done|].
  destruct (decide (d = any_c)) as [->|]; [by repeat constructor|].
  destruct Hd as [?| ->]; [done|]. apply like_lit; auto with glob.
Qed.

(** A star-free fragment consumes exactly its length. *)
Lemma like_plain_peel q p t :
  Forall (fun d => d <> star_c) q -> like (q ++ p) t ->
  (length q <= length t)%nat /\ like p (drop (length q) t).
Proof.
  revert t. induction q as [|d q IH]; intros t Hq H; simpl in *; [split; [lia|done]|].
  inversion Hq as [|?? Hd Hq']; subst.
  inversion H; subst; try done; destruct (IH _ Hq' ltac:(eassumption)); simpl; split; try lia; done.
Qed.

(** A leading star matches from any later position too. *)
Lemma like_star_later p t n : like p (drop n t) -> like (star_c :: p) t.
Proof.
  revert n. induction t as [|c t IH]; intros n H; [rewrite drop_nil in H; by apply like_skip|].
  destruct n as [|n]; [by apply like_skip|]. apply like_eat. by eapply IH.
Qed.

Lemma like_star_inv p t : like (star_c :: p) t -> exists n, (n <= length t)%nat /\ like p (drop n t).
Proof.
  remember (star_c :: p) as p' eqn:E. induction 1 as [| |? ? ? ? ? ? _| ? t H|? c t H IH]; simplify_eq.
  - exists 0%nat. split; [lia|done].
  - destruct (IH eq_refl) as (n & Hn & H'). exists (S n). split; [simpl; lia|done].
Qed.

(** *** Soundness: what has been consumed matches *)

Definition glob_sound (p t : list Z) (s : glob_state) : Prop :=
  like (take (g_j s) p) (take (g_i s) t) /\
  match g_star s with
  | Some k => p !! k = Some star_c /\ like (take (S k) p) (take (g_mark s) t)
  | None => True
  end.

Lemma take_like_snoc p t i j d c :
  t !! i = Some c -> p !! j = Some d -> (d = any_c \/ d = c) ->
  like (take j p) (take i t) -> like (take (S j) p) (take (S i) t).
Proof.
  intros Ht Hp Hd H. rewrite (take_S_r _ _ _ Ht), (take_S_r _ _ _ Hp).
  destruct (decide (d = star_c)) as [->|Hs]; [|by apply like_plain_snoc].
  destruct Hd as [Hd | <-]; [discriminate Hd|].
  apply like_app; [done|]. apply like_eat, like_skip, like_nil.
Qed.

Lemma take_like_star p t m k :
  p !! k = Some star_c -> (m < length t)%nat ->
  like (take (S k) p) (take m t) -> like (take (S k) p) (take (S m) t).
Proof.
  intros Hp Hm H. destruct (lookup_lt_is_Some_2 t m Hm) as [c Hc].
  rewrite (take_S_r _ _ _ Hc). rewrite (take_S_r _ _ _ Hp) in *. by apply like_star_snoc.
Qed.

Lemma glob_step_sound p t s s' :
  glob_inv p t s -> glob_sound p t s -> glob_step p t s = inl s' -> glob_sound p t s'.
Proof.
  destruct s as [i j st mk]. unfold glob_inv, glob_sound, glob_step; simpl.
  intros [[Hm Hj] _] [Hl Hst] Hs.
  destruct (t !! i) as [c|] eqn:Ht; [|done]. pose proof (lookup_lt_Some _ _ _ Ht).
  destruct (p !! j) as [d|] eqn:Hp.
  - destruct (_ || _) eqn:Ed; [|destruct (d =? star_c) eqn:Es; [|destruct st as [k|]]]; simplify_eq; simpl.
    + split; [|done]. eapply take_like_snoc; [done..| |done].
      apply orb_true_iff in Ed as [?%Z.eqb_eq|?%Z.eqb_eq]; auto.
    + bool_to_prop; subst. rewrite (take_S_r _ _ _ Hp).
      assert (like (take j p ++ [star_c]) (take i t)).
      { rewrite <- (app_nil_r (take i t)). apply like_app; [done|]. repeat constructor. }
      done.
    + destruct Hst as [Hk Hst]. assert (like (take (S k) p) (take (S mk) t)) by (apply take_like_star; [done|lia|done]). done.
  - destruct st as [k|]; simplify_eq; simpl. destruct Hst as [Hk Hst].
    assert (like (take (S k) p) (take (S mk) t)) by (apply take_like_star; [done|lia|done]). done.
Qed.

Lemma glob_loop_sound p t fuel s :
  glob_inv p t s -> glob_sound p t s -> glob_loop fuel p t s = Some true -> like p t.
Proof.
  revert s. induction fuel as [|fuel IH]; intros s Hi Hs; [done|]. simpl.
  destruct (glob_step p t s) as [s'|[]] eqn:E; [| |done].
  - apply IH; [by destruct (glob_step_inv _ _ _ _ Hi E)|by eapply glob_step_sound].
  - intros [= Ho]. unfold glob_step in E. destruct (t !! g_i s) eqn:Ht; [repeat case_match; done|].
    apply lookup_ge_None in Ht. destruct Hs as [Hl _]. rewrite (take_ge t) in Hl by done.
    rewrite <- (take_drop (g_j s) p), <- (app_nil_r t). apply like_app; [done|by apply like_stars].
Qed.

(** *** Completeness on texts without a literal star *)

(** The pattern fragment after the last star, matched one for one since. *)
Definition glob_segment (p t : list Z) (k mk i j : nat) : Prop :=
  (i - mk = j - S k)%nat /\ (mk <= i)%nat /\
  (forall n d c, (S k + n < j)%nat -> p !! (S k + n)%nat = Some d -> t !! (mk + n)%nat = Some c ->
                 plain d c) .

Definition glob_complete (p t : list Z) (s : glob_state) : Prop :=
  match g_star s with
  | None => like (drop (g_j s) p) (drop (g_i s) t)
  | Some k =>
      glob_segment p t k (g_mark s) (g_i s) (g_j s) /\
      exists m, (g_mark s <= m <= length t)%nat /\ like (drop (S k) p) (drop m t)
  end.

Lemma glob_segment_plain p t k mk i j :
  glob_segment p t k mk i j -> (k < j <= length p)%nat -> (i <= length t)%nat ->
  Forall (fun d => d <> star_c) (take (j - S k) (drop (S k) p)).
Proof.
  intros (He & Hm & Hp) Hj Hi. apply Forall_lookup. intros n d Hn.
  assert (n < j - S k)%nat by (apply lookup_lt_Some in Hn; rewrite length_take in Hn; lia).
  rewrite lookup_take_lt in Hn by lia. rewrite lookup_drop in Hn.
  destruct (lookup_lt_is_Some_2 t (mk + n)) as [c Hc]; [lia|].
  by destruct (Hp n d c ltac:(lia) Hn Hc).
Qed.

(** Any match from [m] reaches past the fragment. *)
Lemma glob_segment_peel p t k mk i j m :
  glob_segment p t k mk i j -> (k < j <= length p)%nat -> (i <= length t)%nat ->
  (m <= length t)%nat -> like (drop (S k) p) (drop m t) ->
  (m + (j - S k) <= length t)%nat /\ like (drop j p) (drop (m + (j - S k)) t).
Proof.
  intros Hseg Hj Hi Hm H. pose proof (glob_segment_plain _ _ _ _ _ _ Hseg Hj Hi) as Hf.
  rewrite <- (take_drop (j - S k) (drop (S k) p)), drop_drop in H.
  apply like_plain_peel in H as [Hl H]; [|done].
  rewrite length_take, !length_drop in Hl. rewrite length_take, length_drop, drop_drop in H.
  replace (S k + (j - S k))%nat with j in H by lia.
  replace ((j - S k) `min` (length p - S k))%nat with (j - S k)%nat in * by lia.
  split; [lia|done].
Qed.

Lemma like_head_plain d p c t :
  d <> star_c -> like (d :: p) (c :: t) -> plain d c /\ like p t.
Proof. intros Hd H. inversion H; subst; unfold plain; naive_solver. Qed.

(** At a mismatch no match starts at the current mark. *)
Lemma glob_mismatch p t i j c :
  t !! i = Some c -> (forall d, p !! j = Some d -> d <> star_c /\ ~ plain d c) ->
  ~ like (drop j p) (drop i t).
Proof.
  intros Ht Hd H. rewrite (drop_S _ _ _ Ht) in H.
  destruct (p !! j) as [d|] eqn:Hp.
  - destruct (Hd d eq_refl) as [Hs Hn]. rewrite (drop_S _ _ _ Hp) in H.
    by apply like_head_plain in H as [? _].
  - rewrite drop_ge in H by (by apply lookup_ge_None). inversion H.
Qed.

(** Backtracking keeps the existence of a later match. *)
Lemma glob_backtrack_complete p t i j k mk c :
  glob_inv p t (GlobState i j (Some k) mk) -> glob_complete p t (GlobState i j (Some k) mk) ->
  t !! i = Some c -> (forall d, p !! j = Some d -> d <> star_c /\ ~ plain d c) ->
  glob_complete p t (GlobState (S mk) (S k) (Some k) (S mk)).
Proof.
  unfold glob_inv, glob_complete; simpl. intros [[Hm Hj] Hk] (Hseg & m & Hml & H) Ht Hd.
  split; [repeat split; try lia; intros; lia|]. exists m. split; [|done].
  destruct (decide (m = mk)) as [->|]; [|lia]. exfalso.
  destruct (glob_segment_peel _ _ _ _ _ _ mk Hseg ltac:(lia) ltac:(lia) ltac:(lia) H) as [_ H'].
  destruct Hseg as [He _]. replace (mk + (j - S k))%nat with i in H' by lia.
  by eapply glob_mismatch.
Qed.

Lemma glob_advance_complete p t i j st mk c d :
  glob_inv p t (GlobState i j st mk) -> glob_complete p t (GlobState i j st mk) ->
  t !! i = Some c -> p !! j = Some d -> plain d c ->
  glob_complete p t (GlobState (S i) (S j) st mk).
Proof.
  unfold glob_inv, glob_complete; simpl. intros [[Hm Hj] Hk] Hc Ht Hp Hpl.
  destruct st as [k|].
  - destruct Hc as [(He & Hmi & Hseg) Hex]. split; [|done]. split; [lia|]. split; [lia|].
    intros n d' c' Hn Hd' Hc'. destruct (decide (S k + n = j)%nat) as [<-|].
    + replace (mk + n)%nat with i in Hc' by lia. by simplify_eq.
    + eapply Hseg; [|done..]; lia.
  - rewrite (drop_S _ _ _ Ht), (drop_S _ _ _ Hp) in Hc. apply like_head_plain in Hc as [_ ?]; [done|].
    by destruct Hpl.
Qed.

Lemma glob_star_complete p t i j st mk :
  glob_inv p t (GlobState i j st mk) -> glob_complete p t (GlobState i j st mk) ->
  p !! j = Some star_c ->
  glob_complete p t (GlobState i (S j) (Some j) i).
Proof.
  unfold glob_inv, glob_complete; simpl. intros [[Hm Hj] Hk] Hc Hp.
  split; [repeat split; try lia; intros; lia|].
  assert (exists m, (i <= m <= length t)%nat /\ like (drop j p) (drop m t)) as (m & Hml & H).
  { destruct st as [k|]; [|exists i; split; [lia|done]].
    destruct Hc as (Hseg & m & Hml & H).
    destruct (glob_segment_peel _ _ _ _ _ _ m Hseg ltac:(lia) ltac:(lia) ltac:(lia) H) as [Hle H'].
    eexists. split; [|exact H']. destruct Hseg as [He _]. lia. }
  rewrite (drop_S _ _ _ Hp) in H. apply like_star_inv in H as (n & Hn & H).
  rewrite length_drop in Hn. rewrite drop_drop in H. exists (m + n)%nat. split; [lia|done].
Qed.

Lemma plain_of_test d c : c <> star_c -> (d =? any_c) || (d =? c) = true -> plain d c.
Proof.
  intros Hc [?%Z.eqb_eq|?%Z.eqb_eq]%orb_true_iff; subst; split; auto.
Qed.

Lemma not_plain_of_test d c : (d =? any_c) || (d =? c) = false -> ~ plain d c.
Proof. intros H [_ [?|?]]; bool_to_prop; done. Qed.

Lemma glob_step_complete p t s s' :
  star_c ∉ t -> glob_inv p t s -> glob_complete p t s -> glob_step p t s = inl s' ->
  glob_complete p t s'.
Proof.
  destruct s as [i j st mk]. intros Hns Hi Hc Hs. unfold glob_step in Hs; simpl in Hs.
  destruct (t !! i) as [c|] eqn:Ht; [|done].
  assert (c <> star_c) by (intros ->; apply Hns; by eapply list_elem_of_lookup_2).
  destruct (p !! j) as [d|] eqn:Hp.
  - destruct (_ || _) eqn:Ed; [|destruct (d =? star_c) eqn:Es; [|destruct st as [k|]]]; simplify_eq.
    + eapply glob_advance_complete; eauto using plain_of_test.
    + bool_to_prop; subst. by eapply glob_star_complete.
    + eapply glob_backtrack_complete; [done..|]. intros d' Hd'; simplify_eq. bool_to_prop.
      split; [done|]. intros [_ [?|?]]; done.
  - destruct st as [k|]; simplify_eq. eapply glob_backtrack_complete; [done..|]. naive_solver.
Qed.

Lemma glob_stop_complete p t s b :
  star_c ∉ t -> glob_inv p t s -> glob_complete p t s -> glob_step p t s = inr b ->
  b = true /\ only_stars (drop (g_j s) p) = true.
Proof.
  destruct s as [i j st mk]. intros Hns Hi Hc Hs. unfold glob_step in Hs; simpl in *.
  destruct (t !! i) as [c|] eqn:Ht.
  - exfalso. assert (st = None /\ forall d, p !! j = Some d -> d <> star_c /\ ~ plain d c) as [-> Hd].
    { destruct (p !! j) as [d|]; [|by destruct st].
      destruct (_ || _) eqn:Ed; [done|]. destruct (d =? star_c) eqn:Es; [done|].
      destruct st; [done|]. split; [done|]. intros d' [= <-]. bool_to_prop.
      split; [done|]. intros [_ [?|?]]; done. }
    by eapply glob_mismatch.
  - simplify_eq. split; [done|]. apply lookup_ge_None in Ht.
    destruct Hi as [[Hm Hj] Hk]. unfold glob_complete in Hc; simpl in *. apply like_nil_inv.
    destruct st as [k|]; [|by rewrite (drop_ge t) in Hc by done].
    destruct Hc as (Hseg & m & Hml & H).
    destruct (glob_segment_peel _ _ _ _ _ _ m Hseg ltac:(lia) ltac:(lia) ltac:(lia) H) as [Hle H'].
    destruct Hseg as [He _]. by rewrite (drop_ge t) in H' by lia.
Qed.

Lemma glob_loop_complete p t fuel s :
  star_c ∉ t -> glob_inv p t s -> glob_complete p t s ->
  (glob_measure p t s < fuel)%nat -> glob_loop fuel p t s = Some true.
Proof.
  intros Hns. revert s. induction fuel as [|fuel IH]; intros s Hi Hc Hf; [lia|]. simpl.
  destruct (glob_step p t s) as [s'|b] eqn:E.
  - destruct (glob_step_inv _ _ _ _ Hi E). apply IH; [done|by eapply (glob_step_complete p t s)|lia].
  - by destruct (glob_stop_complete _ _ _ _ Hns Hi Hc E) as [-> ->].
Qed.

Lemma glob_fuel_enough p t : (glob_measure p t glob_init < glob_fuel p t)%nat.
Proof. unfold glob_measure, glob_fuel, glob_init; cbn -[Nat.mul Nat.sub]. lia. Qed.

Lemma sql_like_match_sound pat text : sql_like_match pat text = true -> like (chars pat) (chars text).
Proof.
  unfold sql_like_match. destruct (glob_loop _ _ _ _) as [[]|] eqn:E; try done. intros _.
  eapply glob_loop_sound; [apply glob_inv_init| |exact E].
  split; [apply like_nil|done].
Qed.

(** C36. The glob matcher of the access rules and advance grants against the
    declarative reading of the pattern ([*] any sequence, [_] one character,
    everything else literal): on every text it accepts only what the pattern
    matches, and on a text without a literal star it accepts all of it. (A star
    in the text can make it refuse: [sql_like_match_fails_closed].) *)
Theorem sql_like_match_correct pat text :
  (sql_like_match pat text = true -> like (chars pat) (chars text)) /\
  (star_c ∉ chars text -> like (chars pat) (chars text) -> sql_like_match pat text = true).
Proof.
  split; [apply sql_like_match_sound|]. intros Hns H. unfold sql_like_match.
  rewrite glob_loop_complete; [done|done|apply glob_inv_init| |apply glob_fuel_enough].
  unfold glob_complete, glob_init; simpl. by rewrite !drop_0.
Qed.

Lemma sql_like_match_correct_witness :
  like (chars "prod/*_pass*") (chars "prod/db-password") /\
  sql_like_match "*" "*x" = false /\
  ~ like (chars "prod/*_pass*") (chars "prod/password") /\
  sql_like_match "prod/*_pass*" "prod/db-password" = true.
Proof.
  assert (Hm : like (chars "prod/*_pass*") (chars "prod/db-password")).
  { apply (sql_like_match_correct "prod/*_pass*" "prod/db-password"). vm_compute. reflexivity. }
  split; [exact Hm|]. split; [vm_compute; reflexivity|]. split.
  - intros H. apply (sql_like_match_correct "prod/*_pass*" "prod/password") in H.
    + revert H. vm_compute. discriminate.
    + apply (bool_decide_unpack _); vm_compute; exact I.
  - apply (sql_like_match_correct "prod/*_pass*" "prod/db-password"); [|exact Hm].
    apply (bool_decide_unpack _); vm_compute; exact I.
Defined.

(** Whatever the text, the matcher never allows more than the declarative
    reading (it fails closed), it stops within [(|t|+1) * (|p|+1)] iterations,
    and a literal star in the text can make it refuse a matching pattern. *)
Theorem sql_like_match_fails_closed :
  (forall pat text, sql_like_match pat text = true -> like (chars pat) (chars text)) /\
  (forall p t, is_Some (glob_loop (glob_fuel p t) p t glob_init)) /\
  (forall p t, glob_fuel p t = ((length t + 1) * (length p + 1))%nat) /\
  (sql_like_match "*" "*x" = false /\ like (chars "*") (chars "*x")).
Proof.
  split; [exact sql_like_match_sound|]. split.
  { intros p t. apply glob_loop_enough; [apply glob_inv_init|apply glob_fuel_enough]. }
  split; [intros p t; unfold glob_fuel; lia|].
  split; [vm_compute; reflexivity|]. vm_compute. auto with glob.
Qed.

(** * Cron access windows *)

(** The calendar fields chrono reads off a [NaiveDateTime]. *)
Record civil := Civil {
  c_minute : Z;
  c_hour : Z;
  c_day : Z;
  c_month : Z;
  c_dow : Z;  (* days from Sunday, 0..6 *)
}.

(** [(range, step)] of one term. *)
Definition cron_term_step (term : string) : result string (string * Z) :=
  match split_once "/"%char term with
  | Some (r, s) =>
      match parse_u32 s with
      | Some n => Ok (r, n)
      | None => Err ("bad step '" +:+ s +:+ "'")
      end
  | None => Ok (term, 1)
  end.

(** [(lo, hi)] of a range. *)
Definition cron_range (range : string) (min max : Z) : result string (Z * Z) :=
  if String.eqb range "*" then Ok (min, max)
  else match split_once "-"%char range with
  | Some (a, b) =>
      match parse_u32 a with
      | None => Err ("bad range '" +:+ range +:+ "'")
      | Some lo =>
          match parse_u32 b with
          | None => Err ("bad range '" +:+ range +:+ "'")
          | Some hi => Ok (lo, hi)
          end
      end
  | None =>
      match parse_u32 range with
      | None => Err ("bad value '" +:+ range +:+ "'")
      | Some v => Ok (v, v)
      end
  end.

(** One pass of the [for term in field.split(',')] body. *)
Definition cron_term (term : string) (val min max : Z) : result string bool :=
  '(range, step) ← cron_term_step term;
  if step =? 0 then Err "step may not be 0"
  else '(lo, hi) ← cron_range range min max;
       Ok ((lo <=? val) && (val <=? hi) && ((val - lo) mod step =? 0)).

Fixpoint cron_terms (terms : list string) (val min max : Z) : result string bool :=
  match terms with
  | [] => Ok false
  | term :: rest =>
      match cron_term term val min max with
      | Err e => Err e
      | Ok true => Ok true
      | Ok false => cron_terms rest val min max
      end
  end.

Definition cron_field (field : string) (val min max : Z) : result string bool :=
  cron_terms (split_on ","%char field) val min max.

(** [a? && b?] and [a? || b?] on fallible tests. *)
Definition and_then (a : result string bool) (b : result string bool) : result string bool :=
  match a with Ok true => b | r => r end.
Definition or_else (a : result string bool) (b : result string bool) : result string bool :=
  match a with Ok false => b | r => r end.

Definition cron_window_matches (expr : string) (now : civil) : result string bool :=
  match split_whitespace expr with
  | [f0; f1; f2; f3; f4] =>
      and_then (cron_field f0 (c_minute now) 0 59)
        (and_then (cron_field f1 (c_hour now) 0 23)
          (and_then (cron_field f2 (c_day now) 1 31)
            (and_then (cron_field f3 (c_month now) 1 12)
              (or_else (cron_field f4 (c_dow now) 0 6)
                 (if c_dow now =? 0 then cron_field f4 7 0 7 else Ok false)))))
  | f => Err ("cron schedule must have 5 fields, got " +:+ show_Z (Z.of_nat (length f)))
  end.

(** ** Reading of a well-formed field *)

(** The terms of a field, parsed; [None] if any is malformed. *)
Definition cron_parse_term (min max : Z) (term : string) : option (Z * Z * Z) :=
  match cron_term_step term with
  | Ok (range, step) =>
      if step =? 0 then None
      else match cron_range range min max with Ok (lo, hi) => Some (lo, hi, step) | Err _ => None end
  | Err _ => None
  end.

Definition cron_allows (val : Z) (tm : Z * Z * Z) : Prop :=
  let '(lo, hi, step) := tm in lo <= val <= hi /\ (val - lo) mod step = 0.

Lemma cron_term_parsed term val min max tm :
  cron_parse_term min max term = Some tm ->
  exists b, cron_term term val min max = Ok b /\ (b = true <-> cron_allows val tm).
Proof.
  unfold cron_parse_term, cron_term, cron_allows.
  destruct (cron_term_step term) as [[range step]|]; simpl; [|done].
  destruct (step =? 0); [done|].
  destruct (cron_range range min max) as [[lo hi]|]; simpl; [|done]. intros [= <-].
  eexists. split; [done|]. rewrite !andb_true_iff, !Z.leb_le, Z.eqb_eq. tauto.
Qed.

(** A successful test comes from a well-formed term that allows the value. *)
Lemma cron_terms_true terms val min max :
  cron_terms terms val min max = Ok true ->
  exists term tm, term ∈ terms /\ cron_parse_term min max term = Some tm /\ cron_allows val tm.
Proof.
  induction terms as [|term rest IH]; simpl; [done|].
  destruct (cron_parse_term min max term) as [tm|] eqn:Ep.
  - destruct (cron_term_parsed _ val _ _ _ Ep) as (b & -> & Hb). destruct b; intros H.
    + exists term, tm. split; [set_solver|]. split; [done|by apply Hb].
    + destruct (IH H) as (term' & tm' & ? & ? & ?). exists term', tm'. set_solver.
  - intros H. exfalso. revert Ep H. unfold cron_parse_term, cron_term.
    destruct (cron_term_step term) as [[range step]|]; simpl; [|done].
    destruct (step =? 0); [done|]. by destruct (cron_range range min max) as [[lo hi]|].
Qed.

Lemma cron_terms_parsed terms tms val min max :
  mapM (cron_parse_term min max) terms = Some tms ->
  exists b, cron_terms terms val min max = Ok b /\ (b = true <-> Exists (cron_allows val) tms).
Proof.
  rewrite mapM_Some. induction 1 as [|term tm terms tms Ht _ IH]; simpl.
  - exists false. split; [done|]. split; [done|intros H; inversion H].
  - destruct (cron_term_parsed _ val _ _ _ Ht) as (b & -> & Hb).
    assert (Hcons : Exists (cron_allows val) (tm :: tms) <-> b = true \/ Exists (cron_allows val) tms)
      by (rewrite Hb; apply List.Exists_cons).
    destruct b.
    + exists true. split; [done|]. tauto.
    + destruct IH as (b' & -> & Hb'). exists b'. split; [done|]. rewrite Hb', Hcons. intuition congruence.
Qed.

(** A cron field whose every term parses is exactly a membership mask: it
    admits a value iff some term's range and step cover it. *)
Theorem cron_field_mask field tms val min max :
  mapM (cron_parse_term min max) (split_on ","%char field) = Some tms ->
  exists b, cron_field field val min max = Ok b /\ (b = true <-> Exists (cron_allows val) tms).
Proof. apply cron_terms_parsed. Qed.

Lemma cron_field_mask_witness :
  exists b, cron_field "9-17/2,20" 13 0 23 = Ok b /\
            (b = true <-> Exists (cron_allows 13) [(9, 17, 2); (20, 20, 1)]).
Proof. apply (cron_field_mask "9-17/2,20"). vm_compute. reflexivity. Defined.

(** Access inside a window is always backed by well-formed terms in all
    five fields (Sunday may be written 0 or 7), so a schedule that does not
    parse cannot admit an instant through a malformed term; an unparsable term
    placed after an admitting one is, however, never looked at. *)
Theorem cron_window_admits :
  (forall expr now,
     cron_window_matches expr now = Ok true ->
     exists f0 f1 f2 f3 f4,
       split_whitespace expr = [f0; f1; f2; f3; f4] /\
       let admits f val lo hi :=
         exists term tm, term ∈ split_on ","%char f /\
                         cron_parse_term lo hi term = Some tm /\ cron_allows val tm in
       admits f0 (c_minute now) 0 59 /\ admits f1 (c_hour now) 0 23 /\
       admits f2 (c_day now) 1 31 /\ admits f3 (c_month now) 1 12 /\
       (admits f4 (c_dow now) 0 6 \/ (c_dow now = 0 /\ admits f4 7 0 7))) /\
  (forall rest val lo hi, lo <= val <= hi -> cron_field ("*," +:+ rest) val lo hi = Ok true).
Proof.
  split.
  - intros expr now H. unfold cron_window_matches in H.
    destruct (split_whitespace expr) as [|f0 [|f1 [|f2 [|f3 [|f4 [|]]]]]]; try done.
    exists f0, f1, f2, f3, f4. split; [done|]. unfold and_then, or_else in H.
    destruct (cron_field f0 _ _ _) as [[]|] eqn:E0; try done.
    destruct (cron_field f1 _ _ _) as [[]|] eqn:E1; try done.
    destruct (cron_field f2 _ _ _) as [[]|] eqn:E2; try done.
    destruct (cron_field f3 _ _ _) as [[]|] eqn:E3; try done.
    repeat (split; [by eapply cron_terms_true|]).
    destruct (cron_field f4 _ _ _) as [[]|] eqn:E4; try done.
    + left. by eapply cron_terms_true.
    + destruct (c_dow now =? 0) eqn:Ed; [|done]. right. bool_to_prop.
      split; [done|by eapply cron_terms_true].
  - intros rest val lo hi Hv. unfold cron_field. cbn [split_on].
    change ("*," +:+ rest) with (String "*" (String "," rest)). cbn -[cron_term].
    destruct (cron_term_parsed "*" val lo hi (lo, hi, 1) eq_refl) as (b & Hb & Hiff).
    rewrite Hb. assert (b = true) as ->; [|done]. apply Hiff. split; [lia|by rewrite Z.mod_1_r].
Qed.

(** * Fixed-window rate limit *)

Definition micros : Z := 1000000.

(** Timestamps are microseconds since the Unix epoch. *)
Definition rate_ok (rate_max rate_period_secs : option Z) (rate_count : Z)
    (window_start : option Z) (now : Z) : bool :=
  match rate_max, rate_period_secs with
  | Some max, Some period =>
      if (max <=? 0) || (period <=? 0) then true
      else match window_start with
           | None => true
           | Some ws => if period * micros <=? now - ws then true else rate_count <? max
           end
  | _, _ => true
  end.

(** The two [CASE] expressions of [acl_record_use]: [(rate_window_start, rate_count)].
    That the counter fits its column is checked by [Auth.count_acl_use]. *)
Definition rate_bump (period : option Z) (count : Z) (ws : option Z) (now : Z) : option Z * Z :=
  match period with
  | None => (ws, count)
  | Some p =>
      match ws with
      | None => (Some now, 1)
      | Some s => if s + p * micros <=? now then (Some now, 1) else (Some s, count + 1)
      end
  end.

(** Accesses tried at the given instants against one rule: each admitted one is
    recorded and logged with the window it was charged to. *)
Fixpoint rate_run (max period : Z) (ws : option Z) (count : Z) (times : list Z) : list (Z * Z) :=
  match times with
  | [] => []
  | now :: rest =>
      if rate_ok (Some max) (Some period) count ws now
      then let '(ws', count') := rate_bump (Some period) count ws now in
           (now, default now ws') :: rate_run max period ws' count' rest
      else rate_run max period ws count rest
  end.

Definition charged (s : Z) (log : list (Z * Z)) : Z :=
  Z.of_nat (length (filter (fun e : Z * Z => e.2 = s) log)).

Lemma charged_cons s t w log :
  charged s ((t, w) :: log) = (if decide (w = s) then 1 else 0) + charged s log.
Proof. unfold charged. rewrite filter_cons. simpl. case_decide; simpl; lia. Qed.

Section rate_run.
Context (max period : Z) (Hmax : 0 < max) (Hper : 0 < period).

(** What the log of a run from state [(ws, count)] at time [t0] looks like. *)
Definition rate_log_ok (t0 : Z) (ws : option Z) (count : Z) (log : list (Z * Z)) : Prop :=
  (forall s, charged s log <= match ws with
                              | Some w => if decide (w = s) then max - count else max
                              | None => max
                              end) /\
  (forall t s, (t, s) ∈ log -> t0 <= t /\ s <= t < s + period * micros /\
     (ws = Some s \/ (t0 <= s /\ forall w, ws = Some w -> w + period * micros <= s))) /\
  (forall t s t' s', (t, s) ∈ log -> (t', s') ∈ log -> s < s' -> s + period * micros <= s').

Lemma rate_log_ok_mono t0 t1 ws count log :
  t0 <= t1 -> rate_log_ok t1 ws count log -> rate_log_ok t0 ws count log.
Proof.
  intros Ht (H1 & H2 & H3). split; [done|]. split; [|done]. intros t s Hin.
  destruct (H2 _ _ Hin) as (? & ? & [?|[? ?]]); split; try lia; (split; [lia|]); [by left|].
  right. split; [lia|done].
Qed.

(** Opening a fresh window. *)
Lemma rate_log_ok_open now ws count log :
  0 <= count <= max ->
  (forall w, ws = Some w -> w + period * micros <= now) ->
  rate_log_ok now (Some now) 1 log -> rate_log_ok now ws count ((now, now) :: log).
Proof.
  unfold rate_log_ok, micros in *. intros Hc Hw (H1 & H2 & H3). split; [|split].
  - intros s. rewrite charged_cons. specialize (H1 s).
    destruct ws as [w|]; repeat case_decide; subst; try lia.
    + specialize (Hw _ eq_refl). lia.
    + assert (charged s log = 0); [|lia]. unfold charged.
      destruct (filter _ log) as [|[t s'] l] eqn:Ef; [done|]. exfalso.
      assert ((t, s') ∈ filter (fun e : Z * Z => e.2 = s) log) as [He Hin]%list_elem_of_filter
        by (rewrite Ef; set_solver). simpl in He; subst.
      specialize (Hw _ eq_refl). destruct (H2 _ _ Hin) as (? & ? & [?|[? ?]]); simplify_eq; lia.
  - intros t s [[= -> ->]|Hin]%elem_of_cons.
    + split; [lia|]. split; [lia|]. right. split; [lia|done].
    + destruct (H2 _ _ Hin) as (? & ? & [?|[? ?]]); simplify_eq; (split; [lia|]); (split; [lia|]); right;
        (split; [lia|]); intros w Hw'; specialize (Hw _ Hw'); lia.
  - intros t s t' s' [[= -> ->]|Hin]%elem_of_cons [[= -> ->]|Hin']%elem_of_cons Hlt; [lia| | |by eapply H3].
    + destruct (H2 _ _ Hin') as (? & ? & [?|[? Hn]]); simplify_eq; [lia|]. by apply Hn.
    + destruct (H2 _ _ Hin) as (? & ? & [?|[? Hn]]); simplify_eq; lia.
Qed.

(** Charging the current window. *)
Lemma rate_log_ok_charge now w count log :
  w <= now < w + period * micros ->
  rate_log_ok now (Some w) (count + 1) log -> rate_log_ok now (Some w) count ((now, w) :: log).
Proof.
  unfold rate_log_ok, micros in *. intros Hw (H1 & H2 & H3). split; [|split].
  - intros s. rewrite charged_cons. specialize (H1 s). cbv beta iota in H1. destruct (decide (w = s)); lia.
  - intros t s [[= -> ->]|Hin]%elem_of_cons; [|by apply H2]. split; [lia|]. split; [lia|]. by left.
  - intros t s t' s' [[= -> ->]|Hin]%elem_of_cons [[= -> ->]|Hin']%elem_of_cons Hlt; [lia| | |by eapply H3].
    + destruct (H2 _ _ Hin') as (? & ? & [?|[? Hn]]); simplify_eq; [lia|]. by apply Hn.
    + destruct (H2 _ _ Hin) as (? & ? & [?|[? Hn]]); simplify_eq; [lia|]. specialize (Hn _ eq_refl). lia.
Qed.

Lemma rate_run_log_ok times : forall t0 ws count,
  Sorted Z.le (t0 :: times) -> 0 <= count <= max ->
  (forall w, ws = Some w -> w <= t0) ->
  rate_log_ok t0 ws count (rate_run max period ws count times).
Proof.
  induction times as [|now rest IH]; intros t0 ws count Hs Hc Hw; cbn [rate_run].
  { split; [intros s; unfold charged; simpl; destruct ws; [case_decide|]; lia|].
    split; intros ? ?; [intros H; inversion H|intros ? ? H; inversion H]. }
  apply Sorted_inv in Hs as [Hs Hd]. inversion Hd as [|? ? Hle]; subst. clear Hd.
  apply (rate_log_ok_mono t0 now); [done|]. unfold rate_ok, rate_bump.
  assert (Hmic : 0 < period * micros) by (unfold micros; lia).
  rewrite (proj2 (Z.leb_gt max 0)), (proj2 (Z.leb_gt period 0)) by done. simpl orb. cbn match.
  destruct ws as [w|].
  - specialize (Hw _ eq_refl).
    destruct (Z.leb_spec (period * micros) (now - w)) as [Hroll|Hin].
    + rewrite (proj2 (Z.leb_le (w + period * micros) now)) by lia.
      cbn [from_option id]. apply rate_log_ok_open; [done|intros ? [= <-]; lia|]. apply IH; [done|lia|naive_solver lia].
    + rewrite (proj2 (Z.leb_gt (w + period * micros) now)) by lia.
      destruct (Z.ltb_spec count max).
      * cbn [from_option id]. apply rate_log_ok_charge; [lia|]. apply IH; [done|lia|naive_solver lia].
      * apply IH; [done|lia|naive_solver lia].
  - cbn [from_option id]. apply rate_log_ok_open; [done|done|]. apply IH; [done|lia|naive_solver lia].
Qed.
End rate_run.

(** Enforcing [rate_ok] before each access and recording it afterwards
    keeps every rule inside its budget: charged windows are disjoint intervals
    of the configured period and none is charged more than [rate_max] times. *)
Theorem rate_limit_enforced max period t0 times :
  0 < max -> 0 < period -> Sorted Z.le (t0 :: times) ->
  let log := rate_run max period None 0 times in
  (forall s, charged s log <= max) /\
  (forall t s, (t, s) ∈ log -> s <= t < s + period * micros) /\
  (forall t s t' s', (t, s) ∈ log -> (t', s') ∈ log -> s < s' -> s + period * micros <= s').
Proof.
  intros Hm Hp Hs. destruct (rate_run_log_ok max period Hm Hp times t0 None 0 Hs ltac:(lia) ltac:(done))
    as (H1 & H2 & H3).
  split; [done|]. split; [|done]. intros t s Hin. by destruct (H2 _ _ Hin) as (_ & ? & _).
Qed.

Lemma rate_limit_enforced_witness :
  let log := rate_run 2 60 None 0 [0; 1000000; 2000000; 61000000] in
  log = [(0, 0); (1000000, 0); (61000000, 61000000)] /\ (forall s, charged s log <= 2).
Proof.
  split; [vm_compute; reflexivity|].
  apply (rate_limit_enforced 2 60 0 [0; 1000000; 2000000; 61000000]); [lia|lia|].
  repeat constructor; lia.
Defined.
