(* ===== verification/Crypto.v ===== *)
(** Cryptographic core ([src/src/blackbook_core.rs]): AEAD envelopes, domain
    separated key derivation, iterated AES key wrap, identifiers and password
    hashes. The third-party primitives (aes-gcm, aes-kw, scrypt, pbkdf2, sha3,
    ed25519-dalek, hex, base64, rand) are the parameters of class [Primitives];
    the documented facts the code relies on are the fields of [PrimitiveLaws].
    [ToyPrimitives.v] holds a concrete instance. *)
From S2P Require Import Prelude.

(** ** Third-party primitives *)

Class Primitives := {
  aes_gcm_encrypt : bytes -> bytes -> bytes -> bytes -> option bytes;  (* key nonce aad msg *)
  aes_gcm_decrypt : bytes -> bytes -> bytes -> bytes -> option bytes;
  sha3_256 : bytes -> bytes;
  scrypt : bytes -> bytes -> nat -> option bytes;  (* n=2^12, r=16, p=4: password salt dklen *)
  pbkdf2_sha3_512 : bytes -> bytes -> nat -> bytes;  (* 200000 iterations *)
  aes_kw_wrap : bytes -> bytes -> option bytes;
  aes_kw_unwrap : bytes -> bytes -> option bytes;
  ed25519_public : bytes -> bytes;
  ed25519_sign : bytes -> bytes -> bytes;
  ed25519_verify : bytes -> bytes -> bytes -> bool;  (* public key, message, signature *)
  hex_encode : bytes -> string;
  hex_decode : string -> option bytes;
  b64_encode : bytes -> string;
  b64_decode : string -> option bytes;
  b64url_encode : bytes -> string;
  b64url_decode : string -> option bytes;
  rand_bytes : nat -> nat -> bytes;  (* the [n]-th draw from the CSPRNG, and its length *)
}.

Class PrimitiveLaws (P : Primitives) : Prop := {
  aes_gcm_roundtrip k n a m c :
    aes_gcm_encrypt k n a m = Some c -> aes_gcm_decrypt k n a c = Some m;
  aes_gcm_length k n a m c :
    aes_gcm_encrypt k n a m = Some c -> length c = (length m + 16)%nat;
  aes_gcm_encrypts k n a (m : bytes) :
    Z.of_nat (length m) <= 2 ^ 36 - 32 -> is_Some (aes_gcm_encrypt k n a m);
  sha3_256_length m : length (sha3_256 m) = 32%nat;
  scrypt_length pw salt n d : scrypt pw salt n = Some d -> length d = n;
  scrypt_derives pw salt : is_Some (scrypt pw salt 32);
  pbkdf2_length pw salt n : length (pbkdf2_sha3_512 pw salt n) = n;
  aes_kw_roundtrip k m c : aes_kw_wrap k m = Some c -> aes_kw_unwrap k c = Some m;
  aes_kw_length k m c : aes_kw_wrap k m = Some c -> length c = (length m + 8)%nat;
  aes_kw_wraps k (m : bytes) : (length m mod 8 = 0)%nat -> is_Some (aes_kw_wrap k m);
  ed25519_public_length s : length (ed25519_public s) = 32%nat;
  ed25519_sign_length s m : length (ed25519_sign s m) = 64%nat;
  ed25519_signed s m : ed25519_verify (ed25519_public s) m (ed25519_sign s m) = true;
  hex_roundtrip b : hex_decode (hex_encode b) = Some b;
  b64_roundtrip b : b64_decode (b64_encode b) = Some b;
  b64url_roundtrip b : b64url_decode (b64url_encode b) = Some b;
  rand_length i n : length (rand_bytes i n) = n;
}.

(** ** Errors *)

Inductive CryptoError :=
| KeyDerivation (msg : string)
| Encryption (msg : string)
| Decryption (msg : string)
| SignatureErr (msg : string)
| Serialization (msg : string)
| JsonErr (msg : string)
| Base64Err (msg : string)
| InvalidKeyFormat.

Abbreviation CryptoResult := (result CryptoError).

(** [e.to_string()] *)
Definition crypto_msg (e : CryptoError) : string :=
  match e with
  | KeyDerivation m => "Key derivation failed: " +:+ m
  | Encryption m => "Encryption failed: " +:+ m
  | Decryption m => "Decryption failed: " +:+ m
  | SignatureErr m => "Signature error: " +:+ m
  | Serialization m => "Serialization error: " +:+ m
  | JsonErr m => "JSON error: " +:+ m
  | Base64Err m => "Base64 error: " +:+ m
  | InvalidKeyFormat => "Invalid key format"
  end.

Section core.
Context {P : Primitives}.

(** ** Timestamped envelope: [timestamp(5) || salt(32) || ciphertext-with-tag] *)

Definition TIMESTAMP_LEN : nat := 5.
Definition SALT_LEN : nat := 32.
Definition ENVELOPE_PREFIX : nat := TIMESTAMP_LEN + SALT_LEN.

(** The low five bytes of the big-endian second count. *)
Definition timestamp_bytes (secs : Z) : bytes := drop 3 (be_bytes 8 secs).

Definition derive_message_key (key salt : bytes) : CryptoResult bytes :=
  ok_or (KeyDerivation "scrypt") (scrypt key salt 32).

Definition scrypt_dek (key salt : bytes) : CryptoResult bytes := derive_message_key key salt.

(** [salt] is the fresh 32-byte draw, [secs] the clock reading. *)
Definition encrypt_aes_gcm (salt : bytes) (secs : Z) (data key : bytes) : CryptoResult bytes :=
  let timestamp := timestamp_bytes secs in
  message_key ← derive_message_key key salt;
  let nonce := take 12 salt in
  ciphertext ← ok_or (Encryption "AES-GCM encryption failed")
                 (aes_gcm_encrypt message_key nonce timestamp data);
  Ok (timestamp ++ salt ++ ciphertext).

Definition decrypt_aes_gcm (envelope key : bytes) : CryptoResult bytes :=
  if (length envelope <? ENVELOPE_PREFIX + 16)%nat
  then Err (Decryption "envelope too short (need timestamp+salt+tag at minimum)")
  else
    let timestamp := take TIMESTAMP_LEN envelope in
    let salt := take SALT_LEN (drop TIMESTAMP_LEN envelope) in
    let body := drop ENVELOPE_PREFIX envelope in
    message_key ← derive_message_key key salt;
    let nonce := take 12 salt in
    ok_or (Decryption "AES-GCM decryption failed")
      (aes_gcm_decrypt message_key nonce timestamp body).

(** ** Plain AEAD seals: [nonce(12) || ciphertext-with-tag] *)

Definition aead_seal_nonce (plaintext dek nonce : bytes) : CryptoResult bytes :=
  if negb (length dek =? 32)%nat then Err (Encryption "DEK must be 32 bytes")
  else
    ct ← ok_or (Encryption "AES-GCM seal failed") (aes_gcm_encrypt dek nonce [] plaintext);
    Ok (nonce ++ ct).

(** [nonce] is the fresh 12-byte draw. *)
Definition aead_seal (nonce plaintext dek : bytes) : CryptoResult bytes :=
  aead_seal_nonce plaintext dek nonce.

Definition aead_open_nonce (frame dek expected : bytes) : CryptoResult bytes :=
  if negb (length dek =? 32)%nat then Err (Decryption "DEK must be 32 bytes")
  else if (length frame <? 12 + 16)%nat then Err (Decryption "frame too short")
  else if negb (bool_decide (take 12 frame = expected))
  then Err (Decryption "unexpected nonce (out-of-order or replayed frame)")
  else ok_or (Decryption "AES-GCM open failed")
         (aes_gcm_decrypt dek (take 12 frame) [] (drop 12 frame)).

Definition aead_seal_aad (nonce plaintext dek aad : bytes) : CryptoResult bytes :=
  if negb (length dek =? 32)%nat then Err (Encryption "DEK must be 32 bytes")
  else
    ct ← ok_or (Encryption "AES-GCM seal failed") (aes_gcm_encrypt dek nonce aad plaintext);
    Ok (nonce ++ ct).

Definition aead_open_aad (envelope dek aad : bytes) : CryptoResult bytes :=
  if negb (length dek =? 32)%nat then Err (Decryption "DEK must be 32 bytes")
  else if (length envelope <? 12 + 16)%nat then Err (Decryption "envelope too short")
  else ok_or (Decryption "AES-GCM open failed")
         (aes_gcm_decrypt dek (take 12 envelope) aad (drop 12 envelope)).

Definition aead_open (envelope dek : bytes) : CryptoResult bytes :=
  if negb (length dek =? 32)%nat then Err (Decryption "DEK must be 32 bytes")
  else if (length envelope <? 12 + 16)%nat then Err (Decryption "envelope too short")
  else
    let nonce := take 12 envelope in
    let body := drop 12 envelope in
    ok_or (Decryption "AES-GCM open failed") (aes_gcm_decrypt dek nonce [] body).

(** ** Key hierarchy *)

Record PrimaryKey := { seed : bytes }.

Inductive Kdf := Scrypt | Pbkdf2Sha3_512.

Record SecondaryKey := {
  sk_primary : PrimaryKey;
  sk_domain : string;
  sk_kdf : Kdf;
  sk_length : nat;
}.

Definition SecondaryKey_scrypt (primary : PrimaryKey) (domain : string) (len : nat) : SecondaryKey :=
  {| sk_primary := primary; sk_domain := domain; sk_kdf := Scrypt; sk_length := len |}.

Definition SecondaryKey_pbkdf2 (primary : PrimaryKey) (domain : string) (len : nat) : SecondaryKey :=
  {| sk_primary := primary; sk_domain := domain; sk_kdf := Pbkdf2Sha3_512; sk_length := len |}.

Definition handle_with_info (k : SecondaryKey) (info : bytes) : CryptoResult bytes :=
  let salt := as_bytes (sk_domain k) ++ info in
  match sk_kdf k with
  | Scrypt => ok_or (KeyDerivation "scrypt") (scrypt (seed (sk_primary k)) salt (sk_length k))
  | Pbkdf2Sha3_512 => Ok (pbkdf2_sha3_512 (seed (sk_primary k)) salt (sk_length k))
  end.

Definition handle (k : SecondaryKey) : CryptoResult bytes := handle_with_info k [].

(** ** Iterated AES key wrap *)

Definition WRAPPED_KEY_ITERATIONS : nat := 30.

Record WrappedKey := {
  wk_wrapped : bytes;
  wk_wrapper : SecondaryKey;
  wk_iterations : nat;
}.

(** [(0..nbytes).rev().map(|b| (i >> (b * 8)) & 0xff)] *)
Definition round_info (i : nat) : bytes :=
  if (i =? 0)%nat then [byte_of_Z 0]
  else
    let bits := Z.log2 (Z.of_nat i) + 1 in
    let nbytes := Z.to_nat (bits / 8 + 1) in
    (fun b => byte_of_Z (Z.land (Z.shiftr (Z.of_nat i) (Z.of_nat b * 8)) 255)) <$> rev (seq 0 nbytes).

(** The KEK of round [i]; the conversion to [[u8; 32]] fails on other lengths. *)
Definition round_kek (wrapper : SecondaryKey) (i : nat) : CryptoResult bytes :=
  kek_bytes ← handle_with_info wrapper (round_info i);
  if (length kek_bytes =? 32)%nat then Ok kek_bytes
  else Err (KeyDerivation "KEK was not 32 bytes").

(** [for i in 0..iterations] of [wrap_bytes], from round [i]. *)
Fixpoint wrap_rounds (wrapper : SecondaryKey) (i n : nat) (buf : bytes) : CryptoResult bytes :=
  match n with
  | O => Ok buf
  | S n' =>
      kek ← round_kek wrapper i;
      next ← ok_or (Encryption ("aes-kw iter " +:+ show_Z (Z.of_nat i))) (aes_kw_wrap kek buf);
      wrap_rounds wrapper (S i) n' next
  end.

(** [primary] is the fresh wrapping root. *)
Definition wrap_bytes (primary : PrimaryKey) (secret : bytes) (iterations : nat) : CryptoResult WrappedKey :=
  if negb (length secret =? 32)%nat
  then Err (Encryption "WrappedKey expects a 32-byte inner secret")
  else
    let wrapper := SecondaryKey_scrypt primary "key-wrap/v1" 32 in
    buf ← wrap_rounds wrapper 0 iterations secret;
    Ok {| wk_wrapped := buf; wk_wrapper := wrapper; wk_iterations := iterations |}.

(** [for i in (0..n).rev()] of [unwrap]. *)
Fixpoint unwrap_rounds (wrapper : SecondaryKey) (n : nat) (buf : bytes) : CryptoResult bytes :=
  match n with
  | O => Ok buf
  | S i =>
      if (length buf <? 8)%nat then Err (Decryption "wrapped blob is too short to unwrap")
      else
        kek ← round_kek wrapper i;
        next ← ok_or (Decryption ("aes-kw iter " +:+ show_Z (Z.of_nat i))) (aes_kw_unwrap kek buf);
        unwrap_rounds wrapper i next
  end.

Definition unwrap (wk : WrappedKey) : CryptoResult bytes :=
  unwrap_rounds (wk_wrapper wk) (wk_iterations wk) (wk_wrapped wk).

(** ** Ed25519 identity keys *)

Record AsymmetricKey := {
  signing_key : bytes;
  verifying_key : bytes;
}.

Definition AsymmetricKey_generate (r : nat) : AsymmetricKey :=
  let s := rand_bytes r 32 in
  {| signing_key := s; verifying_key := ed25519_public s |}.

(** ** Master key bundle *)

Record BlackbookKey := {
  bk_id : bytes;
  symmetric : WrappedKey;
  root : PrimaryKey;
  secret_layer1 : SecondaryKey;
  secret_layer2 : SecondaryKey;
  file_dek_kek : SecondaryKey;
  index : SecondaryKey;
  hmac : SecondaryKey;
  mfa_secret_kek : SecondaryKey;
  asymmetric : AsymmetricKey;
  exchange_key : bytes;
}.

(** [r] is the position of the next CSPRNG draw; the random ids inside the
    component keys are left out. *)
Definition generate (r : nat) : CryptoResult BlackbookKey :=
  let id := rand_bytes r 32 in
  symmetric ← wrap_bytes {| seed := rand_bytes (S (S r)) 32 |} (rand_bytes (S r) 32)
                WRAPPED_KEY_ITERATIONS;
  let root := {| seed := rand_bytes (S (S (S r))) 32 |} in
  Ok {| bk_id := id;
        symmetric := symmetric;
        root := root;
        secret_layer1 := SecondaryKey_scrypt root "secret/layer1/v1" 32;
        secret_layer2 := SecondaryKey_scrypt root "secret/layer2/v1" 32;
        file_dek_kek := SecondaryKey_scrypt root "file/dek-kek/v1" 32;
        index := SecondaryKey_pbkdf2 root "index/v1" 32;
        hmac := SecondaryKey_pbkdf2 root "hmac/v1" 32;
        mfa_secret_kek := SecondaryKey_scrypt root "mfa/secret-kek/v1" 32;
        asymmetric := AsymmetricKey_generate (4 + r);
        exchange_key := rand_bytes (5 + r) 32 |}.

Definition symmetric_bytes (k : BlackbookKey) : CryptoResult bytes := unwrap (symmetric k).

(** Sealing the bundle itself; [to_json]/[from_json] are serde's. *)
Section bundle.
Context (to_json : BlackbookKey -> CryptoResult bytes) (from_json : bytes -> CryptoResult BlackbookKey).

Definition serialize (salt : bytes) (secs : Z) (k : BlackbookKey) : CryptoResult string :=
  json ← to_json k;
  key_bytes ← symmetric_bytes k;
  encrypted ← encrypt_aes_gcm salt secs json key_bytes;
  Ok (b64_encode encrypted).

Definition deserialize (data : string) (symmetric_key : bytes) : CryptoResult BlackbookKey :=
  encrypted ← ok_or (Base64Err "decode") (b64_decode data);
  decrypted ← decrypt_aes_gcm encrypted symmetric_key;
  from_json decrypted.
End bundle.

Definition index_id (k : BlackbookKey) (name : string) : CryptoResult string :=
  b ← handle_with_info (index k) (as_bytes name);
  Ok (hex_encode b).

(** ** Password hashes: base64 of [salt(32) || scrypt(32)] *)

Definition hash_password (salt : bytes) (password : string) : CryptoResult string :=
  output ← ok_or (KeyDerivation "scrypt") (scrypt (as_bytes password) salt 32);
  Ok (b64_encode (salt ++ output)).

Definition verify_password (password hash : string) : CryptoResult bool :=
  decoded ← ok_or (Base64Err "decode") (b64_decode hash);
  if negb (length decoded =? 64)%nat then Err (Encryption "Invalid hash format")
  else
    let salt := take 32 decoded in
    let stored_hash := take 32 (drop 32 decoded) in
    output ← ok_or (KeyDerivation "scrypt") (scrypt (as_bytes password) salt 32);
    Ok (bool_decide (output = stored_hash)).

(** *** Signatures *)

Definition ak_sign (k : AsymmetricKey) (data : bytes) : CryptoResult string :=
  if negb (length (signing_key k) =? 32)%nat then Err InvalidKeyFormat
  else Ok (b64_encode (ed25519_sign (signing_key k) data)).

Definition ak_verify (k : AsymmetricKey) (signature : string) (data : bytes) : CryptoResult bool :=
  sig ← ok_or (Base64Err "decode") (b64_decode signature);
  if negb (length (verifying_key k) =? 32)%nat then Err InvalidKeyFormat
  else if negb (length sig =? 64)%nat then Err InvalidKeyFormat
  else Ok (ed25519_verify (verifying_key k) data sig).
End core.

(** * Correctness *)

(** Length side conditions of the envelopes. *)
Ltac solve_len :=
  repeat first
    [ rewrite length_app | rewrite length_take | rewrite length_drop | rewrite be_bytes_length ];
  simpl length in *; try lia.

(** Test a length guard that the context decides. *)
Ltac guard_ltb :=
  match goal with
  | |- context [(?a <? ?b)%nat] =>
      first [ rewrite (proj2 (Nat.ltb_ge a b)) by solve_len | rewrite (proj2 (Nat.ltb_lt a b)) by solve_len ]
  end.

Section laws.
Context {P : Primitives} {L : PrimitiveLaws P}.

Lemma timestamp_bytes_length secs : length (timestamp_bytes secs) = 5%nat.
Proof. unfold timestamp_bytes. by rewrite length_drop, be_bytes_length. Qed.

Lemma derive_message_key_ok key salt : exists mk, derive_message_key key salt = Ok mk.
Proof. unfold derive_message_key. destruct (scrypt_derives key salt) as [d ->]. by eexists. Qed.

(** The shape of a sealed envelope. *)
Lemma encrypt_aes_gcm_inv salt secs data key env :
  encrypt_aes_gcm salt secs data key = Ok env ->
  exists mk ct, derive_message_key key salt = Ok mk /\
    aes_gcm_encrypt mk (take 12 salt) (timestamp_bytes secs) data = Some ct /\
    env = timestamp_bytes secs ++ salt ++ ct.
Proof.
  unfold encrypt_aes_gcm. intros H. result_inv.
  destruct (aes_gcm_encrypt _ _ _ _) as [ct|] eqn:E; result_inv; simplify_eq/=. eauto.
Qed.

Lemma encrypt_aes_gcm_roundtrip salt secs data key env :
  length salt = SALT_LEN -> encrypt_aes_gcm salt secs data key = Ok env ->
  decrypt_aes_gcm env key = Ok data.
Proof.
  unfold SALT_LEN. intros Hs H. apply encrypt_aes_gcm_inv in H as (mk & ct & Hmk & Hct & ->).
  pose proof (timestamp_bytes_length secs) as Ht. pose proof (aes_gcm_length _ _ _ _ _ Hct).
  unfold decrypt_aes_gcm, ENVELOPE_PREFIX, TIMESTAMP_LEN, SALT_LEN. guard_ltb.
  rewrite take_app_length' by done. rewrite drop_app_length' by done.
  rewrite take_app_length' by done. rewrite app_assoc, drop_app_length' by solve_len.
  rewrite Hmk. simpl. by rewrite (aes_gcm_roundtrip _ _ _ _ _ Hct).
Qed.

Lemma encrypt_aes_gcm_length salt secs data key env :
  length salt = SALT_LEN -> encrypt_aes_gcm salt secs data key = Ok env ->
  length env = (ENVELOPE_PREFIX + length data + 16)%nat.
Proof.
  unfold SALT_LEN. intros Hs H. apply encrypt_aes_gcm_inv in H as (mk & ct & Hmk & Hct & ->).
  pose proof (timestamp_bytes_length secs). pose proof (aes_gcm_length _ _ _ _ _ Hct).
  unfold ENVELOPE_PREFIX, TIMESTAMP_LEN, SALT_LEN. solve_len.
Qed.

Lemma encrypt_aes_gcm_total salt secs data key :
  Z.of_nat (length data) <= 2 ^ 36 - 32 -> exists env, encrypt_aes_gcm salt secs data key = Ok env.
Proof.
  intros Hd. unfold encrypt_aes_gcm. destruct (derive_message_key_ok key salt) as [mk ->]. simpl.
  destruct (aes_gcm_encrypts mk (take 12 salt) (timestamp_bytes secs) data Hd) as [ct ->]. by eexists.
Qed.

Lemma aead_seal_aad_inv nonce pt dek aad env :
  aead_seal_aad nonce pt dek aad = Ok env ->
  length dek = 32%nat /\ exists ct, aes_gcm_encrypt dek nonce aad pt = Some ct /\ env = nonce ++ ct.
Proof.
  unfold aead_seal_aad. destruct (Nat.eqb_spec (length dek) 32); simpl; [|done]. intros H. result_inv.
  destruct (aes_gcm_encrypt _ _ _ _) as [ct|] eqn:E; result_inv; simplify_eq/=. eauto.
Qed.

Lemma aead_aad_roundtrip nonce pt dek aad env :
  length nonce = 12%nat -> aead_seal_aad nonce pt dek aad = Ok env ->
  aead_open_aad env dek aad = Ok pt.
Proof.
  intros Hn (Hd & ct & Hct & ->)%aead_seal_aad_inv. pose proof (aes_gcm_length _ _ _ _ _ Hct).
  unfold aead_open_aad. rewrite Hd. simpl negb. guard_ltb.
  rewrite take_app_length', drop_app_length' by done. by rewrite (aes_gcm_roundtrip _ _ _ _ _ Hct).
Qed.

(** Without associated data the three seals coincide. *)
Lemma aead_seal_nonce_aad nonce pt dek : aead_seal_nonce pt dek nonce = aead_seal_aad nonce pt dek [].
Proof. reflexivity. Qed.
Lemma aead_open_no_aad env dek : aead_open env dek = aead_open_aad env dek [].
Proof. reflexivity. Qed.

Lemma aead_roundtrip nonce pt dek env :
  length nonce = 12%nat -> aead_seal nonce pt dek = Ok env -> aead_open env dek = Ok pt.
Proof. apply aead_aad_roundtrip. Qed.

(** On the nonce it carries, a frame opens like any other seal. *)
Lemma aead_open_nonce_expected frame dek pt :
  aead_open_nonce frame dek (take 12 frame) = Ok pt <-> aead_open frame dek = Ok pt.
Proof.
  unfold aead_open_nonce, aead_open. rewrite bool_decide_eq_true_2 by done.
  by repeat case_match.
Qed.

Lemma aead_open_nonce_other frame dek e :
  take 12 frame <> e -> forall pt, aead_open_nonce frame dek e <> Ok pt.
Proof.
  intros Hn pt. unfold aead_open_nonce. rewrite bool_decide_eq_false_2 by done. by repeat case_match.
Qed.

Lemma aead_nonce_roundtrip nonce pt dek env :
  length nonce = 12%nat -> aead_seal_nonce pt dek nonce = Ok env ->
  aead_open_nonce env dek nonce = Ok pt.
Proof.
  intros Hn H. pose proof H as (_ & ct & _ & He)%aead_seal_aad_inv.
  assert (nonce = take 12 env) as Ht by (by rewrite He, take_app_length').
  rewrite Ht. apply aead_open_nonce_expected. by apply (aead_roundtrip nonce).
Qed.

Lemma aead_seal_total nonce pt dek aad :
  length dek = 32%nat -> Z.of_nat (length pt) <= 2 ^ 36 - 32 ->
  exists env, aead_seal_aad nonce pt dek aad = Ok env.
Proof.
  intros Hd Hp. unfold aead_seal_aad. rewrite Hd. simpl.
  destruct (aes_gcm_encrypts dek nonce aad pt Hp) as [ct ->]. by eexists.
Qed.
End laws.
