(* ===== verification/ToyPrimitives.v ===== *)
(** A concrete instance of [Crypto.Primitives] that satisfies
    [Crypto.PrimitiveLaws]: it shows the laws are jointly satisfiable and lets
    the witnesses of the development evaluate. It is not cryptographic. *)
From S2P Require Import Prelude Crypto.

Definition toy_hash (b : bytes) : Z :=
  foldl (fun acc x => Z.land (acc * 257 + Z_of_byte x + 1) (2 ^ 64 - 1)) 7 b.

(** Append a tag; the inverse checks and drops it. *)
Definition toy_seal (n : nat) (k m : bytes) : bytes := m ++ be_bytes n (toy_hash (k ++ m)).

Definition toy_open (n : nat) (k c : bytes) : option bytes :=
  let m := take (length c - n) c in
  if bool_decide (c = toy_seal n k m) then Some m else None.

Lemma toy_open_seal n k m : toy_open n k (toy_seal n k m) = Some m.
Proof.
  unfold toy_open. assert (take (length (toy_seal n k m) - n) (toy_seal n k m) = m) as ->.
  { unfold toy_seal. rewrite length_app, be_bytes_length.
    apply take_app_length'. lia. }
  by rewrite bool_decide_eq_true_2.
Qed.

Lemma toy_seal_length n k m : length (toy_seal n k m) = (length m + n)%nat.
Proof. unfold toy_seal. by rewrite length_app, be_bytes_length. Qed.

(** Hexadecimal, two lower-case digits a byte. *)
Definition nibble (z : Z) : Ascii.ascii :=
  Ascii.ascii_of_nat (Z.to_nat (if z <? 10 then z + 48 else z + 87)).

Definition nibble_value (a : Ascii.ascii) : option Z :=
  let n := Z.of_nat (Ascii.nat_of_ascii a) in
  if (48 <=? n) && (n <=? 57) then Some (n - 48)
  else if (97 <=? n) && (n <=? 102) then Some (n - 87)
  else None.

Fixpoint toy_hex (b : bytes) : string :=
  match b with
  | [] => EmptyString
  | x :: b' => String (nibble (Z_of_byte x / 16)) (String (nibble (Z_of_byte x mod 16)) (toy_hex b'))
  end.

Fixpoint toy_unhex (s : string) : option bytes :=
  match s with
  | EmptyString => Some []
  | String _ EmptyString => None
  | String a (String c s') =>
      h ← nibble_value a; l ← nibble_value c; r ← toy_unhex s';
      Some (byte_of_Z (h * 16 + l) :: r)
  end.

Lemma toy_unhex_hex b : toy_unhex (toy_hex b) = Some b.
Proof.
  induction b as [|x b IH]; [done|]. cbn [toy_hex toy_unhex]. rewrite IH.
  by destruct x.
Qed.

(** Base64 is padded unless it holds whole groups of three bytes. *)
Definition toy_b64 (b : bytes) : string := toy_hex b +:+ (if (length b mod 3 =? 0)%nat then "" else "=").

Fixpoint unpad (s : string) : string :=
  match s with
  | EmptyString => EmptyString
  | String "="%char EmptyString => EmptyString
  | String a s' => String a (unpad s')
  end.

Definition toy_unb64 (s : string) : option bytes := toy_unhex (unpad s).

Lemma unpad_hex b e : e = "" \/ e = "=" -> unpad (toy_hex b +:+ e) = toy_hex b.
Proof.
  intros He. induction b as [|x b IH]; [by destruct He as [-> | ->]|].
  assert (Hs : forall c s, Ascii.eqb c "="%char = false -> unpad (String c s) = String c (unpad s)).
  { intros c s Hc. by destruct c as [[] [] [] [] [] [] [] []]. }
  change (toy_hex (x :: b) +:+ e) with
    (String (nibble (Z_of_byte x / 16)) (String (nibble (Z_of_byte x mod 16)) (toy_hex b +:+ e))).
  rewrite !Hs, IH; [done|by destruct x..].
Qed.

Lemma toy_unb64_b64 b : toy_unb64 (toy_b64 b) = Some b.
Proof.
  unfold toy_unb64, toy_b64. rewrite unpad_hex; [apply toy_unhex_hex|]. destruct (_ =? 0)%nat; [by left|by right].
Qed.

#[export] Instance toy : Primitives := {|
  aes_gcm_encrypt k n a m := Some (toy_seal 16 (k ++ n ++ a) m);
  aes_gcm_decrypt k n a c := toy_open 16 (k ++ n ++ a) c;
  sha3_256 m := be_bytes 32 (toy_hash m);
  scrypt pw salt n := Some (be_bytes n (toy_hash (pw ++ Byte.x00 :: salt)));
  pbkdf2_sha3_512 pw salt n := be_bytes n (toy_hash (pw ++ Byte.x01 :: salt));
  aes_kw_wrap k m := Some (toy_seal 8 k m);
  aes_kw_unwrap k c := toy_open 8 k c;
  ed25519_public s := be_bytes 32 (toy_hash s);
  ed25519_sign s m := be_bytes 64 (toy_hash (be_bytes 32 (toy_hash s) ++ m));
  ed25519_verify pk m sig := bool_decide (sig = be_bytes 64 (toy_hash (pk ++ m)));
  hex_encode := toy_hex;
  hex_decode := toy_unhex;
  b64_encode := toy_b64;
  b64_decode := toy_unb64;
  b64url_encode := toy_hex;
  b64url_decode := toy_unhex;
  rand_bytes i n := be_bytes n (Z.of_nat i * 7919 + 1);
|}.

Lemma Some_be_bytes_length n z d : Some (be_bytes n z) = Some d -> length d = n.
Proof. intros [= <-]. apply be_bytes_length. Qed.

#[export] Instance toy_laws : PrimitiveLaws toy.
Proof.
  split.
  - intros k n a m c [= <-]. apply toy_open_seal.
  - intros k n a m c [= <-]. apply toy_seal_length.
  - intros. by eexists.
  - intros. apply be_bytes_length.
  - intros pw salt n d. apply Some_be_bytes_length.
  - intros. by eexists.
  - intros. apply be_bytes_length.
  - intros k m c [= <-]. apply toy_open_seal.
  - intros k m c [= <-]. apply toy_seal_length.
  - intros. by eexists.
  - intros. apply be_bytes_length.
  - intros. apply be_bytes_length.
  - intros. by apply bool_decide_eq_true_2.
  - apply toy_unhex_hex.
  - apply toy_unb64_b64.
  - apply toy_unhex_hex.
  - intros. apply be_bytes_length.
Qed.
