(* ===== verification/CryptoProps.v ===== *)
(** Properties of the cryptographic core ([Crypto.v]) and their witnesses. *)
From S2P Require Import Prelude Crypto ToyPrimitives.

Section wrap.
Context {P : Primitives} {L : PrimitiveLaws P}.

(** The last round peeled off, the order in which [unwrap] undoes them. *)
Lemma wrap_rounds_cons w i n b :
  wrap_rounds w i (S n) b =
    (kek ← round_kek w i;
     next ← ok_or (Encryption ("aes-kw iter " +:+ show_Z (Z.of_nat i))) (aes_kw_wrap kek b);
     wrap_rounds w (S i) n next).
Proof. done. Qed.

Lemma wrap_rounds_snoc w i n b :
  wrap_rounds w i (S n) b =
    (mid ← wrap_rounds w i n b;
     kek ← round_kek w (i + n);
     ok_or (Encryption ("aes-kw iter " +:+ show_Z (Z.of_nat (i + n)))) (aes_kw_wrap kek mid)).
Proof.
  revert i b. induction n as [|n IH]; intros i b.
  - simpl. rewrite Nat.add_0_r. destruct (round_kek w i); simpl; [|done].
    by destruct (aes_kw_wrap _ _).
  - rewrite (wrap_rounds_cons w i (S n)), (wrap_rounds_cons w i n).
    destruct (round_kek w i) as [kek|]; [|done]. autorewrite with bbk.
    destruct (aes_kw_wrap kek b) as [next|]; cbn [ok_or]; [|done]. autorewrite with bbk. rewrite IH.
    by replace (S i + n)%nat with (i + S n)%nat by lia.
Qed.

Lemma wrap_rounds_undo w n b b' :
  wrap_rounds w 0 n b = Ok b' ->
  unwrap_rounds w n b' = Ok b /\ length b' = (length b + 8 * n)%nat.
Proof.
  revert b'. induction n as [|n IH]; intros b' H; [simpl in *; simplify_eq; split; [done|lia]|].
  rewrite wrap_rounds_snoc in H. result_inv. destruct (IH _ ltac:(eassumption)) as [Hu Hl].
  simplify_eq/=.
  match goal with E : aes_kw_wrap _ _ = Some _ |- _ =>
    pose proof (aes_kw_roundtrip _ _ _ E) as Hr; pose proof (aes_kw_length _ _ _ E) as Hlen end.
  split; [|lia]. rewrite (proj2 (Nat.ltb_ge _ 8)) by lia.
  match goal with E : round_kek _ _ = Ok _ |- _ => rewrite E end. simpl. by rewrite Hr.
Qed.

Lemma round_kek_ok primary i :
  exists kek, round_kek (SecondaryKey_scrypt primary "key-wrap/v1" 32) i = Ok kek.
Proof.
  unfold round_kek, handle_with_info. simpl.
  edestruct (scrypt_derives (seed primary)) as [d Hd]. rewrite Hd. simpl.
  rewrite (scrypt_length _ _ _ _ Hd). by eexists.
Qed.

Lemma wrap_rounds_total primary i n b :
  (length b mod 8 = 0)%nat ->
  exists b', wrap_rounds (SecondaryKey_scrypt primary "key-wrap/v1" 32) i n b = Ok b'.
Proof.
  revert i b. induction n as [|n IH]; intros i b Hb; [by eexists|]. cbn [wrap_rounds].
  destruct (round_kek_ok primary i) as [kek ->]. simpl.
  destruct (aes_kw_wraps kek b Hb) as [c Hc]. rewrite Hc. simpl. apply IH.
  rewrite (aes_kw_length _ _ _ Hc). rewrite <- Nat.Div0.add_mod_idemp_l, Hb. done.
Qed.

Lemma wrap_bytes_undo primary secret n :
  length secret = 32%nat ->
  exists wk, wrap_bytes primary secret n = Ok wk /\
             length (wk_wrapped wk) = (32 + 8 * n)%nat /\ unwrap wk = Ok secret.
Proof.
  intros Hs. unfold wrap_bytes. rewrite Hs. simpl.
  destruct (wrap_rounds_total primary 0 n secret) as [b Hb]; [by rewrite Hs|].
  rewrite Hb. simpl. eexists. split; [done|]. unfold unwrap; simpl.
  apply wrap_rounds_undo in Hb as [Hu Hl]. split; [lia|done].
Qed.
End wrap.

(** ** The per-round salt *)

Lemma rev_seq_S a n : rev (seq a (S n)) = ((a + n)%nat : nat) :: rev (seq a n).
Proof. rewrite seq_S, rev_app_distr. done. Qed.

(** Byte [b] of a shifted-and-masked integer. *)
Lemma mask_byte z k : byte_of_Z (Z.land (Z.shiftr z (Z.of_nat k * 8)) 255) = byte_of_Z (z / 256 ^ Z.of_nat k).
Proof.
  change 255 with (Z.ones 8). rewrite Z.land_ones, Z.shiftr_div_pow2 by lia.
  replace (Z.of_nat k * 8) with (8 * Z.of_nat k) by lia. rewrite Z.pow_mul_r by lia.
  apply Z_of_byte_inj. rewrite !Z_of_byte_of_Z. change (2 ^ 8) with 256. by rewrite Z.mod_mod.
Qed.

Lemma be_bytes_cons n z : be_bytes (S n) z = byte_of_Z (z / 256 ^ Z.of_nat n) :: be_bytes n z.
Proof.
  revert z. induction n as [|n IH]; intros z; [by rewrite Z.div_1_r|].
  change (be_bytes (S (S n)) z) with (be_bytes (S n) (z / 256) ++ [byte_of_Z z]).
  rewrite IH, Z.div_div by lia. rewrite <- Z.pow_succ_r, <- Nat2Z.inj_succ by lia. done.
Qed.

Lemma shifted_bytes_be z n :
  (fun b => byte_of_Z (Z.land (Z.shiftr z (Z.of_nat b * 8)) 255)) <$> rev (seq 0 n) = be_bytes n z.
Proof.
  induction n as [|n IH]; [done|]. rewrite rev_seq_S, be_bytes_cons, <- IH. simpl. f_equal. apply mask_byte.
Qed.

(** The round salts are big-endian encodings of the round number, so no two
    rounds share one; the encoding is one byte longer than the minimal one when
    the bit length is a multiple of eight. *)
Theorem round_info_spec :
  (forall i, be_value (round_info i) = Z.of_nat i) /\
  (forall i j, round_info i = round_info j -> i = j) /\
  (forall i, (i < 128)%nat -> length (round_info i) = 1%nat) /\
  round_info 128 = [byte_of_Z 0; byte_of_Z 128].
Proof.
  assert (Hval : forall i, be_value (round_info i) = Z.of_nat i).
  { intros i. unfold round_info. destruct (Nat.eqb_spec i 0) as [->|Hi]; [done|].
    rewrite shifted_bytes_be, be_value_be_bytes. apply Z.mod_small. split; [lia|].
    pose proof (Z.log2_spec (Z.of_nat i) ltac:(lia)) as [_ Hlog].
    pose proof (Z.log2_nonneg (Z.of_nat i)).
    eapply Z.lt_le_trans; [exact Hlog|]. change 256 with (2 ^ 8). rewrite <- Z.pow_mul_r by lia.
    apply Z.pow_le_mono_r; [lia|].
    pose proof (Z.div_pos (Z.log2 (Z.of_nat i) + 1) 8 ltac:(lia) ltac:(lia)).
    pose proof (Z.mul_succ_div_gt (Z.log2 (Z.of_nat i) + 1) 8 ltac:(lia)). lia. }
  split; [exact Hval|]. split.
  { intros i j Hij. apply Nat2Z.inj. by rewrite <- !Hval, Hij. }
  split; [|by vm_compute].
  intros i Hi. assert (Hin : i ∈ seq 0 128) by (apply elem_of_seq; lia).
  clear Hi. revert i Hin. apply Forall_forall. apply (bool_decide_unpack _). vm_compute. exact I.
Qed.

(** ** Domain separation *)

Definition bundle_keys (k : BlackbookKey) : list SecondaryKey :=
  [secret_layer1 k; secret_layer2 k; file_dek_kek k; index k; hmac k; mfa_secret_kek k;
   wk_wrapper (symmetric k)].

Definition kdf_salt (k : SecondaryKey) (info : bytes) : bytes := as_bytes (sk_domain k) ++ info.

(** Neither list extends the other. *)
Fixpoint diverge (a b : bytes) : bool :=
  match a, b with
  | x :: a', y :: b' => if decide (x = y) then diverge a' b' else true
  | _, _ => false
  end.

Lemma diverge_app a b i j : diverge a b = true -> a ++ i <> b ++ j.
Proof.
  revert b. induction a as [|x a IH]; intros b Hab; [done|]. destruct b as [|y b]; [done|].
  simpl in *. case_decide as Hxy; [|by intros [= ? _]]. intros [= _ Heq]. by apply (IH b).
Qed.

(** Generating a master bundle never fails; its iterated wrap of the
    symmetric secret inflates it by eight bytes a round and unwraps to exactly
    that secret; and every two purposes of the bundle derive from different KDF
    salts whatever per-call [info] they add. *)
Theorem generate_sound {P : Primitives} {L : PrimitiveLaws P} r :
  exists k, generate r = Ok k /\
    symmetric_bytes k = Ok (rand_bytes (S r) 32) /\
    length (wk_wrapped (symmetric k)) = (32 + 8 * WRAPPED_KEY_ITERATIONS)%nat /\
    forall i j ki kj info1 info2,
      bundle_keys k !! i = Some ki -> bundle_keys k !! j = Some kj -> i <> j ->
      kdf_salt ki info1 <> kdf_salt kj info2.
Proof.
  unfold generate.
  destruct (wrap_bytes_undo {| seed := rand_bytes (S (S r)) 32 |} (rand_bytes (S r) 32)
              WRAPPED_KEY_ITERATIONS) as (wk & Hwk & Hlen & Hu); [apply rand_length|].
  rewrite Hwk. simpl. eexists. split; [done|]. split; [done|]. split; [done|].
  assert (Hd : sk_domain (wk_wrapper wk) = "key-wrap/v1").
  { unfold wrap_bytes in Hwk. destruct (negb _); [done|]. result_inv. by simplify_eq/=. }
  intros i j ki kj info1 info2 Hi Hj Hij. unfold kdf_salt. apply diverge_app.
  unfold bundle_keys in Hi, Hj; simpl in Hi, Hj.
  do 7 (destruct i as [|i]; [do 7 (destruct j as [|j]; [simplify_eq/=; rewrite ?Hd; by vm_compute|]);
    done|]).
  done.
Qed.

Lemma generate_sound_witness :
  exists k, generate 0 = Ok k /\
    symmetric_bytes k = Ok (rand_bytes 1 32) /\
    length (wk_wrapped (symmetric k)) = 272%nat /\
    forall i j ki kj info1 info2,
      bundle_keys k !! i = Some ki -> bundle_keys k !! j = Some kj -> i <> j ->
      kdf_salt ki info1 <> kdf_salt kj info2.
Proof. exact (generate_sound 0). Defined.
