(* ===== verification/Store.v ===== *)
(** Tables of the server's Postgres schema ([initialize] in
    [src/src/main.rs]): one record per row, one list per table in insertion
    order, and one update function per table. JSONB columns hold the decoded
    values; timestamps are microseconds since the Unix epoch. *)
From S2P Require Import Prelude.

(** [auth::ResourceFlags] *)
Record ResourceFlags := MkFlags {
  mfa_required : bool;
  delete_on_read : bool;
  max_reads : option Z;
  rotate_on_read : bool;
  preserve_on_cleanup : bool;
  no_overwrite : bool;
}.

Definition default_flags : ResourceFlags := MkFlags false false None false false false.

(** [server::AccessPolicy]: names in a request, client ids in the column. *)
Record AccessPolicy := MkPolicy {
  threshold_k : Z;
  signatories : list string;
}.

(** [keys_api::KeyPolicy] *)
Record KeyPolicy := MkKeyPolicy { kp_mfa_required : bool }.

(** [blackbook_clients] *)
Record Client := MkClient {
  c_id : string; c_name_enc : bytes; c_name_id : string; c_token_hash : string;
  c_role : string; c_created : Z; c_revoked : option Z; c_expires : option Z;
  c_cert_fp : option string; c_totp : option bytes; c_totp_enrolled : bool;
}.

(** [blackbook_domains] *)
Record Domain := MkDomain {
  d_id : string; d_name_enc : bytes; d_name_id : string; d_desc_enc : option bytes;
  d_created : Z; d_archived : option Z;
}.

(** [blackbook_domain_members] *)
Record Member := MkMember {
  m_domain : string; m_client : string; m_role : string; m_added : Z;
}.

(** [blackbook_secrets] *)
Record Secret := MkSecret {
  s_id : string; s_name_enc : bytes; s_name_id : string; s_domain : string; s_layer1 : bytes;
  s_layer2 : bytes; s_wrapped : string; s_external : bool; s_envelope : option bytes;
  s_flags : ResourceFlags; s_read_count : Z; s_policy : option AccessPolicy;
  s_exhausted : option Z; s_created : Z; s_updated : Z; s_method : string;
}.

(** [blackbook_acl] *)
Record Acl := MkAcl {
  a_id : string; a_domain : string; a_client : option string; a_group : option string;
  a_pattern : bytes; a_actions : Z; a_expires : option Z; a_not_before : option Z;
  a_max_uses : option Z; a_use_count : Z; a_granted_at : Z; a_granted_by : option string;
  a_rate_max : option Z; a_rate_period : option Z; a_rate_count : Z; a_rate_window : option Z;
  a_schedule : option string;
}.

(** [blackbook_audit] *)
Record AuditRow := MkAuditRow {
  au_id : Z; au_ts : Z; au_client : option string; au_action : string; au_status : string;
  au_resource_enc : option bytes; au_message_enc : option bytes; au_prev_hash : option string;
  au_row_hash : string;
}.

(** [blackbook_audit_anchors] *)
Record Anchor := MkAnchor {
  an_id : Z; an_through : Z; an_final_hash : string; an_file : string; an_created : Z;
}.

(** [blackbook_contents] *)
Record Content := MkContent {
  co_id : string; co_path : string; co_size : Z; co_created : Z;
}.

(** [blackbook_pages] *)
Record Page := MkPage {
  p_id : string; p_name_enc : bytes; p_name_id : string; p_domain : string; p_owner : string;
  p_content : string; p_wrapped_dek : bytes; p_hash_id : string; p_size_enc : bytes;
  p_mime_enc : option bytes; p_external : bool; p_external_meta : option bytes; p_kind : Z;
  p_key_component : option bytes; p_server_copy : bool; p_flags : ResourceFlags;
  p_read_count : Z; p_policy : option AccessPolicy; p_exhausted : option Z; p_created : Z;
  p_updated : Z;
}.

(** [blackbook_access_requests] *)
Record Request := MkRequest {
  r_id : string; r_requester : string; r_kind : string; r_domain : option string;
  r_name_enc : bytes; r_name_id : string; r_threshold : Z; r_signatories : list string;
  r_approvers : list string; r_created : Z; r_expires : Z; r_consumed : option Z;
}.

(** [blackbook_access_grants] *)
Record Grant := MkGrant {
  g_id : string; g_signatory : string; g_grantee : string; g_domain : string; g_kind : string;
  g_pattern : bytes; g_max_uses : option Z; g_use_count : Z; g_not_before : option Z;
  g_expires : Z; g_created : Z; g_revoked : option Z;
}.

(** [blackbook_keys] *)
Record Key := MkKey {
  k_id : string; k_name_enc : bytes; k_name_id : string; k_domain : string; k_type : string;
  k_latest : Z; k_flags : KeyPolicy; k_created : Z; k_updated : Z;
}.

(** [blackbook_key_versions] *)
Record KeyVersion := MkKeyVersion {
  kv_key : string; kv_version : Z; kv_material : bytes; kv_public : option bytes;
  kv_created : Z;
}.

(** ** The database *)

Record Db := MkDb {
  clients : list Client;
  domains : list Domain;
  members : list Member;
  secrets : list Secret;
  acls : list Acl;
  audits : list AuditRow;
  anchors : list Anchor;
  contents : list Content;
  pages : list Page;
  requests : list Request;
  grants : list Grant;
  keys : list Key;
  key_versions : list KeyVersion;
  audit_seq : Z;  (* BIGSERIAL counters *)
  anchor_seq : Z;
}.

Definition upd_clients (f : list Client -> list Client) (d : Db) : Db :=
  MkDb (f (clients d)) (domains d) (members d) (secrets d) (acls d) (audits d) (anchors d)
    (contents d) (pages d) (requests d) (grants d) (keys d) (key_versions d) (audit_seq d)
    (anchor_seq d).
Definition upd_domains (f : list Domain -> list Domain) (d : Db) : Db :=
  MkDb (clients d) (f (domains d)) (members d) (secrets d) (acls d) (audits d) (anchors d)
    (contents d) (pages d) (requests d) (grants d) (keys d) (key_versions d) (audit_seq d)
    (anchor_seq d).
Definition upd_members (f : list Member -> list Member) (d : Db) : Db :=
  MkDb (clients d) (domains d) (f (members d)) (secrets d) (acls d) (audits d) (anchors d)
    (contents d) (pages d) (requests d) (grants d) (keys d) (key_versions d) (audit_seq d)
    (anchor_seq d).
Definition upd_secrets (f : list Secret -> list Secret) (d : Db) : Db :=
  MkDb (clients d) (domains d) (members d) (f (secrets d)) (acls d) (audits d) (anchors d)
    (contents d) (pages d) (requests d) (grants d) (keys d) (key_versions d) (audit_seq d)
    (anchor_seq d).
Definition upd_acls (f : list Acl -> list Acl) (d : Db) : Db :=
  MkDb (clients d) (domains d) (members d) (secrets d) (f (acls d)) (audits d) (anchors d)
    (contents d) (pages d) (requests d) (grants d) (keys d) (key_versions d) (audit_seq d)
    (anchor_seq d).
Definition upd_audits (f : list AuditRow -> list AuditRow) (d : Db) : Db :=
  MkDb (clients d) (domains d) (members d) (secrets d) (acls d) (f (audits d)) (anchors d)
    (contents d) (pages d) (requests d) (grants d) (keys d) (key_versions d) (audit_seq d)
    (anchor_seq d).
Definition upd_anchors (f : list Anchor -> list Anchor) (d : Db) : Db :=
  MkDb (clients d) (domains d) (members d) (secrets d) (acls d) (audits d) (f (anchors d))
    (contents d) (pages d) (requests d) (grants d) (keys d) (key_versions d) (audit_seq d)
    (anchor_seq d).
Definition upd_contents (f : list Content -> list Content) (d : Db) : Db :=
  MkDb (clients d) (domains d) (members d) (secrets d) (acls d) (audits d) (anchors d) (f
    (contents d)) (pages d) (requests d) (grants d) (keys d) (key_versions d) (audit_seq d)
    (anchor_seq d).
Definition upd_pages (f : list Page -> list Page) (d : Db) : Db :=
  MkDb (clients d) (domains d) (members d) (secrets d) (acls d) (audits d) (anchors d)
    (contents d) (f (pages d)) (requests d) (grants d) (keys d) (key_versions d) (audit_seq d)
    (anchor_seq d).
Definition upd_requests (f : list Request -> list Request) (d : Db) : Db :=
  MkDb (clients d) (domains d) (members d) (secrets d) (acls d) (audits d) (anchors d)
    (contents d) (pages d) (f (requests d)) (grants d) (keys d) (key_versions d) (audit_seq d)
    (anchor_seq d).
Definition upd_grants (f : list Grant -> list Grant) (d : Db) : Db :=
  MkDb (clients d) (domains d) (members d) (secrets d) (acls d) (audits d) (anchors d)
    (contents d) (pages d) (requests d) (f (grants d)) (keys d) (key_versions d) (audit_seq d)
    (anchor_seq d).
Definition upd_keys (f : list Key -> list Key) (d : Db) : Db :=
  MkDb (clients d) (domains d) (members d) (secrets d) (acls d) (audits d) (anchors d)
    (contents d) (pages d) (requests d) (grants d) (f (keys d)) (key_versions d) (audit_seq d)
    (anchor_seq d).
Definition upd_key_versions (f : list KeyVersion -> list KeyVersion) (d : Db) : Db :=
  MkDb (clients d) (domains d) (members d) (secrets d) (acls d) (audits d) (anchors d)
    (contents d) (pages d) (requests d) (grants d) (keys d) (f (key_versions d)) (audit_seq d)
    (anchor_seq d).
Definition upd_audit_seq (f : Z -> Z) (d : Db) : Db :=
  MkDb (clients d) (domains d) (members d) (secrets d) (acls d) (audits d) (anchors d)
    (contents d) (pages d) (requests d) (grants d) (keys d) (key_versions d) (f (audit_seq d))
    (anchor_seq d).
Definition upd_anchor_seq (f : Z -> Z) (d : Db) : Db :=
  MkDb (clients d) (domains d) (members d) (secrets d) (acls d) (audits d) (anchors d)
    (contents d) (pages d) (requests d) (grants d) (keys d) (key_versions d) (audit_seq d) (f
    (anchor_seq d)).

Definition empty_db : Db := MkDb [] [] [] [] [] [] [] [] [] [] [] [] [] 0 0.

(** ** Statements over one table *)

(** [SELECT ... WHERE p] and [fetch_optional]: the first matching row. *)
Definition select {A} (p : A -> bool) (t : list A) : list A := List.filter p t.
Definition first_row {A} (p : A -> bool) (t : list A) : option A := head (select p t).

(** [UPDATE ... SET u WHERE p], [DELETE ... WHERE p], [INSERT]. *)
Definition update_where {A} (p : A -> bool) (u : A -> A) (t : list A) : list A :=
  map (fun r => if p r then u r else r) t.
Definition delete_where {A} (p : A -> bool) (t : list A) : list A :=
  List.filter (fun r => negb (p r)) t.
Definition insert_row {A} (r : A) (t : list A) : list A := t ++ [r].

(** [rows_affected()] *)
Definition affected {A} (p : A -> bool) (t : list A) : nat := length (select p t).

Lemma elem_of_select {A} (p : A -> bool) t r : r ∈ select p t <-> r ∈ t /\ p r = true.
Proof. unfold select. rewrite !list_elem_of_In. apply filter_In. Qed.

Lemma first_row_Some {A} (p : A -> bool) t r : first_row p t = Some r -> r ∈ t /\ p r = true.
Proof.
  unfold first_row. intros H. apply elem_of_select. destruct (select p t); simplify_eq/=. left.
Qed.

Lemma first_row_None {A} (p : A -> bool) t r : first_row p t = None -> r ∈ t -> p r = false.
Proof.
  unfold first_row. intros H Hr. destruct (p r) eqn:E; [|done]. exfalso.
  assert (r ∈ select p t) as Hs by (by apply elem_of_select). destruct (select p t); simplify_eq/=.
  by apply not_elem_of_nil in Hs.
Qed.

Lemma update_where_none {A} (p : A -> bool) u t : first_row p t = None -> update_where p u t = t.
Proof.
  intros H. unfold update_where. rewrite <- (map_id t) at 2. apply map_ext_in. intros r Hr.
  apply list_elem_of_In in Hr. by rewrite (first_row_None _ _ _ H Hr).
Qed.

Lemma elem_of_update_where {A} (p : A -> bool) u t r :
  r ∈ update_where p u t <-> exists r0, r0 ∈ t /\ r = if p r0 then u r0 else r0.
Proof.
  unfold update_where. rewrite list_elem_of_In, in_map_iff. setoid_rewrite list_elem_of_In.
  naive_solver.
Qed.

Lemma elem_of_delete_where {A} (p : A -> bool) t r :
  r ∈ delete_where p t <-> r ∈ t /\ p r = false.
Proof. unfold delete_where. rewrite !list_elem_of_In, filter_In, negb_true_iff. done. Qed.

Lemma elem_of_insert_row {A} (x : A) t r : r ∈ insert_row x t <-> r ∈ t \/ r = x.
Proof. unfold insert_row. rewrite elem_of_app, list_elem_of_singleton. done. Qed.

(** An update that the condition does not look at. *)
Lemma first_row_update {A} (p q : A -> bool) u t :
  (forall x, p (u x) = p x) ->
  first_row p (update_where q u t) = (fun x => if q x then u x else x) <$> first_row p t.
Proof.
  intros H. unfold first_row, select, update_where. induction t as [|x t IH]; [done|]. cbn [map List.filter].
  assert (p (if q x then u x else x) = p x) as -> by (by destruct (q x)). by destruct (p x).
Qed.

Lemma existsb_false_elem {A} (p : A -> bool) l : existsb p l = false -> forall x, x ∈ l -> p x = false.
Proof.
  intros H x Hx. destruct (p x) eqn:E; [|done]. exfalso. assert (existsb p l = true) as Ht; [|congruence].
  apply existsb_exists. exists x. split; [by apply list_elem_of_In|done].
Qed.

Lemma first_row_only {A} (p : A -> bool) l x :
  x ∈ l -> p x = true -> (forall y, y ∈ l -> p y = true -> y = x) -> first_row p l = Some x.
Proof.
  intros Hx Hp Hu. destruct (first_row p l) as [y|] eqn:E.
  - apply first_row_Some in E as [Hy Hpy]. by rewrite (Hu y).
  - by rewrite (first_row_None _ _ x E Hx) in Hp.
Qed.

Lemma delete_where_none {A} (p : A -> bool) t : (forall x, x ∈ t -> p x = false) -> delete_where p t = t.
Proof.
  intros H. unfold delete_where. induction t as [|x t IH]; [done|]. simpl. rewrite H by left. simpl.
  f_equal. apply IH. intros y Hy. apply H. by right.
Qed.

#[export] Hint Rewrite @elem_of_select @elem_of_update_where @elem_of_delete_where
  @elem_of_insert_row : bbk.
