(* ===== verification/Effects.v ===== *)
(** Effects of the request handlers. A handler is a tree of atomic actions on
    the shared world (one SQL statement, one transaction, one clock reading, one
    random draw, one file operation each), so the same definition runs
    sequentially ([run]) and interleaved with other requests ([pool_step]).
    An actix handler ends by returning a response, by an early
    [return Ok(resp)], or by raising an error ([?] on an [actix_web::Error]). *)
From S2P Require Import Prelude Crypto Store.

(** ** HTTP values *)

(** [JFloat] keeps the text of a number that is not an integer. *)
#[warnings="-register-all"]
Inductive Json :=
| JNull
| JBool (b : bool)
| JNum (z : Z)
| JFloat (text : string)
| JStr (s : string)
| JArr (l : list Json)
| JObj (l : list (string * Json)).

Inductive Body := JsonBody (j : Json) | BinBody (b : bytes) | TextBody (s : string).

Record Response := MkResponse {
  resp_status : Z;
  resp_headers : list (string * string);
  resp_body : Body;
}.

Definition json_response (status : Z) (j : Json) : Response := MkResponse status [] (JsonBody j).

(** The 2xx statuses. *)
Definition is_success (status : Z) : bool := (200 <=? status) && (status <=? 299).

(** [server::err]; the fresh [request_id] of the body is left out. *)
Definition err (status : Z) (code message : string) : Response :=
  json_response status (JObj [("error", JStr code); ("message", JStr message)]).

Definition opt_json {A} (f : A -> Json) (o : option A) : Json :=
  match o with Some a => f a | None => JNull end.

(** ** Outcomes *)

Inductive outcome (A : Type) : Type :=
| Val (a : A)
| Ret (r : Response)
| Raise (status : Z) (msg : string).
Arguments Val {A} a.
Arguments Ret {A} r.
Arguments Raise {A} status msg.

(** What the client receives. *)
Definition respond (o : outcome Response) : Response :=
  match o with
  | Val r | Ret r => r
  | Raise status msg => MkResponse status [] (TextBody msg)
  end.

(** ** The world *)

(** [faults] scripts which of the coming database and file operations fail. *)
Record World := MkWorld {
  db : Db;
  fs : gmap string bytes;
  clock : Z;
  rng : nat;
  faults : list bool;
}.

Definition set_db (d : Db) (w : World) : World := MkWorld d (fs w) (clock w) (rng w) (faults w).
Definition set_fs (f : gmap string bytes) (w : World) : World :=
  MkWorld (db w) f (clock w) (rng w) (faults w).
Definition set_clock (t : Z) (w : World) : World := MkWorld (db w) (fs w) t (rng w) (faults w).
Definition set_rng (n : nat) (w : World) : World := MkWorld (db w) (fs w) (clock w) n (faults w).
Definition set_faults (l : list bool) (w : World) : World :=
  MkWorld (db w) (fs w) (clock w) (rng w) l.

Definition next_fault (w : World) : bool * World :=
  match faults w with
  | [] => (false, w)
  | b :: l => (b, set_faults l w)
  end.

(** ** Programs *)

(** The values actions return are data, hence in [Set]. *)
Inductive M (A : Type) : Type :=
| Done (o : outcome A)
| Act {X : Set} (act : World -> X * World) (k : X -> M A).
Arguments Done {A} o.
Arguments Act {A X} act k.

Fixpoint bindM {A B} (f : A -> M B) (m : M A) : M B :=
  match m with
  | Done (Val a) => f a
  | Done (Ret r) => Done (Ret r)
  | Done (Raise s e) => Done (Raise s e)
  | Act act k => Act act (fun x => bindM f (k x))
  end.

#[export] Instance M_ret : MRet M := fun A a => Done (Val a).
#[export] Instance M_bind : MBind M := @bindM.

Fixpoint run {A} (m : M A) (w : World) : outcome A * World :=
  match m with
  | Done o => (o, w)
  | Act act k => let '(x, w') := act w in run (k x) w'
  end.

Definition reply {A} (r : Response) : M A := Done (Ret r).
Definition raise {A} (status : Z) (msg : string) : M A := Done (Raise status msg).
Definition perform {A : Set} (act : World -> A * World) : M A := Act act (fun a => Done (Val a)).

(** [x ←? m; k]: Rust's [?] inside a function that itself returns a [Result]. *)
Definition try_bind {E A B} (m : M (result E A)) (f : A -> M (result E B)) : M (result E B) :=
  m ≫= fun r => match r with Ok a => f a | Err e => mret (Err e) end.
Notation "x ←? m ; k" := (try_bind m (fun x => k))
  (at level 20, m at level 100, k at level 200, right associativity) : bbk_scope.
Notation "' x ←? m ; k" := (try_bind m (fun z => match z with x => k end))
  (at level 20, x pattern, m at level 100, k at level 200, right associativity) : bbk_scope.

(** [match m { Ok(x) => x, Err(resp) => return Ok(resp) }] *)
Definition or_reply {A} (m : M (result Response A)) : M A :=
  m ≫= fun r => match r with Ok a => mret a | Err resp => reply resp end.

(** ** SQL *)

Inductive SqlError :=
| SqlUnique       (* a UNIQUE or PRIMARY KEY constraint *)
| SqlCheck        (* a CHECK constraint *)
| SqlRowNotFound  (* [fetch_one] on no row *)
| SqlRange        (* a number outside its column's type *)
| SqlConfig (msg : string)
| SqlDown.        (* connection, pool, serialization, ... *)

Definition sql_msg (e : SqlError) : string :=
  match e with
  | SqlUnique => "duplicate key value violates unique constraint"
  | SqlCheck => "violates check constraint"
  | SqlRowNotFound => "no rows returned by a query that expected to return at least one row"
  | SqlRange => "integer out of range"
  | SqlConfig m => "error with configuration: " +:+ m
  | SqlDown => "database unavailable"
  end.

(** One statement: it reads the clock ([CURRENT_TIMESTAMP]) and the tables. *)
Definition statement {A : Set} (f : Z -> Db -> result SqlError (A * Db)) (w : World) :
    result SqlError A * World :=
  let '(bad, w) := next_fault w in
  if bad : bool then (Err SqlDown, w)
  else match f (clock w) (db w) with
       | Ok (a, d) => (Ok a, set_db d w)
       | Err e => (Err e, w)
       end.

Definition sql {A : Set} (f : Z -> Db -> result SqlError (A * Db)) : M (result SqlError A) :=
  perform (statement f).
Definition query {A : Set} (f : Z -> Db -> A) : M (result SqlError A) :=
  sql (fun now d => Ok (f now d, d)).
Arguments sql {A} & f.
Arguments query {A} & f.
Definition exec (f : Z -> Db -> Db) : M (result SqlError unit) :=
  sql (fun now d => Ok (tt, f now d)).

(** [begin ... commit]; every exit but a commit rolls the tables back. The
    whole block is one action: the audit, archive, approval and key blocks first
    take an advisory or row lock, and the blocks of the file handlers address
    their rows by ids drawn for this request, so that a serial order of the
    blocks reproduces what they do. [inj] says how a failing [begin] or
    [commit] reads in the error type of the block. *)
Definition transact_with {E A : Set} (inj : SqlError -> E) (m : M (result E A)) (w : World) :
    outcome (result E A) * World :=
  let '(bad, w0) := next_fault w in
  if bad : bool then (Val (Err (inj SqlDown)), w0)
  else match run m w0 with
       | (Val (Ok a), w1) =>
           let '(bad, w2) := next_fault w1 in
           if bad : bool then (Val (Err (inj SqlDown)), set_db (db w0) w2) else (Val (Ok a), w2)
       | (o, w1) => (o, set_db (db w0) w1)
       end.

Definition transaction_with {E A : Set} (inj : SqlError -> E) (m : M (result E A)) : M (result E A) :=
  Act (transact_with inj m) (fun o => Done o).

Abbreviation transact := (transact_with (fun e : SqlError => e)).
Abbreviation transaction := (transaction_with (fun e : SqlError => e)).

(** [.map_err(ErrorInternalServerError)?] *)
Definition or_500 {A} (m : M (result SqlError A)) : M A :=
  m ≫= fun r => match r with Ok a => mret a | Err e => raise 500 (sql_msg e) end.

(** The same on a pure result whose error has a message. *)
Definition pure_500 {E A} (msg : E -> string) (r : result E A) : M A :=
  match r with Ok a => mret a | Err e => raise 500 (msg e) end.

Definition str_500 {A} (m : M (result string A)) : M A := m ≫= pure_500 id.

(** [let _ = ...;] and best-effort statements whose error is only logged. *)
Definition ignore {A} (m : M A) : M unit := _ ← m; mret tt.

(** ** Clock, randomness, files *)

Definition utc_now : M Z := perform (fun w => (clock w, w)).

Definition draw `{Primitives} (n : nat) : M bytes :=
  perform (fun w => (rand_bytes (rng w) n, set_rng (S (rng w)) w)).

Definition file_op {A : Set} (f : gmap string bytes -> result string (A * gmap string bytes))
    (w : World) : result string A * World :=
  let '(bad, w) := next_fault w in
  if bad : bool then (Err "I/O error", w)
  else match f (fs w) with
       | Ok (a, t) => (Ok a, set_fs t w)
       | Err e => (Err e, w)
       end.

Definition fs_write (path : string) (b : bytes) : M (result string unit) :=
  perform (file_op (fun t => Ok (tt, <[path := b]> t))).
Definition fs_read (path : string) : M (result string bytes) :=
  perform (file_op (fun t => match t !! path with
                             | Some b => Ok (b, t)
                             | None => Err "No such file or directory"
                             end)).
Definition fs_remove (path : string) : M (result string unit) :=
  perform (file_op (fun t => match t !! path with
                             | Some _ => Ok (tt, delete path t)
                             | None => Err "No such file or directory"
                             end)).

(** Loops over a list: [for x in xs] and a [collect] of effectful steps. *)
Fixpoint for_each {A} (f : A -> M unit) (l : list A) : M unit :=
  match l with
  | [] => mret tt
  | x :: l' => _ ← f x; for_each f l'
  end.

Fixpoint map_each {A B} (f : A -> M B) (l : list A) : M (list B) :=
  match l with
  | [] => mret []
  | x :: l' => y ← f x; ys ← map_each f l'; mret (y :: ys)
  end.

(** * Reasoning *)

(** ** Sequential runs *)

Lemma run_bind {A B} (m : M A) (f : A -> M B) w :
  run (m ≫= f) w =
    match run m w with
    | (Val a, w') => run (f a) w'
    | (Ret r, w') => (Ret r, w')
    | (Raise s e, w') => (Raise s e, w')
    end.
Proof.
  revert w. induction m as [[a|r|s e]|X act k IH]; intros w; [done..|].
  change (Act act k ≫= f) with (Act act (fun x => k x ≫= f)). simpl.
  destruct (act w) as [x w']. apply IH.
Qed.

Lemma run_ret {A} (a : A) w : run (mret a) w = (Val a, w).
Proof. done. Qed.

Lemma run_perform {A : Set} (act : World -> A * World) w :
  run (perform act) w = (Val (act w).1, (act w).2).
Proof. simpl. by destruct (act w). Qed.

(** A run that ends normally went through its first part normally. *)
Lemma run_bind_Val {A B} (m : M A) (f : A -> M B) w b w' :
  run (m ≫= f) w = (Val b, w') ->
  exists a w1, run m w = (Val a, w1) /\ run (f a) w1 = (Val b, w').
Proof. rewrite run_bind. destruct (run m w) as [[a|r|s e] w1]; [eauto|done..]. Qed.

(** One normal step of a sequential run. *)
Lemma run_then {A B} (m : M A) (f : A -> M B) w a w1 r :
  run m w = (Val a, w1) -> run (f a) w1 = r -> run (m ≫= f) w = r.
Proof. intros H Hr. by rewrite run_bind, H. Qed.

(** A world up to the faults still to come. *)
Lemma set_faults_nil w : faults w = [] -> set_faults [] w = w.
Proof. destruct w; simpl. by intros ->. Qed.

(** A statement either fails or runs on the current tables. *)
Lemma run_sql_cases {A : Set} (f : Z -> Db -> result SqlError (A * Db)) w :
  exists l, (faults w = [] -> l = []) /\
    ((faults w <> [] /\ run (sql f) w = (Val (Err SqlDown), set_faults l w)) \/
     run (sql f) w =
       match f (clock w) (db w) with
       | Ok (a, d) => (Val (Ok a), set_db d (set_faults l w))
       | Err e => (Val (Err e), set_faults l w)
       end).
Proof.
  destruct w as [d t c r [|[] l]]; simpl; unfold statement; simpl.
  - exists []. split; [done|]. right. by destruct (f c d) as [[]|].
  - exists l. split; [done|]. by left.
  - exists l. split; [done|]. right. by destruct (f c d) as [[]|].
Qed.

Lemma run_query_cases {A : Set} (f : Z -> Db -> A) w :
  exists l, (faults w = [] -> l = []) /\
    ((faults w <> [] /\ run (query f) w = (Val (Err SqlDown), set_faults l w)) \/
     run (query f) w = (Val (Ok (f (clock w) (db w))), set_faults l w)).
Proof.
  destruct (run_sql_cases (fun now d => Ok (f now d, d)) w) as (l & Hl & H). exists l. split; [done|].
  destruct H as [H|H]; [by left|right]. unfold query. rewrite H. by destruct w.
Qed.

Lemma run_query {A : Set} (f : Z -> Db -> A) w :
  faults w = [] -> run (query f) w = (Val (Ok (f (clock w) (db w))), w).
Proof.
  intros Hf. destruct (run_query_cases f w) as (l & Hl & [[Hn _]|H]); [done|].
  by rewrite H, (Hl Hf), set_faults_nil.
Qed.

Lemma run_exec (f : Z -> Db -> Db) w :
  faults w = [] -> run (exec f) w = (Val (Ok tt), set_db (f (clock w) (db w)) w).
Proof.
  intros Hf. destruct (run_sql_cases (fun now d => Ok (tt, f now d)) w) as (l & Hl & [[Hn _]|H]); [done|].
  unfold exec. by rewrite H, (Hl Hf), set_faults_nil.
Qed.

Lemma run_or_500 {A} (m : M (result SqlError A)) w a w' :
  run m w = (Val (Ok a), w') -> run (or_500 m) w = (Val a, w').
Proof. intros H. unfold or_500. by rewrite run_bind, H. Qed.

Lemma run_or_500_inv {A} (m : M (result SqlError A)) w a w' :
  run (or_500 m) w = (Val a, w') -> run m w = (Val (Ok a), w').
Proof.
  unfold or_500. rewrite run_bind. destruct (run m w) as [[[x|e]|r|s e] w1]; intros; by simplify_eq/=.
Qed.

Lemma run_try {E A B} (m : M (result E A)) (f : A -> M (result E B)) w a w1 r :
  run m w = (Val (Ok a), w1) -> run (f a) w1 = r -> run (try_bind m f) w = r.
Proof. intros H Hr. unfold try_bind. by rewrite run_bind, H. Qed.

Lemma run_try_Ok {E A B} (m : M (result E A)) (f : A -> M (result E B)) w b w' :
  run (try_bind m f) w = (Val (Ok b), w') ->
  exists a w1, run m w = (Val (Ok a), w1) /\ run (f a) w1 = (Val (Ok b), w').
Proof.
  unfold try_bind. rewrite run_bind.
  destruct (run m w) as [[[x|e]|r|s e] w1]; intros; simplify_eq/=; eauto.
Qed.

Lemma run_sql_Ok {A : Set} (f : Z -> Db -> result SqlError (A * Db)) w a w' :
  run (sql f) w = (Val (Ok a), w') ->
  exists d l, f (clock w) (db w) = Ok (a, d) /\ w' = set_db d (set_faults l w).
Proof.
  destruct (run_sql_cases f w) as (l & _ & [[_ H]|H]); rewrite H; [done|].
  destruct (f (clock w) (db w)) as [[x d]|e]; intros; simplify_eq. by exists d, l.
Qed.

Lemma run_query_Ok {A : Set} (f : Z -> Db -> A) w a w' :
  run (query f) w = (Val (Ok a), w') -> a = f (clock w) (db w) /\ exists l, w' = set_faults l w.
Proof.
  destruct (run_query_cases f w) as (l & _ & [[_ H]|H]); rewrite H; [done|].
  intros; simplify_eq. split; [done|]. by exists l.
Qed.

Lemma run_exec_Ok (f : Z -> Db -> Db) w a w' :
  run (exec f) w = (Val (Ok a), w') -> exists l, w' = set_db (f (clock w) (db w)) (set_faults l w).
Proof. unfold exec. intros (d & l & H & ->)%run_sql_Ok. simplify_eq. by exists l. Qed.

Lemma run_draw `{Primitives} n w : run (draw n) w = (Val (rand_bytes (rng w) n), set_rng (S (rng w)) w).
Proof. done. Qed.

Lemma run_utc_now w : run utc_now w = (Val (clock w), w).
Proof. done. Qed.

Lemma run_transaction_Ok {E A : Set} inj (m : M (result E A)) w a w' :
  run (transaction_with inj m) w = (Val (Ok a), w') ->
  exists l w1 l', run m (set_faults l w) = (Val (Ok a), w1) /\ w' = set_faults l' w1.
Proof.
  unfold transaction_with. cbn [run]. unfold transact_with. intros H.
  assert (Hn : forall v, exists l, (next_fault v).2 = set_faults l v).
  { intros [d t c r [|b l]]; eexists; reflexivity. }
  destruct (Hn w) as [l Hl]. destruct (next_fault w) as [[] w0]; simpl in Hl; subst w0; [done|].
  exists l. destruct (run m (set_faults l w)) as [[[x|e]|r|s e] w1]; simplify_eq/=; try done.
  destruct (Hn w1) as [l' Hl']. destruct (next_fault w1) as [[] w2]; simplify_eq/=. by exists w1, l'.
Qed.

(** Open a normal run of a sequence into its steps. *)
Ltac run_inv :=
  repeat match goal with
  | H : run (mbind _ _) _ = (Val _, _) |- _ =>
      apply run_bind_Val in H as (? & ? & ? & ?); cbv beta in *
  | H : run (try_bind _ _) _ = (Val (Ok _), _) |- _ =>
      apply run_try_Ok in H as (? & ? & ? & ?); cbv beta in *
  | H : run (or_500 _) _ = (Val _, _) |- _ => apply run_or_500_inv in H
  | H : run (query _) _ = (Val (Ok _), _) |- _ => apply run_query_Ok in H as (? & ? & ?); subst
  | H : run (exec _) _ = (Val (Ok _), _) |- _ => apply run_exec_Ok in H as (? & ?); subst
  | H : run (transaction_with _ _) _ = (Val (Ok _), _) |- _ =>
      apply run_transaction_Ok in H as (? & ? & ? & ? & ?); subst
  | H : run (sql _) _ = (Val (Ok _), _) |- _ => apply run_sql_Ok in H as (? & ? & ? & ?); subst
  | H : run (draw _) _ = _ |- _ => rewrite run_draw in H; simplify_eq
  | H : run utc_now _ = _ |- _ => rewrite run_utc_now in H; simplify_eq
  | H : run (mret _) _ = _ |- _ => rewrite run_ret in H; simplify_eq
  | H : run (raise _ _) _ = _ |- _ => discriminate H
  | H : run (reply _) _ = (Val _, _) |- _ => discriminate H
  end.

(** ** Every action of a program satisfies a step relation *)

Fixpoint Steps (R : World -> World -> Prop) {A} (m : M A) : Prop :=
  match m with
  | Done _ => True
  | Act act k => (forall w, R w (act w).2) /\ forall x, Steps R (k x)
  end.

Lemma Steps_bind R {A B} (m : M A) (f : A -> M B) :
  Steps R m -> (forall a, Steps R (f a)) -> Steps R (m ≫= f).
Proof.
  intros Hm Hf. induction m as [[a|r|s e]|X act k IH]; [apply Hf|done..|].
  destruct Hm as [Ha Hk]. split; [exact Ha|]. intros x. apply IH, Hk.
Qed.

Lemma Steps_run R `{!PreOrder R} {A} (m : M A) w : Steps R m -> R w (run m w).2.
Proof.
  revert w. induction m as [o|X act k IH]; intros w Hm; [reflexivity|].
  destruct Hm as [Ha Hk]. specialize (Ha w). simpl. destruct (act w) as [x w'].
  etrans; [exact Ha|]. apply IH, Hk.
Qed.

Lemma Steps_impl (R R' : World -> World -> Prop) {A} (m : M A) :
  (forall w w', R w w' -> R' w w') -> Steps R m -> Steps R' m.
Proof.
  intros HR. induction m as [o|X act k IH]; [done|]. intros [Ha Hk].
  split; [intros w; apply HR, Ha|intros x; apply IH, Hk].
Qed.

(** ** Frames: which parts of the world a program may write; draws only advance
    the random generator *)

Inductive part :=
| PClients | PDomains | PMembers | PSecrets | PAcls | PAudits | PAnchors | PContents | PPages
| PRequests | PGrants | PKeys | PKeyVersions | PFiles | PClock | PDraws.

#[export] Instance part_eq_dec : EqDecision part.
Proof. solve_decision. Defined.

Definition same_table (p : part) (d d' : Db) : Prop :=
  match p with
  | PClients => clients d' = clients d
  | PDomains => domains d' = domains d
  | PMembers => members d' = members d
  | PSecrets => secrets d' = secrets d
  | PAcls => acls d' = acls d
  | PAudits => audits d' = audits d /\ audit_seq d' = audit_seq d
  | PAnchors => anchors d' = anchors d /\ anchor_seq d' = anchor_seq d
  | PContents => contents d' = contents d
  | PPages => pages d' = pages d
  | PRequests => requests d' = requests d
  | PGrants => grants d' = grants d
  | PKeys => keys d' = keys d
  | PKeyVersions => key_versions d' = key_versions d
  | PFiles | PClock | PDraws => True
  end.

Definition same (p : part) (w w' : World) : Prop :=
  match p with
  | PFiles => fs w' = fs w
  | PClock => clock w' = clock w
  | PDraws => (rng w <= rng w')%nat
  | _ => same_table p (db w) (db w')
  end.

Definition frame (ps : list part) (w w' : World) : Prop :=
  forall p, bool_decide (p ∈ ps) = false -> same p w w'.

#[export] Instance same_preorder p : PreOrder (same p).
Proof.
  split; [intros w; destruct p; done || apply le_n|].
  intros x y z. destruct p; simpl; intros; intuition (congruence || lia).
Qed.

#[export] Instance frame_preorder ps : PreOrder (frame ps).
Proof.
  split; [intros w p _; reflexivity|]. intros x y z H1 H2 p Hp. etrans; [by apply H1|by apply H2].
Qed.

Definition writes (ps : list part) {A} (m : M A) : Prop := Steps (frame ps) m.

(** [Forall]-style inclusion, decided by computation. *)
Definition parts_within (ps qs : list part) : bool := forallb (fun p => bool_decide (p ∈ qs)) ps.

Lemma writes_weaken ps qs {A} (m : M A) : parts_within ps qs = true -> writes ps m -> writes qs m.
Proof.
  intros Hw. apply Steps_impl. intros w w' H p Hp. apply H.
  apply bool_decide_eq_false in Hp. apply bool_decide_eq_false. intros Hin. apply Hp.
  unfold parts_within in Hw. rewrite forallb_forall in Hw.
  apply list_elem_of_In, Hw, bool_decide_eq_true in Hin. done.
Qed.

Lemma writes_run ps {A} (m : M A) w : writes ps m -> frame ps w (run m w).2.
Proof. apply (Steps_run (frame ps)). Qed.

Lemma writes_same ps p {A} (m : M A) w :
  writes ps m -> bool_decide (p ∈ ps) = false -> same p w (run m w).2.
Proof. intros H. by apply writes_run. Qed.

Lemma frame_faults ps w l : frame ps w (set_faults l w).
Proof. intros p _. by destruct p; try apply le_n. Qed.

Lemma frame_next_fault ps w : frame ps w (next_fault w).2.
Proof. unfold next_fault. destruct (faults w); [reflexivity|apply frame_faults]. Qed.

Lemma writes_done ps {A} (o : outcome A) : writes ps (Done o).
Proof. exact I. Qed.

Lemma writes_bind ps {A B} (m : M A) (f : A -> M B) :
  writes ps m -> (forall a, writes ps (f a)) -> writes ps (m ≫= f).
Proof. apply Steps_bind. Qed.

Lemma writes_perform ps {A : Set} (act : World -> A * World) :
  (forall w, frame ps w (act w).2) -> writes ps (perform act).
Proof. intros H. split; [exact H|intros; exact I]. Qed.

Lemma writes_sql ps {A : Set} (f : Z -> Db -> result SqlError (A * Db)) :
  (forall now d a d' p, f now d = Ok (a, d') -> bool_decide (p ∈ ps) = false -> same_table p d d') ->
  writes ps (sql f).
Proof.
  intros H. apply writes_perform. intros w. unfold statement.
  pose proof (frame_next_fault ps w) as Hf. destruct (next_fault w) as [bad w1]; simpl in Hf.
  destruct bad; [done|]. destruct (f (clock w1) (db w1)) as [[a d']|e] eqn:E; [|done].
  etrans; [exact Hf|]. intros p Hp. specialize (H _ _ _ _ p E Hp). by destruct p; try apply le_n.
Qed.

Lemma same_table_refl p d : same_table p d d.
Proof. by destruct p. Qed.

Lemma writes_query ps {A : Set} (f : Z -> Db -> A) : writes ps (query f).
Proof. apply writes_sql. intros ? ? ? ? ? [= <- <-] _. apply same_table_refl. Qed.

Lemma writes_exec ps (f : Z -> Db -> Db) :
  (forall now d p, bool_decide (p ∈ ps) = false -> same_table p d (f now d)) -> writes ps (exec f).
Proof. intros H. apply writes_sql. intros ? ? ? ? p [= <- <-]. apply H. Qed.

Lemma writes_or_reply ps {A} (m : M (result Response A)) : writes ps m -> writes ps (or_reply m).
Proof. intros H. apply writes_bind; [done|]. by intros []. Qed.

Lemma writes_or_500 ps {A} (m : M (result SqlError A)) : writes ps m -> writes ps (or_500 m).
Proof. intros H. apply writes_bind; [done|]. by intros []. Qed.

Lemma writes_pure_500 ps {E A} msg (r : result E A) : writes ps (pure_500 msg r).
Proof. by destruct r. Qed.

Lemma writes_str_500 ps {A} (m : M (result string A)) : writes ps m -> writes ps (str_500 m).
Proof. intros H. apply writes_bind; [done|]. intros. apply writes_pure_500. Qed.

Lemma writes_ignore ps {A} (m : M A) : writes ps m -> writes ps (ignore m).
Proof. intros H. by apply writes_bind. Qed.

Lemma writes_try ps {E A B} (m : M (result E A)) (f : A -> M (result E B)) :
  writes ps m -> (forall a, writes ps (f a)) -> writes ps (try_bind m f).
Proof. intros Hm Hf. apply writes_bind; [done|]. intros [a|e]; [apply Hf|exact I]. Qed.

Lemma writes_transaction ps {E A : Set} inj (m : M (result E A)) :
  writes ps m -> writes ps (transaction_with inj m).
Proof.
  intros Hm. split; [|intros; exact I]. intros w. unfold transact_with.
  pose proof (frame_next_fault ps w) as Hf. destruct (next_fault w) as [[] w0]; simpl in Hf; [done|].
  pose proof (writes_run ps m w0 Hm) as Hr. destruct (run m w0) as [o w1]; simpl in Hr.
  assert (Hback : forall v : World, frame ps w1 v -> frame ps w0 (set_db (db w0) v)).
  { intros v Hv p Hp. specialize (Hv p Hp). specialize (Hr p Hp).
    destruct p; simpl in *; try done; congruence || lia. }
  pose proof (frame_next_fault ps w1) as Hf1. destruct (next_fault w1) as [bad w2]; simpl in Hf1.
  destruct o as [[a|e]|r|s e]; simpl; try (etrans; [exact Hf|apply Hback; reflexivity]).
  destruct bad; simpl; [etrans; [exact Hf|by apply Hback]|].
  etrans; [exact Hf|]. etrans; [exact Hr|exact Hf1].
Qed.

Lemma writes_utc_now ps : writes ps utc_now.
Proof. apply writes_perform. intros w. reflexivity. Qed.

Lemma writes_draw ps `{Primitives} n : writes ps (draw n).
Proof. apply writes_perform. intros w p _. destruct p; done || apply le_S, le_n. Qed.

Lemma writes_file_op ps {A : Set} (f : gmap string bytes -> result string (A * gmap string bytes)) :
  bool_decide (PFiles ∈ ps) = true -> writes ps (perform (file_op f)).
Proof.
  intros Hin. apply writes_perform. intros w. unfold file_op.
  pose proof (frame_next_fault ps w) as Hf. destruct (next_fault w) as [[] w1]; simpl in Hf; [done|].
  destruct (f (fs w1)) as [[a t]|e]; [|done]. etrans; [exact Hf|]. intros p Hp.
  destruct p; simpl; done || apply le_n || congruence.
Qed.

Lemma writes_fs_read ps path : writes ps (fs_read path).
Proof.
  apply writes_perform. intros w. unfold file_op.
  pose proof (frame_next_fault ps w) as Hf. destruct (next_fault w) as [[] w1]; simpl in Hf; [done|].
  destruct (fs w1 !! path); [|done]. etrans; [exact Hf|]. intros p Hp. by destruct p; try apply le_n.
Qed.

Lemma writes_for_each ps {A} (f : A -> M unit) l :
  (forall x, writes ps (f x)) -> writes ps (for_each f l).
Proof. intros H. induction l as [|x l IH]; [exact I|]. apply writes_bind; [apply H|done]. Qed.

Lemma writes_map_each ps {A B} (f : A -> M B) l :
  (forall x, writes ps (f x)) -> writes ps (map_each f l).
Proof.
  intros H. induction l as [|x l IH]; [exact I|]. apply writes_bind; [apply H|intros y].
  apply writes_bind; [done|]. intros ys. exact I.
Qed.

(** Writing nothing: the same tables, files and clock. *)
Lemma frame_nil w w' : frame [] w w' -> db w' = db w /\ fs w' = fs w /\ clock w' = clock w.
Proof.
  intros H. split; [|split; [exact (H PFiles eq_refl)|exact (H PClock eq_refl)]].
  pose proof (H PClients eq_refl). pose proof (H PDomains eq_refl). pose proof (H PMembers eq_refl).
  pose proof (H PSecrets eq_refl). pose proof (H PAcls eq_refl). destruct (H PAudits eq_refl) as [? ?].
  destruct (H PAnchors eq_refl) as [? ?]. pose proof (H PContents eq_refl). pose proof (H PPages eq_refl).
  pose proof (H PRequests eq_refl). pose proof (H PGrants eq_refl). pose proof (H PKeys eq_refl).
  pose proof (H PKeyVersions eq_refl). simpl in *.
  destruct (db w), (db w'); simpl in *; subst. reflexivity.
Qed.

Lemma reads_only {A} (m : M A) w a w' :
  writes [] m -> run m w = (a, w') -> db w' = db w /\ fs w' = fs w /\ clock w' = clock w.
Proof. intros Hm H. apply frame_nil. pose proof (writes_run [] m w Hm) as Hf. by rewrite H in Hf. Qed.

(** The random generator only moves on. *)
Lemma run_draws ps {A} (m : M A) w o w' :
  writes ps m -> run m w = (o, w') -> bool_decide (PDraws ∈ ps) = false -> (rng w <= rng w')%nat.
Proof. intros Hm H Hp. pose proof (writes_run ps m w Hm PDraws Hp) as Hr. by rewrite H in Hr. Qed.

Create HintDb writes discriminated.
#[export] Hint Constants Opaque : writes.

(** One step of a frame proof; calls of other components go to the hints. *)
Ltac writes_step :=
  lazymatch goal with
  | |- writes _ (mbind _ _) => apply writes_bind; [|intros ?]
  | |- writes _ (try_bind _ _) => apply writes_try; [|intros ?]
  | |- writes _ (or_reply _) => apply writes_or_reply
  | |- writes _ (or_500 _) => apply writes_or_500
  | |- writes _ (pure_500 _ _) => apply writes_pure_500
  | |- writes _ (str_500 _) => apply writes_str_500
  | |- writes _ (ignore _) => apply writes_ignore
  | |- writes _ (transaction_with _ _) => apply writes_transaction
  | |- writes _ (Done _) => exact I
  | |- writes _ (mret _) => exact I
  | |- writes _ (reply _) => exact I
  | |- writes _ (raise _ _) => exact I
  | |- writes _ (query _) => apply writes_query
  | |- writes _ (exec _) =>
      apply writes_exec; intros ? ? []; try (intros; reflexivity); try (intros; split; reflexivity);
      try (intros Habs; discriminate Habs)
  | |- writes _ (sql _) =>
      apply writes_sql; intros ? ? ? ? [] ?; intros; repeat case_match; simplify_eq/=;
      try done; try discriminate
  | |- writes _ utc_now => apply writes_utc_now
  | |- writes _ (draw _) => apply writes_draw
  | |- writes _ (fs_read _) => apply writes_fs_read
  | |- writes _ (fs_write _ _) => apply writes_file_op; reflexivity
  | |- writes _ (fs_remove _) => apply writes_file_op; reflexivity
  | |- writes _ (for_each _ _) => apply writes_for_each; intros ?
  | |- writes _ (map_each _ _) => apply writes_map_each; intros ?
  | |- writes _ (match ?x with _ => _ end) => destruct x
  | |- writes _ (let '_ := ?x in _) => destruct x
  | |- writes _ _ => eapply writes_weaken; [|solve [eauto with writes]]; reflexivity
  end.
Ltac solve_writes := intros; repeat writes_step.
