(* ===== verification/CryptoOps.v ===== *)
(** The crypto toolkit ([src/src/crypto_ops.rs]): key types, hashing, the
    [bbk:v<N>:] text of managed-key output, the local envelopes, signed tokens,
    and the encodings of key files. serde_json, the hmac, sha2 and argon2 crates
    and HKDF are the parameters of class [OpsLib]. *)
From S2P Require Import Prelude Crypto Store Effects.

Inductive HashAlg := Sha3_256 | Sha3_512 | Sha256 | Sha512.
#[global] Instance HashAlg_eq_dec : EqDecision HashAlg. Proof. solve_decision. Defined.

Class OpsLib := {
  digest_of : HashAlg -> bytes -> bytes;
  hmac_of : HashAlg -> bytes -> bytes -> bytes;            (* algorithm, key, data *)
  hkdf32 : bytes -> bytes -> bytes;                        (* no salt: ikm, info; 32 bytes *)
  argon2_into : string -> bytes -> Z -> Z -> Z -> result string bytes;
    (* Argon2id version 0x13 into 32 bytes: password, salt, m, t and p costs *)
  argon2_phc : string -> bytes -> result string string;    (* password, salt: PHC text *)
  argon2_check : string -> string -> result string bool;   (* password, PHC text *)
  json_to_vec : Json -> bytes;
  json_pretty : Json -> string;
  json_from_slice : bytes -> option Json;
  rfc3339_of_secs : Z -> option string;                    (* DateTime::from_timestamp, to_rfc3339 *)
}.

(** ** [serde_json::Map]: a BTreeMap, keys in byte order *)

Definition JsonMap : Type := list (string * Json).

Fixpoint obj_get (k : string) (m : JsonMap) : option Json :=
  match m with [] => None | (k', v) :: m' => if String.eqb k k' then Some v else obj_get k m' end.

Fixpoint obj_insert (k : string) (v : Json) (m : JsonMap) : JsonMap :=
  match m with
  | [] => [(k, v)]
  | (k', v') :: m' =>
      match String.compare k k' with
      | Lt => (k, v) :: m
      | Eq => (k, v) :: m'
      | Gt => (k', v') :: obj_insert k v m'
      end
  end.

Definition obj_remove (k : string) (m : JsonMap) : JsonMap :=
  List.filter (fun kv => negb (String.eqb k kv.1)) m.

(** A value as the parser holds it: every object a [Map]. *)
Definition obj_of_members (l : list (string * Json)) : JsonMap :=
  fold_left (fun m kv => obj_insert kv.1 kv.2 m) l [].

Fixpoint json_norm (j : Json) : Json :=
  match j with
  | JArr l => JArr (map json_norm l)
  | JObj m => JObj (obj_of_members (map (fun kv => (kv.1, json_norm kv.2)) m))
  | _ => j
  end.

Definition as_str (j : Json) : option string := match j with JStr s => Some s | _ => None end.
Definition as_i64 (j : Json) : option Z := match j with JNum z => in_range i64_min i64_max z | _ => None end.

(** ** Key types *)

Definition KEY_LEN : nat := 32.

Inductive KeyType := Aes256Gcm | Ed25519 | Hmac.
#[global] Instance KeyType_eq_dec : EqDecision KeyType. Proof. solve_decision. Defined.

Definition KeyType_as_str (t : KeyType) : string :=
  match t with Aes256Gcm => "aes256-gcm" | Ed25519 => "ed25519" | Hmac => "hmac" end.

Definition one_of (s : string) (l : list string) : bool := existsb (String.eqb s) l.

Definition KeyType_parse (s : string) : result string KeyType :=
  let l := to_ascii_lowercase s in
  if one_of l ["aes256-gcm"; "aes-256-gcm"; "aes256"; "aes"] then Ok Aes256Gcm
  else if one_of l ["ed25519"] then Ok Ed25519
  else if one_of l ["hmac"] then Ok Hmac
  else Err ("unknown key type '" +:+ l +:+ "' (use aes256-gcm, ed25519 or hmac)").

Definition operations (t : KeyType) : string :=
  match t with
  | Aes256Gcm => "encrypt, decrypt, datakey"
  | Ed25519 => "sign, verify, token"
  | Hmac => "hmac, verify, token"
  end.

Definition check_material (t : KeyType) (material : bytes) : result string unit :=
  if negb (length material =? KEY_LEN)%nat
  then Err (KeyType_as_str t +:+ " keys are 32 bytes; got " +:+ show_Z (Z.of_nat (length material)))
  else Ok tt.

Definition HashAlg_parse (s : string) : result string HashAlg :=
  let l := to_ascii_lowercase s in
  if one_of l ["sha3-256"; "sha3_256"; "sha3"] then Ok Sha3_256
  else if one_of l ["sha3-512"; "sha3_512"] then Ok Sha3_512
  else if one_of l ["sha256"; "sha-256"; "sha2-256"] then Ok Sha256
  else if one_of l ["sha512"; "sha-512"; "sha2-512"] then Ok Sha512
  else Err ("unknown algorithm '" +:+ l +:+ "' (use sha3-256, sha3-512, sha256 or sha512)").

Definition HashAlg_as_str (a : HashAlg) : string :=
  match a with Sha3_256 => "sha3-256" | Sha3_512 => "sha3-512" | Sha256 => "sha256" | Sha512 => "sha512" end.

Inductive KdfAlg := KdfArgon2id | KdfScrypt | KdfPbkdf2.

Definition KdfAlg_parse (s : string) : result string KdfAlg :=
  let l := to_ascii_lowercase s in
  if one_of l ["argon2id"; "argon2"] then Ok KdfArgon2id
  else if one_of l ["scrypt"] then Ok KdfScrypt
  else if one_of l ["pbkdf2"; "pbkdf2-sha3-512"] then Ok KdfPbkdf2
  else Err ("unknown algorithm '" +:+ l +:+ "' (use argon2id, scrypt or pbkdf2)").

Definition KdfAlg_as_str (a : KdfAlg) : string :=
  match a with KdfArgon2id => "argon2id" | KdfScrypt => "scrypt" | KdfPbkdf2 => "pbkdf2-sha3-512" end.

(** ** Argon2id ([src/src/credstore.rs]) *)

Inductive CredError :=
| CredIo (msg : string)
| CredJson (msg : string)
| CredB64 (msg : string)
| CredKdf (msg : string)
| CredDecrypt
| CredLocked
| CredNoPassphrase.

Definition cred_msg (e : CredError) : string :=
  match e with
  | CredIo m => "io: " +:+ m
  | CredJson m => "json: " +:+ m
  | CredB64 m => "base64: " +:+ m
  | CredKdf m => "kdf: " +:+ m
  | CredDecrypt => "decrypt failed — wrong passphrase or corrupt profile"
  | CredLocked => "this profile is encrypted; unlock it (`blackbook unlock`) or set $BLACKBOOK_PASSPHRASE"
  | CredNoPassphrase => "profile passphrase required (set $BLACKBOOK_PASSPHRASE, or run interactively to be prompted)"
  end.

Definition ARGON_M_COST : Z := 64 * 1024.
Definition ARGON_T_COST : Z := 3.
Definition ARGON_P_COST : Z := 1.

Section ops.
Context {P : Primitives} {O : OpsLib}.

Definition derive_kek (passphrase : string) (salt : bytes) (m t p : Z) : result CredError bytes :=
  map_err CredKdf (argon2_into passphrase salt m t p).

(** The key, and the costs it took. *)
Definition argon2_key (passphrase : string) (salt : bytes) : result CredError (bytes * Z * Z * Z) :=
  k ← derive_kek passphrase salt ARGON_M_COST ARGON_T_COST ARGON_P_COST;
  Ok (k, ARGON_M_COST, ARGON_T_COST, ARGON_P_COST).

Definition argon2_key_with (passphrase : string) (salt : bytes) (m t p : Z) : result CredError bytes :=
  derive_kek passphrase salt m t p.

(** [credstore::argon2_key(..).map_err(|e| e.to_string())?] with the costs dropped. *)
Definition argon2id (passphrase : string) (salt : bytes) : result string bytes :=
  '(k, _, _, _) ← map_err cred_msg (argon2_key passphrase salt); Ok k.

Definition KeyType_generate : M bytes := draw KEY_LEN.

Definition ed25519_signing_key (seed : bytes) : result string bytes :=
  if (length seed =? 32)%nat then Ok seed else Err "Ed25519 seeds are 32 bytes".

Definition op_ed25519_public (seed : bytes) : result string bytes :=
  k ← ed25519_signing_key seed; Ok (ed25519_public k).

Definition op_ed25519_sign (seed msg : bytes) : result string bytes :=
  k ← ed25519_signing_key seed; Ok (ed25519_sign k msg).

(** A signature that is not 64 bytes long never verifies. *)
Definition op_ed25519_verify (public msg sig : bytes) : bool :=
  if negb (length sig =? 64)%nat then false else ed25519_verify public msg sig.

Definition public_key (t : KeyType) (material : bytes) : option bytes :=
  match t with Ed25519 => ok (op_ed25519_public material) | _ => None end.

Definition digest (alg : HashAlg) (data : bytes) : bytes := digest_of alg data.

Definition hmac (alg : HashAlg) (key data : bytes) : bytes := hmac_of alg key data.

Definition hmac_verify (alg : HashAlg) (key data tag : bytes) : bool := bool_decide (hmac_of alg key data = tag).

(** ** [bbk:v<N>:<base64>] *)

Definition MANAGED_PREFIX : string := "bbk:v".

Definition versioned (version : Z) (b : bytes) : string :=
  MANAGED_PREFIX +:+ show_Z version +:+ ":" +:+ b64_encode b.

Definition parse_versioned (s : string) : result string (Z * bytes) :=
  let bad := "expected 'bbk:v<N>:<base64>' (output of a Blackbook managed key)" in
  rest ← ok_or bad (strip_prefix MANAGED_PREFIX (trim s));
  '(ver, body) ← ok_or bad (split_once ":"%char rest);
  ver ← ok_or bad (parse_i32 ver);
  if ver <? 1 then Err bad
  else b ← ok_or bad (b64_decode body); Ok (ver, b).

(** ** Local envelopes *)

Definition DATAKEY_PREFIX : string := "bbkd1:".
Definition PASSPHRASE_PREFIX : string := "bbkx1:".
Definition CMK_PREFIX : string := "bbkc1:".
Definition RAWKEY_PREFIX : string := "bbkk1:".
Definition DATAKEY_MAGIC : bytes := as_bytes "BBKD1".
Definition PASSPHRASE_MAGIC : bytes := as_bytes "BBKX1".
Definition PASSPHRASE_SALT_LEN : nat := 16.

Inductive EnvelopeKind := KManaged | KDataKey | KPassphrase | KCmk | KRawKey.

Definition detect (s : string) : option EnvelopeKind :=
  let s := trim_start s in
  if starts_with MANAGED_PREFIX s then Some KManaged
  else if starts_with DATAKEY_PREFIX s then Some KDataKey
  else if starts_with PASSPHRASE_PREFIX s then Some KPassphrase
  else if starts_with CMK_PREFIX s then Some KCmk
  else if starts_with RAWKEY_PREFIX s then Some KRawKey
  else None.

(** The text of the base64 error is left out. *)
Definition strip_b64 (s prefix : string) : result string bytes :=
  body ← ok_or ("not a Blackbook envelope (expected a '" +:+ prefix +:+ "' prefix)") (strip_prefix prefix (trim s));
  ok_or "envelope is not valid base64" (b64_decode body).

Definition open_err (_ : CryptoError) : string :=
  "decryption failed — wrong key/passphrase, wrong associated data, or a corrupted envelope".

Definition passphrase_seal (salt nonce plaintext : bytes) (passphrase : string) (aad : bytes) : result string string :=
  key ← argon2id passphrase salt;
  sealed ← map_err crypto_msg (aead_seal_aad nonce plaintext key aad);
  Ok (PASSPHRASE_PREFIX +:+ b64_encode (PASSPHRASE_MAGIC ++ salt ++ sealed)).

Definition passphrase_open (envelope passphrase : string) (aad : bytes) : result string bytes :=
  buf ← strip_b64 envelope PASSPHRASE_PREFIX;
  let m := length PASSPHRASE_MAGIC in
  let min := (m + PASSPHRASE_SALT_LEN)%nat in
  if (length buf <=? min)%nat || negb (bool_decide (take m buf = PASSPHRASE_MAGIC))
  then Err "corrupted or truncated envelope"
  else
    let salt := drop m (take min buf) in
    key ← argon2id passphrase salt;
    map_err open_err (aead_open_aad (drop min buf) key aad).

Definition cmk_subkey (cmk : bytes) (purpose : string) : bytes :=
  hkdf32 cmk (as_bytes ("blackbook/crypto/cmk/" +:+ purpose +:+ "/v1")).

Definition cmk_seal (nonce plaintext cmk aad : bytes) : result string string :=
  let k := cmk_subkey cmk "encrypt" in
  sealed ← map_err crypto_msg (aead_seal_aad nonce plaintext k aad);
  Ok (CMK_PREFIX +:+ b64_encode sealed).

Definition cmk_open (envelope : string) (cmk aad : bytes) : result string bytes :=
  buf ← strip_b64 envelope CMK_PREFIX;
  let k := cmk_subkey cmk "encrypt" in
  map_err open_err (aead_open_aad buf k aad).

Definition rawkey_seal (nonce plaintext key aad : bytes) : result string string :=
  sealed ← map_err crypto_msg (aead_seal_aad nonce plaintext key aad);
  Ok (RAWKEY_PREFIX +:+ b64_encode sealed).

Definition rawkey_open (envelope : string) (key aad : bytes) : result string bytes :=
  buf ← strip_b64 envelope RAWKEY_PREFIX;
  map_err open_err (aead_open_aad buf key aad).

Definition datakey_seal (nonce plaintext dek : bytes) (wrapped : string) (aad : bytes) : result string string :=
  let w := as_bytes wrapped in
  len ← ok_or "wrapped data key is too long" (in_range 0 65535 (Z.of_nat (length w)));
  sealed ← map_err crypto_msg (aead_seal_aad nonce plaintext dek aad);
  Ok (DATAKEY_PREFIX +:+ b64_encode (DATAKEY_MAGIC ++ be_bytes 2 len ++ w ++ sealed)).

Definition datakey_parse (envelope : string) : result string (string * bytes) :=
  buf ← strip_b64 envelope DATAKEY_PREFIX;
  let bad := "corrupted or truncated envelope" in
  let m := length DATAKEY_MAGIC in
  if (length buf <? m + 2)%nat || negb (bool_decide (take m buf = DATAKEY_MAGIC)) then Err bad
  else
    let len := Z.to_nat (be_value (take 2 (drop m buf))) in
    let start := (m + 2)%nat in
    if (length buf <? start + len)%nat then Err bad
    else
      wrapped ← ok_or bad (from_utf8 (take len (drop start buf)));
      Ok (wrapped, drop (start + len) buf).

Definition datakey_open (sealed dek aad : bytes) : result string bytes := map_err open_err (aead_open_aad sealed dek aad).

(** ** Tokens *)

Definition TOKEN_MAX_TTL_SECS : Z := 10 * 365 * 24 * 3600.
Definition TOKEN_LEEWAY_SECS : Z := 60.

Inductive TokenSigner := SignEd25519 (seed : bytes) | SignHmac (key : bytes).
Inductive TokenVerifier := VerifyEd25519 (public : bytes) | VerifyHmac (key : bytes).

Definition signer_alg (s : TokenSigner) : string := match s with SignEd25519 _ => "EdDSA" | SignHmac _ => "HS256" end.
Definition TokenVerifier_alg (v : TokenVerifier) : string :=
  match v with VerifyEd25519 _ => "EdDSA" | VerifyHmac _ => "HS256" end.

Record TokenRequest := MkTokenRequest {
  tr_claims : JsonMap;
  tr_subject : option string;
  tr_audience : option string;
  tr_issuer : option string;
  tr_ttl_secs : Z;
  tr_not_before_secs : option Z;
}.

Definition insert_str (k : string) (o : option string) (m : JsonMap) : JsonMap :=
  match o with Some s => obj_insert k (JStr s) m | None => m end.

(** [jti] is the fresh draw; sums wrap as in a release build. *)
Definition token_claims (req : TokenRequest) (now : Z) (jti : bytes) : result string JsonMap :=
  if (tr_ttl_secs req <? 1) || (TOKEN_MAX_TTL_SECS <? tr_ttl_secs req)
  then Err ("ttl must be between 1 second and " +:+ show_Z TOKEN_MAX_TTL_SECS +:+ " seconds")
  else
    let c := insert_str "iss" (tr_issuer req) (insert_str "aud" (tr_audience req)
               (insert_str "sub" (tr_subject req) (tr_claims req))) in
    let c := obj_insert "exp" (JNum (wrap_i64 (now + tr_ttl_secs req))) (obj_insert "iat" (JNum now) c) in
    c ← match tr_not_before_secs req with
        | Some n => if n <? 0 then Err "not-before offset can't be negative"
                    else Ok (obj_insert "nbf" (JNum (wrap_i64 (now + n))) c)
        | None => Ok (obj_remove "nbf" c)
        end;
    Ok (obj_insert "jti" (JStr (b64url_encode jti)) c).

(** The header object, its keys in order. *)
Definition token_head (signer : TokenSigner) (kid : option string) : JsonMap :=
  insert_str "kid" kid [("alg", JStr (signer_alg signer)); ("typ", JStr "JWT")].

Definition signing_input (header claims : JsonMap) : string :=
  b64url_encode (json_to_vec (JObj header)) +:+ "." +:+ b64url_encode (json_to_vec (JObj claims)).

Definition token_issue (signer : TokenSigner) (kid : option string) (claims : JsonMap) : result string string :=
  let input := signing_input (token_head signer kid) claims in
  sig ← match signer with
        | SignEd25519 seed => op_ed25519_sign seed (as_bytes input)
        | SignHmac key => Ok (hmac Sha256 key (as_bytes input))
        end;
  Ok (input +:+ "." +:+ b64url_encode sig).

Definition token_parts (token : string) : result string (string * string * string) :=
  match split_on "."%char (trim token) with
  | [h; p; s] =>
      if negb (h =? "")%string && negb (p =? "")%string then Ok (h, p, s)
      else Err "malformed token (expected header.payload.signature)"
  | _ => Err "malformed token (expected header.payload.signature)"
  end.

Definition token_json (part what : string) : result string JsonMap :=
  b ← ok_or ("malformed token " +:+ what) (b64url_decode part);
  match json_from_slice b with
  | Some (JObj m) => Ok m
  | _ => Err ("malformed token " +:+ what)
  end.

Definition token_header (token : string) : result string JsonMap :=
  '(h, _, _) ← token_parts token; token_json h "header".

Definition fmt_unix (t : Z) : string := default (show_Z t) (rfc3339_of_secs t).

Definition check_exp (now : Z) (claims : JsonMap) : result string unit :=
  match obj_get "exp" claims with
  | None => Ok tt
  | Some e =>
      exp ← ok_or "malformed 'exp' claim" (as_i64 e);
      if wrap_i64 (exp + TOKEN_LEEWAY_SECS) <? now then Err ("expired at " +:+ fmt_unix exp) else Ok tt
  end.

Definition check_nbf (now : Z) (claims : JsonMap) : result string unit :=
  match obj_get "nbf" claims with
  | None => Ok tt
  | Some n =>
      nbf ← ok_or "malformed 'nbf' claim" (as_i64 n);
      if wrap_i64 (now + TOKEN_LEEWAY_SECS) <? nbf then Err ("not valid before " +:+ fmt_unix nbf) else Ok tt
  end.

Definition audience_matches (want : string) (claims : JsonMap) : bool :=
  match obj_get "aud" claims with
  | Some (JStr a) => (a =? want)%string
  | Some (JArr v) => existsb (fun a => match as_str a with Some s => (s =? want)%string | None => false end) v
  | _ => false
  end.

Definition check_aud (audience : option string) (claims : JsonMap) : result string unit :=
  match audience with
  | None => Ok tt
  | Some want =>
      if audience_matches want claims then Ok tt
      else Err ("audience mismatch: token is not for '" +:+ want +:+ "'")
  end.

Definition check_signature (v : TokenVerifier) (input : string) (sig : bytes) : bool :=
  match v with
  | VerifyEd25519 pk => op_ed25519_verify pk (as_bytes input) sig
  | VerifyHmac key => hmac_verify Sha256 key (as_bytes input) sig
  end.

Definition token_verify (token : string) (verifier : TokenVerifier) (now : Z) (audience : option string) :
    result string JsonMap :=
  '(h, p, s) ← token_parts token;
  header ← token_json h "header";
  let alg := default "" (obj_get "alg" header ≫= as_str) in
  if negb (alg =? TokenVerifier_alg verifier)%string
  then Err ("algorithm mismatch: token is '" +:+ alg +:+ "' but this key verifies '"
            +:+ TokenVerifier_alg verifier +:+ "'")
  else
    sig ← ok_or "malformed token signature" (b64url_decode s);
    if negb (check_signature verifier (h +:+ "." +:+ p) sig) then Err "bad signature"
    else
      claims ← token_json p "payload";
      _ ← check_exp now claims;
      _ ← check_nbf now claims;
      _ ← check_aud audience claims;
      Ok claims.

(** ** Key files *)

Definition ED25519_SPKI_PREFIX : bytes := byte_of_Z <$> [0x30; 0x2a; 0x30; 0x05; 0x06; 0x03; 0x2b; 0x65; 0x70; 0x03; 0x21; 0x00].
Definition ED25519_PKCS8_PREFIX : bytes :=
  byte_of_Z <$> [0x30; 0x2e; 0x02; 0x01; 0x00; 0x30; 0x05; 0x06; 0x03; 0x2b; 0x65; 0x70; 0x04; 0x22; 0x04; 0x20].

Definition nl : string := String "010" "".

(** [chunks(64)], each on its own line; at most one line per byte. *)
Fixpoint pem_lines (fuel : nat) (s : string) : string :=
  match fuel, s with
  | S fuel', String _ _ => String.substring 0 64 s +:+ nl +:+ pem_lines fuel' (String.substring 64 (String.length s - 64) s)
  | _, _ => ""
  end.

Definition pem_wrap (label : string) (der : bytes) : string :=
  let b64 := b64_encode der in
  "-----BEGIN " +:+ label +:+ "-----" +:+ nl +:+ pem_lines (String.length b64) b64
  +:+ "-----END " +:+ label +:+ "-----" +:+ nl.

(** [s] around the first occurrence of [sub]. *)
Fixpoint find_split (sub s : string) : option (string * string) :=
  match strip_prefix sub s with
  | Some after => Some ("", after)
  | None => match s with
            | "" => None
            | String a s' => '(b, after) ← find_split sub s'; Some (String a b, after)
            end
  end.

Definition remove_whitespace (s : string) : string := String.concat "" (split_whitespace s).

Definition pem_body (text label : string) : option bytes :=
  '(_, after) ← find_split ("-----BEGIN " +:+ label +:+ "-----") text;
  '(body, _) ← find_split ("-----END " +:+ label +:+ "-----") after;
  b64_decode (remove_whitespace body).

Definition ed25519_public_pem (public : bytes) : string := pem_wrap "PUBLIC KEY" (ED25519_SPKI_PREFIX ++ public).
Definition ed25519_private_pem (seed : bytes) : string := pem_wrap "PRIVATE KEY" (ED25519_PKCS8_PREFIX ++ seed).

Definition ed25519_jwk (public : bytes) (kid : string) : Json :=
  JObj [("alg", JStr "EdDSA"); ("crv", JStr "Ed25519"); ("kid", JStr kid); ("kty", JStr "OKP"); ("use", JStr "sig");
        ("x", JStr (b64url_encode public))].

Definition key_fingerprint (b : bytes) : string := String.substring 0 16 (hex_encode (digest Sha3_256 b)).

Record LocalKey := MkLocalKey { lk_type : KeyType; lk_secret : bytes }.

Definition local_key_json (t : KeyType) (secret : bytes) : string :=
  let v := [("blackbook_key", JNum 1); ("secret", JStr (b64_encode secret)); ("type", JStr (KeyType_as_str t))] in
  let v := match public_key t secret with
           | Some pk => obj_insert "public" (JStr (b64_encode pk)) v
           | None => v
           end in
  json_pretty (JObj v) +:+ nl.

(** [trim_end_matches('=')] *)
Fixpoint trim_pad (s : string) : string :=
  match s with
  | "" => ""
  | String a s' => match trim_pad s' with
                   | "" => if Ascii.eqb a "="%char then "" else String a ""
                   | t => String a t
                   end
  end.

Definition text_key_bytes (text : string) : option bytes :=
  let t := trim text in
  match (if (String.length t =? 64)%nat then hex_decode t else None) with
  | Some b => Some b
  | None =>
      b ← match b64_decode t with Some b => Some b | None => b64url_decode (trim_pad t) end;
      if (length b =? KEY_LEN)%nat then Some b else None
  end.

Definition json_object (text : string) : option JsonMap :=
  match json_from_slice (as_bytes text) with Some (JObj m) => Some m | _ => None end.

Definition local_key_of_json (m : JsonMap) : result string LocalKey :=
  t ← KeyType_parse (default "" (obj_get "type" m ≫= as_str));
  secret ← ok_or "this key file has no secret (it may be a public key — use --public-key)"
             (obj_get "secret" m ≫= as_str);
  secret ← ok_or "key file secret is not base64" (b64_decode secret);
  _ ← check_material t secret;
  Ok (MkLocalKey t secret).

Definition local_key_of_pem (der : bytes) : result string LocalKey :=
  let n := length ED25519_PKCS8_PREFIX in
  if (length der =? n + KEY_LEN)%nat && bool_decide (take n der = ED25519_PKCS8_PREFIX)
  then Ok (MkLocalKey Ed25519 (drop n der))
  else Err "unsupported PEM private key (only Ed25519 PKCS#8 is supported)".

Definition local_key_raw (b : bytes) (hint : option KeyType) : result string LocalKey :=
  if (length b =? KEY_LEN)%nat then Ok (MkLocalKey (default Aes256Gcm hint) b)
  else Err "unrecognized key file (expected a `bbk crypto keygen` file, an Ed25519 PEM, or 32 raw / hex / base64 key bytes)".

Definition parse_local_key (b : bytes) (hint : option KeyType) : result string LocalKey :=
  match from_utf8 b with
  | None => local_key_raw b hint
  | Some text =>
      match json_object text with
      | Some m => local_key_of_json m
      | None =>
          match pem_body text "PRIVATE KEY" with
          | Some der => local_key_of_pem der
          | None =>
              match text_key_bytes text with
              | Some k => Ok (MkLocalKey (default Aes256Gcm hint) k)
              | None => local_key_raw b hint
              end
          end
      end
  end.

Definition array32 (b : bytes) : option bytes := if (length b =? 32)%nat then Some b else None.

(** The public half named in a JSON file: [None] when the object names none. *)
Definition public_of_json (m : JsonMap) : option (result string bytes) :=
  match obj_get "public" m ≫= as_str, obj_get "x" m ≫= as_str with
  | Some p, _ => Some (ok_or "public key in file is not 32 base64 bytes" (b64_decode p ≫= array32))
  | None, Some x => Some (ok_or "JWK 'x' is not a 32-byte Ed25519 key" (b64url_decode x ≫= array32))
  | None, None => None
  end.

Definition public_of_pem (der : bytes) : result string bytes :=
  let n := length ED25519_SPKI_PREFIX in
  if (length der =? n + 32)%nat && bool_decide (take n der = ED25519_SPKI_PREFIX)
  then Ok (drop n der)
  else Err "unsupported PEM public key (only Ed25519 is supported)".

Definition parse_public_key (text : string) : result string bytes :=
  match json_object text ≫= public_of_json with
  | Some r => r
  | None =>
      match pem_body text "PUBLIC KEY" with
      | Some der => public_of_pem der
      | None =>
          match pem_body text "PRIVATE KEY" with
          | Some _ => k ← parse_local_key (as_bytes text) None; op_ed25519_public (lk_secret k)
          | None =>
              ok_or "unrecognized public key (expected base64/hex, PEM, JWK or a keygen file)"
                (text_key_bytes text ≫= array32)
          end
      end
  end.

Definition is_hex_digit (a : Ascii.ascii) : bool :=
  let n := Z.of_nat (Ascii.nat_of_ascii a) in
  ((48 <=? n) && (n <=? 57)) || ((65 <=? n) && (n <=? 70)) || ((97 <=? n) && (n <=? 102)).

Definition parse_tag (s : string) : result string bytes :=
  let t := trim s in
  if starts_with MANAGED_PREFIX t then vb ← parse_versioned t; Ok vb.2
  else
    match (if Nat.even (String.length t) && forallb is_hex_digit (String.list_ascii_of_string t) then hex_decode t else None) with
    | Some b => Ok b
    | None =>
        ok_or "signature is not hex, base64 or 'bbk:v<N>:' text"
          (match b64_decode t with Some b => Some b | None => b64url_decode (trim_pad t) end)
    end.

(** ** Passwords and derived keys *)

Definition password_hash (salt : bytes) (password : string) : result string string := argon2_phc password salt.

Definition password_verify (password phc : string) : result string bool := argon2_check password (trim phc).

Definition derive_key (alg : KdfAlg) (passphrase : string) (salt : bytes) : result string bytes :=
  match alg with
  | KdfArgon2id => argon2id passphrase salt
  | KdfScrypt => map_err crypto_msg (derive_message_key (as_bytes passphrase) salt)
  | KdfPbkdf2 => Ok (pbkdf2_sha3_512 (as_bytes passphrase) salt KEY_LEN)
  end.

Definition op_random_bytes (n : nat) : M bytes := draw n.

Definition op_encode (b : bytes) (encoding : string) : result string string :=
  if (encoding =? "hex")%string then Ok (hex_encode b)
  else if (encoding =? "base64")%string then Ok (b64_encode b)
  else if one_of encoding ["base64url"; "token"] then Ok (b64url_encode b)
  else Err ("unknown encoding '" +:+ encoding +:+ "' (use hex, base64, base64url or token)").
End ops.
