(* ===== verification/ToyOps.v ===== *)
(** A concrete instance of [CryptoOps.OpsLib] for the witnesses. JSON is written as the bits of
    a code of the value's tree. *)
From stdpp Require Import countable.
From S2P Require Import Prelude Text Crypto ToyPrimitives Store Effects CryptoOps.

Fixpoint json_tree (j : Json) : gen_tree (bool + Z + string) :=
  match j with
  | JNull => GenNode 0 []
  | JBool b => GenLeaf (inl (inl b))
  | JNum z => GenLeaf (inl (inr z))
  | JFloat t => GenNode 1 [GenLeaf (inr t)]
  | JStr s => GenLeaf (inr s)
  | JArr l => GenNode 2 (map json_tree l)
  | JObj m => GenNode 3 (map (fun kv => GenNode 4 [GenLeaf (inr kv.1); json_tree kv.2]) m)
  end.

Fixpoint tree_json (t : gen_tree (bool + Z + string)) : Json :=
  match t with
  | GenLeaf (inl (inl b)) => JBool b
  | GenLeaf (inl (inr z)) => JNum z
  | GenLeaf (inr s) => JStr s
  | GenNode 1 [GenLeaf (inr t)] => JFloat t
  | GenNode 2 l => JArr (map tree_json l)
  | GenNode 3 m =>
      JObj (map (fun t => match t with GenNode 4 [GenLeaf (inr k); v] => (k, tree_json v) | _ => ("", JNull) end) m)
  | _ => JNull
  end.

Fixpoint tree_json_tree (j : Json) : tree_json (json_tree j) = j.
Proof.
  destruct j as [|b|z|t|s|l|m]; try reflexivity.
  - simpl. f_equal. induction l as [|j l IH]; [reflexivity|]. simpl. by rewrite tree_json_tree, IH.
  - simpl. f_equal. induction m as [|[k v] m IH]; [reflexivity|]. simpl. by rewrite tree_json_tree, IH.
Qed.

(** A number as text, five bits to a character from the low end. [w] is the
    weight of the next bit of the character under way, [acc] its bits so far;
    the last character carries the leading one. *)
Fixpoint pack (w acc : N) (p : positive) : string :=
  match p with
  | xH => String (ascii_of_N (32 + (acc + w))) ""
  | xO q => if (w =? 16)%N then String (ascii_of_N (64 + acc)) (pack 1 0 q) else pack (2 * w) acc q
  | xI q => if (w =? 16)%N then String (ascii_of_N (64 + (acc + w))) (pack 1 0 q) else pack (2 * w) (acc + w) q
  end.

Fixpoint unpack (s : string) : option N :=
  match s with
  | String c s' =>
      let n := N_of_ascii c in
      if (n <? 64)%N then Some (n - 32)%N else r ← unpack s'; Some (32 * r + (n - 64))%N
  | EmptyString => None
  end.

Definition bits (p : positive) : string := pack 1 0 p.

Definition unbits (s : string) : option positive :=
  n ← unpack s; match n with N0 => None | Npos p => Some p end.

Definition bit_weight (w : N) : Prop := (w = 1 \/ w = 2 \/ w = 4 \/ w = 8 \/ w = 16)%N.

Lemma code_of_ascii n : (n < 256)%N -> N_of_ascii (ascii_of_N n) = n.
Proof. apply N_ascii_embedding. Qed.

Lemma unpack_pack p w acc t : bit_weight w -> (acc < w)%N ->
  unpack (pack w acc p +:+ t) = Some (w * Npos p + acc)%N.
Proof.
  revert w acc. induction p as [p IH|p IH|]; intros w acc Hw Ha; cbn [pack].
  1,2: destruct (N.eqb_spec w 16) as [->|Hn];
    [|rewrite IH; [f_equal; lia|unfold bit_weight in *; lia|lia]];
    rewrite string_app_cons; cbn [unpack]; rewrite code_of_ascii by lia;
    match goal with |- context [(?n <? 64)%N] => destruct (N.ltb_spec n 64); [lia|] end;
    rewrite IH; [cbn [mbind option_bind]; f_equal; lia|unfold bit_weight; lia|lia].
  rewrite string_app_cons. cbn [unpack]. unfold bit_weight in Hw. rewrite code_of_ascii by lia.
  match goal with |- context [(?n <? 64)%N] => destruct (N.ltb_spec n 64); [|lia] end. f_equal. lia.
Qed.

Lemma unbits_bits p t : unbits (bits p +:+ t) = Some p.
Proof.
  unfold unbits, bits. rewrite unpack_pack; [|unfold bit_weight; lia|lia]. cbn [mbind option_bind].
  by rewrite N.add_0_r, N.mul_1_l.
Qed.

Definition toy_json_text (j : Json) : string := "{" +:+ bits (encode (json_tree j)).

Definition toy_json_parse (s : string) : option Json :=
  r ← strip_prefix "{" s; p ← unbits r; tree_json <$> decode p.

Lemma toy_json_roundtrip j t : toy_json_parse (toy_json_text j +:+ t) = Some j.
Proof.
  unfold toy_json_parse, toy_json_text. rewrite string_app_assoc, strip_prefix_app. cbn [mbind option_bind].
  rewrite unbits_bits. cbn [mbind option_bind]. rewrite decode_encode. simpl. by rewrite tree_json_tree.
Qed.

Lemma is_ascii_code n : (n < 128)%N -> is_ascii (ascii_of_N n) = true.
Proof. intros H. unfold is_ascii, nat_of_ascii. rewrite code_of_ascii by lia. apply Z.ltb_lt. lia. Qed.

Lemma pack_ascii p w acc : bit_weight w -> (acc < w)%N -> all_chars is_ascii (pack w acc p) = true.
Proof.
  unfold bit_weight. revert w acc. induction p as [p IH|p IH|]; intros w acc Hw Ha; cbn [pack].
  1,2: destruct (N.eqb_spec w 16) as [->|Hn]; [|apply IH; lia]; cbn [all_chars];
    by rewrite is_ascii_code, IH by lia.
  cbn [all_chars]. by rewrite is_ascii_code by lia.
Qed.

Lemma bits_ascii p : all_chars is_ascii (bits p) = true.
Proof. apply pack_ascii; [unfold bit_weight|]; lia. Qed.

Definition alg_tag (a : HashAlg) : bytes :=
  as_bytes (HashAlg_as_str a).

#[export] Instance toy_ops : OpsLib := {|
  digest_of a d := be_bytes 32 (toy_hash (alg_tag a ++ d));
  hmac_of a k d := be_bytes 32 (toy_hash (alg_tag a ++ k ++ d));
  hkdf32 ikm info := be_bytes 32 (toy_hash (ikm ++ info));
  argon2_into pw salt m t p := Ok (be_bytes 32 (toy_hash (as_bytes pw ++ salt ++ [byte_of_Z (m + t + p)])));
  argon2_phc pw salt := Ok (toy_hex (as_bytes pw ++ salt));
  argon2_check pw phc := Ok (starts_with (toy_hex (as_bytes pw)) phc);
  json_to_vec j := as_bytes (toy_json_text j);
  json_pretty := toy_json_text;
  json_from_slice b := json_norm <$> toy_json_parse (of_bytes b);
  rfc3339_of_secs t := Some (show_Z t);
|}.
