(* ===== verification/CryptoOpsProps.v ===== *)
(** Properties of the crypto toolkit ([CryptoOps.v]): tokens live exactly as
    long as they were asked to, envelopes and key files read back. *)
From S2P Require Import Prelude Text Crypto ToyPrimitives Store Effects CryptoOps ToyOps.

(** ** JSON values the codec carries without loss *)

Fixpoint sorted_keys (m : JsonMap) : bool :=
  match m with
  | (k, _) :: (((k', _) :: _) as rest) =>
      match String.compare k k' with Lt => sorted_keys rest | _ => false end
  | _ => true
  end.

Definition str_ok (s : string) : bool := bool_decide (is_str s).
Arguments str_ok : simpl never.

(** Strings are UTF-8, integers fit, keys are ordered; floats are left out. *)
Fixpoint json_ok (j : Json) : bool :=
  match j with
  | JNull | JBool _ => true
  | JNum z => (i64_min <=? z) && (z <=? u64_max)
  | JFloat _ => false
  | JStr s => str_ok s
  | JArr l => forallb json_ok l
  | JObj m => sorted_keys m && forallb (fun kv => str_ok kv.1 && json_ok kv.2) m
  end.

(** The same, but members in any order. *)
Fixpoint json_fits (j : Json) : bool :=
  match j with
  | JNull | JBool _ => true
  | JNum z => (i64_min <=? z) && (z <=? u64_max)
  | JFloat _ => false
  | JStr s => str_ok s
  | JArr l => forallb json_fits l
  | JObj m => forallb (fun kv => str_ok kv.1 && json_fits kv.2) m
  end.

(** Standard and URL-safe base64 alphabets. *)
Definition is_alnum (a : Ascii.ascii) : bool :=
  let n := Z.of_nat (Ascii.nat_of_ascii a) in
  ((48 <=? n) && (n <=? 57)) || ((65 <=? n) && (n <=? 90)) || ((97 <=? n) && (n <=? 122)).
Definition b64_char (a : Ascii.ascii) : bool := is_alnum a || existsb (Ascii.eqb a) ["+"; "/"; "="]%char.
Definition b64url_char (a : Ascii.ascii) : bool := is_alnum a || existsb (Ascii.eqb a) ["-"; "_"]%char.

(** Documented behaviour of the libraries. *)
Class OpsLaws (P : Primitives) (O : OpsLib) : Prop := {
  argon2_length pw salt m t p k : argon2_into pw salt m t p = Ok k -> length k = 32%nat;
  b64_alphabet b : all_chars b64_char (b64_encode b) = true;
  b64_padded b : (length b mod 3 <> 0)%nat -> has_char "="%char (b64_encode b) = true;
  hex_text b : Nat.even (String.length (hex_encode b)) && all_chars is_hex_digit (hex_encode b) = true;
  b64url_alphabet b : all_chars b64url_char (b64url_encode b) = true;
  b64url_nonempty b : b <> [] -> b64url_encode b <> "";
  json_vec_reads j : json_fits j = true -> json_from_slice (json_to_vec j) = Some (json_norm j);
  json_vec_nonempty j : json_to_vec j <> [];
  json_pretty_nl_reads j : json_fits j = true -> json_from_slice (as_bytes (json_pretty j +:+ nl)) = Some (json_norm j);
  json_pretty_reads j : json_fits j = true -> json_from_slice (as_bytes (json_pretty j)) = Some (json_norm j);
  json_pretty_is_str j : json_ok j = true -> is_str (json_pretty j +:+ nl);
  json_not_pem s : json_from_slice (as_bytes ("-----BEGIN" +:+ s)) = None;
}.

Lemma argon2id_length {P : Primitives} {O : OpsLib} {L : OpsLaws P O} pw salt k : argon2id pw salt = Ok k -> length k = 32%nat.
Proof.
  unfold argon2id, argon2_key, derive_kek. destruct (argon2_into _ _ _ _ _) as [b|e] eqn:E; simpl; [|done].
  intros [= <-]. by apply (argon2_length _ _ _ _ _ _ E).
Qed.

Lemma b64_char_cases a : b64_char a = true -> 43 <= Z.of_nat (Ascii.nat_of_ascii a) <= 122 /\ a <> "-"%char.
Proof. destruct a as [[] [] [] [] [] [] [] []]; vm_compute; try discriminate; (intros _; split; [split|]; discriminate). Qed.
Lemma b64url_char_cases a : b64url_char a = true -> 45 <= Z.of_nat (Ascii.nat_of_ascii a) <= 122 /\ a <> "."%char.
Proof. destruct a as [[] [] [] [] [] [] [] []]; vm_compute; try discriminate; (intros _; split; [split|]; discriminate). Qed.

Lemma b64_graphic s : all_chars b64_char s = true -> all_chars graphic s = true.
Proof. apply all_chars_impl. intros a [H _]%b64_char_cases. unfold graphic. lia. Qed.
Lemma b64url_graphic s : all_chars b64url_char s = true -> all_chars graphic s = true.
Proof. apply all_chars_impl. intros a [H _]%b64url_char_cases. unfold graphic. lia. Qed.
Lemma b64url_no_dot s : all_chars b64url_char s = true -> has_char "."%char s = false.
Proof. intros H. by apply (has_char_all _ _ _ H). Qed.

(** ** Maps *)

Lemma obj_get_insert k v m : obj_get k (obj_insert k v m) = Some v.
Proof.
  induction m as [|[k' v'] m IH]; simpl; [by rewrite String.eqb_refl|].
  destruct (String.compare k k') eqn:E; simpl; rewrite ?String.eqb_refl; [done|done|].
  destruct (String.eqb_spec k k') as [->|]; [|done]. exfalso.
  assert (Hr : String.compare k' k' = Eq).
  { clear. induction k' as [|a s IH]; [done|]. simpl. unfold Ascii.compare. by rewrite N.compare_refl. }
  congruence.
Qed.

Lemma obj_get_insert_ne k k' v m : k <> k' -> obj_get k (obj_insert k' v m) = obj_get k m.
Proof.
  intros Hne. induction m as [|[k2 v2] m IH]; simpl; [by rewrite (proj2 (String.eqb_neq _ _) Hne)|].
  destruct (String.compare k' k2) eqn:E; simpl.
  - apply String.compare_eq_iff in E as <-. by rewrite (proj2 (String.eqb_neq _ _) Hne).
  - by rewrite (proj2 (String.eqb_neq _ _) Hne).
  - by rewrite IH.
Qed.

Lemma obj_get_remove k m : obj_get k (obj_remove k m) = None.
Proof.
  induction m as [|[k2 v2] m IH]; [done|]. unfold obj_remove. cbn [List.filter fst].
  destruct (String.eqb_spec k k2) as [->|Hne]; cbn [negb]; [exact IH|]. simpl.
  rewrite (proj2 (String.eqb_neq _ _) Hne). exact IH.
Qed.

Lemma obj_get_remove_ne k k' m : k <> k' -> obj_get k (obj_remove k' m) = obj_get k m.
Proof.
  intros Hne. induction m as [|[k2 v2] m IH]; [done|]. unfold obj_remove. cbn [List.filter fst].
  destruct (String.eqb_spec k' k2) as [->|Hk]; cbn [negb]; simpl.
  - rewrite (proj2 (String.eqb_neq _ _) Hne). exact IH.
  - by destruct (k =? k2)%string; [|exact IH].
Qed.

(** *** Order *)

Lemma ascii_compare_trans a b c : Ascii.compare a b = Lt -> Ascii.compare b c = Lt -> Ascii.compare a c = Lt.
Proof. unfold Ascii.compare. rewrite !N.compare_lt_iff. lia. Qed.

Lemma ascii_compare_eq a b : Ascii.compare a b = Eq -> a = b.
Proof. unfold Ascii.compare. intros H%N.compare_eq. by rewrite <- (Ascii.ascii_N_embedding a), H, Ascii.ascii_N_embedding. Qed.

Lemma string_compare_trans a b c : String.compare a b = Lt -> String.compare b c = Lt -> String.compare a c = Lt.
Proof.
  revert b c. induction a as [|x a IH]; intros [|y b] [|z c]; simpl; try done.
  destruct (Ascii.compare x y) eqn:E1; [|clear IH|done].
  - apply ascii_compare_eq in E1 as ->. destruct (Ascii.compare y z); [|done..]. apply IH.
  - intros _. destruct (Ascii.compare y z) eqn:E2; [|intros _; by rewrite (ascii_compare_trans _ _ _ E1 E2)|done].
    apply ascii_compare_eq in E2 as ->. by rewrite E1.
Qed.

Definition above (k : string) (m : JsonMap) : Prop :=
  match m with (k', _) :: _ => String.compare k k' = Lt | [] => True end.

Lemma sorted_cons k v m : sorted_keys ((k, v) :: m) = true <-> above k m /\ sorted_keys m = true.
Proof.
  destruct m as [|[k' v'] m]; [by split|]. cbn [sorted_keys above].
  destruct (String.compare k k'); split; intros H; try done; by destruct H.
Qed.

Lemma above_insert k k' v m : String.compare k k' = Lt -> above k m -> above k (obj_insert k' v m).
Proof. intros Hk Hm. destruct m as [|[k2 v2] m]; [done|]. simpl. destruct (String.compare k' k2); done. Qed.

Lemma sorted_insert k v m : sorted_keys m = true -> sorted_keys (obj_insert k v m) = true.
Proof.
  induction m as [|[k' v'] m IH]; [done|]. intros [Ha Hs]%sorted_cons. cbn [obj_insert].
  destruct (String.compare k k') eqn:E.
  - apply String.compare_eq_iff in E as ->. by apply sorted_cons.
  - apply sorted_cons. split; [done|]. by apply sorted_cons.
  - apply sorted_cons. split; [|by apply IH]. apply above_insert; [|done].
    by rewrite String.compare_antisym, E.
Qed.

Lemma sorted_remove k m : sorted_keys m = true -> sorted_keys (obj_remove k m) = true.
Proof.
  assert (Hab : forall k0 m, sorted_keys m = true -> above k0 m -> above k0 (obj_remove k m)).
  { clear. intros k0 m. induction m as [|[k' v'] m IH]; [done|]. intros [Ha Hs]%sorted_cons H. unfold obj_remove.
    cbn [List.filter fst]. destruct (k =? k')%string; [|done]. apply IH; [done|].
    destruct m as [|[k2 v2] m]; [done|]. by apply (string_compare_trans _ k'). }
  induction m as [|[k' v'] m IH]; [done|]. intros [Ha Hs]%sorted_cons. unfold obj_remove. cbn [List.filter fst].
  destruct (k =? k')%string; cbn [negb]; [by apply IH|]. apply sorted_cons. split; [by apply Hab|by apply IH].
Qed.

Lemma obj_ok_insert k v m :
  json_ok (JObj m) = true -> is_str k -> json_ok v = true -> json_ok (JObj (obj_insert k v m)) = true.
Proof.
  cbn [json_ok]. intros [Hs Hf]%andb_true_iff Hk Hv. rewrite sorted_insert by done. simpl.
  assert (Hkv : str_ok k && json_ok v = true) by (unfold str_ok; by rewrite bool_decide_true, Hv).
  clear Hs. induction m as [|[k' v'] m IH]; cbn [obj_insert forallb fst snd] in *; [by rewrite Hkv|].
  apply andb_true_iff in Hf as [H1 H2].
  destruct (String.compare k k'); cbn [forallb fst snd]; [by rewrite Hkv|by rewrite Hkv, H1|by rewrite H1, IH].
Qed.

Lemma obj_ok_remove k m : json_ok (JObj m) = true -> json_ok (JObj (obj_remove k m)) = true.
Proof.
  cbn [json_ok]. intros [Hs Hf]%andb_true_iff. rewrite sorted_remove by done. simpl. clear Hs.
  induction m as [|[k' v'] m IH]; [done|]. unfold obj_remove. cbn [List.filter forallb fst snd] in *.
  apply andb_true_iff in Hf as [H1 H2]. destruct (k =? k')%string; cbn [negb]; [by apply IH|].
  cbn [forallb fst snd]. rewrite H1. by apply IH.
Qed.

(** *** Values in the parser's own order read back as they are *)

Definition below (k : string) (m : JsonMap) : Prop := forall kv, kv ∈ m -> String.compare kv.1 k = Lt.

Lemma insert_last k v m : below k m -> obj_insert k v m = m ++ [(k, v)].
Proof.
  induction m as [|[k' v'] m IH]; intros H; [done|]. cbn [obj_insert app].
  pose proof (H (k', v') ltac:(by left)) as Hk. cbn [fst] in Hk. rewrite String.compare_antisym, Hk. cbn [CompOpp]. rewrite IH; [done|].
  intros kv Hkv. apply H. by right.
Qed.

Lemma sorted_all_above k v m : sorted_keys ((k, v) :: m) = true -> forall kv, kv ∈ m -> String.compare k kv.1 = Lt.
Proof.
  revert k v. induction m as [|[k' v'] m IH]; intros k v H kv Hkv; [by apply not_elem_of_nil in Hkv|].
  apply sorted_cons in H as [Ha Hs]. apply elem_of_cons in Hkv as [->|Hkv]; [done|].
  eapply string_compare_trans; [exact Ha|]. by eapply IH.
Qed.

Lemma sorted_members m : sorted_keys m = true -> obj_of_members m = m.
Proof.
  enough (H : forall m acc, sorted_keys m = true -> (forall kv, kv ∈ m -> below kv.1 acc) ->
    fold_left (fun m kv => obj_insert kv.1 kv.2 m) m acc = acc ++ m).
  { intros Hm. apply (H m []); [done|]. intros kv _ x Hx. by apply not_elem_of_nil in Hx. }
  clear m. induction m as [|[k v] m IH]; intros acc Hs Hb; cbn [fold_left fst snd]; [by rewrite app_nil_r|].
  rewrite insert_last by (by apply (Hb (k, v)); left). pose proof (sorted_all_above _ _ _ Hs) as Ha.
  apply sorted_cons in Hs as [_ Hs]. rewrite IH; [by rewrite <- app_assoc|done|].
  intros kv Hkv x. rewrite elem_of_app, list_elem_of_singleton. intros [Hx| ->]; [by apply (Hb kv); [right|]|by apply Ha].
Qed.

Fixpoint json_ok_fits (j : Json) : json_ok j = true -> json_fits j = true /\ json_norm j = j.
Proof.
  destruct j as [|b|z|t|s|l|m]; cbn [json_ok json_fits json_norm]; try by intros.
  - intros H. enough (forallb json_fits l = true /\ map json_norm l = l) as [-> ->] by done.
    induction l as [|j l IH]; [done|]. cbn [forallb map] in *. apply andb_true_iff in H as [Hj Hl].
    destruct (json_ok_fits j Hj) as [-> ->]. destruct (IH Hl) as [-> ->]. done.
  - intros [Hs H]%andb_true_iff.
    enough (forallb (fun kv : string * Json => str_ok kv.1 && json_fits kv.2) m = true /\
            map (fun kv : string * Json => (kv.1, json_norm kv.2)) m = m) as [-> ->].
    { split; [done|]. by rewrite sorted_members. }
    clear Hs. induction m as [|[k v] m IH]; [done|]. cbn [forallb map fst snd] in *.
    apply andb_true_iff in H as [[Hk Hv]%andb_true_iff Hm]. rewrite Hk.
    destruct (json_ok_fits v Hv) as [-> ->]. destruct (IH Hm) as [-> ->]. done.
Qed.

Section reads.
Context {P : Primitives} {O : OpsLib} {OL : OpsLaws P O}.

Lemma json_vec_roundtrip j : json_ok j = true -> json_from_slice (json_to_vec j) = Some j.
Proof. intros [Hf Hn]%json_ok_fits. by rewrite json_vec_reads, Hn. Qed.
Lemma json_pretty_roundtrip j : json_ok j = true -> json_from_slice (as_bytes (json_pretty j +:+ nl)) = Some j.
Proof. intros [Hf Hn]%json_ok_fits. by rewrite json_pretty_nl_reads, Hn. Qed.
Lemma json_pretty_exact j : json_ok j = true -> json_from_slice (as_bytes (json_pretty j)) = Some j.
Proof. intros [Hf Hn]%json_ok_fits. by rewrite json_pretty_reads, Hn. Qed.
End reads.

(** ** Tokens *)

Section tokens.
Context {P : Primitives} {L : PrimitiveLaws P} {O : OpsLib} {OL : OpsLaws P O}.

(** The verifier of what a signer signs. *)
Definition verifier_of (s : TokenSigner) : TokenVerifier :=
  match s with SignEd25519 seed => VerifyEd25519 (ed25519_public seed) | SignHmac key => VerifyHmac key end.

Lemma token_json_encoded m what : json_ok (JObj m) = true -> token_json (b64url_encode (json_to_vec (JObj m))) what = Ok m.
Proof.
  intros H. unfold token_json. rewrite b64url_roundtrip. cbn [ok_or]. rewrite bind_Ok.
  by rewrite json_vec_roundtrip.
Qed.

Lemma token_parts_join h p s :
  all_chars b64url_char h = true -> all_chars b64url_char p = true -> all_chars b64url_char s = true ->
  h <> "" -> p <> "" -> token_parts (h +:+ "." +:+ p +:+ "." +:+ s) = Ok (h, p, s).
Proof.
  intros Hh Hp Hs Hh0 Hp0. unfold token_parts. rewrite trim_graphic.
  - change ("." +:+ p +:+ "." +:+ s) with (String "." (p +:+ String "." s)).
    rewrite split_on_app by by apply b64url_no_dot. rewrite split_on_app by by apply b64url_no_dot.
    rewrite split_on_last by by apply b64url_no_dot.
    rewrite (proj2 (String.eqb_neq _ _) Hh0), (proj2 (String.eqb_neq _ _) Hp0). done.
  - by rewrite !all_chars_app, (b64url_graphic h), (b64url_graphic p), (b64url_graphic s).
Qed.

Lemma token_issue_parts signer kid c tok :
  token_issue signer kid c = Ok tok ->
  exists sig, tok = b64url_encode (json_to_vec (JObj (token_head signer kid))) +:+ "."
                    +:+ b64url_encode (json_to_vec (JObj c)) +:+ "." +:+ b64url_encode sig /\
    check_signature (verifier_of signer) (signing_input (token_head signer kid) c) sig = true.
Proof.
  unfold token_issue. intros H. apply result_bind_Ok in H as (sig & Hs & [= <-]). exists sig.
  split; [unfold signing_input; by rewrite !string_app_assoc|].
  destruct signer as [seed|key]; cbn [verifier_of check_signature].
  - unfold op_ed25519_sign, ed25519_signing_key in Hs. destruct (_ =? 32)%nat; [|done].
    rewrite bind_Ok in Hs. injection Hs as <-. unfold op_ed25519_verify. rewrite ed25519_sign_length. simpl.
    apply ed25519_signed.
  - injection Hs as <-. unfold hmac_verify, hmac. by rewrite bool_decide_true.
Qed.

Lemma token_head_ok signer kid :
  (forall k, kid = Some k -> is_str k) -> json_ok (JObj (token_head signer kid)) = true /\
  obj_get "alg" (token_head signer kid) = Some (JStr (signer_alg signer)).
Proof.
  intros Hk. unfold token_head, insert_str.
  assert (H0 : json_ok (JObj [("alg", JStr (signer_alg signer)); ("typ", JStr "JWT")]) = true) by by destruct signer.
  destruct kid as [k|]; [|done]. split.
  - apply obj_ok_insert; [done|reflexivity|]. simpl. unfold str_ok. rewrite bool_decide_true; auto.
  - by rewrite obj_get_insert_ne.
Qed.

(** Verifying an issued token comes down to its timing and audience. *)
Lemma token_verify_issued signer kid c tok t aud :
  token_issue signer kid c = Ok tok -> json_ok (JObj c) = true -> (forall k, kid = Some k -> is_str k) ->
  token_verify tok (verifier_of signer) t aud =
    (_ ← check_exp t c; _ ← check_nbf t c; _ ← check_aud aud c; Ok c).
Proof.
  intros Hi Hc Hk. apply token_issue_parts in Hi as (sig & -> & Hsig).
  destruct (token_head_ok signer kid Hk) as [Hhd Halg]. unfold token_verify.
  rewrite token_parts_join by (apply b64url_alphabet || (apply b64url_nonempty, json_vec_nonempty)).
  rewrite bind_Ok. cbv beta iota.
  rewrite (token_json_encoded (token_head signer kid)) by done. rewrite bind_Ok. cbv zeta beta. rewrite Halg.
  change (default "" (Some (JStr (signer_alg signer)) ≫= as_str)) with (signer_alg signer).
  assert ((signer_alg signer =? TokenVerifier_alg (verifier_of signer))%string = true) as ->
    by by destruct signer. cbn [negb]. rewrite b64url_roundtrip. cbn [ok_or]. rewrite bind_Ok. cbv beta.
  change (b64url_encode (json_to_vec (JObj (token_head signer kid))) +:+ "." +:+ b64url_encode (json_to_vec (JObj c)))
    with (signing_input (token_head signer kid) c).
  rewrite Hsig. cbn [negb]. by rewrite token_json_encoded, bind_Ok.
Qed.

Definition request_ok (req : TokenRequest) : Prop :=
  json_ok (JObj (tr_claims req)) = true /\ is_str_opt (tr_subject req) /\ is_str_opt (tr_audience req) /\
  is_str_opt (tr_issuer req).

Lemma insert_str_ok k o m :
  json_ok (JObj m) = true -> is_str k -> is_str_opt o -> json_ok (JObj (insert_str k o m)) = true.
Proof.
  intros Hm Hk Ho. destruct o as [s|]; [|done]. apply obj_ok_insert; [done..|]. cbn [json_ok]. unfold str_ok.
  by rewrite bool_decide_true.
Qed.

Lemma wrap_i64_range z : i64_min <= wrap_i64 z <= u64_max.
Proof.
  unfold wrap_i64, wrap_signed, i64_min, u64_max. pose proof (Z.mod_pos_bound (z + 2 ^ (64 - 1)) (2 ^ 64)). lia.
Qed.

Lemma json_num_ok z : json_ok (JNum (wrap_i64 z)) = true.
Proof. pose proof (wrap_i64_range z). cbn [json_ok]. lia. Qed.

(** The claims made: what [iat], [exp] and [nbf] are, whatever the caller
    supplied, and that the rest is carried over. *)
Lemma token_claims_spec req now jti c :
  token_claims req now jti = Ok c ->
  1 <= tr_ttl_secs req <= TOKEN_MAX_TTL_SECS /\
  obj_get "exp" c = Some (JNum (wrap_i64 (now + tr_ttl_secs req))) /\
  obj_get "iat" c = Some (JNum now) /\
  obj_get "nbf" c = (n ← tr_not_before_secs req; Some (JNum (wrap_i64 (now + n)))) /\
  (forall n, tr_not_before_secs req = Some n -> 0 <= n).
Proof.
  unfold token_claims. destruct (_ || _) eqn:Et; [done|]. apply orb_false_iff in Et as [H1 H2].
  set (c0 := insert_str "iss" _ _). intros H. apply result_bind_Ok in H as (c1 & H & [= <-]). split; [lia|].
  rewrite !(obj_get_insert_ne _ "jti") by done.
  destruct (tr_not_before_secs req) as [n|].
  - destruct (Z.ltb_spec n 0); [done|]. injection H as <-.
    rewrite !(obj_get_insert_ne _ "nbf"), obj_get_insert, (obj_get_insert_ne _ "exp"), obj_get_insert by done.
    rewrite (obj_get_insert "nbf"). split; [done|]. split; [done|]. split; [done|]. by intros ? [= <-].
  - injection H as <-. rewrite !obj_get_remove_ne, obj_get_insert, (obj_get_insert_ne _ "exp"), obj_get_insert by done.
    by rewrite obj_get_remove.
Qed.

(** Claims [c] as a request asks for them: the registered ones from its fields
    and the clock, the others as supplied. *)
Definition claims_as_asked (req : TokenRequest) (now : Z) (c : JsonMap) : Prop :=
  let given k (o : option string) := match o with Some s => Some (JStr s) | None => obj_get k (tr_claims req) end in
  obj_get "sub" c = given "sub" (tr_subject req) /\ obj_get "aud" c = given "aud" (tr_audience req) /\
  obj_get "iss" c = given "iss" (tr_issuer req) /\
  obj_get "iat" c = Some (JNum now) /\ obj_get "exp" c = Some (JNum (now + tr_ttl_secs req)) /\
  obj_get "nbf" c = (n ← tr_not_before_secs req; Some (JNum (now + n))) /\
  (exists id, obj_get "jti" c = Some (JStr id)) /\
  forall k, k ∉ ["sub"; "aud"; "iss"; "iat"; "exp"; "nbf"; "jti"] -> obj_get k c = obj_get k (tr_claims req).

Lemma obj_get_insert_str k o m :
  obj_get k (insert_str k o m) = match o with Some s => Some (JStr s) | None => obj_get k m end.
Proof. destruct o; [apply obj_get_insert|done]. Qed.

Lemma obj_get_insert_str_ne k k' o m : k <> k' -> obj_get k (insert_str k' o m) = obj_get k m.
Proof. destruct o; [apply obj_get_insert_ne|done]. Qed.

Lemma token_claims_asked req now jti c :
  token_claims req now jti = Ok c -> 0 <= now <= 2 ^ 61 -> (forall n, tr_not_before_secs req = Some n -> n <= 2 ^ 61) ->
  claims_as_asked req now c.
Proof.
  intros Hc Hnow Hoff. pose proof (token_claims_spec _ _ _ _ Hc) as ([H1 H2] & Hexp & Hiat & Hnbf & Hpos).
  unfold TOKEN_MAX_TTL_SECS in H2. rewrite wrap_i64_id in Hexp by (unfold i64_min, i64_max; lia).
  assert (Hget : forall k, k <> "exp" -> k <> "iat" -> k <> "nbf" -> k <> "jti" ->
    obj_get k c = obj_get k (insert_str "iss" (tr_issuer req) (insert_str "aud" (tr_audience req)
                               (insert_str "sub" (tr_subject req) (tr_claims req))))).
  { intros k K1 K2 K3 K4. unfold token_claims in Hc. destruct (_ || _); [done|].
    apply result_bind_Ok in Hc as (c1 & Hc & [= <-]). rewrite obj_get_insert_ne by done.
    destruct (tr_not_before_secs req) as [n|]; [destruct (n <? 0); [done|]|]; injection Hc as <-;
      rewrite ?obj_get_remove_ne, !obj_get_insert_ne by done; done. }
  unfold claims_as_asked. cbv zeta. rewrite Hexp, Hiat. split_and!.
  1-3: rewrite Hget by done; by rewrite ?obj_get_insert_str_ne, obj_get_insert_str, ?obj_get_insert_str_ne by done.
  1-2: done.
  - rewrite Hnbf. destruct (tr_not_before_secs req) as [n|]; [|done]. cbn [mbind option_bind].
    rewrite wrap_i64_id; [done|]. specialize (Hoff n eq_refl). specialize (Hpos n eq_refl). unfold i64_min, i64_max. lia.
  - unfold token_claims in Hc. destruct (_ || _); [done|]. apply result_bind_Ok in Hc as (c1 & _ & [= <-]).
    eexists. apply obj_get_insert.
  - intros k Hk. rewrite !not_elem_of_cons in Hk. destruct Hk as (K1 & K2 & K3 & K4 & K5 & K6 & K7 & _).
    rewrite Hget by done. by rewrite !obj_get_insert_str_ne by done.
Qed.

Lemma token_claims_ok req now jti c :
  token_claims req now jti = Ok c -> request_ok req -> i64_min <= now <= i64_max -> json_ok (JObj c) = true.
Proof.
  intros H (Hc & Hs & Ha & Hi) Hnow. unfold token_claims in H. destruct (_ || _); [done|].
  assert (Hn : json_ok (JNum now) = true) by (cbn [json_ok]; unfold i64_min, i64_max, u64_max in *; lia).
  assert (Hbase : json_ok (JObj (obj_insert "exp" (JNum (wrap_i64 (now + tr_ttl_secs req)))
            (obj_insert "iat" (JNum now) (insert_str "iss" (tr_issuer req) (insert_str "aud" (tr_audience req)
               (insert_str "sub" (tr_subject req) (tr_claims req))))))) = true).
  { apply obj_ok_insert; [|reflexivity|apply json_num_ok]. apply obj_ok_insert; [|reflexivity|done].
    by repeat apply insert_str_ok. }
  apply result_bind_Ok in H as (c1 & H & [= <-]). apply obj_ok_insert; [|reflexivity|].
  - destruct (tr_not_before_secs req) as [n|].
    + destruct (n <? 0); [done|]. injection H as <-. apply obj_ok_insert; [done|reflexivity|apply json_num_ok].
    + injection H as <-. by apply obj_ok_remove.
  - cbn [json_ok]. unfold str_ok. apply bool_decide_eq_true. apply ascii_is_str.
    eapply all_chars_impl; [|apply b64url_alphabet]. intros a [Hr _]%b64url_char_cases. unfold is_ascii. lia.
Qed.
End tokens.

(** An issued token verifies under the signer's key exactly from sixty
    seconds before its not-before time until sixty seconds after the end of the
    lifetime asked for, and then yields the claims issued; [exp] is the issue
    time plus that lifetime whatever the caller's own claims say. (Times far
    from the ends of i64, so that no sum wraps.) *)
Theorem token_lifetime {P : Primitives} {L : PrimitiveLaws P} {O : OpsLib} {OL : OpsLaws P O}
    req now jti c signer kid tok t :
  token_claims req now jti = Ok c -> request_ok req -> 0 <= now <= 2 ^ 61 -> 0 <= t <= 2 ^ 61 ->
  (forall n, tr_not_before_secs req = Some n -> n <= 2 ^ 61) ->
  (forall k, kid = Some k -> is_str k) -> token_issue signer kid c = Ok tok ->
  obj_get "exp" c = Some (JNum (now + tr_ttl_secs req)) /\
  (token_verify tok (verifier_of signer) t None = Ok c <->
     t <= now + tr_ttl_secs req + 60 /\ forall n, tr_not_before_secs req = Some n -> now + n <= t + 60) /\
  (forall c', token_verify tok (verifier_of signer) t None = Ok c' -> c' = c).
Proof.
  intros Hc Hreq Hnow Ht Hnb Hk Hi.
  assert (Hok : json_ok (JObj c) = true).
  { apply (token_claims_ok _ _ _ _ Hc Hreq). unfold i64_min, i64_max. lia. }
  pose proof (token_claims_spec _ _ _ _ Hc) as ([H1 H2] & Hexp & _ & Hnbf & Hpos).
  unfold TOKEN_MAX_TTL_SECS in H2.
  assert (Hw : forall z, 0 <= z <= 2 ^ 62 + 2 ^ 61 -> wrap_i64 z = z /\ in_range i64_min i64_max z = Some z).
  { intros z Hz. split; [apply wrap_i64_id; unfold i64_min, i64_max; lia|]. unfold in_range, i64_min, i64_max.
    assert ((- 2 ^ 63 <=? z) && (z <=? 2 ^ 63 - 1) = true) as ->; [lia|done]. }
  rewrite (token_verify_issued signer kid c tok t None Hi Hok Hk).
  destruct (Hw (now + tr_ttl_secs req)) as [Hwe Hre]; [lia|]. rewrite Hwe in Hexp. split; [done|].
  assert (He : check_exp t c = if now + tr_ttl_secs req + 60 <? t
                then Err ("expired at " +:+ fmt_unix (now + tr_ttl_secs req)) else Ok tt).
  { unfold check_exp, TOKEN_LEEWAY_SECS. rewrite Hexp. cbn [as_i64]. rewrite Hre. cbn [ok_or]. rewrite bind_Ok.
    by destruct (Hw (now + tr_ttl_secs req + 60)) as [-> _]; [lia|]. }
  assert (Hn : forall n, tr_not_before_secs req = Some n -> check_nbf t c =
            if t + 60 <? now + n then Err ("not valid before " +:+ fmt_unix (now + n)) else Ok tt).
  { intros n Hn. specialize (Hnb n Hn). specialize (Hpos n Hn). rewrite Hn in Hnbf.
    destruct (Hw (now + n)) as [Hwn Hrn]; [lia|].
    unfold check_nbf, TOKEN_LEEWAY_SECS. rewrite Hnbf. cbn [mbind option_bind]. rewrite Hwn. cbn [as_i64]. rewrite Hrn.
    cbn [ok_or]. rewrite bind_Ok. by destruct (Hw (t + 60)) as [-> _]; [lia|]. }
  rewrite He. clear He. destruct (Z.ltb_spec (now + tr_ttl_secs req + 60) t) as [Hlate|Hlate].
  { rewrite bind_Err. split; [|done]. split; [done|]. lia. }
  rewrite bind_Ok. destruct (tr_not_before_secs req) as [n|].
  - rewrite (Hn n eq_refl). destruct (Z.ltb_spec (t + 60) (now + n)) as [Hearly|Hearly].
    + rewrite bind_Err. split; [|done]. split; [done|]. intros [_ H]. specialize (H n eq_refl). lia.
    + rewrite bind_Ok. unfold check_aud. rewrite bind_Ok. split; [|by intros ? [= <-]]. split; [|done]. intros _.
      split; [lia|]. intros ? [= <-]. lia.
  - assert (check_nbf t c = Ok tt) as -> by (unfold check_nbf; by rewrite Hnbf).
    rewrite bind_Ok. unfold check_aud. rewrite bind_Ok. split; [|by intros ? [= <-]]. split; [|done]. intros _.
    split; [lia|done].
Qed.

(** A not-before offset past the end of i64 wraps to the distant past: the
    token is valid at once. *)
Theorem not_before_wraps {P : Primitives} {L : PrimitiveLaws P} {O : OpsLib} {OL : OpsLaws P O}
    req now jti c signer kid tok n :
  token_claims req now jti = Ok c -> request_ok req -> 0 <= now <= 2 ^ 61 ->
  tr_not_before_secs req = Some n -> i64_max - now < n <= i64_max ->
  (forall k, kid = Some k -> is_str k) -> token_issue signer kid c = Ok tok ->
  token_verify tok (verifier_of signer) now None = Ok c.
Proof.
  intros Hc Hreq Hnow Hn Hb Hk Hi.
  assert (Hok : json_ok (JObj c) = true).
  { apply (token_claims_ok _ _ _ _ Hc Hreq). unfold i64_min, i64_max. lia. }
  pose proof (token_claims_spec _ _ _ _ Hc) as ([H1 H2] & Hexp & _ & Hnbf & _). unfold TOKEN_MAX_TTL_SECS in H2.
  rewrite (token_verify_issued signer kid c tok now None Hi Hok Hk). rewrite Hn in Hnbf. cbn [mbind option_bind] in Hnbf.
  assert (Hwn : wrap_i64 (now + n) = now + n - 2 ^ 64).
  { unfold wrap_i64, wrap_signed, i64_max in *.
    rewrite <- (Z.mod_unique_pos (now + n + 2 ^ (64 - 1)) (2 ^ 64) 1 (now + n + 2 ^ (64 - 1) - 2 ^ 64)); lia. }
  assert (He : check_exp now c = Ok tt).
  { unfold check_exp, TOKEN_LEEWAY_SECS. rewrite Hexp. cbn [as_i64].
    rewrite !wrap_i64_id by (rewrite ?wrap_i64_id; unfold i64_min, i64_max; lia). unfold in_range, i64_min, i64_max.
    assert ((- 2 ^ 63 <=? now + tr_ttl_secs req) && (now + tr_ttl_secs req <=? 2 ^ 63 - 1) = true) as -> by lia.
    cbn [ok_or]. rewrite bind_Ok, wrap_i64_id by (unfold i64_min, i64_max; lia).
    by destruct (Z.ltb_spec (now + tr_ttl_secs req + 60) now); [lia|]. }
  assert (Hb' : check_nbf now c = Ok tt).
  { unfold check_nbf, TOKEN_LEEWAY_SECS. rewrite Hnbf, Hwn. cbn [as_i64]. unfold in_range, i64_min, i64_max in *.
    assert ((- 2 ^ 63 <=? now + n - 2 ^ 64) && (now + n - 2 ^ 64 <=? 2 ^ 63 - 1) = true) as -> by lia.
    cbn [ok_or]. rewrite bind_Ok, wrap_i64_id by (unfold i64_min, i64_max; lia).
    by destruct (Z.ltb_spec (now + 60) (now + n - 2 ^ 64)); [lia|]. }
  by rewrite He, bind_Ok, Hb', bind_Ok.
Qed.

(** ** Envelopes *)

Section envelopes.
Context {P : Primitives} {L : PrimitiveLaws P} {O : OpsLib} {OL : OpsLaws P O}.

(** A prefix and a base64 body, read back whatever surrounds it is not. *)
Lemma trim_prefixed p b : all_chars graphic p = true -> trim (p +:+ b64_encode b) = p +:+ b64_encode b.
Proof. intros H. apply trim_graphic. rewrite all_chars_app, H. apply b64_graphic, b64_alphabet. Qed.

Lemma strip_b64_prefixed p b : all_chars graphic p = true -> strip_b64 (p +:+ b64_encode b) p = Ok b.
Proof.
  intros H. unfold strip_b64. rewrite trim_prefixed, strip_prefix_app by done. cbn [ok_or].
  by rewrite bind_Ok, b64_roundtrip.
Qed.

Lemma parse_versioned_text v b : 1 <= v < 2 ^ 31 -> parse_versioned (versioned v b) = Ok (v, b).
Proof.
  intros Hv. destruct (show_Z_digits v ltac:(lia)) as [Hd _]. unfold parse_versioned, versioned.
  rewrite trim_graphic.
  2: { rewrite !all_chars_app, (b64_graphic (b64_encode b)) by apply b64_alphabet. by rewrite (digits_graphic _ Hd). }
  rewrite strip_prefix_app. cbn [ok_or]. rewrite bind_Ok.
  change (":" +:+ b64_encode b) with (String ":" (b64_encode b)).
  rewrite split_once_app by (by apply (has_char_all _ _ _ Hd)). cbn [ok_or]. rewrite bind_Ok. cbv beta iota.
  rewrite parse_i32_show by lia. cbn [ok_or]. rewrite bind_Ok. destruct (Z.ltb_spec v 1); [lia|].
  by rewrite b64_roundtrip.
Qed.

Lemma be_value_2 n : 0 <= n <= 65535 -> be_value (be_bytes 2 n) = n.
Proof. intros H. rewrite be_value_be_bytes. apply Z.mod_small. change (256 ^ Z.of_nat 2) with 65536. lia. Qed.

Lemma datakey_parse_seal nonce pt dek wrapped aad env :
  length nonce = 12%nat -> is_str wrapped -> datakey_seal nonce pt dek wrapped aad = Ok env ->
  exists sealed, aead_seal_aad nonce pt dek aad = Ok sealed /\ datakey_parse env = Ok (wrapped, sealed).
Proof.
  intros Hn Hw H. unfold datakey_seal in H. apply result_bind_Ok in H as (len & Hlen & H).
  apply result_bind_Ok in H as (sealed & Hs & H).
  assert (env = DATAKEY_PREFIX +:+ b64_encode (DATAKEY_MAGIC ++ be_bytes 2 len ++ as_bytes wrapped ++ sealed)) as ->
    by congruence. exists sealed.
  destruct (aead_seal_aad nonce pt dek aad) as [s|e]; [|done]. injection Hs as ->. split; [done|].
  unfold in_range in Hlen. destruct (_ && _) eqn:El; [|done]. injection Hlen as <-.
  apply andb_true_iff in El as [_ El%Z.leb_le].
  unfold datakey_parse. rewrite strip_b64_prefixed by reflexivity. rewrite bind_Ok. cbv beta zeta.
  change (length DATAKEY_MAGIC) with 5%nat. set (w := as_bytes wrapped) in *.
  set (buf := DATAKEY_MAGIC ++ be_bytes 2 (Z.of_nat (length w)) ++ w ++ sealed).
  assert (Hlb : length buf = (7 + length w + length sealed)%nat).
  { unfold buf. rewrite !length_app, be_bytes_length. change (length DATAKEY_MAGIC) with 5%nat. lia. }
  assert ((length buf <? 5 + 2)%nat = false) as -> by (apply Nat.ltb_ge; lia).
  assert (Ht : take 5 buf = DATAKEY_MAGIC) by by apply take_app_length'.
  rewrite Ht, bool_decide_true by done. cbn [negb orb].
  assert (Hd : drop 5 buf = be_bytes 2 (Z.of_nat (length w)) ++ w ++ sealed) by by apply drop_app_length'.
  rewrite Hd, take_app_length' by (by rewrite be_bytes_length). rewrite be_value_2 by lia. rewrite Nat2Z.id.
  assert (Hd7 : drop (5 + 2) buf = w ++ sealed).
  { rewrite <- drop_drop, Hd. apply drop_app_length'. by rewrite be_bytes_length. }
  assert ((length buf <? 5 + 2 + length w)%nat = false) as -> by (apply Nat.ltb_ge; lia).
  rewrite <- (drop_drop buf (length w) (5 + 2)), Hd7, take_app_length', drop_app_length' by done.
  unfold w. rewrite Hw. done.
Qed.
End envelopes.

Section roundtrips.
Context {P : Primitives} {L : PrimitiveLaws P} {O : OpsLib} {OL : OpsLaws P O}.

(** One line of printable text, as envelopes are. *)
Definition is_line (e : string) : Prop := all_chars graphic e = true.

Lemma prefixed_line p b : all_chars graphic p = true -> is_line (p +:+ b64_encode b).
Proof. intros H. unfold is_line. rewrite all_chars_app, H. apply b64_graphic, b64_alphabet. Qed.

Lemma versioned_line v b : 1 <= v -> is_line (versioned v b).
Proof.
  intros Hv. destruct (show_Z_digits v ltac:(lia)) as [Hd _]. unfold is_line, versioned.
  by rewrite !all_chars_app, (b64_graphic (b64_encode b) (b64_alphabet b)), (digits_graphic _ Hd).
Qed.

Lemma sealed_opens nonce pt k aad s :
  length nonce = 12%nat -> aead_seal_aad nonce pt k aad = Ok s -> map_err open_err (aead_open_aad s k aad) = Ok pt.
Proof. intros Hn Hs. by rewrite (aead_aad_roundtrip nonce pt k aad s Hn Hs). Qed.

(** The sealing step of every format. *)
Lemma seal_prefixed nonce pt k aad p e :
  (s ← map_err crypto_msg (aead_seal_aad nonce pt k aad); Ok (p +:+ b64_encode s)) = Ok e ->
  exists s, aead_seal_aad nonce pt k aad = Ok s /\ e = p +:+ b64_encode s.
Proof. destruct (aead_seal_aad nonce pt k aad) as [s|]; [|done]. intros [= <-]. by exists s. Qed.

Lemma passphrase_roundtrip salt nonce pt pass aad e :
  length nonce = 12%nat -> length salt = PASSPHRASE_SALT_LEN -> passphrase_seal salt nonce pt pass aad = Ok e ->
  is_line e /\ detect e = Some KPassphrase /\ passphrase_open e pass aad = Ok pt.
Proof.
  intros Hn Hsalt H. unfold passphrase_seal in H. apply result_bind_Ok in H as (k & Hk & H).
  apply result_bind_Ok in H as (s & Hs & H). destruct (aead_seal_aad _ _ _ _) as [s'|] eqn:E; [|done]. injection Hs as ->. rename E into Hs.
  assert (e = PASSPHRASE_PREFIX +:+ b64_encode (PASSPHRASE_MAGIC ++ salt ++ s)) as -> by congruence.
  split; [by apply prefixed_line|]. split; [reflexivity|]. unfold passphrase_open.
  rewrite strip_b64_prefixed by reflexivity. rewrite bind_Ok. cbv beta zeta.
  change (length PASSPHRASE_MAGIC) with 5%nat. change (5 + PASSPHRASE_SALT_LEN)%nat with 21%nat.
  pose proof (aead_seal_aad_inv _ _ _ _ _ Hs) as (_ & ct & _ & Hsl). unfold PASSPHRASE_SALT_LEN in Hsalt.
  assert (Hlen : length (PASSPHRASE_MAGIC ++ salt ++ s) = (21 + length s)%nat).
  { rewrite !length_app, Hsalt. change (length PASSPHRASE_MAGIC) with 5%nat. lia. }
  assert ((length (PASSPHRASE_MAGIC ++ salt ++ s) <=? 21)%nat = false) as ->.
  { apply Nat.leb_gt. rewrite Hlen, Hsl, length_app, Hn. lia. }
  rewrite take_app_length' by done. rewrite bool_decide_true by done. cbn [negb orb].
  assert (take 21 (PASSPHRASE_MAGIC ++ salt ++ s) = PASSPHRASE_MAGIC ++ salt) as ->.
  { rewrite app_assoc. apply take_app_length'. by rewrite length_app, Hsalt. }
  assert (drop 5 (PASSPHRASE_MAGIC ++ salt) = salt) as -> by by apply drop_app_length'. rewrite Hk, bind_Ok.
  rewrite app_assoc, drop_app_length' by by rewrite length_app, Hsalt.
  by eapply sealed_opens.
Qed.

Lemma cmk_roundtrip nonce pt cmk aad e :
  length nonce = 12%nat -> cmk_seal nonce pt cmk aad = Ok e ->
  is_line e /\ detect e = Some KCmk /\ cmk_open e cmk aad = Ok pt.
Proof.
  intros Hn H. apply seal_prefixed in H as (s & Hs & ->). split; [by apply prefixed_line|]. split; [reflexivity|].
  unfold cmk_open. rewrite strip_b64_prefixed by reflexivity. rewrite bind_Ok. by eapply sealed_opens.
Qed.

Lemma rawkey_roundtrip nonce pt key aad e :
  length nonce = 12%nat -> rawkey_seal nonce pt key aad = Ok e ->
  is_line e /\ detect e = Some KRawKey /\ rawkey_open e key aad = Ok pt.
Proof.
  intros Hn H. apply seal_prefixed in H as (s & Hs & ->). split; [by apply prefixed_line|]. split; [reflexivity|].
  unfold rawkey_open. rewrite strip_b64_prefixed by reflexivity. rewrite bind_Ok. by eapply sealed_opens.
Qed.

Lemma datakey_roundtrip nonce pt key wrapped aad e :
  length nonce = 12%nat -> is_str wrapped -> datakey_seal nonce pt key wrapped aad = Ok e ->
  is_line e /\ detect e = Some KDataKey /\
  exists sealed, datakey_parse e = Ok (wrapped, sealed) /\ datakey_open sealed key aad = Ok pt.
Proof.
  intros Hn Hw H. destruct (datakey_parse_seal _ _ _ _ _ _ Hn Hw H) as (s & Hs & Hp).
  unfold datakey_seal in H. apply result_bind_Ok in H as (len & _ & H). apply result_bind_Ok in H as (s' & _ & H).
  injection H as <-. split; [by apply prefixed_line|]. split; [reflexivity|].
  exists s. split; [done|]. by eapply sealed_opens.
Qed.
End roundtrips.

(** Whatever a local envelope was sealed with opens it to the plaintext,
    and its prefix tells the kinds apart: passphrase, profile master key, raw
    key and wrapped data key. A managed key's output reads back as its version
    and bytes. *)
Theorem envelopes_roundtrip {P : Primitives} {L : PrimitiveLaws P} {O : OpsLib} {OL : OpsLaws P O}
    salt nonce pt pass cmk key wrapped aad e1 e2 e3 e4 v :
  length nonce = 12%nat -> length salt = PASSPHRASE_SALT_LEN -> is_str wrapped -> 1 <= v < 2 ^ 31 ->
  passphrase_seal salt nonce pt pass aad = Ok e1 -> cmk_seal nonce pt cmk aad = Ok e2 ->
  rawkey_seal nonce pt key aad = Ok e3 -> datakey_seal nonce pt key wrapped aad = Ok e4 ->
  (detect e1 = Some KPassphrase /\ passphrase_open e1 pass aad = Ok pt) /\
  (detect e2 = Some KCmk /\ cmk_open e2 cmk aad = Ok pt) /\
  (detect e3 = Some KRawKey /\ rawkey_open e3 key aad = Ok pt) /\
  (detect e4 = Some KDataKey /\ exists sealed, datakey_parse e4 = Ok (wrapped, sealed) /\
     datakey_open sealed key aad = Ok pt) /\
  (detect (versioned v pt) = Some KManaged /\ parse_versioned (versioned v pt) = Ok (v, pt)).
Proof.
  intros Hn Hsalt Hw Hv H1 H2 H3 H4.
  split; [by eapply passphrase_roundtrip|]. split; [by eapply cmk_roundtrip|]. split; [by eapply rawkey_roundtrip|].
  split; [by eapply datakey_roundtrip|]. split; [reflexivity|]. by apply parse_versioned_text.
Qed.

(** ** Key files *)

Definition pem_char (a : Ascii.ascii) : bool := b64_char a || Ascii.eqb a "010"%char.

Fixpoint drop_nl (s : string) : string :=
  match s with "" => "" | String a s' => if Ascii.eqb a "010"%char then drop_nl s' else String a (drop_nl s') end.

Lemma drop_nl_app s t : drop_nl (s +:+ t) = drop_nl s +:+ drop_nl t.
Proof. induction s as [|a s IH]; [done|]. rewrite string_app_cons. simpl. destruct (Ascii.eqb _ _); by rewrite IH. Qed.

Lemma drop_nl_b64 s : all_chars b64_char s = true -> drop_nl s = s.
Proof.
  induction s as [|a s IH]; [done|]. cbn [all_chars drop_nl]. intros [Ha Hs]%andb_true_iff. rewrite IH by done.
  destruct (Ascii.eqb_spec a "010"%char) as [->|]; done.
Qed.

Lemma all_chars_substring f n m s : all_chars f s = true -> all_chars f (String.substring n m s) = true.
Proof.
  revert n m. induction s as [|a s IH]; intros [|n] [|m] H; try done; simpl in *;
    apply andb_true_iff in H as [Ha Hs]; rewrite ?Ha; by apply IH.
Qed.

Lemma substring_all s : String.substring 0 (String.length s) s = s.
Proof. induction s as [|a s IH]; [done|]. simpl. by rewrite IH. Qed.

Lemma substring_split n s : String.substring 0 n s +:+ String.substring n (String.length s - n) s = s.
Proof.
  revert n. induction s as [|a s IH]; intros [|n]; [done..| |].
  - rewrite Nat.sub_0_r, substring_all. reflexivity.
  - simpl. rewrite string_app_cons. by rewrite IH.
Qed.

Lemma substring_length n s : String.length (String.substring n (String.length s - n) s) = (String.length s - n)%nat.
Proof.
  revert n. induction s as [|a s IH]; intros [|n]; [done..| |apply IH].
  by rewrite Nat.sub_0_r, substring_all.
Qed.

Lemma drop_nl_pem_lines n s :
  all_chars b64_char s = true -> (String.length s <= n)%nat ->
  drop_nl (pem_lines n s) = s /\ all_chars pem_char (pem_lines n s) = true.
Proof.
  revert s. induction n as [|n IH]; intros [|a s] Hs Hl; try done; [simpl in Hl; lia|].
  set (t := String a s) in *. change (pem_lines (S n) t) with
    (String.substring 0 64 t +:+ nl +:+ pem_lines n (String.substring 64 (String.length t - 64) t)).
  destruct (IH (String.substring 64 (String.length t - 64) t)) as [H1 H2].
  { by apply all_chars_substring. }
  { rewrite substring_length. unfold t in *. simpl in *. lia. }
  rewrite !drop_nl_app, !all_chars_app, H1, H2. split.
  - rewrite drop_nl_b64 by by apply all_chars_substring. apply substring_split.
  - rewrite (all_chars_impl b64_char); [done| |by apply all_chars_substring].
    unfold pem_char. intros b ->. done.
Qed.

Lemma concat_cons x l : String.concat "" (x :: l) = x +:+ String.concat "" l.
Proof. destruct l as [|y l]; simpl; [by rewrite string_app_nil_r|done]. Qed.

Lemma remove_whitespace_pem s : all_chars pem_char s = true -> remove_whitespace s = drop_nl s.
Proof.
  intros H. unfold remove_whitespace, split_whitespace.
  assert (Hcur : forall cur, String.concat "" (split_ws_aux 0 cur s) = cur +:+ drop_nl s); [|by rewrite Hcur].
  induction s as [|a s IH]; intros cur.
  { simpl. rewrite string_app_nil_r. by destruct (String.eqb_spec cur "") as [->|]. }
  cbn [all_chars] in H. apply andb_true_iff in H as [Ha Hs]. cbn [split_ws_aux drop_nl].
  destruct (Ascii.eqb_spec a "010"%char) as [->|Hne].
  - change (ws_len (String "010" s)) with 1%nat. cbv iota.
    destruct (String.eqb_spec cur "") as [->|]; cbn [app]; rewrite ?concat_cons, IH by done; done.
  - rewrite ws_len_graphic.
    + rewrite IH by done. by rewrite string_app_assoc.
    + unfold pem_char in Ha. apply orb_true_iff in Ha as [Ha|Ha%Ascii.eqb_eq]; [|done].
      apply b64_char_cases in Ha as [Ha _]. unfold graphic. lia.
Qed.

Lemma find_split_here sub rest : find_split sub (sub +:+ rest) = Some ("", rest).
Proof.
  assert (Hu : forall s a, strip_prefix sub s = Some a -> find_split sub s = Some ("", a)).
  { intros [|x s] a Ha; simpl; by rewrite Ha. }
  apply Hu, strip_prefix_app.
Qed.

Lemma find_split_skip c sub body rest :
  has_char c body = false ->
  find_split (String c sub) (body +:+ rest) = '(b, a) ← find_split (String c sub) rest; Some (body +:+ b, a).
Proof.
  induction body as [|x body IH]; intros H.
  - rewrite string_app_nil_l. destruct (find_split _ rest) as [[b a]|]; done.
  - cbn [has_char] in H. apply orb_false_iff in H as [Hx Hb]. rewrite string_app_cons. cbn [find_split].
    assert (strip_prefix (String c sub) (String x (body +:+ rest)) = None) as ->.
    { unfold strip_prefix. destruct (Ascii.eqb_spec c x) as [->|]; [by rewrite Ascii.eqb_refl in Hx|done]. }
    rewrite IH by done. by destruct (find_split _ rest) as [[b a]|].
Qed.

Section key_files.
Context {P : Primitives} {L : PrimitiveLaws P} {O : OpsLib} {OL : OpsLaws P O}.

(** The lines of a PEM block. *)
Definition pem_block (der : bytes) : string := nl +:+ pem_lines (String.length (b64_encode der)) (b64_encode der).

Lemma pem_block_chars der :
  all_chars pem_char (pem_block der) = true /\ remove_whitespace (pem_block der) = b64_encode der.
Proof.
  destruct (drop_nl_pem_lines (String.length (b64_encode der)) (b64_encode der) (b64_alphabet der) (le_n _)) as [H1 H2].
  unfold pem_block. split; [by rewrite all_chars_app, H2|].
  rewrite remove_whitespace_pem by (by rewrite all_chars_app, H2). by rewrite drop_nl_app, H1.
Qed.

Lemma pem_block_no_dash der : has_char "-"%char (pem_block der) = false.
Proof. by apply (has_char_all _ _ _ (proj1 (pem_block_chars der))). Qed.

Lemma pem_wrap_block label der :
  pem_wrap label der = ("-----BEGIN " +:+ label +:+ "-----") +:+ pem_block der
                       +:+ ("-----END " +:+ label +:+ "-----") +:+ nl.
Proof. unfold pem_wrap, pem_block. by rewrite !string_app_assoc. Qed.

Lemma pem_body_wrap label der : pem_body (pem_wrap label der) label = Some der.
Proof.
  unfold pem_body. rewrite pem_wrap_block, find_split_here. cbn [mbind option_bind].
  change ("-----END " +:+ label +:+ "-----") with (String "-" ("----END " +:+ label +:+ "-----")).
  rewrite find_split_skip by apply pem_block_no_dash. rewrite find_split_here. cbn [mbind option_bind].
  rewrite string_app_nil_r, (proj2 (pem_block_chars der)). apply b64_roundtrip.
Qed.

Lemma pem_wrap_text label der :
  all_chars is_ascii label = true ->
  json_object (pem_wrap label der) = None /\ from_utf8 (as_bytes (pem_wrap label der)) = Some (pem_wrap label der).
Proof.
  intros Hl. rewrite pem_wrap_block. split.
  - unfold json_object. pose proof (json_not_pem ((" " +:+ label +:+ "-----") +:+ pem_block der
      +:+ ("-----END " +:+ label +:+ "-----") +:+ nl)) as H. rewrite !string_app_assoc in *.
    change (as_bytes ("-----BEGIN " +:+ ?x)) with (as_bytes ("-----BEGIN" +:+ " " +:+ x)). by rewrite H.
  - apply ascii_is_str. rewrite !all_chars_app, Hl.
    assert (all_chars is_ascii (pem_block der) = true) as ->; [|done].
    eapply all_chars_impl; [|apply pem_block_chars]. intros a. unfold pem_char, is_ascii.
    intros [[Ha _]%b64_char_cases| ->%Ascii.eqb_eq]%orb_true_iff; [lia|done].
Qed.

Lemma find_split_none_step sub a s :
  strip_prefix sub (String a s) = None -> find_split sub s = None -> find_split sub (String a s) = None.
Proof. intros H1 H2. cbn [find_split]. by rewrite H1, H2. Qed.

Lemma private_pem_is_not_public der : pem_body (pem_wrap "PRIVATE KEY" der) "PUBLIC KEY" = None.
Proof.
  unfold pem_body. rewrite pem_wrap_block.
  assert (find_split ("-----BEGIN " +:+ "PUBLIC KEY" +:+ "-----")
            (("-----BEGIN " +:+ "PRIVATE KEY" +:+ "-----") +:+ pem_block der
             +:+ ("-----END " +:+ "PRIVATE KEY" +:+ "-----") +:+ nl) = None) as ->; [|done].
  assert (Ht : find_split ("-----BEGIN " +:+ "PUBLIC KEY" +:+ "-----")
            (pem_block der +:+ ("-----END " +:+ "PRIVATE KEY" +:+ "-----") +:+ nl) = None).
  { change ("-----BEGIN " +:+ "PUBLIC KEY" +:+ "-----") with (String "-" ("----BEGIN " +:+ "PUBLIC KEY" +:+ "-----")).
    rewrite find_split_skip by apply pem_block_no_dash. reflexivity. }
  revert Ht. unfold pem_block. rewrite (string_app_assoc nl).
  generalize (pem_lines (String.length (b64_encode der)) (b64_encode der)
              +:+ ("-----END " +:+ "PRIVATE KEY" +:+ "-----") +:+ nl).
  intros X HX. repeat (apply find_split_none_step; [reflexivity|]; try exact HX).
Qed.

Lemma b64_32 b : length b = 32%nat -> b64_decode (b64_encode b) ≫= array32 = Some b.
Proof. intros H. rewrite b64_roundtrip. simpl. unfold array32. by rewrite H. Qed.
Lemma b64_str_ok b : str_ok (b64_encode b) = true.
Proof.
  apply bool_decide_eq_true, ascii_is_str. eapply all_chars_impl; [|apply b64_alphabet].
  intros a [Ha _]%b64_char_cases. unfold is_ascii. lia.
Qed.

Lemma public_of_secret secret : length secret = 32%nat -> op_ed25519_public secret = Ok (ed25519_public secret).
Proof. intros Hl. unfold op_ed25519_public, ed25519_signing_key. by rewrite Hl. Qed.

(** A private PEM, whatever key type is expected. *)
Lemma parse_private_pem secret hint :
  length secret = 32%nat ->
  parse_local_key (as_bytes (ed25519_private_pem secret)) hint = Ok (MkLocalKey Ed25519 secret).
Proof.
  intros Hl. unfold parse_local_key, ed25519_private_pem.
  destruct (pem_wrap_text "PRIVATE KEY" (ED25519_PKCS8_PREFIX ++ secret) eq_refl) as [Hj Hu].
  rewrite Hu, Hj, pem_body_wrap. unfold local_key_of_pem, KEY_LEN. rewrite length_app, Hl.
  by rewrite take_app_length', drop_app_length' by done.
Qed.

(** The members of a JSON key file. *)
Lemma parse_public_pem pk : length pk = 32%nat -> parse_public_key (ed25519_public_pem pk) = Ok pk.
Proof.
  intros Hl. unfold parse_public_key, ed25519_public_pem.
  destruct (pem_wrap_text "PUBLIC KEY" (ED25519_SPKI_PREFIX ++ pk) eq_refl) as [-> _].
  cbn [mbind option_bind]. rewrite pem_body_wrap. unfold public_of_pem. rewrite length_app, Hl.
  rewrite take_app_length', drop_app_length' by done. done.
Qed.

Lemma local_key_members t secret :
  length secret = 32%nat ->
  exists m, local_key_json t secret = json_pretty (JObj m) +:+ nl /\ json_ok (JObj m) = true /\
    obj_get "type" m = Some (JStr (KeyType_as_str t)) /\ obj_get "secret" m = Some (JStr (b64_encode secret)) /\
    (t = Ed25519 -> obj_get "public" m = Some (JStr (b64_encode (ed25519_public secret)))).
Proof.
  intros Hl. unfold local_key_json, public_key. rewrite (public_of_secret secret Hl).
  assert (Hok : forall k pub, k = KeyType_as_str t -> (forall p, pub = Some p -> str_ok p = true) ->
    json_ok (JObj ([("blackbook_key", JNum 1)] ++ match pub with Some p => [("public", JStr p)] | None => [] end ++
      [("secret", JStr (b64_encode secret)); ("type", JStr k)])) = true).
  { intros k pub -> Hp. destruct pub as [p|]; cbn [app json_ok forallb fst snd];
      rewrite ?(Hp p eq_refl), b64_str_ok; by destruct t. }
  destruct t; eexists; (split; [reflexivity|]).
  - split; [apply (Hok _ None); done|done].
  - split; [apply (Hok _ (Some (b64_encode (ed25519_public secret)))); [done|]|done].
    intros ? [= <-]. apply b64_str_ok.
  - split; [apply (Hok _ None); done|done].
Qed.

Lemma parse_key_json t secret hint :
  length secret = 32%nat ->
  parse_local_key (as_bytes (local_key_json t secret)) hint = Ok (MkLocalKey t secret).
Proof.
  intros Hl. destruct (local_key_members t secret Hl) as (m & -> & Hm & Ht & Hs & _). unfold parse_local_key.
  assert (from_utf8 (as_bytes (json_pretty (JObj m) +:+ nl)) = Some (json_pretty (JObj m) +:+ nl)) as ->
    by by apply json_pretty_is_str.
  unfold json_object. rewrite json_pretty_roundtrip by done. unfold local_key_of_json. rewrite Ht, Hs.
  change (default "" (Some (JStr (KeyType_as_str t)) ≫= as_str)) with (KeyType_as_str t).
  change (Some (JStr (b64_encode secret)) ≫= as_str) with (Some (b64_encode secret)). cbn [ok_or].
  assert (KeyType_parse (KeyType_as_str t) = Ok t) as -> by by destruct t.
  rewrite !bind_Ok, b64_roundtrip. cbn [ok_or]. rewrite bind_Ok. unfold check_material, KEY_LEN. by rewrite Hl.
Qed.
End key_files.

(** Key files read back: a PEM or JSON file written for a key is parsed to
    the same key and type, and its public half is recovered from the public PEM,
    from the private PEM and from the JSON file. *)
Theorem key_files_roundtrip {P : Primitives} {L : PrimitiveLaws P} {O : OpsLib} {OL : OpsLaws P O} secret t hint :
  length secret = KEY_LEN ->
  parse_local_key (as_bytes (local_key_json t secret)) hint = Ok (MkLocalKey t secret) /\
  parse_local_key (as_bytes (ed25519_private_pem secret)) hint = Ok (MkLocalKey Ed25519 secret) /\
  parse_public_key (ed25519_public_pem (ed25519_public secret)) = Ok (ed25519_public secret) /\
  parse_public_key (ed25519_private_pem secret) = Ok (ed25519_public secret) /\
  parse_public_key (local_key_json Ed25519 secret) = Ok (ed25519_public secret).
Proof.
  unfold KEY_LEN. intros Hl.
  split; [by apply parse_key_json|]. split; [by apply parse_private_pem|]. split; [|split].
  - apply parse_public_pem, ed25519_public_length.
  - unfold parse_public_key, ed25519_private_pem.
    destruct (pem_wrap_text "PRIVATE KEY" (ED25519_PKCS8_PREFIX ++ secret) eq_refl) as [-> _].
    cbn [mbind option_bind]. rewrite private_pem_is_not_public, pem_body_wrap.
    change (pem_wrap "PRIVATE KEY" (ED25519_PKCS8_PREFIX ++ secret)) with (ed25519_private_pem secret).
    rewrite parse_private_pem, bind_Ok by done. by apply public_of_secret.
  - destruct (local_key_members Ed25519 secret Hl) as (m & -> & Hm & _ & _ & Hp). unfold parse_public_key, json_object.
    rewrite json_pretty_roundtrip by done. cbn [mbind option_bind]. unfold public_of_json. rewrite Hp by done.
    cbn [mbind option_bind as_str]. fold (mbind (M := option) array32 (b64_decode (b64_encode (ed25519_public secret)))).
    by rewrite b64_32 by apply ed25519_public_length.
Qed.

(** ** Witnesses *)

Lemma toy_hex_chars b :
  all_chars (fun a => is_alnum a) (toy_hex b) = true.
Proof. induction b as [|x b IH]; [done|]. cbn [toy_hex all_chars]. rewrite IH. by destruct x. Qed.

#[export] Instance toy_ops_laws : OpsLaws toy toy_ops.
Proof.
  split.
  - intros pw salt m t p k H. cbn [argon2_into toy_ops] in H.
    match type of H with Ok ?b = _ => assert (k = b) as -> by congruence end. apply be_bytes_length.
  - intros b. cbn [b64_encode toy]. unfold toy_b64. rewrite all_chars_app. apply andb_true_iff. split.
    + eapply all_chars_impl; [|apply toy_hex_chars]. intros a H. unfold b64_char. by rewrite H.
    + by destruct (_ =? 0)%nat.
  - intros b Hb. cbn [b64_encode toy]. unfold toy_b64. destruct (Nat.eqb_spec (length b mod 3) 0); [done|].
    generalize (toy_hex b). intros s. induction s as [|a s IH]; [done|]. rewrite string_app_cons. cbn [has_char].
    rewrite IH. apply orb_true_r.
  - intros b. cbn [hex_encode toy]. induction b as [|x b IH]; [done|]. apply andb_true_iff in IH as [H1 H2].
    cbn [toy_hex String.length Nat.even all_chars]. rewrite H1, H2. by destruct x.
  - intros b. eapply all_chars_impl; [|apply toy_hex_chars]. intros a H. unfold b64url_char. by rewrite H.
  - intros [|x b] H; [done|]. discriminate.
  - intros j _. cbn [json_from_slice json_to_vec toy_ops]. rewrite of_as_bytes.
    rewrite <- (string_app_nil_r (toy_json_text j)). by rewrite toy_json_roundtrip.
  - intros j. discriminate.
  - intros j _. cbn [json_from_slice json_pretty toy_ops]. by rewrite of_as_bytes, toy_json_roundtrip.
  - intros j _. cbn [json_from_slice json_pretty toy_ops]. rewrite of_as_bytes.
    rewrite <- (string_app_nil_r (toy_json_text j)). by rewrite toy_json_roundtrip.
  - intros j _. apply ascii_is_str. cbn [json_pretty toy_ops]. unfold toy_json_text.
    by rewrite !all_chars_app, bits_ascii.
  - intros s. cbn [json_from_slice toy_ops]. rewrite of_as_bytes. reflexivity.
Qed.

Definition toy_request : TokenRequest :=
  MkTokenRequest [("exp", JNum i64_max); ("role", JStr "reader")] (Some "svc-a") (Some "api") None 600 (Some 100).

Definition toy_claims : JsonMap := Eval vm_compute in unwrap_or [] (token_claims toy_request 1000 (be_bytes 16 9)).
Definition toy_token : string :=
  unwrap_or "" (token_issue (SignEd25519 (be_bytes 32 7)) (Some "k:v1") toy_claims).

Lemma token_lifetime_witness :
  obj_get "exp" toy_claims = Some (JNum (1000 + 600)) /\
  (token_verify toy_token (VerifyEd25519 (ed25519_public (be_bytes 32 7))) 1500 None = Ok toy_claims <->
     1500 <= 1000 + 600 + 60 /\ forall n, Some 100 = Some n -> 1000 + n <= 1500 + 60) /\
  (forall c', token_verify toy_token (VerifyEd25519 (ed25519_public (be_bytes 32 7))) 1500 None = Ok c' -> c' = toy_claims).
Proof.
  apply (token_lifetime toy_request 1000 (be_bytes 16 9) toy_claims (SignEd25519 (be_bytes 32 7)) (Some "k:v1") toy_token 1500).
  - vm_compute. reflexivity.
  - vm_compute. done.
  - lia.
  - lia.
  - intros n [= <-]. lia.
  - intros k [= <-]. reflexivity.
  - vm_compute. reflexivity.
Defined.

Section envelope_witness.
Let salt := be_bytes 16 3.
Let nonce := be_bytes 12 4.
Let pt := as_bytes "pt".
Let key := be_bytes 32 5.
Let aad := as_bytes "ctx".
Let e1 := unwrap_or "" (passphrase_seal salt nonce pt "horse" aad).
Let e2 := unwrap_or "" (cmk_seal nonce pt key aad).
Let e3 := unwrap_or "" (rawkey_seal nonce pt key aad).
Let e4 := unwrap_or "" (datakey_seal nonce pt key "bbk:v2:aa" aad).

Lemma envelopes_roundtrip_witness :
  (detect e1 = Some KPassphrase /\ passphrase_open e1 "horse" aad = Ok pt) /\
  (detect e2 = Some KCmk /\ cmk_open e2 key aad = Ok pt) /\
  (detect e3 = Some KRawKey /\ rawkey_open e3 key aad = Ok pt) /\
  (detect e4 = Some KDataKey /\ exists sealed, datakey_parse e4 = Ok ("bbk:v2:aa", sealed) /\
     datakey_open sealed key aad = Ok pt) /\
  (detect (versioned 3 pt) = Some KManaged /\ parse_versioned (versioned 3 pt) = Ok (3, pt)).
Proof.
  apply (envelopes_roundtrip salt nonce pt "horse" key key "bbk:v2:aa" aad e1 e2 e3 e4 3);
    first [reflexivity|lia|vm_compute; reflexivity].
Defined.
End envelope_witness.

Lemma key_files_roundtrip_witness :
  parse_local_key (as_bytes (local_key_json Hmac (be_bytes 32 5))) None = Ok (MkLocalKey Hmac (be_bytes 32 5)) /\
  parse_local_key (as_bytes (ed25519_private_pem (be_bytes 32 5))) None = Ok (MkLocalKey Ed25519 (be_bytes 32 5)) /\
  parse_public_key (ed25519_public_pem (ed25519_public (be_bytes 32 5))) = Ok (ed25519_public (be_bytes 32 5)) /\
  parse_public_key (ed25519_private_pem (be_bytes 32 5)) = Ok (ed25519_public (be_bytes 32 5)) /\
  parse_public_key (local_key_json Ed25519 (be_bytes 32 5)) = Ok (ed25519_public (be_bytes 32 5)).
Proof. apply (key_files_roundtrip (be_bytes 32 5) Hmac None). reflexivity. Defined.
