(* ===== verification/Concurrency.v ===== *)
(** Requests served concurrently: a pool of handlers whose atomic actions
    interleave in any order, while the clock moves on and operations fail at
    will; and a small accounting logic for claims of the form "however the
    requests interleave, at most [n] of them end in a given way". *)
From S2P Require Import Prelude Store Effects.

(** ** Possible outcomes, whatever worlds the actions meet *)

Fixpoint Leaves {A} (Q : outcome A -> Prop) (m : M A) : Prop :=
  match m with
  | Done o => Q o
  | Act act k => forall w, Leaves Q (k (act w).1)
  end.

Definition then_leaves {A B} (Q : outcome B -> Prop) (f : A -> M B) (o : outcome A) : Prop :=
  match o with Val a => Leaves Q (f a) | Ret r => Q (Ret r) | Raise s e => Q (Raise s e) end.

Lemma Leaves_bind {A B} (Q : outcome B -> Prop) (m : M A) (f : A -> M B) :
  Leaves (then_leaves Q f) m -> Leaves Q (m ≫= f).
Proof.
  induction m as [[a|r|s e]|X act k IH]; [done..|]. intros H x. apply IH, H.
Qed.

Lemma Leaves_mono {A} (Q Q' : outcome A -> Prop) m : (forall o, Q o -> Q' o) -> Leaves Q m -> Leaves Q' m.
Proof. intros HQ. induction m as [o|X act k IH]; [apply HQ|]. intros H x. by apply IH. Qed.

Lemma Leaves_True {A} (Q : outcome A -> Prop) m : (forall o, Q o) -> Leaves Q m.
Proof. intros HQ. induction m as [o|X act k IH]; [apply HQ|]. intros x. apply IH. Qed.

(** Early returns and errors are refusals: never a success. *)
Definition refusal {A} (o : outcome A) : Prop :=
  match o with Val _ => True | Ret r => is_success (resp_status r) = false | Raise s _ => is_success s = false end.
Definition refuses {A} (m : M A) : Prop := Leaves refusal m.

Lemma not_200 s : is_success s = false -> s <> 200.
Proof. by intros H ->. Qed.

Lemma refuses_bind {A B} (m : M A) (f : A -> M B) :
  refuses m -> (forall a, refuses (f a)) -> refuses (m ≫= f).
Proof.
  intros Hm Hf. apply Leaves_bind. eapply Leaves_mono, Hm. intros [a|r|s e] H; [apply Hf|done..].
Qed.

Lemma refuses_perform {A : Set} (act : World -> A * World) : refuses (perform act).
Proof. intros x. exact I. Qed.
Lemma refuses_sql {A : Set} (f : Z -> Db -> result SqlError (A * Db)) : refuses (sql f).
Proof. apply refuses_perform. Qed.
Lemma refuses_try {E A B} (m : M (result E A)) (f : A -> M (result E B)) :
  refuses m -> (forall a, refuses (f a)) -> refuses (try_bind m f).
Proof. intros Hm Hf. apply refuses_bind; [done|]. intros [a|e]; [apply Hf|exact I]. Qed.
Lemma refuses_or_500 {A} (m : M (result SqlError A)) : refuses m -> refuses (or_500 m).
Proof. intros H. apply refuses_bind; [done|]. by intros []. Qed.
Lemma refuses_pure_500 {E A} msg (r : result E A) : refuses (pure_500 msg r).
Proof. by destruct r. Qed.
Lemma refuses_str_500 {A} (m : M (result string A)) : refuses m -> refuses (str_500 m).
Proof. intros H. apply refuses_bind; [done|]. intros. apply refuses_pure_500. Qed.
Lemma refuses_ignore {A} (m : M A) : refuses m -> refuses (ignore m).
Proof. intros H. by apply refuses_bind. Qed.
Lemma refuses_for_each {A} (f : A -> M unit) l : (forall x, refuses (f x)) -> refuses (for_each f l).
Proof. intros H. induction l as [|x l IH]; [exact I|]. apply refuses_bind; [apply H|done]. Qed.
Lemma refuses_map_each {A B} (f : A -> M B) l : (forall x, refuses (f x)) -> refuses (map_each f l).
Proof.
  intros H. induction l as [|x l IH]; [exact I|]. apply refuses_bind; [apply H|intros y].
  apply refuses_bind; [done|]. intros ys. exact I.
Qed.

Lemma Leaves_run {A} (Q : outcome A -> Prop) m w : Leaves Q m -> Q (run m w).1.
Proof.
  revert w. induction m as [o|X act k IH]; intros w H; [done|]. specialize (H w). simpl.
  destruct (act w) as [x w']. by apply IH.
Qed.

(** A success is an ordinary end. *)
Lemma refuses_success (m : M Response) w o w' :
  refuses m -> run m w = (o, w') -> is_success (resp_status (respond o)) = true -> exists r, o = Val r.
Proof.
  intros Hm H Hs. pose proof (Leaves_run _ _ w Hm) as Hr. rewrite H in Hr.
  destruct o as [r|r|s e]; simpl in *; [by exists r|congruence..].
Qed.

Lemma refuses_transaction {E A : Set} inj (m : M (result E A)) :
  refuses m -> refuses (transaction_with inj m).
Proof.
  intros Hm w. simpl. unfold transact_with. destruct (next_fault w) as [[] w0]; [done|].
  pose proof (Leaves_run refusal m w0 Hm) as Hr. destruct (run m w0) as [[[a|e]|r|s e] w1]; simpl; try done.
  by destruct (next_fault w1) as [[] w2].
Qed.

(** Going through a program whose early returns are refusals. *)
Lemma Leaves_seq {A B} (Q : outcome B -> Prop) (m : M A) (f : A -> M B) :
  (forall o, refusal o -> match o with Val _ => True | _ => Q o end) ->
  refuses m -> (forall a, Leaves Q (f a)) -> Leaves Q (m ≫= f).
Proof.
  intros HQ Hm Hf. apply Leaves_bind. eapply Leaves_mono, Hm.
  intros [a|r|s e] H; [apply Hf|exact (HQ (Ret r) H)|exact (HQ (Raise s e) H)].
Qed.

(** A value that is a response to return: also a refusal. *)
Definition refusal_err {A} (o : outcome (result Response A)) : Prop :=
  match o with Val (Err r) | Ret r => is_success (resp_status r) = false | Raise s _ => is_success s = false | _ => True end.
Definition refusal_some (o : outcome (option Response)) : Prop :=
  match o with Val (Some r) | Ret r => is_success (resp_status r) = false | Raise s _ => is_success s = false | _ => True end.

Lemma refuses_or_reply {A} (m : M (result Response A)) : Leaves refusal_err m -> refuses (or_reply m).
Proof. intros H. apply Leaves_bind. eapply Leaves_mono, H. by intros [[a|r]|r|s e]. Qed.

(** Programs that always end normally. *)
Definition returns {A} (m : M A) : Prop := Leaves (fun o => exists a, o = Val a) m.

Lemma returns_run {A} (m : M A) w : returns m -> exists a w', run m w = (Val a, w').
Proof.
  intros H. pose proof (Leaves_run _ _ w H) as [a Ha]. destruct (run m w) as [o w'] eqn:E.
  simpl in Ha. subst o. by exists a, w'.
Qed.

Lemma returns_bind {A B} (m : M A) (f : A -> M B) :
  returns m -> (forall a, returns (f a)) -> returns (m ≫= f).
Proof. intros Hm Hf. apply Leaves_bind. eapply Leaves_mono, Hm. intros o [a ->]. apply Hf. Qed.

Lemma returns_perform {A : Set} (act : World -> A * World) : returns (perform act).
Proof. intros w. by eexists. Qed.
Lemma returns_ret {A} (a : A) : returns (mret a).
Proof. by exists a. Qed.
Lemma returns_ignore {A} (m : M A) : returns m -> returns (ignore m).
Proof. intros H. apply returns_bind; [done|]. intros _. by exists tt. Qed.
Lemma returns_transaction {E A : Set} inj (m : M (result E A)) : returns m -> returns (transaction_with inj m).
Proof.
  intros Hm w. simpl. unfold transact_with. destruct (next_fault w) as [[] w0]; [by eexists|].
  destruct (returns_run m w0 Hm) as ([a|e] & w1 & ->); simpl; [|by eexists].
  by destruct (next_fault w1) as [[] w2]; eexists.
Qed.

Create HintDb refuses discriminated.
#[export] Hint Constants Opaque : refuses.

Ltac refuses_step :=
  lazymatch goal with
  | |- refuses (mbind _ _) => apply refuses_bind; [|intros ?]
  | |- refuses (try_bind _ _) => apply refuses_try; [|intros ?]
  | |- refuses (or_500 _) => apply refuses_or_500
  | |- refuses (pure_500 _ _) => apply refuses_pure_500
  | |- refuses (str_500 _) => apply refuses_str_500
  | |- refuses (ignore _) => apply refuses_ignore
  | |- refuses (Done _) => first [exact I | reflexivity]
  | |- refuses (mret _) => exact I
  | |- refuses (reply _) => first [reflexivity | idtac]
  | |- refuses (raise _ _) => reflexivity
  | |- refuses (query _) => apply refuses_sql
  | |- refuses (exec _) => apply refuses_sql
  | |- refuses (sql _) => apply refuses_sql
  | |- refuses (transaction_with _ _) => apply refuses_transaction
  | |- refuses utc_now => apply refuses_perform
  | |- refuses (draw _) => apply refuses_perform
  | |- refuses (for_each _ _) => apply refuses_for_each; intros ?
  | |- refuses (map_each _ _) => apply refuses_map_each; intros ?
  | |- refuses (match ?x with _ => _ end) => destruct x
  | |- refuses (let '_ := ?x in _) => destruct x
  | |- refuses _ => solve [eauto with refuses]
  end.
Ltac solve_refuses := intros; repeat refuses_step.

(** The same for a program that also hands refusals back as values. *)
Ltac leaves_step :=
  lazymatch goal with
  | |- Leaves ?Q (mbind _ _) =>
      apply Leaves_seq; [by intros [] | solve [solve_refuses] | intros ?]
  | |- Leaves ?Q (mret _) => first [exact I | reflexivity | idtac]
  | |- Leaves ?Q (reply _) => first [exact I | reflexivity | idtac]
  | |- Leaves ?Q (raise _ _) => first [exact I | reflexivity]
  | |- Leaves ?Q (match ?x with _ => _ end) => destruct x
  | |- Leaves ?Q (let '_ := ?x in _) => destruct x
  | |- Leaves ?Q _ => solve [eauto with refuses]
  end.
Ltac solve_leaves := intros; repeat leaves_step.

(** ** Interleaved execution *)

Inductive pool_step {A} : World * list (M A) -> World * list (M A) -> Prop :=
| pool_act w ps i (X : Set) (act : World -> X * World) k :
    ps !! i = Some (Act act k) ->
    pool_step (w, ps) ((act w).2, <[i := k (act w).1]> ps)
| pool_tick w ps t : clock w <= t -> pool_step (w, ps) (set_clock t w, ps)
| pool_fault w ps l : pool_step (w, ps) (set_faults l w, ps).

Definition pool_steps {A} := rtc (@pool_step A).

(** A schedule: which program makes the next action. *)
Fixpoint interleave {A} (schedule : list nat) (s : World * list (M A)) : World * list (M A) :=
  match schedule with
  | [] => s
  | i :: rest =>
      match s.2 !! i with
      | Some (Act act k) => let '(x, w') := act s.1 in interleave rest (w', <[i := k x]> s.2)
      | _ => interleave rest s
      end
  end.

Lemma interleave_steps {A} schedule (s : World * list (M A)) : pool_steps s (interleave schedule s).
Proof.
  revert s. induction schedule as [|i rest IH]; intros [w ps]; simpl; [apply rtc_refl|].
  destruct (ps !! i) as [[o|X act k]|] eqn:E; try apply IH.
  eapply rtc_l; [by apply pool_act|]. destruct (act w) as [x w']. apply IH.
Qed.

(** ** Accounting *)

Section account.
Context (Inv : World -> Prop) (budget : World -> nat).

(** [m], holding [c] credits, only ever obtains a credit by lowering the
    budget, keeps the invariant, and ends in a state [Q] accepts. *)
Fixpoint earns {A} (Q : nat -> outcome A -> Prop) (c : nat) (m : M A) : Prop :=
  match m with
  | Done o => Q c o
  | Act act k =>
      forall w, Inv w ->
        Inv (act w).2 /\
        exists c', (budget (act w).2 + c' <= budget w + c)%nat /\ earns Q c' (k (act w).1)
  end.

Lemma earns_mono {A} (Q Q' : nat -> outcome A -> Prop) c m :
  (forall c' o, Q c' o -> Q' c' o) -> earns Q c m -> earns Q' c m.
Proof.
  intros HQ. revert c. induction m as [o|X act k IH]; intros c; [apply HQ|].
  intros H w Hw. destruct (H w Hw) as (Hi & c' & Hc & Hk). split; [done|].
  exists c'. split; [done|]. by apply IH.
Qed.

Lemma earns_bind {A B} (Q : nat -> outcome B -> Prop) c (m : M A) (f : A -> M B) :
  earns (fun c' o => match o with
                     | Val a => earns Q c' (f a)
                     | Ret r => Q c' (Ret r)
                     | Raise s e => Q c' (Raise s e)
                     end) c m ->
  earns Q c (m ≫= f).
Proof.
  revert c. induction m as [[a|r|s e]|X act k IH]; intros c; [done..|].
  intros H w Hw. destruct (H w Hw) as (Hi & c' & Hc & Hk). split; [done|].
  exists c'. split; [done|]. by apply IH.
Qed.

(** Programs that never touch what the invariant and the budget read. *)
Lemma earns_steps {A} (Q : nat -> outcome A -> Prop) c (m : M A) :
  Steps (fun w w' => Inv w -> Inv w' /\ (budget w' <= budget w)%nat) m ->
  (forall o, Q c o) -> earns Q c m.
Proof.
  intros Hm HQ. induction m as [o|X act k IH]; [apply HQ|].
  destruct Hm as [Ha Hk]. intros w Hw. destruct (Ha w Hw) as [Hi Hb]. split; [done|].
  exists c. split; [lia|]. apply IH, Hk.
Qed.

Lemma earns_leaves {A} (Q : nat -> outcome A -> Prop) c (m : M A) :
  Steps (fun w w' => Inv w -> Inv w' /\ (budget w' <= budget w)%nat) m ->
  Leaves (Q c) m -> earns Q c m.
Proof.
  intros Hm HQ. induction m as [o|X act k IH]; [exact HQ|].
  destruct Hm as [Ha Hk]. intros w Hw. destruct (Ha w Hw) as [Hi Hb]. split; [done|].
  exists c. split; [lia|]. apply IH; [apply Hk|apply HQ].
Qed.

(** Credits spent by the finished programs of a pool. *)
Definition total {A} (cost : outcome A -> nat) (ps : list (M A)) : nat :=
  sum_list ((fun m => match m with Done o => cost o | Act _ _ => 0%nat end) <$> ps).

Definition pays {A} (cost : outcome A -> nat) (c : nat) (o : outcome A) : Prop := (cost o <= c)%nat.

Lemma sum_list_insert (cs : list nat) i c c' :
  cs !! i = Some c -> (sum_list (<[i := c']> cs) + c = sum_list cs + c')%nat.
Proof.
  revert i. induction cs as [|x cs IH]; intros [|i] H; simplify_eq/=; [lia|].
  specialize (IH i H). lia.
Qed.

Lemma total_le_credits {A} (cost : outcome A -> nat) cs ps :
  Forall2 (earns (pays cost)) cs ps -> (total cost ps <= sum_list cs)%nat.
Proof.
  unfold total. induction 1 as [|c m cs ps H _ IH]; [done|]. rewrite fmap_cons. simpl.
  destruct m as [o|X act k]; simpl in *; [unfold pays in H|]; lia.
Qed.

Definition accounted {A} (cost : outcome A -> nat) (n : nat) (s : World * list (M A)) : Prop :=
  Inv s.1 /\ exists cs, Forall2 (earns (pays cost)) cs s.2 /\ (budget s.1 + sum_list cs <= n)%nat.

Hypothesis Inv_clock : forall w t, Inv w -> Inv (set_clock t w).
Hypothesis Inv_faults : forall w l, Inv w -> Inv (set_faults l w).
Hypothesis budget_clock : forall w t, budget (set_clock t w) = budget w.
Hypothesis budget_faults : forall w l, budget (set_faults l w) = budget w.

Lemma accounted_step {A} (cost : outcome A -> nat) n s s' :
  pool_step s s' -> accounted cost n s -> accounted cost n s'.
Proof.
  intros Hs (Hi & cs & Hcs & Hb). destruct Hs as [w ps i X act k Hp|w ps t Ht|w ps l]; simpl in *.
  - destruct (Forall2_lookup_r _ _ _ _ _ Hcs Hp) as (c & Hc & He).
    destruct (He w Hi) as (Hi' & c' & Hle & Hk). split; [done|].
    exists (<[i := c']> cs). split; [by apply Forall2_insert|]. simpl.
    pose proof (sum_list_insert cs i c c' Hc). lia.
  - split; [by apply Inv_clock|]. exists cs. simpl. by rewrite budget_clock.
  - split; [by apply Inv_faults|]. exists cs. simpl. by rewrite budget_faults.
Qed.

(** However the programs interleave, what the finished ones cost was paid out
    of the budget. *)
Lemma pool_total {A} (cost : outcome A -> nat) w ps w' ps' :
  Inv w -> Forall (earns (pays cost) 0) ps -> pool_steps (w, ps) (w', ps') ->
  Inv w' /\ (total cost ps' + budget w' <= budget w)%nat.
Proof.
  intros Hi Hps Hsteps.
  assert (accounted cost (budget w) (w', ps')) as (Hinv & cs & Hcs & Hle).
  { assert (accounted cost (budget w) (w, ps)) as H0.
    { split; [done|]. exists (replicate (length ps) 0%nat). split.
      - clear Hsteps. induction Hps; simpl; constructor; done.
      - simpl. rewrite sum_list_replicate. lia. }
    clear Hi Hps. revert H0.
    assert (forall s s' : World * list (M A), rtc pool_step s s' ->
              accounted cost (budget w) s -> accounted cost (budget w) s') as Hrtc.
    { intros s s' Hr. induction Hr as [|x y z Hxy _ IH]; [done|]. intros Hx.
      by apply IH, (accounted_step _ _ x). }
    by apply Hrtc. }
  split; [exact Hinv|]. pose proof (total_le_credits _ _ _ Hcs). simpl in *. lia.
Qed.
End account.

(** ** Accounting over one table *)

Section table_account.
Context {T : Set} (table : Db -> T) (I : T -> Prop) (b : T -> nat).

Definition table_inv (w : World) : Prop := I (table (db w)).
Definition table_budget (w : World) : nat := b (table (db w)).

(** A program that leaves the table alone neither earns nor spends. *)
Lemma earns_frame ps {A} (Q : nat -> outcome A -> Prop) c (m : M A) :
  (forall w w', frame ps w w' -> table (db w') = table (db w)) ->
  writes ps m -> Leaves (Q c) m -> earns table_inv table_budget Q c m.
Proof.
  intros Ht Hm HQ. apply earns_leaves; [|done]. eapply Steps_impl, Hm.
  intros w w' Hf. unfold table_inv, table_budget. rewrite (Ht w w' Hf). done.
Qed.

(** One statement: what it does to the table, and what it returns. *)
Lemma earns_sql {A : Set} (Q : nat -> outcome (result SqlError A) -> Prop) c
    (f : Z -> Db -> result SqlError (A * Db)) :
  Q c (Val (Err SqlDown)) ->
  (forall now d, I (table d) ->
     match f now d with
     | Ok (a, d') => I (table d') /\ exists c', (b (table d') + c' <= b (table d) + c)%nat /\ Q c' (Val (Ok a))
     | Err e => Q c (Val (Err e))
     end) ->
  earns table_inv table_budget Q c (sql f).
Proof.
  intros Hdown Hf w Hw. unfold statement.
  assert (forall l, table_inv (set_faults l w)) as Hl by done.
  unfold next_fault. destruct (faults w) as [|[] l]; simpl.
  - specialize (Hf (clock w) (db w) Hw). destruct (f (clock w) (db w)) as [[a d']|e]; simpl; [done|].
    split; [done|]. exists c. by split.
  - split; [done|]. exists c. by split.
  - specialize (Hf (clock w) (db w) Hw). destruct (f (clock w) (db w)) as [[a d']|e]; simpl; [done|].
    split; [done|]. exists c. by split.
Qed.

Lemma earns_or_500 {A : Set} (Q : nat -> outcome A -> Prop) c (m : M (result SqlError A)) :
  earns table_inv table_budget
    (fun c' o => match o with
                 | Val (Ok a) => Q c' (Val a)
                 | Val (Err e) => Q c' (Raise 500 (sql_msg e))
                 | Ret r => Q c' (Ret r)
                 | Raise s e => Q c' (Raise s e)
                 end) c m ->
  earns table_inv table_budget Q c (or_500 m).
Proof.
  intros H. apply earns_bind. eapply earns_mono, H. by intros c' [[a|e]|r|s e].
Qed.

Lemma earns_query {A : Set} (Q : nat -> outcome A -> Prop) c (f : Z -> Db -> A) :
  Q c (Raise 500 (sql_msg SqlDown)) ->
  (forall now d, I (table d) -> Q c (Val (f now d))) ->
  earns table_inv table_budget Q c (or_500 (query f)).
Proof.
  intros Hd Hf. apply earns_or_500, earns_sql; [exact Hd|]. intros now d Hi. split; [done|].
  exists c. split; [lia|]. by apply Hf.
Qed.

Lemma earns_exec (Q : nat -> outcome (result SqlError unit) -> Prop) c (f : Z -> Db -> Db) :
  (forall r, Q c (Val r)) ->
  (forall now d, I (table d) -> I (table (f now d)) /\ (b (table (f now d)) <= b (table d))%nat) ->
  earns table_inv table_budget Q c (exec f).
Proof.
  intros HQ Hf. apply earns_sql; [done|]. intros now d Hi. destruct (Hf now d Hi) as [Hi' Hb].
  split; [done|]. exists c. split; [lia|done].
Qed.
End table_account.

(** ** Invariants *)

Section safe.
Context (Inv : World -> Prop).

(** Every action of [m] keeps [Inv], and [m] ends in an outcome [Q] accepts. *)
Fixpoint safe {A} (Q : outcome A -> Prop) (m : M A) : Prop :=
  match m with
  | Done o => Q o
  | Act act k => forall w, Inv w -> Inv (act w).2 /\ safe Q (k (act w).1)
  end.

Lemma safe_mono {A} (Q Q' : outcome A -> Prop) m : (forall o, Q o -> Q' o) -> safe Q m -> safe Q' m.
Proof.
  intros HQ. induction m as [o|X act k IH]; [apply HQ|]. intros H w Hw.
  destruct (H w Hw) as [Hi Hk]. split; [done|]. by apply IH.
Qed.

Definition then_safe {A B} (Q : outcome B -> Prop) (f : A -> M B) (o : outcome A) : Prop :=
  match o with Val a => safe Q (f a) | Ret r => Q (Ret r) | Raise s e => Q (Raise s e) end.

Lemma safe_bind {A B} (Q : outcome B -> Prop) (m : M A) (f : A -> M B) :
  safe (then_safe Q f) m -> safe Q (m ≫= f).
Proof.
  induction m as [[a|r|s e]|X act k IH]; [done..|]. intros H w Hw.
  destruct (H w Hw) as [Hi Hk]. split; [done|]. by apply IH.
Qed.

(** When only the invariant matters. *)
Lemma safe_seq {A B} (m : M A) (f : A -> M B) :
  safe (fun _ => True) m -> (forall a, safe (fun _ => True) (f a)) -> safe (fun _ => True) (m ≫= f).
Proof.
  intros Hm Hf. apply safe_bind. eapply safe_mono, Hm. intros [a|r|s e] _; [apply Hf|done..].
Qed.

Lemma safe_map_each {A B} (f : A -> M B) l :
  Forall (fun x => safe (fun _ => True) (f x)) l -> safe (fun _ => True) (map_each f l).
Proof.
  induction 1 as [|x l Hx _ IH]; [done|]. apply safe_seq; [done|]. intros y.
  apply safe_seq; [done|]. done.
Qed.

Lemma safe_steps {A} (Q : outcome A -> Prop) (m : M A) :
  Steps (fun w w' => Inv w -> Inv w') m -> (forall o, Q o) -> safe Q m.
Proof.
  intros Hm HQ. induction m as [o|X act k IH]; [apply HQ|]. destruct Hm as [Ha Hk].
  intros w Hw. split; [by apply Ha|]. apply IH, Hk.
Qed.

Lemma safe_run {A} (Q : outcome A -> Prop) (m : M A) w :
  safe Q m -> Inv w -> Q (run m w).1 /\ Inv (run m w).2.
Proof.
  revert w. induction m as [o|X act k IH]; intros w H Hw; [done|].
  destruct (H w Hw) as [Hi Hk]. simpl. destruct (act w) as [x w']. by apply IH.
Qed.

Hypothesis Inv_clock : forall w t, Inv w -> Inv (set_clock t w).
Hypothesis Inv_faults : forall w l, Inv w -> Inv (set_faults l w).

(** However they interleave, safe programs keep the invariant, and those that
    finish end in an accepted outcome. *)
Lemma pool_safe {A} (Q : outcome A -> Prop) w ps w' ps' :
  Inv w -> Forall (safe Q) ps -> pool_steps (w, ps) (w', ps') ->
  Inv w' /\ forall i o, ps' !! i = Some (Done o) -> Q o.
Proof.
  intros Hi Hps Hsteps.
  assert (forall s s' : World * list (M A), rtc pool_step s s' ->
            Inv s.1 /\ Forall (safe Q) s.2 -> Inv s'.1 /\ Forall (safe Q) s'.2) as Hrtc.
  { intros s s' Hr. induction Hr as [|x y z Hxy _ IH]; [done|]. intros [Hx Hxs]. apply IH.
    destruct Hxy as [v qs i X act k Hp|v qs t Ht|v qs l]; simpl in *.
    - destruct (Forall_lookup_1 _ _ _ _ Hxs Hp v Hx) as [Hv Hk]. split; [done|].
      by apply Forall_insert.
    - split; [by apply Inv_clock|done].
    - split; [by apply Inv_faults|done]. }
  destruct (Hrtc (w, ps) (w', ps') Hsteps) as [Hw Hfin]; [done|]. split; [done|].
  intros i o Hl. apply (Forall_lookup_1 _ _ _ _ Hfin Hl).
Qed.
End safe.

(** ** Invariants of one table *)

Section table_safe.
Context {T : Set} (table : Db -> T) (I : T -> Prop).

Abbreviation kept := (safe (table_inv table I)).

Lemma kept_sql {A : Set} (Q : outcome (result SqlError A) -> Prop) (f : Z -> Db -> result SqlError (A * Db)) :
  Q (Val (Err SqlDown)) ->
  (forall now d, I (table d) ->
     match f now d with
     | Ok (a, d') => I (table d') /\ Q (Val (Ok a))
     | Err e => Q (Val (Err e))
     end) ->
  kept Q (sql f).
Proof.
  intros Hdown Hf w Hw. unfold statement, next_fault.
  destruct (faults w) as [|[] l]; simpl; [|done|].
  - specialize (Hf (clock w) (db w) Hw). by destruct (f (clock w) (db w)) as [[a d']|e].
  - specialize (Hf (clock w) (db w) Hw). by destruct (f (clock w) (db w)) as [[a d']|e].
Qed.

(** The continuation of a statement whose error is a 500. *)
Lemma kept_sql_500 {A : Set} {B} (Q : outcome B -> Prop) (f : Z -> Db -> result SqlError (A * Db)) (g : A -> M B) :
  (forall s e, Q (Raise s e)) ->
  (forall now d a d', I (table d) -> f now d = Ok (a, d') -> I (table d') /\ kept Q (g a)) ->
  kept Q (or_500 (sql f) ≫= g).
Proof.
  intros HQ Hf. apply safe_bind, safe_bind, kept_sql; [apply HQ|]. intros now d Hd.
  destruct (f now d) as [[a d']|e] eqn:E; [by apply (Hf now d)|apply HQ].
Qed.

Lemma kept_query_500 {A : Set} {B} (Q : outcome B -> Prop) (f : Z -> Db -> A) (g : A -> M B) :
  (forall s e, Q (Raise s e)) -> (forall now d, I (table d) -> kept Q (g (f now d))) ->
  kept Q (or_500 (query f) ≫= g).
Proof.
  intros HQ Hg. apply kept_sql_500; [done|]. intros now d a d' Hd [= <- <-]. split; [done|]. by apply (Hg now).
Qed.

Lemma kept_exec {B} (Q : outcome B -> Prop) (f : Z -> Db -> Db) (g : result SqlError unit -> M B) :
  (forall now d, I (table d) -> I (table (f now d))) -> (forall a, kept Q (g a)) -> kept Q (exec f ≫= g).
Proof.
  intros Hf Hg. apply safe_bind, kept_sql; [apply Hg|]. intros now d Hd. split; [by apply Hf|apply Hg].
Qed.

Lemma kept_ignore {B} (Q : outcome B -> Prop) (f : Z -> Db -> Db) (g : unit -> M B) :
  (forall now d, I (table d) -> I (table (f now d))) -> (forall a, kept Q (g a)) ->
  kept Q (ignore (exec f) ≫= g).
Proof. intros Hf Hg. apply safe_bind, kept_exec; [done|]. intros a. apply Hg. Qed.

(** A phase that does not touch the table. *)
Lemma kept_phase ps {A B} (Q : outcome B -> Prop) (m : M A) (f : A -> M B) :
  (forall w w', frame ps w w' -> table (db w') = table (db w)) -> writes ps m ->
  (forall r, Q (Ret r)) -> (forall s e, Q (Raise s e)) -> (forall a, kept Q (f a)) ->
  kept Q (m ≫= f).
Proof.
  intros Ht Hm HQ1 HQ2 Hf. apply safe_bind, safe_steps.
  - eapply Steps_impl, Hm. intros w w' Hfr. unfold table_inv. by rewrite (Ht w w' Hfr).
  - intros [a|r|s e]; [apply Hf|apply HQ1|apply HQ2].
Qed.
End table_safe.

(** A transaction keeps what a committed run of its body establishes. *)
Lemma kept_transaction {T E A : Set} (table : Db -> T) (I : T -> Prop) inj (m : M (result E A)) :
  (forall w a w1, I (table (db w)) -> run m w = (Val (Ok a), w1) -> I (table (db w1))) ->
  safe (table_inv table I) (fun _ => True) (transaction_with inj m).
Proof.
  intros Hm w Hw. split; [|done]. unfold table_inv in *. unfold transact_with.
  assert (Hn : forall v, db (next_fault v).2 = db v) by (intros [d t c r [|b l]]; done).
  pose proof (Hn w) as Hw0. destruct (next_fault w) as [[] w0]; simpl in *; [by rewrite Hw0|].
  destruct (run m w0) as [[[a|e]|r|s e] w1] eqn:Em; simpl; try (by rewrite Hw0).
  pose proof (Hn w1) as Hw2. destruct (next_fault w1) as [[] w2]; simpl in *; [by rewrite Hw0|].
  rewrite Hw2. apply (Hm w0 a w1); [by rewrite Hw0|done].
Qed.

(** A sequential run is one of the interleavings. *)
Lemma run_pool {A} (m : M A) w ps i :
  ps !! i = Some m ->
  pool_steps (w, ps) ((run m w).2, <[i := Done (run m w).1]> ps).
Proof.
  revert w ps. induction m as [o|X act k IH]; intros w ps Hi; simpl.
  - rewrite list_insert_id by done. apply rtc_refl.
  - eapply rtc_l; [by apply pool_act|].
    specialize (IH (act w).1 (act w).2 (<[i := k (act w).1]> ps)).
    destruct (act w) as [x w']; simpl in *. rewrite list_insert_insert_eq in IH.
    apply IH, list_lookup_insert_eq. by eapply lookup_lt_Some.
Qed.

(** ** Healthy runs stay healthy *)

(** From a world with no fault to come, none appears. *)
Definition calm {A} (m : M A) : Prop := Steps (fun w w' => faults w = [] -> faults w' = []) m.

Lemma calm_run {A} (m : M A) w o w' : calm m -> faults w = [] -> run m w = (o, w') -> faults w' = [].
Proof.
  revert w. induction m as [o'|X act k IH]; intros w Hm Hf H; simpl in H; [by injection H as <- <-|].
  destruct Hm as [Ha Hk]. specialize (Ha w Hf). destruct (act w) as [x w1]. exact (IH x w1 (Hk x) Ha H).
Qed.

Lemma calm_bind {A B} (m : M A) (f : A -> M B) : calm m -> (forall a, calm (f a)) -> calm (m ≫= f).
Proof. apply Steps_bind. Qed.
Lemma calm_perform {A : Set} (act : World -> A * World) :
  (forall w, faults w = [] -> faults (act w).2 = []) -> calm (perform act).
Proof. intros H. split; [exact H|intros; exact I]. Qed.
Lemma next_fault_nil w : faults w = [] -> next_fault w = (false, w).
Proof. unfold next_fault. by intros ->. Qed.
Lemma calm_sql {A : Set} (f : Z -> Db -> result SqlError (A * Db)) : calm (sql f).
Proof.
  apply calm_perform. intros w Hf. unfold statement. rewrite next_fault_nil by done.
  by destruct (f (clock w) (db w)) as [[a d]|e].
Qed.
Lemma calm_file_op {A : Set} (f : gmap string bytes -> result string (A * gmap string bytes)) :
  calm (perform (file_op f)).
Proof.
  apply calm_perform. intros w Hf. unfold file_op. rewrite next_fault_nil by done. by destruct (f (fs w)) as [[a t]|e].
Qed.
Lemma calm_transaction {E A : Set} inj (m : M (result E A)) : calm m -> calm (transaction_with inj m).
Proof.
  intros Hm. split; [|intros; exact I]. intros w Hf. unfold transact_with. rewrite next_fault_nil by done.
  destruct (run m w) as [o w1] eqn:E1. pose proof (calm_run m w o w1 Hm Hf E1) as Hf1.
  rewrite next_fault_nil by done. by destruct o as [[a|e]|r|s e].
Qed.
Lemma calm_try {E A B} (m : M (result E A)) (f : A -> M (result E B)) :
  calm m -> (forall a, calm (f a)) -> calm (try_bind m f).
Proof. intros Hm Hf. apply calm_bind; [done|]. intros [a|e]; [apply Hf|exact I]. Qed.
Lemma calm_or_500 {A} (m : M (result SqlError A)) : calm m -> calm (or_500 m).
Proof. intros H. apply calm_bind; [done|]. by intros []. Qed.
Lemma calm_pure_500 {E A} msg (r : result E A) : calm (pure_500 msg r).
Proof. by destruct r. Qed.
Lemma calm_ignore {A} (m : M A) : calm m -> calm (ignore m).
Proof. intros H. by apply calm_bind. Qed.
Lemma calm_or_reply {A} (m : M (result Response A)) : calm m -> calm (or_reply m).
Proof. intros H. apply calm_bind; [done|]. by intros []. Qed.
Lemma calm_for_each {A} (f : A -> M unit) l : (forall x, calm (f x)) -> calm (for_each f l).
Proof. intros H. induction l as [|x l IH]; [exact I|]. apply calm_bind; [apply H|done]. Qed.
Lemma calm_map_each {A B} (f : A -> M B) l : (forall x, calm (f x)) -> calm (map_each f l).
Proof.
  intros H. induction l as [|x l IH]; [exact I|]. apply calm_bind; [apply H|intros y].
  apply calm_bind; [done|]. intros ys. exact I.
Qed.

Create HintDb calm discriminated.
#[export] Hint Constants Opaque : calm.

Ltac calm_step :=
  lazymatch goal with
  | |- calm (mbind _ _) => apply calm_bind; [|intros ?]
  | |- calm (try_bind _ _) => apply calm_try; [|intros ?]
  | |- calm (or_500 _) => apply calm_or_500
  | |- calm (or_reply _) => apply calm_or_reply
  | |- calm (pure_500 _ _) => apply calm_pure_500
  | |- calm (str_500 _) => apply calm_bind; [|intros ?; apply calm_pure_500]
  | |- calm (ignore _) => apply calm_ignore
  | |- calm (Done _) => exact I
  | |- calm (mret _) => exact I
  | |- calm (reply _) => exact I
  | |- calm (raise _ _) => exact I
  | |- calm (query _) => apply calm_sql
  | |- calm (exec _) => apply calm_sql
  | |- calm (sql _) => apply calm_sql
  | |- calm (transaction_with _ _) => apply calm_transaction
  | |- calm utc_now => by apply calm_perform
  | |- calm (draw _) => by apply calm_perform
  | |- calm (fs_read _) => apply calm_file_op
  | |- calm (fs_write _ _) => apply calm_file_op
  | |- calm (fs_remove _) => apply calm_file_op
  | |- calm (for_each _ _) => apply calm_for_each; intros ?
  | |- calm (map_each _ _) => apply calm_map_each; intros ?
  | |- calm (match ?x with _ => _ end) => destruct x
  | |- calm (let '_ := ?x in _) => destruct x
  | |- calm _ => solve [eauto with calm]
  end.
Ltac solve_calm := intros; repeat calm_step.

(** A program that cannot fail, on a healthy world. *)
Lemma healthy_run {A} (m : M A) w :
  returns m -> calm m -> faults w = [] -> exists a w', run m w = (Val a, w') /\ faults w' = [].
Proof.
  intros Hr Hc Hf. destruct (returns_run m w Hr) as (a & w' & H). exists a, w'.
  split; [done|]. by eapply calm_run.
Qed.
