(* ===== verification/ServerBase.v ===== *)
(** What every endpoint of [src/src/server.rs] builds on: the application
    state, the keyed lookup identifiers, the field encryption, the query-string
    types and the action masks. Facilities outside the repository (chrono,
    totp-rs, rcgen, base32) are the parameters of class [Platform]. *)
From S2P Require Import Prelude AccessRules Crypto Store Effects.

(** ** Outside facilities *)

Record CertBundle := MkCert { cert_pem : string; key_pem : string; fingerprint : string }.

Class Platform := {
  civil_of : Z -> civil;                          (* chrono's calendar fields *)
  fmt_rfc3339 : Z -> string;                      (* to_rfc3339() *)
  fmt_iso : Z -> string;                          (* %Y-%m-%dT%H:%M:%SZ *)
  fmt_compact : Z -> string;                      (* %Y%m%dT%H%M%SZ *)
  fmt_text : Z -> string;                         (* created_at::text *)
  fmt_dotted : Z -> string;                       (* %Y-%m-%d %H:%M:%S%.f *)
  parse_rfc3339 : string -> option Z;             (* DateTime::parse_from_rfc3339 *)
  parse_datetime : string -> string -> option Z;  (* NaiveDateTime::parse_from_str: input, format *)
  parse_date : string -> option Z;                (* NaiveDate, %Y-%m-%d, at midnight *)
  add_seconds : Z -> Z -> option Z;               (* DateTime + Duration; None: it panics *)
  totp_check : string -> bytes -> Z -> string -> result string bool;  (* TOTP::new (account), check *)
  totp_url : bytes -> string -> result string string;       (* TOTP::new, get_url *)
  base32 : bytes -> string;
  issue_cert : bytes -> string -> Z -> result string CertBundle;  (* randomness, name, ttl_days *)
  key_json : BlackbookKey -> CryptoResult bytes;  (* serde_json::to_vec *)
}.

(** ** Application state *)

Record AppState := MkState {
  app_keys : BlackbookKey;
  audit_hmac_key : bytes;
  name_index_key : bytes;
  metadata_enc_key : bytes;
  managed_key_kek : bytes;
}.

(** Request headers the handlers look at. *)
Record Headers := MkHeaders { h_request_id : option string; h_mfa : option string }.

(** The authenticated caller; [auth_method] has a single value. *)
Record AuthenticatedClient := MkClientId { ac_id : string; ac_name : string; ac_role : string }.

Definition is_admin (c : AuthenticatedClient) : bool := String.eqb (ac_role c) "admin".

(** [x == y] on strings and [x == &Some(y)] on nullable columns. *)
Infix "=s?" := String.eqb (at level 70) : bbk_scope.
Definition opt_is (o : option string) (s : string) : bool :=
  match o with Some x => String.eqb x s | None => false end.
Definition is_null {A} (o : option A) : bool := match o with Some _ => false | None => true end.

(** ** Deterministic lookup identifiers *)

Section ids.
Context {P : Primitives}.

(** [(len as u32).to_be_bytes() || bytes] *)
Definition len_prefixed (p : bytes) : bytes := be_bytes 4 (Z.of_nat (length p)) ++ p.

Definition hmac_id_preimage (index_key scope : bytes) (parts : list bytes) : bytes :=
  scope ++ [byte_of_Z 0] ++ len_prefixed index_key ++ concat (map len_prefixed parts).

Definition hmac_id (index_key scope : bytes) (parts : list bytes) : string :=
  hex_encode (sha3_256 (hmac_id_preimage index_key scope parts)).

Definition name_id_hex (index_key : bytes) (domain_id name : string) : string :=
  hmac_id index_key (as_bytes "blackbook-name-id/v1") [as_bytes domain_id; as_bytes name].

Definition client_name_id_hex (index_key : bytes) (name : string) : string :=
  hmac_id index_key (as_bytes "blackbook-client-name-id/v1") [as_bytes name].

Definition domain_name_id_hex (index_key : bytes) (name : string) : string :=
  hmac_id index_key (as_bytes "blackbook-domain-name-id/v1") [as_bytes name].

Definition file_hash_id_hex (index_key : bytes) (plaintext_hash_hex : string) : string :=
  hmac_id index_key (as_bytes "blackbook-file-hash-id/v1") [as_bytes plaintext_hash_hex].

(** [i64::from_be_bytes(d[..8])] *)
Definition advisory_key (s : string) : Z := wrap_i64 (be_value (take 8 (sha3_256 (as_bytes s)))).

(** ** Field encryption *)

(** [nonce] is the fresh draw of [aead_seal]. *)
Definition enc_field_with (nonce metadata_enc_key plaintext : bytes) : result string bytes :=
  map_err (fun e => "metadata encrypt: " +:+ crypto_msg e) (aead_seal nonce plaintext metadata_enc_key).

Definition enc_field (metadata_enc_key plaintext : bytes) : M (result string bytes) :=
  nonce ← draw 12; mret (enc_field_with nonce metadata_enc_key plaintext).

Definition dec_field (metadata_enc_key ciphertext : bytes) : result string bytes :=
  map_err (fun e => "metadata decrypt: " +:+ crypto_msg e) (aead_open ciphertext metadata_enc_key).

Definition enc_str (metadata_enc_key : bytes) (s : string) : M (result string bytes) :=
  enc_field metadata_enc_key (as_bytes s).

Definition dec_str (metadata_enc_key ciphertext : bytes) : result string string :=
  bytes ← dec_field metadata_enc_key ciphertext;
  ok_or "metadata decrypt: not utf-8: invalid utf-8 sequence" (from_utf8 bytes).

(** [Id::new(n).encode()] and [.to_hex()] *)
Definition new_id (n : nat) : M string := raw ← draw n; mret (hex_encode raw).
End ids.

(** ** Query strings *)

Record DomainQuery := MkDomainQuery { q_domain : option string }.

Definition DomainQuery_name (q : DomainQuery) : string := default "default" (q_domain q).

Record FilePolicyQuery := MkFilePolicyQuery {
  fq_mfa_required : option bool;
  fq_delete_on_read : option bool;
  fq_max_reads : option Z;
  fq_rotate_on_read : option bool;
  fq_preserve_on_cleanup : option bool;
  fq_no_overwrite : option bool;
  fq_overwrite : option bool;
  fq_quorum : option Z;
  fq_signatories : option string;
  fq_external : option bool;
  fq_meta : option string;
  fq_resident : option bool;
  fq_key_component : option string;
  fq_server_copy : option bool;
}.

Definition FilePolicyQuery_flags (q : FilePolicyQuery) : ResourceFlags :=
  {| mfa_required := default false (fq_mfa_required q);
     delete_on_read := default false (fq_delete_on_read q);
     max_reads := fq_max_reads q;
     rotate_on_read := default false (fq_rotate_on_read q);
     preserve_on_cleanup := default false (fq_preserve_on_cleanup q);
     no_overwrite := default false (fq_no_overwrite q) |}.

Definition FilePolicyQuery_access_policy (q : FilePolicyQuery) : result string (option AccessPolicy) :=
  match fq_quorum q, fq_signatories q with
  | None, None => Ok None
  | None, Some s => if s =s? "" then Ok None else Err "signatories requires quorum"
  | Some _, None => Err "quorum requires signatories"
  | Some k, Some s =>
      if s =s? "" then Err "quorum requires signatories"
      else Ok (Some (MkPolicy k (List.filter (fun x => negb (x =s? ""))
                                   (map trim (split_on ","%char s)))))
  end.

(** ** Actions *)

Inductive AclAction := Create | Read | Update | Delete.

Definition action_bit (a : AclAction) : Z :=
  match a with Create => 1 | Read => 2 | Update => 4 | Delete => 8 end.

Definition action_name (a : AclAction) : string :=
  match a with Create => "create" | Read => "read" | Update => "update" | Delete => "delete" end.

(** One turn of the loop of [parse_actions]. *)
Definition parse_action (a : string) : result string Z :=
  let l := to_ascii_lowercase a in
  if l =s? "create" then Ok (action_bit Create)
  else if l =s? "read" then Ok (action_bit Read)
  else if l =s? "update" then Ok (action_bit Update)
  else if l =s? "delete" then Ok (action_bit Delete)
  else Err ("unknown action '" +:+ l +:+ "'").

Fixpoint parse_actions_from (mask : Z) (actions : list string) : result string Z :=
  match actions with
  | [] => if mask =? 0 then Err "at least one action required" else Ok mask
  | a :: rest => bit ← parse_action a; parse_actions_from (Z.lor mask bit) rest
  end.

Definition parse_actions (actions : list string) : result string Z := parse_actions_from 0 actions.

Definition actions_from_mask (mask : Z) : list string :=
  concat (map (fun a => if negb (Z.land mask (action_bit a) =? 0) then [action_name a] else [])
            [Create; Read; Update; Delete]).

(** [(threshold_k, signatory_count)] for list views. *)
Definition policy_threshold (p : option AccessPolicy) : option Z * option nat :=
  match p with
  | None => (None, None)
  | Some v => (Some (threshold_k v), Some (length (signatories v)))
  end.

Definition require_admin (c : AuthenticatedClient) : result Response unit :=
  if is_admin c then Ok tt else Err (err 403 "forbidden" "admin role required").

(** * Lemmas *)

Section lemmas.
Context {P : Primitives} {L : PrimitiveLaws P}.

Lemma dec_enc_str nonce mek s c :
  is_str s -> length nonce = 12%nat -> enc_field_with nonce mek (as_bytes s) = Ok c ->
  dec_str mek c = Ok s.
Proof.
  unfold enc_field_with, dec_str, dec_field. intros Hs Hn.
  destruct (aead_seal nonce (as_bytes s) mek) as [b|e] eqn:E; simpl; [|done]. intros [= <-].
  rewrite (aead_roundtrip nonce _ _ _ Hn E). simpl. by rewrite Hs.
Qed.

Lemma len_prefixed_inj p q r s :
  Z.of_nat (length p) < 2 ^ 32 -> Z.of_nat (length q) < 2 ^ 32 ->
  len_prefixed p ++ r = len_prefixed q ++ s -> p = q /\ r = s.
Proof.
  unfold len_prefixed. intros Hp Hq H. rewrite <- !app_assoc in H.
  apply app_inj_1 in H as [Hl H]; [|by rewrite !be_bytes_length].
  apply be_bytes_inj in Hl. change (256 ^ Z.of_nat 4) with (2 ^ 32) in Hl.
  rewrite !Z.mod_small in Hl by lia. apply app_inj_1 in H; [done|lia].
Qed.

Lemma parts_inj ps qs :
  Forall (fun p : bytes => Z.of_nat (length p) < 2 ^ 32) ps ->
  Forall (fun p : bytes => Z.of_nat (length p) < 2 ^ 32) qs ->
  length ps = length qs ->
  concat (map len_prefixed ps) = concat (map len_prefixed qs) -> ps = qs.
Proof.
  intros Hp. revert qs. induction Hp as [|p ps Hpl _ IH]; intros [|q qs] Hq Hl; simpl; try done.
  intros H. apply Forall_cons in Hq as [Hql Hq].
  apply len_prefixed_inj in H as [-> H]; [|done..]. f_equal. by apply IH; [|injection Hl|].
Qed.

Lemma hex_encode_inj b c : hex_encode b = hex_encode c -> b = c.
Proof. intros H. pose proof (hex_roundtrip b) as Hb. rewrite H, hex_roundtrip in Hb. by simplify_eq. Qed.

(** Among the messages hashed on either side, two different ones with the same
    SHA3-256 digest: a collision exhibited, not merely one that exists. *)
Definition collides (xs ys : list bytes) : Prop :=
  exists a b, a ∈ xs /\ b ∈ ys /\ a <> b /\ sha3_256 a = sha3_256 b.

Lemma sha3_eq_or_collides a b : sha3_256 a = sha3_256 b -> a = b \/ collides [a] [b].
Proof.
  intros H. destruct (decide (a = b)); [by left|]. right. exists a, b.
  split; [by apply list_elem_of_singleton|]. split; [by apply list_elem_of_singleton|done].
Qed.

Lemma collides_mono xs ys xs' ys' : xs ⊆ xs' -> ys ⊆ ys' -> collides xs ys -> collides xs' ys'.
Proof. intros Hx Hy (a & b & Ha & Hb & H). exists a, b. auto. Qed.
End lemmas.

Lemma writes_enc_str ps {P : Primitives} k s : writes ps (enc_str k s).
Proof. unfold enc_str, enc_field. solve_writes. Qed.
Lemma writes_enc_field ps {P : Primitives} k s : writes ps (enc_field k s).
Proof. unfold enc_field. solve_writes. Qed.
Lemma writes_new_id ps {P : Primitives} n : writes ps (new_id n).
Proof. unfold new_id. solve_writes. Qed.

#[export] Hint Extern 1 (writes _ (enc_str _ _)) => apply (writes_enc_str []) : writes.
#[export] Hint Extern 1 (writes _ (enc_field _ _)) => apply (writes_enc_field []) : writes.
#[export] Hint Extern 1 (writes _ (new_id _)) => apply (writes_new_id []) : writes.
