(* ===== verification/ToyPlatform.v ===== *)
(** A concrete instance of [ServerBase.Platform] and a small application state,
    for the witnesses that evaluate handlers. *)
From S2P Require Import Prelude AccessRules Crypto ToyPrimitives Store Effects ServerBase.

Definition toy_parse (s : string) : option Z := option_map (fun z => z * micros) (parse_u32 s).

(** A master key as bytes: a list as its bytes, each behind a 1, ended by 0. *)
Fixpoint toy_list (l : bytes) : bytes :=
  match l with [] => [Byte.x00] | b :: l' => Byte.x01 :: b :: toy_list l' end.

Fixpoint toy_nat (n : nat) : bytes :=
  match n with O => [Byte.x00] | S n' => Byte.x01 :: toy_nat n' end.

Definition toy_secondary (k : SecondaryKey) : bytes :=
  toy_list (seed (sk_primary k)) ++ toy_list (as_bytes (sk_domain k))
  ++ toy_nat (match sk_kdf k with Scrypt => 0 | Pbkdf2Sha3_512 => 1 end) ++ toy_nat (sk_length k).

Definition toy_key_bytes (k : BlackbookKey) : bytes :=
  toy_list (bk_id k) ++ toy_list (wk_wrapped (symmetric k)) ++ toy_secondary (wk_wrapper (symmetric k))
  ++ toy_nat (wk_iterations (symmetric k)) ++ toy_list (seed (root k)) ++ toy_secondary (secret_layer1 k)
  ++ toy_secondary (secret_layer2 k) ++ toy_secondary (file_dek_kek k) ++ toy_secondary (index k)
  ++ toy_secondary (hmac k) ++ toy_secondary (mfa_secret_kek k) ++ toy_list (signing_key (asymmetric k))
  ++ toy_list (verifying_key (asymmetric k)) ++ toy_list (exchange_key k).

#[export] Instance toy_platform : Platform := {|
  civil_of now := Civil (now / micros / 60 mod 60) (now / micros / 3600 mod 24)
                    (now / micros / 86400 mod 28 + 1) 1 (now / micros / 86400 mod 7);
  fmt_rfc3339 := show_Z;
  fmt_iso := show_Z;
  fmt_compact := show_Z;
  fmt_text := show_Z;
  fmt_dotted := show_Z;
  parse_rfc3339 := toy_parse;
  parse_datetime s _ := toy_parse s;
  parse_date := toy_parse;
  add_seconds now n := if Z.abs (now + n * micros) <=? 2 ^ 62 then Some (now + n * micros) else None;
  totp_check _ _ _ code := Ok (String.eqb code "123456");
  totp_url secret name := Ok ("otpauth://" +:+ name);
  base32 := toy_hex;
  issue_cert entropy name ttl := Ok (MkCert ("cert:" +:+ toy_hex entropy) "key" (toy_hex entropy));
  key_json k := Ok (toy_key_bytes k);
|}.

Definition toy_root : PrimaryKey := {| seed := be_bytes 32 77 |}.

Definition toy_bundle : BlackbookKey :=
  {| bk_id := be_bytes 32 1;
     symmetric := {| wk_wrapped := be_bytes 32 3; wk_wrapper := SecondaryKey_scrypt toy_root "key-wrap/v1" 32;
                     wk_iterations := 0 |};
     root := toy_root;
     secret_layer1 := SecondaryKey_scrypt toy_root "secret/layer1/v1" 32;
     secret_layer2 := SecondaryKey_scrypt toy_root "secret/layer2/v1" 32;
     file_dek_kek := SecondaryKey_scrypt toy_root "file/dek-kek/v1" 32;
     index := SecondaryKey_pbkdf2 toy_root "index/v1" 32;
     hmac := SecondaryKey_pbkdf2 toy_root "hmac/v1" 32;
     mfa_secret_kek := SecondaryKey_scrypt toy_root "mfa/secret-kek/v1" 32;
     asymmetric := {| signing_key := be_bytes 32 8; verifying_key := ed25519_public (be_bytes 32 8) |};
     exchange_key := be_bytes 32 9 |}.

Definition toy_state : AppState :=
  MkState toy_bundle (be_bytes 32 11) (be_bytes 32 22) (be_bytes 32 33) (be_bytes 32 44).

(** Metadata ciphertext of a name, as the server would store it. *)
Definition toy_enc (s : string) : bytes :=
  default [] (ok (aead_seal (be_bytes 12 5) (as_bytes s) (metadata_enc_key toy_state))).

(** A client row with both factors. *)
Definition toy_client (id name role token fp : string) : Client :=
  MkClient id (toy_enc name) (client_name_id_hex (name_index_key toy_state) name)
    (hex_encode (sha3_256 (as_bytes token))) role 0 None None (Some fp) None false.

Definition toy_domain (id name : string) : Domain :=
  MkDomain id (toy_enc name) (domain_name_id_hex (name_index_key toy_state) name) None 0 None.

Definition toy_acl (id domain client pattern : string) (actions : Z) (max_uses : option Z) : Acl :=
  MkAcl id domain (Some client) None (toy_enc pattern) actions None None max_uses 0 0 None
    None None 0 None None.

(** Alice, an ordinary member of [default], Bob, another, and an administrator. *)
Definition toy_db : Db :=
  MkDb [toy_client "c-alice" "alice" "user" "tok-a" "fp-a";
        toy_client "c-bob" "bob" "user" "tok-b" "fp-b";
        toy_client "c-root" "root" "admin" "tok-r" "fp-r"]
       [toy_domain "d-default" "default"; toy_domain "d-other" "other"]
       [MkMember "d-default" "c-alice" "user" 0; MkMember "d-default" "c-bob" "user" 0;
        MkMember "d-other" "c-alice" "user" 0]
       [] [toy_acl "acl-1" "d-default" "c-alice" "*" 15 None;
           toy_acl "acl-2" "d-other" "c-alice" "*" 15 None;
           toy_acl "acl-3" "d-default" "c-bob" "db*" 2 (Some 1)]
       [] [] [] [] [] [] [] [] 0 0.

Definition toy_world : World := MkWorld toy_db ∅ (1000 * micros) 0 [].

Definition alice : AuthenticatedClient := MkClientId "c-alice" "alice" "user".
Definition bob : AuthenticatedClient := MkClientId "c-bob" "bob" "user".
Definition administrator : AuthenticatedClient := MkClientId "c-root" "root" "admin".
