(* ===== verification/AuditLog.v ===== *)
(** The tamper-evident audit log: the keyed hash chain ([auth::audit],
    [auth::compute_audit_hash]) and its verification and listing endpoints of
    [src/src/server.rs]. Archival is in [Archive.v]. *)
From S2P Require Import Prelude AccessRules Crypto Store Effects Concurrency ServerBase.

(** ** Row hash *)

Inductive AuditStatus := AuditOk | AuditDenied | AuditNotFound | AuditError.

Definition status_str (s : AuditStatus) : string :=
  match s with
  | AuditOk => "ok"
  | AuditDenied => "denied"
  | AuditNotFound => "not_found"
  | AuditError => "error"
  end.

Definition write_audit_req (s : string) : bytes := len_prefixed (as_bytes s).

Definition write_audit_opt (o : option string) : bytes :=
  match o with
  | None => be_bytes 4 (2 ^ 32 - 1)
  | Some s => write_audit_req s
  end.

(** What a row's hash binds besides its predecessor. *)
Record AuditEntry := MkEntry {
  e_ts : Z;
  e_client : option string;
  e_action : string;
  e_resource : option string;
  e_status : string;
  e_message : option string;
}.

Section chain.
Context {P : Primitives}.

Definition audit_preimage (hmac_key prev_hash : bytes) (e : AuditEntry) : bytes :=
  as_bytes "blackbook-audit-row/v1" ++ [byte_of_Z 0]
  ++ len_prefixed hmac_key
  ++ prev_hash
  ++ be_bytes 8 (e_ts e)
  ++ write_audit_opt (e_client e)
  ++ write_audit_req (e_action e)
  ++ write_audit_opt (e_resource e)
  ++ write_audit_req (e_status e)
  ++ write_audit_opt (e_message e).

Definition compute_audit_hash (hmac_key prev_hash : bytes) (e : AuditEntry) : bytes :=
  sha3_256 (audit_preimage hmac_key prev_hash e).

(** [hex::decode_to_slice] into 32 bytes *)
Definition hex32 (s : string) : option bytes :=
  match hex_decode s with
  | Some b => if (length b =? 32)%nat then Some b else None
  | None => None
  end.

Definition genesis : bytes := replicate 32 (byte_of_Z 0).

(** ** Appending *)

(** Seal an optional column of the row; an error skips the whole row. *)
Definition enc_opt (mek : bytes) (o : option string) : M (result CryptoError (option bytes)) :=
  match o with
  | None => mret (Ok None)
  | Some s => nonce ← draw 12; mret (Some <$> aead_seal nonce (as_bytes s) mek)
  end.

Definition last_row (d : Db) : option AuditRow := head (order_by (fun r => - au_id r) (audits d)).

Definition chain_head (d : Db) : bytes :=
  match last_row d with
  | Some r => default genesis (hex32 (au_row_hash r))
  | None => genesis
  end.

Definition audit_insert (hmac_key : bytes) (e : AuditEntry) (enc_resource enc_message : option bytes)
    (d : Db) : Db :=
  let prev := chain_head d in
  let id := audit_seq d + 1 in
  let row := MkAuditRow id (e_ts e) (e_client e) (e_action e) (e_status e) enc_resource enc_message
               (Some (hex_encode prev)) (hex_encode (compute_audit_hash hmac_key prev e)) in
  upd_audit_seq (fun _ => id) (upd_audits (insert_row row) d).

(** The advisory lock makes reading the head and inserting one step; a failure
    is only logged. *)
Definition audit (hmac_key mek : bytes) (client_id : option string) (action : string)
    (resource : option string) (st : AuditStatus) (message : option string) : M unit :=
  ts ← utc_now;
  enc_resource ← enc_opt mek resource;
  match enc_resource with
  | Err _ => mret tt
  | Ok enc_resource =>
      enc_message ← enc_opt mek message;
      match enc_message with
      | Err _ => mret tt
      | Ok enc_message =>
          let e := MkEntry ts client_id action resource (status_str st) message in
          ignore (transaction (exec (fun _ => audit_insert hmac_key e enc_resource enc_message)))
      end
  end.

(** ** Verifying the live log *)

Definition dec_opt (mek : bytes) (why : string) (o : option bytes) : result string (option string) :=
  match o with
  | None => Ok None
  | Some b => match dec_str mek b with Ok s => Ok (Some s) | Err _ => Err why end
  end.

(** The plaintext content of a stored row. *)
Definition row_entry (mek : bytes) (r : AuditRow) : result string AuditEntry :=
  resource ← dec_opt mek "resource_enc failed to decrypt" (au_resource_enc r);
  message ← dec_opt mek "message_enc failed to decrypt" (au_message_enc r);
  Ok (MkEntry (au_ts r) (au_client r) (au_action r) resource (au_status r) message).

(** One turn of the loop of [verify_audit]: the next chain value. The column
    [row_hash] is NOT NULL, so the branch for a missing hash has no case. *)
Definition verify_row (key mek prev : bytes) (r : AuditRow) : result string bytes :=
  e ← row_entry mek r;
  if negb (bool_decide (au_prev_hash r = Some (hex_encode prev)))
  then Err "prev_hash does not match the preceding row (deletion or reorder?)"
  else if negb (hex_encode (compute_audit_hash key prev e) =s? au_row_hash r)
  then Err "row_hash mismatch (row contents were altered?)"
  else ok_or "row_hash is not valid hex" (hex32 (au_row_hash r)).

Inductive Verdict :=
| Verified (count : Z) (head : bytes)
| Broken (verified_through first_bad_id : Z) (reason : string).

Fixpoint verify_rows (key mek prev : bytes) (verified : Z) (rows : list AuditRow) : Verdict :=
  match rows with
  | [] => Verified verified prev
  | r :: rest =>
      match verify_row key mek prev r with
      | Ok next => verify_rows key mek next (verified + 1) rest
      | Err why => Broken verified (au_id r) why
      end
  end.

(** The latest usable anchor: [(archived_through_id, final_row_hash)]. *)
Definition latest_audit_anchor (d : Db) : option (Z * bytes) :=
  a ← head (order_by (fun a => - an_through a) (anchors d));
  h ← hex32 (an_final_hash a);
  Some (an_through a, h).

Definition chain_start (d : Db) : bytes := default genesis (snd <$> latest_audit_anchor d).

Definition rows_asc (d : Db) : list AuditRow := order_by au_id (audits d).

Definition verdict_of (key mek : bytes) (d : Db) : Verdict :=
  verify_rows key mek (chain_start d) 0 (rows_asc d).

Definition broken_json (verified id : Z) (why : string) : Json :=
  JObj [("ok", JBool false); ("verified_through", JNum verified); ("first_bad_id", JNum id);
        ("reason", JStr why)].

Section endpoints.
Context {PF : Platform} (state : AppState).

Abbreviation log := (audit (audit_hmac_key state) (metadata_enc_key state)).

Definition verify_audit (caller : AuthenticatedClient) : M Response :=
  _ ← or_reply (mret (require_admin caller));
  rows ← or_500 (query (fun _ d => rows_asc d));
  prev ← or_500 (query (fun _ d => chain_start d));
  match verify_rows (audit_hmac_key state) (metadata_enc_key state) prev 0 rows with
  | Broken verified id why => mret (json_response 200 (broken_json verified id why))
  | Verified verified _ =>
      _ ← log (Some (ac_id caller)) "audit.verify" None AuditOk
            (Some ("verified " +:+ show_Z verified +:+ " rows"));
      mret (json_response 200 (JObj [("ok", JBool true); ("verified_through", JNum verified)]))
  end.

(** One item of [list_audit]; columns that do not decrypt show as absent. *)
Definition audit_item (d : Db) (r : AuditRow) : Json :=
  let dec (o : option bytes) := opt_json JStr (b ← o; ok (dec_str (metadata_enc_key state) b)) in
  let client_name_enc :=
    id ← au_client r; c_name_enc <$> first_row (fun c => c_id c =s? id) (clients d) in
  JObj [("id", JNum (au_id r)); ("ts", JStr (fmt_text (au_ts r)));
        ("client_id", opt_json JStr (au_client r)); ("client_name", dec client_name_enc);
        ("action", JStr (au_action r)); ("resource", dec (au_resource_enc r));
        ("status", JStr (au_status r)); ("message", dec (au_message_enc r))].

Definition list_audit (limit : Z) (caller : AuthenticatedClient) : M Response :=
  _ ← or_reply (mret (require_admin caller));
  let limit := Z.min (Z.max limit 1) 1000 in
  items ← or_500 (query (fun _ d =>
    map (audit_item d) (take (Z.to_nat limit) (order_by (fun r => - au_ts r) (audits d)))));
  mret (json_response 200 (JObj [("entries", JArr items); ("count", JNum (Z.of_nat (length items)))])).
End endpoints.
End chain.

Lemma writes_enc_opt ps {P : Primitives} mek o : writes ps (enc_opt mek o).
Proof. unfold enc_opt. solve_writes. Qed.

Lemma writes_audit {P : Primitives} key mek c a r st m : writes [PAudits] (audit key mek c a r st m).
Proof.
  unfold audit. solve_writes; try apply writes_enc_opt.
Qed.
#[export] Hint Resolve @writes_audit : writes.

(** Audit writes never fail a request. *)
Section returns.
Context {P : Primitives}.

Lemma returns_enc_opt mek o : returns (enc_opt mek o).
Proof. destruct o; [|apply returns_ret]. apply returns_bind; [apply returns_perform|intros; apply returns_ret]. Qed.

Lemma returns_audit key mek c a r st m : returns (audit key mek c a r st m).
Proof.
  unfold audit. apply returns_bind; [apply returns_perform|]. intros ts.
  apply returns_bind; [apply returns_enc_opt|]. intros [er|]; [|apply returns_ret].
  apply returns_bind; [apply returns_enc_opt|]. intros [em|]; [|apply returns_ret].
  apply returns_ignore, returns_transaction, returns_perform.
Qed.

Lemma calm_audit key mek c a r st m : calm (audit key mek c a r st m).
Proof. unfold audit, enc_opt, enc_str, enc_field. solve_calm. Qed.

Lemma refuses_audit key mek c a r st m : refuses (audit key mek c a r st m).
Proof. unfold audit, enc_opt. solve_refuses. Qed.
End returns.
#[export] Hint Resolve calm_audit : calm.
#[export] Hint Resolve refuses_audit : refuses.

