(* ===== verification/AuditChain.v ===== *)
(** Properties of the audit hash chain ([AuditLog.v]): every append, however
    requests interleave and operations fail, leaves a log that verifies; a log
    that verifies determines its own content up to a SHA3-256 collision. *)
From S2P Require Import Prelude Crypto ToyPrimitives Store Effects Concurrency ServerBase AuditLog.

Section chain_props.
Context {P : Primitives} {L : PrimitiveLaws P}.
Context (key mek : bytes).

(** ** The row hash binds every field *)

Definition small (s : string) : Prop := Z.of_nat (length (as_bytes s)) < 2 ^ 32 - 1.
Definition small_opt (o : option string) : Prop := match o with Some s => small s | None => True end.

(** The sizes Postgres and Rust can hold. *)
Definition small_entry (e : AuditEntry) : Prop :=
  i64_min <= e_ts e <= i64_max /\ small_opt (e_client e) /\ small (e_action e) /\
  small_opt (e_resource e) /\ small (e_status e) /\ small_opt (e_message e).

Lemma small_lt s : small s -> Z.of_nat (length (as_bytes s)) < 2 ^ 32.
Proof. unfold small. lia. Qed.

Lemma write_req_inj s t r r' :
  small s -> small t -> write_audit_req s ++ r = write_audit_req t ++ r' -> s = t /\ r = r'.
Proof.
  unfold write_audit_req. intros Hs Ht H. apply len_prefixed_inj in H as [H ->]; [|by apply small_lt..].
  by apply as_bytes_inj in H as ->.
Qed.

Lemma write_opt_inj o o' r r' :
  small_opt o -> small_opt o' -> write_audit_opt o ++ r = write_audit_opt o' ++ r' -> o = o' /\ r = r'.
Proof.
  assert (Hno : forall s r r', small s -> write_audit_req s ++ r <> be_bytes 4 (2 ^ 32 - 1) ++ r').
  { unfold write_audit_req, len_prefixed, small. intros s q q' Hs H. rewrite <- app_assoc in H.
    apply app_inj_1 in H as [H _]; [|by rewrite !be_bytes_length]. apply be_bytes_inj in H.
    change (256 ^ Z.of_nat 4) with (2 ^ 32) in H. rewrite !Z.mod_small in H by lia. lia. }
  destruct o as [s|], o' as [t|]; cbn [write_audit_opt small_opt]; intros Hs Ht H.
  - apply write_req_inj in H as [-> ->]; done.
  - by apply Hno in H.
  - symmetry in H. by apply Hno in H.
  - by apply app_inv_head in H as ->.
Qed.

Lemma i64_bytes_inj x y :
  i64_min <= x <= i64_max -> i64_min <= y <= i64_max -> be_bytes 8 x = be_bytes 8 y -> x = y.
Proof.
  unfold i64_min, i64_max. intros Hx Hy H. apply be_bytes_inj in H.
  change (256 ^ Z.of_nat 8) with (2 ^ 64) in H.
  assert (forall z, - 2 ^ 63 <= z <= 2 ^ 63 - 1 -> z mod 2 ^ 64 = if z <? 0 then z + 2 ^ 64 else z) as Hm.
  { intros z Hz. destruct (Z.ltb_spec z 0).
    - rewrite <- (Z.mod_add z 1), Z.mul_1_l by lia. apply Z.mod_small. lia.
    - apply Z.mod_small. lia. }
  rewrite !Hm in H by lia. destruct (Z.ltb_spec x 0), (Z.ltb_spec y 0); lia.
Qed.

Lemma audit_preimage_inj p q e f :
  length p = 32%nat -> length q = 32%nat -> small_entry e -> small_entry f ->
  audit_preimage key p e = audit_preimage key q f -> p = q /\ e = f.
Proof.
  intros Hp Hq (He1 & He2 & He3 & He4 & He5 & He6) (Hf1 & Hf2 & Hf3 & Hf4 & Hf5 & Hf6) H.
  unfold audit_preimage in H. do 3 apply app_inv_head in H.
  apply app_inj_1 in H as [-> H]; [|congruence].
  apply app_inj_1 in H as [Hts H]; [|by rewrite !be_bytes_length].
  apply i64_bytes_inj in Hts; [|done..].
  apply write_opt_inj in H as [Hc H]; [|done..]. apply write_req_inj in H as [Ha H]; [|done..].
  apply write_opt_inj in H as [Hr H]; [|done..]. apply write_req_inj in H as [Hs H]; [|done..].
  rewrite <- (app_nil_r (write_audit_opt (e_message e))), <- (app_nil_r (write_audit_opt (e_message f))) in H.
  apply write_opt_inj in H as [Hm _]; [|done..]. split; [done|]. destruct e, f; simpl in *; congruence.
Qed.

Lemma audit_hash_binds p q e f :
  length p = 32%nat -> length q = 32%nat -> small_entry e -> small_entry f ->
  compute_audit_hash key p e = compute_audit_hash key q f ->
  (p = q /\ e = f) \/ collides [audit_preimage key p e] [audit_preimage key q f].
Proof.
  intros Hp Hq He Hf H. destruct (sha3_eq_or_collides _ _ H) as [Heq|]; [left|by right].
  by apply audit_preimage_inj.
Qed.

(** ** Verification as a fold *)

Lemma verify_rows_app prev n rows1 rows2 m h :
  verify_rows key mek prev n (rows1 ++ rows2) = Verified m h <->
  exists k p, verify_rows key mek prev n rows1 = Verified k p /\
              verify_rows key mek p k rows2 = Verified m h.
Proof.
  revert prev n. induction rows1 as [|r rows1 IH]; intros prev n; simpl; [naive_solver|].
  destruct (verify_row key mek prev r); [apply IH|]. split; [done|]. by intros (? & ? & ? & _).
Qed.

Lemma verify_rows_count prev n rows m h :
  verify_rows key mek prev n rows = Verified m h -> m = n + Z.of_nat (length rows).
Proof.
  revert prev n. induction rows as [|r rows IH]; intros prev n; simpl; [intros [= -> _]; lia|].
  destruct (verify_row key mek prev r); [|done]. intros H%IH. lia.
Qed.

Lemma hex32_encode b : length b = 32%nat -> hex32 (hex_encode b) = Some b.
Proof. unfold hex32. intros H. by rewrite hex_roundtrip, H. Qed.

Lemma hash_length p e : length (compute_audit_hash key p e) = 32%nat.
Proof. apply sha3_256_length. Qed.

(** A verified row: its content, predecessor and hash. *)
Lemma verify_row_Ok prev r next :
  verify_row key mek prev r = Ok next <->
  exists e, row_entry mek r = Ok e /\ au_prev_hash r = Some (hex_encode prev) /\
            au_row_hash r = hex_encode (compute_audit_hash key prev e) /\
            next = compute_audit_hash key prev e.
Proof.
  unfold verify_row. destruct (row_entry mek r) as [e|why]; simpl; [|naive_solver].
  case_bool_decide as Hp; simpl; [|naive_solver].
  destruct (String.eqb_spec (hex_encode (compute_audit_hash key prev e)) (au_row_hash r)) as [Hh|Hh];
    simpl; [|naive_solver].
  rewrite <- Hh, hex32_encode by apply hash_length. simpl. naive_solver.
Qed.

(** ** Tamper evidence *)

Definition contents (rows : list AuditRow) : list (result string AuditEntry) := row_entry mek <$> rows.

Definition small_rows (rows : list AuditRow) : Prop :=
  Forall (fun r => forall e, row_entry mek r = Ok e -> small_entry e) rows.

Lemma verified_head_length prev n rows m h :
  length prev = 32%nat -> verify_rows key mek prev n rows = Verified m h -> length h = 32%nat.
Proof.
  revert prev n. induction rows as [|r rows IH]; intros prev n Hp; simpl; [by intros [= _ <-]|].
  destruct (verify_row key mek prev r) as [next|] eqn:E; [|done].
  apply verify_row_Ok in E as (e & _ & _ & _ & ->). apply IH, hash_length.
Qed.

(** The chain over plain entries: its final value and the messages hashed. *)
Definition run_chain (prev : bytes) (es : list AuditEntry) : bytes := foldl (compute_audit_hash key) prev es.

Fixpoint chain_preimages (prev : bytes) (es : list AuditEntry) : list bytes :=
  match es with
  | [] => []
  | e :: rest => audit_preimage key prev e :: chain_preimages (compute_audit_hash key prev e) rest
  end.

Lemma chain_preimages_snoc prev es e :
  chain_preimages prev (es ++ [e]) = chain_preimages prev es ++ [audit_preimage key (run_chain prev es) e].
Proof. revert prev. induction es as [|x es IH]; intros prev; [done|]. simpl. by rewrite IH. Qed.

Lemma run_chain_length prev es : length prev = 32%nat -> length (run_chain prev es) = 32%nat.
Proof. revert prev. induction es as [|e es IH]; intros prev Hp; [done|]. apply IH, hash_length. Qed.

(** A final value determines the entries and the start. *)
Lemma run_chain_binds es1 : forall es2 p q,
  length p = 32%nat -> length q = 32%nat -> length es1 = length es2 ->
  Forall small_entry es1 -> Forall small_entry es2 -> run_chain p es1 = run_chain q es2 ->
  (p = q /\ es1 = es2) \/ collides (chain_preimages p es1) (chain_preimages q es2).
Proof.
  induction es1 as [|e1 es1 IH] using rev_ind; intros es2 p q Hp Hq Hl Hs1 Hs2 Hh.
  { destruct es2; [|done]. by left. }
  destruct es2 as [|e2 es2 _] using rev_ind; [rewrite length_app in Hl; simpl in Hl; lia|].
  rewrite !length_app in Hl. simpl in Hl. apply Forall_app in Hs1 as [Hs1 [He1 _]%Forall_cons],
    Hs2 as [Hs2 [He2 _]%Forall_cons].
  unfold run_chain in Hh. rewrite !foldl_app in Hh. simpl in Hh. rewrite !chain_preimages_snoc.
  apply audit_hash_binds in Hh; [|by apply run_chain_length..|done|done].
  destruct Hh as [[Hpq ->]|Hc]; [|right; eapply collides_mono; [| |exact Hc]; set_solver].
  destruct (IH es2 p q) as [[-> ->]|Hc]; try done; [lia|by left|].
  right. eapply collides_mono; [| |exact Hc]; set_solver.
Qed.

(** The readable prefix of the rows' entries, and the messages hashed while
    the rows are verified. *)
Fixpoint entries (rows : list AuditRow) : list AuditEntry :=
  match rows with
  | [] => []
  | r :: rest => match row_entry mek r with Ok e => e :: entries rest | Err _ => [] end
  end.

Definition preimages (prev : bytes) (rows : list AuditRow) : list bytes := chain_preimages prev (entries rows).

Lemma verify_rows_entries prev n rows m h :
  verify_rows key mek prev n rows = Verified m h ->
  contents rows = Ok <$> entries rows /\ h = run_chain prev (entries rows).
Proof.
  revert prev n. induction rows as [|r rows IH]; intros prev n; simpl; [by intros [= _ <-]|].
  destruct (verify_row key mek prev r) as [next|] eqn:E; [|done].
  apply verify_row_Ok in E as (e & He & _ & _ & ->). intros [Hc ->]%IH.
  unfold contents in *. simpl. rewrite He. simpl. by rewrite Hc.
Qed.

Lemma small_entries rows : contents rows = Ok <$> entries rows -> small_rows rows -> Forall small_entry (entries rows).
Proof.
  intros Hc Hs. induction Hs as [|r rows Hr _ IH]; [constructor|]. simpl in *.
  destruct (row_entry mek r) as [e|]; [|done]. injection Hc as Hc. constructor; [by apply Hr|by apply IH].
Qed.

Lemma same_head_same_rows rows1 rows2 p1 p2 m1 m2 h :
  length p1 = 32%nat -> length p2 = 32%nat -> length rows1 = length rows2 ->
  small_rows rows1 -> small_rows rows2 ->
  verify_rows key mek p1 0 rows1 = Verified m1 h ->
  verify_rows key mek p2 0 rows2 = Verified m2 h ->
  (p1 = p2 /\ contents rows1 = contents rows2) \/ collides (preimages p1 rows1) (preimages p2 rows2).
Proof.
  intros Hp1 Hp2 Hl Hs1 Hs2 [Hc1 Hh1]%verify_rows_entries [Hc2 Hh2]%verify_rows_entries.
  destruct (run_chain_binds (entries rows1) (entries rows2) p1 p2) as [[-> He]|]; [done|done| | | |congruence| |by right].
  - apply (f_equal length) in Hc1, Hc2. unfold contents in *. rewrite !length_fmap in *. congruence.
  - by apply small_entries.
  - by apply small_entries.
  - left. split; [done|]. by rewrite Hc1, Hc2, He.
Qed.

(** ** Appending *)

Definition log_wf (d : Db) : Prop :=
  StronglySorted Z.lt (au_id <$> audits d) /\
  Forall (fun r => au_id r <= audit_seq d) (audits d) /\
  (audits d = [] -> anchors d = []).

Definition chain_valid (d : Db) : Prop :=
  log_wf d /\ exists n h, verdict_of key mek d = Verified n h.

Lemma last_row_last d : log_wf d -> last_row d = last (audits d).
Proof.
  intros (Hs & _ & _). unfold last_row. rewrite order_by_descending by done.
  destruct (audits d) as [|r l _] using rev_ind; [done|].
  by rewrite rev_app_distr, last_snoc.
Qed.

(** The value the verifier ends on is the head the writer continues from. *)
Lemma verified_head d n h :
  log_wf d -> verdict_of key mek d = Verified n h -> h = chain_head d.
Proof.
  intros Hwf H. unfold chain_head. rewrite last_row_last by done. destruct Hwf as (Hs & _ & Hanch).
  unfold verdict_of, rows_asc in H. rewrite order_by_ascending in H by done.
  destruct (audits d) as [|r l _] using rev_ind.
  - injection H as _ <-. unfold chain_start, latest_audit_anchor. by rewrite Hanch.
  - rewrite last_snoc. apply verify_rows_app in H as (k & p & _ & H). simpl in H.
    destruct (verify_row key mek p r) as [next|] eqn:E; [|done]. injection H as _ <-.
    apply verify_row_Ok in E as (e & _ & _ & -> & ->). by rewrite hex32_encode by apply hash_length.
Qed.

Lemma audit_insert_wf d e er em : log_wf d -> log_wf (audit_insert key e er em d).
Proof.
  intros (Hs & Hle & _). split; [|split]; simpl; unfold insert_row.
  - rewrite fmap_app. apply StronglySorted_snoc; [done|]. apply Forall_fmap.
    eapply Forall_impl; [exact Hle|]. simpl. lia.
  - apply Forall_app. split; [|by repeat constructor].
    eapply Forall_impl; [exact Hle|]. simpl. lia.
  - by destruct (audits d).
Qed.

(** The row an insertion adds. *)
Definition audit_row (d : Db) (e : AuditEntry) (er em : option bytes) : AuditRow :=
  MkAuditRow (audit_seq d + 1) (e_ts e) (e_client e) (e_action e) (e_status e) er em
    (Some (hex_encode (chain_head d))) (hex_encode (compute_audit_hash key (chain_head d) e)).

Lemma audit_insert_verifies d e er em n h :
  log_wf d -> verdict_of key mek d = Verified n h -> row_entry mek (audit_row d e er em) = Ok e ->
  verdict_of key mek (audit_insert key e er em d) =
    Verified (n + 1) (compute_audit_hash key (chain_head d) e).
Proof.
  intros Hwf Hv He. pose proof (verified_head d n h Hwf Hv) as Hh.
  pose proof (audit_insert_wf d e er em Hwf) as (Hs' & _ & _). destruct Hwf as (Hs & _ & _).
  unfold verdict_of, rows_asc in *. rewrite order_by_ascending in Hv |- * by done.
  change (chain_start (audit_insert key e er em d)) with (chain_start d).
  change (audits (audit_insert key e er em d)) with (audits d ++ [audit_row d e er em]).
  apply verify_rows_app. exists n, h. split; [done|]. simpl.
  assert (verify_row key mek h (audit_row d e er em) = Ok (compute_audit_hash key (chain_head d) e)) as ->;
    [|done].
  apply verify_row_Ok. exists e. rewrite Hh. done.
Qed.

(** Sealing an optional column and reading it back. *)
Definition sealed (o : option string) (c : option bytes) : Prop :=
  forall why, dec_opt mek why c = Ok o.

Lemma seal_opened nonce s c :
  is_str s -> length nonce = 12%nat -> aead_seal nonce (as_bytes s) mek = Ok c ->
  sealed (Some s) (Some c).
Proof.
  intros Hs Hn H why. unfold dec_opt. rewrite (dec_enc_str nonce mek s c Hs Hn); [done|].
  unfold enc_field_with. by rewrite H.
Qed.

Lemma sealed_row_entry d e er em :
  sealed (e_resource e) er -> sealed (e_message e) em ->
  row_entry mek (audit_row d e er em) = Ok e.
Proof.
  intros Hr Hm. unfold row_entry, audit_row; simpl. rewrite Hr. simpl. rewrite Hm. simpl. by destruct e.
Qed.

Lemma transact_exec (f : Z -> Db -> Db) w :
  exists l, (transact (exec f) w).2 = set_faults l w \/
            (transact (exec f) w).2 = set_db (f (clock w) (db w)) (set_faults l w).
Proof.
  unfold transact_with. destruct w as [d t c r [|[] l]]; simpl.
  - exists []. by right.
  - exists l. by left.
  - destruct l as [|[] l]; simpl; [exists []; by right|exists l; by left|].
    destruct l as [|[] l]; simpl; [exists []; by right|exists l; by left|exists l; by right].
Qed.

(** Every action of an append keeps the log verifiable. *)
Definition chain_inv (w : World) : Prop := chain_valid (db w).

Lemma enc_opt_safe o :
  is_str_opt o ->
  safe chain_inv (fun r => match r with Val (Ok c) => sealed o c | Val (Err _) => True | _ => False end)
    (enc_opt mek o).
Proof.
  destruct o as [s|]; simpl; [|done]. intros Hs w Hw. split; [done|]. simpl.
  destruct (aead_seal _ _ _) as [c|] eqn:E; simpl; [|done].
  eapply seal_opened; [done| |exact E]. apply rand_length.
Qed.

Lemma audit_safe c a r st m :
  is_str_opt r -> is_str_opt m -> safe chain_inv (fun o => o = Val tt) (audit key mek c a r st m).
Proof.
  intros Hr Hm. unfold audit. apply safe_bind. intros w Hw. split; [done|]. simpl.
  generalize (clock w) as ts. clear w Hw. intros ts. apply safe_bind. eapply safe_mono, enc_opt_safe; [|done].
  intros [[er|]| |]; simpl; [|done..]. intros Her.
  apply safe_bind. eapply safe_mono, enc_opt_safe; [|done].
  intros [[em|]| |]; simpl; [|done..]. intros Hem w Hw.
  destruct (transact_exec (fun _ => audit_insert key (MkEntry ts c a r (status_str st) m) er em) w)
    as [l Hl]. split.
  - destruct Hl as [-> | ->]; [done|]. destruct Hw as [Hwf (n & h & Hv)]. unfold chain_inv; simpl.
    split; [by apply audit_insert_wf|]. eexists _, _. eapply audit_insert_verifies; [done..|].
    by apply sealed_row_entry.
  - unfold transact_with. destruct w as [d t k q [|[] [|[] [|[] l']]]]; done.
Qed.

(** Without failures the row is appended with the content given. *)
Lemma audit_run c a r st m w :
  faults w = [] -> length mek = 32%nat -> is_str_opt r -> is_str_opt m ->
  Forall (fun o => match o with Some s => Z.of_nat (length (as_bytes s)) <= 2 ^ 36 - 32 | None => True end) [r; m] ->
  let e := MkEntry (clock w) c a r (status_str st) m in
  exists er em n,
    run (audit key mek c a r st m) w =
      (Val tt, set_rng n (set_db (audit_insert key e er em (db w)) w)) /\
    sealed r er /\ sealed m em.
Proof.
  intros Hf Hk Hr Hm Hlen e. destruct w as [d t k n l]; simpl in *; subst l.
  assert (Henc : forall o n, is_str_opt o ->
            match o with Some s => Z.of_nat (length (as_bytes s)) <= 2 ^ 36 - 32 | None => True end ->
            exists c n', run (enc_opt mek o) (MkWorld d t k n []) = (Val (Ok c), MkWorld d t k n' [])
                         /\ sealed o c).
  { intros [s|] i Hs Hsz; simpl; [|exists None, i; done].
    destruct (aead_seal_total (rand_bytes i 12) (as_bytes s) mek [] Hk Hsz) as [b Hb].
    change (aead_seal_aad ?x ?y ?z []) with (aead_seal x y z) in Hb. rewrite Hb.
    eexists (Some b), (S i). split; [done|]. eapply seal_opened; [done| |exact Hb]. apply rand_length. }
  apply Forall_cons in Hlen as [Hlr Hlen]. apply Forall_cons in Hlen as [Hlm _].
  destruct (Henc r n Hr Hlr) as (er & n1 & Her & Sr). destruct (Henc m n1 Hm Hlm) as (em & n2 & Hem & Sm).
  exists er, em, n2. split; [|done]. unfold audit.
  eapply run_then; [exact Her|].
  eapply run_then; [exact Hem|]. reflexivity.
Qed.
End chain_props.

(** * Properties *)

Lemma chain_start_length `{P : Primitives} d : length (chain_start d) = 32%nat.
Proof.
  unfold chain_start, latest_audit_anchor. destruct (head _) as [a|]; simpl; [|done].
  unfold hex32. destruct (hex_decode _) as [b|]; simpl; [|done].
  destruct (Nat.eqb_spec (length b) 32); done.
Qed.

(** Arguments of one call of [audit]. *)
Record AuditCall := MkCall {
  call_client : option string;
  call_action : string;
  call_resource : option string;
  call_status : AuditStatus;
  call_message : option string;
}.

Definition audit_call `{Primitives} (key mek : bytes) (c : AuditCall) : M unit :=
  audit key mek (call_client c) (call_action c) (call_resource c) (call_status c) (call_message c).

Definition call_ok (c : AuditCall) : Prop := is_str_opt (call_resource c) /\ is_str_opt (call_message c).

(** C3. However any number of audit writes interleave, whatever the clock does
    and whichever database operations fail, a log that verifies from its anchor
    still verifies afterwards. *)
Theorem audit_concurrent_chain {P : Primitives} {L : PrimitiveLaws P} key mek calls w w' ps' :
  chain_valid key mek (db w) -> Forall call_ok calls ->
  pool_steps (w, audit_call key mek <$> calls) (w', ps') ->
  chain_valid key mek (db w').
Proof.
  intros Hw Hc Hs.
  refine (proj1 (pool_safe (chain_inv key mek) _ _ (fun o => o = Val tt) w _ w' ps' Hw _ Hs)).
  - intros v t Hv. exact Hv.
  - intros v l Hv. exact Hv.
  - apply Forall_fmap. eapply Forall_impl; [exact Hc|]. intros c [Hr Hm].
    exact (audit_safe key mek _ _ _ _ _ Hr Hm).
Qed.

(** An audit write on a healthy database appends exactly one row, whose
    decrypted content is the content given and the clock reading; the log then
    verifies one row further, up to the new row's hash. *)
Theorem audit_appends {P : Primitives} {L : PrimitiveLaws P} key mek c w n h :
  faults w = [] -> length mek = 32%nat -> call_ok c ->
  Forall (fun o => match o with Some s => Z.of_nat (length (as_bytes s)) <= 2 ^ 36 - 32 | None => True end)
    [call_resource c; call_message c] ->
  log_wf (db w) -> verdict_of key mek (db w) = Verified n h ->
  let e := MkEntry (clock w) (call_client c) (call_action c) (call_resource c)
             (status_str (call_status c)) (call_message c) in
  exists row w', run (audit_call key mek c) w = (Val tt, w') /\
    audits (db w') = audits (db w) ++ [row] /\ row_entry mek row = Ok e /\
    verdict_of key mek (db w') = Verified (n + 1) (compute_audit_hash key h e).
Proof.
  intros Hf Hk [Hr Hm] Hsz Hwf Hv e.
  destruct (audit_run key mek (call_client c) (call_action c) (call_resource c) (call_status c)
              (call_message c) w Hf Hk Hr Hm Hsz) as (er & em & i & Hrun & Sr & Sm).
  exists (audit_row key (db w) e er em), (set_rng i (set_db (audit_insert key e er em (db w)) w)).
  split; [exact Hrun|]. split; [done|]. split; [by apply sealed_row_entry|]. simpl.
  rewrite (verified_head key mek _ _ _ Hwf Hv).
  eapply audit_insert_verifies; [done..|]. by apply sealed_row_entry.
Qed.

(** C9. Two audit tables that verify with the same row count and the same final
    chain value hold the same content in the same order, or two of
    the messages hashed on the way collide under SHA3-256: altering, deleting, inserting or reordering rows without
    changing the head is caught. *)
Theorem audit_tamper_evident {P : Primitives} {L : PrimitiveLaws P} key mek d1 d2 n h :
  verdict_of key mek d1 = Verified n h -> verdict_of key mek d2 = Verified n h ->
  small_rows mek (rows_asc d1) -> small_rows mek (rows_asc d2) ->
  (chain_start d1 = chain_start d2 /\
   contents mek (rows_asc d1) = contents mek (rows_asc d2)) \/
  collides (preimages key mek (chain_start d1) (rows_asc d1)) (preimages key mek (chain_start d2) (rows_asc d2)).
Proof.
  intros H1 H2 Hs1 Hs2. eapply same_head_same_rows; try done; try apply chain_start_length.
  apply verify_rows_count in H1, H2. lia.
Qed.

(** Verification does not notice a truncated tail: dropping any number of
    the newest rows of a log that verifies leaves a log that verifies. *)
Theorem audit_truncation_unnoticed {P : Primitives} {L : PrimitiveLaws P} key mek d k n h :
  log_wf d -> verdict_of key mek d = Verified n h ->
  exists m h', verdict_of key mek (upd_audits (take k) d) = Verified m h'.
Proof.
  intros (Hs & _ & _) H. unfold verdict_of, rows_asc in *. rewrite order_by_ascending in H by done.
  change (chain_start (upd_audits (take k) d)) with (chain_start d).
  change (audits (upd_audits (take k) d)) with (take k (audits d)).
  rewrite order_by_ascending.
  - rewrite <- (take_drop k (audits d)) in H. apply verify_rows_app in H as (m & p & H & _). eauto.
  - rewrite fmap_take. clear H. revert k. induction Hs as [|x l Hs IH Hx]; intros [|k]; simpl; constructor.
    + apply IH.
    + by apply Forall_take.
Qed.

(** ** Witnesses *)

Lemma small_rows_contents `{P : Primitives} mek rows es :
  contents mek rows = Ok <$> es -> Forall small_entry es -> small_rows mek rows.
Proof.
  intros Hc Hes. revert es Hc Hes. induction rows as [|r rows IH]; intros [|e es] Hc Hes; try done.
  - constructor.
  - injection Hc as Hr Hc. apply Forall_cons in Hes as [He Hes]. constructor; [|by apply (IH es)].
    intros e' He'. congruence.
Qed.

Section witnesses.
Let key : bytes := be_bytes 32 11.
Let mek : bytes := be_bytes 32 22.
Let call1 := MkCall (Some "c1") "read" (Some "db/password") AuditOk None.
Let call2 := MkCall None "list" None AuditDenied (Some "no").
Let w0 := MkWorld empty_db ∅ 1000000 0 [].
Let w2 := (run (audit_call key mek call2) (run (audit_call key mek call1) w0).2).2.

Lemma audit_concurrent_chain_witness :
  chain_valid key mek (db (run (audit_call key mek call1) w0).2).
Proof.
  apply (audit_concurrent_chain key mek [call1] w0 _ [Done (run (audit_call key mek call1) w0).1]).
  - split; [repeat constructor|]. exists 0, genesis. reflexivity.
  - repeat constructor.
  - exact (run_pool (audit_call key mek call1) w0 [audit_call key mek call1] 0 eq_refl).
Defined.

Lemma audit_appends_witness :
  exists row w', run (audit_call key mek call1) w0 = (Val tt, w') /\
    audits (db w') = [] ++ [row] /\
    row_entry mek row = Ok (MkEntry 1000000 (Some "c1") "read" (Some "db/password") "ok" None) /\
    verdict_of key mek (db w') = Verified 1
      (compute_audit_hash key genesis (MkEntry 1000000 (Some "c1") "read" (Some "db/password") "ok" None)).
Proof.
  apply (audit_appends key mek call1 w0 0 genesis).
  - reflexivity.
  - reflexivity.
  - repeat constructor.
  - repeat constructor. vm_compute. discriminate.
  - repeat constructor.
  - reflexivity.
Defined.

Lemma audit_tamper_evident_witness :
  (chain_start (db w2) = chain_start (db w2) /\
   contents mek (rows_asc (db w2)) = contents mek (rows_asc (db w2))) \/
  collides (preimages key mek (chain_start (db w2)) (rows_asc (db w2)))
           (preimages key mek (chain_start (db w2)) (rows_asc (db w2))).
Proof.
  assert (Hs : small_rows mek (rows_asc (db w2))).
  { apply (small_rows_contents mek _
      [MkEntry 1000000 (Some "c1") "read" (Some "db/password") "ok" None;
       MkEntry 1000000 None "list" None "denied" (Some "no")]).
    - vm_compute. reflexivity.
    - repeat constructor; vm_compute; discriminate. }
  apply (audit_tamper_evident key mek (db w2) (db w2) 2
           (match verdict_of key mek (db w2) with Verified _ h => h | _ => [] end)).
  - vm_compute. reflexivity.
  - vm_compute. reflexivity.
  - exact Hs.
  - exact Hs.
Defined.

Lemma audit_truncation_unnoticed_witness :
  exists m h', verdict_of key mek (upd_audits (take 1) (db w2)) = Verified m h'.
Proof.
  apply (audit_truncation_unnoticed key mek (db w2) 1 2
           (match verdict_of key mek (db w2) with Verified _ h => h | _ => [] end)).
  - vm_compute. repeat constructor; discriminate.
  - vm_compute. reflexivity.
Defined.
End witnesses.
