(* ===== verification/Archive.v ===== *)
(** Audit-log archival: the archive format of [src/src/audit_archive.rs] and the
    archive endpoints of [src/src/server.rs] (create with optional prune, verify,
    list). gzip and serde_json are the parameters of class [ArchiveCodec];
    archives lie under [data_dir/audit-archives]. *)
From stdpp Require Import sorting.
From S2P Require Import Prelude Crypto Store Effects ServerBase AuditLog.

(** ** The archive *)

Record ArchivedRow := MkArchived {
  ar_id : Z;
  ts_micros : Z;
  ar_client_id : option string;
  ar_action : string;
  ar_status : string;
  ar_resource : option string;
  ar_message : option string;
  ar_prev_hash : string;
  ar_row_hash : string;
}.

Record AuditArchive := MkArchive {
  ar_v : Z;
  ar_created_at : string;
  ar_count : Z;
  ar_first_id : Z;
  ar_last_id : Z;
  genesis_prev : string;
  final_row_hash : string;
  ar_rows : list ArchivedRow;
}.

Definition ARCHIVE_VERSION : Z := 1.
Definition ARCHIVE_MAGIC : bytes := as_bytes "BBKA1" ++ [byte_of_Z 0].

Inductive ArchiveError :=
| ArBadMagic
| ArCrypto
| ArGzip (msg : string)
| ArJson (msg : string).

(** [ArchiveError::to_string] *)
Definition archive_msg (e : ArchiveError) : string :=
  match e with
  | ArBadMagic => "not a Blackbook audit archive (bad magic)"
  | ArCrypto => "decrypt/authenticate failed — wrong key or the archive was tampered"
  | ArGzip m => "gzip: " +:+ m
  | ArJson m => "json: " +:+ m
  end.

(** serde_json and flate2 on byte vectors *)
Class ArchiveCodec := {
  archive_to_json : AuditArchive -> result string bytes;
  archive_from_json : bytes -> result string AuditArchive;
  gzip : bytes -> result string bytes;
  gunzip : bytes -> result string bytes;
}.

(** The fields a row's hash binds. *)
Definition archived_entry (r : ArchivedRow) : AuditEntry :=
  MkEntry (ts_micros r) (ar_client_id r) (ar_action r) (ar_resource r) (ar_status r) (ar_message r).

Record ArchiveVerification := MkVerification {
  av_ok : bool;
  av_count : Z;
  av_verified : Z;
  av_first_id : Z;
  av_last_id : Z;
  av_first_bad_id : option Z;
  av_reason : option string;
}.

Section format.
Context {P : Primitives} {C : ArchiveCodec}.

(** [nonce] is the fresh draw of [aead_seal]. *)
Definition build_archive (nonce enc_key : bytes) (archive : AuditArchive) : result ArchiveError bytes :=
  json ← map_err ArJson (archive_to_json archive);
  compressed ← map_err ArGzip (gzip json);
  sealed ← map_err (fun _ => ArCrypto) (aead_seal nonce compressed enc_key);
  Ok (ARCHIVE_MAGIC ++ sealed).

Definition strip_bytes (p b : bytes) : option bytes :=
  if bool_decide (take (length p) b = p) then Some (drop (length p) b) else None.

Definition open_archive (enc_key blob : bytes) : result ArchiveError AuditArchive :=
  body ← ok_or ArBadMagic (strip_bytes ARCHIVE_MAGIC blob);
  compressed ← map_err (fun _ => ArCrypto) (aead_open body enc_key);
  json ← map_err ArGzip (gunzip compressed);
  map_err ArJson (archive_from_json json).

(** The loop of [verify_archive]: the final chain value, or the index, the id
    and the reason of the first bad row. *)
Fixpoint verify_archived (mac_key prev : bytes) (i : Z) (rows : list ArchivedRow) :
    result (Z * Z * string) bytes :=
  match rows with
  | [] => Ok prev
  | r :: rest =>
      if negb (ar_prev_hash r =s? hex_encode prev)
      then Err (i, ar_id r, "prev_hash does not chain to the preceding row (drop/reorder?)")
      else
        let computed := compute_audit_hash mac_key prev (archived_entry r) in
        if negb (hex_encode computed =s? ar_row_hash r)
        then Err (i, ar_id r, "row_hash mismatch (row contents were altered?)")
        else verify_archived mac_key computed (i + 1) rest
  end.

Definition verify_archive (mac_key : bytes) (archive : AuditArchive) : ArchiveVerification :=
  let bail verified id why :=
    MkVerification false (ar_count archive) verified (ar_first_id archive) (ar_last_id archive)
      (Some id) (Some why) in
  match hex32 (genesis_prev archive) with
  | None => bail 0 (ar_first_id archive) "genesis_prev is not 32-byte hex"
  | Some prev =>
      match verify_archived mac_key prev 0 (ar_rows archive) with
      | Err (i, id, why) => bail i id why
      | Ok prev =>
          if negb (hex_encode prev =s? final_row_hash archive)
          then bail (Z.of_nat (length (ar_rows archive))) (ar_last_id archive)
                 "final chain value does not match final_row_hash"
          else MkVerification true (ar_count archive) (Z.of_nat (length (ar_rows archive)))
                 (ar_first_id archive) (ar_last_id archive) None None
      end
  end.

(** [#[serde(skip_serializing_if)]] drops the absent fields. *)
Definition verification_json (v : ArchiveVerification) : Json :=
  JObj ([("ok", JBool (av_ok v)); ("count", JNum (av_count v)); ("verified", JNum (av_verified v));
         ("first_id", JNum (av_first_id v)); ("last_id", JNum (av_last_id v))]
        ++ match av_first_bad_id v with Some id => [("first_bad_id", JNum id)] | None => [] end
        ++ match av_reason v with Some why => [("reason", JStr why)] | None => [] end).
End format.

(** ** Selecting the rows *)

(** [{n:010}] *)
Definition pad10 (n : Z) : string :=
  let digits := show_Z (Z.abs n) in
  let sign := if n <? 0 then "-" else "" in
  let width := (10 - String.length sign - String.length digits)%nat in
  sign +:+ of_bytes (replicate width (byte_of_Z 48)) +:+ digits.

(** Names of the archive directory; a file's size answers a metadata request. *)
Definition archive_path (fname : string) : string := "audit-archives/" +:+ fname.

Definition safe_archive_name (name : string) : bool :=
  negb (name =s? "") && ends_with ".bbka" name && negb (has_char "/" name)
  && negb (has_char "\" name) && negb (str_contains ".." name).

Record ArchiveQuery := MkArchiveQuery {
  aq_before : option string;
  aq_keep_last : option Z;
  aq_prune : bool;
}.

(** [take_while(p).count()] *)
Fixpoint count_while {A} (p : A -> bool) (l : list A) : nat :=
  match l with
  | [] => 0
  | x :: l' => if p x then S (count_while p l') else 0
  end.

(** Create the directory; it has no state of its own here. *)
Definition fs_create_dir (path : string) : M (result string unit) :=
  perform (file_op (fun t => Ok (tt, t))).

(** The names in a directory. *)
Definition names_in (dir : string) (t : gmap string bytes) : list string :=
  omap (M:=list) (fun kv : string * bytes => strip_prefix dir kv.1) (map_to_list t).

Definition fs_names (dir : string) : M (result string (list string)) :=
  perform (file_op (fun t => Ok (names_in dir t, t))).

Definition fs_size (path : string) : M (result string Z) :=
  perform (file_op (fun t => match t !! path with
                             | Some b => Ok (Z.of_nat (length b), t)
                             | None => Err "No such file or directory"
                             end)).

(** Listed files by name *)
Definition name_le (f g : string * Z) : Prop := String.leb f.1 g.1 = true.
#[export] Instance name_le_dec : RelDecision name_le.
Proof. intros f g. unfold name_le. apply _. Defined.

Section endpoints.
Context {P : Primitives} {PF : Platform} {C : ArchiveCodec} (state : AppState).

Abbreviation key := (audit_hmac_key state).
Abbreviation mek := (metadata_enc_key state).

Definition parse_audit_ts (s : string) : option Z :=
  match parse_rfc3339 s with
  | Some dt => Some dt
  | None =>
      match parse_datetime s "%Y-%m-%d %H:%M:%S" with
      | Some dt => Some dt
      | None =>
          match parse_datetime s "%Y-%m-%dT%H:%M:%S" with
          | Some dt => Some dt
          | None =>
              match parse_datetime s "%Y-%m-%d" with
              | Some dt => Some dt
              | None => parse_date s
              end
          end
      end
  end.

Definition audit_archive_enc_key (keys : BlackbookKey) : result string bytes :=
  map_err crypto_msg (handle_with_info (index keys) (as_bytes "audit-archive-enc/v1")).

(** How many of the oldest rows to archive; the newest row always stays. *)
Definition archive_cutoff (q : ArchiveQuery) (rows : list AuditRow) : result Response nat :=
  let total := length rows in
  cutoff ← match aq_keep_last q with
           | Some keep => Ok (total - Z.to_nat (Z.max keep 0))%nat
           | None =>
               match aq_before q with
               | Some before =>
                   match parse_audit_ts before with
                   | Some b => Ok (count_while (fun r => au_ts r <? b) rows)
                   | None => Err (json_response 400 (JObj [("error", JStr "unparseable 'before' timestamp")]))
                   end
               | None =>
                   Err (json_response 400 (JObj [("error",
                     JStr "specify 'keep_last' (keep N most recent) or 'before' (timestamp)")]))
               end
           end;
  Ok (Nat.min cutoff (total - 1)).

Definition archived_row (r : AuditRow) : result string ArchivedRow :=
  let dec (o : option bytes) :=
    match o with
    | Some x => Some <$> dec_str mek x
    | None => Ok None
    end in
  resource ← dec (au_resource_enc r);
  message ← dec (au_message_enc r);
  Ok (MkArchived (au_id r) (au_ts r) (au_client r) (au_action r) (au_status r) resource message
        (default "" (au_prev_hash r)) (au_row_hash r)).

Fixpoint archived_rows (rows : list AuditRow) : result string (list ArchivedRow) :=
  match rows with
  | [] => Ok []
  | r :: rest => a ← archived_row r; l ← archived_rows rest; Ok (a :: l)
  end.

(** [first] and [last] unwrap: the cutoff is positive here. *)
Definition archive_of (genesis_prev : bytes) (created_at : string) (arows : list ArchivedRow) :
    option AuditArchive :=
  first ← head arows;
  last ← last arows;
  Some (MkArchive ARCHIVE_VERSION created_at (Z.of_nat (length arows)) (ar_id first) (ar_id last)
          (hex_encode genesis_prev) (ar_row_hash last) arows).

Definition archive_name (a : AuditArchive) (now : Z) : string :=
  "audit-" +:+ pad10 (ar_first_id a) +:+ "-" +:+ pad10 (ar_last_id a) +:+ "-" +:+ fmt_compact now +:+ ".bbka".

Definition archived_range (anchor_id last_id : Z) (r : AuditRow) : bool :=
  (anchor_id <? au_id r) && (au_id r <=? last_id).

Definition prune_rows (anchor_id last_id : Z) (d : Db) : Db :=
  upd_audits (delete_where (archived_range anchor_id last_id)) d.

Definition insert_anchor (last_id : Z) (final fname : string) (now : Z) (d : Db) : Db :=
  let id := anchor_seq d + 1 in
  upd_anchor_seq (fun _ => id) (upd_anchors (insert_row (MkAnchor id last_id final fname now)) d).

Definition prune_step (anchor_id : Z) (a : AuditArchive) (fname : string) : M Z :=
  pruned ← or_500 (sql (fun _ d => Ok (Z.of_nat (affected (archived_range anchor_id (ar_last_id a)) (audits d)),
                                      prune_rows anchor_id (ar_last_id a) d)));
  _ ← or_500 (exec (insert_anchor (ar_last_id a) (final_row_hash a) fname));
  mret pruned.

Definition archived_json (a : AuditArchive) (fname : string) (pruned size : Z) : Json :=
  JObj [("archived", JNum (ar_count a)); ("first_id", JNum (ar_first_id a)); ("last_id", JNum (ar_last_id a));
        ("file", JStr fname); ("pruned", JNum pruned); ("size_bytes", JNum size)].

Definition nothing_json (why : string) : Json := JObj [("archived", JNum 0); ("message", JStr why)].

Definition archived_message (a : AuditArchive) (pruned : Z) : string :=
  "archived " +:+ show_Z (ar_count a) +:+ " rows (id " +:+ show_Z (ar_first_id a) +:+ ".."
  +:+ show_Z (ar_last_id a) +:+ "); pruned " +:+ show_Z pruned.

(** Seal the archive, write the file and, if asked, drop the rows. *)
Definition archive_write (anchor_id : Z) (a : AuditArchive) (prune : bool) (caller : AuthenticatedClient) :
    M Response :=
  enc_key ← pure_500 id (audit_archive_enc_key (app_keys state));
  nonce ← draw 12;
  blob ← pure_500 archive_msg (build_archive nonce enc_key a);
  _ ← str_500 (fs_create_dir "audit-archives");
  now ← utc_now;
  let fname := archive_name a now in
  _ ← str_500 (fs_write (archive_path fname) blob);
  pruned ← (if prune then prune_step anchor_id a fname else mret 0);
  _ ← audit key mek (Some (ac_id caller)) "audit.archive" (Some fname) AuditOk
        (Some (archived_message a pruned));
  mret (json_response 200 (archived_json a fname pruned (Z.of_nat (length blob)))).

Definition audit_archive_create (q : ArchiveQuery) (caller : AuthenticatedClient) : M Response :=
  _ ← or_reply (mret (require_admin caller));
  anchor ← or_500 (query (fun _ d => latest_audit_anchor d));
  let '(anchor_id, genesis_prev) := default (0, genesis) anchor in
  rows ← or_500 (query (fun _ d => order_by au_id (select (fun r => anchor_id <? au_id r) (audits d))));
  if (length rows <=? 1)%nat
  then mret (json_response 200 (nothing_json "fewer than 2 live rows — nothing to archive"))
  else
    cutoff ← or_reply (mret (archive_cutoff q rows));
    if (cutoff =? 0)%nat then mret (json_response 200 (nothing_json "nothing matched the cutoff"))
    else
      arows ← pure_500 id (archived_rows (take cutoff rows));
      created ← utc_now;
      match archive_of genesis_prev (fmt_rfc3339 created) arows with
      | None => raise 500 "panicked at Option::unwrap"
      | Some a =>
          let v := verify_archive key a in
          if negb (av_ok v)
          then mret (json_response 409 (JObj [("error",
                 JStr "the live audit chain does not verify over the selected range; refusing to archive");
                 ("detail", verification_json v)]))
          else archive_write anchor_id a (aq_prune q) caller
      end.

Definition audit_archive_verify (file : string) (caller : AuthenticatedClient) : M Response :=
  _ ← or_reply (mret (require_admin caller));
  if negb (safe_archive_name file)
  then mret (json_response 400 (JObj [("error", JStr "invalid archive name")]))
  else
    blob ← fs_read (archive_path file);
    match blob with
    | Err _ => mret (json_response 404 (JObj [("error", JStr "no such archive")]))
    | Ok blob =>
        enc_key ← pure_500 id (audit_archive_enc_key (app_keys state));
        match open_archive enc_key blob with
        | Err e => mret (json_response 200 (JObj [("ok", JBool false); ("reason", JStr (archive_msg e))]))
        | Ok archive => mret (json_response 200 (verification_json (verify_archive key archive)))
        end
    end.

Definition audit_archive_list (caller : AuthenticatedClient) : M Response :=
  _ ← or_reply (mret (require_admin caller));
  names ← fs_names "audit-archives/";
  files ← map_each (fun name => size ← fs_size (archive_path name); mret (name, unwrap_or 0 size))
            (filter (fun n => ends_with ".bbka" n = true) (unwrap_or [] names));
  let files := merge_sort name_le files in
  mret (json_response 200 (JObj [("archives",
    JArr (map (fun f => JObj [("file", JStr f.1); ("size_bytes", JNum f.2)]) files));
    ("count", JNum (Z.of_nat (length files)))])).
End endpoints.
