(* ===== verification/ArchiveProps.v ===== *)
(** Properties of audit archival ([Archive.v]): an archive made of a log that
    verifies opens and verifies, and pruning its rows leaves a log that
    verifies; an archive that verifies determines its content up to a SHA3-256
    collision. *)
From stdpp Require Import countable.
From S2P Require Import Prelude Text Crypto ToyPrimitives Store Effects CryptoOps ToyOps ServerBase ToyPlatform AuditLog AuditChain Archive.

(** ** Outside laws *)

Definition i64_range (z : Z) : Prop := i64_min <= z <= i64_max.

(** The values of the Rust types: text is UTF-8, integers are in range. *)
Definition archived_text (r : ArchivedRow) : Prop :=
  i64_range (ar_id r) /\ i64_range (ts_micros r) /\ is_str_opt (ar_client_id r) /\ is_str (ar_action r) /\
  is_str (ar_status r) /\ is_str_opt (ar_resource r) /\ is_str_opt (ar_message r) /\
  is_str (ar_prev_hash r) /\ is_str (ar_row_hash r).

Definition archive_text (a : AuditArchive) : Prop :=
  0 <= ar_v a < 256 /\ is_str (ar_created_at a) /\ 0 <= ar_count a < 2 ^ 64 /\
  i64_range (ar_first_id a) /\ i64_range (ar_last_id a) /\ is_str (genesis_prev a) /\
  is_str (final_row_hash a) /\ Forall archived_text (ar_rows a).

Class CodecLaws (C : ArchiveCodec) : Prop := {
  archive_json_roundtrip a j : archive_text a -> archive_to_json a = Ok j -> archive_from_json j = Ok a;
  gzip_roundtrip b z : gzip b = Ok z -> gunzip z = Ok b;
}.

(** chrono's formats are ASCII. *)
Class AsciiTimes (PF : Platform) : Prop := {
  compact_ascii t : all_chars is_ascii (fmt_compact t) = true;
  rfc3339_ascii t : all_chars is_ascii (fmt_rfc3339 t) = true;
}.

(** What the columns of a live row hold. *)
Definition text_row (r : AuditRow) : Prop :=
  i64_range (au_id r) /\ i64_range (au_ts r) /\ is_str_opt (au_client r) /\ is_str (au_action r) /\
  is_str (au_status r) /\ is_str_opt (au_prev_hash r) /\ is_str (au_row_hash r).

(** ** Lists *)

Lemma head_order_by_last {A} (f : A -> Z) l x :
  Forall (fun y => f x < f y) l -> head (order_by f (l ++ [x])) = Some x.
Proof.
  unfold order_by. rewrite foldr_app. simpl. induction 1 as [|y l Hy _ IH]; [done|]. simpl.
  destruct (foldr (insert_by f) [x] l) as [|z zs]; [done|]. injection IH as ->. simpl.
  by rewrite (proj2 (Z.leb_gt _ _) Hy).
Qed.

Lemma head_order_by_least {A} (f : A -> Z) l x :
  head (order_by f l) = Some x -> x ∈ l /\ Forall (fun y => f x <= f y) l.
Proof.
  unfold order_by. revert x. induction l as [|y l IH]; intros x; simpl; [done|].
  destruct (foldr (insert_by f) [] l) as [|z zs] eqn:E; simpl.
  - intros [= <-]. assert (l = []) as ->; [|split; [left|by repeat constructor]].
    destruct l as [|a l]; [done|]. pose proof (order_by_perm f (a :: l)) as Hp.
    unfold order_by in Hp. rewrite E in Hp. by apply Permutation_nil_cons in Hp.
  - destruct (IH z eq_refl) as [Hz Hf].
    destruct (Z.leb_spec (f y) (f z)) as [Hle|Hlt]; intros [= <-].
    + split; [left|]. constructor; [done|]. eapply Forall_impl; [exact Hf|]. simpl. lia.
    + split; [by right|]. constructor; [lia|done].
Qed.

(** A strictly ascending list has no more items than its range. *)
Lemma sorted_length lo hi l :
  StronglySorted Z.lt l -> Forall (fun z => lo < z <= hi) l -> Z.of_nat (length l) <= Z.max 0 (hi - lo).
Proof.
  intros Hs. revert lo. induction Hs as [|z l Hs IH Hz]; intros lo Hr; [simpl; lia|].
  apply Forall_cons in Hr as [Hz' Hr]. assert (H : Forall (fun y => z < y <= hi) l).
  { apply Forall_forall. intros y Hy. rewrite Forall_forall in Hz, Hr. specialize (Hz y Hy). specialize (Hr y Hy). lia. }
  apply IH in H. simpl length. lia.
Qed.

Lemma select_all {A} (p : A -> bool) l : Forall (fun x => p x = true) l -> select p l = l.
Proof. induction 1 as [|x l Hx _ IH]; [done|]. unfold select in *. simpl. by rewrite Hx, IH. Qed.

Lemma select_prefix {A} (p : A -> bool) l1 l2 :
  Forall (fun x => p x = true) l1 -> Forall (fun x => p x = false) l2 -> select p (l1 ++ l2) = l1.
Proof.
  intros H1 H2. unfold select. rewrite List.filter_app. fold (select p l1). rewrite (select_all p l1 H1).
  assert (List.filter p l2 = []) as ->; [|by rewrite app_nil_r].
  induction H2 as [|x l Hx _ IH]; [done|]. simpl. by rewrite Hx.
Qed.

Lemma delete_prefix {A} (p : A -> bool) l1 l2 :
  Forall (fun x => p x = true) l1 -> Forall (fun x => p x = false) l2 -> delete_where p (l1 ++ l2) = l2.
Proof.
  intros H1 H2. unfold delete_where. rewrite List.filter_app.
  change (List.filter (fun r => negb (p r)) l2) with (select (fun r => negb (p r)) l2).
  rewrite (select_all (fun r => negb (p r)) l2); [|eapply Forall_impl; [exact H2|by intros x ->]].
  clear H2. induction H1 as [|x l Hx _ IH]; [done|]. simpl. by rewrite Hx.
Qed.

(** The rows up to the last one of a prefix of an ascending table. *)
Lemma range_of_prefix lo l x post :
  StronglySorted Z.lt (au_id <$> (l ++ [x]) ++ post) -> Forall (fun r => lo < au_id r) ((l ++ [x]) ++ post) ->
  Forall (fun r => archived_range lo (au_id x) r = true) (l ++ [x]) /\
  Forall (fun r => au_id x < au_id r) post /\
  Forall (fun r => archived_range lo (au_id x) r = false) post.
Proof.
  intros Hs Hlo. apply Forall_app in Hlo as [Hlo _].
  assert (Hl : Forall (fun r => au_id r < au_id x) l /\ Forall (fun r => au_id x < au_id r) post).
  { clear Hlo. induction l as [|y l IH]; simpl in Hs; apply StronglySorted_inv in Hs as [Hs Hy].
    - split; [constructor|]. rewrite Forall_fmap in Hy. exact Hy.
    - destruct (IH Hs) as [H1 H2]. split; [|exact H2]. constructor; [|exact H1].
      rewrite Forall_fmap, !Forall_app, Forall_singleton in Hy. apply Hy. }
  destruct Hl as [H1 H2]. split; [|split; [exact H2|]].
  - rewrite Forall_app, Forall_singleton in Hlo |- *. destruct Hlo as [Hlo Hx]. unfold archived_range. split; [|lia].
    apply Forall_forall. intros r Hr. rewrite Forall_forall in H1, Hlo. specialize (H1 r Hr). specialize (Hlo r Hr). lia.
  - eapply Forall_impl; [exact H2|]. unfold archived_range. simpl. lia.
Qed.

(** ** The archive format *)

Section format.
Context {P : Primitives} {L : PrimitiveLaws P} {C : ArchiveCodec} {CL : CodecLaws C}.

Lemma strip_bytes_app p b : strip_bytes p (p ++ b) = Some b.
Proof. unfold strip_bytes. by rewrite bool_decide_eq_true_2, drop_app_length by (by rewrite take_app_length). Qed.

(** The compressed archive is within the limit of AES-GCM. *)
Definition archive_fits (a : AuditArchive) : Prop :=
  exists j z, archive_to_json a = Ok j /\ gzip j = Ok z /\ Z.of_nat (length z) <= 2 ^ 36 - 32.

Lemma build_archive_total nonce enc_key a :
  length enc_key = 32%nat -> archive_fits a -> exists blob, build_archive nonce enc_key a = Ok blob.
Proof.
  intros Hk (j & z & Hj & Hz & Hl). unfold build_archive. rewrite Hj. simpl. rewrite Hz. simpl.
  destruct (aead_seal_total nonce z enc_key [] Hk Hl) as [s Hs].
  change (aead_seal_aad ?x ?y ?z []) with (aead_seal x y z) in Hs. rewrite Hs. by eexists.
Qed.

Lemma build_archive_inv nonce enc_key a blob :
  build_archive nonce enc_key a = Ok blob ->
  exists j z s, archive_to_json a = Ok j /\ gzip j = Ok z /\ aead_seal nonce z enc_key = Ok s /\
                blob = ARCHIVE_MAGIC ++ s.
Proof.
  unfold build_archive. intros (j & Hj & (z & Hz & (s & Hs & H)%result_bind_Ok)%result_bind_Ok)%result_bind_Ok.
  exists j, z, s. destruct (archive_to_json a), (gzip j), (aead_seal nonce z enc_key); by simplify_eq/=.
Qed.

Lemma open_build nonce enc_key a blob :
  length nonce = 12%nat -> archive_text a -> build_archive nonce enc_key a = Ok blob ->
  open_archive enc_key blob = Ok a.
Proof.
  intros Hn Ha (j & z & s & Hj & Hz & Hs & ->)%build_archive_inv. unfold open_archive.
  rewrite strip_bytes_app. simpl. rewrite (aead_roundtrip _ _ _ _ Hn Hs). simpl.
  rewrite (gzip_roundtrip _ _ Hz). simpl. by rewrite (archive_json_roundtrip _ _ Ha Hj).
Qed.

Lemma verify_archive_ok mac a :
  av_ok (verify_archive mac a) = true <->
  exists prev h, hex32 (genesis_prev a) = Some prev /\ verify_archived mac prev 0 (ar_rows a) = Ok h /\
                 final_row_hash a = hex_encode h.
Proof.
  unfold verify_archive. destruct (hex32 (genesis_prev a)) as [prev|].
  2: { split; [done|]. intros (? & ? & ? & _); done. }
  destruct (verify_archived mac prev 0 (ar_rows a)) as [h|[[i id] why]] eqn:E.
  - destruct (String.eqb_spec (hex_encode h) (final_row_hash a)) as [Hh|Hh]; simpl.
    + split; [|done]. intros _. by exists prev, h.
    + split; [done|]. intros (? & ? & [= <-] & E' & Hf). congruence.
  - split; [done|]. intros (? & ? & [= <-] & E' & _). congruence.
Qed.

(** Everything of a row but its id: the chain does not bind the id. *)
Definition bound_part (r : ArchivedRow) : AuditEntry * string * string :=
  (archived_entry r, ar_prev_hash r, ar_row_hash r).

(** The bound parts a chain of entries determines. *)
Fixpoint chain_rows (mac prev : bytes) (es : list AuditEntry) : list (AuditEntry * string * string) :=
  match es with
  | [] => []
  | e :: rest =>
      let h := compute_audit_hash mac prev e in
      (e, hex_encode prev, hex_encode h) :: chain_rows mac h rest
  end.

Lemma verify_archived_chain mac prev i rows h :
  verify_archived mac prev i rows = Ok h <->
  bound_part <$> rows = chain_rows mac prev (archived_entry <$> rows) /\
  h = run_chain mac prev (archived_entry <$> rows).
Proof.
  revert prev i. induction rows as [|r rows IH]; intros prev i; simpl.
  { split; [intros [= <-]; done|]. by intros [_ ->]. }
  unfold bound_part at 1.
  destruct (String.eqb_spec (ar_prev_hash r) (hex_encode prev)) as [->|Hp]; simpl.
  2: { split; [done|]. intros [[=] _]. congruence. }
  destruct (String.eqb_spec (hex_encode (compute_audit_hash mac prev (archived_entry r))) (ar_row_hash r))
    as [<-|Hh]; simpl.
  2: { split; [done|]. intros [[=] _]. congruence. }
  rewrite IH. split; [intros [Hr ->]; split; [f_equal; exact Hr|done]|]. by intros [[= Hr] ->].
Qed.
End format.

(** ** From the live log to the archive *)

Section live.
Context {P : Primitives} {L : PrimitiveLaws P} {PF : Platform} {C : ArchiveCodec} (state : AppState).

Abbreviation key := (audit_hmac_key state).
Abbreviation mek := (metadata_enc_key state).

Lemma dec_opt_str why o s : dec_opt mek why o = Ok s -> is_str_opt s.
Proof.
  destruct o as [b|]; simpl; [|by intros [= <-]]. unfold dec_str.
  destruct (dec_field mek b) as [x|]; simpl; [|done].
  destruct (from_utf8 x) as [t|] eqn:E; simpl; [|done]. intros [= <-]. simpl. unfold is_str.
  by rewrite (from_utf8_as_bytes _ _ E), E.
Qed.

Lemma archived_row_of r e :
  row_entry mek r = Ok e ->
  exists a, archived_row state r = Ok a /\ archived_entry a = e /\ ar_id a = au_id r /\
    ar_prev_hash a = default "" (au_prev_hash r) /\ ar_row_hash a = au_row_hash r /\
    (text_row r -> archived_text a).
Proof.
  unfold row_entry, archived_row.
  intros (rs & Hr & (m & Hm & [= <-])%result_bind_Ok)%result_bind_Ok.
  exists (MkArchived (au_id r) (au_ts r) (au_client r) (au_action r) (au_status r) rs m
            (default "" (au_prev_hash r)) (au_row_hash r)).
  pose proof (dec_opt_str _ _ _ Hr) as Sr. pose proof (dec_opt_str _ _ _ Hm) as Sm.
  split; [|do 4 (split; [done|])].
  - destruct (au_resource_enc r) as [x|]; simpl in Hr; destruct (au_message_enc r) as [y|]; simpl in Hm;
      repeat match goal with H : match dec_str ?k ?b with _ => _ end = _ |- _ => destruct (dec_str k b); simpl in H end;
      by simplify_eq/=.
  - intros (H1 & H2 & H3 & H4 & H5 & H6 & H7). repeat split; simpl; try done; try apply H1; try apply H2.
    destruct (au_prev_hash r); done.
Qed.

(** Rows that verify can be archived, and the archive verifies like them. *)
Lemma archived_rows_verify prev n rows m h :
  verify_rows key mek prev n rows = Verified m h -> Forall text_row rows ->
  exists l, archived_rows state rows = Ok l /\ (forall i, verify_archived key prev i l = Ok h) /\
    archived_entry <$> l = entries mek rows /\ ar_id <$> l = au_id <$> rows /\
    ar_row_hash <$> l = au_row_hash <$> rows /\ Forall archived_text l /\
    (forall r, head l = Some r -> ar_prev_hash r = hex_encode prev).
Proof.
  revert prev n. induction rows as [|r rows IH]; intros prev n; simpl.
  { intros [= _ <-] _. by exists []. }
  destruct (verify_row key mek prev r) as [next|] eqn:E; [|done]. intros Hv Ht.
  apply Forall_cons in Ht as [Hr Ht]. apply verify_row_Ok in E as (e & He & Hp & Hh & ->).
  destruct (IH _ _ Hv Ht) as (l & Hl & Hvl & Hel & Hid & Hhash & Htl & _).
  destruct (archived_row_of _ _ He) as (a & Ha & Hae & Hai & Hap & Hah & Hat).
  rewrite He, Ha, Hl. simpl. exists (a :: l). rewrite Hp in Hap. rewrite Hh in Hah. simpl in Hap.
  split; [done|]. split; [|split; [|split; [|split; [|split]]]].
  - intros i. simpl. rewrite Hap, Hah, Hae, !String.eqb_refl. apply Hvl.
  - rewrite fmap_cons. by rewrite Hae, Hel.
  - rewrite !fmap_cons. by rewrite Hai, Hid.
  - rewrite !fmap_cons. by rewrite Hah, Hh, Hhash.
  - constructor; [by apply Hat|done].
  - by intros r' [= <-].
Qed.

(** No live row was archived before; anchors carry usable hashes. *)
Definition anchored (d : Db) : Prop :=
  0 <= audit_seq d /\ Forall (fun r => 0 < au_id r) (audits d) /\
  Forall (fun a => 0 <= an_through a <= audit_seq d /\ is_Some (hex32 (an_final_hash a)) /\
                   Forall (fun r => an_through a < au_id r) (audits d)) (anchors d).

Definition anchor_id (d : Db) : Z := default 0 (fst <$> latest_audit_anchor d).

Lemma anchor_split d :
  default (0, genesis) (latest_audit_anchor d) = (anchor_id d, chain_start d).
Proof. unfold anchor_id, chain_start. by destruct (latest_audit_anchor d) as [[]|]. Qed.

Lemma anchored_live d :
  anchored d -> 0 <= anchor_id d /\ Forall (fun r => anchor_id d < au_id r) (audits d) /\
  Forall (fun a => an_through a <= anchor_id d) (anchors d).
Proof.
  intros (_ & Hpos & Ha). unfold anchor_id, latest_audit_anchor.
  destruct (head (order_by (fun a => - an_through a) (anchors d))) as [a|] eqn:E; simpl.
  - apply head_order_by_least in E as [Hin Hmax]. rewrite Forall_forall in Ha.
    destruct (Ha a Hin) as (Ht & [h ->] & Hr). simpl. split; [lia|]. split; [done|].
    eapply Forall_impl; [exact Hmax|]. simpl. lia.
  - split; [done|]. split; [done|]. destruct (anchors d) as [|x l]; [constructor|].
    pose proof (order_by_perm (fun a => - an_through a) (x :: l)) as Hp.
    destruct (order_by _ _); [by apply Permutation_nil_cons in Hp|done].
Qed.

(** ** Pruning *)

Lemma verify_rows_shift prev k rows m h :
  verify_rows key mek prev k rows = Verified m h -> verify_rows key mek prev 0 rows = Verified (m - k) h.
Proof.
  intros H. pose proof (verify_rows_count _ _ _ _ _ _ _ H) as Hm.
  assert (Hgen : forall p i j, verify_rows key mek p i rows = Verified m h ->
            verify_rows key mek p j rows = Verified (j + Z.of_nat (length rows)) h).
  { clear H Hm. induction rows as [|r rows IH]; intros p i j; simpl.
    - intros [= _ <-]. f_equal. lia.
    - destruct (verify_row key mek p r); [|done]. intros H. rewrite (IH _ _ (j + 1) H). f_equal. lia. }
  rewrite (Hgen _ _ 0 H). f_equal. lia.
Qed.

Section prune.
Context (d : Db) (pre : list AuditRow) (x : AuditRow) (post : list AuditRow) (h : bytes) (k : Z).
Context (fname : string) (now : Z).
Hypothesis Hvalid : chain_valid key mek d.
Hypothesis Hanch : anchored d.
Hypothesis Hrows : audits d = (pre ++ [x]) ++ post.
Hypothesis Hpost : post <> [].
Hypothesis Hver : verify_rows key mek (chain_start d) 0 (pre ++ [x]) = Verified k h.

Let d' := insert_anchor (au_id x) (hex_encode h) fname now (prune_rows (anchor_id d) (au_id x) d).

Lemma pruned_split :
  Forall (fun r => archived_range (anchor_id d) (au_id x) r = true) (pre ++ [x]) /\
  Forall (fun r => au_id x < au_id r) post /\
  Forall (fun r => archived_range (anchor_id d) (au_id x) r = false) post.
Proof.
  apply range_of_prefix; rewrite <- Hrows.
  - destruct Hvalid as [(Hs & _) _]. exact Hs.
  - apply (anchored_live d Hanch).
Qed.

Lemma pruned_affected : affected (archived_range (anchor_id d) (au_id x)) (audits d) = length (pre ++ [x]).
Proof.
  destruct pruned_split as (H1 & _ & H3). unfold affected. by rewrite Hrows, select_prefix.
Qed.

Lemma pruned_audits : audits d' = post.
Proof.
  destruct pruned_split as (H1 & _ & H3). subst d'. simpl. by rewrite Hrows, delete_prefix.
Qed.

Lemma hash_is_32 : length h = 32%nat.
Proof. eapply verified_head_length; [|exact Hver]. apply chain_start_length. Qed.

Lemma pruned_start : chain_start d' = h.
Proof.
  destruct pruned_split as (H1 & _ & _). destruct (anchored_live d Hanch) as (_ & _ & Hmax).
  apply Forall_app in H1 as [_ [Hx _]%Forall_cons]. unfold archived_range in Hx.
  unfold chain_start, latest_audit_anchor. subst d'. simpl. unfold insert_row.
  rewrite head_order_by_last.
  - simpl. by rewrite hex32_encode by apply hash_is_32.
  - eapply Forall_impl; [exact Hmax|]. simpl. lia.
Qed.

Lemma pruned_valid : chain_valid key mek d'.
Proof.
  destruct Hvalid as [(Hs & Hle & _) (m & hd & Hv)]. rewrite Hrows in Hs, Hle.
  rewrite fmap_app in Hs.
  assert (Hsp : StronglySorted Z.lt (au_id <$> post)).
  { clear -Hs. induction (au_id <$> pre ++ [x]) as [|z l IH]; [exact Hs|].
    apply IH. by apply StronglySorted_inv in Hs as [? _]. }
  split; [split; [|split]|].
  - by rewrite pruned_audits.
  - rewrite pruned_audits. apply Forall_app in Hle as [_ Hle]. exact Hle.
  - by rewrite pruned_audits.
  - exists (m - k), hd. unfold verdict_of, rows_asc in *. rewrite pruned_start, pruned_audits.
    rewrite order_by_ascending by done. apply verify_rows_shift. rewrite Hrows in Hv.
    rewrite order_by_ascending in Hv by (by rewrite fmap_app).
    apply verify_rows_app in Hv as (k' & p & Hv1 & Hv2). rewrite Hver in Hv1. by simplify_eq.
Qed.

Lemma pruned_anchored : anchored d'.
Proof.
  destruct pruned_split as (H1 & H2 & _). destruct Hvalid as [(_ & Hle & _) _].
  destruct (anchored_live d Hanch) as (H0 & _ & _).
  apply Forall_app in H1 as [_ [Hx _]%Forall_cons]. unfold archived_range in Hx.
  destruct Hanch as (Hseq & Hpos & Ha). rewrite Hrows in Hle, Hpos.
  apply Forall_app in Hle as [Hlx Hle], Hpos as [_ Hpos]. apply Forall_app in Hlx as [_ [Hlx _]%Forall_cons].
  split; [exact Hseq|]. rewrite pruned_audits. split; [done|]. apply Forall_app. split.
  - eapply Forall_impl; [exact Ha|]. rewrite Hrows. intros a (Ht & Hh & Hr).
    apply Forall_app in Hr as [_ Hr]. done.
  - apply Forall_singleton. simpl. split; [lia|]. rewrite hex32_encode by apply hash_is_32. done.
Qed.
End prune.

(** ** Running the handler *)

Definition live_rows (d : Db) : list AuditRow :=
  order_by au_id (select (fun r => anchor_id d <? au_id r) (audits d)).

(** The archive the handler makes of a log, when there is something to archive. *)
Definition selected (q : ArchiveQuery) (d : Db) (now : Z) : option AuditArchive :=
  n ← ok (archive_cutoff q (live_rows d));
  arows ← ok (archived_rows state (take n (live_rows d)));
  archive_of (chain_start d) (fmt_rfc3339 now) arows.

Lemma live_rows_all d : log_wf d -> anchored d -> live_rows d = audits d.
Proof.
  intros (Hs & _) Ha. unfold live_rows. rewrite select_all; [by apply order_by_ascending|].
  eapply Forall_impl; [apply (anchored_live d Ha)|]. simpl. lia.
Qed.

(** Fewer than two live rows, or a cutoff of zero, select nothing. *)
Lemma selected_steps q d now a :
  selected q d now = Some a ->
  exists n arows, archive_cutoff q (live_rows d) = Ok n /\ (0 < n < length (live_rows d))%nat /\
    archived_rows state (take n (live_rows d)) = Ok arows /\
    archive_of (chain_start d) (fmt_rfc3339 now) arows = Some a.
Proof.
  unfold selected. destruct (archive_cutoff q (live_rows d)) as [n|] eqn:En; [|done]. simpl.
  destruct (archived_rows state (take n (live_rows d))) as [arows|] eqn:Ea; [|done]. simpl. intros H.
  exists n, arows. split; [done|]. split; [|done].
  assert (Hn : n <> 0%nat). { intros ->. simpl in Ea. by simplify_eq/=. }
  unfold archive_cutoff in En. apply result_bind_Ok in En as (c & _ & [= <-]). lia.
Qed.

Lemma run_create q caller w a :
  faults w = [] -> is_admin caller = true -> selected q (db w) (clock w) = Some a ->
  av_ok (verify_archive key a) = true ->
  run (audit_archive_create state q caller) w =
  run (archive_write state (anchor_id (db w)) a (aq_prune q) caller) w.
Proof.
  intros Hf Hadm (n & arows & Hn & Hb & Ha & Ho)%selected_steps Hv. unfold audit_archive_create, require_admin.
  rewrite Hadm. eapply run_then; [done|].
  eapply run_then; [apply run_or_500, run_query, Hf|]. rewrite anchor_split. cbv beta iota.
  eapply run_then; [apply run_or_500, run_query, Hf|]. fold (live_rows (db w)).
  rewrite (proj2 (Nat.leb_gt _ 1)) by lia.
  eapply run_then; [by rewrite Hn|]. rewrite (proj2 (Nat.eqb_neq _ 0)) by lia.
  eapply run_then; [by rewrite Ha|]. eapply run_then; [apply run_utc_now|]. by rewrite Ho, Hv.
Qed.

(** The tables after the write, before its own audit row. *)
Definition after_write (prune : bool) (a : AuditArchive) (now : Z) (d : Db) : Db :=
  if prune
  then insert_anchor (ar_last_id a) (final_row_hash a) (archive_name a now) now
         (prune_rows (anchor_id d) (ar_last_id a) d)
  else d.

Lemma run_file_op {A : Set} (f : gmap string bytes -> result string (A * gmap string bytes)) w x t :
  faults w = [] -> f (fs w) = Ok (x, t) -> run (str_500 (perform (file_op f))) w = (Val x, set_fs t w).
Proof.
  intros Hf H. destruct w as [d g c r l]. simpl in *. subst l.
  unfold str_500, perform, file_op, next_fault. simpl. by rewrite H.
Qed.

Lemma run_archive_write a (prune : bool) caller w ek :
  faults w = [] -> audit_archive_enc_key (app_keys state) = Ok ek -> length ek = 32%nat -> archive_fits a ->
  exists (blob : bytes) (pruned : Z),
    build_archive (rand_bytes (rng w) 12) ek a = Ok blob /\
    pruned = (if prune then Z.of_nat (affected (archived_range (anchor_id (db w)) (ar_last_id a)) (audits (db w))) else 0) /\
    let fname := archive_name a (clock w) in
    let w1 := set_db (after_write prune a (clock w) (db w))
                (set_fs (<[archive_path fname := blob]> (fs w)) (set_rng (S (rng w)) w)) in
    run (archive_write state (anchor_id (db w)) a prune caller) w =
      run (_ ← audit key mek (Some (ac_id caller)) "audit.archive" (Some fname) AuditOk
                 (Some (archived_message a pruned));
           mret (json_response 200 (archived_json a fname pruned (Z.of_nat (length blob))))) w1.
Proof.
  intros Hf Hek Hl Hfit.
  destruct (build_archive_total (rand_bytes (rng w) 12) ek a Hl Hfit) as [blob Hb].
  exists blob. eexists. split; [exact Hb|]. split; [reflexivity|]. intros fname w1. subst w1.
  destruct w as [d t c r l]. simpl in Hf, Hb. subst l. cbn [rng db fs clock] in *. unfold archive_write.
  eapply run_then; [by rewrite Hek|]. eapply run_then; [apply run_draw|].
  eapply run_then; [cbn [rng]; by rewrite Hb|]. eapply run_then; [by apply run_file_op|].
  eapply run_then; [apply run_utc_now|]. eapply run_then; [by apply run_file_op|].
  destruct prune; [|reflexivity]. eapply run_then; [|reflexivity].
  unfold prune_step. eapply run_then; [reflexivity|]. eapply run_then; [reflexivity|]. reflexivity.
Qed.

(** What the selected archive holds. *)
Lemma last_fmap_eq {A B D} (f : A -> D) (g : B -> D) l l' x y :
  f <$> l = g <$> l' -> last l = Some x -> last l' = Some y -> f x = g y.
Proof.
  intros H Hx Hy. apply (f_equal last) in H. rewrite !fmap_last, Hx, Hy in H. simpl in H. by simplify_eq.
Qed.

Lemma prefix_of_live d n :
  chain_valid key mek d -> (0 < n < length (audits d))%nat ->
  exists pre x post k h, take n (audits d) = pre ++ [x] /\ audits d = (pre ++ [x]) ++ post /\ post <> [] /\
    verify_rows key mek (chain_start d) 0 (pre ++ [x]) = Verified k h /\ au_row_hash x = hex_encode h.
Proof.
  intros [(Hs & _) (m & hd & Hv)] Hn. unfold verdict_of, rows_asc in Hv. rewrite order_by_ascending in Hv by done.
  pose proof (take_drop n (audits d)) as Hsplit. rewrite <- Hsplit in Hv. apply verify_rows_app in Hv as (k & h & Hv & _).
  assert (Hl : length (take n (audits d)) = n) by (rewrite length_take; lia).
  destruct (take n (audits d)) as [|x pre _] using rev_ind; [simpl in Hl; lia|].
  exists pre, x, (drop n (audits d)), k, h. split; [done|]. split; [done|]. split; [|split; [done|]].
  - intros H. apply (f_equal length) in H. rewrite length_drop in H. simpl in H. lia.
  - apply verify_rows_app in Hv as (k' & p & _ & Hx). simpl in Hx.
    destruct (verify_row key mek p x) as [next|] eqn:E; [|done]. injection Hx as _ <-.
    by apply verify_row_Ok in E as (e & _ & _ & -> & ->).
Qed.

Lemma count_in_range d : log_wf d -> anchored d -> Forall text_row (audits d) -> Z.of_nat (length (audits d)) < 2 ^ 64.
Proof.
  intros (Hs & _) (_ & Hpos & _) Ht. pose proof (sorted_length 0 i64_max _ Hs) as H.
  rewrite length_fmap in H. unfold i64_max in *. enough (Z.of_nat (length (audits d)) <= Z.max 0 (2 ^ 63 - 1 - 0)) by lia.
  apply H. apply Forall_fmap. apply Forall_forall. intros r Hr. rewrite Forall_forall in Hpos, Ht.
  specialize (Hpos r Hr). destruct (Ht r Hr) as [[_ Hi] _]. unfold i64_max in Hi. simpl. lia.
Qed.

Lemma selected_archive {AT : AsciiTimes PF} q d now a :
  chain_valid key mek d -> anchored d -> Forall text_row (audits d) -> selected q d now = Some a ->
  exists pre x post k h, audits d = (pre ++ [x]) ++ post /\ post <> [] /\
    verify_rows key mek (chain_start d) 0 (pre ++ [x]) = Verified k h /\
    ar_last_id a = au_id x /\ final_row_hash a = hex_encode h /\ genesis_prev a = hex_encode (chain_start d) /\
    ar_count a = Z.of_nat (length (pre ++ [x])) /\ archived_entry <$> ar_rows a = entries mek (pre ++ [x]) /\
    verify_archived key (chain_start d) 0 (ar_rows a) = Ok h /\ archive_text a.
Proof.
  intros Hc Ha Ht (n & arows & Hn & Hb & Har & Ho)%selected_steps. pose proof Hc as [Hwf _].
  rewrite (live_rows_all d Hwf Ha) in *.
  destruct (prefix_of_live d n Hc Hb) as (pre & x & post & k & h & Hpre & Hrows & Hpost & Hv & Hx).
  pose proof (count_in_range d Hwf Ha Ht) as Hcount.
  rewrite Hpre in Har. assert (Htp : Forall text_row (pre ++ [x])) by (rewrite Hrows in Ht; by apply Forall_app in Ht as [? _]).
  destruct (archived_rows_verify _ _ _ _ _ Hv Htp) as (l & Hl & Hvl & Hel & Hid & Hhash & Htl & Hhead).
  rewrite Hl in Har. injection Har as <-. unfold archive_of in Ho.
  destruct (head l) as [f|] eqn:Hf; [|done]. destruct (last l) as [z|] eqn:Hz; [|done]. simpl in Ho.
  injection Ho as <-. exists pre, x, post, k, h. cbn [ar_last_id final_row_hash genesis_prev ar_count ar_rows].
  pose proof (last_fmap_eq ar_id au_id l (pre ++ [x]) z x Hid Hz (last_snoc _ _)) as Hlast.
  pose proof (last_fmap_eq ar_row_hash au_row_hash l (pre ++ [x]) z x Hhash Hz (last_snoc _ _)) as Hlh.
  pose proof (f_equal length Hid) as Hlen. rewrite !length_fmap in Hlen.
  do 3 (split; [done|]). split; [done|]. split; [congruence|]. split; [done|]. split; [by rewrite Hlen|].
  split; [done|]. split; [apply Hvl|].
  rewrite Forall_forall in Htl. apply head_Some_elem_of in Hf as Hfin. apply last_Some_elem_of in Hz as Hzin.
  pose proof (Htl f Hfin) as (F1 & _ & _ & _ & _ & _ & _ & F2 & _).
  pose proof (Htl z Hzin) as (Z1 & _ & _ & _ & _ & _ & _ & _ & Z2).
  rewrite Hrows, !length_app in Hcount.
  split; [done|]. split; [apply ascii_is_str, rfc3339_ascii|]. split; [cbn [ar_count]; rewrite Hlen, length_app; lia|].
  do 2 (split; [done|]). split; [cbn [genesis_prev]; by rewrite <- (Hhead f)|]. split; [done|].
  by apply Forall_forall.
Qed.

(** ** The handler's own audit row *)

Lemma run_enc_opt o w :
  is_str_opt o ->
  exists r n, run (enc_opt mek o) w = (Val r, set_rng n w) /\
    match r with Ok c => sealed mek o c | Err _ => True end.
Proof.
  destruct o as [s|]; intros Hs; simpl.
  - eexists _, _. split; [reflexivity|]. destruct (aead_seal _ _ _) as [c|] eqn:E; simpl; [|done].
    eapply seal_opened; [done| |exact E]. apply rand_length.
  - exists (Ok None), (rng w). split; [by destruct w|]. intros why. done.
Qed.

(** What an audit write does to the tables. *)
Definition logged (c : option string) (act : string) (d d' : Db) : Prop :=
  d' = d \/ exists e er em, d' = audit_insert key e er em d /\ sealed mek (e_resource e) er /\
                           sealed mek (e_message e) em /\ e_action e = act /\ e_client e = c.

Lemma audit_outcomes c act r st m w :
  is_str_opt r -> is_str_opt m ->
  exists w', run (audit key mek c act r st m) w = (Val tt, w') /\ fs w' = fs w /\ logged c act (db w) (db w').
Proof.
  intros Hr Hm. unfold audit.
  destruct (run_enc_opt r w Hr) as (er & n & Her & Sr).
  destruct er as [er|x].
  2: { eexists. split; [eapply run_then; [apply run_utc_now|]; eapply run_then; [exact Her|]; reflexivity|]. by split; [|left]. }
  destruct (run_enc_opt m (set_rng n w) Hm) as (em & n' & Hem & Sm).
  destruct em as [em|x].
  2: { eexists. split; [eapply run_then; [apply run_utc_now|]; eapply run_then; [exact Her|];
       eapply run_then; [exact Hem|]; reflexivity|]. by split; [|left]. }
  set (e := MkEntry (clock w) c act r (status_str st) m). set (w2 := set_rng n' (set_rng n w)).
  destruct (transact_exec (fun _ => audit_insert key e er em) w2) as [l Hl].
  exists (transact (exec (fun _ => audit_insert key e er em)) w2).2. split; [|split].
  - eapply run_then; [apply run_utc_now|]. eapply run_then; [exact Her|]. eapply run_then; [exact Hem|].
    fold e w2. unfold ignore, transaction_with. simpl run. clear Hl. destruct w2 as [d t k q [|[] [|[] [|[] l']]]]; reflexivity.
  - destruct Hl as [-> | ->]; done.
  - destruct Hl as [-> | ->]; [by left|]. right. exists e, er, em. done.
Qed.

Lemma logged_valid c act d d' : logged c act d d' -> chain_valid key mek d -> chain_valid key mek d'.
Proof.
  intros [->|(e & er & em & -> & Sr & Sm & _)]; [done|]. intros [Hwf (n & h & Hv)].
  split; [by apply audit_insert_wf|]. eexists _, _. eapply audit_insert_verifies; [done..|]. by apply sealed_row_entry.
Qed.

Lemma logged_anchored c act d d' : logged c act d d' -> anchored d -> anchored d'.
Proof.
  intros [->|(e & er & em & -> & _)]; [done|]. intros (Hs & Hp & Ha). split; [simpl; lia|]. simpl. unfold insert_row. split.
  - apply Forall_app. split; [done|]. apply Forall_singleton. simpl. lia.
  - eapply Forall_impl; [exact Ha|]. simpl. intros a (Ht & Hh & Hr). split; [lia|]. split; [done|].
    apply Forall_app. split; [done|]. apply Forall_singleton. simpl. lia.
Qed.

Lemma logged_contents c act d d' :
  logged c act d d' ->
  exists tail, contents mek (audits d') = contents mek (audits d) ++ tail /\
    (tail = [] \/ exists e, tail = [Ok e] /\ e_action e = act /\ e_client e = c).
Proof.
  intros [->|(e & er & em & -> & Sr & Sm & Ha & Hc)]; [exists []; rewrite app_nil_r; by split; [|left]|].
  exists [Ok e]. split; [|right; by exists e].
  change (audits (audit_insert key e er em d)) with (audits d ++ [audit_row key d e er em]).
  unfold contents. rewrite fmap_app. simpl. by rewrite sealed_row_entry.
Qed.

(** Writing the archive of a log, with or without pruning, keeps the log. *)
Lemma after_write_log {AT : AsciiTimes PF} q d now a :
  chain_valid key mek d -> anchored d -> Forall text_row (audits d) -> selected q d now = Some a ->
  let d' := after_write (aq_prune q) a now d in
  archive_text a /\ av_ok (verify_archive key a) = true /\ chain_valid key mek d' /\ anchored d' /\
  (if aq_prune q then Ok <$> (archived_entry <$> ar_rows a) else []) ++ contents mek (audits d') = contents mek (audits d) /\
  (if aq_prune q then Z.of_nat (affected (archived_range (anchor_id d) (ar_last_id a)) (audits d)) else 0) =
    if aq_prune q then ar_count a else 0.
Proof.
  intros Hv Ha Ht Hsel.
  destruct (selected_archive q d now a Hv Ha Ht Hsel)
    as (pre & x & post & k & h & Hrows & Hpost & Hver & Hlast & Hfinal & Hgen & Hcount & Hents & Hva & Htext).
  split; [done|]. split.
  { apply verify_archive_ok. eexists _, _. rewrite Hgen, hex32_encode by apply chain_start_length. done. }
  unfold after_write. destruct (aq_prune q); [|done]. rewrite Hlast, Hfinal.
  split; [by eapply pruned_valid|]. split; [by eapply pruned_anchored|].
  split; [|by rewrite (pruned_affected d pre x post), Hcount].
  rewrite (pruned_audits d pre x post h) by done. apply verify_rows_entries in Hver as [Hc _].
  rewrite Hents, <- Hc, Hrows. unfold contents. by rewrite (fmap_app _ (pre ++ [x])).
Qed.

Lemma pad10_ascii n : all_chars is_ascii (pad10 n) = true.
Proof.
  unfold pad10. rewrite !all_chars_app, show_Z_ascii. rewrite andb_true_r.
  assert (H : forall k, all_chars is_ascii (of_bytes (replicate k (byte_of_Z 48))) = true).
  { intros k. induction k as [|k IH]; [done|]. simpl. exact IH. }
  rewrite H. by destruct (n <? 0).
Qed.

Lemma archive_name_str {AT : AsciiTimes PF} a now : is_str (archive_name a now).
Proof. apply ascii_is_str. unfold archive_name. by rewrite !all_chars_app, !pad10_ascii, compact_ascii. Qed.

Lemma archived_message_str a n : is_str (archived_message a n).
Proof. apply ascii_is_str. unfold archived_message. by rewrite !all_chars_app, !show_Z_ascii. Qed.
End live.

(** * Properties *)

(** C22. On a healthy server, archiving a log that verifies answers 200: the
    file it writes opens under the archive key to the selected archive, which
    verifies; the live log still verifies (from the new anchor when the rows
    were pruned), and archived content followed by live content is the old
    content followed by at most the request's own audit row. *)
Theorem archived_log_still_verifies {P : Primitives} {L : PrimitiveLaws P} {PF : Platform} {AT : AsciiTimes PF}
    {C : ArchiveCodec} {CL : CodecLaws C} state q caller w a ek :
  let key := audit_hmac_key state in let mek := metadata_enc_key state in
  faults w = [] -> is_admin caller = true ->
  audit_archive_enc_key (app_keys state) = Ok ek -> length ek = 32%nat ->
  chain_valid key mek (db w) -> anchored (db w) -> Forall text_row (audits (db w)) ->
  selected state q (db w) (clock w) = Some a -> archive_fits a ->
  exists blob w',
    let fname := archive_name a (clock w) in
    let pruned := if aq_prune q then ar_count a else 0 in
    run (audit_archive_create state q caller) w =
      (Val (json_response 200 (archived_json a fname pruned (Z.of_nat (length blob)))), w') /\
    fs w' = <[archive_path fname := blob]> (fs w) /\
    open_archive ek blob = Ok a /\ av_ok (verify_archive key a) = true /\
    chain_valid key mek (db w') /\ anchored (db w') /\
    exists tail,
      (if aq_prune q then Ok <$> (archived_entry <$> ar_rows a) else []) ++ contents mek (audits (db w')) =
        contents mek (audits (db w)) ++ tail /\
      (tail = [] \/ exists e, tail = [Ok e] /\ e_action e = "audit.archive" /\ e_client e = Some (ac_id caller)).
Proof.
  intros key mek Hf Hadm Hek Hlen Hv Ha Ht Hsel Hfit. subst key mek.
  destruct (after_write_log state q (db w) (clock w) a Hv Ha Ht Hsel) as (Htext & Hok & Hv' & Ha' & Hc & Hn).
  destruct (run_archive_write state a (aq_prune q) caller w ek Hf Hek Hlen Hfit)
    as (blob & pruned & Hblob & Hpr & Hrun). cbv zeta in Hrun. rewrite Hn in Hpr. subst pruned.
  match type of Hrun with _ = run _ ?v =>
    destruct (audit_outcomes state (Some (ac_id caller)) "audit.archive" (Some (archive_name a (clock w)))
      AuditOk (Some (archived_message a (if aq_prune q then ar_count a else 0))) v) as (w' & Haud & Hfs & Hlog)
  end; [apply archive_name_str|apply archived_message_str|].
  exists blob, w'. cbv zeta. split; [|split; [exact Hfs|]].
  - rewrite (run_create state q caller w a) by done. rewrite Hrun. by eapply run_then; [exact Haud|].
  - split; [eapply open_build; [apply rand_length|done|exact Hblob]|]. split; [done|].
    split; [by eapply logged_valid|]. split; [by eapply logged_anchored|].
    destruct (logged_contents state _ _ _ _ Hlog) as (tail & Htail & Hcases). exists tail. split; [|done].
    rewrite Htail, app_assoc. f_equal. exact Hc.
Qed.

(** Two archives that verify under the same key with equally many rows
    and the same final hash start from the same chain value and agree on every
    field of every row but the row ids, or two of the messages hashed on the
    way collide under SHA3-256. *)
Theorem archive_tamper_evident {P : Primitives} {L : PrimitiveLaws P} mac a1 a2 :
  av_ok (verify_archive mac a1) = true -> av_ok (verify_archive mac a2) = true ->
  length (ar_rows a1) = length (ar_rows a2) -> final_row_hash a1 = final_row_hash a2 ->
  Forall small_entry (archived_entry <$> ar_rows a1) -> Forall small_entry (archived_entry <$> ar_rows a2) ->
  exists p1 p2, hex32 (genesis_prev a1) = Some p1 /\ hex32 (genesis_prev a2) = Some p2 /\
    ((p1 = p2 /\ bound_part <$> ar_rows a1 = bound_part <$> ar_rows a2) \/
     collides (chain_preimages mac p1 (archived_entry <$> ar_rows a1))
              (chain_preimages mac p2 (archived_entry <$> ar_rows a2))).
Proof.
  intros (p1 & h1 & Hp1 & [Hb1 ->]%verify_archived_chain & Hf1)%verify_archive_ok
         (p2 & h2 & Hp2 & [Hb2 ->]%verify_archived_chain & Hf2)%verify_archive_ok Hl Hf Hs1 Hs2.
  exists p1, p2. split; [done|]. split; [done|].
  assert (Hlen : forall s p, hex32 s = Some p -> length p = 32%nat).
  { intros s p. unfold hex32. destruct (hex_decode s) as [b|]; [|done].
    destruct (Nat.eqb_spec (length b) 32); by intros [= <-]. }
  destruct (run_chain_binds mac (archived_entry <$> ar_rows a1) (archived_entry <$> ar_rows a2) p1 p2)
    as [[-> He]|]; [by eapply Hlen|by eapply Hlen|by rewrite !length_fmap|done|done| | |by right].
  - apply hex_encode_inj. congruence.
  - left. split; [done|]. by rewrite Hb1, Hb2, He.
Qed.

(** Archives that lose their newest rows still verify once [final_row_hash] is
    the hash of the last row kept: the container's AES-GCM tag, not the chain,
    is what protects the tail. *)
Theorem archive_tail_unprotected {P : Primitives} {L : PrimitiveLaws P} mac a k :
  av_ok (verify_archive mac a) = true ->
  exists h, av_ok (verify_archive mac (MkArchive (ar_v a) (ar_created_at a) (ar_count a) (ar_first_id a)
                     (ar_last_id a) (genesis_prev a) h (take k (ar_rows a)))) = true.
Proof.
  intros (p & h & Hp & [Hb _]%verify_archived_chain & _)%verify_archive_ok.
  exists (hex_encode (run_chain mac p (archived_entry <$> take k (ar_rows a)))).
  apply verify_archive_ok. eexists _, _. split; [exact Hp|]. split; [|done].
  apply verify_archived_chain. split; [|done]. simpl. rewrite !fmap_take, Hb. clear Hb Hp.
  generalize (archived_entry <$> ar_rows a) as es. intros es. revert p k.
  induction es as [|e es IH]; intros p [|k]; simpl; try done. by rewrite IH.
Qed.

(** ** Witnesses *)

(** A codec that writes the code of the archive's fields, bit by bit. *)
Definition row_tuple (r : ArchivedRow) :=
  (ar_id r, ts_micros r, ar_client_id r, ar_action r, ar_status r, ar_resource r, ar_message r,
   ar_prev_hash r, ar_row_hash r).
Definition archive_tuple (a : AuditArchive) :=
  (ar_v a, ar_created_at a, ar_count a, ar_first_id a, ar_last_id a, genesis_prev a, final_row_hash a,
   row_tuple <$> ar_rows a).

Definition tuple_row (t : Z * Z * option string * string * string * option string * option string * string * string) :=
  let '(i, ts, c, a, s, r, m, p, h) := t in MkArchived i ts c a s r m p h.

Definition toy_from_json (b : bytes) : result string AuditArchive :=
  match unbits (of_bytes b) ≫= decode with
  | Some (v, c, n, f, l, g, h, rows) => Ok (MkArchive v c n f l g h (tuple_row <$> rows))
  | None => Err "expected value at line 1 column 1"
  end.

#[export] Instance toy_codec : ArchiveCodec := {|
  archive_to_json a := Ok (as_bytes (bits (encode (archive_tuple a))));
  archive_from_json := toy_from_json;
  gzip b := Ok (byte_of_Z 31 :: b);
  gunzip z := match z with _ :: b => Ok b | [] => Err "unexpected end of file" end;
|}.

#[export] Instance toy_codec_laws : CodecLaws toy_codec.
Proof.
  split; [|by intros b z [= <-]]. intros a j _ [= <-]. simpl. unfold toy_from_json. rewrite of_as_bytes.
  rewrite <- (string_app_nil_r (bits _)), unbits_bits. cbn [mbind option_bind]. rewrite decode_encode.
  destruct a as [v c n f l g h rows]. unfold archive_tuple. simpl. do 2 f_equal.
  induction rows as [|[] rows IH]; [done|]. simpl. f_equal. exact IH.
Qed.

#[export] Instance toy_ascii_times : AsciiTimes toy_platform.
Proof. split; intros t; apply show_Z_ascii. Qed.

Definition log_key : bytes := audit_hmac_key toy_state.
Definition log_mek : bytes := metadata_enc_key toy_state.
Definition logged_calls : list AuditCall :=
  [MkCall (Some "c-alice") "read" (Some "db/password") AuditOk None;
   MkCall None "list" None AuditDenied (Some "no");
   MkCall (Some "c-bob") "store" (Some "db/url") AuditOk None].
Definition logged_world : World :=
  Eval vm_compute in foldl (fun w c => (run (audit_call log_key log_mek c) w).2) toy_world logged_calls.
Definition keep_one : ArchiveQuery := MkArchiveQuery None (Some 1) true.
Definition archived_two : AuditArchive :=
  Eval vm_compute in match selected toy_state keep_one (db logged_world) (clock logged_world) with
                     | Some a => a | None => MkArchive 0 "" 0 0 0 "" "" [] end.
Definition archive_key : bytes :=
  Eval vm_compute in unwrap_or [] (audit_archive_enc_key (app_keys toy_state)).

Lemma archived_log_still_verifies_witness :
  exists blob w',
    run (audit_archive_create toy_state keep_one administrator) logged_world =
      (Val (json_response 200 (archived_json archived_two (archive_name archived_two (clock logged_world))
              (if aq_prune keep_one then ar_count archived_two else 0) (Z.of_nat (length blob)))), w') /\
    open_archive archive_key blob = Ok archived_two /\ chain_valid log_key log_mek (db w').
Proof.
  destruct (archived_log_still_verifies toy_state keep_one administrator logged_world archived_two archive_key) as (blob & w' & H).
  - vm_compute. reflexivity.
  - reflexivity.
  - vm_compute. reflexivity.
  - reflexivity.
  - split; [vm_compute; repeat constructor; discriminate|]. eexists _, _. vm_compute. reflexivity.
  - vm_compute. repeat split; repeat constructor; discriminate.
  - repeat constructor; vm_compute; discriminate.
  - vm_compute. reflexivity.
  - eexists _, _. split; [reflexivity|]. split; [reflexivity|]. vm_compute. discriminate.
  - exists blob, w'. destruct H as (Hr & _ & Ho & _ & Hv & _). split; [exact Hr|]. split; [exact Ho|exact Hv].
Defined.

Lemma archive_tamper_evident_witness :
  exists p1 p2, hex32 (genesis_prev archived_two) = Some p1 /\ hex32 (genesis_prev archived_two) = Some p2 /\
    ((p1 = p2 /\ bound_part <$> ar_rows archived_two = bound_part <$> ar_rows archived_two) \/
     collides (chain_preimages log_key p1 (archived_entry <$> ar_rows archived_two))
              (chain_preimages log_key p2 (archived_entry <$> ar_rows archived_two))).
Proof.
  apply (archive_tamper_evident log_key archived_two archived_two).
  - vm_compute. reflexivity.
  - vm_compute. reflexivity.
  - reflexivity.
  - reflexivity.
  - repeat constructor; vm_compute; discriminate.
  - repeat constructor; vm_compute; discriminate.
Defined.

(** A database failure between the DELETE and the anchor's INSERT of a prune
    leaves a log that no longer verifies: the two statements are not one
    transaction. *)
Example prune_without_anchor :
  let '(o, w') := run (prune_step (anchor_id (db logged_world)) archived_two "audit.bbka")
                    (set_faults [false; true] logged_world) in
  o = Raise 500 (sql_msg SqlDown) /\
  verdict_of log_key log_mek (db w') =
    Broken 0 3 "prev_hash does not match the preceding row (deletion or reorder?)".
Proof. vm_compute. by split. Qed.
