(* ===== verification/Auth.v ===== *)
(** Authentication and authorization ([src/src/auth.rs]): the two-factor
    extractor, the ACL decision and its accounting, domains and membership,
    client provisioning and rotation, TOTP; and the gates of
    [src/src/server.rs] built on them. *)
From S2P Require Import Prelude AccessRules Crypto Store Effects ServerBase AuditLog.

Definition TOKEN_PREFIX : string := "bbk_".
Definition ADMIN_CLIENT_TTL_DAYS : Z := 365.
Definition DEFAULT_CLIENT_TTL_DAYS : Z := 30.

(** [Utc::now() + Duration::days(ttl)], which panics when chrono's range is left. *)
Definition expiry_in_days {PF : Platform} (now ttl : Z) : M Z :=
  match add_seconds now (ttl * 86400) with
  | Some t => mret t
  | None => raise 500 "panicked: overflow of a date"
  end.

Definition default_ttl_days (role : string) : Z :=
  if role =s? "admin" then ADMIN_CLIENT_TTL_DAYS else DEFAULT_CLIENT_TTL_DAYS.

(** ** Authentication *)

Record PeerCertInfo := MkPeer { common_name : string; peer_fingerprint : string }.

Section auth.
Context {P : Primitives} {PF : Platform}.

Definition hash_token (token : string) : string := hex_encode (sha3_256 (as_bytes token)).

Definition generate_token : M string :=
  bytes ← draw 32; mret (TOKEN_PREFIX +:+ b64url_encode bytes).

(** The [row.and_then] of both lookups: expiry, then the name. *)
Definition live_client (mek : bytes) (row : option Client) : M (option AuthenticatedClient) :=
  match row with
  | None => mret None
  | Some c =>
      now ← utc_now;
      mret (if from_option (fun e => e <=? now) false (c_expires c) then None
            else match dec_str mek (c_name_enc c) with
                 | Ok name => Some (MkClientId (c_id c) name (c_role c))
                 | Err _ => None
                 end)
  end.

Definition lookup_by_cn (mek nik : bytes) (cn fp : string) : M (result SqlError (option AuthenticatedClient)) :=
  let name_id := client_name_id_hex nik cn in
  row ←? query (fun _ d =>
    first_row (fun c => (c_name_id c =s? name_id) && opt_is (c_cert_fp c) fp && is_null (c_revoked c))
      (clients d));
  found ← live_client mek row; mret (Ok found).

Definition lookup_by_token (mek : bytes) (token : string) : M (result SqlError (option AuthenticatedClient)) :=
  let hash := hash_token token in
  row ←? query (fun _ d =>
    first_row (fun c => (c_token_hash c =s? hash) && is_null (c_revoked c)) (clients d));
  found ← live_client mek row; mret (Ok found).

(** [authorization] is the header as a string, [peer] the connection's
    certificate. *)
Definition from_request (state : AppState) (authorization : option string) (peer : option PeerCertInfo) :
    M AuthenticatedClient :=
  let token_value := s ← authorization; strip_prefix "Bearer " s in
  by_cert ← match peer with
            | Some p => or_500 (lookup_by_cn (metadata_enc_key state) (name_index_key state)
                                  (common_name p) (peer_fingerprint p))
            | None => mret None
            end;
  by_token ← match token_value with
             | Some t => or_500 (lookup_by_token (metadata_enc_key state) t)
             | None => mret None
             end;
  match by_cert, by_token with
  | Some c, Some t =>
      if ac_id c =s? ac_id t then mret c
      else raise 401 "client certificate and bearer token identify different clients"
  | Some _, None => raise 401 "a bearer token is required in addition to the client certificate"
  | None, Some _ => raise 401 "a client certificate is required in addition to the bearer token"
  | None, None => raise 401 "both a client certificate and a bearer token are required"
  end.

(** ** The ACL decision *)

Inductive AclDecision := AllowedAdmin | AllowedDomainAdmin | Allowed (acl_id : string) | Denied.

Definition is_allowed (d : AclDecision) : bool := match d with Denied => false | _ => true end.

(** Membership rows of a client, of a given role if any. *)
Definition is_member (client_id domain_id : string) (role : option string) (m : Member) : bool :=
  (m_client m =s? client_id) && (m_domain m =s? domain_id)
  && from_option (fun r => m_role m =s? r) true role.

Definition has_member (client_id domain_id : string) (role : option string) (d : Db) : bool :=
  negb (is_null (first_row (is_member client_id domain_id role) (members d))).

(** The WHERE clause over everything but the pattern. *)
Definition acl_candidate (d : Db) (now : Z) (client_id domain_id : string) (action : AclAction) (a : Acl) : bool :=
  (a_domain a =s? domain_id)
  && (opt_is (a_client a) client_id
      || existsb (fun m => (m_client m =s? client_id) && opt_is (a_group a) (m_domain m)) (members d))
  && negb (Z.land (a_actions a) (action_bit action) =? 0)
  && from_option (fun e => now <? e) true (a_expires a)
  && from_option (fun b => b <=? now) true (a_not_before a)
  && from_option (fun m => a_use_count a <? m) true (a_max_uses a).

(** The body of the candidate loop at clock reading [now]. *)
Definition acl_admits (mek : bytes) (resource_name : string) (now : Z) (a : Acl) : bool :=
  match aead_open (a_pattern a) mek with
  | Err _ => false
  | Ok b =>
      match from_utf8 b with
      | None => false
      | Some pattern =>
          sql_like_match pattern resource_name
          && from_option (fun sched => unwrap_or false (cron_window_matches sched (civil_of now))) true
               (a_schedule a)
          && rate_ok (a_rate_max a) (a_rate_period a) (a_rate_count a) (a_rate_window a) now
      end
  end.

Fixpoint acl_scan (mek : bytes) (resource_name : string) (candidates : list Acl) : M AclDecision :=
  match candidates with
  | [] => mret Denied
  | a :: rest =>
      now ← utc_now;
      if acl_admits mek resource_name now a then mret (Allowed (a_id a))
      else acl_scan mek resource_name rest
  end.

Definition acl_check (mek : bytes) (client : AuthenticatedClient) (domain_id resource_name : string)
    (action : AclAction) : M (result SqlError AclDecision) :=
  if is_admin client then mret (Ok AllowedAdmin)
  else
    domain_admin ←? query (fun _ d => has_member (ac_id client) domain_id (Some "admin") d);
    if domain_admin : bool then mret (Ok AllowedDomainAdmin)
    else
      candidates ←? query (fun now d =>
        order_by (fun a => - a_granted_at a)
          (select (acl_candidate d now (ac_id client) domain_id action) (acls d)));
      decision ← acl_scan mek resource_name candidates;
      mret (Ok decision).

Definition bump_acl (now : Z) (a : Acl) : Acl :=
  let '(ws, count) := rate_bump (a_rate_period a) (a_rate_count a) (a_rate_window a) now in
  MkAcl (a_id a) (a_domain a) (a_client a) (a_group a) (a_pattern a) (a_actions a) (a_expires a)
    (a_not_before a) (a_max_uses a) (a_use_count a + 1) (a_granted_at a) (a_granted_by a)
    (a_rate_max a) (a_rate_period a) count ws (a_schedule a).

(** [use_count] and [rate_count] are INTEGER columns: past 2^31 - 1 the whole
    update fails. *)
Definition acl_in_range (a : Acl) : bool := (a_use_count a <=? i32_max) && (a_rate_count a <=? i32_max).

Definition count_acl_use (id : string) (now : Z) (d : Db) : result SqlError (unit * Db) :=
  let hit a := a_id a =s? id in
  if forallb (fun a => acl_in_range (bump_acl now a)) (select hit (acls d))
  then Ok (tt, upd_acls (update_where hit (bump_acl now)) d)
  else Err SqlRange.

Definition acl_record_use (decision : AclDecision) : M unit :=
  match decision with
  | Allowed id => ignore (sql (count_acl_use id))
  | _ => mret tt
  end.

(** ** Domains *)

Definition live_domain (name_id : string) (x : Domain) : bool :=
  (d_name_id x =s? name_id) && is_null (d_archived x).

Definition live_domain_id (name_id : string) (d : Db) : option string :=
  d_id <$> first_row (live_domain name_id) (domains d).

Definition resolve_domain (nik : bytes) (name : string) : M (result SqlError (option string)) :=
  let name_id := domain_name_id_hex nik name in
  query (fun _ => live_domain_id name_id).

Definition domain_member (client : AuthenticatedClient) (domain_id : string) : M (result SqlError bool) :=
  if is_admin client then mret (Ok true)
  else query (fun _ d => has_member (ac_id client) domain_id None d).

Definition domain_admin (client : AuthenticatedClient) (domain_id : string) : M (result SqlError bool) :=
  if is_admin client then mret (Ok true)
  else query (fun _ d => has_member (ac_id client) domain_id (Some "admin") d).

Definition admin_domain_ids (client : AuthenticatedClient) : M (result SqlError (list string)) :=
  query (fun _ d => m_domain <$> select (fun m => (m_client m =s? ac_id client) && (m_role m =s? "admin"))
                                   (members d)).

Definition db_error (e : SqlError) : Response := err 500 "db_error" (sql_msg e).

(** [(domain id, domain name)], or the response to return. *)
Definition resolve_and_gate_domain (state : AppState) (client : AuthenticatedClient) (q : DomainQuery) :
    M (result Response (string * string)) :=
  let domain_name := DomainQuery_name q in
  found ← resolve_domain (name_index_key state) domain_name;
  match found with
  | Err e => mret (Err (db_error e))
  | Ok None => mret (Err (err 404 "no_such_domain" ("domain '" +:+ domain_name +:+ "' does not exist")))
  | Ok (Some id) =>
      allowed ← domain_member client id;
      match allowed with
      | Err e => mret (Err (db_error e))
      | Ok false => mret (Err (err 403 "not_member" ("not a member of domain '" +:+ domain_name +:+ "'")))
      | Ok true => mret (Ok (id, domain_name))
      end
  end.

Definition require_domain_admin (client : AuthenticatedClient) (domain_id : string) :
    M (result Response unit) :=
  r ← domain_admin client domain_id;
  mret (match r with
        | Ok true => Ok tt
        | Ok false => Err (err 403 "forbidden" "domain-admin role required for this domain")
        | Err e => Err (err 500 "internal" (sql_msg e))
        end).

(** ** Provisioning *)

Inductive AuthOpError :=
| AuthDb (e : SqlError)
| AuthTls (msg : string)
| AuthCrypto (e : CryptoError)
| AuthTotp (msg : string)
| AuthInvalid (msg : string).

Definition auth_msg (e : AuthOpError) : string :=
  match e with
  | AuthDb e => "db: " +:+ sql_msg e
  | AuthTls m => "tls: " +:+ m
  | AuthCrypto e => "crypto: " +:+ crypto_msg e
  | AuthTotp m => "totp: " +:+ m
  | AuthInvalid m => m
  end.

Definition lift_db {A} (m : M (result SqlError A)) : M (result AuthOpError A) :=
  r ← m; mret (map_err AuthDb r).

(** [aead_seal(s.as_bytes(), key).map_err(AuthOpError::Crypto)] *)
Definition seal_name (mek : bytes) (s : string) : M (result AuthOpError bytes) :=
  nonce ← draw 12; mret (map_err AuthCrypto (aead_seal nonce (as_bytes s) mek)).

Definition issue_client_cert (name : string) (ttl : Z) : M (result AuthOpError CertBundle) :=
  entropy ← draw 32; mret (map_err AuthTls (issue_cert entropy name ttl)).

Definition USER_DOMAIN_PREFIX : string := "~".
Definition user_domain_name (client_name : string) : string := USER_DOMAIN_PREFIX +:+ client_name.

(** [INSERT ... ON CONFLICT (name_id) DO NOTHING]. The id is twelve fresh random
    bytes: that it is in the table already, which would fail the statement, is
    not modelled. *)
Definition insert_domain_if_absent (x : Domain) (d : Db) : Db :=
  if existsb (fun y => d_name_id y =s? d_name_id x) (domains d) then d
  else upd_domains (insert_row x) d.

(** [INSERT ... ON CONFLICT (domain_id, client_id) DO UPDATE SET role = role] *)
Definition upsert_member (m : Member) (d : Db) : Db :=
  let hit x := (m_domain x =s? m_domain m) && (m_client x =s? m_client m) in
  if existsb hit (members d)
  then upd_members (update_where hit (fun x => MkMember (m_domain x) (m_client x) (m_role m) (m_added x))) d
  else upd_members (insert_row m) d.

(** [... ON CONFLICT DO NOTHING] *)
Definition insert_member_if_absent (m : Member) (d : Db) : Db :=
  if existsb (fun x => (m_domain x =s? m_domain m) && (m_client x =s? m_client m)) (members d) then d
  else upd_members (insert_row m) d.

Definition ensure_user_domain (mek nik : bytes) (client_id client_name : string) :
    M (result AuthOpError string) :=
  let dname := user_domain_name client_name in
  let name_id := domain_name_id_hex nik dname in
  existing ←? lift_db (query (fun _ => live_domain_id name_id));
  domain_id ←? match existing with
    | Some id => mret (Ok id)
    | None =>
        id ← new_id 12;
        name_enc ←? seal_name mek dname;
        desc_enc ←? seal_name mek ("Private user domain for " +:+ client_name);
        _ ←? lift_db (exec (fun now =>
               insert_domain_if_absent (MkDomain id name_enc name_id (Some desc_enc) now None)));
        lift_db (sql (fun _ d =>
          match first_row (fun x => d_name_id x =s? name_id) (domains d) with
          | Some x => Ok (d_id x, d)
          | None => Err SqlRowNotFound
          end))
    end;
  _ ←? lift_db (exec (fun now => upsert_member (MkMember domain_id client_id "admin" now)));
  mret (Ok dname).

(** [INSERT INTO blackbook_clients]: the table's UNIQUE and CHECK constraints. *)
Definition insert_client (c : Client) (d : Db) : result SqlError (unit * Db) :=
  if existsb (fun x => (c_id x =s? c_id c) || (c_name_id x =s? c_name_id c)
                       || (c_token_hash x =s? c_token_hash c)) (clients d)
  then Err SqlUnique
  else if (c_role c =s? "admin") || (c_role c =s? "user")
  then Ok (tt, upd_clients (insert_row c) d)
  else Err SqlCheck.

Record NewClient := MkNewClient {
  nc_id : string; nc_name : string; nc_role : string; nc_token : string;
  nc_cert_pem : string; nc_key_pem : string; nc_expires_at : string; nc_user_domain : string;
}.

Definition create_client (mek nik : bytes) (name role : string) (ttl_days : option Z) :
    M (result AuthOpError NewClient) :=
  if starts_with USER_DOMAIN_PREFIX name
  then mret (Err (AuthInvalid ("client name may not start with '" +:+ USER_DOMAIN_PREFIX
                               +:+ "' (reserved for private user domains)")))
  else
    token ← generate_token;
    let token_hash := hash_token token in
    id ← new_id 16;
    let ttl := default (default_ttl_days role) ttl_days in
    now ← utc_now;
    expires ← expiry_in_days now ttl;
    cert ←? issue_client_cert name ttl;
    name_enc ←? seal_name mek name;
    let name_id := client_name_id_hex nik name in
    _ ←? lift_db (sql (fun now d =>
           insert_client (MkClient id name_enc name_id token_hash role now None (Some expires)
                            (Some (fingerprint cert)) None false) d));
    let default_name_id := domain_name_id_hex nik "default" in
    default_id ←? lift_db (query (fun _ => live_domain_id default_name_id));
    _ ← match default_id with
        | Some domain_id =>
            ignore (exec (fun now => insert_member_if_absent (MkMember domain_id id "user" now)))
        | None => mret tt
        end;
    user_domain ←? ensure_user_domain mek nik id name;
    mret (Ok (MkNewClient id name role token (cert_pem cert) (key_pem cert) (fmt_rfc3339 expires) user_domain)).

(** [SET token_hash, expires_at, cert_fingerprint]; the hash stays unique. *)
Definition rotate_credentials (id token_hash : string) (expires : Z) (fp : string) (d : Db) :
    result SqlError (unit * Db) :=
  if existsb (fun x => (c_token_hash x =s? token_hash) && negb (c_id x =s? id)) (clients d)
  then Err SqlUnique
  else Ok (tt, upd_clients (update_where (fun c => c_id c =s? id) (fun c =>
         MkClient (c_id c) (c_name_enc c) (c_name_id c) token_hash (c_role c) (c_created c) (c_revoked c)
           (Some expires) (Some fp) (c_totp c) (c_totp_enrolled c))) d).

Definition rotate_client (nik : bytes) (name : string) (ttl_days : option Z) :
    M (result AuthOpError (option NewClient)) :=
  let name_id := client_name_id_hex nik name in
  existing ←? lift_db (query (fun _ d =>
    first_row (fun c => (c_name_id c =s? name_id) && is_null (c_revoked c)) (clients d)));
  match existing with
  | None => mret (Ok None)
  | Some c =>
      token ← generate_token;
      let token_hash := hash_token token in
      let ttl := default (default_ttl_days (c_role c)) ttl_days in
      now ← utc_now;
      expires ← expiry_in_days now ttl;
      cert ←? issue_client_cert name ttl;
      _ ←? lift_db (sql (fun _ => rotate_credentials (c_id c) token_hash expires (fingerprint cert)));
      mret (Ok (Some (MkNewClient (c_id c) name (c_role c) token (cert_pem cert) (key_pem cert)
                        (fmt_rfc3339 expires) (user_domain_name name))))
  end.

Definition bootstrap_admin_if_needed (mek nik : bytes) : M (result AuthOpError (option (string * CertBundle))) :=
  exists_ ←? lift_db (query (fun _ d =>
    existsb (fun c => (c_role c =s? "admin") && is_null (c_revoked c)) (clients d)));
  if exists_ : bool then mret (Ok None)
  else
    token ← generate_token;
    let token_hash := hash_token token in
    id ← new_id 16;
    let ttl := default_ttl_days "admin" in
    now ← utc_now;
    expires ← expiry_in_days now ttl;
    cert ←? issue_client_cert "admin" ttl;
    name_enc ←? seal_name mek "admin";
    let name_id := client_name_id_hex nik "admin" in
    _ ←? lift_db (sql (fun now d =>
           insert_client (MkClient id name_enc name_id token_hash "admin" now None (Some expires)
                            (Some (fingerprint cert)) None false) d));
    _ ←? ensure_user_domain mek nik id "admin";
    mret (Ok (Some (token, cert))).

(** ** TOTP *)

Definition set_totp (id : string) (secret : option bytes) (enrolled : bool) : Db -> Db :=
  upd_clients (update_where (fun c => c_id c =s? id) (fun c =>
    MkClient (c_id c) (c_name_enc c) (c_name_id c) (c_token_hash c) (c_role c) (c_created c) (c_revoked c)
      (c_expires c) (c_cert_fp c) (match secret with Some s => Some s | None => c_totp c end) enrolled)).

(** [encrypt_aes_gcm] with its fresh salt and clock reading. *)
Definition seal_envelope (data key : bytes) : M (CryptoResult bytes) :=
  salt ← draw SALT_LEN; now ← utc_now; mret (encrypt_aes_gcm salt (now / micros) data key).

Definition enroll_totp (kek : bytes) (client_id client_name : string) :
    M (result AuthOpError (string * string)) :=
  secret ← draw 20;
  sealed ← seal_envelope secret kek;
  enc ←? mret (map_err AuthCrypto sealed);
  _ ←? lift_db (exec (fun _ => set_totp client_id (Some enc) false));
  uri ←? mret (map_err AuthTotp (totp_url secret client_name));
  mret (Ok (uri, base32 secret)).

Definition totp_secret_of (client_id : string) (d : Db) : option bytes :=
  c ← first_row (fun c => (c_id c =s? client_id) && negb (is_null (c_totp c))) (clients d); c_totp c.

Definition verify_totp (kek : bytes) (client_id code : string) : M (result AuthOpError bool) :=
  row ←? lift_db (query (fun _ => totp_secret_of client_id));
  match row with
  | None => mret (Ok false)
  | Some enc =>
      secret ←? mret (map_err AuthCrypto (decrypt_aes_gcm enc kek));
      now ← utc_now;
      good ←? mret (map_err AuthTotp (totp_check client_id secret now code));
      _ ← (if good : bool then ignore (exec (fun _ => set_totp client_id None true)) else mret tt);
      mret (Ok good)
  end.
End auth.

(** ** What each operation may write *)

Section frames.
Context {P : Primitives} {PF : Platform}.

Lemma writes_lift_db ps {A} (m : M (result SqlError A)) : writes ps m -> writes ps (lift_db m).
Proof. intros H. by apply writes_bind. Qed.

Lemma writes_live_client ps mek row : writes ps (live_client mek row).
Proof. unfold live_client. solve_writes. Qed.

Lemma writes_lookup_by_cn mek nik cn fp : writes [] (lookup_by_cn mek nik cn fp).
Proof. unfold lookup_by_cn. solve_writes. apply writes_live_client. Qed.

Lemma writes_lookup_by_token mek t : writes [] (lookup_by_token mek t).
Proof. unfold lookup_by_token. solve_writes. apply writes_live_client. Qed.

#[local] Hint Resolve writes_lookup_by_cn writes_lookup_by_token : writes.
Lemma writes_from_request state a p : writes [] (from_request state a p).
Proof. unfold from_request. solve_writes. Qed.

Lemma writes_acl_scan mek name l : writes [] (acl_scan mek name l).
Proof. induction l; cbn [acl_scan]; solve_writes. Qed.

Lemma writes_acl_check mek c d r a : writes [] (acl_check mek c d r a).
Proof. unfold acl_check. solve_writes. apply writes_acl_scan. Qed.

Lemma writes_acl_record_use d : writes [PAcls] (acl_record_use d).
Proof. unfold acl_record_use, count_acl_use. solve_writes. Qed.

Lemma writes_expiry_in_days ps now ttl : writes ps (expiry_in_days now ttl).
Proof. unfold expiry_in_days. solve_writes. Qed.

(** A program that got past it has its date. *)
Lemma run_expiry now ttl w t w' :
  run (expiry_in_days now ttl) w = (Val t, w') -> w' = w.
Proof. unfold expiry_in_days. destruct (add_seconds _ _); [|done]. by intros [= _ <-]. Qed.

Lemma writes_resolve_domain nik n : writes [] (resolve_domain nik n).
Proof. unfold resolve_domain. solve_writes. Qed.
Lemma writes_domain_member c d : writes [] (domain_member c d).
Proof. unfold domain_member. solve_writes. Qed.
Lemma writes_domain_admin c d : writes [] (domain_admin c d).
Proof. unfold domain_admin. solve_writes. Qed.
Lemma writes_admin_domain_ids c : writes [] (admin_domain_ids c).
Proof. unfold admin_domain_ids. solve_writes. Qed.

#[local] Hint Resolve writes_resolve_domain writes_domain_member : writes.
Lemma writes_resolve_and_gate_domain state c q : writes [] (resolve_and_gate_domain state c q).
Proof. unfold resolve_and_gate_domain. solve_writes. Qed.

Lemma writes_require_domain_admin c d : writes [] (require_domain_admin c d).
Proof. unfold require_domain_admin. solve_writes. apply writes_domain_admin. Qed.

Lemma writes_seal_envelope ps b k : writes ps (seal_envelope b k).
Proof. unfold seal_envelope. solve_writes. Qed.

Lemma writes_verify_totp kek c code : writes [PClients] (verify_totp kek c code).
Proof. unfold verify_totp. solve_writes; try apply writes_lift_db; solve_writes. Qed.
End frames.

#[export] Hint Resolve writes_from_request writes_acl_check writes_acl_record_use writes_resolve_domain
  writes_domain_member writes_domain_admin writes_admin_domain_ids writes_resolve_and_gate_domain
  writes_require_domain_admin writes_verify_totp : writes.
#[export] Hint Extern 1 (writes _ (seal_envelope _ _)) => apply (writes_seal_envelope []) : writes.
