(* ===== verification/AuthProps.v ===== *)
(** Properties of authentication and authorization ([Auth.v]). *)
From S2P Require Import Prelude AccessRules Crypto ToyPrimitives Store Effects Concurrency ServerBase ToyPlatform AuditLog Auth.

Section auth_props.
Context {P : Primitives} {PF : Platform}.

(** ** Lookups *)

(** What a credential row authenticates as, at a clock reading. *)
Definition live_row (mek : bytes) (now : Z) (row : option Client) : option AuthenticatedClient :=
  c ← row;
  if from_option (fun e => e <=? now) false (c_expires c) then None
  else name ← ok (dec_str mek (c_name_enc c)); Some (MkClientId (c_id c) name (c_role c)).

Lemma run_live_client mek row w : run (live_client mek row) w = (Val (live_row mek (clock w) row), w).
Proof.
  destruct row as [c|]; [|done]. simpl. destruct (from_option _ _ _); [done|].
  by destruct (dec_str mek (c_name_enc c)).
Qed.

Definition by_cn (nik : bytes) (cn fp : string) (c : Client) : bool :=
  (c_name_id c =s? client_name_id_hex nik cn) && opt_is (c_cert_fp c) fp && is_null (c_revoked c).
Definition by_token (t : string) (c : Client) : bool :=
  (c_token_hash c =s? hash_token t) && is_null (c_revoked c).

(** Both lookups: fail, or read the row and its expiry. *)
Definition lookup (mek : bytes) (p : Client -> bool) : M (result SqlError (option AuthenticatedClient)) :=
  row ←? query (fun _ d => first_row p (clients d));
  found ← live_client mek row; mret (Ok found).

Lemma run_lookup mek p w :
  exists l, (faults w = [] -> l = []) /\
    ((faults w <> [] /\ run (lookup mek p) w = (Val (Err SqlDown), set_faults l w)) \/
     run (lookup mek p) w =
       (Val (Ok (live_row mek (clock w) (first_row p (clients (db w))))), set_faults l w)).
Proof.
  destruct (run_query_cases (fun _ d => first_row p (clients d)) w) as (l & Hl & H).
  exists l. split; [done|]. unfold lookup, try_bind. destruct H as [[Hn H]|H].
  - left. split; [done|]. by rewrite run_bind, H.
  - right. eapply run_then; [exact H|]. cbv beta iota.
    eapply run_then; [apply run_live_client|]. reflexivity.
Qed.

Lemma lookup_Some mek p w a w' :
  run (or_500 (lookup mek p)) w = (Val (Some a), w') ->
  clock w' = clock w /\ db w' = db w /\
  exists c, c ∈ clients (db w) /\ p c = true /\ live_row mek (clock w) (Some c) = Some a.
Proof.
  intros H. run_inv. destruct (run_lookup mek p w) as (l & _ & [[_ Hr]|Hr]); rewrite Hr in H; simplify_eq.
  split; [done|]. split; [done|].
  destruct (first_row p (clients (db w))) as [c|] eqn:E; [|done].
  exists c. by apply first_row_Some in E as [? ?].
Qed.

Lemma lookup_healthy mek p w :
  faults w = [] ->
  run (or_500 (lookup mek p)) w = (Val (live_row mek (clock w) (first_row p (clients (db w)))), w).
Proof.
  intros Hf. apply run_or_500. destruct (run_lookup mek p w) as (l & Hl & [[Hn _]|Hr]); [done|].
  by rewrite Hr, (Hl Hf), set_faults_nil.
Qed.

(** ** The extractor *)

(** What the UNIQUE constraints of the table say. *)
Definition clients_wf (d : Db) : Prop :=
  NoDup (c_id <$> clients d) /\ NoDup (c_name_id <$> clients d) /\ NoDup (c_token_hash <$> clients d).

(** Row [c] carries both factors and is neither revoked nor expired. *)
Definition credential (state : AppState) (w : World) (p : PeerCertInfo) (t : string) (c : Client) : Prop :=
  c ∈ clients (db w) /\
  c_name_id c = client_name_id_hex (name_index_key state) (common_name p) /\
  c_cert_fp c = Some (peer_fingerprint p) /\ c_token_hash c = hash_token t /\
  c_revoked c = None /\ (forall e, c_expires c = Some e -> clock w < e).

Definition identity (state : AppState) (c : Client) (a : AuthenticatedClient) : Prop :=
  exists name, dec_str (metadata_enc_key state) (c_name_enc c) = Ok name /\
               a = MkClientId (c_id c) name (c_role c).

Lemma NoDup_fmap_inj {A B} (f : A -> B) (l : list A) x y :
  NoDup (f <$> l) -> x ∈ l -> y ∈ l -> f x = f y -> x = y.
Proof.
  induction l as [|z l IH]; [by intros _ H%not_elem_of_nil|]. rewrite fmap_cons.
  intros [Hz Hl]%NoDup_cons Hx Hy Hf. apply elem_of_cons in Hx as [->|Hx], Hy as [->|Hy]; [done|..].
  - destruct Hz. rewrite Hf. by apply list_elem_of_fmap_2.
  - destruct Hz. rewrite <- Hf. by apply list_elem_of_fmap_2.
  - by apply IH.
Qed.

Lemma opt_is_true o s : opt_is o s = true <-> o = Some s.
Proof. destruct o; simpl; [rewrite String.eqb_eq; naive_solver|naive_solver]. Qed.

Lemma is_null_true {A} (o : option A) : is_null o = true <-> o = None.
Proof. by destruct o. Qed.

Lemma live_row_Some mek now c a :
  live_row mek now (Some c) = Some a <->
  (forall e, c_expires c = Some e -> now < e) /\
  exists name, dec_str mek (c_name_enc c) = Ok name /\ a = MkClientId (c_id c) name (c_role c).
Proof.
  simpl. destruct (c_expires c) as [e|]; simpl.
  - destruct (Z.leb_spec e now).
    + split; [done|]. intros [He _]. specialize (He e eq_refl). lia.
    + destruct (dec_str mek (c_name_enc c)); simpl; naive_solver.
  - destruct (dec_str mek (c_name_enc c)); simpl; naive_solver.
Qed.

Lemma first_row_unique {A} (p : A -> bool) l x :
  x ∈ l -> p x = true -> (forall y, y ∈ l -> p y = true -> y = x) -> first_row p l = Some x.
Proof.
  intros Hx Hp Hu. destruct (first_row p l) as [y|] eqn:E.
  - apply first_row_Some in E as [Hy Hpy]. by rewrite (Hu y).
  - pose proof (first_row_None _ _ _ E Hx). congruence.
Qed.

Lemma from_request_sound state auth peer w a w' :
  NoDup (c_id <$> clients (db w)) -> run (from_request state auth peer) w = (Val a, w') ->
  exists p t c, peer = Some p /\ auth = Some ("Bearer " +:+ t) /\ credential state w p t c /\
                identity state c a.
Proof.
  intros Hid H. unfold from_request in H. run_inv.
  rename x into by_c, x0 into w1, x1 into by_t, x2 into w2.
  destruct by_c as [a1|], by_t as [a2|]; try done.
  destruct (String.eqb_spec (ac_id a1) (ac_id a2)) as [Hsame|]; [|done]. run_inv.
  destruct peer as [p|]; [|done].
  destruct (auth ≫= strip_prefix "Bearer ") as [t|] eqn:Ht; [|done].
  destruct auth as [s|]; [|done]. simpl in Ht. apply strip_prefix_Some in Ht.
  apply (lookup_Some _ (by_cn (name_index_key state) (common_name p) (peer_fingerprint p))) in H
    as (Hc1 & Hd1 & c1 & Hin1 & Hp1 & Ha1).
  apply (lookup_Some _ (by_token t)) in H0 as (_ & _ & c2 & Hin2 & Hp2 & Ha2).
  rewrite Hd1 in Hin2. rewrite Hc1 in Ha2.
  apply live_row_Some in Ha1 as [He1 (n1 & Hn1 & ->)], Ha2 as [He2 (n2 & Hn2 & ->)]. simpl in Hsame.
  assert (c1 = c2) as <- by (by eapply (NoDup_fmap_inj c_id)).
  unfold by_cn, by_token in *. bool_to_prop.
  repeat match goal with H : opt_is _ _ = true |- _ => apply opt_is_true in H
                       | H : is_null _ = true |- _ => apply is_null_true in H end.
  exists p, t, c1. split; [done|]. split; [by f_equal|]. split; [done|]. by exists n1.
Qed.

Lemma from_request_complete state p t c a w :
  clients_wf (db w) -> faults w = [] -> credential state w p t c -> identity state c a ->
  run (from_request state (Some ("Bearer " +:+ t)) (Some p)) w = (Val a, w).
Proof.
  intros (_ & Hn & Ht) Hf (Hin & Hname & Hfp & Htok & Hrev & Hexp) Hid.
  assert (Hlive : live_row (metadata_enc_key state) (clock w) (Some c) = Some a) by (by apply live_row_Some).
  unfold from_request. eapply run_then; [|eapply run_then].
  - etrans; [apply (lookup_healthy _ (by_cn (name_index_key state) (common_name p) (peer_fingerprint p)) _ Hf)|].
    rewrite (first_row_unique _ _ c); [reflexivity|done|..].
    + unfold by_cn. rewrite Hname, String.eqb_refl, (proj2 (opt_is_true _ _) Hfp), Hrev. done.
    + intros y Hy Hby. unfold by_cn in Hby. bool_to_prop.
      eapply (NoDup_fmap_inj c_name_id); [done..|]. congruence.
  - simpl mbind. rewrite strip_prefix_app. 
    etrans; [apply (lookup_healthy _ (by_token t) _ Hf)|].
    rewrite (first_row_unique _ _ c); [reflexivity|done|..].
    + unfold by_token. by rewrite Htok, String.eqb_refl, Hrev.
    + intros y Hy Hby. unfold by_token in Hby. bool_to_prop.
      eapply (NoDup_fmap_inj c_token_hash); [done..|]. congruence.
  - rewrite Hlive. by rewrite String.eqb_refl.
Qed.

(** ** Rotation *)

Lemma run_lift_db {A} (m : M (result SqlError A)) w a w' :
  run (lift_db m) w = (Val (Ok a), w') -> run m w = (Val (Ok a), w').
Proof.
  unfold lift_db. intros H. run_inv. by match goal with r : result SqlError A |- _ => destruct r; simplify_eq/= end.
Qed.

(** What a successful rotation has stored. *)
Lemma rotate_client_inv nik name ttl w nc w' :
  run (rotate_client nik name ttl) w = (Val (Ok (Some nc)), w') ->
  exists entropy t cert expires,
    issue_cert entropy name t = Ok cert /\ nc_cert_pem nc = cert_pem cert /\
    rotate_credentials (nc_id nc) (hash_token (nc_token nc)) expires (fingerprint cert) (db w)
      = Ok (tt, db w').
Proof.
  intros H. unfold rotate_client in H. run_inv.
  match goal with H : run (lift_db _) w = _ |- _ => apply run_lift_db in H end. run_inv.
  destruct (first_row _ _) as [c|]; [|by run_inv]. run_inv.
  match goal with H : run (expiry_in_days _ _) _ = _ |- _ => apply run_expiry in H as -> end. run_inv.
  unfold generate_token, issue_client_cert in *. run_inv.
  match goal with H : run (lift_db _) _ = _ |- _ => apply run_lift_db in H end. run_inv.
  match goal with H : map_err _ (issue_cert ?e ?n ?t) = _ |- _ =>
    destruct (issue_cert e n t) as [cert|] eqn:Ec; [injection H as <-|discriminate H] end.
  eexists _, _, cert, _. split; [exact Ec|]. split; [done|]. simpl in *.
  match goal with u : unit |- _ => destruct u; eassumption end.
Qed.

Lemma rotated_row id th expires fp d d' c :
  rotate_credentials id th expires fp d = Ok (tt, d') -> c ∈ clients d' -> c_id c = id ->
  c_token_hash c = th /\ c_cert_fp c = Some fp.
Proof.
  unfold rotate_credentials. destruct (existsb _ _); intros H; simplify_eq/=.
  intros (c0 & Hc0 & ->)%elem_of_update_where.
  destruct (String.eqb_spec (c_id c0) id); [done|]. by intros.
Qed.

Lemma rotated_ids id th expires fp d d' :
  rotate_credentials id th expires fp d = Ok (tt, d') -> c_id <$> clients d' = c_id <$> clients d.
Proof.
  unfold rotate_credentials. destruct (existsb _ _); intros H; simplify_eq/=.
  unfold update_where. induction (clients d) as [|c l IH]; [done|].
  rewrite map_cons, !fmap_cons. f_equal; [by destruct (c_id c =s? id)|exact IH].
Qed.

Lemma hash_token_inj {L : PrimitiveLaws P} s t : hash_token s = hash_token t -> s = t \/ collides [as_bytes s] [as_bytes t].
Proof.
  intros H%hex_encode_inj. apply sha3_eq_or_collides in H as [H|]; [left|by right].
  by apply as_bytes_inj.
Qed.

(** ** ACL rules *)

(** Rule [a] lets the client act on the resource now. *)
Definition rule_grants (mek : bytes) (d : Db) (now : Z) (client : AuthenticatedClient)
    (domain_id resource_name : string) (action : AclAction) (a : Acl) : Prop :=
  a ∈ acls d /\ a_domain a = domain_id /\
  (a_client a = Some (ac_id client) \/
   exists m, m ∈ members d /\ m_client m = ac_id client /\ a_group a = Some (m_domain m)) /\
  Z.land (a_actions a) (action_bit action) <> 0 /\
  (forall e, a_expires a = Some e -> now < e) /\
  (forall b, a_not_before a = Some b -> b <= now) /\
  (forall m, a_max_uses a = Some m -> a_use_count a < m) /\
  (exists b pattern, aead_open (a_pattern a) mek = Ok b /\ from_utf8 b = Some pattern /\
                     sql_like_match pattern resource_name = true) /\
  (forall s, a_schedule a = Some s -> cron_window_matches s (civil_of now) = Ok true) /\
  rate_ok (a_rate_max a) (a_rate_period a) (a_rate_count a) (a_rate_window a) now = true.

Definition is_domain_admin (d : Db) (client : AuthenticatedClient) (domain_id : string) : Prop :=
  exists m, m ∈ members d /\ m_client m = ac_id client /\ m_domain m = domain_id /\ m_role m = "admin".

Lemma from_option_true {A} (f : A -> bool) (o : option A) :
  from_option f true o = true <-> forall x, o = Some x -> f x = true.
Proof. destruct o; simpl; naive_solver. Qed.

Lemma rule_grants_spec mek d now client dom name act a :
  rule_grants mek d now client dom name act a <->
  a ∈ acls d /\ acl_candidate d now (ac_id client) dom act a = true /\ acl_admits mek name now a = true.
Proof.
  unfold rule_grants, acl_candidate. rewrite !andb_true_iff, !from_option_true, orb_true_iff, String.eqb_eq,
    opt_is_true, negb_true_iff, Z.eqb_neq, existsb_exists.
  setoid_rewrite Z.ltb_lt. setoid_rewrite Z.leb_le. setoid_rewrite andb_true_iff.
  setoid_rewrite String.eqb_eq. setoid_rewrite opt_is_true. setoid_rewrite list_elem_of_In.
  assert (acl_admits mek name now a = true <->
    (exists b pattern, aead_open (a_pattern a) mek = Ok b /\ from_utf8 b = Some pattern /\
                       sql_like_match pattern name = true) /\
    (forall s, a_schedule a = Some s -> cron_window_matches s (civil_of now) = Ok true) /\
    rate_ok (a_rate_max a) (a_rate_period a) (a_rate_count a) (a_rate_window a) now = true) as ->.
  { unfold acl_admits.
    destruct (aead_open _ _) as [b|]; [|split; [done|by intros ((? & ? & ? & _) & _)]].
    destruct (from_utf8 b) as [pat|] eqn:Hu;
      [|split; [done|intros ((? & ? & ? & ? & _) & _); congruence]].
    rewrite !andb_true_iff, from_option_true.
    assert (forall s, unwrap_or false (cron_window_matches s (civil_of now)) = true <->
                      cron_window_matches s (civil_of now) = Ok true) as Hc.
    { intros s. destruct (cron_window_matches s (civil_of now)) as [[]|]; naive_solver. }
    setoid_rewrite Hc. split.
    - intros [[? ?] ?]. split; [by exists b, pat|done].
    - intros ((b' & pat' & ? & ? & ?) & ? & ?). simplify_eq. done. }
  naive_solver.
Qed.

Lemma has_member_spec client dom d :
  has_member (ac_id client) dom (Some "admin") d = true <-> is_domain_admin d client dom.
Proof.
  unfold has_member, is_domain_admin. rewrite negb_true_iff.
  destruct (first_row _ _) as [m|] eqn:E; simpl; (split; [|]).
  - intros _. apply first_row_Some in E as [Hin Hm]. unfold is_member in Hm; simpl in Hm. bool_to_prop. by exists m.
  - done.
  - done.
  - intros (m & Hin & Hc & Hd & Hr). pose proof (first_row_None _ _ _ E Hin) as Hf.
    unfold is_member in Hf; simpl in Hf. by rewrite Hc, Hd, Hr, !String.eqb_refl in Hf.
Qed.

(** The scan returns the first admitted candidate. *)
Lemma run_acl_scan mek name cands w :
  run (acl_scan mek name cands) w =
    (Val (from_option (fun a => Allowed (a_id a)) Denied (first_row (acl_admits mek name (clock w)) cands)), w).
Proof.
  induction cands as [|a cands IH]; [done|]. cbn [acl_scan].
  eapply run_then; [apply run_utc_now|]. cbv beta.
  unfold first_row, select. simpl. destruct (acl_admits mek name (clock w) a); [done|].
  rewrite IH. done.
Qed.
End auth_props.

(** ** Accesses under one rule *)

(** A request that an ACL rule authorises: the check, then the accounting. *)
Definition acl_access {P : Primitives} {PF : Platform} (mek : bytes) (client : AuthenticatedClient)
    (domain_id resource_name : string) (action : AclAction) : M AclDecision :=
  decision ← or_500 (acl_check mek client domain_id resource_name action);
  _ ← acl_record_use decision;
  mret decision.

(** * Properties *)

(** C8. A request authenticates exactly when it presents a certificate and a
    bearer token that both belong to one and the same client row, neither
    revoked nor expired; the identity is that row's. Whatever fails, nothing
    less is accepted, and the tables are left alone. *)
Theorem from_request_two_factor {P : Primitives} {PF : Platform} state auth peer w :
  clients_wf (db w) ->
  (forall a w', run (from_request state auth peer) w = (Val a, w') ->
     db w' = db w /\
     exists p t c, peer = Some p /\ auth = Some ("Bearer " +:+ t) /\ credential state w p t c /\
                   identity state c a) /\
  (faults w = [] -> forall p t c a,
     peer = Some p -> auth = Some ("Bearer " +:+ t) -> credential state w p t c -> identity state c a ->
     run (from_request state auth peer) w = (Val a, w)).
Proof.
  intros Hwf. split.
  - intros a w' H. split; [|by eapply from_request_sound; [apply Hwf|]].
    apply (reads_only _ _ _ _ (writes_from_request state auth peer) H).
  - intros Hf p t c a -> -> Hc Hi. by apply (from_request_complete state p t c).
Qed.

(** C21. After a rotation, authenticating as that client takes the new token
    (or one whose SHA3-256 digest collides with it) and the certificate just issued: the previous
    bundle is dead. *)
Theorem rotation_supersedes {P : Primitives} {L : PrimitiveLaws P} {PF : Platform}
    state name ttl w nc w1 w2 auth peer a w3 :
  NoDup (c_id <$> clients (db w)) ->
  run (rotate_client (name_index_key state) name ttl) w = (Val (Ok (Some nc)), w1) ->
  db w2 = db w1 -> run (from_request state auth peer) w2 = (Val a, w3) -> ac_id a = nc_id nc ->
  exists t p entropy days cert,
    auth = Some ("Bearer " +:+ t) /\ (t = nc_token nc \/ collides [as_bytes t] [as_bytes (nc_token nc)]) /\
    issue_cert entropy name days = Ok cert /\ nc_cert_pem nc = cert_pem cert /\
    peer = Some p /\ peer_fingerprint p = fingerprint cert.
Proof.
  intros Hnd Hrot Hdb Hreq Hid. apply rotate_client_inv in Hrot as (ent & dd & cert & exp & Hc & Hpem & Hset).
  apply from_request_sound in Hreq as (p & t & c & -> & -> & Hcred & Hident).
  - destruct Hcred as (Hin & _ & Hfp & Htok & _). rewrite Hdb in Hin.
    destruct Hident as (n & _ & ->). simpl in Hid.
    destruct (rotated_row _ _ _ _ _ _ _ Hset Hin Hid) as [Hth Hcf].
    exists t, p, ent, dd, cert. split; [done|]. split.
    { apply hash_token_inj. congruence. }
    do 3 (split; [done|]). congruence.
  - by rewrite Hdb, (rotated_ids _ _ _ _ _ _ Hset).
Qed.

(** Who may act on a resource now. *)
Definition acl_granted `{Primitives} `{Platform} (mek : bytes) (d : Db) (now : Z) (client : AuthenticatedClient)
    (dom name : string) (action : AclAction) : Prop :=
  is_admin client = true \/ is_domain_admin d client dom \/
  exists a, rule_grants mek d now client dom name action a.

Section acl_scan.
Context {P : Primitives} {PF : Platform}.

(** The scan finds a rule exactly when some candidate admits the name. *)
Lemma acl_scan_finds mek d now client dom name action l :
  is_allowed (from_option (fun a => Allowed (a_id a)) Denied
     (first_row (acl_admits mek name now) (order_by (fun a => - a_granted_at a)
        (select (acl_candidate d now client dom action) l)))) = true <->
  exists a, a ∈ l /\ acl_candidate d now client dom action a = true /\ acl_admits mek name now a = true.
Proof.
  destruct (first_row _ _) as [a|] eqn:E; simpl; (split; [|]); try done.
  - intros _. apply first_row_Some in E as [Hin Ha]. rewrite elem_of_order_by, elem_of_select in Hin.
    exists a. tauto.
  - intros (a & Hin & Hc & Ha). rewrite (first_row_None _ _ a E) in Ha; [done|].
    by rewrite elem_of_order_by, elem_of_select.
Qed.

Lemma acl_check_sound mek client dom name action w d w' :
  run (acl_check mek client dom name action) w = (Val (Ok d), w') -> is_allowed d = true ->
  acl_granted mek (db w) (clock w) client dom name action.
Proof.
  unfold acl_check, acl_granted. intros H Hd. destruct (is_admin client); [by left|]. right. run_inv.
  destruct (has_member _ _ _ _) eqn:Em; [left; by apply has_member_spec|]. right.
  run_inv. rewrite run_acl_scan in *. simplify_eq/=. apply acl_scan_finds in Hd as [a Ha].
  exists a. by apply rule_grants_spec.
Qed.
End acl_scan.

(** A code the server accepted: the second factor on file agrees with it. *)
Definition totp_accepts `{Primitives} `{Platform} (d : Db) (now : Z) (kek : bytes) (client_id code : string) : Prop :=
  exists c enc secret, c ∈ clients d /\ c_id c = client_id /\ c_totp c = Some enc /\
    decrypt_aes_gcm enc kek = Ok secret /\ totp_check client_id secret now code = Ok true.

Lemma verify_totp_sound `{Primitives} `{Platform} kek client_id code w w' :
  run (verify_totp kek client_id code) w = (Val (Ok true), w') -> totp_accepts (db w) (clock w) kek client_id code.
Proof.
  unfold verify_totp, lift_db. intros Hr. apply run_try_Ok in Hr as (row & w1 & Hq & Hr).
  apply run_bind_Val in Hq as (q & w2 & Hq & Hq'). destruct q as [q|e]; [|done].
  apply run_query_Ok in Hq as (-> & l & ->). rewrite run_ret in Hq'. simplify_eq.
  destruct (totp_secret_of client_id (db w)) as [enc|] eqn:E; [|by rewrite run_ret in Hr].
  unfold totp_secret_of in E. destruct (first_row _ _) as [c|] eqn:Ec; [|done]. simpl in E.
  apply first_row_Some in Ec as [Hin Hc]. apply andb_true_iff in Hc as [Hid%String.eqb_eq _].
  apply run_try_Ok in Hr as (secret & w3 & Hd & Hr). rewrite run_ret in Hd.
  destruct (decrypt_aes_gcm enc kek) as [sec|] eqn:Ed; [|done]. simplify_eq.
  apply run_bind_Val in Hr as (now & w4 & Hnow & Hr). rewrite run_utc_now in Hnow. simplify_eq.
  apply run_try_Ok in Hr as (good & w5 & Hg & Hr). rewrite run_ret in Hg.
  destruct (totp_check _ _ _ _) as [g|] eqn:Et; [|done]. simplify_eq.
  apply run_bind_Val in Hr as (u & w6 & _ & Hr). rewrite run_ret in Hr. simplify_eq.
  by exists c, enc, secret.
Qed.

(** The ACL decision: on a healthy database it is positive exactly for a
    global administrator, an administrator of the domain, or a client some rule
    lets through now (right domain, direct or inherited by group membership,
    action granted, inside its validity and schedule, below its use and rate
    caps, pattern matching the name); and no database failure can turn a denial
    into an approval. *)
Theorem acl_check_decides {P : Primitives} {PF : Platform} mek client dom name action w :
  let granted := acl_granted mek (db w) (clock w) client dom name action in
  (forall d w', run (acl_check mek client dom name action) w = (Val (Ok d), w') ->
     is_allowed d = true -> granted) /\
  (faults w = [] -> exists d, run (acl_check mek client dom name action) w = (Val (Ok d), w) /\
                              (is_allowed d = true <-> granted)).
Proof.
  intros granted.
  split; [intros d w'; apply acl_check_sound|]. intros Hf. unfold granted, acl_granted, acl_check.
  destruct (is_admin client); [eexists; split; [reflexivity|]; split; [by left|done]|].
  destruct (has_member (ac_id client) dom (Some "admin") (db w)) eqn:Em.
  - eexists. split.
    + eapply run_try; [by apply run_query|]. rewrite Em. reflexivity.
    + split; [|done]. intros _. right. left. by apply has_member_spec.
  - eexists. split.
    + eapply run_try; [by apply run_query|]. rewrite Em.
      eapply run_try; [by apply run_query|]. eapply run_then; [apply run_acl_scan|]. reflexivity.
    + rewrite acl_scan_finds. setoid_rewrite <- rule_grants_spec. rewrite <- has_member_spec, Em. naive_solver.
Qed.

(** The use cap of a rule is not enforced against concurrent requests: the
    check and the accounting are separate statements, so two requests can both
    be authorised by a rule whose [max_uses] is one. *)
Theorem acl_max_uses_race :
  exists w' ps',
    pool_steps (toy_world, replicate 2 (acl_access (metadata_enc_key toy_state) bob "d-default" "db/x" Read))
      (w', ps') /\
    ps' = replicate 2 (Done (Val (Allowed "acl-3"))) /\
    (forall a, a ∈ acls (db toy_world) -> a_id a = "acl-3" -> a_max_uses a = Some 1).
Proof.
  set (s := interleave [0; 0; 0; 1; 1; 1; 0; 1]%nat (toy_world, replicate 2
              (acl_access (metadata_enc_key toy_state) bob "d-default" "db/x" Read))).
  exists s.1, s.2. split; [|split].
  - rewrite <- surjective_pairing. apply interleave_steps.
  - vm_compute. reflexivity.
  - intros a Ha Hid. do 3 (apply elem_of_cons in Ha as [->|Ha]; [try discriminate Hid; reflexivity|]).
    by apply not_elem_of_nil in Ha.
Qed.

(** ** Witnesses *)

Lemma toy_clients_wf : clients_wf toy_db.
Proof. repeat split; apply (bool_decide_unpack _); vm_compute; exact I. Qed.

Lemma from_request_two_factor_witness :
  run (from_request toy_state (Some "Bearer tok-a") (Some (MkPeer "alice" "fp-a"))) toy_world
    = (Val alice, toy_world).
Proof.
  apply (proj2 (from_request_two_factor toy_state (Some "Bearer tok-a") (Some (MkPeer "alice" "fp-a"))
                  toy_world toy_clients_wf) eq_refl (MkPeer "alice" "fp-a") "tok-a"
           (toy_client "c-alice" "alice" "user" "tok-a" "fp-a")).
  - reflexivity.
  - reflexivity.
  - split; [left|]. repeat split. discriminate.
  - exists "alice". split; [vm_compute|]; reflexivity.
Defined.

Section rotation_witness.
Let out := run (rotate_client (name_index_key toy_state) "alice" None) toy_world.
Let nc := match out.1 with Val (Ok (Some nc)) => nc | _ => MkNewClient "" "" "" "" "" "" "" "" end.
Let w1 := out.2.
Let fp := match first_row (fun c => c_id c =s? "c-alice") (clients (db w1)) with
          | Some c => default "" (c_cert_fp c) | None => "" end.

Lemma rotation_supersedes_witness :
  exists t p entropy days cert,
    Some ("Bearer " +:+ nc_token nc) = Some ("Bearer " +:+ t) /\ (t = nc_token nc \/ collides [as_bytes t] [as_bytes (nc_token nc)]) /\
    issue_cert entropy "alice" days = Ok cert /\ nc_cert_pem nc = cert_pem cert /\
    Some (MkPeer "alice" fp) = Some p /\ peer_fingerprint p = fingerprint cert.
Proof.
  apply (rotation_supersedes toy_state "alice" None toy_world nc w1 w1
           (Some ("Bearer " +:+ nc_token nc)) (Some (MkPeer "alice" fp)) alice w1).
  - apply toy_clients_wf.
  - vm_compute. reflexivity.
  - reflexivity.
  - vm_compute. reflexivity.
  - vm_compute. reflexivity.
Defined.
End rotation_witness.
