(* ===== verification/Admin.v ===== *)
(** The administration endpoints of [src/src/server.rs]: client provisioning,
    rotation and revocation, ACL rules, domains and their members, and the two
    informational endpoints. Foreign keys into tables whose rows are never
    deleted (clients, domains) always hold and are left out. *)
From stdpp Require Import sorting.
From S2P Require Import Prelude AccessRules Crypto Store Effects ServerBase AuditLog Auth.

(** ** Requests *)

Record CreateClientRequest := MkCreateClient { cr_name : string; cr_role : string; cr_ttl_days : option Z }.

Record GrantAclRequest := MkGrantAcl {
  ga_client_name : option string;
  ga_group_domain : option string;
  ga_domain : option string;
  ga_pattern : string;
  ga_actions : list string;
  ga_expires_at : option string;
  ga_not_before : option string;
  ga_max_uses : option Z;
  ga_rate_max : option Z;
  ga_rate_period : option Z;
  ga_schedule : option string;
}.

Record CreateDomainRequest := MkCreateDomain { cd_name : string; cd_description : option string }.

Record AddMemberRequest := MkAddMember { am_client_name : string; am_role : string }.

(** [xs.join(",")] *)
Definition comma_join (l : list string) : string := String.concat "," l.

(** [ORDER BY id] on hexadecimal ids. *)
Definition domain_le (x y : Domain) : Prop := String.leb (d_id x) (d_id y) = true.
#[export] Instance domain_le_dec : RelDecision domain_le.
Proof. intros x y. unfold domain_le. apply _. Defined.

(** [{"error": "validation_error", ...}] *)
Definition invalid (message : string) : Response := err 400 "validation_error" message.

(** Optional members of a serialized struct. *)
Definition some_field {A} (name : string) (f : A -> Json) (o : option A) : list (string * Json) :=
  match o with Some x => [(name, f x)] | None => [] end.

Section admin.
Context {P : Primitives} {PF : Platform} (state : AppState).

Abbreviation nik := (name_index_key state).
Abbreviation mek := (metadata_enc_key state).
Abbreviation log := (audit (audit_hmac_key state) (metadata_enc_key state)).

(** ** Informational *)

Definition health_check (start_time : Z) (version : string) : M Response :=
  now ← utc_now;
  let uptime := if start_time <=? now then (now - start_time) / micros else 0 in
  acquired ← query (fun _ _ => tt);
  let db_healthy := match acquired with Ok _ => true | Err _ => false end in
  mret (json_response 200 (JObj
    [("status", JStr (if db_healthy then "healthy" else "degraded"));
     ("database", JStr (if db_healthy then "connected" else "disconnected"));
     ("version", JStr version); ("uptime", JNum uptime)])).

Definition whoami (client : AuthenticatedClient) : M Response :=
  let dname := user_domain_name (ac_name client) in
  let dname_id := domain_name_id_hex nik dname in
  has_user_domain ← or_500 (query (fun _ d =>
    existsb (fun x => live_domain dname_id x && has_member (ac_id client) (d_id x) None d) (domains d)));
  mret (json_response 200 (JObj
    ([("id", JStr (ac_id client)); ("name", JStr (ac_name client)); ("role", JStr (ac_role client));
      ("auth_method", JStr "mtls+token")]
     ++ some_field "user_domain" JStr (if has_user_domain : bool then Some dname else None)))).

(** ** Clients *)

Definition new_client_json (c : NewClient) : Json :=
  JObj [("id", JStr (nc_id c)); ("name", JStr (nc_name c)); ("role", JStr (nc_role c));
        ("token", JStr (nc_token c)); ("cert_pem", JStr (nc_cert_pem c)); ("key_pem", JStr (nc_key_pem c));
        ("expires_at", JStr (nc_expires_at c)); ("user_domain", JStr (nc_user_domain c))].

Definition create_client_endpoint (req : CreateClientRequest) (caller : AuthenticatedClient) : M Response :=
  _ ← or_reply (mret (require_admin caller));
  if trim (cr_name req) =s? "" then mret (invalid "name is required")
  else if negb ((cr_role req =s? "admin") || (cr_role req =s? "user"))
  then mret (invalid "role must be 'admin' or 'user'")
  else
    r ← create_client mek nik (cr_name req) (cr_role req) (cr_ttl_days req);
    match r with
    | Ok new =>
        _ ← log (Some (ac_id caller)) "client.create" (Some (cr_name req)) AuditOk
              (Some ("role=" +:+ cr_role req));
        mret (json_response 201 (new_client_json new))
    | Err (AuthDb SqlUnique) =>
        mret (err 409 "conflict" ("client '" +:+ cr_name req +:+ "' already exists"))
    | Err (AuthInvalid m) => mret (invalid m)
    | Err e => raise 500 (auth_msg e)
    end.

Definition rotate_client_endpoint (name : string) (ttl_days : option Z) (caller : AuthenticatedClient) :
    M Response :=
  _ ← or_reply (mret (require_admin caller));
  r ← rotate_client nik name ttl_days;
  match r with
  | Ok (Some new) =>
      _ ← log (Some (ac_id caller)) "client.rotate" (Some name) AuditOk None;
      mret (json_response 200 (new_client_json new))
  | Ok None => mret (err 404 "not_found" ("no active client named '" +:+ name +:+ "'"))
  | Err e => raise 500 (auth_msg e)
  end.

Definition client_summary (c : Client) : Json :=
  JObj [("id", JStr (c_id c)); ("name", JStr (unwrap_or "?" (dec_str mek (c_name_enc c))));
        ("role", JStr (c_role c)); ("created_at", JStr (fmt_text (c_created c)));
        ("expires_at", opt_json (fun t => JStr (fmt_text t)) (c_expires c));
        ("revoked_at", opt_json (fun t => JStr (fmt_text t)) (c_revoked c))].

Definition list_clients_endpoint (caller : AuthenticatedClient) : M Response :=
  _ ← or_reply (mret (require_admin caller));
  rows ← or_500 (query (fun _ d => order_by (fun c => - c_created c) (clients d)));
  mret (json_response 200 (JObj [("clients", JArr (map client_summary rows));
                                 ("count", JNum (Z.of_nat (length rows)))])).

Definition revoke_row (now : Z) (c : Client) : Client :=
  MkClient (c_id c) (c_name_enc c) (c_name_id c) (c_token_hash c) (c_role c) (c_created c) (Some now)
    (c_expires c) (c_cert_fp c) (c_totp c) (c_totp_enrolled c).

(** The live row of a name *)
Definition live_named (name_id : string) (c : Client) : bool :=
  (c_name_id c =s? name_id) && is_null (c_revoked c).

Definition revoke_client_endpoint (name : string) (caller : AuthenticatedClient) : M Response :=
  _ ← or_reply (mret (require_admin caller));
  if name =s? ac_name caller
  then mret (err 400 "self_revoke" "cannot revoke the calling client")
  else
    let name_id := client_name_id_hex nik name in
    n ← or_500 (sql (fun now d => Ok (affected (live_named name_id) (clients d),
                       upd_clients (update_where (live_named name_id) (revoke_row now)) d)));
    if (n =? 0)%nat then mret (err 404 "not_found" ("no active client named '" +:+ name +:+ "'"))
    else
      _ ← log (Some (ac_id caller)) "client.revoke" (Some name) AuditOk None;
      mret (json_response 200 (JObj [("revoked", JBool true); ("name", JStr name)])).

(** ** ACL rules *)

(** chrono's own error text is left out of the message. *)
Definition parse_rfc3339_opt (s : option string) : result string (option Z) :=
  match s with
  | None => Ok None
  | Some s => Some <$> ok_or ("invalid RFC3339 timestamp '" +:+ s +:+ "'") (parse_rfc3339 s)
  end.

(** The live client of a name, by id. *)
Definition live_client_id (name_id : string) (d : Db) : option string :=
  c_id <$> first_row (live_named name_id) (clients d).

(** [(client_id, group_domain_id)]: whom the rule is for. *)
Definition grant_target (req : GrantAclRequest) : M (option string * option string) :=
  match ga_client_name req with
  | Some name =>
      row ← or_500 (query (fun _ => live_client_id (client_name_id_hex nik name)));
      match row with
      | None => reply (err 404 "not_found" ("no active client named '" +:+ name +:+ "'"))
      | Some id => mret (Some id, None)
      end
  | None =>
      let gname := default "" (ga_group_domain req) in
      found ← or_500 (resolve_domain nik gname);
      match found with
      | None => reply (err 404 "no_such_domain" ("group domain '" +:+ gname +:+ "' does not exist"))
      | Some gid => mret (None, Some gid)
      end
  end.

(** The rule's window, rate and schedule, checked before anything is written. *)
Definition grant_terms (req : GrantAclRequest) (now : Z) : result Response (option Z * option Z) :=
  let expires_at := map_err invalid (parse_rfc3339_opt (ga_expires_at req)) in
  let not_before := map_err invalid (parse_rfc3339_opt (ga_not_before req)) in
  expires_at ← expires_at;
  not_before ← not_before;
  if negb (Bool.eqb (is_null (ga_rate_max req)) (is_null (ga_rate_period req)))
  then Err (invalid "rate_max and rate_period_secs must be set together")
  else
    match ga_schedule req with
    | Some sched =>
        match cron_window_matches sched (civil_of now) with
        | Err msg => Err (invalid ("bad schedule: " +:+ msg))
        | Ok _ => Ok (expires_at, not_before)
        end
    | None => Ok (expires_at, not_before)
    end.

(** [INSERT INTO blackbook_acl] with its primary key. *)
Definition insert_acl (a : Acl) (d : Db) : result SqlError (unit * Db) :=
  if existsb (fun x => a_id x =s? a_id a) (acls d) then Err SqlUnique
  else Ok (tt, upd_acls (insert_row a) d).

Definition grant_summary (req : GrantAclRequest) (domain_name : string) : string :=
  let target := match ga_client_name req, ga_group_domain req with
                | Some c, _ => "client=" +:+ c
                | None, Some g => "group=" +:+ g
                | None, None => ""
                end in
  "domain=" +:+ domain_name +:+ " " +:+ target +:+ " actions=" +:+ comma_join (ga_actions req).

(** [find a domain, or answer 404] *)
Definition domain_or_404 (domain_name : string) : M string :=
  found ← or_500 (resolve_domain nik domain_name);
  match found with
  | Some id => mret id
  | None => reply (err 404 "no_such_domain" ("domain '" +:+ domain_name +:+ "' does not exist"))
  end.

(** A caller who does not administer the domain is refused, on the record. *)
Definition demand_domain_admin (caller : AuthenticatedClient) (domain_id action resource : string) : M unit :=
  r ← require_domain_admin caller domain_id;
  match r with
  | Err resp =>
      _ ← log (Some (ac_id caller)) action (Some resource) AuditDenied (Some "not a domain admin");
      reply resp
  | Ok _ => mret tt
  end.

Definition grant_acl (req : GrantAclRequest) (caller : AuthenticatedClient) : M Response :=
  match parse_actions (ga_actions req) with
  | Err msg => mret (invalid msg)
  | Ok mask =>
      if Bool.eqb (is_null (ga_client_name req)) (is_null (ga_group_domain req))
      then mret (invalid "specify exactly one of client_name or group_domain")
      else
        let domain_name := default "default" (ga_domain req) in
        domain_id ← domain_or_404 domain_name;
        _ ← demand_domain_admin caller domain_id "acl.grant" (ga_pattern req);
        '(client_id, group_domain_id) ← grant_target req;
        now ← utc_now;
        '(expires_at, not_before) ← or_reply (mret (grant_terms req now));
        id ← new_id 12;
        pattern_enc ← str_500 (enc_str mek (ga_pattern req));
        _ ← or_500 (sql (fun now => insert_acl
              (MkAcl id domain_id client_id group_domain_id pattern_enc mask expires_at not_before
                 (ga_max_uses req) 0 now (Some (ac_id caller)) (ga_rate_max req) (ga_rate_period req)
                 0 None (ga_schedule req))));
        _ ← log (Some (ac_id caller)) "acl.grant" (Some (ga_pattern req)) AuditOk
              (Some (grant_summary req domain_name));
        mret (json_response 201 (JObj [("id", JStr id)]))
  end.

(** [SELECT ... JOIN blackbook_domains ... LEFT JOIN ...]: a rule whose domain
    is gone is not listed. *)
Definition acl_item (d : Db) (a : Acl) : list Json :=
  let domain_of id := first_row (fun x => d_id x =s? id) (domains d) in
  match domain_of (a_domain a) with
  | None => []
  | Some dom =>
      let client := c ← a_client a; first_row (fun x => c_id x =s? c) (clients d) in
      let group := g ← a_group a; domain_of g in
      let dec b := ok (dec_str mek b) in
      [JObj ([("id", JStr (a_id a)); ("domain", JStr (default "?" (dec (d_name_enc dom))));
              ("client_name", opt_json JStr (c ← client; dec (c_name_enc c)));
              ("group_domain", opt_json JStr (g ← group; dec (d_name_enc g)));
              ("resource_pattern", JStr (default "?" (dec (a_pattern a))));
              ("actions", JArr (map JStr (actions_from_mask (a_actions a))));
              ("granted_at", JStr (fmt_text (a_granted_at a)));
              ("expires_at", opt_json (fun t => JStr (fmt_text t)) (a_expires a));
              ("not_before", opt_json (fun t => JStr (fmt_text t)) (a_not_before a));
              ("max_uses", opt_json JNum (a_max_uses a)); ("use_count", JNum (a_use_count a))]
             ++ some_field "rate_max" JNum (a_rate_max a)
             ++ some_field "rate_period_secs" JNum (a_rate_period a)
             ++ some_field "schedule" JStr (a_schedule a))]
  end.

Definition list_acl (caller : AuthenticatedClient) : M Response :=
  admin_domains ← (if is_admin caller then mret None
                   else
                     ids ← or_500 (admin_domain_ids caller);
                     if (length ids =? 0)%nat
                     then reply (err 403 "forbidden" "admin role required (global or domain)")
                     else mret (Some ids));
  items ← or_500 (query (fun _ d => concat (map (acl_item d)
            (order_by (fun a => - a_granted_at a)
               (select (fun a => from_option (fun ids => existsb (String.eqb (a_domain a)) ids) true admin_domains)
                  (acls d))))));
  mret (json_response 200 (JObj [("entries", JArr items); ("count", JNum (Z.of_nat (length items)))])).

Definition revoke_acl (id : string) (caller : AuthenticatedClient) : M Response :=
  row ← or_500 (query (fun _ d => first_row (fun a => a_id a =s? id) (acls d)));
  match row with
  | None => mret (err 404 "not_found" "no such acl entry")
  | Some a =>
      _ ← demand_domain_admin caller (a_domain a) "acl.revoke" id;
      n ← or_500 (sql (fun _ d => Ok (affected (fun a => a_id a =s? id) (acls d),
                                      upd_acls (delete_where (fun a => a_id a =s? id)) d)));
      if (n =? 0)%nat then mret (err 404 "not_found" "no such acl entry")
      else
        _ ← log (Some (ac_id caller)) "acl.revoke" (Some id) AuditOk None;
        mret (json_response 200 (JObj [("revoked", JBool true)]))
  end.

(** ** Domains *)

(** [INSERT INTO blackbook_domains]: primary key and unique name. *)
Definition insert_domain (x : Domain) (d : Db) : result SqlError (unit * Db) :=
  if existsb (fun y => (d_id y =s? d_id x) || (d_name_id y =s? d_name_id x)) (domains d) then Err SqlUnique
  else Ok (tt, upd_domains (insert_row x) d).

Definition create_domain (req : CreateDomainRequest) (caller : AuthenticatedClient) : M Response :=
  _ ← or_reply (mret (require_admin caller));
  if trim (cd_name req) =s? "" then mret (invalid "name is required")
  else if starts_with USER_DOMAIN_PREFIX (cd_name req)
  then mret (invalid ("domain names may not start with '" +:+ USER_DOMAIN_PREFIX
                      +:+ "' (reserved for private user domains)"))
  else
    id ← new_id 12;
    name_enc ← str_500 (enc_str mek (cd_name req));
    let name_id := domain_name_id_hex nik (cd_name req) in
    desc_enc ← match cd_description req with
               | Some s => e ← str_500 (enc_str mek s); mret (Some e)
               | None => mret None
               end;
    r ← sql (fun now => insert_domain (MkDomain id name_enc name_id desc_enc now None));
    match r with
    | Ok _ =>
        _ ← log (Some (ac_id caller)) "domain.create" (Some (cd_name req)) AuditOk None;
        mret (json_response 201 (JObj [("id", JStr id); ("name", JStr (cd_name req))]))
    | Err SqlUnique => mret (err 409 "conflict" ("domain '" +:+ cd_name req +:+ "' already exists"))
    | Err e => raise 500 (sql_msg e)
    end.

Definition domain_summary (x : Domain) : Json :=
  JObj [("id", JStr (d_id x)); ("name", JStr (unwrap_or "?" (dec_str mek (d_name_enc x))));
        ("description", opt_json JStr (b ← d_desc_enc x; ok (dec_str mek b)));
        ("created_at", JStr (fmt_text (d_created x)))].

Definition visible_domain (caller : AuthenticatedClient) (d : Db) (x : Domain) : bool :=
  is_null (d_archived x) && (is_admin caller || has_member (ac_id caller) (d_id x) None d).

Definition list_domains (caller : AuthenticatedClient) : M Response :=
  rows ← or_500 (query (fun _ d => merge_sort domain_le (select (visible_domain caller d) (domains d))));
  mret (json_response 200 (JObj [("domains", JArr (map domain_summary rows));
                                 ("count", JNum (Z.of_nat (length rows)))])).

Definition add_domain_member (domain_name : string) (req : AddMemberRequest) (caller : AuthenticatedClient) :
    M Response :=
  if negb ((am_role req =s? "admin") || (am_role req =s? "user") || (am_role req =s? "guest"))
  then mret (invalid "role must be 'admin', 'user', or 'guest'")
  else
    domain_id ← domain_or_404 domain_name;
    _ ← demand_domain_admin caller domain_id "domain.add_member" domain_name;
    found ← or_500 (query (fun _ => live_client_id (client_name_id_hex nik (am_client_name req))));
    match found with
    | None => mret (err 404 "not_found" ("no active client named '" +:+ am_client_name req +:+ "'"))
    | Some client_id =>
        _ ← or_500 (exec (fun now => upsert_member (MkMember domain_id client_id (am_role req) now)));
        _ ← log (Some (ac_id caller)) "domain.add_member" (Some domain_name) AuditOk
              (Some ("client=" +:+ am_client_name req +:+ " role=" +:+ am_role req));
        mret (json_response 200 (JObj [("added", JBool true); ("domain", JStr domain_name);
                                       ("client", JStr (am_client_name req)); ("role", JStr (am_role req))]))
    end.

(** [client_id = (SELECT id FROM blackbook_clients WHERE name_id = $2)] *)
Definition named_membership (d : Db) (domain_id name_id : string) (m : Member) : bool :=
  (m_domain m =s? domain_id)
  && opt_is (c_id <$> first_row (fun c => c_name_id c =s? name_id) (clients d)) (m_client m).

Definition remove_domain_member (domain_name client_name : string) (caller : AuthenticatedClient) : M Response :=
  domain_id ← domain_or_404 domain_name;
  _ ← demand_domain_admin caller domain_id "domain.remove_member" domain_name;
  let client_nid := client_name_id_hex nik client_name in
  n ← or_500 (sql (fun _ d => Ok (affected (named_membership d domain_id client_nid) (members d),
                     upd_members (delete_where (named_membership d domain_id client_nid)) d)));
  if (n =? 0)%nat then mret (err 404 "not_found" "no such membership")
  else
    _ ← log (Some (ac_id caller)) "domain.remove_member" (Some domain_name) AuditOk
          (Some ("client=" +:+ client_name));
    mret (json_response 200 (JObj [("removed", JBool true)])).

Definition member_item (d : Db) (m : Member) : list Json :=
  match first_row (fun c => c_id c =s? m_client m) (clients d) with
  | None => []
  | Some c => [JObj [("client_name", JStr (unwrap_or "?" (dec_str mek (c_name_enc c)))); ("role", JStr (m_role m));
                     ("added_at", JStr (fmt_text (m_added m)))]]
  end.

Definition list_domain_members (domain_name : string) (caller : AuthenticatedClient) : M Response :=
  domain_id ← domain_or_404 domain_name;
  _ ← (if is_admin caller then mret tt
       else
         is_member ← or_500 (domain_member caller domain_id);
         if is_member : bool then mret tt
         else reply (err 403 "forbidden" "not a member of this domain"));
  items ← or_500 (query (fun _ d => concat (map (member_item d)
            (order_by m_added (select (fun m => m_domain m =s? domain_id) (members d))))));
  mret (json_response 200 (JObj [("members", JArr items); ("count", JNum (Z.of_nat (length items)))])).
End admin.
