(* ===== verification/AdminProps.v ===== *)
(** Properties of the administration endpoints ([Admin.v]): no escalation of
    privilege, revocation is final, a rule granted takes effect, and a refused
    call changes nothing. *)
From S2P Require Import Prelude AccessRules Crypto ToyPrimitives Store Effects Concurrency ServerBase ToyPlatform AuditLog Auth AuthProps Admin.

(** ** Calls *)

Inductive AdminCall :=
| CallWhoami
| CallCreateClient (req : CreateClientRequest)
| CallRotateClient (name : string) (ttl_days : option Z)
| CallListClients
| CallRevokeClient (name : string)
| CallGrantAcl (req : GrantAclRequest)
| CallListAcl
| CallRevokeAcl (id : string)
| CallCreateDomain (req : CreateDomainRequest)
| CallListDomains
| CallAddMember (domain_name : string) (req : AddMemberRequest)
| CallRemoveMember (domain_name client_name : string)
| CallListMembers (domain_name : string).

Section calls.
Context {P : Primitives} {PF : Platform} (state : AppState).

Definition admin_call (caller : AuthenticatedClient) (c : AdminCall) : M Response :=
  match c with
  | CallWhoami => whoami state caller
  | CallCreateClient req => create_client_endpoint state req caller
  | CallRotateClient name ttl => rotate_client_endpoint state name ttl caller
  | CallListClients => list_clients_endpoint state caller
  | CallRevokeClient name => revoke_client_endpoint state name caller
  | CallGrantAcl req => grant_acl state req caller
  | CallListAcl => list_acl state caller
  | CallRevokeAcl id => revoke_acl state id caller
  | CallCreateDomain req => create_domain state req caller
  | CallListDomains => list_domains state caller
  | CallAddMember dn req => add_domain_member state dn req caller
  | CallRemoveMember dn cn => remove_domain_member state dn cn caller
  | CallListMembers dn => list_domain_members state dn caller
  end.

Lemma writes_domain_or_404 n : writes [] (domain_or_404 state n).
Proof. unfold domain_or_404. solve_writes. Qed.
Lemma writes_demand c d a r : writes [PAudits] (demand_domain_admin state c d a r).
Proof. unfold demand_domain_admin. solve_writes. Qed.
Lemma writes_grant_target req : writes [] (grant_target state req).
Proof. unfold grant_target. solve_writes. Qed.
End calls.
#[export] Hint Resolve writes_domain_or_404 writes_demand writes_grant_target : writes.

(** ** Rows outside a selection *)

Lemma select_delete_disjoint {A} (p q : A -> bool) l :
  (forall x, x ∈ select p l -> q x = false) -> select p (delete_where q l) = select p l.
Proof.
  unfold select, delete_where. induction l as [|x l IH]; intros H; [done|]. simpl in *.
  destruct (p x) eqn:Px.
  - assert (q x = false) as -> by (apply H; left). simpl. rewrite Px. f_equal. apply IH. intros y Hy. apply H. by right.
  - destruct (q x); simpl; [by apply IH|]. rewrite Px. by apply IH.
Qed.

Lemma select_update_disjoint {A} (p q : A -> bool) u l :
  (forall x, q x = true -> p x = false /\ p (u x) = false) -> select p (update_where q u l) = select p l.
Proof.
  intros H. unfold select, update_where. induction l as [|x l IH]; [done|]. simpl.
  destruct (q x) eqn:Q; [|by rewrite IH]. destruct (H x Q) as [-> ->]. exact IH.
Qed.

Lemma select_insert_outside {A} (p : A -> bool) x l : p x = false -> select p (insert_row x l) = select p l.
Proof. intros H. unfold select, insert_row. rewrite List.filter_app. simpl. by rewrite H, app_nil_r. Qed.

Lemma NoDup_delete_where {A} (f : A -> string) q l : NoDup (f <$> l) -> NoDup (f <$> delete_where q l).
Proof.
  unfold delete_where. induction l as [|x l IH]; [done|]. rewrite fmap_cons. intros [Hx Hl]%NoDup_cons. simpl.
  destruct (q x); simpl; [by apply IH|]. apply NoDup_cons. split; [|by apply IH]. intros Hin. apply Hx.
  apply list_elem_of_fmap in Hin as (y & -> & Hy). apply list_elem_of_fmap_2.
  apply list_elem_of_In, filter_In in Hy as [Hy _]. by apply list_elem_of_In.
Qed.

(** ** No escalation of privilege *)

Section escalation.
Context {P : Primitives} {PF : Platform} (state : AppState) (X : string).

Abbreviation tables := (list Client * list Domain * list Member * list Acl)%type.
Definition admin_tables (d : Db) : tables := (clients d, domains d, members d, acls d).

Definition members_of (ms : list Member) : list Member := select (fun m => m_domain m =s? X) ms.
Definition rules_of (l : list Acl) : list Acl := select (fun a => a_domain a =s? X) l.

(** The tables as they were, as far as [X], clients and domains go. *)
Definition untouched (d0 : Db) (t : tables) : Prop :=
  let '(c, dm, ms, l) := t in
  c = clients d0 /\ dm = domains d0 /\ members_of ms = members_of (members d0) /\
  rules_of l = rules_of (acls d0) /\ NoDup (a_id <$> l).

(** None of the four tables is written. *)
Definition admin_free (ps : list part) : bool :=
  forallb (fun p => negb (bool_decide (p ∈ ps))) [PClients; PDomains; PMembers; PAcls].

Lemma admin_frame ps w w' :
  admin_free ps = true ->
  frame ps w w' -> admin_tables (db w') = admin_tables (db w).
Proof.
  unfold admin_free, admin_tables. simpl. intros Hf H. bool_to_prop.
  rewrite <- bool_decide_eq_false in *. 
  by rewrite (H PClients ltac:(done) : clients _ = _), (H PDomains ltac:(done) : domains _ = _),
    (H PMembers ltac:(done) : members _ = _), (H PAcls ltac:(done) : acls _ = _).
Qed.

(** Caller [c] does not administer [X] in tables like [d0]. *)
Lemma not_admin_of d0 c d :
  untouched d0 (admin_tables d) -> has_member (ac_id c) X (Some "admin") d0 = false ->
  has_member (ac_id c) X (Some "admin") d = false.
Proof.
  intros (_ & _ & Hm & _ & _). unfold has_member, first_row.
  assert (Hs : forall ms, select (is_member (ac_id c) X (Some "admin")) ms =
                          select (is_member (ac_id c) X (Some "admin")) (members_of ms)).
  { intros ms. induction ms as [|m ms IH]; [done|]. unfold members_of, select in *. simpl.
    destruct (String.eqb_spec (m_domain m) X) as [E|E]; simpl.
    - by rewrite IH.
    - assert (is_member (ac_id c) X (Some "admin") m = false) as ->; [|exact IH].
      unfold is_member. apply andb_false_iff. left. apply andb_false_iff. right. by apply String.eqb_neq. }
  simpl in Hm. by rewrite (Hs (members d)), Hm, <- Hs.
Qed.

Section crew.
Context (d0 : Db) (caller : AuthenticatedClient).
Hypothesis not_global : is_admin caller = false.
Hypothesis not_local : has_member (ac_id caller) X (Some "admin") d0 = false.

Abbreviation Inv := (table_inv admin_tables (untouched d0)).
Abbreviation quiet := (safe Inv (fun _ => True)).

Lemma quiet_writes ps {A} (m : M A) :
  admin_free ps = true -> writes ps m -> quiet m.
Proof.
  intros Hfree Hm. apply safe_steps; [|done]. eapply Steps_impl, Hm. intros w w' Hf.
  unfold table_inv. by rewrite (admin_frame ps w w' Hfree Hf).
Qed.

Lemma quiet_log c a r st m : quiet (audit (audit_hmac_key state) (metadata_enc_key state) c a r st m).
Proof. by apply (quiet_writes [PAudits]), writes_audit. Qed.

Lemma quiet_query {A : Set} (f : Z -> Db -> A) : quiet (or_500 (query f)).
Proof. by apply (quiet_writes []), writes_or_500, writes_query. Qed.

Lemma quiet_sql {A : Set} (f : Z -> Db -> result SqlError (A * Db)) :
  (forall now d a d', untouched d0 (admin_tables d) -> f now d = Ok (a, d') -> untouched d0 (admin_tables d')) ->
  quiet (or_500 (sql f)).
Proof.
  intros H. apply safe_seq; [|by intros []]. apply kept_sql; [done|]. intros now d Hd.
  destruct (f now d) as [[a d']|e] eqn:E; [|done]. split; [by eapply H|done].
Qed.

Lemma quiet_refuse dom action r resp {B} (f : unit -> M B) :
  safe Inv (then_safe Inv (fun _ => True) f)
    (_ ← audit (audit_hmac_key state) (metadata_enc_key state) (Some (ac_id caller)) action (Some r) AuditDenied
           (Some dom); reply resp).
Proof. apply safe_bind. eapply safe_mono, quiet_log. by intros []. Qed.

(** Getting past the check proves that the domain is another one. *)
Lemma quiet_demand dom action r {B} (f : unit -> M B) :
  (dom <> X -> quiet (f tt)) -> quiet (demand_domain_admin state caller dom action r ≫= f).
Proof.
  intros Hf. unfold demand_domain_admin. do 2 apply safe_bind.
  unfold require_domain_admin, domain_admin. rewrite not_global. apply safe_bind, kept_sql; [|intros now d Hd].
  { apply quiet_refuse. }
  split; [done|]. cbn [then_safe].
  destruct (has_member (ac_id caller) dom (Some "admin") d) eqn:E; [|apply quiet_refuse].
  apply Hf. intros ->. rewrite (not_admin_of d0 caller d Hd not_local) in E. done.
Qed.

Lemma quiet_domain n : quiet (domain_or_404 state n).
Proof. by apply (quiet_writes []), writes_domain_or_404. Qed.

Lemma untouched_acls d l :
  untouched d0 (admin_tables d) -> rules_of l = rules_of (acls d) -> NoDup (a_id <$> l) ->
  untouched d0 (clients d, domains d, members d, l).
Proof. intros (H1 & H2 & H3 & H4 & _) Hr Hn. repeat split; try done. congruence. Qed.

Lemma untouched_members d ms :
  untouched d0 (admin_tables d) -> members_of ms = members_of (members d) ->
  untouched d0 (clients d, domains d, ms, acls d).
Proof. intros (H1 & H2 & H3 & H4 & H5) Hr. repeat split; try done. congruence. Qed.

Lemma insert_acl_untouched a d d' u :
  a_domain a <> X -> untouched d0 (admin_tables d) -> insert_acl a d = Ok (u, d') -> untouched d0 (admin_tables d').
Proof.
  intros Ha Hd. unfold insert_acl. destruct (existsb _ (acls d)) eqn:E; [done|]. intros [= _ <-].
  apply (untouched_acls d); [done| |].
  - apply select_insert_outside. by apply String.eqb_neq.
  - pose proof Hd as (_ & _ & _ & _ & Hn). simpl. unfold insert_row. rewrite fmap_app.
    apply NoDup_app. split; [done|]. split; [|apply NoDup_singleton]. intros i Hi Hin%list_elem_of_singleton. subst i.
    apply list_elem_of_fmap in Hi as (y & Hy & Hiny). pose proof (existsb_false_elem _ _ E y Hiny) as Hf. simpl in Hf.
    by rewrite Hy, String.eqb_refl in Hf.
Qed.

Lemma upsert_untouched m d :
  m_domain m <> X -> untouched d0 (admin_tables d) -> untouched d0 (admin_tables (upsert_member m d)).
Proof.
  intros Hm Hd. unfold upsert_member. destruct (existsb _ (members d)).
  - apply (untouched_members d); [done|]. apply select_update_disjoint. intros x Hx. bool_to_prop. simpl.
    split; apply String.eqb_neq; congruence.
  - apply (untouched_members d); [done|]. apply select_insert_outside. by apply String.eqb_neq.
Qed.

Lemma quiet_grant_acl req : quiet (grant_acl state req caller).
Proof.
  unfold grant_acl. destruct (parse_actions _) as [mask|]; [|done].
  destruct (Bool.eqb _ _); [done|]. apply safe_seq; [apply quiet_domain|]. intros dom.
  apply quiet_demand. intros Hdom. apply safe_seq; [by apply (quiet_writes []), writes_grant_target|]. intros [c g].
  apply safe_seq; [by apply (quiet_writes []), writes_utc_now|]. intros now.
  apply safe_seq; [destruct (grant_terms req now); done|]. intros [e n].
  apply safe_seq; [by apply (quiet_writes []), writes_new_id|]. intros id.
  apply safe_seq; [by apply (quiet_writes []), writes_str_500, writes_enc_str|]. intros enc.
  apply safe_seq; [|intros _; apply safe_seq; [apply quiet_log|done]].
  apply quiet_sql. intros t d u d' Hd. by apply insert_acl_untouched.
Qed.

(** The rule looked up is the only one of its id. *)
Lemma quiet_revoke_acl id : quiet (revoke_acl state id caller).
Proof.
  unfold revoke_acl. apply (kept_query_500 _ _ _ _ _); [done|]. intros now d Hd.
  destruct (first_row (fun a => a_id a =s? id) (acls d)) as [a|] eqn:E; [|done].
  apply first_row_Some in E as [Hin Hid]. apply String.eqb_eq in Hid. apply quiet_demand. intros Hdom.
  assert (Hother : forall r, r ∈ rules_of (acls d0) -> a_id r <> id).
  { intros r Hr Hrid. destruct Hd as (_ & _ & _ & Hrules & Hn). rewrite <- Hrules in Hr.
    apply elem_of_select in Hr as [Hr Hrx]. apply String.eqb_eq in Hrx.
    assert (r = a) as -> by (by eapply (NoDup_fmap_inj a_id); [..|congruence]). done. }
  apply safe_seq; [|intros n; destruct (n =? 0)%nat; [done|]; apply safe_seq; [apply quiet_log|done]].
  apply quiet_sql. intros t e n e' He [= _ <-]. apply (untouched_acls e); [done| |].
  - apply select_delete_disjoint. intros r Hr. apply String.eqb_neq. apply Hother.
    destruct He as (_ & _ & _ & Hrules & _). by rewrite <- Hrules.
  - destruct He as (_ & _ & _ & _ & Hn). by apply NoDup_delete_where.
Qed.

Lemma quiet_add_member n req : quiet (add_domain_member state n req caller).
Proof.
  unfold add_domain_member. destruct (negb _); [done|]. apply safe_seq; [apply quiet_domain|]. intros dom.
  apply quiet_demand. intros Hdom. apply safe_seq; [apply quiet_query|]. intros [id|]; [|done].
  apply safe_seq; [|intros _; apply safe_seq; [apply quiet_log|done]].
  apply quiet_sql. intros t d u d' Hd [= _ <-]. by apply upsert_untouched.
Qed.

Lemma quiet_remove_member n c : quiet (remove_domain_member state n c caller).
Proof.
  unfold remove_domain_member. apply safe_seq; [apply quiet_domain|]. intros dom.
  apply quiet_demand. intros Hdom.
  apply safe_seq; [|intros k; destruct (k =? 0)%nat; [done|]; apply safe_seq; [apply quiet_log|done]].
  apply quiet_sql. intros t d k d' Hd [= _ <-]. apply (untouched_members d); [done|].
  apply select_delete_disjoint. intros m Hm. apply elem_of_select in Hm as [_ Hm]. apply String.eqb_eq in Hm.
  unfold named_membership. apply andb_false_iff. left. apply String.eqb_neq. congruence.
Qed.

Lemma quiet_admin_call c : quiet (admin_call state caller c).
Proof.
  destruct c; cbn [admin_call];
    try (unfold create_client_endpoint, rotate_client_endpoint, list_clients_endpoint, revoke_client_endpoint,
           create_domain, require_admin; rewrite not_global; exact I).
  - apply (quiet_writes []); try done. unfold whoami. solve_writes.
  - apply quiet_grant_acl.
  - apply (quiet_writes []); try done. unfold list_acl. rewrite not_global. solve_writes.
  - apply quiet_revoke_acl.
  - apply (quiet_writes []); try done. unfold list_domains. solve_writes.
  - apply quiet_add_member.
  - apply quiet_remove_member.
  - apply (quiet_writes []); try done. unfold list_domain_members. solve_writes.
Qed.
End crew.
End escalation.

(** ** Revocation is final *)

Section revocation.
Context {P : Primitives} {PF : Platform} (state : AppState) (id : string).

(** The row of [id] exists and is revoked; ids are unique. *)
Definition revoked_row (cs : list Client) : Prop :=
  NoDup (c_id <$> cs) /\ id ∈ c_id <$> cs /\ Forall (fun c => c_id c = id -> c_revoked c <> None) cs.

Abbreviation Inv := (table_inv clients revoked_row).
Abbreviation stays := (safe Inv (fun _ => True)).

Lemma revoked_writes ps {A} (m : M A) : bool_decide (PClients ∈ ps) = false -> writes ps m -> stays m.
Proof.
  intros H1 Hm. apply safe_steps; [|done]. eapply Steps_impl, Hm. intros w w' Hf.
  unfold table_inv. by rewrite (Hf PClients H1 : clients _ = _).
Qed.

Lemma revoked_sql {A : Set} (f : Z -> Db -> result SqlError (A * Db)) :
  (forall now d a d', revoked_row (clients d) -> f now d = Ok (a, d') -> revoked_row (clients d')) -> stays (sql f).
Proof.
  intros H. apply kept_sql; [done|]. intros now d Hd. destruct (f now d) as [[a d']|e] eqn:E; [|done].
  split; [by eapply H|done].
Qed.

Lemma stays_lift {A} (m : M (result SqlError A)) : stays m -> stays (lift_db m).
Proof. intros H. apply safe_seq; [done|]. done. Qed.

Lemma stays_try {E A B} (m : M (result E A)) (f : A -> M (result E B)) :
  stays m -> (forall a, stays (f a)) -> stays (try_bind m f).
Proof. intros Hm Hf. apply safe_seq; [done|]. by intros []. Qed.

Lemma update_where_ids p u cs : (forall c, c_id (u c) = c_id c) -> c_id <$> update_where p u cs = c_id <$> cs.
Proof.
  intros Hid. unfold update_where. induction cs as [|c cs IH]; [done|].
  simpl. f_equal; [by destruct (p c)|exact IH].
Qed.

(** Rewriting rows without lifting a revocation. *)
Lemma revoked_update p u cs :
  (forall c, c_id (u c) = c_id c) -> (forall c, c_revoked c <> None -> c_revoked (u c) <> None) ->
  revoked_row cs -> revoked_row (update_where p u cs).
Proof.
  intros Hid Hrev (Hn & Hin & Hr).
  pose proof (update_where_ids p u cs Hid) as Hids.
  unfold revoked_row. rewrite Hids. split; [done|]. split; [done|].
  apply Forall_forall. intros c (c0 & Hc0 & ->)%elem_of_update_where. rewrite Forall_forall in Hr.
  destruct (p c0); [|by apply Hr]. rewrite Hid. intros H. by apply Hrev, Hr.
Qed.

Lemma revoked_insert_client c d u d' :
  revoked_row (clients d) -> insert_client c d = Ok (u, d') -> revoked_row (clients d').
Proof.
  intros (Hn & Hin & Hr). unfold insert_client. destruct (existsb _ (clients d)) eqn:E; [done|].
  destruct (_ || _); [|done]. intros [= _ <-]. simpl. unfold insert_row.
  assert (Hfresh : c_id c ∉ c_id <$> clients d).
  { intros (y & Hy & Hiny)%list_elem_of_fmap. pose proof (existsb_false_elem _ _ E y Hiny) as Hf. simpl in Hf.
    by rewrite <- Hy, String.eqb_refl in Hf. }
  unfold revoked_row. rewrite fmap_app. split; [|split].
  - apply NoDup_app. split; [done|]. split; [|apply NoDup_singleton]. by intros i Hi ->%list_elem_of_singleton.
  - apply elem_of_app. by left.
  - apply Forall_app. split; [done|]. apply Forall_singleton. intros <-. done.
Qed.

Lemma revoked_rotate i th e fp d u d' :
  revoked_row (clients d) -> rotate_credentials i th e fp d = Ok (u, d') -> revoked_row (clients d').
Proof.
  intros Hr. unfold rotate_credentials. destruct (existsb _ _); [done|]. intros [= _ <-].
  by apply revoked_update.
Qed.

Lemma stays_ensure c n : stays (ensure_user_domain (metadata_enc_key state) (name_index_key state) c n).
Proof.
  apply (revoked_writes [PDomains; PMembers]); [done|]. unfold ensure_user_domain, seal_name.
  solve_writes; try apply writes_new_id; apply writes_lift_db; solve_writes;
    unfold insert_domain_if_absent, upsert_member; by case_match.
Qed.

Lemma stays_create name role ttl :
  stays (create_client (metadata_enc_key state) (name_index_key state) name role ttl).
Proof.
  unfold create_client. destruct (starts_with _ _); [done|].
  apply safe_seq; [apply (revoked_writes []); [done|]; unfold generate_token; solve_writes|]. intros token.
  apply safe_seq; [apply (revoked_writes []), writes_new_id; done|]. intros i.
  apply safe_seq; [apply (revoked_writes []), writes_utc_now; done|]. intros now.
  apply safe_seq; [apply (revoked_writes []), writes_expiry_in_days; done|]. intros expires.
  apply stays_try; [apply (revoked_writes []); [done|]; unfold issue_client_cert; solve_writes|]. intros cert.
  apply stays_try; [apply (revoked_writes []); [done|]; unfold seal_name; solve_writes|]. intros enc.
  apply stays_try; [apply stays_lift, revoked_sql; intros ? d ? ? Hd; by apply revoked_insert_client|]. intros _.
  apply stays_try; [apply (revoked_writes []); [done|]; apply writes_lift_db, writes_query|]. intros dom.
  apply safe_seq.
  { destruct dom; [|done]. apply (revoked_writes [PMembers]); [done|].
    solve_writes; unfold insert_member_if_absent; by case_match. }
  intros _. apply stays_try; [apply stays_ensure|]. done.
Qed.

Lemma stays_rotate name ttl : stays (rotate_client (name_index_key state) name ttl).
Proof.
  unfold rotate_client. apply stays_try; [apply (revoked_writes []); [done|]; apply writes_lift_db, writes_query|].
  intros [c|]; [|done].
  apply safe_seq; [apply (revoked_writes []); [done|]; unfold generate_token; solve_writes|]. intros token.
  apply safe_seq; [apply (revoked_writes []), writes_utc_now; done|]. intros now.
  apply safe_seq; [apply (revoked_writes []), writes_expiry_in_days; done|]. intros expires.
  apply stays_try; [apply (revoked_writes []); [done|]; unfold issue_client_cert; solve_writes|]. intros cert.
  apply stays_try; [apply stays_lift, revoked_sql; intros ? d ? ? Hd; by apply revoked_rotate|]. done.
Qed.

Lemma stays_log c a r st m : stays (audit (audit_hmac_key state) (metadata_enc_key state) c a r st m).
Proof. by apply (revoked_writes [PAudits]), writes_audit. Qed.

Lemma stays_revoke name caller : stays (revoke_client_endpoint state name caller).
Proof.
  unfold revoke_client_endpoint. apply safe_seq; [by destruct (require_admin caller)|]. intros _.
  destruct (name =s? ac_name caller); [done|].
  apply safe_seq; [|intros n; destruct (n =? 0)%nat; [done|]; apply safe_seq; [apply stays_log|done]].
  apply safe_seq; [|by intros []]. apply revoked_sql. intros now d n d' Hd [= _ <-]. by apply revoked_update.
Qed.

Lemma stays_admin_call caller c : stays (admin_call state caller c).
Proof.
  destruct c; cbn [admin_call]; [|unfold create_client_endpoint|unfold rotate_client_endpoint| |apply stays_revoke|..].
  2: { apply safe_seq; [by destruct (require_admin caller)|]. intros _. destruct (trim _ =s? ""); [done|].
       destruct (negb _); [done|]. apply safe_seq; [apply stays_create|].
       intros [new|[[] | | | |]]; try done. apply safe_seq; [apply stays_log|done]. }
  2: { apply safe_seq; [by destruct (require_admin caller)|]. intros _. apply safe_seq; [apply stays_rotate|].
       intros [[new|]|e]; try done. apply safe_seq; [apply stays_log|done]. }
  all: apply (revoked_writes [PDomains; PMembers; PAcls; PAudits]); [done|].
  - unfold whoami. solve_writes.
  - unfold list_clients_endpoint. solve_writes.
  - unfold grant_acl, insert_acl. solve_writes; apply writes_new_id.
  - unfold list_acl. solve_writes.
  - unfold revoke_acl. solve_writes.
  - unfold create_domain, insert_domain. solve_writes; apply writes_new_id.
  - unfold list_domains. solve_writes.
  - unfold add_domain_member. solve_writes; unfold upsert_member; by case_match.
  - unfold remove_domain_member. solve_writes.
  - unfold list_domain_members. solve_writes.
Qed.
End revocation.

(** ** Granting a rule *)

Section granting.
Context {P : Primitives} {PF : Platform} (state : AppState).

Abbreviation nik := (name_index_key state).
Abbreviation mek := (metadata_enc_key state).

Lemma domain_or_404_inv n w dom w1 :
  run (domain_or_404 state n) w = (Val dom, w1) ->
  live_domain_id (domain_name_id_hex nik n) (db w) = Some dom /\ db w1 = db w.
Proof.
  intros H. split; [|by apply (reads_only _ _ _ _ (writes_domain_or_404 state n) H)].
  unfold domain_or_404, resolve_domain in H. run_inv.
  destruct (live_domain_id _ (db w)) as [i|]; [|done]. run_inv. done.
Qed.

Lemma demand_inv c dom action r w u w1 :
  run (demand_domain_admin state c dom action r) w = (Val u, w1) ->
  (is_admin c = true \/ is_domain_admin (db w) c dom) /\ db w1 = db w.
Proof.
  unfold demand_domain_admin. intros (x & w2 & H & Hx)%run_bind_Val.
  assert (x = Ok tt /\ w1 = w2) as [-> ->].
  { destruct x as [[]|resp]; [by simplify_eq/=|].
    apply run_bind_Val in Hx as (? & ? & _ & Hx). discriminate Hx. }
  split; [|by apply (reads_only _ _ _ _ (writes_require_domain_admin c dom) H)].
  unfold require_domain_admin, domain_admin in H. apply run_bind_Val in H as (y & w3 & Hy & H). simplify_eq/=.
  destruct (is_admin c); [by left|right]. destruct y as [[]|e]; [|done..].
  apply run_query_Ok in Hy as [Hy _]. by apply has_member_spec.
Qed.

(** Whom a request's rule is for, in the tables [d]. *)
Definition addressed (d : Db) (req : GrantAclRequest) (client : AuthenticatedClient) : Prop :=
  match ga_client_name req with
  | Some name => live_client_id (client_name_id_hex nik name) d = Some (ac_id client)
  | None => exists gid, live_domain_id (domain_name_id_hex nik (default "" (ga_group_domain req))) d = Some gid /\
                        has_member (ac_id client) gid None d = true
  end.

Lemma grant_target_inv req w c g w1 :
  run (grant_target state req) w = (Val (c, g), w1) ->
  db w1 = db w /\
  forall client, (c = Some (ac_id client) \/
                  exists m, m ∈ members (db w) /\ m_client m = ac_id client /\ g = Some (m_domain m)) <->
                 addressed (db w) req client.
Proof.
  intros H. split; [by apply (reads_only _ _ _ _ (writes_grant_target state req) H)|]. intros client.
  unfold grant_target, resolve_domain in H. unfold addressed. destruct (ga_client_name req) as [name|].
  - run_inv. destruct (live_client_id _ (db w)) as [i|]; [|done]. run_inv. split; [|intros ->; by left].
    intros [[= ->]|(m & _ & _ & [=])]. done.
  - run_inv. destruct (live_domain_id _ (db w)) as [i|]; [|done]. run_inv. split.
    + intros [[=]|(m & Hm & Hc & [= ->])]. eexists. split; [done|].
      unfold has_member. apply negb_true_iff. destruct (first_row _ _) eqn:E; [done|].
      pose proof (first_row_None _ _ _ E Hm) as Hf. unfold is_member in Hf. by rewrite Hc, !String.eqb_refl in Hf.
    + intros (gid & [= <-] & Hm). right. unfold has_member in Hm. apply negb_true_iff in Hm.
      destruct (first_row _ _) as [m|] eqn:E; [|done]. apply first_row_Some in E as [Hin Hm']. unfold is_member in Hm'.
      bool_to_prop. exists m. split; [done|]. split; [done|]. congruence.
Qed.

(** The mask of an action list holds the bits of its names. *)
Definition names_action (action : AclAction) (s : string) : Prop := to_ascii_lowercase s = action_name action.

Lemma parse_action_bit s bit action :
  parse_action s = Ok bit -> (Z.land bit (action_bit action) <> 0 <-> names_action action s).
Proof.
  unfold parse_action, names_action.
  destruct (String.eqb_spec (to_ascii_lowercase s) "create") as [->|H1]; [intros [= <-]; destruct action; vm_compute; split; done|].
  destruct (String.eqb_spec (to_ascii_lowercase s) "read") as [->|H2]; [intros [= <-]; destruct action; vm_compute; split; done|].
  destruct (String.eqb_spec (to_ascii_lowercase s) "update") as [->|H3]; [intros [= <-]; destruct action; vm_compute; split; done|].
  destruct (String.eqb_spec (to_ascii_lowercase s) "delete") as [->|H4]; [intros [= <-]; destruct action; vm_compute; split; done|done].
Qed.

Lemma parse_actions_mask l mask0 mask action :
  parse_actions_from mask0 l = Ok mask ->
  (Z.land mask (action_bit action) <> 0 <->
   Z.land mask0 (action_bit action) <> 0 \/ exists s, s ∈ l /\ names_action action s).
Proof.
  revert mask0. induction l as [|s l IH]; intros mask0; simpl.
  - destruct (mask0 =? 0); [done|]. intros [= <-]. split; [by left|]. intros [|(s & Hs%not_elem_of_nil & _)]; done.
  - intros (bit & Hb & H)%result_bind_Ok. rewrite (IH _ H), Z.land_lor_distr_l, Z.lor_eq_0_iff.
    pose proof (parse_action_bit s bit action Hb) as Hbit.
    split.
    + intros [Hn|(t & Ht & Hta)]; [|right; exists t; by split; [right|]].
      destruct (decide (Z.land mask0 (action_bit action) = 0)) as [E|E]; [|by left].
      right. exists s. split; [left|]. apply Hbit. tauto.
    + intros [Hn|(t & Ht & Hta)]; [left; tauto|]. apply elem_of_cons in Ht as [->|Ht]; [|right; by exists t].
      left. apply Hbit in Hta. tauto.
Qed.

(** The rule a request describes, whatever happened to it since it was written. *)
Lemma fresh_rule_grants {L : PrimitiveLaws P} req nonce enc dom c g mask e n id now0 by_ d d' client name action now :
  is_str (ga_pattern req) -> length nonce = 12%nat -> enc_field_with nonce mek (as_bytes (ga_pattern req)) = Ok enc ->
  parse_actions (ga_actions req) = Ok mask -> members d' = members d ->
  (forall client, (c = Some (ac_id client) \/
                   exists m, m ∈ members d /\ m_client m = ac_id client /\ g = Some (m_domain m)) <->
                  addressed d req client) ->
  let a := MkAcl id dom c g enc mask e n (ga_max_uses req) 0 now0 by_ (ga_rate_max req) (ga_rate_period req)
             0 None (ga_schedule req) in
  a ∈ acls d' ->
  (rule_grants mek d' now client dom name action a <->
   addressed d req client /\ (exists s, s ∈ ga_actions req /\ names_action action s) /\
   (forall t, e = Some t -> now < t) /\ (forall t, n = Some t -> t <= now) /\
   (forall m, ga_max_uses req = Some m -> 0 < m) /\ sql_like_match (ga_pattern req) name = true /\
   (forall s, ga_schedule req = Some s -> cron_window_matches s (civil_of now) = Ok true)).
Proof.
  intros Hs Hn Henc Hm Hmem Hadd a Hin. unfold rule_grants. subst a. simpl. rewrite Hmem, Hadd.
  rewrite (parse_actions_mask _ 0 mask action Hm), Z.land_0_l.
  assert (Hpat : (exists b pattern, aead_open enc mek = Ok b /\ from_utf8 b = Some pattern /\
                    sql_like_match pattern name = true) <-> sql_like_match (ga_pattern req) name = true).
  { pose proof (dec_enc_str nonce mek _ enc Hs Hn Henc) as Hd. unfold dec_str, dec_field in Hd.
    destruct (aead_open enc mek) as [b|]; [|done]. simpl in Hd.
    destruct (from_utf8 b) as [t|] eqn:Eu; [|done]. simpl in Hd. injection Hd as ->.
    split; [|intros H; by eexists _, _]. intros (b' & t' & [= <-] & Hu & Ht). rewrite Eu in Hu. by injection Hu as <-. }
  rewrite Hpat. assert (Hrate : rate_ok (ga_rate_max req) (ga_rate_period req) 0 None now = true).
  { unfold rate_ok. destruct (ga_rate_max req), (ga_rate_period req); [by destruct (_ || _)|done..]. }
  split; [intros (_ & _ & ? & [?|?] & ? & ? & ? & ? & ? & _); done|].
  intros (? & ? & ? & ? & ? & ? & ?). do 3 (split; [done|]). split; [by right|]. done.
Qed.

Lemma grant_terms_inv req now e n :
  grant_terms req now = Ok (e, n) ->
  parse_rfc3339_opt (ga_expires_at req) = Ok e /\ parse_rfc3339_opt (ga_not_before req) = Ok n.
Proof.
  unfold grant_terms. destruct (parse_rfc3339_opt (ga_expires_at req)) as [e'|]; simpl; [|done].
  destruct (parse_rfc3339_opt (ga_not_before req)) as [n'|]; simpl; [|done].
  destruct (negb _); [done|]. destruct (ga_schedule req) as [s|]; [destruct (cron_window_matches _ _); [|done]|];
    by intros [= <- <-].
Qed.
End granting.

(** ** Refusals *)

Section refusing.
Context {P : Primitives} {PF : Platform} (state : AppState).

Definition client_error (r : Response) : Prop := 400 <= resp_status r < 500.

(** A run that ends badly left the tables alone. *)
Definition spotless {A} (Bad : outcome A -> Prop) (m : M A) : Prop :=
  forall w o w', run m w = (o, w') -> Bad o -> admin_tables (db w') = admin_tables (db w).

Lemma spotless_writes ps {A} (Bad : outcome A -> Prop) m : admin_free ps = true -> writes ps m -> spotless Bad m.
Proof.
  intros Hfree Hm w o w' H _. pose proof (writes_run ps m w Hm) as Hfr. rewrite H in Hfr.
  by apply (admin_frame ps) in Hfr.
Qed.

Lemma spotless_bind ps {A B} (Bad : outcome B -> Prop) (m : M A) (f : A -> M B) :
  admin_free ps = true -> writes ps m -> (forall a, spotless Bad (f a)) -> spotless Bad (m ≫= f).
Proof.
  intros Hfree Hm Hf w o w' H Ho. rewrite run_bind in H. pose proof (writes_run ps m w Hm) as Hfr.
  apply (admin_frame ps) in Hfr; [|done].
  destruct (run m w) as [[a|r|s e] w1]; cbn [snd] in Hfr; [|by injection H as <- <-..].
  rewrite <- Hfr. by apply (Hf a w1 o w').
Qed.

(** The step that writes: what follows a write cannot end badly. *)
Lemma spotless_last {A B} (BadA : outcome A -> Prop) (Bad : outcome B -> Prop) (m : M A) (f : A -> M B) :
  spotless BadA m -> (forall r, Bad (Ret r) -> BadA (Ret r)) -> (forall s e, Bad (Raise s e) -> BadA (Raise s e)) ->
  (forall a, Leaves (fun o => ~ Bad o) (f a) \/ BadA (Val a) /\ spotless Bad (f a)) ->
  spotless Bad (m ≫= f).
Proof.
  intros Hm H1 H2 Hf w o w' H Ho. rewrite run_bind in H. destruct (run m w) as [[a|r|s e] w1] eqn:E.
  - destruct (Hf a) as [HL|[Hb Hs]].
    + pose proof (Leaves_run _ _ w1 HL) as Hn. by rewrite H in Hn.
    + rewrite (Hs w1 o w' H Ho). exact (Hm w _ w1 E Hb).
  - simplify_eq. exact (Hm w _ _ E (H1 _ Ho)).
  - simplify_eq. exact (Hm w _ _ E (H2 _ _ Ho)).
Qed.

(** A statement that fails, or succeeds without effect. *)
Lemma spotless_sql {A : Set} (Bad : outcome (result SqlError A) -> Prop) (f : Z -> Db -> result SqlError (A * Db)) :
  (forall now d a d', f now d = Ok (a, d') -> Bad (Val (Ok a)) -> admin_tables d' = admin_tables d) ->
  spotless Bad (sql f).
Proof.
  intros Hf w o w' H Ho. destruct (run_sql_cases f w) as (l & _ & [[_ Hr]|Hr]); rewrite Hr in H; [by simplify_eq|].
  destruct (f (clock w) (db w)) as [[a d]|e] eqn:E; [|by simplify_eq]. injection H as <- <-. by apply (Hf _ _ _ _ E).
Qed.

Definition harmless (m : M Response) : Prop := spotless (fun o => client_error (respond o)) m.

Lemma leaves_free {A} (Q : outcome A -> Prop) (m : M A) : (forall o, Q o) -> Leaves Q m.
Proof. apply Leaves_True. Qed.

(** Logging a success and answering it. *)
Lemma harmless_done c a r st m resp :
  ~ client_error resp ->
  Leaves (fun o => ~ client_error (respond o))
    (_ ← audit (audit_hmac_key state) (metadata_enc_key state) c a r st m; mret resp).
Proof.
  intros H. apply Leaves_bind. eapply Leaves_mono, (returns_audit _ _ _ _ _ _ _). intros o [u ->]. exact H.
Qed.

(** A statement, then a look at what it returned. *)
Lemma harmless_write {A : Set} (f : Z -> Db -> result SqlError (A * Db)) (g : A -> M Response) :
  (forall a, Leaves (fun o => ~ client_error (respond o)) (g a) \/
             ((forall now d d', f now d = Ok (a, d') -> admin_tables d' = admin_tables d) /\ harmless (g a))) ->
  harmless (or_500 (sql f) ≫= g).
Proof.
  intros Hg w o w' H Ho. rewrite run_bind in H. unfold or_500 in H. rewrite run_bind in H.
  destruct (run_sql_cases f w) as (l & _ & [[_ Hr]|Hr]); rewrite Hr in H; clear Hr.
  - injection H as <- <-. unfold client_error in Ho. simpl in Ho. lia.
  - destruct (f (clock w) (db w)) as [[a d]|e] eqn:E.
    2: { injection H as <- <-. unfold client_error in Ho. simpl in Ho. lia. }
    change (run (g a) (set_db d (set_faults l w)) = (o, w')) in H.
    destruct (Hg a) as [HL|[Hsame Hh]].
    + pose proof (Leaves_run _ _ (set_db d (set_faults l w)) HL) as Hn. by rewrite H in Hn.
    + rewrite (Hh _ _ _ H Ho). simpl. by apply (Hsame _ _ _ E).
Qed.

Lemma harmless_ret r : harmless (mret r).
Proof. by apply (spotless_writes []). Qed.

Lemma harmless_or_reply {A} (r : result Response A) (f : A -> M Response) :
  (forall a, harmless (f a)) -> harmless (or_reply (mret r) ≫= f).
Proof. intros H. destruct r as [a|resp]; [exact (H a)|]. by apply (spotless_writes []). Qed.

Lemma affected_none {A} (p : A -> bool) u l : affected p l = 0%nat -> update_where p u l = l /\ delete_where p l = l.
Proof.
  unfold affected. intros H. apply nil_length_inv in H. assert (Hp : forall x, x ∈ l -> p x = false).
  { intros x Hx. destruct (p x) eqn:E; [|done]. assert (x ∈ select p l) as Hs by (by apply elem_of_select).
    rewrite H in Hs. by apply not_elem_of_nil in Hs. }
  split; [|by apply delete_where_none]. apply update_where_none. unfold first_row. by rewrite H.
Qed.

(** ** Provisioning *)

(** The errors of [AuthOpError] an endpoint turns into a 4xx. *)
Definition refused {A} (o : outcome (result AuthOpError A)) : Prop :=
  match o with Val (Err (AuthDb SqlUnique)) | Val (Err (AuthInvalid _)) => True | Ret r => client_error r
  | Raise s e => client_error (respond (Raise s e)) | _ => False end.

Abbreviation sound m := (Leaves (fun o => ~ refused o) m).

Lemma sound_try {A B} (m : M (result AuthOpError A)) (f : A -> M (result AuthOpError B)) :
  sound m -> (forall a, sound (f a)) -> sound (try_bind m f).
Proof.
  intros Hm Hf. apply Leaves_bind. eapply Leaves_mono, Hm. intros [[a|e]|r|s e] H; [apply Hf|exact H|exact H|exact H].
Qed.

Lemma sound_ok {A} (a : A) : sound (mret (Ok a)).
Proof. simpl. tauto. Qed.

Lemma sound_lift_sql {A : Set} (f : Z -> Db -> result SqlError (A * Db)) :
  (forall now d, f now d <> Err SqlUnique) -> sound (lift_db (sql f)).
Proof.
  intros Hf. apply Leaves_bind. intros w. unfold statement. destruct (next_fault w) as [[] w1]; [simpl; tauto|].
  specialize (Hf (clock w1) (db w1)). destruct (f (clock w1) (db w1)) as [[]|[]]; simpl; tauto || congruence.
Qed.

Lemma leaves_then {A B} (Q : outcome B -> Prop) (m : M A) (f : A -> M B) :
  returns m -> (forall a, Leaves Q (f a)) -> Leaves Q (m ≫= f).
Proof. intros Hm Hf. apply Leaves_bind. eapply Leaves_mono, Hm. intros o [a ->]. apply Hf. Qed.

Lemma returns_new_id n : returns (new_id n).
Proof. apply returns_bind; [apply returns_perform|intros; apply returns_ret]. Qed.

Lemma sound_seal_name mek n : sound (seal_name mek n).
Proof. unfold seal_name. apply leaves_then; [apply returns_perform|]. intros nonce.
  change (~ refused (Val (map_err AuthCrypto (aead_seal nonce (as_bytes n) mek)))). destruct (aead_seal _ _ _); simpl; tauto.
Qed.

Lemma sound_ensure mek nik c n : sound (ensure_user_domain mek nik c n).
Proof.
  unfold ensure_user_domain. apply sound_try; [by apply sound_lift_sql|]. intros existing.
  apply sound_try; [|intros dom; apply sound_try; [by apply sound_lift_sql|]; intros; apply sound_ok].
  destruct existing as [id|]; [apply sound_ok|]. apply leaves_then; [apply returns_new_id|]. intros id.
  apply sound_try; [apply sound_seal_name|]. intros ne. apply sound_try; [apply sound_seal_name|]. intros de.
  apply sound_try; [by apply sound_lift_sql|]. intros _. apply sound_lift_sql. intros now d. by destruct (first_row _ _).
Qed.

Lemma spotless_try ps {A B} (m : M (result AuthOpError A)) (f : A -> M (result AuthOpError B)) :
  admin_free ps = true -> writes ps m -> (forall a, spotless refused (f a)) -> spotless refused (try_bind m f).
Proof. intros H1 H2 Hf. apply (spotless_bind ps); [done..|]. intros [a|e]; [apply Hf|by apply (spotless_writes [])]. Qed.

(** The insertion that may be refused, and what follows it. *)
Lemma spotless_insert {A : Set} {B} (f : Z -> Db -> result SqlError (A * Db)) (g : A -> M (result AuthOpError B)) :
  (forall a, sound (g a)) -> spotless refused (try_bind (lift_db (sql f)) g).
Proof.
  intros Hg. unfold try_bind.
  apply (spotless_last (fun o => match o with Val (Ok _) => False | _ => True end)); [|done..|].
  - unfold lift_db.
    apply (spotless_last (fun o => match o with Val (Ok _) => False | _ => True end)); [|done..|].
    + by apply spotless_sql.
    + intros [a|e]; [left|right]; simpl; [tauto|]. split; [done|by apply (spotless_writes [])].
  - intros [a|e]; [left; apply Hg|right]. split; [done|by apply (spotless_writes [])].
Qed.

Lemma spotless_create mek nik name role ttl : spotless refused (create_client mek nik name role ttl).
Proof.
  unfold create_client. destruct (starts_with _ _); [by apply (spotless_writes [])|].
  apply (spotless_bind []); [done|unfold generate_token; solve_writes|]. intros token.
  apply (spotless_bind []); [done|apply writes_new_id|]. intros id.
  apply (spotless_bind []); [done|apply writes_utc_now|]. intros now.
  apply (spotless_bind []); [done|apply writes_expiry_in_days|]. intros expires.
  apply (spotless_try []); [done|unfold issue_client_cert; solve_writes|]. intros cert.
  apply (spotless_try []); [done|unfold seal_name; solve_writes|]. intros enc.
  apply spotless_insert. intros _. apply sound_try; [by apply sound_lift_sql|]. intros dom.
  apply leaves_then.
  { destruct dom; [|apply returns_ret]. apply returns_ignore, returns_perform. }
  intros _. apply sound_try; [apply sound_ensure|]. intros; apply sound_ok.
Qed.

Lemma spotless_rotate nik name ttl : spotless refused (rotate_client nik name ttl).
Proof.
  unfold rotate_client. apply (spotless_try []); [done|apply writes_lift_db, writes_query|].
  intros [c|]; [|by apply (spotless_writes [])].
  apply (spotless_bind []); [done|unfold generate_token; solve_writes|]. intros token.
  apply (spotless_bind []); [done|apply writes_utc_now|]. intros now.
  apply (spotless_bind []); [done|apply writes_expiry_in_days|]. intros expires.
  apply (spotless_try []); [done|unfold issue_client_cert; solve_writes|]. intros cert.
  apply spotless_insert. intros; apply sound_ok.
Qed.

Ltac quiet_end := apply (spotless_writes []); [done|solve_writes].
Ltac not_client_error := unfold client_error; simpl; lia.

Lemma harmless_create_client req caller : harmless (create_client_endpoint state req caller).
Proof.
  unfold create_client_endpoint. apply harmless_or_reply. intros _.
  destruct (trim _ =s? ""); [quiet_end|]. destruct (negb _); [quiet_end|].
  apply (spotless_last refused); [apply spotless_create|done|done|].
  intros [new|e]; [left; apply harmless_done; not_client_error|].
  destruct e as [[]|m|e|m|m]; try (left; not_client_error); right; (split; [done|quiet_end]).
Qed.

Lemma leaves_try {E A B} (Q : outcome (result E B) -> Prop) (m : M (result E A)) (f : A -> M (result E B)) :
  (forall e, Q (Val (Err e))) -> returns m -> (forall a, Leaves Q (f a)) -> Leaves Q (try_bind m f).
Proof. intros HQ Hm Hf. apply Leaves_bind. eapply Leaves_mono, Hm. by intros o [[a|e] ->]; [apply Hf|apply HQ]. Qed.

Lemma returns_lift_sql {A : Set} (f : Z -> Db -> result SqlError (A * Db)) : returns (lift_db (sql f)).
Proof. apply returns_bind; [apply returns_perform|intros; apply returns_ret]. Qed.

(** A rotation that finds no live row has written nothing. *)
Definition no_rotation (o : outcome (result AuthOpError (option NewClient))) : Prop :=
  match o with
  | Val (Ok (Some _)) | Val (Err _) => False
  | Raise s e => client_error (respond (Raise s e))
  | _ => True
  end.

Lemma rotate_none nik name ttl : spotless no_rotation (rotate_client nik name ttl).
Proof.
  unfold rotate_client. apply (spotless_bind []); [done|apply writes_lift_db, writes_query|].
  intros [[c|]|e]; [|by apply (spotless_writes [])..].
  intros w o w' H Ho. exfalso. revert Ho.
  match type of H with run ?m w = _ =>
    assert (HL : Leaves (fun o => ~ no_rotation o) m); [|pose proof (Leaves_run _ m w HL) as HR; by rewrite H in HR]
  end.
  apply leaves_then; [apply returns_bind; [apply returns_perform|intros; apply returns_ret]|]. intros token.
  apply leaves_then; [apply returns_perform|]. intros now.
  unfold expiry_in_days. destruct (add_seconds _ _); [|intros Hc; unfold no_rotation, client_error in Hc; simpl in Hc; lia].
  apply leaves_try; [simpl; tauto|apply returns_bind; [apply returns_perform|intros; apply returns_ret]|]. intros cert.
  apply leaves_try; [simpl; tauto|apply returns_lift_sql|]. intros u. simpl. tauto.
Qed.

Lemma harmless_rotate_client name ttl caller : harmless (rotate_client_endpoint state name ttl caller).
Proof.
  unfold rotate_client_endpoint. apply harmless_or_reply. intros _.
  apply (spotless_last no_rotation); [apply rotate_none|done|done|].
  intros [[new|]|e]; [left; apply harmless_done; not_client_error|right; split; [done|quiet_end]|left; not_client_error].
Qed.

Lemma harmless_revoke_client name caller : harmless (revoke_client_endpoint state name caller).
Proof.
  unfold revoke_client_endpoint. apply harmless_or_reply. intros _. destruct (name =s? ac_name caller); [quiet_end|].
  apply harmless_write. intros n. destruct (Nat.eqb_spec n 0) as [->|]; [right|left; apply harmless_done; not_client_error].
  split; [|quiet_end]. intros now d d' [= H <-]. unfold admin_tables. simpl. by rewrite (proj1 (affected_none _ _ _ H)).
Qed.

Lemma harmless_grant_acl req caller : harmless (grant_acl state req caller).
Proof.
  unfold grant_acl. destruct (parse_actions _); [|quiet_end]. destruct (Bool.eqb _ _); [quiet_end|].
  apply (spotless_bind []); [done|apply writes_domain_or_404|]. intros dom.
  apply (spotless_bind [PAudits]); [done|apply writes_demand|]. intros _.
  apply (spotless_bind []); [done|apply writes_grant_target|]. intros [c g].
  apply (spotless_bind []); [done|apply writes_utc_now|]. intros now.
  apply harmless_or_reply. intros [e n].
  apply (spotless_bind []); [done|apply writes_new_id|]. intros id.
  apply (spotless_bind []); [done|apply writes_str_500, writes_enc_str|]. intros enc.
  apply harmless_write. intros u. left. apply harmless_done. not_client_error.
Qed.

Lemma harmless_revoke_acl id caller : harmless (revoke_acl state id caller).
Proof.
  unfold revoke_acl. apply (spotless_bind []); [done|apply writes_or_500, writes_query|]. intros [a|]; [|quiet_end].
  apply (spotless_bind [PAudits]); [done|apply writes_demand|]. intros _.
  apply harmless_write. intros n. destruct (Nat.eqb_spec n 0) as [->|]; [right|left; apply harmless_done; not_client_error].
  split; [|quiet_end]. intros now d d' [= H <-]. unfold admin_tables. simpl. by rewrite (proj2 (affected_none _ (fun x => x) _ H)).
Qed.

Lemma harmless_create_domain req caller : harmless (create_domain state req caller).
Proof.
  unfold create_domain. apply harmless_or_reply. intros _.
  destruct (trim _ =s? ""); [quiet_end|]. destruct (starts_with _ _); [quiet_end|].
  apply (spotless_bind []); [done|apply writes_new_id|]. intros id.
  apply (spotless_bind []); [done|apply writes_str_500, writes_enc_str|]. intros enc.
  apply (spotless_bind []); [done|destruct (cd_description req); solve_writes|]. intros desc.
  apply (spotless_last (fun o => match o with Val (Ok _) => False | _ => True end)); [by apply spotless_sql|done|done|].
  intros [u|e]; [left; apply harmless_done; not_client_error|].
  right. split; [done|]. destruct e; quiet_end.
Qed.

Lemma harmless_add_member n req caller : harmless (add_domain_member state n req caller).
Proof.
  unfold add_domain_member. destruct (negb _); [quiet_end|].
  apply (spotless_bind []); [done|apply writes_domain_or_404|]. intros dom.
  apply (spotless_bind [PAudits]); [done|apply writes_demand|]. intros _.
  apply (spotless_bind []); [done|apply writes_or_500, writes_query|]. intros [c|]; [|quiet_end].
  apply harmless_write. intros u. left. apply harmless_done. not_client_error.
Qed.

Lemma harmless_remove_member n c caller : harmless (remove_domain_member state n c caller).
Proof.
  unfold remove_domain_member.
  apply (spotless_bind []); [done|apply writes_domain_or_404|]. intros dom.
  apply (spotless_bind [PAudits]); [done|apply writes_demand|]. intros _.
  apply harmless_write. intros k. destruct (Nat.eqb_spec k 0) as [->|]; [right|left; apply harmless_done; not_client_error].
  split; [|quiet_end]. intros now d d' [= H <-]. unfold admin_tables. simpl. by rewrite (proj2 (affected_none _ (fun x => x) _ H)).
Qed.

Lemma harmless_admin_call caller c : harmless (admin_call state caller c).
Proof.
  destruct c; cbn [admin_call]; auto using harmless_create_client, harmless_rotate_client, harmless_revoke_client,
    harmless_grant_acl, harmless_revoke_acl, harmless_create_domain, harmless_add_member, harmless_remove_member.
  - unfold whoami. quiet_end.
  - unfold list_clients_endpoint. quiet_end.
  - unfold list_acl. quiet_end.
  - unfold list_domains. quiet_end.
  - unfold list_domain_members. quiet_end.
Qed.
End refusing.

(** * Properties *)

(** C6. Callers who are not global administrators and do not administer domain
    [X] cannot, however their administration calls interleave and whatever
    fails, change a rule or a membership of [X], nor any client or domain: in
    particular none of them comes to administer [X]. *)
Theorem no_privilege_escalation {P : Primitives} {PF : Platform} state X calls w w' ps' :
  Forall (fun c => is_admin c.1 = false /\ ~ is_domain_admin (db w) c.1 X) calls ->
  NoDup (a_id <$> acls (db w)) ->
  pool_steps (w, (fun c => admin_call state c.1 c.2) <$> calls) (w', ps') ->
  clients (db w') = clients (db w) /\ domains (db w') = domains (db w) /\
  members_of X (members (db w')) = members_of X (members (db w)) /\
  rules_of X (acls (db w')) = rules_of X (acls (db w)).
Proof.
  intros Hc Hn Hs.
  assert (Hsafe : Forall (safe (table_inv admin_tables (untouched X (db w))) (fun _ => True))
                    ((fun c => admin_call state c.1 c.2) <$> calls)).
  { apply Forall_fmap. eapply Forall_impl; [exact Hc|]. intros c [Hg Hl]. apply quiet_admin_call; [done|].
    apply not_true_iff_false. by rewrite has_member_spec. }
  destruct (pool_safe (table_inv admin_tables (untouched X (db w))) (fun _ _ H => H) (fun _ _ H => H) (fun _ => True)
              w _ w' ps' ltac:(by split_and!) Hsafe Hs) as [H _].
  by destruct H as (H1 & H2 & H3 & H4 & _).
Qed.

(** A successful revocation of a name revokes its row. *)
Lemma revoke_revokes {P : Primitives} {PF : Platform} state name caller id w w1 r :
  NoDup (c_id <$> clients (db w)) ->
  live_client_id (client_name_id_hex (name_index_key state) name) (db w) = Some id ->
  run (revoke_client_endpoint state name caller) w = (Val r, w1) -> resp_status r = 200 ->
  revoked_row id (clients (db w1)).
Proof.
  intros Hn Hlive Hrun H200. unfold revoke_client_endpoint in Hrun.
  apply run_bind_Val in Hrun as (u & w2 & Hr & Hrun). destruct (require_admin caller); [|discriminate Hr].
  injection Hr as _ <-. destruct (name =s? ac_name caller); [injection Hrun as <- _; discriminate H200|]. apply run_bind_Val in Hrun as (n & w3 & Hsql & Hrun).
  apply run_or_500_inv, run_sql_Ok in Hsql as (d & l & [= Hk <-] & ->).
  destruct (n =? 0)%nat; [injection Hrun as <- _; discriminate H200|].
  assert (Hcl : clients (db w1) = update_where (live_named (client_name_id_hex (name_index_key state) name))
                                    (revoke_row (clock w)) (clients (db w))).
  { match type of Hrun with run ?m ?v = _ =>
      assert (Hm : writes [PAudits] m) by solve_writes; pose proof (writes_same _ PClients m v Hm eq_refl) as Hs
    end. by rewrite Hrun in Hs. }
  rewrite Hcl. unfold live_client_id in Hlive.
  destruct (first_row _ (clients (db w))) as [c|] eqn:E; [|done]. simpl in Hlive. injection Hlive as <-.
  apply first_row_Some in E as [Hin Hp].
  assert (Hids : c_id <$> update_where (live_named (client_name_id_hex (name_index_key state) name))
                   (revoke_row (clock w)) (clients (db w)) = c_id <$> clients (db w)) by (by apply update_where_ids).
  unfold revoked_row. rewrite Hids. split; [done|]. split; [by apply list_elem_of_fmap_2|].
  apply Forall_forall. intros c1 (c0 & Hc0 & ->)%elem_of_update_where Heq.
  destruct (live_named _ c0) eqn:E0; [done|]. exfalso.
  assert (c0 = c) as -> by (by eapply (NoDup_fmap_inj c_id)). congruence.
Qed.

(** C7. Once a client is revoked it never authenticates again: not after any
    interleaving of further administration calls, a rotation of its
    credentials or a new client of its name included. *)
Theorem revoked_stays_out {P : Primitives} {PF : Platform} state name caller id w w1 r calls w2 ps auth peer a w3 :
  NoDup (c_id <$> clients (db w)) ->
  live_client_id (client_name_id_hex (name_index_key state) name) (db w) = Some id ->
  run (revoke_client_endpoint state name caller) w = (Val r, w1) -> resp_status r = 200 ->
  pool_steps (w1, (fun c => admin_call state c.1 c.2) <$> calls) (w2, ps) ->
  run (from_request state auth peer) w2 = (Val a, w3) -> ac_id a <> id.
Proof.
  intros Hn Hlive Hrun H200 Hs Hreq <-.
  assert (Hrow : revoked_row (ac_id a) (clients (db w1))) by (by eapply revoke_revokes).
  eapply (pool_safe (table_inv clients (revoked_row (ac_id a)))) in Hs as [(Hn2 & _ & Hrev) _];
    [|done|done|exact Hrow|apply Forall_fmap, Forall_true; intros c; apply stays_admin_call].
  apply from_request_sound in Hreq as (p & t & c & _ & _ & (Hin & _ & _ & _ & Hnull & _) & (n & _ & ->)); [|done].
  rewrite Forall_forall in Hrev. by apply (Hrev c Hin).
Qed.

(** C23. A rule that [grant_acl] answers with 201 was asked for by an
    administrator of its domain and is the only row added; from then on it lets
    a client act exactly as the request says: the client is the one named or a
    member of the group named, the action is listed, the time lies in the
    window and the schedule, the use limit is not zero and the pattern matches;
    and the uses and the rate it allows are those asked for, none of them spent. *)
Theorem granted_rule_applies {P : Primitives} {L : PrimitiveLaws P} {PF : Platform} state req caller w id w' :
  is_str (ga_pattern req) ->
  run (grant_acl state req caller) w = (Val (json_response 201 (JObj [("id", JStr id)])), w') ->
  exists dom a e n,
    live_domain_id (domain_name_id_hex (name_index_key state) (default "default" (ga_domain req))) (db w) = Some dom /\
    (is_admin caller = true \/ is_domain_admin (db w) caller dom) /\
    acls (db w') = acls (db w) ++ [a] /\ a_id a = id /\
    (a_max_uses a = ga_max_uses req /\ a_use_count a = 0) /\
    (a_rate_max a = ga_rate_max req /\ a_rate_period a = ga_rate_period req /\ a_rate_count a = 0 /\ a_rate_window a = None) /\
    parse_rfc3339_opt (ga_expires_at req) = Ok e /\ parse_rfc3339_opt (ga_not_before req) = Ok n /\
    forall client name action now,
      rule_grants (metadata_enc_key state) (db w') now client dom name action a <->
      addressed state (db w) req client /\ (exists s, s ∈ ga_actions req /\ names_action action s) /\
      (forall t, e = Some t -> now < t) /\ (forall t, n = Some t -> t <= now) /\
      (forall m, ga_max_uses req = Some m -> 0 < m) /\ sql_like_match (ga_pattern req) name = true /\
      (forall s, ga_schedule req = Some s -> cron_window_matches s (civil_of now) = Ok true).
Proof.
  intros Hstr H. unfold grant_acl in H. destruct (parse_actions (ga_actions req)) as [mask|] eqn:Hm; [|done].
  destruct (Bool.eqb _ _); [done|].
  apply run_bind_Val in H as (dom & w1 & Hd & H). apply domain_or_404_inv in Hd as [Hdom E1].
  apply run_bind_Val in H as (u & w2 & Hr & H). apply demand_inv in Hr as [Hauth E2]. rewrite E1 in Hauth, E2.
  apply run_bind_Val in H as ([c g] & w3 & Ht & H). apply grant_target_inv in Ht as [E3 Hadd]. rewrite E2 in Hadd, E3.
  apply run_bind_Val in H as (now & w4 & Hnow & H). rewrite run_utc_now in Hnow. injection Hnow as <- <-.
  apply run_bind_Val in H as ([e n] & w5 & Hterms & H).
  destruct (grant_terms req (clock w3)) as [[e' n']|] eqn:Hg; [|done]. injection Hterms as <- <- <-.
  apply grant_terms_inv in Hg as [He Hn].
  apply run_bind_Val in H as (i & w6 & Hid & H).
  pose proof (reads_only _ _ _ _ (writes_new_id [] 12) Hid) as (E6 & _ & _).
  apply run_bind_Val in H as (enc & w7 & Henc & H).
  pose proof (reads_only _ _ _ _ (writes_str_500 [] _ (writes_enc_str [] _ _)) Henc) as (E7 & _ & _).
  apply run_bind_Val in H as (v & w8 & Hins & H). apply run_or_500_inv, run_sql_Ok in Hins as (d & l & Hins & ->).
  unfold insert_acl in Hins. destruct (existsb _ _); [done|]. injection Hins as <- <-.
  assert (Henc' : exists nonce, length nonce = 12%nat /\
                    enc_field_with nonce (metadata_enc_key state) (as_bytes (ga_pattern req)) = Ok enc).
  { exists (rand_bytes (rng w6) 12). split; [apply rand_length|]. unfold str_500, enc_str, enc_field in Henc.
    rewrite run_bind in Henc. simpl in Henc. unfold enc_field_with in *.
    destruct (map_err _ _) as [b|]; simpl in Henc; congruence. }
  destruct Henc' as (nonce & Hln & Hef).
  match type of H with run ?m ?v = _ =>
    assert (Hw : writes [PAudits] m) by solve_writes;
    pose proof (writes_same _ PAcls m v Hw eq_refl) as Ha; pose proof (writes_same _ PMembers m v Hw eq_refl) as Hmem
  end.
  rewrite H in Ha, Hmem. simpl in Ha, Hmem. unfold insert_row in Ha. rewrite E7, E6, E3 in Ha, Hmem.
  apply run_bind_Val in H as (z & w9 & _ & H). injection H as Hi _. subst i.
  eexists dom, _, _, _. split; [done|]. split; [done|]. split; [exact Ha|]. split; [done|].
  do 2 (split; [done|]). split; [exact He|]. split; [exact Hn|].
  intros client name action t. eapply fresh_rule_grants; [exact L|exact Hstr|exact Hln|exact Hef|exact Hm|exact Hmem|exact Hadd|].
  rewrite Ha. apply elem_of_app. right. left.
Qed.

(** C24. An administration call answered with a client error (400 to 499) left
    clients, domains, memberships and rules as they were. *)
Theorem refused_admin_call_changes_nothing {P : Primitives} {PF : Platform} state caller c w o w' :
  run (admin_call state caller c) w = (o, w') -> 400 <= resp_status (respond o) < 500 ->
  clients (db w') = clients (db w) /\ domains (db w') = domains (db w) /\
  members (db w') = members (db w) /\ acls (db w') = acls (db w).
Proof.
  intros H Ho. pose proof (harmless_admin_call state caller c w o w' H Ho) as Ht. unfold admin_tables in Ht.
  by injection Ht.
Qed.

(** ** Witnesses *)

Definition toy_grant : GrantAclRequest :=
  MkGrantAcl (Some "bob") None None "db/*" ["read"; "update"] None None (Some 3) None None None.

(** Ordinary members trying to help each other to the administration of [default]. *)
Definition toy_attempts : list (AuthenticatedClient * AdminCall) :=
  [(alice, CallAddMember "default" (MkAddMember "alice" "admin"));
   (bob, CallAddMember "default" (MkAddMember "alice" "admin"));
   (alice, CallGrantAcl toy_grant); (bob, CallRevokeAcl "acl-1"); (alice, CallCreateClient (MkCreateClient "eve" "admin" None))].

Definition toy_attempted : World * list (M Response) :=
  interleave (concat (replicate 12 [0; 1; 2; 3; 4]%nat))
    (toy_world, (fun c => admin_call toy_state c.1 c.2) <$> toy_attempts).

Lemma no_privilege_escalation_witness :
  clients (db toy_attempted.1) = clients toy_db /\ domains (db toy_attempted.1) = domains toy_db /\
  members_of "d-default" (members (db toy_attempted.1)) = members_of "d-default" (members toy_db) /\
  rules_of "d-default" (acls (db toy_attempted.1)) = rules_of "d-default" (acls toy_db).
Proof.
  apply (no_privilege_escalation toy_state "d-default" toy_attempts toy_world toy_attempted.1 toy_attempted.2).
  - repeat constructor; intros H%has_member_spec; vm_compute in H; discriminate H.
  - apply (bool_decide_unpack _). vm_compute. exact I.
  - rewrite <- surjective_pairing. apply interleave_steps.
Defined.

Definition toy_revoked : World := (run (revoke_client_endpoint toy_state "alice" administrator) toy_world).2.
Definition toy_afterwards : list (AuthenticatedClient * AdminCall) :=
  [(administrator, CallRotateClient "alice" None); (administrator, CallCreateClient (MkCreateClient "alice" "user" None))].
Definition toy_later : World * list (M Response) :=
  interleave (concat (replicate 20 [0; 1]%nat)) (toy_revoked, (fun c => admin_call toy_state c.1 c.2) <$> toy_afterwards).

Lemma revoked_stays_out_witness : ac_id bob <> "c-alice".
Proof.
  apply (revoked_stays_out toy_state "alice" administrator "c-alice" toy_world toy_revoked
           (json_response 200 (JObj [("revoked", JBool true); ("name", JStr "alice")])) toy_afterwards
           toy_later.1 toy_later.2 (Some "Bearer tok-b") (Some (MkPeer "bob" "fp-b")) bob toy_later.1).
  - apply toy_clients_wf.
  - vm_compute. reflexivity.
  - vm_compute. reflexivity.
  - reflexivity.
  - rewrite <- surjective_pairing. apply interleave_steps.
  - vm_compute. reflexivity.
Defined.

Definition toy_granted : World := (run (grant_acl toy_state toy_grant administrator) toy_world).2.
Definition toy_acl_id : string := Eval vm_compute in
  match (run (grant_acl toy_state toy_grant administrator) toy_world).1 with
  | Val (MkResponse _ _ (JsonBody (JObj [(_, JStr id)]))) => id | _ => "" end.

Lemma granted_rule_applies_witness :
  exists dom a, acls (db toy_granted) = acls toy_db ++ [a] /\ a_max_uses a = Some 3 /\
    rule_grants (metadata_enc_key toy_state) (db toy_granted) 5 bob dom "db/password" Read a.
Proof.
  destruct (granted_rule_applies toy_state toy_grant administrator toy_world toy_acl_id toy_granted)
    as (dom & a & e & n & Hdom & _ & Ha & _ & [Hmax _] & _ & He & Hn & Hiff).
  - vm_compute. reflexivity.
  - vm_compute. reflexivity.
  - exists dom, a. split; [exact Ha|]. split; [exact Hmax|]. apply Hiff. injection He as <-. injection Hn as <-.
    split; [vm_compute; reflexivity|]. split; [exists "read"; split; [left|reflexivity]|].
    split; [discriminate|]. split; [discriminate|]. split; [intros m [= <-]; lia|].
    split; [vm_compute; reflexivity|discriminate].
Defined.

Lemma refused_admin_call_changes_nothing_witness :
  clients (db (run (admin_call toy_state alice (CallRevokeClient "bob")) toy_world).2) = clients toy_db.
Proof.
  apply (refused_admin_call_changes_nothing toy_state alice (CallRevokeClient "bob") toy_world
           (run (admin_call toy_state alice (CallRevokeClient "bob")) toy_world).1
           (run (admin_call toy_state alice (CallRevokeClient "bob")) toy_world).2).
  - apply surjective_pairing.
  - vm_compute. split; [discriminate|reflexivity].
Defined.
