(* ===== verification/Threshold.v ===== *)
(** The K-of-N approval workflow of [src/src/server.rs]: access requests,
    approvals, advance grants and the gate a protected read passes. *)
From S2P Require Import Prelude AccessRules Crypto Store Effects ServerBase AuditLog Auth.

Definition REQUEST_TTL_HOURS : Z := 24.
Definition hours (n : Z) : Z := n * 3600 * micros.

(** [xs.len() as i32] *)
Definition len_i32 {A} (l : list A) : Z := wrap_i32 (Z.of_nat (length l)).

Record AccessRequestSummary := MkSummary {
  ars_id : string; ars_requester : string; ars_kind : string; ars_domain : string;
  ars_resource_name : string; ars_threshold_k : Z; ars_signatories : list string;
  ars_approvers : list string; ars_created_at : string; ars_expires_at : string;
  ars_consumed_at : option string; ars_status : string;
}.

Definition strings_json (l : list string) : Json := JArr (map JStr l).

Definition summary_json (s : AccessRequestSummary) : Json :=
  JObj [("id", JStr (ars_id s)); ("requester", JStr (ars_requester s)); ("resource_kind", JStr (ars_kind s));
        ("domain", JStr (ars_domain s)); ("resource_name", JStr (ars_resource_name s));
        ("threshold_k", JNum (ars_threshold_k s)); ("signatories", strings_json (ars_signatories s));
        ("approvers", strings_json (ars_approvers s)); ("created_at", JStr (ars_created_at s));
        ("expires_at", JStr (ars_expires_at s)); ("consumed_at", opt_json JStr (ars_consumed_at s));
        ("status", JStr (ars_status s))].

Section threshold.
Context {P : Primitives} {PF : Platform} (state : AppState).

Abbreviation mek := (metadata_enc_key state).
Abbreviation log := (audit (audit_hmac_key state) (metadata_enc_key state)).

(** ** Requests *)

Definition client_name_enc (id : string) (d : Db) : option bytes :=
  option_map c_name_enc (first_row (fun c => c_id c =s? id) (clients d)).

Definition ids_to_names (ids : list string) : M (list string) :=
  map_each (fun id =>
    row ← query (fun _ => client_name_enc id);
    mret (match row with
          | Ok (Some b) => unwrap_or id (dec_str mek b)
          | _ => id
          end)) ids.

Definition open_request (requester_id kind domain_id name_id : string) (now : Z) (r : Request) : bool :=
  (r_requester r =s? requester_id) && (r_kind r =s? kind) && opt_is (r_domain r) domain_id
  && (r_name_id r =s? name_id) && is_null (r_consumed r) && (now <? r_expires r).

(** The latest open request of the dedup tuple. *)
Definition find_open_request (requester_id kind domain_id name_id : string) (now : Z) (d : Db) : option Request :=
  head (order_by (fun r => - r_created r)
          (select (open_request requester_id kind domain_id name_id now) (requests d))).

Definition active_client (id : string) (d : Db) : bool :=
  existsb (fun c => (c_id c =s? id) && is_null (c_revoked c)) (clients d).

(** The loop that drops revoked signatories, one lookup each. *)
Fixpoint active_ids (ids : list string) : M (result SqlError (list string)) :=
  match ids with
  | [] => mret (Ok [])
  | id :: rest =>
      alive ←? query (fun _ => active_client id);
      others ←? active_ids rest;
      mret (Ok (if alive : bool then id :: others else others))
  end.

Definition insert_request (r : Request) (d : Db) : result SqlError (unit * Db) :=
  if existsb (fun x => r_id x =s? r_id r) (requests d) then Err SqlUnique
  else if negb ((r_kind r =s? "secret") || (r_kind r =s? "file")) then Err SqlCheck
  else Ok (tt, upd_requests (insert_row r) d).

(** Inside the advisory lock: the open request to reuse, or the new one. *)
Definition find_or_create_request (requester : AuthenticatedClient)
    (kind domain_id resource_name : string) (policy : AccessPolicy) : M (result SqlError (Request + string * Z)) :=
  let resource_name_id := name_id_hex (name_index_key state) domain_id resource_name in
  existing ←? query (find_open_request (ac_id requester) kind domain_id resource_name_id);
  match existing with
  | Some r => mret (Ok (inl r))
  | None =>
      ids ←? active_ids (signatories policy);
      id ← new_id 12;
      now ← utc_now;
      let expires := now + hours REQUEST_TTL_HOURS in
      nonce ← draw 12;
      resource_name_enc ←? mret (map_err (fun _ => SqlConfig "metadata encrypt: aead_seal failed")
                                   (aead_seal nonce (as_bytes resource_name) mek));
      _ ←? sql (fun now => insert_request
             (MkRequest id (ac_id requester) kind (Some domain_id) resource_name_enc resource_name_id
                (threshold_k policy) ids [] now expires None));
      mret (Ok (inr (id, expires)))
  end.

Definition create_access_request (requester : AuthenticatedClient)
    (kind domain_id resource_name : string) (policy : AccessPolicy) : M (result SqlError AccessRequestSummary) :=
  found ←? transaction (find_or_create_request requester kind domain_id resource_name policy);
  match found with
  | inl r =>
      approver_names ← ids_to_names (r_approvers r);
      let status := if r_threshold r <=? len_i32 (r_approvers r) then "ready" else "pending" in
      mret (Ok (MkSummary (r_id r) (ac_name requester) kind domain_id resource_name (r_threshold r)
                  (signatories policy) approver_names (fmt_rfc3339 (r_created r)) (fmt_rfc3339 (r_expires r))
                  None status))
  | inr (id, expires) =>
      now ← utc_now;
      mret (Ok (MkSummary id (ac_name requester) kind domain_id resource_name (threshold_k policy)
                  (signatories policy) [] (fmt_rfc3339 now) (fmt_rfc3339 expires) None "pending"))
  end.

(** ** Advance grants *)

Definition usable_grant (grantee_id kind domain_id : string) (now : Z) (g : Grant) : bool :=
  (g_grantee g =s? grantee_id) && (g_domain g =s? domain_id) && (g_kind g =s? kind)
  && is_null (g_revoked g) && from_option (fun b => b <=? now) true (g_not_before g)
  && (now <? g_expires g) && from_option (fun m => g_use_count g <? m) true (g_max_uses g).

Definition grant_matches (resource_name : string) (g : Grant) : bool :=
  match aead_open (g_pattern g) mek with
  | Ok b => sql_like_match (default "" (from_utf8 b)) resource_name
  | Err _ => false
  end.

(** The loop: one grant per signatory of the policy, oldest first. *)
Fixpoint pick_grants (resource_name : string) (sigset seen : gset string) (rows : list Grant) :
    list (string * string) :=
  match rows with
  | [] => []
  | g :: rest =>
      if negb (bool_decide (g_signatory g ∈ sigset)) || bool_decide (g_signatory g ∈ seen)
      then pick_grants resource_name sigset seen rest
      else if grant_matches resource_name g
      then (g_signatory g, g_id g) :: pick_grants resource_name sigset ({[g_signatory g]} ∪ seen) rest
      else pick_grants resource_name sigset seen rest
  end.

Definition advance_approvers (grantee_id kind domain_id resource_name : string) (policy_sigs : list string) :
    M (result SqlError (list (string * string))) :=
  rows ←? query (fun now d =>
    order_by g_created (select (usable_grant grantee_id kind domain_id now) (grants d)));
  mret (Ok (pick_grants resource_name (list_to_set policy_sigs) ∅ rows)).

Definition bump_grant (id : string) : Db -> Db :=
  upd_grants (update_where (fun g => g_id g =s? id) (fun g =>
    MkGrant (g_id g) (g_signatory g) (g_grantee g) (g_domain g) (g_kind g) (g_pattern g) (g_max_uses g)
      (g_use_count g + 1) (g_not_before g) (g_expires g) (g_created g) (g_revoked g))).

(** [use_count] is an INTEGER column. *)
Definition count_grant_use (id : string) (d : Db) : result SqlError (unit * Db) :=
  if forallb (fun g => g_use_count g <? i32_max) (select (fun g => g_id g =s? id) (grants d))
  then Ok (tt, bump_grant id d) else Err SqlRange.

Definition consume_grant_uses (grant_ids : list string) : M unit :=
  for_each (fun id => ignore (sql (fun _ => count_grant_use id))) grant_ids.

(** ** The gate *)

(** [SET consumed_at = CURRENT_TIMESTAMP WHERE id = $1 AND consumed_at IS NULL],
    with the number of rows affected. *)
Definition consume_request (id : string) (now : Z) (d : Db) : nat * Db :=
  let hit r := (r_id r =s? id) && is_null (r_consumed r) in
  (affected hit (requests d),
   upd_requests (update_where hit (fun r =>
     MkRequest (r_id r) (r_requester r) (r_kind r) (r_domain r) (r_name_enc r) (r_name_id r)
       (r_threshold r) (r_signatories r) (r_approvers r) (r_created r) (r_expires r) (Some now))) d).

(** Grants relied upon: those of signatories not among the live approvers. *)
Definition advance_used (approver_set : gset string) (advance : list (string * string)) : list string :=
  map snd (List.filter (fun sg => negb (bool_decide (sg.1 ∈ approver_set))) advance).

Definition with_advance (approver_set : gset string) (advance : list (string * string)) : gset string :=
  foldl (fun s sg => {[sg.1]} ∪ s) approver_set advance.

Definition size_i32 (s : gset string) : Z := wrap_i32 (Z.of_nat (size s)).

Definition pending_response (message : string) : Response := err 412 "approval_pending" message.
Definition not_ready : string := "request is not yet fully approved (or expired/consumed)".

(** The branch with [X-Blackbook-Request-Id]. *)
Definition gate_with_request (client : AuthenticatedClient) (kind resource_name : string)
    (audit_action : string) (advance : list (string * string)) (rid : string) : M (option Response) :=
  row ← or_500 (query (fun _ d => first_row (fun r => r_id r =s? rid) (requests d)));
  match row with
  | None => mret (Some (pending_response not_ready))
  | Some r =>
      let rname := default "" (b ← ok (aead_open (r_name_enc r) mek); from_utf8 b) in
      now ← utc_now;
      let valid := is_null (r_consumed r) && (r_requester r =s? ac_id client) && (r_kind r =s? kind)
                   && (rname =s? resource_name) && (now <? r_expires r) in
      if negb valid then
        _ ← log (Some (ac_id client)) audit_action (Some resource_name) AuditDenied
              (Some "approval request not ready");
        mret (Some (pending_response not_ready))
      else
        let approver_set := list_to_set (r_approvers r) in
        let used := advance_used approver_set advance in
        let approver_set := with_advance approver_set advance in
        if size_i32 approver_set <? r_threshold r then
          _ ← log (Some (ac_id client)) audit_action (Some resource_name) AuditDenied
                (Some "approval request not ready");
          mret (Some (pending_response not_ready))
        else
          affected ← or_500 (sql (fun now d => Ok (consume_request rid now d)));
          if (affected =? 0)%nat then mret (Some (pending_response "request was already consumed"))
          else
            _ ← consume_grant_uses used;
            mret None
  end.

(** [k as usize] of an [i32]. *)
Definition usize_of_i32 (k : Z) : nat := Z.to_nat (if k <? 0 then k + 2 ^ 64 else k).

(** The branch without a request id, once the advance grants alone fall short. *)
Definition gate_without_request (client : AuthenticatedClient) (kind domain_id resource_name : string)
    (policy : AccessPolicy) (audit_action : string) (advance : list (string * string)) : M (option Response) :=
  let k := threshold_k policy in
  req ← or_500 (create_access_request client kind domain_id resource_name policy);
  approver_ids ← or_500 (sql (fun _ d =>
    match first_row (fun r => r_id r =s? ars_id req) (requests d) with
    | Some r => Ok (r_approvers r, d)
    | None => Err SqlRowNotFound
    end));
  let live := list_to_set approver_ids in
  let used := advance_used live advance in
  let set := with_advance live advance in
  let refuse : M (option Response) :=
    let effective := show_Z (Z.of_nat (size set)) in
    let message :=
      if k <=? size_i32 set
      then "request " +:+ ars_id req +:+ " is approved (" +:+ effective +:+ "/" +:+ show_Z k
           +:+ ") — retry with --request-id " +:+ ars_id req
      else "threshold " +:+ show_Z k +:+ " of " +:+ show_Z (Z.of_nat (length (signatories policy)))
           +:+ " required — request " +:+ ars_id req +:+ " has " +:+ effective
           +:+ " approval(s) (incl. advance grants); approvers run `blackbook approve " +:+ ars_id req +:+ "`" in
    _ ← log (Some (ac_id client)) audit_action (Some resource_name) AuditDenied
          (Some ("threshold " +:+ show_Z k +:+ ": request " +:+ ars_id req +:+ " (" +:+ effective +:+ "/"
                 +:+ show_Z k +:+ ")"));
    mret (Some (json_response 412 (JObj [("error", JStr "approval_required"); ("message", JStr message);
                                         ("request", summary_json req)]))) in
  if k <=? size_i32 set then
    affected ← or_500 (sql (fun now d => Ok (consume_request (ars_id req) now d)));
    if (0 <? affected)%nat then
      _ ← consume_grant_uses used;
      _ ← log (Some (ac_id client)) audit_action (Some resource_name) AuditOk
            (Some "approved via advance grants + live approvals");
      mret None
    else refuse
  else refuse.

Definition threshold_gate (client : AuthenticatedClient) (kind domain_id resource_name : string)
    (policy : AccessPolicy) (request_id_hdr : option string) : M (option Response) :=
  let k := threshold_k policy in
  let audit_action := if kind =s? "file" then "file.read" else "read" in
  advance ← or_500 (advance_approvers (ac_id client) kind domain_id resource_name (signatories policy));
  match request_id_hdr with
  | Some rid => gate_with_request client kind resource_name audit_action advance rid
  | None =>
      if k <=? len_i32 advance then
        _ ← consume_grant_uses (map snd (take (usize_of_i32 k) advance));
        _ ← log (Some (ac_id client)) audit_action (Some resource_name) AuditOk
              (Some "approved via advance grants");
        mret None
      else gate_without_request client kind domain_id resource_name policy audit_action advance
  end.

(** ** Approving *)

Definition set_approvers (id : string) (approvers : list string) : Db -> Db :=
  upd_requests (update_where (fun r => r_id r =s? id) (fun r =>
    MkRequest (r_id r) (r_requester r) (r_kind r) (r_domain r) (r_name_enc r) (r_name_id r)
      (r_threshold r) (r_signatories r) approvers (r_created r) (r_expires r) (r_consumed r))).

(** How the transaction of [approve_access_request] ends without a commit. *)
Inductive ApproveError := ApproveDb (e : SqlError) | NotSignatory.

Definition contains (l : list string) (s : string) : bool := existsb (String.eqb s) l.

(** Under the row lock: the number of approvers recorded. *)
Definition approve_locked (request_id : string) (caller : AuthenticatedClient) : M (result ApproveError Z) :=
  row ← query (fun _ d => first_row (fun r => r_id r =s? request_id) (requests d));
  match row with
  | Err e => mret (Err (ApproveDb e))
  | Ok None => reply (err 404 "not_found" "no such request")
  | Ok (Some r) =>
      if negb (is_null (r_consumed r)) then reply (err 409 "consumed" "request already consumed")
      else
        now ← utc_now;
        if r_expires r <=? now then reply (err 410 "expired" "request expired")
        else if negb (contains (r_signatories r) (ac_id caller)) then mret (Err NotSignatory)
        else if contains (r_approvers r) (ac_id caller)
        then reply (json_response 200 (JObj [("approved", JBool true); ("already_recorded", JBool true);
                                             ("approvers", JNum (Z.of_nat (length (r_approvers r))))]))
        else
          let approvers := r_approvers r ++ [ac_id caller] in
          done_ ← exec (fun _ => set_approvers request_id approvers);
          mret (map_err ApproveDb (const (Z.of_nat (length approvers)) <$> done_))
  end.

Definition approve_access_request (request_id : string) (caller : AuthenticatedClient) : M Response :=
  result ← transaction_with ApproveDb (approve_locked request_id caller);
  match result with
  | Err (ApproveDb e) => raise 500 (sql_msg e)
  | Err NotSignatory =>
      _ ← log (Some (ac_id caller)) "approval" (Some request_id) AuditDenied (Some "not a signatory");
      mret (err 403 "forbidden" "you are not a signatory on this request")
  | Ok n =>
      _ ← log (Some (ac_id caller)) "approval" (Some request_id) AuditOk None;
      mret (json_response 200 (JObj [("approved", JBool true); ("approvers", JNum n)]))
  end.

(** ** Listing requests *)

(** A request row joined with its requester and its domain. *)
Record RequestRow := MkRequestRow { rr_row : Request; rr_requester_enc : bytes; rr_domain_enc : option bytes }.

Definition domain_name_enc (id : option string) (d : Db) : option bytes :=
  match id with
  | Some id => option_map d_name_enc (first_row (fun x => d_id x =s? id) (domains d))
  | None => None
  end.

(** [JOIN blackbook_clients ... LEFT JOIN blackbook_domains] *)
Definition join_request (d : Db) (r : Request) : list RequestRow :=
  match client_name_enc (r_requester r) d with
  | Some requester_enc => [MkRequestRow r requester_enc (domain_name_enc (r_domain r) d)]
  | None => []
  end.

Definition visible_requests (caller : AuthenticatedClient) (d : Db) : list RequestRow :=
  let mine r := is_admin caller || (r_requester r =s? ac_id caller) || contains (r_signatories r) (ac_id caller) in
  take 200 (concat (map (join_request d) (order_by (fun r => - r_created r) (select mine (requests d))))).

(** Rust's [<] on strings is byte order. *)
Definition request_status (now : Z) (r : Request) : string :=
  if negb (is_null (r_consumed r)) then "consumed"
  else if String.ltb (fmt_text (r_expires r)) (fmt_dotted now) then "expired"
  else if r_threshold r <=? len_i32 (r_approvers r) then "ready"
  else "pending".

Definition dec_or (fallback : string) (b : bytes) : string := unwrap_or fallback (dec_str mek b).

Definition summarize (row : RequestRow) : M AccessRequestSummary :=
  let r := rr_row row in
  signatories ← ids_to_names (r_signatories r);
  approvers ← ids_to_names (r_approvers r);
  now ← utc_now;
  mret (MkSummary (r_id r) (dec_or "?" (rr_requester_enc row)) (r_kind r)
          (from_option (dec_or "") "" (rr_domain_enc row)) (dec_or "?" (r_name_enc r)) (r_threshold r)
          signatories approvers (fmt_text (r_created r)) (fmt_text (r_expires r))
          (option_map fmt_text (r_consumed r)) (request_status now r)).

Definition list_access_requests (caller : AuthenticatedClient) : M Response :=
  rows ← or_500 (query (fun _ => visible_requests caller));
  items ← map_each summarize rows;
  mret (json_response 200 (JObj [("requests", JArr (map summary_json items));
                                 ("count", JNum (Z.of_nat (length items)))])).

Definition get_access_request (id : string) (caller : AuthenticatedClient) : M Response :=
  row ← or_500 (query (fun _ d =>
    head (concat (map (join_request d) (select (fun r => r_id r =s? id) (requests d))))));
  match row with
  | None => mret (err 404 "not_found" "no such request")
  | Some row =>
      let r := rr_row row in
      if negb (is_admin caller) && negb (ac_id caller =s? r_requester r)
         && negb (contains (r_signatories r) (ac_id caller))
      then mret (err 403 "forbidden" "not your request and you are not a signatory")
      else s ← summarize row; mret (json_response 200 (summary_json s))
  end.

(** ** Managing advance grants *)

Record CreateGrantRequest := MkCreateGrant {
  cg_grantee : string; cg_pattern : string; cg_resource_kind : string; cg_max_uses : option Z;
  cg_expires_at : option string; cg_ttl_hours : option Z; cg_not_before : option string;
}.

Definition bad_request {A} (msg : string) : M A := raise 400 msg.

(** [DateTime::parse_from_rfc3339(s).map_err(ErrorBadRequest)?] *)
Definition parse_or_400 (field s : string) : M Z :=
  match parse_rfc3339 s with
  | Some t => mret t
  | None => bad_request (field +:+ ": input contains invalid characters")
  end.

(** [Utc::now() + Duration::hours(h)], which panics when chrono's range is left. *)
Definition expiry_in_hours (now h : Z) : M Z :=
  match add_seconds now (h * 3600) with
  | Some t => mret t
  | None => raise 500 "panicked: overflow of a date"
  end.

Definition grant_expiry (body : CreateGrantRequest) : M Z :=
  let required : M Z := reply (err 400 "validation_error"
    "a time limit is required: pass expires_at (RFC3339) or ttl_hours > 0") in
  match cg_expires_at body, cg_ttl_hours body with
  | Some s, _ => parse_or_400 "expires_at" s
  | None, Some h => if 0 <? h then now ← utc_now; expiry_in_hours now h else required
  | None, None => required
  end.

Definition live_client_id (name_id : string) (d : Db) : option string :=
  option_map c_id (first_row (fun c => (c_name_id c =s? name_id) && is_null (c_revoked c)) (clients d)).

Definition insert_grant (g : Grant) (d : Db) : result SqlError (unit * Db) :=
  if existsb (fun x => g_id x =s? g_id g) (grants d) then Err SqlUnique
  else if negb ((g_kind g =s? "secret") || (g_kind g =s? "file")) then Err SqlCheck
  else Ok (tt, upd_grants (insert_row g) d).

Definition create_access_grant (body : CreateGrantRequest) (q : DomainQuery) (caller : AuthenticatedClient) :
    M Response :=
  '(domain_id, domain_name) ← or_reply (resolve_and_gate_domain state caller q);
  if negb (cg_resource_kind body =s? "secret") && negb (cg_resource_kind body =s? "file")
  then mret (err 400 "validation_error" "resource_kind must be 'secret' or 'file'")
  else if trim (cg_pattern body) =s? "" then mret (err 400 "validation_error" "pattern is required")
  else
    grantee ← or_500 (query (fun _ => live_client_id (client_name_id_hex (name_index_key state) (cg_grantee body))));
    match grantee with
    | None => mret (err 400 "unknown_grantee" ("'" +:+ cg_grantee body +:+ "' is not a known client"))
    | Some grantee_id =>
        expires_at ← grant_expiry body;
        not_before ← match cg_not_before body with
                     | Some s => t ← parse_or_400 "not_before" s; mret (Some t)
                     | None => mret None
                     end;
        if from_option (fun m => m <? 1) false (cg_max_uses body)
        then mret (err 400 "validation_error" "max_uses must be >= 1")
        else
          id ← new_id 12;
          pattern_enc ← str_500 (enc_str mek (cg_pattern body));
          _ ← or_500 (sql (fun now => insert_grant
                (MkGrant id (ac_id caller) grantee_id domain_id (cg_resource_kind body) pattern_enc
                   (cg_max_uses body) 0 not_before expires_at now None)));
          _ ← log (Some (ac_id caller)) "grant.create" (Some (cg_pattern body)) AuditOk
                (Some ("grantee=" +:+ cg_grantee body +:+ " domain=" +:+ domain_name +:+ " kind="
                       +:+ cg_resource_kind body));
          mret (json_response 201 (JObj [("id", JStr id); ("signatory", JStr (ac_name caller));
            ("grantee", JStr (cg_grantee body)); ("domain", JStr domain_name);
            ("resource_kind", JStr (cg_resource_kind body)); ("pattern", JStr (cg_pattern body));
            ("max_uses", opt_json JNum (cg_max_uses body)); ("expires_at", JStr (fmt_rfc3339 expires_at))]))
    end.

(** One item of the list; both JOINs drop grants whose clients are gone. *)
Definition grant_item (d : Db) (g : Grant) : list Json :=
  match client_name_enc (g_signatory g) d, client_name_enc (g_grantee g) d with
  | Some sig_enc, Some grantee_enc =>
      [JObj [("id", JStr (g_id g)); ("signatory", JStr (dec_or "?" sig_enc));
             ("grantee", JStr (dec_or "?" grantee_enc));
             ("domain", JStr (from_option (dec_or "") "" (domain_name_enc (Some (g_domain g)) d)));
             ("resource_kind", JStr (g_kind g)); ("pattern", JStr (dec_or "?" (g_pattern g)));
             ("max_uses", opt_json JNum (g_max_uses g)); ("use_count", JNum (g_use_count g));
             ("not_before", opt_json JStr (option_map fmt_text (g_not_before g)));
             ("expires_at", JStr (fmt_text (g_expires g))); ("created_at", JStr (fmt_text (g_created g)));
             ("revoked", JBool (negb (is_null (g_revoked g))))]]
  | _, _ => []
  end.

Definition list_access_grants (caller : AuthenticatedClient) : M Response :=
  items ← or_500 (query (fun _ d =>
    let mine g := is_admin caller || (g_signatory g =s? ac_id caller) || (g_grantee g =s? ac_id caller) in
    take 200 (concat (map (grant_item d) (order_by (fun g => - g_created g) (select mine (grants d)))))));
  mret (json_response 200 (JObj [("grants", JArr items); ("count", JNum (Z.of_nat (length items)))])).

Definition set_grant_revoked (id : string) (now : Z) : Db -> Db :=
  upd_grants (update_where (fun g => g_id g =s? id) (fun g =>
    MkGrant (g_id g) (g_signatory g) (g_grantee g) (g_domain g) (g_kind g) (g_pattern g) (g_max_uses g)
      (g_use_count g) (g_not_before g) (g_expires g) (g_created g) (Some now))).

Definition revoke_access_grant (id : string) (caller : AuthenticatedClient) : M Response :=
  row ← or_500 (query (fun _ d =>
    option_map g_signatory (first_row (fun g => (g_id g =s? id) && is_null (g_revoked g)) (grants d))));
  match row with
  | None => mret (err 404 "not_found" "no such (active) grant")
  | Some signatory_id =>
      if negb (is_admin caller) && negb (ac_id caller =s? signatory_id)
      then mret (err 403 "forbidden" "only the granting signatory (or an admin) may revoke")
      else
        _ ← or_500 (exec (set_grant_revoked id));
        _ ← log (Some (ac_id caller)) "grant.revoke" (Some id) AuditOk None;
        mret (json_response 200 (JObj [("revoked", JBool true); ("id", JStr id)]))
  end.

(** ** MFA endpoints *)

Definition mfa_kek : M bytes := pure_500 crypto_msg (handle (mfa_secret_kek (app_keys state))).

Definition mfa_enroll (caller : AuthenticatedClient) : M Response :=
  kek_bytes ← mfa_kek;
  r ← enroll_totp kek_bytes (ac_id caller) (ac_name caller);
  match r with
  | Ok (uri, b32) =>
      _ ← log (Some (ac_id caller)) "mfa.enroll" None AuditOk None;
      mret (json_response 200 (JObj [("provisioning_uri", JStr uri); ("secret_base32", JStr b32);
        ("instructions", JStr "Import the URI (or paste the base32 secret) into an authenticator app, then call /api/v1/mfa/verify with the displayed code to confirm enrollment.")]))
  | Err e => raise 500 (auth_msg e)
  end.

Definition mfa_verify (code : string) (caller : AuthenticatedClient) : M Response :=
  kek_bytes ← mfa_kek;
  r ← verify_totp kek_bytes (ac_id caller) code;
  good ← pure_500 auth_msg r;
  _ ← log (Some (ac_id caller)) "mfa.verify" None (if good : bool then AuditOk else AuditDenied) None;
  mret (if good : bool then json_response 200 (JObj [("verified", JBool true)])
        else err 401 "mfa_failed" "invalid TOTP code").
End threshold.

(** ** What each operation may write *)

Section frames.
Context {P : Primitives} {PF : Platform} (state : AppState).

Lemma writes_ids_to_names ids : writes [] (ids_to_names state ids).
Proof. unfold ids_to_names. solve_writes. Qed.

Lemma writes_active_ids ids : writes [] (active_ids ids).
Proof. induction ids; cbn [active_ids]; solve_writes. Qed.

#[local] Hint Resolve writes_ids_to_names writes_active_ids : writes.

Lemma writes_find_or_create_request c k d n p :
  writes [PRequests] (find_or_create_request state c k d n p).
Proof. unfold find_or_create_request, insert_request. solve_writes. Qed.
#[local] Hint Resolve writes_find_or_create_request : writes.

Lemma writes_create_access_request c k d n p : writes [PRequests] (create_access_request state c k d n p).
Proof. unfold create_access_request. solve_writes. Qed.

Lemma writes_advance_approvers c k d n p : writes [] (advance_approvers state c k d n p).
Proof. unfold advance_approvers. solve_writes. Qed.

Lemma writes_consume_grant_uses l : writes [PGrants] (consume_grant_uses l).
Proof. unfold consume_grant_uses, count_grant_use, bump_grant. solve_writes. Qed.

#[local] Hint Resolve writes_create_access_request writes_advance_approvers writes_consume_grant_uses : writes.

Lemma writes_gate_with_request c k n a ad rid :
  writes [PAudits; PRequests; PGrants] (gate_with_request state c k n a ad rid).
Proof. unfold gate_with_request, consume_request. solve_writes. Qed.

Lemma writes_gate_without_request c k d n p a ad :
  writes [PAudits; PRequests; PGrants] (gate_without_request state c k d n p a ad).
Proof. unfold gate_without_request, consume_request. solve_writes. Qed.

#[local] Hint Resolve writes_gate_with_request writes_gate_without_request : writes.

Lemma writes_threshold_gate c k d n p h :
  writes [PAudits; PRequests; PGrants] (threshold_gate state c k d n p h).
Proof. unfold threshold_gate. solve_writes. Qed.

Lemma writes_mfa_kek ps : writes ps (mfa_kek state).
Proof. apply writes_pure_500. Qed.
End frames.

#[export] Hint Resolve writes_ids_to_names writes_consume_grant_uses writes_threshold_gate : writes.
#[export] Hint Extern 1 (writes _ (mfa_kek _)) => apply (writes_mfa_kek _ []) : writes.
