(* ===== verification/ThresholdProps.v ===== *)
(** Properties of the K-of-N workflow ([Threshold.v]). *)
From S2P Require Import Prelude AccessRules Crypto ToyPrimitives Store Effects Concurrency ServerBase ToyPlatform AuditLog Auth AuthProps Threshold.

(** ** The quorum behind a pass *)

Section quorum.
Context {P : Primitives} {PF : Platform} (state : AppState).

(** Signatory [s] of the policy has a usable advance grant for this read. *)
Definition endorses (d : Db) (now : Z) (client : AuthenticatedClient) (kind dom name : string)
    (sigs : list string) (s : string) : Prop :=
  exists g, g ∈ grants d /\ usable_grant (ac_id client) kind dom now g = true /\
    grant_matches state name g = true /\ g_signatory g = s /\ s ∈ sigs.

(** A live request of the caller for an item of this kind and name. *)
Definition live_request (d : Db) (now : Z) (client : AuthenticatedClient) (kind dom name : string) (r : Request) : Prop :=
  r ∈ requests d /\ r_consumed r = None /\ r_requester r = ac_id client /\ r_kind r = kind /\ now < r_expires r /\
  (r_name_id r = name_id_hex (name_index_key state) dom name \/
   default "" (b ← ok (aead_open (r_name_enc r) (metadata_enc_key state)); from_utf8 b) = name).

(** The request was opened for this item, under the policy it has. *)
Definition opened_for (policy : AccessPolicy) (dom : string) (r : Request) : Prop :=
  r_domain r = Some dom /\ r_threshold r = threshold_k policy /\ r_signatories r ⊆ signatories policy.

#[global] Instance opened_for_dec policy dom r : Decision (opened_for policy dom r).
Proof. unfold opened_for. apply _. Defined.

(** What a row demands: as many distinct signatories of its policy as its
    threshold says, each with an advance grant or an approval of one live request
    of the caller that was opened for the row. *)
Definition row_quorum (d : Db) (now : Z) (client : AuthenticatedClient) (kind dom name : string)
    (policy : AccessPolicy) : Prop :=
  let endorser := endorses d now client kind dom name (signatories policy) in
  exists S : gset string, threshold_k policy <= Z.of_nat (size S) /\ (forall s, s ∈ S -> s ∈ signatories policy) /\
    ((forall s, s ∈ S -> endorser s) \/
     exists r, live_request d now client kind dom name r /\ opened_for policy dom r /\
       forall s, s ∈ S -> s ∈ r_approvers r \/ endorser s).

(** What the gate takes in its place: a live request of the caller for that name
    that was opened in another domain or under an older policy. Named by the
    header it counts with its own threshold, else with the row's. *)
Definition stray_quorum (d : Db) (now : Z) (client : AuthenticatedClient) (kind dom name : string)
    (policy : AccessPolicy) (rid : option string) : Prop :=
  exists (r : Request) (S : gset string),
    live_request d now client kind dom name r /\ ~ opened_for policy dom r /\ (forall id, rid = Some id -> r_id r = id) /\
    match rid with Some _ => r_threshold r | None => threshold_k policy end <= Z.of_nat (size S) /\
    forall s, s ∈ S -> s ∈ r_approvers r \/ endorses d now client kind dom name (signatories policy) s.

Definition quorum (d : Db) (now : Z) (client : AuthenticatedClient) (kind dom name : string)
    (policy : AccessPolicy) (rid : option string) : Prop :=
  row_quorum d now client kind dom name policy \/ stray_quorum d now client kind dom name policy rid.

(** Approvers are distinct signatories of their request. *)
Definition approvals_wf (t : list Request) : Prop :=
  forall r, r ∈ t -> NoDup (r_approvers r) /\ forall s, s ∈ r_approvers r -> s ∈ r_signatories r.

(** Approvals and grants that reach the threshold of the row or of the request. *)
Lemma quorum_of d now client kind dom name policy rid r (S : gset string) :
  approvals_wf (requests d) -> live_request d now client kind dom name r -> (forall id, rid = Some id -> r_id r = id) ->
  match rid with Some _ => r_threshold r | None => threshold_k policy end <= Z.of_nat (size S) ->
  (forall s, s ∈ S -> s ∈ r_approvers r \/ endorses d now client kind dom name (signatories policy) s) ->
  quorum d now client kind dom name policy rid.
Proof.
  intros Hwf Hr Hid Hk HS. destruct (decide (opened_for policy dom r)) as [Ho|Ho]; [left|right; by exists r, S].
  exists S. split; [|split].
  - destruct Ho as (_ & Ht & _), rid; [by rewrite <- Ht|done].
  - intros s [Ha|(g & _ & _ & _ & _ & Hs)]%HS; [|done]. destruct Ho as (_ & _ & Hsub). by apply Hsub, (Hwf r); [destruct Hr|].
  - right. by exists r.
Qed.

Lemma pick_grants_spec name sigset seen rows :
  NoDup (fst <$> pick_grants state name sigset seen rows) /\
  forall s id, (s, id) ∈ pick_grants state name sigset seen rows ->
    s ∈ sigset /\ s ∉ seen /\
    exists g, g ∈ rows /\ g_id g = id /\ g_signatory g = s /\ grant_matches state name g = true.
Proof.
  revert seen. induction rows as [|g rows IH]; intros seen; simpl.
  { split; [constructor|]. by intros ? ? ?%not_elem_of_nil. }
  assert (Hskip : forall l : list (string * string), (forall s id, (s, id) ∈ l -> s ∈ sigset /\ s ∉ seen /\
      exists g, g ∈ rows /\ g_id g = id /\ g_signatory g = s /\ grant_matches state name g = true) ->
    forall s id, (s, id) ∈ l -> s ∈ sigset /\ s ∉ seen /\
      exists g', g' ∈ g :: rows /\ g_id g' = id /\ g_signatory g' = s /\ grant_matches state name g' = true).
  { intros l Hl s id H. destruct (Hl s id H) as (? & ? & g' & ? & ?). do 2 (split; [done|]).
    exists g'. split; [by right|done]. }
  destruct (negb _ || _) eqn:E; [|destruct (grant_matches state name g) eqn:Em].
  - destruct (IH seen) as [Hn Hs]. split; [done|]. by apply Hskip.
  - apply orb_false_iff in E as [Ein%negb_false_iff Eseen].
    apply bool_decide_eq_true in Ein. apply bool_decide_eq_false in Eseen.
    destruct (IH ({[g_signatory g]} ∪ seen)) as [Hn Hs]. split.
    + rewrite fmap_cons. constructor; [|done]. intros ([s id] & Hx & H)%list_elem_of_fmap. simpl in Hx. subst s.
      apply Hs in H as (_ & H & _). set_solver.
    + intros s id [H|H]%elem_of_cons.
      * simplify_eq. do 2 (split; [done|]). exists g. split; [by left|done].
      * apply Hs in H as (? & ? & g' & ? & ?). split; [done|]. split; [set_solver|].
        exists g'. split; [by right|done].
  - destruct (IH seen) as [Hn Hs]. split; [done|]. by apply Hskip.
Qed.

Lemma advance_approvers_inv gid kind dom name sigs w adv w' :
  run (advance_approvers state gid kind dom name sigs) w = (Val (Ok adv), w') ->
  db w' = db w /\ clock w' = clock w /\
  adv = pick_grants state name (list_to_set sigs) ∅
          (order_by g_created (select (usable_grant gid kind dom (clock w)) (grants (db w)))).
Proof. unfold advance_approvers. intros H. run_inv. done. Qed.

(** What the grants picked stand for. *)
Lemma picked_endorse d now client kind dom name sigs s id :
  (s, id) ∈ pick_grants state name (list_to_set sigs) ∅
    (order_by g_created (select (usable_grant (ac_id client) kind dom now) (grants d))) ->
  endorses d now client kind dom name sigs s.
Proof.
  intros H. apply pick_grants_spec in H as (Hs & _ & g & Hg & _ & Hsig & Hm).
  rewrite elem_of_order_by, elem_of_select in Hg. exists g. set_solver.
Qed.

Lemma elem_of_with_advance live adv s :
  s ∈ with_advance live adv <-> s ∈ live \/ exists id, (s, id) ∈ adv.
Proof.
  unfold with_advance. revert live. induction adv as [|[x id] adv IH]; intros live; simpl.
  - split; [by left|]. by intros [?|[? ?%not_elem_of_nil]].
  - rewrite IH. setoid_rewrite elem_of_cons. set_solver.
Qed.

Lemma wrap_i32_le z : 0 <= z -> wrap_i32 z <= z.
Proof.
  intros Hz. unfold wrap_i32, wrap_signed.
  pose proof (Z.mod_le (z + 2 ^ (32 - 1)) (2 ^ 32) ltac:(lia) ltac:(lia)). lia.
Qed.

Lemma size_fst (adv : list (string * string)) :
  NoDup (fst <$> adv) -> size (list_to_set (fst <$> adv) : gset string) = length adv.
Proof. intros H. rewrite size_list_to_set by done. apply length_fmap. Qed.
(** Consuming a row that is there. *)
Lemma first_row_by_id id (t : list Request) r :
  NoDup (r_id <$> t) -> first_row (fun x => r_id x =s? id) t = Some r ->
  r ∈ t /\ r_id r = id /\ forall x, x ∈ t -> r_id x = id -> x = r.
Proof.
  intros Hnd [Hin Hid%String.eqb_eq]%first_row_Some. split; [done|]. split; [done|].
  intros x Hx Hxid. eapply (NoDup_fmap_inj r_id); [done..|congruence].
Qed.

Lemma gate_with_request_inv client kind dom name act adv rid w w' :
  run (gate_with_request state client kind name act adv rid) w = (Val None, w') ->
  exists r, live_request (db w) (clock w) client kind dom name r /\ r_id r = rid /\
    r_threshold r <= Z.of_nat (size (with_advance (list_to_set (r_approvers r)) adv)).
Proof.
  unfold gate_with_request. intros H. apply run_bind_Val in H as (row & w0 & Hq & H).
  apply run_or_500_inv, run_query_Ok in Hq as (-> & l & ->). cbv beta in H.
  destruct (first_row _ _) as [r|] eqn:E; [|by run_inv].
  apply first_row_Some in E as [Hin Hid%String.eqb_eq].
  apply run_bind_Val in H as (now & w1 & Hnow & H). rewrite run_utc_now in Hnow. simplify_eq.
  destruct (negb _) eqn:Ev; [by run_inv|]. apply negb_false_iff in Ev.
  destruct (Z.ltb_spec (size_i32 (with_advance (list_to_set (r_approvers r)) adv)) (r_threshold r)) as [Hlt|Hle];
    [by run_inv|].
  exists r. repeat (apply andb_true_iff in Ev as [Ev ?]). apply is_null_true in Ev. bool_to_prop.
  split; [repeat split; auto|]. split; [done|]. etrans; [exact Hle|]. apply wrap_i32_le. lia.
Qed.

Lemma insert_request_inv r d u d' :
  insert_request r d = Ok (u, d') -> r_id r ∉ (r_id <$> requests d) /\ d' = upd_requests (insert_row r) d.
Proof.
  unfold insert_request. destruct (existsb _ _) eqn:E; [done|]. destruct (negb _); [done|]. intros [= _ <-].
  split; [|done]. intros (x & Hx & Hin)%list_elem_of_fmap. rewrite <- not_true_iff_false, existsb_exists in E.
  apply E. exists x. split; [by apply list_elem_of_In|]. by rewrite <- Hx, String.eqb_refl.
Qed.

Lemma find_or_create_request_inv client kind dom name policy w found w' :
  NoDup (r_id <$> requests (db w)) ->
  run (find_or_create_request state client kind dom name policy) w = (Val (Ok found), w') ->
  NoDup (r_id <$> requests (db w')) /\
  match found with
  | inl r => r ∈ requests (db w') /\ r ∈ requests (db w) /\
      open_request (ac_id client) kind dom (name_id_hex (name_index_key state) dom name) (clock w) r = true
  | inr (id, _) => exists r, r ∈ requests (db w') /\ r_id r = id /\ r_approvers r = []
  end.
Proof.
  intros Hnd H. unfold find_or_create_request in H. run_inv.
  destruct (find_open_request _ _ _ _ _ _) as [r|] eqn:E.
  - run_inv. split; [done|]. unfold find_open_request in E. apply head_Some_elem_of in E.
    rewrite elem_of_order_by, elem_of_select in E. tauto.
  - run_inv.
    match goal with H : run (active_ids _) _ = _ |- _ => apply reads_only in H as [Ha _]; [|apply writes_active_ids] end.
    match goal with H : run (new_id _) _ = _ |- _ =>
      apply reads_only in H as [Hb _]; [|unfold new_id; solve_writes] end.
    match goal with H : insert_request _ _ = _ |- _ => apply insert_request_inv in H as [Hni ->] end.
    unfold insert_row in *. simpl in *. rewrite Hb, Ha in *. split.
    + rewrite fmap_app. apply NoDup_app. split; [done|]. split; [|by apply NoDup_singleton].
      by intros ? Hx ->%list_elem_of_singleton.
    + eexists. split; [apply elem_of_app; right; by apply list_elem_of_singleton|]. done.
Qed.

Lemma create_access_request_inv client kind dom name policy w req w' :
  NoDup (r_id <$> requests (db w)) ->
  run (create_access_request state client kind dom name policy) w = (Val (Ok req), w') ->
  NoDup (r_id <$> requests (db w')) /\
  exists r, r ∈ requests (db w') /\ r_id r = ars_id req /\
    (r_approvers r = [] \/
     (r ∈ requests (db w) /\
      open_request (ac_id client) kind dom (name_id_hex (name_index_key state) dom name) (clock w) r = true)).
Proof.
  intros Hnd H. unfold create_access_request in H. apply run_try_Ok in H as (found & w1 & Hf & H).
  apply run_transaction_Ok in Hf as (l & w2 & l' & Hf & ->). apply find_or_create_request_inv in Hf as [Hnd' Hf]; [|done].
  destruct found as [r|[id e]].
  - apply run_bind_Val in H as (names & w3 & Hn & H). apply reads_only in Hn as [Hdb _]; [|apply writes_ids_to_names].
    run_inv. rewrite Hdb. split; [done|]. destruct Hf as (? & ? & ?). exists r. simpl. tauto.
  - run_inv. split; [done|]. destruct Hf as (r & ? & ? & ?). exists r. simpl. tauto.
Qed.

Lemma gate_without_request_inv client kind dom name policy act adv w w' :
  NoDup (r_id <$> requests (db w)) ->
  run (gate_without_request state client kind dom name policy act adv) w = (Val None, w') ->
  exists ids, threshold_k policy <= Z.of_nat (size (with_advance (list_to_set ids) adv)) /\
    (ids = [] \/ exists r, r ∈ requests (db w) /\ r_approvers r = ids /\
      open_request (ac_id client) kind dom (name_id_hex (name_index_key state) dom name) (clock w) r = true).
Proof.
  intros Hnd H. unfold gate_without_request in H.
  apply run_bind_Val in H as (req & w1 & Hc & H). apply run_or_500_inv, create_access_request_inv in Hc as [Hnd1 Hr]; [|done].
  apply run_bind_Val in H as (ids & w2 & Hq & H). apply run_or_500_inv, run_sql_Ok in Hq as (d & l & Hq & ->).
  destruct (first_row _ _) as [r|] eqn:E; [|done]. simplify_eq. apply first_row_by_id in E as (Hin & Hid & Hu); [|done].
  destruct Hr as (r' & Hr' & Hid' & Hr). apply Hu in Hr' as ->; [|done].
  destruct (Z.leb_spec (threshold_k policy) (size_i32 (with_advance (list_to_set (r_approvers r)) adv))) as [Hle|Hlt];
    [|by run_inv].
  exists (r_approvers r). split; [etrans; [exact Hle|apply wrap_i32_le; lia]|].
  destruct Hr as [Hr|[Hr Ho]]; [by left|]. right. by exists r.
Qed.

(** Whatever lets a read pass is a quorum. *)
Lemma threshold_gate_quorum client kind dom name policy rid w w' :
  NoDup (r_id <$> requests (db w)) -> approvals_wf (requests (db w)) ->
  run (threshold_gate state client kind dom name policy rid) w = (Val None, w') ->
  quorum (db w) (clock w) client kind dom name policy rid.
Proof.
  intros Hnd Hwf H. unfold threshold_gate in H. apply run_bind_Val in H as (adv & w1 & Ha & H).
  apply run_or_500_inv, advance_approvers_inv in Ha as (Hdb & Hck & ->).
  set (adv := pick_grants _ _ _ _ _) in H.
  assert (Hadv : forall s id, (s, id) ∈ adv -> endorses (db w) (clock w) client kind dom name (signatories policy) s)
    by (intros s id; apply picked_endorse).
  assert (Hgiven : forall S : gset string, threshold_k policy <= Z.of_nat (size S) ->
    (forall s, s ∈ S -> exists id, (s, id) ∈ adv) -> row_quorum (db w) (clock w) client kind dom name policy).
  { intros S Hk HS. exists S. split; [done|]. split; [|left]; intros s (id & Hs%Hadv)%HS; [|done].
    by destruct Hs as (g & _ & _ & _ & _ & Hs). }
  destruct rid as [rid|].
  - apply (gate_with_request_inv client kind dom) in H as (r & Hr & Hid & Hk). rewrite Hdb, Hck in Hr.
    eapply quorum_of; [done|exact Hr|by intros ? [= <-]|exact Hk|].
    intros s [Hs|[id Hs]]%elem_of_with_advance; [left; set_solver|right; eauto].
  - destruct (Z.leb_spec (threshold_k policy) (len_i32 adv)) as [Hk|Hk].
    + left. apply (Hgiven (list_to_set (fst <$> adv))).
      * rewrite size_fst by apply pick_grants_spec. etrans; [exact Hk|apply wrap_i32_le; lia].
      * intros s ([x id] & -> & Hs)%elem_of_list_to_set%list_elem_of_fmap. by exists id.
    + apply gate_without_request_inv in H as (ids & Hsz & Hids); [|by rewrite Hdb]. rewrite Hdb, Hck in Hids.
      destruct Hids as [->|(r & Hr & <- & Ho)].
      * left. eapply Hgiven; [exact Hsz|]. intros s [Hs|Hs]%elem_of_with_advance; [set_solver|done].
      * unfold open_request in Ho. repeat (apply andb_true_iff in Ho as [Ho ?]). bool_to_prop.
        eapply (quorum_of _ _ _ _ _ _ _ _ r); [exact Hwf| |done|exact Hsz|].
        -- split_and!; auto. by apply is_null_true.
        -- intros s [Hs|[id Hs]]%elem_of_with_advance; [left; set_solver|right; eauto].
Qed.
End quorum.

(** ** A request is consumed at most once *)

Section once.
Context {P : Primitives} {PF : Platform} (state : AppState) (rid : string).

Definition unconsumed (r : Request) : bool := (r_id r =s? rid) && is_null (r_consumed r).

(** A pass costs one; refusals and errors are free. *)
Definition pass_cost (o : outcome (option Response)) : nat := match o with Val None => 1%nat | _ => 0%nat end.

Abbreviation earns_pass := (earns (table_inv requests (fun _ => True)) (table_budget requests (affected unconsumed))).

Lemma earns_free ps {A} c (m : M A) (f : A -> M (option Response)) :
  bool_decide (PRequests ∈ ps) = false -> writes ps m ->
  (forall a, earns_pass (pays pass_cost) c (f a)) -> earns_pass (pays pass_cost) c (m ≫= f).
Proof.
  intros Hp Hw Hf. apply earns_bind. eapply earns_frame; [|exact Hw|].
  - intros w w' Hfr. exact (Hfr PRequests Hp).
  - apply Leaves_True. intros [a|resp|s e]; [apply Hf|unfold pays; simpl; lia..].
Qed.

Lemma affected_consumed f t :
  (forall r, r_consumed (f r) <> None) -> affected unconsumed (update_where unconsumed f t) = 0%nat.
Proof.
  intros Hf. unfold affected, select, update_where. induction t as [|r t IH]; [done|]. simpl.
  destruct (unconsumed r) eqn:E; [|by rewrite E].
  unfold unconsumed at 1. specialize (Hf r). destruct (r_consumed (f r)); [|done].
  by rewrite andb_false_r.
Qed.

Lemma gate_with_request_earns client kind name act adv :
  earns_pass (pays pass_cost) 0 (gate_with_request state client kind name act adv rid).
Proof.
  unfold gate_with_request. apply (earns_free []); [reflexivity|solve_writes|]. intros [r|]; [|apply le_n].
  apply (earns_free []); [reflexivity|solve_writes|]. intros now.
  destruct (negb _); [apply (earns_free [PAudits]); [reflexivity|solve_writes|intros; apply le_n]|].
  destruct (_ <? _); [apply (earns_free [PAudits]); [reflexivity|solve_writes|intros; apply le_n]|].
  apply earns_bind, earns_or_500, earns_sql; [unfold pays; simpl; lia|].
  intros t d _. unfold consume_request. cbv beta iota zeta. cbn [requests upd_requests].
  change (fun r0 => (r_id r0 =s? rid) && is_null (r_consumed r0)) with unconsumed.
  split; [done|]. exists (affected unconsumed (requests d)). rewrite affected_consumed by done. split; [lia|].
  destruct (affected unconsumed (requests d)) as [|n]; [apply Nat.le_0_l|].
  apply (earns_free [PGrants]); [reflexivity|solve_writes|]. intros _. unfold pays; simpl. lia.
Qed.

Lemma threshold_gate_earns client kind dom name policy :
  earns_pass (pays pass_cost) 0 (threshold_gate state client kind dom name policy (Some rid)).
Proof.
  unfold threshold_gate. apply (earns_free []); [reflexivity| |].
  - apply writes_or_500, writes_advance_approvers.
  - intros adv. apply gate_with_request_earns.
Qed.
End once.

(** ** Recording approvals *)

(** The client's approval of the request is on record. *)
Definition approval_recorded (rid cid : string) (t : list Request) : Prop :=
  exists r, r ∈ t /\ r_id r = rid /\ cid ∈ r_approvers r.

Lemma contains_spec l s : contains l s = true <-> s ∈ l.
Proof.
  unfold contains. rewrite existsb_exists. setoid_rewrite String.eqb_eq. setoid_rewrite <- list_elem_of_In.
  naive_solver.
Qed.

(** One attempt under the row lock, from any state. *)
Lemma approve_locked_cases rid caller w o w' :
  run (approve_locked rid caller) w = (o, w') ->
  requests (db w') = requests (db w) \/
  exists r, first_row (fun x => r_id x =s? rid) (requests (db w)) = Some r /\ r_consumed r = None /\
    clock w < r_expires r /\ ac_id caller ∈ r_signatories r /\ ac_id caller ∉ r_approvers r /\
    requests (db w') = requests (set_approvers rid (r_approvers r ++ [ac_id caller]) (db w)).
Proof.
  intros H. unfold approve_locked in H. rewrite run_bind in H.
  destruct (run_query_cases (fun _ d => first_row (fun r => r_id r =s? rid) (requests d)) w)
    as (l & _ & [[_ Hq]|Hq]); rewrite Hq in H; cbv beta iota in H.
  { rewrite run_ret in H. simplify_eq. by left. }
  destruct (first_row _ _) as [r|] eqn:E; [|simplify_eq/=; by left].
  destruct (r_consumed r) eqn:Ec; [simplify_eq/=; by left|]. cbn [is_null negb] in H.
  rewrite run_bind, run_utc_now in H. cbv beta iota in H.
  destruct (Z.leb_spec (r_expires r) (clock (set_faults l w))) as [|Hexp]; [simplify_eq/=; by left|].
  destruct (contains (r_signatories r) (ac_id caller)) eqn:Es; [|simplify_eq/=; by left].
  destruct (contains (r_approvers r) (ac_id caller)) eqn:Ea; [simplify_eq/=; by left|].
  cbn [negb] in H. rewrite run_bind in H.
  destruct (run_sql_cases (fun now d => Ok (tt, set_approvers rid (r_approvers r ++ [ac_id caller]) d))
              (set_faults l w)) as (l' & _ & [[_ Hq']|Hq']); unfold exec in H; rewrite Hq' in H;
    cbv beta iota in H; rewrite run_ret in H; simplify_eq; [by left|]. right. exists r.
  apply contains_spec in Es. apply not_true_iff_false in Ea. rewrite contains_spec in Ea. by repeat split.
Qed.

Section approve.
Context {P : Primitives} {PF : Platform} (state : AppState) (I : list Request -> Prop).

Hypothesis I_approve : forall rid caller d r,
  I (requests d) -> first_row (fun x => r_id x =s? rid) (requests d) = Some r ->
  ac_id caller ∈ r_signatories r -> ac_id caller ∉ r_approvers r ->
  I (requests (set_approvers rid (r_approvers r ++ [ac_id caller]) d)).

(** The locked block, committed or rolled back. *)
Lemma approve_transact rid caller w :
  I (requests (db w)) -> I (requests (db (transact_with ApproveDb (approve_locked rid caller) w).2)).
Proof.
  intros Hw. assert (Hf : forall v, db (next_fault v).2 = db v) by (by intros [d t c r [|b l]]).
  unfold transact_with. pose proof (Hf w) as Hd. destruct (next_fault w) as [[] w0]; cbn [snd] in *; [by rewrite Hd|].
  destruct (run (approve_locked rid caller) w0) as [o w1] eqn:E.
  assert (I (requests (db w1))) as Hi.
  { apply approve_locked_cases in E as [E|(r & Hr & _ & _ & Hs & Ha & E)]; rewrite E; [by rewrite Hd|].
    apply I_approve; [by rewrite Hd|done..]. }
  pose proof (Hf w1) as Hd1. destruct (next_fault w1) as [bad w2]; cbn [snd] in Hd1. clear E.
  destruct o as [[a|e]|r|s e]; [destruct bad|..]; cbn [snd set_db db]; first [by rewrite Hd|by rewrite Hd1].
Qed.

Lemma approve_safe rid caller : safe (table_inv requests I) (fun _ => True) (approve_access_request state rid caller).
Proof.
  unfold approve_access_request. apply safe_bind. intros w Hw. split; [by apply approve_transact|].
  assert (Hlog : forall r m st (resp : Response), safe (table_inv requests I) (fun _ => True)
    (_ ← audit (audit_hmac_key state) (metadata_enc_key state) (Some (ac_id caller)) "approval" (Some r) st m; mret resp)).
  { intros. apply (kept_phase requests _ [PAudits]); [|solve_writes|done..].
    intros v v' H. exact (H PRequests eq_refl). }
  destruct (transact_with _ _ w).1 as [[n|[e|]]|r|s e]; cbn [safe then_safe]; [exact (Hlog _ _ _ _)|done|exact (Hlog _ _ _ _)|done..].
Qed.
End approve.

Lemma approvals_wf_approve rid caller d r :
  NoDup (r_id <$> requests d) -> approvals_wf (requests d) ->
  first_row (fun x => r_id x =s? rid) (requests d) = Some r ->
  ac_id caller ∈ r_signatories r -> ac_id caller ∉ r_approvers r ->
  approvals_wf (requests (set_approvers rid (r_approvers r ++ [ac_id caller]) d)).
Proof.
  intros Hnd Hwf Hr Hs Ha x (x0 & Hx0 & ->)%elem_of_update_where.
  destruct (String.eqb_spec (r_id x0) rid) as [Hid|]; [|by apply Hwf].
  apply first_row_by_id in Hr as (Hin & _ & Hu); [|done]. apply Hu in Hx0 as ->; [|done]. simpl.
  destruct (Hwf r Hin) as [Hn Hsub]. split.
  - apply NoDup_app. split; [done|]. split; [|by apply NoDup_singleton].
    by intros y Hy ->%list_elem_of_singleton.
  - intros s [H| ->%list_elem_of_singleton]%elem_of_app; [by apply Hsub|done].
Qed.

Lemma set_approvers_ids rid l d : r_id <$> requests (set_approvers rid l d) = r_id <$> requests d.
Proof.
  cbn [set_approvers upd_requests requests]. unfold update_where.
  induction (requests d) as [|x t IH]; [done|]. cbn [map]. rewrite !fmap_cons, IH. by destruct (r_id x =s? rid).
Qed.

Lemma recorded_approve rid cid rid' caller d r :
  approval_recorded rid cid (requests d) ->
  first_row (fun x => r_id x =s? rid') (requests d) = Some r -> NoDup (r_id <$> requests d) ->
  approval_recorded rid cid (requests (set_approvers rid' (r_approvers r ++ [ac_id caller]) d)).
Proof.
  intros (x & Hx & Hid & Hc) Hr Hnd. apply first_row_by_id in Hr as (Hin & Hrid & Hu); [|done].
  eexists. cbn [set_approvers upd_requests requests]. split; [apply elem_of_update_where; by exists x|].
  destruct (String.eqb_spec (r_id x) rid') as [Hx'|]; [|done]. cbn [r_id r_approvers]. split; [done|].
  rewrite <- (Hu x Hx Hx'). apply elem_of_app. by left.
Qed.

(** A committed approval, or one found already there, is on record. *)
Lemma approve_locked_recorded rid caller w o w' :
  run (approve_locked rid caller) w = (o, w') ->
  match o with
  | Val (Ok _) => approval_recorded rid (ac_id caller) (requests (db w'))
  | Ret r => resp_status r = 200 -> approval_recorded rid (ac_id caller) (requests (db w))
  | Val (Err _) => True
  | Raise _ _ => False
  end.
Proof.
  intros H. unfold approve_locked in H. rewrite run_bind in H.
  destruct (run_query_cases (fun _ d => first_row (fun r => r_id r =s? rid) (requests d)) w)
    as (l & _ & [[_ Hq]|Hq]); rewrite Hq in H; cbv beta iota in H.
  { rewrite run_ret in H. by simplify_eq. }
  destruct (first_row _ _) as [r|] eqn:E; [|by simplify_eq/=].
  apply first_row_Some in E as [Hin Hid%String.eqb_eq].
  destruct (r_consumed r) eqn:Ec; [by simplify_eq/=|]. cbn [is_null negb] in H.
  rewrite run_bind, run_utc_now in H. cbv beta iota in H. destruct (_ <=? _); [by simplify_eq/=|].
  destruct (contains (r_signatories r) (ac_id caller)); [|by simplify_eq/=].
  destruct (contains (r_approvers r) (ac_id caller)) eqn:Ea.
  { simplify_eq/=. intros _. apply contains_spec in Ea. by exists r. }
  cbn [negb] in H. rewrite run_bind in H.
  destruct (run_sql_cases (fun now d => Ok (tt, set_approvers rid (r_approvers r ++ [ac_id caller]) d))
              (set_faults l w)) as (l' & _ & [[_ Hq']|Hq']); unfold exec in H; rewrite Hq' in H;
    cbv beta iota in H; rewrite run_ret in H; simplify_eq; [done|].
  unfold approval_recorded. eexists. cbn [set_approvers upd_requests requests db set_db].
  split; [apply elem_of_update_where; by exists r|]. rewrite String.eqb_refl. simpl.
  split; [done|]. apply elem_of_app. right. by apply list_elem_of_singleton.
Qed.

Lemma approve_recorded {P : Primitives} {PF : Platform} state rid caller w o w' :
  run (approve_access_request state rid caller) w = (o, w') -> resp_status (respond o) = 200 ->
  approval_recorded rid (ac_id caller) (requests (db w')).
Proof.
  assert (Hf : forall v, db (next_fault v).2 = db v) by (by intros [d t c r [|b l]]).
  assert (Hlog : forall r m st (resp : Response) v, resp_status resp <> 200 \/ approval_recorded rid (ac_id caller) (requests (db v)) ->
    forall o w', run (_ ← audit (audit_hmac_key state) (metadata_enc_key state) (Some (ac_id caller)) "approval" (Some r) st m; mret resp) v
      = (o, w') -> resp_status (respond o) = 200 -> approval_recorded rid (ac_id caller) (requests (db w'))).
  { intros r m st resp v Hv o' v' Hr Hst.
    pose proof (writes_same [PAudits] PRequests _ v (writes_audit (audit_hmac_key state) (metadata_enc_key state)
      (Some (ac_id caller)) "approval" (Some r) st m) eq_refl) as Hsame.
    rewrite run_bind in Hr. destruct (returns_run _ v (returns_audit (audit_hmac_key state) (metadata_enc_key state)
      (Some (ac_id caller)) "approval" (Some r) st m)) as (u & v1 & Ha). rewrite Ha in *. simpl in *. simplify_eq.
    destruct Hv as [Hv|Hv]; [done|]. by rewrite Hsame. }
  intros H Hst. unfold approve_access_request in H. rewrite run_bind in H. unfold transaction_with in H.
  cbn [run] in H. unfold transact_with in H. pose proof (Hf w) as Hd.
  destruct (next_fault w) as [[] w0]; cbn [snd] in Hd; [by simplify_eq/=|].
  destruct (run (approve_locked rid caller) w0) as [o1 w1] eqn:E. apply approve_locked_recorded in E.
  pose proof (Hf w1) as Hd1. destruct o1 as [[n|[e|]]|r|s e].
  - destruct (next_fault w1) as [[] w2]; cbn [snd] in Hd1; [by simplify_eq/=|].
    eapply Hlog, Hst; [right|exact H]. by rewrite Hd1.
  - by simplify_eq/=.
  - eapply Hlog, Hst; [left|exact H]. done.
  - simplify_eq. by apply E.
  - done.
Qed.

(** ** Requests and the policies they were opened under *)

Section policies.
Context {P : Primitives} {PF : Platform} (state : AppState).
(** The policy of each item, by kind, domain and index of its name. *)
Context (pol : string -> string -> string -> AccessPolicy).

(** Every request was opened for its item, under the policy the item has. *)
Definition follows (t : list Request) : Prop :=
  forall r, r ∈ t -> forall dom, r_domain r = Some dom -> opened_for (pol (r_kind r) dom (r_name_id r)) dom r.

Abbreviation keeps := (safe (table_inv requests follows)).

Lemma follows_update t p f :
  follows t -> (forall r, r_domain (f r) = r_domain r /\ r_kind (f r) = r_kind r /\ r_name_id (f r) = r_name_id r /\
                  r_threshold (f r) = r_threshold r /\ r_signatories (f r) = r_signatories r) ->
  follows (update_where p f t).
Proof.
  intros Ht Hf x (r & Hr & ->)%elem_of_update_where. destruct (p r); [|by apply Ht].
  destruct (Hf r) as (E1 & E2 & E3 & E4 & E5). intros dom. unfold opened_for. rewrite E1, E2, E3, E4, E5. by apply Ht.
Qed.

Lemma active_ids_listed ids w l w' : run (active_ids ids) w = (Val (Ok l), w') -> l ⊆ ids.
Proof.
  revert w l w'. induction ids as [|id ids IH]; intros w l w' H; cbn [active_ids] in H; [by injection H as <- _|].
  apply run_try_Ok in H as (alive & w1 & _ & H). apply run_try_Ok in H as (others & w2 & Ho & H). apply IH in Ho.
  rewrite run_ret in H. injection H as <- _. destruct alive; set_solver.
Qed.

(** The gate opens a request for the row it guards. *)
Lemma find_or_create_keeps client kind dom name w a w' :
  follows (requests (db w)) ->
  run (find_or_create_request state client kind dom name (pol kind dom (name_id_hex (name_index_key state) dom name))) w
    = (Val (Ok a), w') -> follows (requests (db w')).
Proof.
  unfold find_or_create_request. set (p := pol _ _ _). intros Hw H.
  apply run_try_Ok in H as (found & w1 & Hq & H). apply run_query_Ok in Hq as (_ & l & ->).
  destruct found as [r|]; [by injection H as <- <-|]. apply run_try_Ok in H as (ids & w2 & Hids & H).
  pose proof (writes_same [] PRequests _ (set_faults l w) (writes_active_ids (signatories p)) eq_refl) as E2. rewrite Hids in E2. apply active_ids_listed in Hids.
  apply run_bind_Val in H as (id & w3 & Hid & H).
  pose proof (reads_only _ _ _ _ (writes_new_id [] 12) Hid) as (E3 & _ & _).
  apply run_bind_Val in H as (now & w4 & Hnow & H). rewrite run_utc_now in Hnow. injection Hnow as <- <-.
  apply run_bind_Val in H as (nonce & w5 & Hd & H). rewrite run_draw in Hd. injection Hd as <- <-.
  apply run_try_Ok in H as (enc & w6 & Henc & H). rewrite run_ret in Henc. injection Henc as _ <-.
  apply run_try_Ok in H as (u & w7 & Hins & H). apply run_sql_Ok in Hins as (d & l' & Hins & ->).
  rewrite run_ret in H. injection H as _ <-. apply insert_request_inv in Hins as [_ ->]. cbn in E2 |- *.
  intros r [Hr|Hr%list_elem_of_singleton]%elem_of_app.
  - apply Hw. cbn in E3. rewrite E3, E2 in Hr. exact Hr.
  - subst r. cbn. intros dom' [= <-]. by repeat split.
Qed.

Lemma rest_kept ps {A} (m : M A) : bool_decide (PRequests ∈ ps) = false -> writes ps m -> keeps (fun _ => True) m.
Proof.
  intros Hp Hw. apply safe_steps; [|done]. eapply Steps_impl, Hw. intros w w' Hf. unfold table_inv.
  pose proof (Hf PRequests Hp) as E. cbn in E. by rewrite E.
Qed.

Lemma consume_keeps id now d : follows (requests d) -> follows (requests (consume_request id now d).2).
Proof. intros H. apply follows_update; [done|]. by intros r. Qed.

Lemma gate_with_request_keeps client kind name act adv rid :
  keeps (fun _ => True) (gate_with_request state client kind name act adv rid).
Proof.
  unfold gate_with_request. apply kept_query_500; [done|]. intros now d Hd. destruct (first_row _ _) as [r|]; [|done].
  apply safe_seq; [by apply (rest_kept []); [|solve_writes]|]. intros t.
  destruct (negb _); [by apply (rest_kept [PAudits]); [|solve_writes]|].
  destruct (_ <? _); [by apply (rest_kept [PAudits]); [|solve_writes]|].
  apply kept_sql_500; [done|]. intros now' d' a d'' Hd' [= <- <-]. split; [by apply consume_keeps|].
  destruct (_ =? _)%nat; [done|]. by apply (rest_kept [PGrants]); [|solve_writes].
Qed.

Lemma gate_without_request_keeps client kind dom name act adv :
  keeps (fun _ => True)
    (gate_without_request state client kind dom name (pol kind dom (name_id_hex (name_index_key state) dom name)) act adv).
Proof.
  unfold gate_without_request. apply safe_seq.
  { unfold or_500, create_access_request. apply safe_seq; [|intros [a|e]; done]. unfold try_bind. apply safe_seq.
    - apply kept_transaction. intros w a w1. apply find_or_create_keeps.
    - intros [[r|[id e]]|e]; [apply (rest_kept []); [done|solve_writes]..|done]. }
  intros req. apply kept_sql_500; [done|]. intros now d ids d' Hd Hf.
  split; [destruct (first_row _ _); [by injection Hf as _ <-|done]|]. cbv zeta.
  destruct (_ <=? _); [|by apply (rest_kept [PAudits]); [|solve_writes]].
  apply kept_sql_500; [done|]. intros now' d1 a d2 Hd1 [= <- <-]. split; [by apply consume_keeps|].
  destruct (_ <? _)%nat; [apply (rest_kept [PGrants; PAudits])|apply (rest_kept [PAudits])]; solve [done|solve_writes].
Qed.

Lemma threshold_gate_keeps client kind dom name rid :
  keeps (fun _ => True)
    (threshold_gate state client kind dom name (pol kind dom (name_id_hex (name_index_key state) dom name)) rid).
Proof.
  unfold threshold_gate. apply safe_seq; [apply (rest_kept []); [done|apply writes_or_500, writes_advance_approvers]|].
  intros adv. destruct rid as [rid|]; [apply gate_with_request_keeps|].
  destruct (_ <=? _); [|apply gate_without_request_keeps]. apply (rest_kept [PGrants; PAudits]); [done|solve_writes].
Qed.
End policies.

(** What the workflow runs: reads that pass the gate, under the policy of the
    item they ask for, and approvals. *)
Inductive WorkflowCall :=
| PassGate (client : AuthenticatedClient) (kind dom name : string) (rid : option string)
| Approve (rid : string) (caller : AuthenticatedClient).

Definition workflow_call `{Primitives} `{Platform} (state : AppState) (pol : string -> string -> string -> AccessPolicy)
    (c : WorkflowCall) : M (option Response) :=
  match c with
  | PassGate client kind dom name rid =>
      threshold_gate state client kind dom name (pol kind dom (name_id_hex (name_index_key state) dom name)) rid
  | Approve rid caller => r ← approve_access_request state rid caller; mret (Some r)
  end.

(** As long as items keep their policies, every request stays one that was
    opened for its item, however gates and approvals interleave: a request can
    only be stray in another domain than its own. *)
Theorem requests_follow_policies {P : Primitives} {PF : Platform} state pol calls w w' ps' :
  follows pol (requests (db w)) -> pool_steps (w, workflow_call state pol <$> calls) (w', ps') ->
  follows pol (requests (db w')).
Proof.
  intros Hw Hs.
  refine (proj1 (pool_safe (table_inv requests (follows pol)) _ _ (fun _ => True) w _ w' ps' Hw _ Hs)); [done..|].
  apply Forall_fmap, Forall_forall. intros [client kind dom name rid|rid caller] _; [apply threshold_gate_keeps|].
  apply safe_seq; [|done]. apply approve_safe. intros id c d r Hd _ _ _. apply follows_update; [done|]. by intros x.
Qed.

(** ** The properties *)

(** C4. Nothing but a quorum passes the K-of-N gate. When it lets a read
    through, as many distinct signatories of the row's policy as its threshold
    says each approved one live request that the caller had opened for this row,
    or granted in advance a usable grant matching the name. The one exception is
    a live request of the caller for the same name that was opened in another
    domain or under an older policy: the gate does not compare these, and then
    has the threshold, but of that request (when the header names it) and with
    its approvers. *)
Theorem threshold_needs_quorum {P : Primitives} {PF : Platform} state client kind dom name policy rid w w' :
  NoDup (r_id <$> requests (db w)) -> approvals_wf (requests (db w)) ->
  run (threshold_gate state client kind dom name policy rid) w = (Val None, w') ->
  row_quorum state (db w) (clock w) client kind dom name policy \/
  stray_quorum state (db w) (clock w) client kind dom name policy rid.
Proof. apply threshold_gate_quorum. Qed.

Record GateCall := MkGateCall {
  gc_client : AuthenticatedClient; gc_kind : string; gc_domain : string; gc_name : string; gc_policy : AccessPolicy;
}.

Definition gate_call `{Primitives} `{Platform} (state : AppState) (rid : string) (c : GateCall) : M (option Response) :=
  threshold_gate state (gc_client c) (gc_kind c) (gc_domain c) (gc_name c) (gc_policy c) (Some rid).

(** C5. An approved request is good for one read: however many reads present
    it at once, and however they interleave, at most one passes (none when it
    was already consumed). *)
Theorem request_single_use {P : Primitives} {PF : Platform} state rid calls w w' ps' :
  NoDup (r_id <$> requests (db w)) ->
  pool_steps (w, gate_call state rid <$> calls) (w', ps') ->
  (total pass_cost ps' <= 1)%nat /\
  ((forall r, r ∈ requests (db w) -> r_id r = rid -> r_consumed r <> None) -> total pass_cost ps' = 0%nat).
Proof.
  intros Hnd Hs.
  assert (total pass_cost ps' <= affected (unconsumed rid) (requests (db w)))%nat as Ht.
  { pose proof (pool_total (table_inv requests (fun _ => True)) (table_budget requests (affected (unconsumed rid)))
      ltac:(done) ltac:(done) ltac:(done) ltac:(done) pass_cost w (gate_call state rid <$> calls) w' ps' I) as H.
    destruct H as [_ H]; [|done|unfold table_budget in H; lia].
    apply Forall_fmap, Forall_forall. intros c _. apply threshold_gate_earns. }
  clear Hs. unfold affected, select in Ht. split.
  - etrans; [exact Ht|]. clear Ht. induction (requests (db w)) as [|r t IH]; [simpl; lia|].
    rewrite fmap_cons in Hnd. apply NoDup_cons in Hnd as [Hr Hnd]. simpl. destruct (unconsumed rid r) eqn:E; [|by apply IH].
    enough (List.filter (unconsumed rid) t = []) as -> by done.
    destruct (List.filter (unconsumed rid) t) as [|x l] eqn:Ex; [done|]. exfalso. apply Hr.
    assert (In x (List.filter (unconsumed rid) t)) as Hx by (rewrite Ex; by left).
    apply filter_In in Hx as [Hx Hu]. unfold unconsumed in E, Hu. bool_to_prop.
    apply list_elem_of_fmap. exists x. split; [congruence|by apply list_elem_of_In].
  - intros Hc. enough (List.filter (unconsumed rid) (requests (db w)) = []) as He by (rewrite He in Ht; simpl in Ht; lia).
    destruct (List.filter _ _) as [|x l] eqn:Ex; [done|]. exfalso.
    assert (In x (List.filter (unconsumed rid) (requests (db w)))) as Hx by (rewrite Ex; by left).
    apply filter_In in Hx as [Hx%list_elem_of_In Hu]. unfold unconsumed in Hu.
    apply andb_true_iff in Hu as [Hid%String.eqb_eq Hu%is_null_true]. by apply (Hc x).
Qed.

(** C20. However approvals interleave, a request's approvers stay distinct
    signatories of it, and an approval answered with success is on record from
    then on: concurrent approvers never overwrite one another. *)
Theorem approvals_never_lost {P : Primitives} {PF : Platform} state calls w w' ps' :
  NoDup (r_id <$> requests (db w)) -> approvals_wf (requests (db w)) ->
  pool_steps (w, (fun c : string * AuthenticatedClient => approve_access_request state c.1 c.2) <$> calls) (w', ps') ->
  approvals_wf (requests (db w')) /\
  (forall rid cid, approval_recorded rid cid (requests (db w)) -> approval_recorded rid cid (requests (db w'))) /\
  (forall rid caller v o v', run (approve_access_request state rid caller) v = (o, v') ->
     resp_status (respond o) = 200 -> approval_recorded rid (ac_id caller) (requests (db v'))).
Proof.
  intros Hnd Hwf Hs.
  assert (Hkeep : forall J : list Request -> Prop, J (requests (db w)) ->
    (forall rid caller d r, NoDup (r_id <$> requests d) -> J (requests d) ->
       first_row (fun x => r_id x =s? rid) (requests d) = Some r ->
       ac_id caller ∈ r_signatories r -> ac_id caller ∉ r_approvers r ->
       J (requests (set_approvers rid (r_approvers r ++ [ac_id caller]) d))) -> J (requests (db w'))).
  { intros J HJ Hstep.
    refine (proj2 (proj1 (pool_safe (table_inv requests (fun t => NoDup (r_id <$> t) /\ J t)) _ _ (fun _ => True)
              w _ w' ps' (conj Hnd HJ) _ Hs))); [done..|].
    apply Forall_fmap, Forall_forall. intros [rid caller] _.
    refine (approve_safe state (fun t => NoDup (r_id <$> t) /\ J t) _ rid caller).
    intros rid' caller' d r [Hn Hj] Hr Hsig Happ. rewrite set_approvers_ids. split; [done|]. by apply Hstep. }
  split; [|split; [intros rid cid Hrec|intros rid caller v o v'; apply approve_recorded]].
  - apply (Hkeep approvals_wf Hwf). intros rid caller d r Hn Hj. by apply approvals_wf_approve.
  - apply (Hkeep (approval_recorded rid cid) Hrec). intros rid' caller d r Hn Hj Hr _ _.
    exact (recorded_approve _ _ _ _ _ _ Hj Hr Hn).
Qed.

Section suffice.
Context {P : Primitives} {PF : Platform} (state : AppState).

Lemma pick_grants_complete name sigset seen rows g :
  g ∈ rows -> g_signatory g ∈ sigset -> g_signatory g ∉ seen -> grant_matches state name g = true ->
  g_signatory g ∈ (fst <$> pick_grants state name sigset seen rows).
Proof.
  intros Hg Hs Hn Hm. revert seen Hn. induction rows as [|x rows IH]; intros seen Hn; [by apply not_elem_of_nil in Hg|].
  simpl. apply elem_of_cons in Hg as [->|Hg].
  - rewrite bool_decide_true by done. rewrite bool_decide_false by done. simpl. rewrite Hm. rewrite fmap_cons. by left.
  - specialize (IH Hg). destruct (negb _ || _); [by apply IH|]. destruct (grant_matches state name x); [|by apply IH].
    rewrite fmap_cons. destruct (decide (g_signatory g = g_signatory x)) as [Heq|Hne]; [rewrite Heq; by left|].
    right. apply IH. set_solver.
Qed.

Lemma returns_consume l : returns (consume_grant_uses l).
Proof.
  unfold consume_grant_uses. induction l as [|x l IH]; [apply returns_ret|].
  apply returns_bind; [apply returns_ignore, returns_perform|]. intros _. exact IH.
Qed.

(** As many distinct endorsers give as many picks. *)
Lemma picks_length d now client kind dom name sigs (S : gset string) :
  (forall s, s ∈ S -> endorses state d now client kind dom name sigs s) ->
  (size S <= length (pick_grants state name (list_to_set sigs) ∅
     (order_by g_created (select (usable_grant (ac_id client) kind dom now) (grants d)))) <= length sigs)%nat.
Proof.
  intros HS. set (adv := pick_grants _ _ _ _ _). destruct (pick_grants_spec state name (list_to_set sigs) ∅
    (order_by g_created (select (usable_grant (ac_id client) kind dom now) (grants d)))) as [Hn Hin].
  fold adv in Hn, Hin. rewrite <- (size_fst adv Hn). split.
  - apply subseteq_size. intros s Hs. apply elem_of_list_to_set.
    destruct (HS s Hs) as (g & Hg & Hu & Hm & <- & Hsig). apply pick_grants_complete; [|set_solver|set_solver|done].
    by rewrite elem_of_order_by, elem_of_select.
  - trans (size (list_to_set sigs : gset string)).
    + apply subseteq_size. intros s ([x id] & -> & Hs)%elem_of_list_to_set%list_elem_of_fmap. by apply Hin in Hs as [? _].
    + clear. induction sigs as [|x l IH]; simpl; [done|].
      pose proof (size_union_alt ({[x]} : gset string) (list_to_set l)) as Hu. rewrite size_singleton in Hu.
      pose proof (subseteq_size (list_to_set l ∖ {[x]} : gset string) (list_to_set l) ltac:(set_solver)). lia.
Qed.
End suffice.

(** C39. Enough advance grants are enough: on a healthy database, when at least
    the threshold of distinct signatories hold usable grants matching the name,
    the gate passes without any live request. *)
Theorem advance_grants_suffice {P : Primitives} {PF : Platform} state client kind dom name policy (S : gset string) w :
  faults w = [] -> Z.of_nat (length (signatories policy)) < 2 ^ 31 ->
  (forall s, s ∈ S -> endorses state (db w) (clock w) client kind dom name (signatories policy) s) ->
  threshold_k policy <= Z.of_nat (size S) ->
  exists w', run (threshold_gate state client kind dom name policy None) w = (Val None, w').
Proof.
  intros Hf Hsz HS Hk. unfold threshold_gate. apply picks_length in HS as [Hlo Hhi].
  set (adv := pick_grants _ _ _ _ _) in *.
  destruct (returns_run _ w (returns_consume (map snd (take (usize_of_i32 (threshold_k policy)) adv)))) as (u & w1 & Hc).
  destruct (returns_run _ w1 (returns_audit (audit_hmac_key state) (metadata_enc_key state) (Some (ac_id client))
    (if kind =s? "file" then "file.read" else "read") (Some name) AuditOk (Some "approved via advance grants")))
    as (u' & w2 & Ha).
  exists w2. eapply run_then.
  { apply run_or_500. unfold advance_approvers. eapply run_try; [by apply run_query|]. reflexivity. }
  cbv beta iota. fold adv. rewrite (proj2 (Z.leb_le (threshold_k policy) (len_i32 adv))).
  - eapply run_then; [exact Hc|]. eapply run_then; [exact Ha|]. reflexivity.
  - unfold len_i32. rewrite wrap_i32_id by lia. lia.
Qed.

(** ** Witnesses *)

Definition toy_request (id domain name : string) (k : Z) (approvers : list string) : Request :=
  MkRequest id "c-alice" "secret" (Some domain) (toy_enc name)
    (name_id_hex (name_index_key toy_state) domain name) k ["c-bob"; "c-root"] approvers 0 (2000 * micros) None.

Definition toy_grant (id sig : string) : Grant :=
  MkGrant id sig "c-alice" "d-default" "secret" (toy_enc "db*") None 0 None (2000 * micros) 0 None.

Definition toy_policy : AccessPolicy := MkPolicy 2 ["c-bob"; "c-root"].

(** One live approval and one advance grant for [db/x]; a ready request for the
    same name in the other domain. *)
Definition quorum_world : World :=
  set_db (upd_requests (fun _ => [toy_request "req-1" "d-default" "db/x" 2 ["c-root"];
                                  toy_request "req-2" "d-other" "db/x" 1 ["c-root"]])
    (upd_grants (fun _ => [toy_grant "g-1" "c-bob"]) toy_db)) toy_world.

Definition toy_gate (w : World) (policy : AccessPolicy) (rid : option string) : outcome (option Response) * World :=
  run (threshold_gate toy_state alice "secret" "d-default" "db/x" policy rid) w.

(** A request approved for one domain also opens a secret of that name in
    another, and at the request's own threshold: with a request id the gate
    compares the requester, the kind and the name, but neither the domain nor
    the secret's policy. *)
Theorem request_crosses_domains :
  exists r, r ∈ requests (db quorum_world) /\ r_id r = "req-2" /\ r_domain r = Some "d-other" /\
    r_threshold r < threshold_k toy_policy /\
    (toy_gate (set_db (upd_grants (fun _ => []) (db quorum_world)) quorum_world) toy_policy (Some "req-2")).1 = Val None.
Proof.
  exists (toy_request "req-2" "d-other" "db/x" 1 ["c-root"]). split; [right; left|].
  do 3 (split; [done|]). vm_compute. reflexivity.
Qed.

Lemma quorum_ids : NoDup (r_id <$> requests (db quorum_world)).
Proof. apply (bool_decide_unpack _). vm_compute. exact I. Qed.

Lemma quorum_approvals : approvals_wf (requests (db quorum_world)).
Proof.
  intros r [-> |[-> |[]%not_elem_of_nil]%elem_of_cons]%elem_of_cons; cbn; (split; [apply NoDup_singleton|set_solver]).
Qed.

Lemma threshold_needs_quorum_witness :
  row_quorum toy_state (db quorum_world) (1000 * micros) alice "secret" "d-default" "db/x" toy_policy \/
  stray_quorum toy_state (db quorum_world) (1000 * micros) alice "secret" "d-default" "db/x" toy_policy (Some "req-1").
Proof.
  apply (threshold_needs_quorum toy_state alice "secret" "d-default" "db/x" toy_policy (Some "req-1") quorum_world
           (toy_gate quorum_world toy_policy (Some "req-1")).2).
  - exact quorum_ids.
  - exact quorum_approvals.
  - vm_compute. reflexivity.
Defined.

Definition toy_gate_call : GateCall := MkGateCall alice "secret" "d-default" "db/x" toy_policy.

Lemma request_single_use_witness :
  let s := interleave (replicate 9 0%nat ++ replicate 9 1%nat)
             (quorum_world, gate_call toy_state "req-1" <$> [toy_gate_call; toy_gate_call]) in
  total pass_cost s.2 = 1%nat /\ (total pass_cost s.2 <= 1)%nat.
Proof.
  intros s. split; [vm_compute; reflexivity|].
  apply (request_single_use toy_state "req-1" [toy_gate_call; toy_gate_call] quorum_world s.1 s.2 quorum_ids).
  rewrite <- surjective_pairing. apply interleave_steps.
Defined.

Lemma approvals_never_lost_witness :
  let s := interleave [0; 1; 1; 0; 0; 1]%nat (quorum_world,
             (fun c : string * AuthenticatedClient => approve_access_request toy_state c.1 c.2) <$>
               [("req-1", bob); ("req-2", bob)]) in
  approvals_wf (requests (db s.1)) /\ approval_recorded "req-1" "c-root" (requests (db s.1)).
Proof.
  intros s.
  destruct (approvals_never_lost toy_state [("req-1", bob); ("req-2", bob)] quorum_world s.1 s.2) as (Hwf & Hrec & _).
  - exact quorum_ids.
  - intros r Hr. cbn in Hr.
    do 2 (apply elem_of_cons in Hr as [->|Hr]; [split; [apply (bool_decide_unpack _); vm_compute; exact I|];
      intros ? ->%list_elem_of_singleton; right; left|]). by apply not_elem_of_nil in Hr.
  - rewrite <- surjective_pairing. apply interleave_steps.
  - split; [exact Hwf|]. apply Hrec. exists (toy_request "req-1" "d-default" "db/x" 2 ["c-root"]).
    split; [left|]. split; [done|left].
Defined.

Lemma advance_grants_suffice_witness :
  exists w', run (threshold_gate toy_state alice "secret" "d-default" "db/x" (MkPolicy 1 ["c-bob"; "c-root"]) None)
    quorum_world = (Val None, w').
Proof.
  apply (advance_grants_suffice toy_state alice "secret" "d-default" "db/x" (MkPolicy 1 ["c-bob"; "c-root"])
           ({["c-bob"]} : gset string) quorum_world).
  - reflexivity.
  - done.
  - intros s ->%elem_of_singleton. exists (toy_grant "g-1" "c-bob"). split; [left|].
    split; [vm_compute; reflexivity|]. split; [vm_compute; reflexivity|]. split; [done|left].
  - done.
Defined.
