(* ===== verification/ReadLimit.v ===== *)
(** Read limits, for any kind of row with a read counter. Class [Limited] is
    what the accounting needs to know of a row; secrets and files are its
    instances. The budget of a table is the number of reads its rows still
    allow; a claim takes one off it. *)
From S2P Require Import Prelude Store Effects Concurrency ServerBase.

Class Limited (R : Type) := {
  lim_id : R -> string;
  lim_cap : R -> option Z;          (* from the row's flags *)
  lim_count : R -> Z;
  lim_spent : R -> option Z;        (* the tombstone *)
  lim_bump : R -> R;                (* [read_count = read_count + 1] *)
  lim_bump_id x : lim_id (lim_bump x) = lim_id x;
  lim_bump_cap x : lim_cap (lim_bump x) = lim_cap x;
  lim_bump_count x : lim_count (lim_bump x) = lim_count x + 1;
  lim_bump_spent x : lim_spent (lim_bump x) = lim_spent x;
}.

(** [WHERE id = $1 AND exhausted_at IS NULL AND read_count < $2] *)
Definition claimable `{Limited R} (id : string) (m : Z) (x : R) : bool :=
  (lim_id x =s? id) && is_null (lim_spent x) && (lim_count x <? m).

Section budget.
Context {R : Type} `{Limited R} (r : string) (cap : Z).

(** Rows with this id carry the cap. *)
Definition capped (t : list R) : Prop := forall x, x ∈ t -> lim_id x = r -> lim_cap x = Some cap.

(** Reads a row still allows. *)
Definition reads_left (x : R) : nat :=
  if lim_id x =s? r then if is_null (lim_spent x) then Z.to_nat (cap - lim_count x) else 0%nat else 0%nat.

Fixpoint reads_budget (t : list R) : nat :=
  match t with [] => 0%nat | x :: t' => (reads_left x + reads_budget t')%nat end.

Lemma capped_update p u t :
  (forall x, lim_id (u x) = lim_id x /\ lim_cap (u x) = lim_cap x) -> capped t -> capped (update_where p u t).
Proof.
  intros Hu Ht x (x0 & Hx0 & ->)%elem_of_update_where Hid.
  destruct (Hu x0) as [Hi Hf]. destruct (p x0); [rewrite Hf; rewrite Hi in Hid|]; by apply Ht.
Qed.

Lemma capped_bump p t : capped t -> capped (update_where p lim_bump t).
Proof. apply capped_update. intros x. by rewrite lim_bump_id, lim_bump_cap. Qed.

Lemma capped_delete p t : capped t -> capped (delete_where p t).
Proof. intros Ht x [Hx _]%elem_of_delete_where. by apply Ht. Qed.

Lemma budget_update p u t :
  (forall x, p x = true -> (reads_left (u x) <= reads_left x)%nat) ->
  (reads_budget (update_where p u t) <= reads_budget t)%nat.
Proof.
  intros Hu. induction t as [|x t IH]; [done|]. simpl.
  specialize (Hu x). destruct (p x); [specialize (Hu eq_refl)|]; lia.
Qed.

Lemma budget_delete p t : (reads_budget (delete_where p t) <= reads_budget t)%nat.
Proof.
  unfold delete_where. induction t as [|x t IH]; [done|]. simpl. destruct (p x); simpl; lia.
Qed.

Lemma reads_left_spent x : lim_spent x <> None -> reads_left x = 0%nat.
Proof. unfold reads_left. destruct (lim_spent x); [|done]. intros _. by destruct (_ =s? _). Qed.

Lemma reads_left_other x : lim_id x <> r -> reads_left x = 0%nat.
Proof. intros Hx. unfold reads_left. by rewrite (proj2 (String.eqb_neq _ _) Hx). Qed.

(** The counter only ever lowers the budget. *)
Lemma reads_left_bump x : (reads_left (lim_bump x) <= reads_left x)%nat.
Proof.
  unfold reads_left. rewrite lim_bump_id, lim_bump_spent, lim_bump_count.
  destruct (lim_id x =s? r), (lim_spent x); simpl; lia.
Qed.

Lemma budget_bump p t : (reads_budget (update_where p lim_bump t) <= reads_budget t)%nat.
Proof. apply budget_update. intros x _. apply reads_left_bump. Qed.

(** A successful claim takes one read off the budget. *)
Lemma budget_claim t x :
  first_row (claimable r cap) t = Some x ->
  (reads_budget (update_where (claimable r cap) lim_bump t) + 1 <= reads_budget t)%nat.
Proof.
  assert (Hdec : forall x, claimable r cap x = true -> (reads_left (lim_bump x) + 1 <= reads_left x)%nat).
  { intros y [[Hid Hex]%andb_true_iff Hlt%Z.ltb_lt]%andb_true_iff.
    unfold reads_left. rewrite lim_bump_id, lim_bump_spent, lim_bump_count, Hid, Hex. lia. }
  unfold first_row, select. induction t as [|y t IH]; simpl; [done|]. destruct (claimable r cap y) eqn:E.
  - intros _. pose proof (Hdec y E). pose proof (budget_bump (claimable r cap) t). lia.
  - intros Hx%IH. lia.
Qed.

Lemma reads_budget_row t x :
  NoDup (lim_id <$> t) -> x ∈ t -> lim_id x = r -> (reads_budget t <= Z.to_nat (cap - lim_count x))%nat.
Proof.
  intros Hnd Hin Hid. assert (Hz : forall l, r ∉ lim_id <$> l -> reads_budget l = 0%nat).
  { induction l as [|y l IH]; [done|]. rewrite fmap_cons, not_elem_of_cons. intros [Hy Hl].
    simpl. rewrite IH by done. by rewrite reads_left_other by congruence. }
  induction t as [|y t IH]; [by apply not_elem_of_nil in Hin|].
  rewrite fmap_cons in Hnd. apply NoDup_cons in Hnd as [Hy Hnd]. simpl.
  apply elem_of_cons in Hin as [<-|Hin].
  - rewrite Hz by congruence. unfold reads_left. repeat case_match; lia.
  - rewrite reads_left_other; [by apply IH|].
    intros Hyr. apply Hy. rewrite Hyr, <- Hid. by apply list_elem_of_fmap_2.
Qed.

(** What a claim on row [id] with limit [m] earns. *)
Lemma claim_earns id m t :
  (id = r -> m = cap) ->
  match first_row (claimable id m) t with
  | Some _ => (reads_budget (update_where (claimable id m) lim_bump t) + (if id =s? r then 1 else 0)
               <= reads_budget t)%nat
  | None => update_where (claimable id m) lim_bump t = t
  end.
Proof.
  intros Hm. destruct (first_row _ t) as [x|] eqn:E; [|by apply update_where_none].
  destruct (String.eqb_spec id r) as [->|]; [rewrite Hm in * by done; by eapply budget_claim|].
  pose proof (budget_bump (claimable id m) t). lia.
Qed.
End budget.

(** ** Handlers as spenders *)

(** Outcomes that are no 200 cost nothing. *)
Definition closed {A} (Q : nat -> outcome A -> Prop) : Prop :=
  forall c, (forall resp, resp_status resp <> 200 -> Q c (Ret resp)) /\ (forall s e, Q c (Raise s e)).

Lemma pays_closed (cost : outcome Response -> nat) :
  (forall o, resp_status (respond o) <> 200 -> cost o = 0%nat) -> (forall e, cost (Raise 200 e) = 0%nat) ->
  closed (pays cost).
Proof.
  intros H Hr c. split; [intros resp Hs; unfold pays; by rewrite H by done; lia|].
  intros s e. unfold pays. destruct (Z.eq_dec s 200) as [->|]; [rewrite Hr|rewrite H by done]; lia.
Qed.

Lemma closed_then {A B} (Q : nat -> outcome B -> Prop) (k : nat -> A -> Prop) :
  closed Q ->
  closed (fun c o => match o with Val a => k c a | Ret r => Q c (Ret r) | Raise s e => Q c (Raise s e) end).
Proof. intros HQ c. apply (HQ c). Qed.

Section spenders.
Context {T : Set} (table : Db -> T) (I : T -> Prop) (b : T -> nat).

Abbreviation spends := (earns (table_inv table I) (table_budget table b)).

(** A phase that leaves the table alone. *)
Lemma spends_phase ps {A B} (Q : nat -> outcome B -> Prop) c (m : M A) (f : A -> M B) :
  closed Q -> (forall w w', frame ps w w' -> table (db w') = table (db w)) -> writes ps m -> refuses m ->
  (forall a, spends Q c (f a)) -> spends Q c (m ≫= f).
Proof.
  intros HQ Hp Hw Hr Hf. apply earns_bind. eapply earns_frame; [exact Hp|exact Hw|].
  eapply Leaves_mono, Hr. intros [a|resp|s e]; simpl; [by intros _; apply Hf|intros Hs; by apply HQ, not_200|intros _; apply HQ].
Qed.

(** A best-effort statement that costs nothing. *)
Lemma spends_exec {B} (Q : nat -> outcome B -> Prop) c (f : Z -> Db -> Db) (g : unit -> M B) :
  (forall now d, I (table d) -> I (table (f now d)) /\ (b (table (f now d)) <= b (table d))%nat) ->
  (forall a, spends Q c (g a)) -> spends Q c (ignore (exec f) ≫= g).
Proof.
  intros Hf Hg. apply earns_bind, earns_bind, earns_exec; [|exact Hf]. intros x. apply Hg.
Qed.

Lemma spends_query {A : Set} {B} (Q : nat -> outcome B -> Prop) c (f : Z -> Db -> A) (g : A -> M B) :
  closed Q -> (forall now d, I (table d) -> spends Q c (g (f now d))) -> spends Q c (or_500 (query f) ≫= g).
Proof.
  intros HQ Hg. apply earns_bind, earns_query; [apply (closed_then Q (fun c' a => spends Q c' (g a)) HQ)|exact Hg].
Qed.

Lemma spends_pure {E A B} (Q : nat -> outcome B -> Prop) c msg (x : result E A) (f : A -> M B) :
  closed Q -> (forall a, spends Q c (f a)) -> spends Q c (pure_500 msg x ≫= f).
Proof. intros HQ Hf. destruct x as [a|e]; [apply Hf|by apply HQ]. Qed.

(** Programs that keep the invariant and never raise the budget. *)
Definition no_gain (w w' : World) : Prop :=
  table_inv table I w -> table_inv table I w' /\ (table_budget table b w' <= table_budget table b w)%nat.

#[export] Instance no_gain_preorder : PreOrder no_gain.
Proof.
  split; [by intros w Hw|]. intros x y z Hxy Hyz Hx. destruct (Hxy Hx) as [Hy H1], (Hyz Hy) as [Hz H2].
  split; [done|lia].
Qed.

Definition idles {A} (m : M A) : Prop := Steps no_gain m.

Lemma idles_bind {A B} (m : M A) (f : A -> M B) : idles m -> (forall a, idles (f a)) -> idles (m ≫= f).
Proof. apply Steps_bind. Qed.

Lemma idles_try {E A B} (m : M (result E A)) (f : A -> M (result E B)) :
  idles m -> (forall a, idles (f a)) -> idles (try_bind m f).
Proof. intros Hm Hf. apply idles_bind; [done|]. intros [a|e]; [apply Hf|exact Logic.I]. Qed.

Lemma idles_writes ps {A} (m : M A) :
  (forall w w', frame ps w w' -> table (db w') = table (db w)) -> writes ps m -> idles m.
Proof.
  intros Ht. apply Steps_impl. intros w w' Hf. unfold no_gain, table_inv, table_budget. by rewrite (Ht w w' Hf).
Qed.

Lemma no_gain_fault w : no_gain w (next_fault w).2.
Proof. unfold next_fault. by destruct (faults w). Qed.

Lemma idles_sql {A : Set} (f : Z -> Db -> result SqlError (A * Db)) :
  (forall now d a d', I (table d) -> f now d = Ok (a, d') -> I (table d') /\ (b (table d') <= b (table d))%nat) ->
  idles (sql f).
Proof.
  intros Hf. split; [|intros; exact Logic.I]. intros w Hw. unfold statement.
  destruct (no_gain_fault w Hw) as [Hw1 Hb]. destruct (next_fault w) as [[] w1]; simpl in *; [done|].
  destruct (f (clock w1) (db w1)) as [[a d]|e] eqn:E; [|done]. destruct (Hf _ _ _ _ Hw1 E) as [Hi Hle].
  split; [done|]. unfold table_budget in *. simpl. lia.
Qed.

Lemma idles_exec (f : Z -> Db -> Db) :
  (forall now d, I (table d) -> I (table (f now d)) /\ (b (table (f now d)) <= b (table d))%nat) -> idles (exec f).
Proof. intros Hf. apply idles_sql. intros now d a d' Hd [= _ <-]. by apply Hf. Qed.

Lemma idles_transaction {E A : Set} inj (m : M (result E A)) : idles m -> idles (transaction_with inj m).
Proof.
  intros Hm. split; [|intros; exact Logic.I]. intros w Hw. unfold transact_with.
  destruct (no_gain_fault w Hw) as [Hw0 Hb0]. destruct (next_fault w) as [[] w0]; simpl in *; [done|].
  pose proof (Steps_run no_gain m w0 Hm Hw0) as [Hw1 Hb1]. destruct (run m w0) as [o w1]. simpl in *.
  destruct (no_gain_fault w1 Hw1) as [Hw2 Hb2]. destruct (next_fault w1) as [[] w2]; simpl in *;
    destruct o as [[a|e]|r|s e]; simpl; split; unfold table_inv, table_budget in *; simpl; done || lia.
Qed.

Lemma spends_idle {A B} (Q : nat -> outcome B -> Prop) c (m : M A) (f : A -> M B) :
  closed Q -> idles m -> refuses m -> (forall a, spends Q c (f a)) -> spends Q c (m ≫= f).
Proof.
  intros HQ Hm Hr Hf. apply earns_bind, earns_leaves; [exact Hm|].
  eapply Leaves_mono, Hr. intros [a|resp|s e]; simpl; [by intros _; apply Hf|intros Hs; by apply HQ, not_200|intros _; apply HQ].
Qed.
End spenders.
