(* ===== verification/Secrets.v ===== *)
(** The string-secret endpoints of [src/src/server.rs]: [store_data],
    [retrieve_data], [delete_data], [list_resources] and [cleanup_secrets]. Each
    handler is cut into the phases its body goes through. *)
From S2P Require Import Prelude AccessRules Crypto Store Effects ServerBase AuditLog Auth Threshold.

Record StoreRequest := MkStore {
  sr_resource_name : string;
  sr_data : string;
  sr_flags : option ResourceFlags;
  sr_access_policy : option AccessPolicy;
  sr_overwrite : bool;
  sr_external : option string;
}.

Definition flags_json (f : ResourceFlags) : Json :=
  JObj [("mfa_required", JBool (mfa_required f)); ("delete_on_read", JBool (delete_on_read f));
        ("max_reads", opt_json JNum (max_reads f)); ("rotate_on_read", JBool (rotate_on_read f));
        ("preserve_on_cleanup", JBool (preserve_on_cleanup f)); ("no_overwrite", JBool (no_overwrite f))].

Section secrets.
Context {P : Primitives} {PF : Platform} (state : AppState).

Abbreviation mek := (metadata_enc_key state).
Abbreviation nik := (name_index_key state).
Abbreviation log := (audit (audit_hmac_key state) (metadata_enc_key state)).

(** ** Storing *)

(** The opaque client envelope, if any. *)
Definition store_external (req : StoreRequest) : M (option bytes) :=
  match sr_external req with
  | None => mret None
  | Some b64 =>
      match b64_decode b64 with
      | None => raise 400 "external envelope is not valid base64"
      | Some [] => reply (err 400 "validation_error" "external envelope cannot be empty")
      | Some bytes => mret (Some bytes)
      end
  end.

Definition store_validate (req : StoreRequest) (client : AuthenticatedClient) : M (option bytes) :=
  if sr_resource_name req =s? "" then
    _ ← log (Some (ac_id client)) "store" None AuditError (Some "empty resource_name");
    reply (err 400 "validation_error" "resource_name cannot be empty")
  else
    external_blob ← store_external req;
    if is_null external_blob && (sr_data req =s? "") then
      _ ← log (Some (ac_id client)) "store" (Some (sr_resource_name req)) AuditError (Some "empty data");
      reply (err 400 "validation_error" "data cannot be empty")
    else mret external_blob.

(** Immutability and overwriting, against the row already holding the name. *)
Definition store_conflicts (req : StoreRequest) (client : AuthenticatedClient) (existed : option Secret) : M unit :=
  match existed with
  | None => mret tt
  | Some row =>
      if no_overwrite (s_flags row) then
        _ ← log (Some (ac_id client)) "create" (Some (sr_resource_name req)) AuditDenied
              (Some "immutable: no_overwrite set");
        reply (err 409 "immutable" ("'" +:+ sr_resource_name req
          +:+ "' is immutable (no_overwrite) and cannot be replaced; delete it first"))
      else if negb (sr_overwrite req) then
        _ ← log (Some (ac_id client)) "create" (Some (sr_resource_name req)) AuditDenied
              (Some "already exists; overwrite not requested");
        reply (err 409 "already_exists" ("'" +:+ sr_resource_name req
          +:+ "' already exists; set overwrite=true to replace it"))
      else mret tt
  end.

(** The ACL decision a handler needs, or its 403. *)
Definition authorize (client : AuthenticatedClient) (domain_id name : string) (action : AclAction) : M AclDecision :=
  decision ← or_500 (acl_check mek client domain_id name action);
  if is_allowed decision then mret decision
  else
    _ ← log (Some (ac_id client)) (action_name action) (Some name) AuditDenied None;
    reply (err 403 "forbidden" ("not permitted to " +:+ action_name action +:+ " '" +:+ name +:+ "'")).

(** [keys.serialize()] *)
Definition serialize_keys : M (CryptoResult string) :=
  salt ← draw SALT_LEN; now ← utc_now;
  mret (serialize key_json salt (now / micros) (app_keys state)).

(** [(layer1, layer2, wrapped)] *)
Definition store_layers (req : StoreRequest) (external_blob : option bytes) : M (bytes * bytes * string) :=
  match external_blob with
  | Some _ => mret ([], [], "")
  | None =>
      primary ← pure_500 crypto_msg (handle (secret_layer1 (app_keys state)));
      secondary ← pure_500 crypto_msg (handle (secret_layer2 (app_keys state)));
      r1 ← seal_envelope (as_bytes (sr_data req)) primary;
      l1 ← pure_500 crypto_msg r1;
      r2 ← seal_envelope l1 secondary;
      l2 ← pure_500 crypto_msg r2;
      rw ← serialize_keys;
      w ← pure_500 crypto_msg rw;
      mret (l1, l2, w)
  end.

(** The server's own AEAD around the opaque envelope. *)
Definition store_at_rest (external_blob : option bytes) : M (option bytes) :=
  match external_blob with
  | Some b => c ← str_500 (enc_field mek b); mret (Some c)
  | None => mret None
  end.

Record Sealed := MkSealed {
  sl_layer1 : bytes; sl_layer2 : bytes; sl_wrapped : string; sl_external : bool;
  sl_at_rest : option bytes; sl_method : string;
}.

Definition store_seal (req : StoreRequest) (external_blob : option bytes) : M Sealed :=
  '(layer1, layer2, wrapped) ← store_layers req external_blob;
  let is_external := negb (is_null external_blob) in
  external_at_rest ← store_at_rest external_blob;
  let enc_method := if is_external then "client-side (external) + server at-rest" else "AES-256-GCM (2-layer)" in
  mret (MkSealed layer1 layer2 wrapped is_external external_at_rest enc_method).

(** The UPDATE of an overwrite: only the ciphertext columns. *)
Definition overwrite_secret (id : string) (x : Sealed) (now : Z) : Db -> Db :=
  upd_secrets (update_where (fun s => s_id s =s? id) (fun s =>
    MkSecret (s_id s) (s_name_enc s) (s_name_id s) (s_domain s) (sl_layer1 x) (sl_layer2 x) (sl_wrapped x)
      (sl_external x) (sl_at_rest x) (s_flags s) (s_read_count s) (s_policy s) (s_exhausted s) (s_created s)
      now (sl_method x))).

Definition store_response (id : string) (req : StoreRequest) (now : Z) (x : Sealed) (status : string) : Json :=
  JObj [("resource_id", JStr id); ("resource_name", JStr (sr_resource_name req));
        ("created_at", JStr (fmt_rfc3339 now)); ("encryption_method", JStr (sl_method x));
        ("status", JStr status)].

Definition policy_check (p : option AccessPolicy) : M unit :=
  match p with
  | None => mret tt
  | Some p =>
      if (threshold_k p <? 1) || (Z.of_nat (length (signatories p)) <? threshold_k p)
      then reply (err 400 "validation_error" "threshold_k must be 1..=signatories.len()")
      else if (length (signatories p) =? 0)%nat
      then reply (err 400 "validation_error" "signatories list must not be empty")
      else mret tt
  end.

Definition client_id_of (name_id : string) (d : Db) : option string :=
  option_map c_id (first_row (fun c => c_name_id c =s? name_id) (clients d)).

(** Names to ids, one lookup each. *)
Fixpoint signatory_ids (names : list string) : M (list string) :=
  match names with
  | [] => mret []
  | name :: rest =>
      row ← or_500 (query (fun _ => client_id_of (client_name_id_hex nik name)));
      match row with
      | Some cid => ids ← signatory_ids rest; mret (cid :: ids)
      | None => reply (err 400 "unknown_signatory" ("signatory '" +:+ name +:+ "' is not a known client"))
      end
  end.

Definition policy_ids (p : option AccessPolicy) : M (option AccessPolicy) :=
  match p with
  | None => mret None
  | Some p => ids ← signatory_ids (signatories p); mret (Some (MkPolicy (threshold_k p) ids))
  end.

(** [INSERT]: PRIMARY KEY and UNIQUE (domain_id, name_id). *)
Definition insert_secret (s : Secret) (d : Db) : result SqlError (unit * Db) :=
  if existsb (fun x => (s_id x =s? s_id s)
                       || ((s_domain x =s? s_domain s) && (s_name_id x =s? s_name_id s))) (secrets d)
  then Err SqlUnique
  else Ok (tt, upd_secrets (insert_row s) d).

Definition store_insert (req : StoreRequest) (domain_id name_id : string) (x : Sealed) (now : Z) : M Json :=
  new_id ← new_id 32;
  let flags := default default_flags (sr_flags req) in
  _ ← policy_check (sr_access_policy req);
  policy ← policy_ids (sr_access_policy req);
  resource_name_enc ← str_500 (enc_str mek (sr_resource_name req));
  _ ← or_500 (sql (fun _ => insert_secret
        (MkSecret new_id resource_name_enc name_id domain_id (sl_layer1 x) (sl_layer2 x) (sl_wrapped x)
           (sl_external x) (sl_at_rest x) flags 0 policy None now now (sl_method x))));
  mret (store_response new_id req now x "stored").

Definition find_named (domain_id name_id : string) (d : Db) : option Secret :=
  first_row (fun s => (s_domain s =s? domain_id) && (s_name_id s =s? name_id)) (secrets d).

Definition store_data (req : StoreRequest) (q : DomainQuery) (client : AuthenticatedClient) : M Response :=
  external_blob ← store_validate req client;
  '(domain_id, _) ← or_reply (resolve_and_gate_domain state client q);
  let req_name_id := name_id_hex nik domain_id (sr_resource_name req) in
  existed ← or_500 (query (fun _ => find_named domain_id req_name_id));
  _ ← store_conflicts req client existed;
  let action := if is_null existed then Create else Update in
  decision ← authorize client domain_id (sr_resource_name req) action;
  sealed ← store_seal req external_blob;
  now ← utc_now;
  response ← match existed with
             | Some row =>
                 _ ← or_500 (exec (fun _ => overwrite_secret (s_id row) sealed now));
                 mret (store_response (s_id row) req now sealed "updated")
             | None => store_insert req domain_id req_name_id sealed now
             end;
  _ ← acl_record_use decision;
  _ ← log (Some (ac_id client)) (action_name action) (Some (sr_resource_name req)) AuditOk None;
  mret (json_response 201 response).

(** ** Retrieving *)

(** By resource id, or by the keyed hash of the name. *)
Definition find_secret (domain_id resource_id name_id : string) (d : Db) : option Secret :=
  first_row (fun s => (s_domain s =s? domain_id) && ((s_id s =s? resource_id) || (s_name_id s =s? name_id)))
    (secrets d).

Definition lookup_secret (action resource_id domain_id : string) (client : AuthenticatedClient) : M Secret :=
  let name_id := name_id_hex nik domain_id resource_id in
  row ← or_500 (query (fun _ => find_secret domain_id resource_id name_id));
  match row with
  | Some s => mret s
  | None =>
      _ ← log (Some (ac_id client)) action (Some resource_id) AuditNotFound None;
      reply (err 404 "not_found" "resource not found")
  end.

(** Tombstones, and the early refusal on the snapshot of the counter. *)
Definition retrieve_spent (res_name : string) (s : Secret) (client : AuthenticatedClient) : M unit :=
  match s_exhausted s with
  | Some ts =>
      _ ← log (Some (ac_id client)) "read" (Some res_name) AuditDenied
            (Some "tombstoned: data was scrubbed at exhaustion");
      reply (err 410 "exhausted" ("'" +:+ res_name +:+ "' was exhausted at " +:+ fmt_iso ts
                                  +:+ " and its data has been scrubbed"))
  | None =>
      match max_reads (s_flags s) with
      | Some max =>
          if max <=? s_read_count s then
            _ ← log (Some (ac_id client)) "read" (Some res_name) AuditDenied (Some "max_reads exhausted");
            reply (err 403 "max_reads" ("'" +:+ res_name +:+ "' has reached its max_reads (" +:+ show_Z max +:+ ")"))
          else mret tt
      | None => mret tt
      end
  end.

Definition retrieve_threshold (domain_id res_name : string) (s : Secret) (h : Headers)
    (client : AuthenticatedClient) : M unit :=
  match s_policy s with
  | Some policy =>
      refused ← threshold_gate state client "secret" domain_id res_name policy (h_request_id h);
      match refused with Some resp => reply resp | None => mret tt end
  | None => mret tt
  end.

(** [action] is the name the audit row carries. *)
Definition mfa_gate (required : bool) (action res_name : string) (h : Headers) (client : AuthenticatedClient) : M unit :=
  if required then
    match h_mfa h with
    | None =>
        _ ← log (Some (ac_id client)) action (Some res_name) AuditDenied (Some "missing MFA");
        reply (err 401 "mfa_required" "this resource requires X-Blackbook-MFA <code>")
    | Some code =>
        kek_bytes ← mfa_kek state;
        r ← verify_totp kek_bytes (ac_id client) code;
        good ← pure_500 auth_msg r;
        if good : bool then mret tt
        else
          _ ← log (Some (ac_id client)) action (Some res_name) AuditDenied (Some "MFA verification failed");
          reply (err 401 "mfa_failed" "invalid TOTP code")
    end
  else mret tt.

(** The tightest of [max_reads] and one for [delete_on_read]. *)
Definition read_cap (f : ResourceFlags) : option Z :=
  match max_reads f, delete_on_read f with
  | Some m, true => Some (Z.min m 1)
  | Some m, false => Some m
  | None, true => Some 1
  | None, false => None
  end.

(** [read_count] is a BIGINT: 2^63 reads are out of reach. *)
Definition bump_read (s : Secret) : Secret :=
  MkSecret (s_id s) (s_name_enc s) (s_name_id s) (s_domain s) (s_layer1 s) (s_layer2 s) (s_wrapped s)
    (s_external s) (s_envelope s) (s_flags s) (s_read_count s + 1) (s_policy s) (s_exhausted s) (s_created s)
    (s_updated s) (s_method s).

(** [UPDATE ... WHERE exhausted_at IS NULL AND read_count < cap RETURNING read_count] *)
Definition claim_read (id : string) (cap : Z) (d : Db) : option Z * Db :=
  let hit s := (s_id s =s? id) && is_null (s_exhausted s) && (s_read_count s <? cap) in
  (option_map (fun s => s_read_count s + 1) (first_row hit (secrets d)),
   upd_secrets (update_where hit bump_read) d).

Definition retrieve_claim (res_name : string) (s : Secret) (client : AuthenticatedClient) : M (option Z) :=
  match read_cap (s_flags s) with
  | Some cap =>
      claimed ← or_500 (sql (fun _ d => Ok (claim_read (s_id s) cap d)));
      match claimed with
      | Some c => mret (Some c)
      | None =>
          _ ← log (Some (ac_id client)) "read" (Some res_name) AuditDenied (Some "read limit reached (atomic claim)");
          reply (err 403 "max_reads" ("'" +:+ res_name +:+ "' has reached its read limit"))
      end
  | None =>
      _ ← ignore (exec (fun _ => upd_secrets (update_where (fun x => s_id x =s? s_id s) bump_read)));
      mret None
  end.

(** [(data, envelope)] *)
Definition retrieve_payload (s : Secret) : M (string * option string) :=
  if s_external s then
    let at_rest := default [] (s_envelope s) in
    env ← pure_500 id (dec_field mek at_rest);
    mret ("", Some (b64_encode env))
  else
    primary ← pure_500 crypto_msg (handle (secret_layer1 (app_keys state)));
    secondary ← pure_500 crypto_msg (handle (secret_layer2 (app_keys state)));
    dec_l2 ← pure_500 crypto_msg (decrypt_aes_gcm (s_layer2 s) secondary);
    plain ← pure_500 crypto_msg (decrypt_aes_gcm dec_l2 primary);
    plain ← pure_500 id (ok_or "decrypted data is not UTF-8" (from_utf8 plain));
    mret (plain, None).

(** The final allowed read scrubs the crypto material in place. *)
Definition scrub_secret (now : Z) (s : Secret) : Secret :=
  MkSecret (s_id s) (s_name_enc s) (s_name_id s) (s_domain s) [] [] "" (s_external s) None (s_flags s)
    (s_read_count s) (s_policy s) (Some now) (s_created s) (s_updated s) (s_method s).

Definition retrieve_teardown (s : Secret) (new_count : option Z) : M (option string) :=
  let reached_max := from_option (fun m => from_option (fun c => m <=? c) false new_count) false
                       (max_reads (s_flags s)) in
  if delete_on_read (s_flags s) then
    _ ← ignore (exec (fun _ => upd_secrets (delete_where (fun x => s_id x =s? s_id s))));
    mret (Some "consumed by delete_on_read")
  else if reached_max then
    _ ← ignore (exec (fun now => upd_secrets (update_where (fun x => s_id x =s? s_id s) (scrub_secret now))));
    mret (Some "tombstoned: max_reads reached on this read")
  else mret None.

Definition retrieve_response (s : Secret) (res_name data : string) (envelope : option string) : Json :=
  JObj ([("resource_id", JStr (s_id s)); ("resource_name", JStr res_name); ("data", JStr data);
         ("created_at", JStr (fmt_text (s_created s))); ("updated_at", JStr (fmt_text (s_updated s)));
         ("external", JBool (s_external s))]
        ++ match envelope with Some e => [("envelope", JStr e)] | None => [] end).

Definition retrieve_data (resource_id : string) (q : DomainQuery) (h : Headers) (client : AuthenticatedClient) :
    M Response :=
  '(domain_id, _) ← or_reply (resolve_and_gate_domain state client q);
  s ← lookup_secret "read" resource_id domain_id client;
  res_name ← pure_500 id (dec_str mek (s_name_enc s));
  decision ← authorize client domain_id res_name Read;
  _ ← retrieve_spent res_name s client;
  _ ← retrieve_threshold domain_id res_name s h client;
  _ ← mfa_gate (mfa_required (s_flags s)) "read" res_name h client;
  new_count ← retrieve_claim res_name s client;
  '(data_out, envelope_out) ← retrieve_payload s;
  post_note ← retrieve_teardown s new_count;
  _ ← acl_record_use decision;
  _ ← log (Some (ac_id client)) "read" (Some res_name) AuditOk post_note;
  mret (json_response 200 (retrieve_response s res_name data_out envelope_out)).

(** ** Deleting *)

Definition delete_data (resource_id : string) (confirm : bool) (q : DomainQuery) (client : AuthenticatedClient) :
    M Response :=
  if negb confirm then mret (err 400 "confirmation_required" "set confirm=true to delete")
  else
    '(domain_id, _) ← or_reply (resolve_and_gate_domain state client q);
    s ← lookup_secret "delete" resource_id domain_id client;
    resource_name ← pure_500 id (dec_str mek (s_name_enc s));
    decision ← authorize client domain_id resource_name Delete;
    _ ← or_500 (exec (fun _ => upd_secrets (delete_where (fun x => s_id x =s? s_id s))));
    _ ← acl_record_use decision;
    _ ← log (Some (ac_id client)) "delete" (Some resource_name) AuditOk None;
    now ← utc_now;
    mret (json_response 200 (JObj [("deleted", JBool true); ("resource_id", JStr resource_id);
                                   ("deleted_at", JStr (fmt_rfc3339 now))])).

(** ** Listing *)

Definition resource_item (name : string) (s : Secret) : Json :=
  let '(k, n) := policy_threshold (s_policy s) in
  JObj [("resource_id", JStr (s_id s)); ("resource_name", JStr name);
        ("created_at", JStr (fmt_text (s_created s))); ("updated_at", JStr (fmt_text (s_updated s)));
        ("exhausted_at", opt_json JStr (option_map fmt_iso (s_exhausted s)));
        ("external", JBool (s_external s)); ("read_count", JNum (s_read_count s));
        ("flags", flags_json (s_flags s)); ("threshold_k", opt_json JNum k);
        ("signatory_count", opt_json (fun n => JNum (Z.of_nat n)) n)].

(** The loop: rows that do not decrypt, or that the caller may not read, are
    left out. *)
Fixpoint list_items (domain_id : string) (client : AuthenticatedClient) (rows : list Secret) : M (list Json) :=
  match rows with
  | [] => mret []
  | s :: rest =>
      match dec_str mek (s_name_enc s) with
      | Err _ => list_items domain_id client rest
      | Ok name =>
          allowed ← (if is_admin client then mret true
                     else dec ← or_500 (acl_check mek client domain_id name Read); mret (is_allowed dec));
          others ← list_items domain_id client rest;
          mret (if allowed : bool then resource_item name s :: others else others)
      end
  end.

Definition list_resources (q : DomainQuery) (client : AuthenticatedClient) : M Response :=
  '(domain_id, _) ← or_reply (resolve_and_gate_domain state client q);
  rows ← or_500 (query (fun _ d =>
    take 500 (order_by (fun s => - s_created s) (select (fun s => s_domain s =s? domain_id) (secrets d)))));
  items ← list_items domain_id client rows;
  _ ← log (Some (ac_id client)) "list" None AuditOk None;
  mret (json_response 200 (JObj [("resources", JArr items); ("count", JNum (Z.of_nat (length items)))])).

(** ** Cleaning up *)

Definition spent_secret (domain_id : string) (preserve : bool) (s : Secret) : bool :=
  (s_domain s =s? domain_id) && negb (is_null (s_exhausted s))
  && Bool.eqb (preserve_on_cleanup (s_flags s)) preserve.

Definition spent_page (domain_id : string) (preserve : bool) (p : Page) : bool :=
  (p_domain p =s? domain_id) && negb (is_null (p_exhausted p))
  && Bool.eqb (preserve_on_cleanup (p_flags p)) preserve.

Definition cleanup_one (client : AuthenticatedClient) (s : Secret) : M string :=
  let name := unwrap_or ("<encrypted:" +:+ s_id s +:+ ">") (dec_str mek (s_name_enc s)) in
  _ ← ignore (exec (fun _ => upd_secrets (delete_where (fun x => s_id x =s? s_id s))));
  _ ← log (Some (ac_id client)) "cleanup" (Some name) AuditOk (Some "tombstoned secret purged");
  mret name.

(** [pages JOIN contents]: the row and its blob's path. *)
Definition page_blobs (p : Page -> bool) (d : Db) : list (Page * string) :=
  concat (map (fun pg => map (fun c => (pg, co_path c))
                           (select (fun c => co_id c =s? p_content pg) (contents d)))
            (select p (pages d))).

(** [ON DELETE CASCADE] removes the page with its content row. *)
Definition delete_content (id : string) (d : Db) : Db :=
  upd_pages (delete_where (fun p => p_content p =s? id)) (upd_contents (delete_where (fun c => co_id c =s? id)) d).

Definition blob_path (storage_path : string) : string := "contents/" +:+ storage_path.

Definition cleanup_one_file (client : AuthenticatedClient) (row : Page * string) : M string :=
  let '(p, storage_path) := row in
  let name := unwrap_or ("<encrypted:" +:+ p_id p +:+ ">") (dec_str mek (p_name_enc p)) in
  _ ← ignore (exec (fun _ => delete_content (p_content p)));
  _ ← ignore (fs_remove (blob_path storage_path));
  _ ← log (Some (ac_id client)) "cleanup" (Some name) AuditOk (Some "tombstoned file purged");
  mret name.

Definition show_len {A} (l : list A) : string := show_Z (Z.of_nat (length l)).
Definition len_json {A} (l : list A) : Json := JNum (Z.of_nat (length l)).

Definition cleanup_secrets (q : DomainQuery) (client : AuthenticatedClient) : M Response :=
  _ ← or_reply (mret (require_admin client));
  '(domain_id, _) ← or_reply (resolve_and_gate_domain state client q);
  rows ← or_500 (query (fun _ d => select (spent_secret domain_id false) (secrets d)));
  preserved ← or_500 (query (fun _ d => Z.of_nat (affected (spent_secret domain_id true) (secrets d))));
  deleted_names ← map_each (cleanup_one client) rows;
  file_rows ← or_500 (query (fun _ => page_blobs (spent_page domain_id false)));
  files_preserved ← or_500 (query (fun _ d => Z.of_nat (affected (spent_page domain_id true) (pages d))));
  deleted_files ← map_each (cleanup_one_file client) file_rows;
  let total_preserved := preserved + files_preserved in
  _ ← log (Some (ac_id client)) "cleanup.summary" None AuditOk
        (Some ("secrets_deleted=" +:+ show_len deleted_names +:+ " files_deleted=" +:+ show_len deleted_files
               +:+ " preserved=" +:+ show_Z total_preserved));
  let all_names := deleted_names ++ map (fun n => "file:" +:+ n) deleted_files in
  mret (json_response 200 (JObj [
    ("deleted", JNum (Z.of_nat (length deleted_names + length deleted_files)));
    ("secrets_deleted", len_json deleted_names); ("files_deleted", len_json deleted_files);
    ("preserved", JNum total_preserved); ("names", strings_json all_names)])).
End secrets.
