(* ===== verification/SecretsLemmas.v ===== *)
(** How the secret endpoints of [Secrets.v] act: what each phase writes, which
    reads a row still allows, what a passing phase established. *)
From S2P Require Import Prelude AccessRules Crypto ToyPrimitives Store Effects Concurrency ServerBase ToyPlatform AuditLog Auth AuthProps Threshold ThresholdProps ReadLimit Secrets.

(** ** Helpers never answer 200 early *)

Section refusals.
Context {P : Primitives} {PF : Platform} (state : AppState).

Lemma refuses_acl_scan mek n l : refuses (acl_scan mek n l).
Proof. induction l; cbn [acl_scan]; solve_refuses. Qed.
#[local] Hint Resolve refuses_acl_scan : refuses.
Lemma refuses_acl_check mek c d n a : refuses (acl_check mek c d n a).
Proof. unfold acl_check. solve_refuses. Qed.
Lemma refuses_acl_record_use d : refuses (acl_record_use d).
Proof. unfold acl_record_use. solve_refuses. Qed.
Lemma refuses_resolve_domain k n : refuses (resolve_domain k n).
Proof. unfold resolve_domain. solve_refuses. Qed.
Lemma refuses_domain_member c d : refuses (domain_member c d).
Proof. unfold domain_member. solve_refuses. Qed.
#[local] Hint Resolve refuses_acl_check refuses_acl_record_use refuses_resolve_domain refuses_domain_member : refuses.

(** The only responses the gates hand back are refusals. *)
Lemma refuses_gate_domain c q : refuses (or_reply (resolve_and_gate_domain state c q)).
Proof. apply refuses_or_reply. unfold resolve_and_gate_domain, db_error. solve_leaves. Qed.

Lemma refuses_ids_to_names ids : refuses (ids_to_names state ids).
Proof. unfold ids_to_names. solve_refuses. Qed.
Lemma refuses_active_ids ids : refuses (active_ids ids).
Proof. induction ids; cbn [active_ids]; solve_refuses. Qed.
#[local] Hint Resolve refuses_ids_to_names refuses_active_ids : refuses.

Lemma refuses_create_access_request c k d n p : refuses (create_access_request state c k d n p).
Proof. unfold create_access_request, find_or_create_request, new_id. solve_refuses. Qed.
Lemma refuses_advance_approvers c k d n p : refuses (advance_approvers state c k d n p).
Proof. unfold advance_approvers. solve_refuses. Qed.
Lemma refuses_consume_grant_uses l : refuses (consume_grant_uses l).
Proof. unfold consume_grant_uses. solve_refuses. Qed.
#[local] Hint Resolve refuses_create_access_request refuses_advance_approvers refuses_consume_grant_uses : refuses.

Lemma threshold_gate_refusals c k d n p h : Leaves refusal_some (threshold_gate state c k d n p h).
Proof. unfold threshold_gate, gate_with_request, gate_without_request. solve_leaves. Qed.

Lemma refuses_retrieve_threshold d n s h c : refuses (retrieve_threshold state d n s h c).
Proof.
  unfold retrieve_threshold. destruct (s_policy s) as [p|]; [|exact I].
  apply Leaves_bind. eapply Leaves_mono, threshold_gate_refusals. by intros [[r|]|r|? ?].
Qed.

Lemma refuses_lift_db {A} (m : M (result SqlError A)) : refuses m -> refuses (lift_db m).
Proof. intros H. by apply refuses_bind. Qed.

Lemma refuses_verify_totp kek c code : refuses (verify_totp kek c code).
Proof. unfold verify_totp. solve_refuses; apply refuses_lift_db; solve_refuses. Qed.
#[local] Hint Resolve refuses_verify_totp : refuses.

Lemma refuses_mfa_gate b a n h c : refuses (mfa_gate state b a n h c).
Proof. unfold mfa_gate, mfa_kek. solve_refuses. Qed.

Lemma refuses_authorize c d n a : refuses (authorize state c d n a).
Proof. unfold authorize. solve_refuses. Qed.

Lemma refuses_lookup_secret a r d c : refuses (lookup_secret state a r d c).
Proof. unfold lookup_secret. solve_refuses. Qed.

Lemma refuses_retrieve_spent n s c : refuses (retrieve_spent state n s c).
Proof. unfold retrieve_spent. solve_refuses. Qed.

Lemma refuses_retrieve_payload s : refuses (retrieve_payload state s).
Proof. unfold retrieve_payload. solve_refuses. Qed.
End refusals.

#[export] Hint Resolve refuses_acl_check refuses_acl_record_use refuses_gate_domain
  refuses_retrieve_threshold refuses_mfa_gate refuses_authorize refuses_lookup_secret refuses_retrieve_spent
  refuses_retrieve_payload : refuses.

(** ** What each phase writes *)

Section frames.
Context {P : Primitives} {PF : Platform} (state : AppState).

Lemma writes_authorize c d n a : writes [PAudits] (authorize state c d n a).
Proof. unfold authorize. solve_writes. Qed.
Lemma writes_lookup_secret a r d c : writes [PAudits] (lookup_secret state a r d c).
Proof. unfold lookup_secret. solve_writes. Qed.
Lemma writes_retrieve_spent n s c : writes [PAudits] (retrieve_spent state n s c).
Proof. unfold retrieve_spent. solve_writes. Qed.
Lemma writes_retrieve_threshold d n s h c :
  writes [PAudits; PRequests; PGrants] (retrieve_threshold state d n s h c).
Proof. unfold retrieve_threshold. solve_writes. Qed.
Lemma writes_mfa_gate b a n h c : writes [PAudits; PClients] (mfa_gate state b a n h c).
Proof. unfold mfa_gate. solve_writes. Qed.
Lemma writes_retrieve_claim n s c : writes [PAudits; PSecrets] (retrieve_claim state n s c).
Proof. unfold retrieve_claim, claim_read. solve_writes. Qed.
Lemma writes_retrieve_payload s : writes [] (retrieve_payload state s).
Proof. unfold retrieve_payload. solve_writes. Qed.
Lemma writes_retrieve_teardown s n : writes [PSecrets] (retrieve_teardown s n).
Proof. unfold retrieve_teardown. solve_writes. Qed.
End frames.

#[export] Hint Resolve writes_authorize writes_lookup_secret writes_retrieve_spent writes_retrieve_threshold
  writes_mfa_gate writes_retrieve_claim writes_retrieve_payload writes_retrieve_teardown : writes.

(** ** Counting the reads of one secret *)

#[export] Instance secret_limited : Limited Secret := {|
  lim_id := s_id; lim_cap s := read_cap (s_flags s); lim_count := s_read_count; lim_spent := s_exhausted;
  lim_bump := bump_read; lim_bump_id _ := eq_refl; lim_bump_cap _ := eq_refl; lim_bump_count _ := eq_refl;
  lim_bump_spent _ := eq_refl |}.

Section reads.
Context {P : Primitives} {PF : Platform} (state : AppState) (r : string) (cap : Z).

(** The response serves this secret. *)
Definition serves (resp : Response) : bool :=
  (resp_status resp =? 200) &&
  match resp_body resp with
  | JsonBody (JObj ((k, JStr id) :: _)) => (k =s? "resource_id") && (id =s? r)
  | _ => false
  end.

Definition served_count (o : outcome Response) : nat := if serves (respond o) then 1%nat else 0%nat.

Lemma served_closed : closed (pays served_count).
Proof.
  apply pays_closed; [|by intros e].
  intros o Ho. unfold served_count, serves. by rewrite (proj2 (Z.eqb_neq _ _) Ho).
Qed.

Abbreviation earns_reads := (earns (table_inv secrets (capped r cap)) (table_budget secrets (reads_budget r cap))).

Lemma earns_phase ps {A B} (Q : nat -> outcome B -> Prop) c (m : M A) (f : A -> M B) :
  closed Q -> bool_decide (PSecrets ∈ ps) = false -> writes ps m -> refuses m ->
  (forall a, earns_reads Q c (f a)) -> earns_reads Q c (m ≫= f).
Proof. intros HQ Hp. apply spends_phase; [done|]. intros w w' Hfr. exact (Hfr PSecrets Hp). Qed.

(** The claim earns the credit the answer costs. *)
Lemma earns_claim {B} (Q : nat -> outcome B -> Prop) n s client (f : option Z -> M B) :
  closed Q -> (s_id s = r -> read_cap (s_flags s) = Some cap) ->
  (forall x, earns_reads Q (if s_id s =s? r then 1 else 0)%nat (f x)) ->
  earns_reads Q 0 (retrieve_claim state n s client ≫= f).
Proof.
  intros HQ Hcap Hf. unfold retrieve_claim. destruct (read_cap (s_flags s)) as [m|].
  - apply earns_bind, earns_bind, earns_or_500, earns_sql; [by apply HQ|].
    intros now d Hd. unfold claim_read. cbv beta iota zeta. cbn [secrets upd_secrets].
    split; [exact (capped_bump (R:=Secret) r cap _ _ Hd)|].
    pose proof (claim_earns (R:=Secret) r cap (s_id s) m (secrets d) ltac:(intros Hid; specialize (Hcap Hid); congruence)) as Hb.
    unfold claimable in Hb. simpl in Hb. destruct (first_row _ (secrets d)) as [x|]; cbn [option_map].
    + eexists. split; [|apply Hf]. lia.
    + exists 0%nat. rewrite Hb. split; [lia|].
      apply (earns_phase [PAudits]); [by apply closed_then|reflexivity|solve_writes|solve_refuses|].
      intros _. by apply HQ.
  - apply earns_bind, spends_exec.
    + intros now d Hd. split; [exact (capped_bump (R:=Secret) r cap _ _ Hd)|exact (budget_bump (R:=Secret) r cap _ _)].
    + intros _. specialize (Hf None). destruct (String.eqb_spec (s_id s) r) as [Hid|]; [|exact Hf].
      by specialize (Hcap Hid).
Qed.

Lemma earns_teardown {B} (Q : nat -> outcome B -> Prop) c s n (f : option string -> M B) :
  (forall x, earns_reads Q c (f x)) -> earns_reads Q c (retrieve_teardown s n ≫= f).
Proof.
  intros Hf. apply earns_bind. unfold retrieve_teardown. destruct (delete_on_read _); [|destruct (from_option _ _ _)].
  - apply spends_exec; [|intros; apply Hf]. intros now d Hd. split; [exact (capped_delete (R:=Secret) r cap _ _ Hd)|apply (budget_delete (R:=Secret))].
  - apply spends_exec; [|intros; apply Hf]. intros now d Hd. split; [exact (capped_update (R:=Secret) r cap _ (scrub_secret now) _ (fun _ => conj eq_refl eq_refl) Hd)|].
    apply budget_update. intros y Hy. rewrite reads_left_spent; [lia|done].
  - apply Hf.
Qed.

Lemma earns_lookup {B} (Q : nat -> outcome B -> Prop) c act id dom client (f : Secret -> M B) :
  closed Q ->
  (forall s, (s_id s = r -> read_cap (s_flags s) = Some cap) -> earns_reads Q c (f s)) ->
  earns_reads Q c (lookup_secret state act id dom client ≫= f).
Proof.
  intros HQ Hf. apply earns_bind. unfold lookup_secret. apply spends_query; [by apply closed_then|].
  intros now d Hd. destruct (find_secret dom id _ d) as [s|] eqn:E.
  - apply Hf. unfold find_secret in E. apply first_row_Some in E as [Hin _]. by apply Hd.
  - apply (earns_phase [PAudits]); [by apply closed_then|reflexivity|solve_writes|solve_refuses|].
    intros _. by apply HQ.
Qed.

(** The whole handler pays for what it serves. *)
Lemma retrieve_data_earns id q h client :
  earns_reads (pays served_count) 0 (retrieve_data state id q h client).
Proof.
  pose proof served_closed as HQ. unfold retrieve_data.
  apply (earns_phase []); [done|reflexivity|solve_writes|solve_refuses|]. intros [dom nm].
  apply earns_lookup; [done|]. intros s Hs.
  apply spends_pure; [done|]. intros name.
  apply (earns_phase [PAudits]); [done|reflexivity|solve_writes|solve_refuses|]. intros dec.
  apply (earns_phase [PAudits]); [done|reflexivity|solve_writes|solve_refuses|]. intros _.
  apply (earns_phase [PAudits; PRequests; PGrants]); [done|reflexivity|solve_writes|solve_refuses|]. intros _.
  apply (earns_phase [PAudits; PClients]); [done|reflexivity|solve_writes|solve_refuses|]. intros _.
  apply earns_claim; [done|done|]. intros cnt.
  apply (earns_phase []); [done|reflexivity|solve_writes|solve_refuses|]. intros [data env].
  apply earns_teardown. intros note.
  apply (earns_phase [PAcls]); [done|reflexivity|solve_writes|solve_refuses|]. intros _.
  apply (earns_phase [PAudits]); [done|reflexivity|solve_writes|solve_refuses|]. intros _.
  unfold pays, served_count, serves; simpl. by destruct (s_id s =s? r).
Qed.
End reads.

(** ** Overwrites *)

Section immutable.
Context {P : Primitives} {PF : Platform} (state : AppState).

(** The rows that [no_overwrite] protects, as they stand. *)
Definition protected (row : Secret) (t : list Secret) : Prop :=
  row ∈ t /\ forall s, s ∈ t -> s_id s = s_id row -> no_overwrite (s_flags s) = true.

(** Any outcome will do; what matters is that the row stays. *)
Abbreviation spares row := (safe (table_inv secrets (protected row)) (fun _ => True)).

Lemma spares_phase ps {A B} row (m : M A) (f : A -> M B) :
  bool_decide (PSecrets ∈ ps) = false -> writes ps m -> (forall a, spares row (f a)) -> spares row (m ≫= f).
Proof.
  intros Hp Hm Hf. apply (kept_phase secrets _ ps); [|done..].
  intros w w' H. exact (H PSecrets Hp).
Qed.

Lemma writes_store_validate req c : writes [PAudits] (store_validate state req c).
Proof. unfold store_validate, store_external. solve_writes. Qed.
Lemma writes_store_conflicts req c x : writes [PAudits] (store_conflicts state req c x).
Proof. unfold store_conflicts. solve_writes. Qed.
Lemma writes_store_seal req b : writes [] (store_seal state req b).
Proof. unfold store_seal, store_layers, store_at_rest, serialize_keys. solve_writes. Qed.
Lemma writes_signatory_ids l : writes [] (signatory_ids state l).
Proof. induction l; cbn [signatory_ids]; solve_writes; done. Qed.
#[local] Hint Resolve writes_store_validate writes_store_conflicts writes_store_seal writes_signatory_ids : writes.
Lemma writes_policy_check p : writes [] (policy_check p).
Proof. unfold policy_check. solve_writes. Qed.
Lemma writes_policy_ids p : writes [] (policy_ids state p).
Proof. unfold policy_ids. solve_writes. Qed.
#[local] Hint Resolve writes_policy_check writes_policy_ids : writes.

Lemma protected_insert row x d d' :
  protected row (secrets d) -> insert_secret x d = Ok (tt, d') -> protected row (secrets d').
Proof.
  intros [Hin Hall]. unfold insert_secret. destruct (existsb _ _) eqn:E; [done|]. intros [= <-]. simpl.
  split; [by apply elem_of_insert_row; left|]. intros s Hs. apply elem_of_insert_row in Hs as [Hs| ->]; [by apply Hall|].
  intros Hid. exfalso. rewrite <- not_true_iff_false, existsb_exists in E. apply E. exists row.
  split; [by apply list_elem_of_In|]. by rewrite Hid, String.eqb_refl.
Qed.

Lemma spares_insert row req dom nid x now : spares row (store_insert state req dom nid x now).
Proof.
  unfold store_insert.
  apply (spares_phase []); [reflexivity|solve_writes|]. intros id.
  apply (spares_phase []); [reflexivity|solve_writes|]. intros _.
  apply (spares_phase []); [reflexivity|solve_writes|]. intros p.
  apply (spares_phase []); [reflexivity|solve_writes|]. intros n.
  apply kept_sql_500; [done|]. intros t d a d' Hp Hi. split; [|done]. destruct a. by eapply protected_insert.
Qed.

Lemma spares_overwrite row id x now d :
  id <> s_id row -> protected row (secrets d) -> protected row (secrets (overwrite_secret id x now d)).
Proof.
  intros Hne [Hin Hall]. simpl. split.
  - apply elem_of_update_where. exists row. split; [done|]. by rewrite (proj2 (String.eqb_neq _ _)) by congruence.
  - intros s (s0 & Hs0 & ->)%elem_of_update_where. destruct (s_id s0 =s? id); simpl; intros; by apply Hall.
Qed.

Lemma spares_update row id x t j :
  id <> s_id row -> spares row (_ ← or_500 (exec (fun _ => overwrite_secret id x t)); mret j : M Json).
Proof.
  intros Hid. apply kept_sql_500; [done|]. intros u d [] d' Hp [= <-]. split; [|done].
  by apply spares_overwrite.
Qed.

(** Storing never touches a protected row: the conflict check answers first. *)
Lemma store_data_spares row req q client : spares row (store_data state req q client).
Proof.
  unfold store_data.
  apply (spares_phase [PAudits]); [reflexivity|solve_writes|]. intros blob.
  apply (spares_phase []); [reflexivity|solve_writes|]. intros [dom nm].
  apply kept_query_500; [done|]. intros now d [_ Hall].
  assert (Hex : forall s, find_named dom (name_id_hex (name_index_key state) dom (sr_resource_name req)) d = Some s ->
                  s_id s = s_id row -> no_overwrite (s_flags s) = true).
  { intros s Hs. unfold find_named in Hs. apply first_row_Some in Hs as [Hs _]. by apply Hall. }
  destruct (find_named _ _ d) as [s|]; [specialize (Hex s eq_refl)|clear Hex].
  - destruct (decide (s_id s = s_id row)) as [Hid|Hid].
    + unfold store_conflicts. rewrite (Hex Hid). apply safe_bind.
      apply (kept_phase secrets _ [PAudits]); [intros ? ? H; exact (H PSecrets eq_refl)|solve_writes|done..].
    + apply (spares_phase [PAudits]); [reflexivity|solve_writes|]. intros _.
      apply (spares_phase [PAudits]); [reflexivity|solve_writes|]. intros dec.
      apply (spares_phase []); [reflexivity|solve_writes|]. intros x.
      apply (spares_phase []); [reflexivity|solve_writes|]. intros t.
      apply safe_bind. eapply safe_mono, spares_update; [|exact Hid].
      intros [j|resp|e m] _; cbn [then_safe]; [|done..].
      apply (spares_phase [PAcls]); [reflexivity|solve_writes|]. intros _.
      apply (spares_phase [PAudits]); [reflexivity|solve_writes|]. done.
  - apply (spares_phase [PAudits]); [reflexivity|solve_writes|]. intros _.
    apply (spares_phase [PAudits]); [reflexivity|solve_writes|]. intros dec.
    apply (spares_phase []); [reflexivity|solve_writes|]. intros x.
    apply (spares_phase []); [reflexivity|solve_writes|]. intros t.
    apply safe_bind. eapply safe_mono, spares_insert. intros [j|resp|s e] _; cbn [then_safe]; [|done..].
    apply (spares_phase [PAcls]); [reflexivity|solve_writes|]. intros _.
    apply (spares_phase [PAudits]); [reflexivity|solve_writes|]. done.
Qed.
End immutable.

(** ** Cleaning up *)

Section cleanup.
Context {P : Primitives} {PF : Platform} (state : AppState).

Definition unspent (s : Secret) : Prop := s_exhausted s = None \/ preserve_on_cleanup (s_flags s) = true.

(** The row, and no other row under its id is up for cleanup. *)
Definition retained (row : Secret) (t : list Secret) : Prop :=
  row ∈ t /\ forall s, s ∈ t -> s_id s = s_id row -> unspent s.

Abbreviation retains row := (safe (table_inv secrets (retained row)) (fun _ => True)).

Lemma retains_phase ps {A B} row (m : M A) (f : A -> M B) :
  bool_decide (PSecrets ∈ ps) = false -> writes ps m -> (forall a, retains row (f a)) -> retains row (m ≫= f).
Proof.
  intros Hp Hm Hf. apply (kept_phase secrets _ ps); [|done..]. intros w w' H. exact (H PSecrets Hp).
Qed.

Lemma retained_delete row id t : id <> s_id row -> retained row t -> retained row (delete_where (fun x => s_id x =s? id) t).
Proof.
  intros Hid [Hin Hall]. split.
  - apply elem_of_delete_where. split; [done|]. by rewrite (proj2 (String.eqb_neq _ _)) by congruence.
  - intros s [Hs _]%elem_of_delete_where. by apply Hall.
Qed.

Lemma retains_cleanup_one row client s : s_id s <> s_id row -> retains row (cleanup_one state client s).
Proof.
  intros Hs. unfold cleanup_one.
  apply kept_ignore; [intros now d; by apply retained_delete|]. intros _.
  apply (retains_phase [PAudits]); [reflexivity|solve_writes|done].
Qed.

Lemma writes_cleanup_one_file client row : writes [PPages; PContents; PFiles; PAudits] (cleanup_one_file state client row).
Proof. destruct row as [p path]. unfold cleanup_one_file. solve_writes. Qed.
#[local] Hint Resolve writes_cleanup_one_file : writes.

Lemma cleanup_secrets_retains row q client : retains row (cleanup_secrets state q client).
Proof.
  unfold cleanup_secrets.
  apply (retains_phase []); [reflexivity|solve_writes|]. intros _.
  apply (retains_phase []); [reflexivity|solve_writes|]. intros [dom nm].
  apply kept_query_500; [done|]. intros now d [_ Hall].
  assert (Hrows : Forall (fun s => s_id s <> s_id row) (select (spent_secret dom false) (secrets d))).
  { apply Forall_forall. intros s [Hin Hsp]%elem_of_select Hid. unfold spent_secret in Hsp.
    apply andb_true_iff in Hsp as [[_ Hex]%andb_true_iff Hpr].
    destruct (Hall s Hin Hid) as [He|He]; [by rewrite He in Hex|by rewrite He in Hpr]. }
  apply (retains_phase []); [reflexivity|solve_writes|]. intros preserved.
  apply safe_seq.
  { apply safe_map_each. eapply Forall_impl; [exact Hrows|]. intros s. apply retains_cleanup_one. }
  intros names.
  apply (retains_phase []); [reflexivity|solve_writes|]. intros files.
  apply (retains_phase []); [reflexivity|solve_writes|]. intros fp.
  apply (retains_phase [PPages; PContents; PFiles; PAudits]); [reflexivity|solve_writes|]. intros dfiles.
  apply (retains_phase [PAudits]); [reflexivity|solve_writes|]. done.
Qed.
End cleanup.

(** ** What a served read went through *)

Section served.
Context {P : Primitives} {PF : Platform} (state : AppState).

Lemma run_or_reply_Val {A} (m : M (result Response A)) w a w' :
  run (or_reply m) w = (Val a, w') -> run m w = (Val (Ok a), w').
Proof.
  unfold or_reply. rewrite run_bind. destruct (run m w) as [[[x|e]|r|s e] w1]; intros; by simplify_eq/=.
Qed.

Lemma run_reads {A} (m : M A) w o w' : writes [] m -> run m w = (o, w') -> db w' = db w /\ clock w' = clock w.
Proof. intros Hm H. destruct (reads_only m w o w' Hm H) as (? & _ & ?). done. Qed.

(** Passing the domain gate. *)
Lemma gate_domain_inv client q w dom nm w' :
  run (or_reply (resolve_and_gate_domain state client q)) w = (Val (dom, nm), w') ->
  db w' = db w /\ clock w' = clock w /\
  live_domain_id (domain_name_id_hex (name_index_key state) (DomainQuery_name q)) (db w) = Some dom /\
  (is_admin client = true \/ has_member (ac_id client) dom None (db w) = true).
Proof.
  intros H. apply run_or_reply_Val in H.
  pose proof (run_reads _ _ _ _ (writes_resolve_and_gate_domain state client q) H) as [Hd Hc].
  split; [done|]. split; [done|]. unfold resolve_and_gate_domain in H. run_inv.
  match goal with H : run (resolve_domain _ _) w = (Val ?r, ?v) |- _ =>
    pose proof (run_reads _ _ _ _ (writes_resolve_domain _ _) H) as [Hd1 Hc1]; rename H into Hres; destruct r as [[id|]|e] end;
    run_inv; try done.
  unfold resolve_domain in Hres. run_inv.
  match goal with H : run (domain_member _ _) _ = (Val ?r, _) |- _ => rename H into Hm; destruct r as [[]|e] end;
    run_inv; try done.
  match goal with H : Ok (?i, _) = Ok _ |- _ => idtac | _ => idtac end.
  unfold domain_member in Hm. destruct (is_admin client) eqn:Ea.
  - simplify_eq/=. split; [done|by left].
  - run_inv. simplify_eq/=. split; [done|]. right. done.
Qed.

Lemma authorize_inv client dom name act w dec w' :
  run (authorize state client dom name act) w = (Val dec, w') ->
  db w' = db w /\ clock w' = clock w /\ is_allowed dec = true /\
  run (acl_check (metadata_enc_key state) client dom name act) w = (Val (Ok dec), w').
Proof.
  intros H. unfold authorize in H. run_inv.
  match goal with H : run (acl_check _ _ _ _ _) w = (Val (Ok ?d), ?v) |- _ =>
    pose proof (run_reads _ _ _ _ (writes_acl_check _ _ _ _ _) H) as [Hd Hc]; destruct (is_allowed d) eqn:E end;
    run_inv; done.
Qed.

Lemma lookup_secret_inv act id dom client w s w' :
  run (lookup_secret state act id dom client) w = (Val s, w') ->
  db w' = db w /\ clock w' = clock w /\ find_secret dom id (name_id_hex (name_index_key state) dom id) (db w) = Some s.
Proof.
  intros H. unfold lookup_secret in H. run_inv. destruct (find_secret _ _ _ _) as [s'|] eqn:E; run_inv; done.
Qed.

Lemma retrieve_spent_inv name s client w w' :
  run (retrieve_spent state name s client) w = (Val tt, w') ->
  w' = w /\ s_exhausted s = None /\ forall m, max_reads (s_flags s) = Some m -> s_read_count s < m.
Proof.
  unfold retrieve_spent. intros H. destruct (s_exhausted s); [by run_inv|].
  destruct (max_reads (s_flags s)) as [m|]; [|by run_inv].
  destruct (Z.leb_spec m (s_read_count s)); [by run_inv|]. run_inv.
  split; [done|]. split; [done|]. by intros ? [= <-].
Qed.

(** The second factor presented with the request is accepted. *)
Definition mfa_passed (d : Db) (now : Z) (client : AuthenticatedClient) (required : bool) (h : Headers) : Prop :=
  required = true ->
  exists code kek, h_mfa h = Some code /\ handle (mfa_secret_kek (app_keys state)) = Ok kek /\
    totp_accepts d now kek (ac_id client) code.

Lemma retrieve_threshold_inv client dom name s h w w' p :
  NoDup (r_id <$> requests (db w)) -> approvals_wf (requests (db w)) -> s_policy s = Some p ->
  run (retrieve_threshold state dom name s h client) w = (Val tt, w') ->
  quorum state (db w) (clock w) client "secret" dom name p (h_request_id h).
Proof.
  unfold retrieve_threshold. intros Hnd Hwf -> H. apply run_bind_Val in H as ([r|] & w1 & Hg & H); [done|].
  by eapply threshold_gate_quorum.
Qed.

Lemma run_pure_500 {E A} msg (r : result E A) w a w' :
  run (pure_500 msg r) w = (Val a, w') -> r = Ok a /\ w' = w.
Proof. destruct r; simpl; intros; by simplify_eq. Qed.

Lemma mfa_gate_inv client act name required h w w' :
  run (mfa_gate state required act name h client) w = (Val tt, w') ->
  mfa_passed (db w) (clock w) client required h.
Proof.
  unfold mfa_gate, mfa_passed, mfa_kek. intros H ->.
  destruct (h_mfa h) as [code|]; [|by run_inv].
  apply run_bind_Val in H as (kek & w1 & Hk & H). apply run_pure_500 in Hk as [Hk ->].
  apply run_bind_Val in H as (r & w2 & Hv & H). apply run_bind_Val in H as (good & w3 & Hg & H).
  apply run_pure_500 in Hg as [-> ->]. destruct good; [|by run_inv].
  exists code, kek. split; [done|]. split; [done|]. by eapply verify_totp_sound.
Qed.

(** Everything a 200 of [retrieve_data] guarantees about its row, in the state
    the request found. *)
Definition cleared (w : World) (q : DomainQuery) (h : Headers) (client : AuthenticatedClient) (id : string)
    (s : Secret) (name : string) : Prop :=
  let dom := s_domain s in
  live_domain_id (domain_name_id_hex (name_index_key state) (DomainQuery_name q)) (db w) = Some dom /\
  (is_admin client = true \/ has_member (ac_id client) dom None (db w) = true) /\
  s ∈ secrets (db w) /\ (s_id s = id \/ s_name_id s = name_id_hex (name_index_key state) dom id) /\
  dec_str (metadata_enc_key state) (s_name_enc s) = Ok name /\
  acl_granted (metadata_enc_key state) (db w) (clock w) client dom name Read /\
  s_exhausted s = None /\ (forall m, max_reads (s_flags s) = Some m -> s_read_count s < m) /\
  (forall p, s_policy s = Some p ->
     quorum state (db w) (clock w) client "secret" dom name p (h_request_id h)) /\
  mfa_passed (db w) (clock w) client (mfa_required (s_flags s)) h.

Lemma retrieve_data_inv id q h client w resp w' :
  NoDup (r_id <$> requests (db w)) -> approvals_wf (requests (db w)) ->
  run (retrieve_data state id q h client) w = (Val resp, w') ->
  exists s name data env, cleared w q h client id s name /\
    resp = json_response 200 (retrieve_response s name data env).
Proof.
  intros Hnd Hwf H. unfold retrieve_data in H.
  apply run_bind_Val in H as ([dom nm] & w1 & Hg & H).
  apply gate_domain_inv in Hg as (Hd1 & Hc1 & Hlive & Hmem).
  apply run_bind_Val in H as (s & w2 & Hl & H). apply lookup_secret_inv in Hl as (Hd2 & Hc2 & Hfind).
  apply run_bind_Val in H as (name & w3 & Hn & H). apply run_pure_500 in Hn as [Hn ->].
  apply run_bind_Val in H as (dec & w4 & Ha & H). apply authorize_inv in Ha as (Hd4 & Hc4 & Hal & Hacl).
  apply acl_check_sound in Hacl; [|done].
  apply run_bind_Val in H as ([] & w5 & Hs & H). apply retrieve_spent_inv in Hs as (-> & Hex & Hmax).
  assert (Hdb : db w4 = db w) by congruence. assert (Hck : clock w4 = clock w) by congruence.
  apply run_bind_Val in H as ([] & w6 & Ht & H).
  pose proof (writes_run _ _ w4 (writes_retrieve_threshold state dom name s h client)) as Hfr. rewrite Ht in Hfr.
  assert (Hq : forall p, s_policy s = Some p ->
    quorum state (db w) (clock w) client "secret" dom name p (h_request_id h)).
  { intros p Hp. rewrite <- Hdb, <- Hck. eapply retrieve_threshold_inv; [by rewrite Hdb..|done|exact Ht]. }
  apply run_bind_Val in H as ([] & w7 & Hm & H). apply mfa_gate_inv in Hm.
  assert (Hmfa : mfa_passed (db w) (clock w) client (mfa_required (s_flags s)) h).
  { intros Hreq. destruct (Hm Hreq) as (code & kek & Hc & Hk & c & enc & sec & Hin & Hrest).
    pose proof (Hfr PClients eq_refl) as Hcl. pose proof (Hfr PClock eq_refl) as Hclk. simpl in Hcl, Hclk.
    rewrite Hcl, Hdb in Hin. rewrite Hclk, Hck in Hrest. exists code, kek. do 2 (split; [done|]). by exists c, enc, sec. }
  apply run_bind_Val in H as (cnt & w8 & _ & H). apply run_bind_Val in H as ([data env] & w9 & _ & H).
  apply run_bind_Val in H as (note & w10 & _ & H). apply run_bind_Val in H as (u & w11 & _ & H).
  apply run_bind_Val in H as (u' & w12 & _ & H). rewrite run_ret in H. simplify_eq.
  exists s, name, data, env. split; [|done].
  unfold find_secret in Hfind. apply first_row_Some in Hfind as [Hin Hrow].
  apply andb_true_iff in Hrow as [Hdom%String.eqb_eq Hor]. rewrite Hd1 in Hin. subst dom.
  split; [done|]. split; [done|]. split; [done|]. split.
  { apply orb_true_iff in Hor as [Hor|Hor]; apply String.eqb_eq in Hor; tauto. }
  split; [done|]. split; [|done]. by rewrite <- Hd1, <- Hd2, <- Hc1, <- Hc2.
Qed.
End served.

(** ** Storing, then reading back *)

Section roundtrip.
Context {P : Primitives} {L : PrimitiveLaws P} {PF : Platform} (state : AppState).

Lemma seal_envelope_inv data key w c w' :
  run (seal_envelope data key) w = (Val (Ok c), w') ->
  db w' = db w /\ decrypt_aes_gcm c key = Ok data.
Proof.
  intros H. unfold seal_envelope in H. run_inv. split; [done|].
  match goal with H : encrypt_aes_gcm _ _ _ _ = Ok _ |- _ => eapply encrypt_aes_gcm_roundtrip, H end.
  apply rand_length.
Qed.

Lemma run_pure_500_Ok {E A} msg (r : result E A) a w : r = Ok a -> run (pure_500 msg r) w = (Val a, w).
Proof. by intros ->. Qed.

(** The ciphertext of a normal secret peels back to its data. *)
Definition holds (layer2 : bytes) (data : string) : Prop :=
  exists primary secondary l1, handle (secret_layer1 (app_keys state)) = Ok primary /\
    handle (secret_layer2 (app_keys state)) = Ok secondary /\
    decrypt_aes_gcm layer2 secondary = Ok l1 /\ decrypt_aes_gcm l1 primary = Ok (as_bytes data).

(** What a stored row gives back: the data, or the client's envelope. *)
Definition carries (external : bool) (layer2 : bytes) (at_rest : option bytes) (given : string * option string) : Prop :=
  if external
  then exists c b, at_rest = Some c /\ dec_field (metadata_enc_key state) c = Ok b /\ given = ("", Some (b64_encode b))
  else holds layer2 given.1 /\ given.2 = None.

(** What a request gives to keep. *)
Definition handed (req : StoreRequest) : string * option string :=
  match sr_external req ≫= b64_decode with
  | Some b => ("", Some (b64_encode b))
  | None => (sr_data req, None)
  end.

Lemma dec_enc_field nonce b c : length nonce = 12%nat ->
  enc_field_with nonce (metadata_enc_key state) b = Ok c -> dec_field (metadata_enc_key state) c = Ok b.
Proof.
  unfold enc_field_with, dec_field. intros Hn H. destruct (aead_seal _ _ _) as [c'|e] eqn:E; [|done]. injection H as <-.
  by rewrite (aead_roundtrip _ _ _ _ Hn E).
Qed.

Lemma store_seal_inv req w x w' :
  run (store_seal state req (sr_external req ≫= b64_decode)) w = (Val x, w') ->
  sl_external x = negb (is_null (sr_external req ≫= b64_decode)) /\
  carries (sl_external x) (sl_layer2 x) (sl_at_rest x) (handed req).
Proof.
  unfold handed, store_seal. destruct (sr_external req ≫= b64_decode) as [b|]; intros H.
  all: apply run_bind_Val in H as ([[l1 l2] wr] & w1 & H & H').
  - unfold store_at_rest, str_500, enc_field in H'. run_inv.
    match goal with H : run (pure_500 _ _) _ = _ |- _ => apply run_pure_500 in H as [He ->] end.
    split; [done|]. do 2 eexists. split; [done|]. split; [|done]. eapply dec_enc_field, He. apply rand_length.
  - change (store_at_rest state None) with (mret None : M (option bytes)) in H'. run_inv. simpl.
    split; [done|]. split; [|done]. unfold store_layers in H.
    apply run_bind_Val in H as (primary & ? & Hp & H). apply run_pure_500 in Hp as [Hp ->].
    apply run_bind_Val in H as (secondary & ? & Hs & H). apply run_pure_500 in Hs as [Hs ->].
    apply run_bind_Val in H as (r1 & wa & H1 & H). apply run_bind_Val in H as (c1 & wb & Hc1 & H).
    apply run_pure_500 in Hc1 as [-> ->]. apply seal_envelope_inv in H1 as [_ H1].
    apply run_bind_Val in H as (r2 & wc & H2 & H). apply run_bind_Val in H as (c2 & wd & Hc2 & H).
    apply run_pure_500 in Hc2 as [-> ->]. apply seal_envelope_inv in H2 as [_ H2].
    run_inv. by exists primary, secondary, l1.
Qed.

Lemma retrieve_payload_run s given w :
  carries (s_external s) (s_layer2 s) (s_envelope s) given -> is_str given.1 ->
  run (retrieve_payload state s) w = (Val given, w).
Proof.
  unfold carries, retrieve_payload. destruct (s_external s).
  - intros (c & b & -> & Hd & ->) _. eapply run_then; [exact (run_pure_500_Ok _ _ _ _ Hd)|]. reflexivity.
  - destruct given as [data env]. cbn [fst snd]. intros [(p1 & p2 & l1 & Hp1 & Hp2 & Hl1 & Hd) ->] Hstr.
    eapply run_then; [exact (run_pure_500_Ok _ _ _ _ Hp1)|]. eapply run_then; [exact (run_pure_500_Ok _ _ _ _ Hp2)|].
    eapply run_then; [exact (run_pure_500_Ok _ _ _ _ Hl1)|]. eapply run_then; [exact (run_pure_500_Ok _ _ _ _ Hd)|].
    unfold is_str in Hstr. rewrite Hstr. reflexivity.
Qed.

Lemma run_secrets ps {A} (m : M A) w o w' :
  bool_decide (PSecrets ∈ ps) = false -> writes ps m -> run m w = (o, w') -> secrets (db w') = secrets (db w).
Proof. intros Hp Hm H. pose proof (writes_same ps PSecrets m w Hm Hp) as Hs. by rewrite H in Hs. Qed.

Lemma run_domains ps {A} (m : M A) w o w' :
  bool_decide (PDomains ∈ ps) = false -> writes ps m -> run m w = (o, w') -> domains (db w') = domains (db w).
Proof. intros Hp Hm H. pose proof (writes_same ps PDomains m w Hm Hp) as Hs. by rewrite H in Hs. Qed.

(** A readable row: neither spent nor guarded by a quorum or a code. *)
Definition readable (s : Secret) : Prop :=
  s_exhausted s = None /\ s_policy s = None /\ mfa_required (s_flags s) = false /\
  forall cap, read_cap (s_flags s) = Some cap -> s_read_count s < cap.

Lemma read_cap_max f m : max_reads f = Some m -> exists cap, read_cap f = Some cap /\ cap <= m.
Proof. unfold read_cap. intros ->. destruct (delete_on_read f); eexists; split; [done|lia|done|lia]. Qed.

(** A row that has not been read is under any cap of at least one. *)
Lemma read_cap_fresh f : (forall m, max_reads f = Some m -> 1 <= m) -> forall cap, read_cap f = Some cap -> 0 < cap.
Proof.
  unfold read_cap. intros Hm cap. destruct (max_reads f) as [m|], (delete_on_read f); intros [= <-]; try lia;
    specialize (Hm m eq_refl); lia.
Qed.

Definition read_once (s : Secret) (t : list Secret) : list Secret :=
  update_where (fun x => s_id x =s? s_id s) bump_read t.

Lemma retrieve_claim_run n s client w :
  faults w = [] -> readable s -> s ∈ secrets (db w) ->
  exists c w', run (retrieve_claim state n s client) w = (Val c, w') /\
    (read_cap (s_flags s) = None -> c = None /\ db w' = upd_secrets (read_once s) (db w)).
Proof.
  intros Hf (He & _ & _ & Hcap) Hin. unfold retrieve_claim. destruct (read_cap (s_flags s)) as [cap|] eqn:Ec.
  - specialize (Hcap cap eq_refl).
    destruct (first_row (fun x => (s_id x =s? s_id s) && is_null (s_exhausted x) && (s_read_count x <? cap))
                (secrets (db w))) as [x|] eqn:E.
    + eexists _, _. split; [|done]. eapply run_then.
      * apply run_or_500. unfold sql. rewrite run_perform. unfold statement, next_fault. rewrite Hf.
        unfold claim_read. rewrite E. reflexivity.
      * reflexivity.
    + apply first_row_None with (r := s) in E; [|done].
      rewrite String.eqb_refl, He, (proj2 (Z.ltb_lt _ cap)) in E by lia. done.
  - do 2 eexists. split; [unfold ignore; by rewrite run_bind, run_bind, run_exec by done|by split].
Qed.

Lemma returns_teardown s n : returns (retrieve_teardown s n).
Proof.
  unfold retrieve_teardown. repeat case_match; try apply returns_ret;
    (apply returns_bind; [apply returns_ignore, returns_perform|intros; apply returns_ret]).
Qed.

(** Without a cap nothing is torn down. *)
Lemma retrieve_teardown_uncapped s w : read_cap (s_flags s) = None -> run (retrieve_teardown s None) w = (Val None, w).
Proof.
  unfold read_cap, retrieve_teardown. by destruct (max_reads (s_flags s)), (delete_on_read (s_flags s)).
Qed.

Lemma returns_acl_record_use d : returns (acl_record_use d).
Proof. destruct d; try apply returns_ret. apply returns_ignore, returns_perform. Qed.

(** Reading a readable row, for a caller the domain and the ACL let through. A
    row without a cap only has its reads counted. *)
Lemma retrieve_readable id q h client w dom nm s name given dec :
  faults w = [] -> run (resolve_and_gate_domain state client q) w = (Val (Ok (dom, nm)), w) ->
  find_secret dom id (name_id_hex (name_index_key state) dom id) (db w) = Some s ->
  dec_str (metadata_enc_key state) (s_name_enc s) = Ok name ->
  run (acl_check (metadata_enc_key state) client dom name Read) w = (Val (Ok dec), w) ->
  is_allowed dec = true -> readable s -> carries (s_external s) (s_layer2 s) (s_envelope s) given -> is_str given.1 ->
  exists w', run (retrieve_data state id q h client) w =
    (Val (json_response 200 (retrieve_response s name given.1 given.2)), w') /\
    (read_cap (s_flags s) = None ->
       secrets (db w') = read_once s (secrets (db w)) /\ domains (db w') = domains (db w)).
Proof.
  intros Hf Hgate Hfind Hn Hacl Hal Hr Hh Hstr. unfold retrieve_data.
  assert (Hin : s ∈ secrets (db w)) by (by apply first_row_Some in Hfind as [? _]).
  destruct (retrieve_claim_run name s client w Hf Hr Hin) as (cnt & w1 & Hclaim & Hcnt).
  destruct (returns_run (retrieve_teardown s cnt) w1 (returns_teardown s cnt)) as (note & w2 & Htear).
  destruct (returns_run (acl_record_use dec) w2 (returns_acl_record_use dec)) as (u & w3 & Huse).
  destruct (returns_run (audit (audit_hmac_key state) (metadata_enc_key state) (Some (ac_id client)) "read"
              (Some name) AuditOk note) w3 (returns_audit _ _ _ _ _ _ _)) as (u' & w4 & Haud).
  destruct Hr as (He & Hp & Hm & Hcap). exists w4. split.
  2: { intros Hno. destruct (Hcnt Hno) as [-> Hs]. rewrite (retrieve_teardown_uncapped s w1 Hno) in Htear.
       injection Htear as _ <-. assert (Hd1 : domains (db w3) = domains (db w1)) by (eapply (run_domains [PAcls]), Huse; [reflexivity|solve_writes]).
       assert (Hd2 : domains (db w4) = domains (db w3)) by (eapply (run_domains [PAudits]), Haud; [reflexivity|solve_writes]).
       apply (run_secrets [PAcls]) in Huse; [|reflexivity|solve_writes].
       apply (run_secrets [PAudits]) in Haud; [|reflexivity|solve_writes].
       rewrite Haud, Huse, Hd2, Hd1, Hs. by split. }
  eapply run_then; [unfold or_reply; eapply run_then; [exact Hgate|reflexivity]|]. cbv beta iota.
  eapply run_then.
  { unfold lookup_secret. eapply run_then; [apply run_or_500; by apply run_query|]. cbv beta. rewrite Hfind. reflexivity. }
  eapply run_then; [by apply run_pure_500_Ok|].
  eapply run_then.
  { unfold authorize. eapply run_then; [apply run_or_500, Hacl|]. by rewrite Hal. }
  eapply run_then.
  { unfold retrieve_spent. rewrite He. destruct (max_reads (s_flags s)) as [m|] eqn:Em; [|reflexivity].
    destruct (read_cap_max _ _ Em) as (cap & Hc & Hle). specialize (Hcap cap Hc).
    rewrite (proj2 (Z.leb_gt m (s_read_count s))) by lia. reflexivity. }
  eapply run_then; [unfold retrieve_threshold; by rewrite Hp|].
  eapply run_then; [by rewrite Hm|].
  eapply run_then; [exact Hclaim|].
  eapply run_then; [by apply retrieve_payload_run|]. destruct given as [data env]. cbv beta iota.
  eapply run_then; [exact Htear|]. eapply run_then; [exact Huse|]. eapply run_then; [exact Haud|]. reflexivity.
Qed.

(** Validation that lets the request through has touched nothing. *)
Lemma store_validate_inv req client w b w' :
  run (store_validate state req client) w = (Val b, w') -> b = sr_external req ≫= b64_decode /\ w' = w.
Proof.
  unfold store_validate. intros H. destruct (sr_resource_name req =s? ""); [by run_inv|].
  apply run_bind_Val in H as (b' & w1 & Hb & H).
  assert (b' = sr_external req ≫= b64_decode /\ w1 = w) as [-> ->].
  { unfold store_external in Hb. destruct (sr_external req) as [e|]; [|by run_inv]. cbn [mbind option_bind].
    destruct (b64_decode e) as [[|x l]|]; by run_inv. }
  destruct (is_null _ && (sr_data req =s? "")); by run_inv.
Qed.

Lemma store_insert_inv req dom nid x now w j w' :
  run (store_insert state req dom nid x now) w = (Val j, w') ->
  sr_access_policy req = None -> is_str (sr_resource_name req) ->
  exists id name_enc, dec_str (metadata_enc_key state) name_enc = Ok (sr_resource_name req) /\
    secrets (db w') = secrets (db w) ++
      [MkSecret id name_enc nid dom (sl_layer1 x) (sl_layer2 x) (sl_wrapped x) (sl_external x) (sl_at_rest x)
         (default default_flags (sr_flags req)) 0 None None now now (sl_method x)].
Proof.
  intros H Hp Hstr. unfold store_insert, policy_check, policy_ids, new_id, str_500, enc_str, enc_field in H.
  rewrite Hp in H. run_inv.
  match goal with H : run (pure_500 _ (enc_field_with _ _ _)) _ = _ |- _ => apply run_pure_500 in H as [He ->] end.
  match goal with H : insert_secret _ _ = Ok _ |- _ => unfold insert_secret in H; destruct (existsb _ _); [done|];
    simplify_eq/= end.
  eexists _, _. split; [|reflexivity]. eapply dec_enc_str; [done| |exact He]; apply rand_length.
Qed.

(** What storing a new secret leaves behind. *)
Lemma store_new_inv req q client w resp w' dom :
  run (store_data state req q client) w = (Val resp, w') ->
  live_domain_id (domain_name_id_hex (name_index_key state) (DomainQuery_name q)) (db w) = Some dom ->
  sr_access_policy req = None -> is_str (sr_resource_name req) ->
  find_named dom (name_id_hex (name_index_key state) dom (sr_resource_name req)) (db w) = None ->
  exists s, secrets (db w') = secrets (db w) ++ [s] /\ s_domain s = dom /\
    s_name_id s = name_id_hex (name_index_key state) dom (sr_resource_name req) /\
    dec_str (metadata_enc_key state) (s_name_enc s) = Ok (sr_resource_name req) /\
    s_exhausted s = None /\ s_policy s = None /\ s_flags s = default default_flags (sr_flags req) /\
    s_read_count s = 0 /\ s_external s = negb (is_null (sr_external req ≫= b64_decode)) /\
    carries (s_external s) (s_layer2 s) (s_envelope s) (handed req).
Proof.
  intros H Hdom Hpol Hstr Hnew. unfold store_data in H.
  apply run_bind_Val in H as (b & w1 & Hv & H). apply store_validate_inv in Hv as [-> ->].
  apply run_bind_Val in H as ([d nm] & w2 & Hg & H). apply gate_domain_inv in Hg as (Hd2 & _ & Hlive & _).
  simplify_eq. apply run_bind_Val in H as (ex & w3 & Hx & H).
  apply run_or_500_inv, run_query_Ok in Hx as (-> & l & ->). cbv beta in H.
  rewrite Hd2, Hnew in H. cbv iota in H.
  apply run_bind_Val in H as ([] & w4 & Hc & H). unfold store_conflicts in Hc. rewrite run_ret in Hc. simplify_eq.
  apply run_bind_Val in H as (dec & w5 & Ha & H). apply authorize_inv in Ha as (Hd5 & _ & _ & _).
  apply run_bind_Val in H as (x & w6 & Hsl & H). 
  pose proof (run_secrets [] _ _ _ _ eq_refl (writes_store_seal state req _) Hsl) as Hd6.
  apply store_seal_inv in Hsl as (Hx1 & Hholds).
  apply run_bind_Val in H as (now & w7 & Hnow & H). rewrite run_utc_now in Hnow. simplify_eq.
  apply run_bind_Val in H as (j & w8 & Hi & H). apply store_insert_inv in Hi as (id & ne & Hne & Hs); [|done..].
  apply run_bind_Val in H as (u & w9 & Hu & H).
  apply (run_secrets [PAcls]) in Hu; [|reflexivity|solve_writes].
  apply run_bind_Val in H as (u' & w10 & Hu' & H).
  apply (run_secrets [PAudits]) in Hu'; [|reflexivity|solve_writes].
  rewrite run_ret in H. simplify_eq. eexists. split.
  { rewrite Hu', Hu, Hs, Hd6, Hd5. simpl. rewrite Hd2. reflexivity. }
  simpl. repeat split; try done.
Qed.
End roundtrip.
