(* ===== verification/SecretsProps.v ===== *)
(** Properties of the secret endpoints ([Secrets.v]): who is served, read
    limits under concurrency, immutability, cleanup, and the round trip. *)
From S2P Require Import Prelude AccessRules Crypto ToyPrimitives Store Effects Concurrency ServerBase ToyPlatform AuditLog Auth AuthProps Threshold ThresholdProps ReadLimit Secrets SecretsLemmas.

(** ** The properties *)

(** Requests to read, as the pool runs them. *)
Record ReadCall := MkRead { rc_id : string; rc_query : DomainQuery; rc_headers : Headers; rc_client : AuthenticatedClient }.

Definition read_call `{Primitives} `{Platform} (state : AppState) (c : ReadCall) : M Response :=
  retrieve_data state (rc_id c) (rc_query c) (rc_headers c) (rc_client c).

Lemma refuses_retrieve_data `{Primitives} `{Platform} state id q h client :
  refuses (retrieve_data state id q h client).
Proof.
  assert (Hc : forall n s, refuses (retrieve_claim state n s client)) by (unfold retrieve_claim; solve_refuses).
  assert (Ht : forall s n, refuses (retrieve_teardown s n)) by (unfold retrieve_teardown; solve_refuses).
  unfold retrieve_data. solve_refuses; auto.
Qed.

Lemma first_row_false {A} (p : A -> bool) t : (forall x, x ∈ t -> p x = false) -> first_row p t = None.
Proof.
  intros H. destruct (first_row p t) as [x|] eqn:E; [|done]. apply first_row_Some in E as [Hin Hp].
  by rewrite H in Hp.
Qed.

(** C1. A secret is served only to a caller who passed every check: a 200
    from [retrieve_data] means a member (or administrator) of a live domain, an
    ACL decision in favour of reading this name, a row neither exhausted nor at
    its cap and an accepted TOTP code if it asks for one, all in the state the
    request found. If the row has a policy it also means [ThresholdProps.quorum]:
    K distinct signatories of that policy, unless the caller has a live request
    for the same name that was opened in another domain or under an older policy,
    which the gate does not tell apart ([request_crosses_domains]). *)
Theorem served_secret_is_cleared {P : Primitives} {PF : Platform} state id q h client w o w' :
  NoDup (r_id <$> requests (db w)) -> approvals_wf (requests (db w)) ->
  run (retrieve_data state id q h client) w = (o, w') -> resp_status (respond o) = 200 ->
  exists s name data env, cleared state w q h client id s name /\
    respond o = json_response 200 (retrieve_response s name data env).
Proof.
  intros Hnd Hwf H Hst.
  destruct (refuses_success _ _ _ _ (refuses_retrieve_data state id q h client) H) as [resp ->]; [by rewrite Hst|].
  simpl. by eapply retrieve_data_inv.
Qed.

(** C2. The read limit of a secret ([max_reads], or one for
    [delete_on_read]) holds under any concurrency: of any number of interleaved
    reads, by anyone, no more are answered with the secret than its counter
    leaves. *)
Theorem read_limit_enforced {P : Primitives} {PF : Platform} state calls s cap w w' ps' :
  NoDup (s_id <$> secrets (db w)) -> s ∈ secrets (db w) -> read_cap (s_flags s) = Some cap ->
  pool_steps (w, read_call state <$> calls) (w', ps') ->
  Z.of_nat (total (served_count (s_id s)) ps') <= Z.max 0 (cap - s_read_count s).
Proof.
  intros Hnd Hin Hcap Hs.
  assert (Hc : capped (s_id s) cap (secrets (db w))).
  { intros x Hx Hid. by rewrite (NoDup_fmap_inj s_id (secrets (db w)) x s). }
  pose proof (pool_total (table_inv secrets (capped (s_id s) cap)) (table_budget secrets (reads_budget (s_id s) cap))
    ltac:(done) ltac:(done) ltac:(done) ltac:(done) (served_count (s_id s)) w (read_call state <$> calls) w' ps' Hc) as Ht.
  destruct Ht as [_ Hle]; [|done|].
  { apply Forall_fmap, Forall_forall. intros c _. exact (retrieve_data_earns state (s_id s) cap _ _ _ _). }
  pose proof (reads_budget_row (R:=Secret) (s_id s) cap (secrets (db w)) s Hnd Hin eq_refl) as Hb. simpl in Hb.
  unfold table_budget in Hle. lia.
Qed.

Record StoreCall := MkStoreCall { stc_request : StoreRequest; stc_query : DomainQuery; stc_client : AuthenticatedClient }.

Definition store_call `{Primitives} `{Platform} (state : AppState) (c : StoreCall) : M Response :=
  store_data state (stc_request c) (stc_query c) (stc_client c).

(** C13. A secret stored with [no_overwrite] survives every store, concurrent
    ones included: its row stays in the table, unchanged. *)
Theorem no_overwrite_immutable {P : Primitives} {PF : Platform} state calls s w w' ps' :
  NoDup (s_id <$> secrets (db w)) -> s ∈ secrets (db w) -> no_overwrite (s_flags s) = true ->
  pool_steps (w, store_call state <$> calls) (w', ps') -> s ∈ secrets (db w').
Proof.
  intros Hnd Hin Hno Hs.
  refine (proj1 (proj1 (pool_safe (table_inv secrets (protected s)) _ _ (fun _ => True) w _ w' ps' _ _ Hs)));
    [done..| |].
  - split; [done|]. intros x Hx Hid. by rewrite (NoDup_fmap_inj s_id (secrets (db w)) x s).
  - apply Forall_fmap, Forall_forall. intros c _. exact (store_data_spares state s _ _ _).
Qed.

(** Cleanup never destroys live data: rows that are not exhausted, or
    flagged [preserve_on_cleanup], survive any interleaving of cleanups. *)
Theorem cleanup_keeps_live {P : Primitives} {PF : Platform} state calls s w w' ps' :
  NoDup (s_id <$> secrets (db w)) -> s ∈ secrets (db w) -> unspent s ->
  pool_steps (w, (fun c : DomainQuery * AuthenticatedClient => cleanup_secrets state c.1 c.2) <$> calls) (w', ps') ->
  s ∈ secrets (db w').
Proof.
  intros Hnd Hin Hu Hs.
  refine (proj1 (proj1 (pool_safe (table_inv secrets (retained s)) _ _ (fun _ => True) w _ w' ps' _ _ Hs)));
    [done..| |].
  - split; [done|]. intros x Hx Hid. by rewrite (NoDup_fmap_inj s_id (secrets (db w)) x s).
  - apply Forall_fmap, Forall_forall. intros c _. exact (cleanup_secrets_retains state s _ _).
Qed.

Section reading.
Context {P : Primitives} {L : PrimitiveLaws P} {PF : Platform} (state : AppState).

(** Storing a new row, and reading it in any later world that still has the
    secrets as they were: normal data and client-side envelopes alike. *)
Lemma stored_then_read req q client reader h w w1 w2 resp dom nm dec :
  run (store_data state req q client) w = (Val resp, w1) ->
  live_domain_id (domain_name_id_hex (name_index_key state) (DomainQuery_name q)) (db w) = Some dom ->
  find_secret dom (sr_resource_name req) (name_id_hex (name_index_key state) dom (sr_resource_name req)) (db w) = None ->
  is_str (sr_resource_name req) -> is_str (handed req).1 -> sr_access_policy req = None ->
  mfa_required (default default_flags (sr_flags req)) = false ->
  (forall m, max_reads (default default_flags (sr_flags req)) = Some m -> 1 <= m) ->
  secrets (db w2) = secrets (db w1) -> faults w2 = [] ->
  run (resolve_and_gate_domain state reader q) w2 = (Val (Ok (dom, nm)), w2) ->
  run (acl_check (metadata_enc_key state) reader dom (sr_resource_name req) Read) w2 = (Val (Ok dec), w2) ->
  is_allowed dec = true ->
  exists w3 s, s_name_id s = name_id_hex (name_index_key state) dom (sr_resource_name req) /\
    s_external s = negb (is_null (sr_external req ≫= b64_decode)) /\
    run (retrieve_data state (sr_resource_name req) q h reader) w2 =
      (Val (json_response 200 (retrieve_response s (sr_resource_name req) (handed req).1 (handed req).2)), w3).
Proof.
  intros Hst Hdom Hnone Hn Hd Hpol Hmfa Hmax Hsec Hf Hgate Hacl Hal.
  destruct (store_new_inv state req q client w resp w1 dom Hst Hdom Hpol Hn)
    as (s & Hs & Hsd & Hsn & Hname & Hex & Hp & Hfl & Hz & Hx & Hh).
  { unfold find_secret, find_named in *. apply first_row_false. intros x Hxin.
    pose proof (first_row_None _ _ x Hnone Hxin) as Hf0. cbv beta in Hf0.
    destruct (s_domain x =s? dom); [|done]. simpl in *. by apply orb_false_iff in Hf0 as [_ ?]. }
  assert (Hfind : find_secret dom (sr_resource_name req)
     (name_id_hex (name_index_key state) dom (sr_resource_name req)) (db w2) = Some s).
  { unfold find_secret in *. rewrite Hsec, Hs. unfold first_row, select in *. rewrite List.filter_app.
    destruct (List.filter _ (secrets (db w))); [|done]. simpl.
    by rewrite Hsd, Hsn, !String.eqb_refl, orb_true_r. }
  destruct (retrieve_readable state (sr_resource_name req) q h reader w2 dom nm s (sr_resource_name req) (handed req) dec)
    as (w3 & Hw3 & _); try done.
  - do 2 (split; [done|]). rewrite Hfl. split; [done|]. rewrite Hz. by apply read_cap_fresh.
  - by exists w3, s.
Qed.
End reading.

(** What is stored can be read back: after a new secret is stored, a
    caller whom the domain and the ACL let through reads exactly the data given
    (up to the read limit, and without a quorum or MFA flag). *)
Theorem stored_secret_reads_back {P : Primitives} {L : PrimitiveLaws P} {PF : Platform}
    state req q client reader h w w1 w2 resp dom nm dec :
  run (store_data state req q client) w = (Val resp, w1) ->
  live_domain_id (domain_name_id_hex (name_index_key state) (DomainQuery_name q)) (db w) = Some dom ->
  find_secret dom (sr_resource_name req) (name_id_hex (name_index_key state) dom (sr_resource_name req)) (db w) = None ->
  is_str (sr_resource_name req) -> is_str (sr_data req) ->
  sr_external req = None -> sr_access_policy req = None ->
  mfa_required (default default_flags (sr_flags req)) = false ->
  (forall m, max_reads (default default_flags (sr_flags req)) = Some m -> 1 <= m) ->
  secrets (db w2) = secrets (db w1) -> faults w2 = [] ->
  run (resolve_and_gate_domain state reader q) w2 = (Val (Ok (dom, nm)), w2) ->
  run (acl_check (metadata_enc_key state) reader dom (sr_resource_name req) Read) w2 = (Val (Ok dec), w2) ->
  is_allowed dec = true ->
  exists w3 s, s_name_id s = name_id_hex (name_index_key state) dom (sr_resource_name req) /\
    run (retrieve_data state (sr_resource_name req) q h reader) w2 =
      (Val (json_response 200 (retrieve_response s (sr_resource_name req) (sr_data req) None)), w3).
Proof.
  intros Hst Hdom Hnone Hn Hd Hext Hpol Hmfa Hmax Hsec Hf Hgate Hacl Hal.
  assert (Hg : handed req = (sr_data req, None)) by (unfold handed; by rewrite Hext).
  destruct (stored_then_read state req q client reader h w w1 w2 resp dom nm dec) as (w3 & s & Hid & _ & Hr);
    rewrite ?Hg in *; try done. by exists w3, s.
Qed.

(** ** What a cleanup removes *)

Section purge.
Context {P : Primitives} {PF : Platform} (state : AppState).

Lemma returns_fs_remove p : returns (fs_remove p).
Proof. apply returns_perform. Qed.

Lemma returns_map_each {A B} (f : A -> M B) l : (forall x, returns (f x)) -> returns (map_each f l).
Proof.
  intros H. induction l as [|x l IH]; [apply returns_ret|]. apply returns_bind; [apply H|intros y].
  apply returns_bind; [done|]. intros ys. apply returns_ret.
Qed.

Lemma returns_cleanup_one_file client row : returns (cleanup_one_file state client row).
Proof.
  destruct row as [p path]. unfold cleanup_one_file.
  apply returns_bind; [apply returns_ignore, returns_perform|]. intros _.
  apply returns_bind; [apply returns_ignore, returns_fs_remove|]. intros _.
  apply returns_bind; [apply returns_audit|]. intros _. apply returns_ret.
Qed.

Lemma calm_cleanup_one_file client row : calm (cleanup_one_file state client row).
Proof. destruct row as [p path]. unfold cleanup_one_file. solve_calm. Qed.

Lemma cleanup_rows_run client rows w :
  faults w = [] ->
  exists names w', run (map_each (cleanup_one state client) rows) w = (Val names, w') /\ faults w' = [] /\
    length names = length rows /\
    secrets (db w') = foldl (fun t s => delete_where (fun x => s_id x =s? s_id s) t) (secrets (db w)) rows.
Proof.
  revert w. induction rows as [|s rows IH]; intros w Hf; [by exists [], w|]. cbn [map_each foldl].
  set (w1 := set_db (upd_secrets (delete_where (fun x => s_id x =s? s_id s)) (db w)) w).
  destruct (healthy_run (audit (audit_hmac_key state) (metadata_enc_key state) (Some (ac_id client)) "cleanup"
    (Some (unwrap_or ("<encrypted:" +:+ s_id s +:+ ">") (dec_str (metadata_enc_key state) (s_name_enc s)))) AuditOk
    (Some "tombstoned secret purged")) w1) as (u & w2 & Ha & Hf2); [apply returns_audit|apply calm_audit|exact Hf|].
  pose proof (run_secrets [PAudits] _ _ _ _ eq_refl (writes_audit _ _ _ _ _ _ _) Ha) as Hs.
  destruct (IH w2 Hf2) as (names & w3 & Hr & Hf3 & Hl & Hsec). eexists (_ :: names), w3. split; [|split; [done|]].
  - eapply run_then.
    + unfold cleanup_one. eapply run_then.
      * unfold ignore. eapply run_then; [by apply run_exec|]. reflexivity.
      * eapply run_then; [exact Ha|]. reflexivity.
    + eapply run_then; [exact Hr|]. reflexivity.
  - rewrite Hsec, Hs. simpl. by rewrite Hl.
Qed.

Lemma delete_rows_filter rows t :
  foldl (fun t s => delete_where (fun x => s_id x =s? s_id s) t) t rows =
  List.filter (fun x => negb (existsb (fun s => s_id x =s? s_id s) rows)) t.
Proof.
  revert t. induction rows as [|s rows IH]; intros t; simpl.
  - induction t as [|x t IHt]; simpl; congruence.
  - rewrite IH. unfold delete_where. clear IH. induction t as [|x t IHt]; [done|]. simpl.
    destruct (s_id x =s? s_id s); simpl; [done|]. by rewrite IHt.
Qed.

(** Rows carry distinct ids, so deleting by id deletes the selected rows. *)
Lemma delete_selected p t :
  NoDup (s_id <$> t) ->
  foldl (fun t s => delete_where (fun x => s_id x =s? s_id s) t) t (select p t) = delete_where p t.
Proof.
  intros Hnd. rewrite delete_rows_filter. unfold delete_where. apply List.filter_ext_in.
  intros x Hx%list_elem_of_In. f_equal. apply eq_true_iff_eq. rewrite existsb_exists. split.
  - intros (s & Hs%list_elem_of_In & Hid%String.eqb_eq). apply elem_of_select in Hs as [Hs Hp].
    by rewrite (NoDup_fmap_inj s_id t x s).
  - intros Hp. exists x. rewrite String.eqb_refl, <- list_elem_of_In, elem_of_select. done.
Qed.
End purge.

(** On a healthy database a cleanup by an administrator succeeds and
    removes exactly the exhausted secrets of its domain that are not flagged
    [preserve_on_cleanup]; every other row stays, in order. *)
Theorem cleanup_purges_exactly {P : Primitives} {PF : Platform} state q client w dom nm :
  faults w = [] -> is_admin client = true ->
  run (resolve_and_gate_domain state client q) w = (Val (Ok (dom, nm)), w) ->
  NoDup (s_id <$> secrets (db w)) ->
  exists resp w', run (cleanup_secrets state q client) w = (Val resp, w') /\ resp_status resp = 200 /\
    secrets (db w') = delete_where (spent_secret dom false) (secrets (db w)).
Proof.
  intros Hf Had Hg Hnd.
  destruct (cleanup_rows_run state client (select (spent_secret dom false) (secrets (db w))) w Hf)
    as (names & w1 & Hr & Hf1 & _ & Hs). rewrite delete_selected in Hs by done.
  destruct (healthy_run (map_each (cleanup_one_file state client) (page_blobs (spent_page dom false) (db w1))) w1)
    as (files & w2 & Hfr & Hf2); [apply returns_map_each, returns_cleanup_one_file|
      apply calm_map_each, calm_cleanup_one_file|done|].
  pose proof (run_secrets [PPages; PContents; PFiles; PAudits] _ _ _ _ eq_refl
    (writes_map_each _ _ _ (writes_cleanup_one_file state client)) Hfr) as Hs2.
  destruct (returns_run _ w2 (returns_audit (audit_hmac_key state) (metadata_enc_key state) (Some (ac_id client))
    "cleanup.summary" None AuditOk
    (Some ("secrets_deleted=" +:+ show_len names +:+ " files_deleted=" +:+ show_len files +:+ " preserved=" +:+
       show_Z (Z.of_nat (affected (spent_secret dom true) (secrets (db w))) +
               Z.of_nat (affected (spent_page dom true) (pages (db w1)))))))) as (u & w3 & Ha).
  pose proof (run_secrets [PAudits] _ _ _ _ eq_refl (writes_audit _ _ _ _ _ _ _) Ha) as Hs3.
  eexists _, w3. split; [|split; [|by rewrite Hs3, Hs2, Hs]].
  - unfold cleanup_secrets, require_admin. rewrite Had. eapply run_then; [reflexivity|].
    eapply run_then; [unfold or_reply; eapply run_then; [exact Hg|reflexivity]|]. cbv beta iota.
    eapply run_then; [apply run_or_500; by apply run_query|]. eapply run_then; [apply run_or_500; by apply run_query|].
    eapply run_then; [exact Hr|]. eapply run_then; [apply run_or_500; by apply run_query|].
    eapply run_then; [apply run_or_500; by apply run_query|]. eapply run_then; [exact Hfr|].
    eapply run_then; [exact Ha|]. reflexivity.
  - reflexivity.
Qed.

(** ** Overwriting *)

Section overwrite.
Context {P : Primitives} {L : PrimitiveLaws P} {PF : Platform} (state : AppState).

Lemma store_overwrite_inv req q client w resp w' dom row :
  run (store_data state req q client) w = (Val resp, w') ->
  live_domain_id (domain_name_id_hex (name_index_key state) (DomainQuery_name q)) (db w) = Some dom ->
  find_named dom (name_id_hex (name_index_key state) dom (sr_resource_name req)) (db w) = Some row ->
  no_overwrite (s_flags row) = false /\ sr_overwrite req = true /\
  exists x now, sl_external x = negb (is_null (sr_external req ≫= b64_decode)) /\
    carries state (sl_external x) (sl_layer2 x) (sl_at_rest x) (handed req) /\
    secrets (db w') = secrets (overwrite_secret (s_id row) x now (db w)).
Proof.
  intros H Hdom Hrow. unfold store_data in H.
  apply run_bind_Val in H as (b & w1 & Hv & H). apply store_validate_inv in Hv as [-> ->].
  apply run_bind_Val in H as ([d nm] & w2 & Hg & H). apply gate_domain_inv in Hg as (Hd2 & _ & Hlive & _).
  simplify_eq. apply run_bind_Val in H as (ex & w3 & Hx & H).
  apply run_or_500_inv, run_query_Ok in Hx as (-> & l & ->). cbv beta in H.
  rewrite Hd2, Hrow in H. cbv iota in H.
  apply run_bind_Val in H as ([] & w4 & Hc & H). unfold store_conflicts in Hc.
  destruct (no_overwrite (s_flags row)); [by run_inv|]. destruct (sr_overwrite req); cbn [negb] in Hc; [|by run_inv].
  split; [done|]. split; [done|]. rewrite run_ret in Hc. simplify_eq.
  apply run_bind_Val in H as (dec & w5 & Ha & H). apply authorize_inv in Ha as (Hd5 & _ & _ & _).
  apply run_bind_Val in H as (x & w6 & Hsl & H).
  pose proof (reads_only _ _ _ _ (writes_store_seal state req _) Hsl) as (Hd6 & _).
  apply store_seal_inv in Hsl as (Hx1 & Hholds).
  apply run_bind_Val in H as (now & w7 & Hnow & H). rewrite run_utc_now in Hnow. simplify_eq.
  apply run_bind_Val in H as (j & w8 & Hi & H). apply run_bind_Val in Hi as (u0 & w9 & Hi & Hj).
  rewrite run_ret in Hj. simplify_eq. apply run_or_500_inv, run_exec_Ok in Hi as (l' & ->).
  apply run_bind_Val in H as (u & w10 & Hu & H). apply (run_secrets [PAcls]) in Hu; [|reflexivity|solve_writes].
  apply run_bind_Val in H as (u' & w11 & Hu' & H). apply (run_secrets [PAudits]) in Hu'; [|reflexivity|solve_writes].
  rewrite run_ret in H. simplify_eq. exists x, (clock w7). split; [done|]. split; [done|].
  rewrite Hu', Hu. cbn [db set_db overwrite_secret upd_secrets secrets]. rewrite Hd6, Hd5. cbn [db set_faults]. by rewrite Hd2.
Qed.
End overwrite.

(** Overwriting replaces the ciphertext and nothing else: the row that
    carries the name keeps its identity, flags, policy, read counter and
    tombstone, and the other rows are untouched. In particular the flags sent
    with the request are ignored, and a secret that was exhausted stays
    exhausted although its new value is stored. *)
Theorem overwrite_keeps_everything_else {P : Primitives} {L : PrimitiveLaws P} {PF : Platform}
    state req q client w resp w' dom row :
  run (store_data state req q client) w = (Val resp, w') ->
  live_domain_id (domain_name_id_hex (name_index_key state) (DomainQuery_name q)) (db w) = Some dom ->
  sr_external req = None ->
  find_named dom (name_id_hex (name_index_key state) dom (sr_resource_name req)) (db w) = Some row ->
  NoDup (s_id <$> secrets (db w)) ->
  exists row', row' ∈ secrets (db w') /\ s_id row' = s_id row /\ s_name_id row' = s_name_id row /\
    s_flags row' = s_flags row /\ s_policy row' = s_policy row /\ s_read_count row' = s_read_count row /\
    s_exhausted row' = s_exhausted row /\ s_external row' = false /\ holds state (s_layer2 row') (sr_data req) /\
    (forall s, s ∈ secrets (db w) -> s <> row -> s ∈ secrets (db w')) /\
    length (secrets (db w')) = length (secrets (db w)).
Proof.
  intros H Hdom Hext Hrow Hnd.
  destruct (store_overwrite_inv state req q client w resp w' dom row H Hdom Hrow)
    as (_ & _ & x & now & Hx & Hh & Hs). unfold handed in Hh. rewrite Hext in Hx, Hh. cbn in Hx. rewrite Hx in Hh.
  destruct Hh as [Hh _].
  unfold find_named in Hrow. apply first_row_Some in Hrow as [Hin _]. rewrite Hs. simpl.
  eexists. split; [apply elem_of_update_where; exists row; split; [done|]; by rewrite String.eqb_refl|].
  cbn [s_id s_name_id s_flags s_policy s_read_count s_exhausted s_external s_layer2].
  do 8 (split; [done|]). split.
  - intros s Hsin Hne. apply elem_of_update_where. exists s. split; [done|].
    destruct (String.eqb_spec (s_id s) (s_id row)) as [Hid|]; [|done].
    destruct Hne. by eapply (NoDup_fmap_inj s_id).
  - unfold update_where. by rewrite length_map.
Qed.

(** ** Witnesses *)

Definition toy_store (flags : ResourceFlags) (data : string) (overwrite : bool) (w : World) : outcome Response * World :=
  run (store_data toy_state (MkStore "db/x" data (Some flags) None overwrite None) (MkDomainQuery None) alice) w.

Definition no_headers : Headers := MkHeaders None None.
Definition toy_read : ReadCall := MkRead "db/x" (MkDomainQuery None) no_headers alice.

Definition once_flags : ResourceFlags := MkFlags false false (Some 1) false false false.
Definition frozen_flags : ResourceFlags := MkFlags false false None false false true.

(** One secret under the default flags, one good for a single read, one
    immutable, and the single-read one after its read. *)
Definition plain_world : World := Eval vm_compute in (toy_store default_flags "hunter2" false toy_world).2.
Definition once_world : World := Eval vm_compute in (toy_store once_flags "hunter2" false toy_world).2.
Definition frozen_world : World := Eval vm_compute in (toy_store frozen_flags "hunter2" false toy_world).2.
Definition spent_world : World := Eval vm_compute in (run (read_call toy_state toy_read) once_world).2.

Definition no_row : Secret := MkSecret "" [] "" "" [] [] "" false None default_flags 0 None None 0 0 "".
Definition the_row (w : World) : Secret := hd no_row (secrets (db w)).

Lemma one_row w s :
  secrets (db w) = [s] -> NoDup (s_id <$> secrets (db w)) /\ the_row w ∈ secrets (db w).
Proof. unfold the_row. intros ->. split; [apply NoDup_singleton|left]. Qed.

Lemma served_secret_is_cleared_witness :
  exists s name data env, cleared toy_state plain_world (MkDomainQuery None) no_headers alice "db/x" s name /\
    respond (run (read_call toy_state toy_read) plain_world).1
      = json_response 200 (retrieve_response s name data env).
Proof.
  apply (served_secret_is_cleared toy_state "db/x" (MkDomainQuery None) no_headers alice plain_world
           (run (read_call toy_state toy_read) plain_world).1
           (run (read_call toy_state toy_read) plain_world).2).
  - apply (bool_decide_unpack _). vm_compute. exact I.
  - intros r Hr. by apply not_elem_of_nil in Hr.
  - apply surjective_pairing.
  - vm_compute. reflexivity.
Defined.

Lemma read_limit_enforced_witness :
  let s := interleave (concat (replicate 40 [0; 1]%nat))
             (once_world, read_call toy_state <$> [toy_read; toy_read]) in
  total (served_count (s_id (the_row once_world))) s.2 = 1%nat /\
  Z.of_nat (total (served_count (s_id (the_row once_world))) s.2) <= Z.max 0 (1 - s_read_count (the_row once_world)).
Proof.
  intros s. split; [vm_compute; reflexivity|].
  destruct (one_row once_world _ eq_refl) as [Hnd Hin].
  apply (read_limit_enforced toy_state [toy_read; toy_read] (the_row once_world) 1 once_world s.1 s.2).
  - exact Hnd.
  - exact Hin.
  - vm_compute. reflexivity.
  - rewrite <- surjective_pairing. apply interleave_steps.
Defined.

Definition toy_overwrite : StoreCall :=
  MkStoreCall (MkStore "db/x" "other" None None true None) (MkDomainQuery None) alice.

Lemma no_overwrite_immutable_witness :
  let s := interleave (concat (replicate 30 [0; 1]%nat))
             (frozen_world, store_call toy_state <$> [toy_overwrite; toy_overwrite]) in
  the_row frozen_world ∈ secrets (db s.1).
Proof.
  intros s. destruct (one_row frozen_world _ eq_refl) as [Hnd Hin].
  apply (no_overwrite_immutable toy_state [toy_overwrite; toy_overwrite] (the_row frozen_world)
           frozen_world s.1 s.2).
  - exact Hnd.
  - exact Hin.
  - vm_compute. reflexivity.
  - rewrite <- surjective_pairing. apply interleave_steps.
Defined.

Lemma cleanup_keeps_live_witness :
  let s := interleave (concat (replicate 30 [0; 1]%nat))
             (once_world, (fun c : DomainQuery * AuthenticatedClient => cleanup_secrets toy_state c.1 c.2) <$>
                [(MkDomainQuery None, administrator); (MkDomainQuery None, administrator)]) in
  the_row once_world ∈ secrets (db s.1).
Proof.
  intros s. destruct (one_row once_world _ eq_refl) as [Hnd Hin].
  apply (cleanup_keeps_live toy_state [(MkDomainQuery None, administrator); (MkDomainQuery None, administrator)]
           (the_row once_world) once_world s.1 s.2).
  - exact Hnd.
  - exact Hin.
  - left. vm_compute. reflexivity.
  - rewrite <- surjective_pairing. apply interleave_steps.
Defined.

Lemma stored_secret_reads_back_witness :
  exists w3 s, s_name_id s = name_id_hex (name_index_key toy_state) "d-default" "db/x" /\
    run (retrieve_data toy_state "db/x" (MkDomainQuery None) no_headers bob) plain_world =
      (Val (json_response 200 (retrieve_response s "db/x" "hunter2" None)), w3).
Proof.
  apply (stored_secret_reads_back toy_state (MkStore "db/x" "hunter2" (Some default_flags) None false None)
           (MkDomainQuery None) alice bob no_headers toy_world plain_world plain_world
           (match (toy_store default_flags "hunter2" false toy_world).1 with Val r => r | _ => err 0 "" "" end)
           "d-default" "default" (Allowed "acl-3")).
  - vm_compute. reflexivity.
  - vm_compute. reflexivity.
  - reflexivity.
  - reflexivity.
  - reflexivity.
  - reflexivity.
  - reflexivity.
  - reflexivity.
  - discriminate.
  - reflexivity.
  - vm_compute. reflexivity.
  - vm_compute. reflexivity.
  - vm_compute. reflexivity.
  - reflexivity.
Defined.

Lemma cleanup_purges_exactly_witness :
  secrets (db spent_world) <> [] /\
  exists resp w', run (cleanup_secrets toy_state (MkDomainQuery None) administrator) spent_world = (Val resp, w') /\
    resp_status resp = 200 /\
    secrets (db w') = delete_where (spent_secret "d-default" false) (secrets (db spent_world)).
Proof.
  split; [vm_compute; discriminate|].
  apply (cleanup_purges_exactly toy_state (MkDomainQuery None) administrator spent_world "d-default" "default").
  - vm_compute. reflexivity.
  - reflexivity.
  - vm_compute. reflexivity.
  - apply (bool_decide_unpack _). vm_compute. exact I.
Defined.

(** Storing again over the exhausted secret succeeds; reading it back is 410. *)
Lemma overwrite_keeps_everything_else_witness :
  let out := toy_store default_flags "new" true spent_world in
  (exists row', row' ∈ secrets (db out.2) /\ s_exhausted row' = Some (1000 * micros)) /\
  resp_status (respond out.1) = 201 /\
  resp_status (respond (run (read_call toy_state toy_read) out.2).1) = 410.
Proof.
  intros out. split; [|split; vm_compute; reflexivity].
  destruct (overwrite_keeps_everything_else toy_state (MkStore "db/x" "new" (Some default_flags) None true None)
    (MkDomainQuery None) alice spent_world (respond out.1) out.2 "d-default"
    (the_row spent_world))
    as (row' & Hin & _ & _ & _ & _ & _ & Hex & _).
  - vm_compute. reflexivity.
  - vm_compute. reflexivity.
  - reflexivity.
  - vm_compute. reflexivity.
  - apply (bool_decide_unpack _). vm_compute. exact I.
  - exists row'. split; [exact Hin|]. rewrite Hex. vm_compute. reflexivity.
Defined.
