(* ===== verification/Keys.v ===== *)
(** Managed keys ([src/src/keys_api.rs]): named, versioned keys whose material
    stays on the server. Lifecycle endpoints, the gate every operation passes,
    and the operations themselves. *)
From S2P Require Import Prelude AccessRules Crypto Store Effects ServerBase AuditLog Auth CryptoOps.

Definition MAX_KEY_NAME_LEN : nat := 200.
Definition DEFAULT_TOKEN_TTL_SECS : Z := 3600.

Record CreateKeyRequest := MkCreateKey {
  ck_name : string; ck_key_type : option string; ck_mfa_required : bool; ck_import_material : option string;
}.
Record EncryptRequest := MkEncrypt { er_plaintext : string; er_aad : option string }.
Record DecryptRequest := MkDecrypt { dr_ciphertext : string; dr_aad : option string }.
Record HmacRequest := MkHmacRequest { hr_input : string; hr_algorithm : option string }.
Record VerifyRequest := MkVerify { vr_input : string; vr_signature : string; vr_algorithm : option string }.
Record IssueTokenRequest := MkIssueToken {
  it_claims : option JsonMap; it_subject : option string; it_audience : option string; it_issuer : option string;
  it_ttl_secs : option Z; it_not_before_secs : option Z;
}.
Record VerifyTokenRequest := MkVerifyToken { vt_token : string; vt_audience : option string }.

Record KeyRow := MkKeyRow {
  kr_id : string; kr_name : string; kr_type : KeyType; kr_latest : Z; kr_policy : KeyPolicy;
  kr_created : string; kr_updated : string;
}.

Definition internal (msg : string) : Response := err 500 "internal" msg.
Definition bad_request (code msg : string) : Response := err 400 code msg.

(** [.map_err(internal)?] and its like in a function that returns a response as
    its error. *)
Definition or_internal {A} (m : M (result SqlError A)) : M A :=
  m ≫= fun r => match r with Ok a => mret a | Err e => reply (internal (sql_msg e)) end.
Definition pure_reply {E A} (f : E -> Response) (r : result E A) : M A :=
  match r with Ok a => mret a | Err e => reply (f e) end.

Definition is_control (c : Z) : bool := (c <=? 31) || ((127 <=? c) && (c <=? 159)).

Definition name_ok (name : string) : bool :=
  negb (name =s? "") && (String.length name <=? MAX_KEY_NAME_LEN)%nat && negb (str_contains ".." name)
  && negb (existsb (fun c => is_control c || (c =? 47)) (chars name)).

Definition validate_name (name : string) : result Response unit :=
  if name_ok name then Ok tt
  else Err (bad_request "validation_error"
              "key name must be 1–200 characters, without '/', '..' or control characters").

(** [rsplit_once] *)
Fixpoint rsplit_once (sub s : string) : option (string * string) :=
  match s with
  | "" => None
  | String a s' =>
      match rsplit_once sub s' with
      | Some (l, r) => Some (String a l, r)
      | None => r ← strip_prefix sub s; Some ("", r)
      end
  end.

Section keys.
Context {P : Primitives} {PF : Platform} {O : OpsLib} (state : AppState).

Abbreviation mek := (metadata_enc_key state).

Definition key_name_id (domain_id name : string) : string :=
  hmac_id (name_index_key state) (as_bytes "blackbook-key-name-id/v1") [as_bytes domain_id; as_bytes name].

Definition b64_field (field value : string) : result Response bytes :=
  ok_or (bad_request "validation_error" ("'" +:+ field +:+ "' is not valid base64")) (b64_decode (trim value)).

Definition aad_field (aad : option string) : result Response bytes :=
  match aad with Some a => b64_field "aad" a | None => Ok [] end.

(** Binds sealed material to its key row and version. *)
Definition material_aad (key_id : string) (version : Z) : bytes :=
  as_bytes "blackbook/managed-key/v1" ++ [byte_of_Z 0] ++ as_bytes key_id ++ [byte_of_Z 0] ++ be_bytes 4 version.

Definition seal_material (key_id : string) (version : Z) (material : bytes) : M bytes :=
  nonce ← draw 12;
  pure_reply (fun e => internal (crypto_msg e))
    (aead_seal_aad nonce material (managed_key_kek state) (material_aad key_id version)).

Definition audit_key (client : AuthenticatedClient) (action name : string) (st : AuditStatus) (msg : option string) :
    M unit :=
  audit (audit_hmac_key state) mek (Some (ac_id client)) action (Some name) st msg.

Definition find_key (domain_id name : string) : M (option KeyRow) :=
  row ← or_internal (query (fun _ d =>
    first_row (fun k => (k_domain k =s? domain_id) && (k_name_id k =s? key_name_id domain_id name)) (keys d)));
  match row with
  | None => mret None
  | Some k =>
      t ← pure_reply internal (KeyType_parse (k_type k));
      mret (Some (MkKeyRow (k_id k) name t (k_latest k) (k_flags k) (fmt_text (k_created k)) (fmt_text (k_updated k))))
  end.

Definition gate (client : AuthenticatedClient) (q : DomainQuery) (name : string) (action : AclAction)
    (audit_action : string) : M (KeyRow * AclDecision) :=
  '(domain_id, domain_name) ← or_reply (resolve_and_gate_domain state client q);
  key ← find_key domain_id name;
  match key with
  | None =>
      audit_key client audit_action name AuditNotFound None;;
      reply (err 404 "not_found" ("no key named '" +:+ name +:+ "' in domain '" +:+ domain_name +:+ "'"))
  | Some key =>
      decision ← or_internal (acl_check mek client domain_id name action);
      if negb (is_allowed decision) then
        audit_key client audit_action name AuditDenied None;;
        reply (err 403 "forbidden" ("not permitted to " +:+ action_name action +:+ " key '" +:+ name +:+ "'"))
      else mret (key, decision)
  end.

Definition require_type (key : KeyRow) (allowed : list KeyType) (op : string) : result Response unit :=
  if bool_decide (kr_type key ∈ allowed) then Ok tt
  else Err (bad_request "wrong_key_type"
              ("'" +:+ op +:+ "' doesn't apply to " +:+ KeyType_as_str (kr_type key) +:+ " key '" +:+ kr_name key
               +:+ "' (it supports: " +:+ operations (kr_type key) +:+ ")")).

Definition key_mfa_gate (client : AuthenticatedClient) (h : Headers) (key : KeyRow) (audit_action : string) : M unit :=
  if negb (kp_mfa_required (kr_policy key)) then mret tt
  else
    match h_mfa h with
    | None =>
        audit_key client audit_action (kr_name key) AuditDenied (Some "missing MFA");;
        reply (err 401 "mfa_required" ("key '" +:+ kr_name key +:+ "' requires X-Blackbook-MFA <code>"))
    | Some code =>
        kek ← pure_reply (fun e => internal (crypto_msg e)) (handle (mfa_secret_kek (app_keys state)));
        r ← verify_totp kek (ac_id client) code;
        good ← pure_reply (fun e => internal (auth_msg e)) r;
        if good : bool then mret tt
        else
          audit_key client audit_action (kr_name key) AuditDenied (Some "MFA verification failed");;
          reply (err 401 "mfa_failed" "invalid TOTP code")
    end.

Definition check_version (key : KeyRow) (version : Z) : result Response unit :=
  if (version <? 1) || (kr_latest key <? version)
  then Err (bad_request "unknown_version"
              ("key '" +:+ kr_name key +:+ "' has no version " +:+ show_Z version +:+ " (latest is v"
               +:+ show_Z (kr_latest key) +:+ ")"))
  else Ok tt.

Definition version_row (key_id : string) (version : Z) (d : Db) : option KeyVersion :=
  first_row (fun v => (kv_key v =s? key_id) && (kv_version v =? version)) (key_versions d).

Definition load_material (key : KeyRow) (version : Z) : M bytes :=
  _ ← pure_reply id (check_version key version);
  row ← or_internal (query (fun _ => version_row (kr_id key) version));
  match row with
  | None => reply (internal ("key '" +:+ kr_name key +:+ "' v" +:+ show_Z version +:+ " is missing its material"))
  | Some v =>
      pure_reply (fun _ => internal ("key '" +:+ kr_name key +:+ "' v" +:+ show_Z version
                                     +:+ " failed its integrity check"))
        (aead_open_aad (kv_material v) (managed_key_kek state) (material_aad (kr_id key) version))
  end.

Definition load_public (key : KeyRow) (version : Z) : M bytes :=
  _ ← pure_reply id (check_version key version);
  row ← or_internal (query (fun _ => version_row (kr_id key) version));
  match (row ≫= kv_public) ≫= array32 with
  | Some pk => mret pk
  | None => reply (internal ("key '" +:+ kr_name key +:+ "' v" +:+ show_Z version +:+ " has no public key"))
  end.

Definition list_item (key : KeyRow) : list (string * Json) :=
  [("name", JStr (kr_name key)); ("key_type", JStr (KeyType_as_str (kr_type key)));
   ("latest_version", JNum (kr_latest key)); ("mfa_required", JBool (kp_mfa_required (kr_policy key)));
   ("created_at", JStr (kr_created key)); ("updated_at", JStr (kr_updated key))].

(** Metadata, never material. *)
Definition summary (key : KeyRow) : M Json :=
  rows ← or_internal (query (fun _ d =>
    order_by kv_version (select (fun v => kv_key v =s? kr_id key) (key_versions d))));
  let versions := map (fun v =>
    JObj [("version", JNum (kv_version v)); ("created_at", JStr (fmt_text (kv_created v)));
          ("public_key", opt_json (fun p => JStr (b64_encode p)) (kv_public v ≫= array32))]) rows in
  let latest_pk := last (select (fun v => kv_version v =? kr_latest key) rows) ≫= (fun v => kv_public v ≫= array32) in
  mret (JObj (list_item key ++ [("versions", JArr versions)]
              ++ match latest_pk with
                 | Some pk => [("public_key", JStr (b64_encode pk)); ("public_key_pem", JStr (ed25519_public_pem pk))]
                 | None => []
                 end)).

Definition token_version (token : string) (key : KeyRow) : result string Z :=
  header ← token_header token;
  match obj_get "kid" header ≫= as_str with
  | None => Ok (kr_latest key)
  | Some kid =>
      '(name, ver) ← ok_or "token 'kid' is not '<key>:v<N>'" (rsplit_once ":v" kid);
      if negb (name =s? kr_name key)
      then Err ("token was issued by key '" +:+ name +:+ "', not '" +:+ kr_name key +:+ "'")
      else ok_or "token 'kid' has a malformed version" (parse_i32 ver)
  end.

(** ** Lifecycle *)

(** [UNIQUE (domain_id, name_id)], the primary key, and the CHECK on the type. *)
Definition insert_key (k : Key) (d : Db) : result SqlError (unit * Db) :=
  if existsb (fun x => (k_id x =s? k_id k) || ((k_domain x =s? k_domain k) && (k_name_id x =s? k_name_id k))) (keys d)
  then Err SqlUnique
  else if one_of (k_type k) ["aes256-gcm"; "ed25519"; "hmac"] then Ok (tt, upd_keys (insert_row k) d)
  else Err SqlCheck.

(** [PRIMARY KEY (key_id, version)] *)
Definition insert_version (v : KeyVersion) (d : Db) : result SqlError (unit * Db) :=
  if existsb (fun x => (kv_key x =s? kv_key v) && (kv_version x =? kv_version v)) (key_versions d)
  then Err SqlUnique
  else Ok (tt, upd_key_versions (insert_row v) d).

Definition key_taken (name domain_name : string) : Response :=
  err 409 "already_exists" ("a key named '" +:+ name +:+ "' already exists in '" +:+ domain_name +:+ "'").

(** The material to store as version 1: imported or generated. *)
Definition create_material (req : CreateKeyRequest) (t : KeyType) : M bytes :=
  match ck_import_material req with
  | Some b64 =>
      m ← pure_reply id (b64_field "import_material" b64);
      _ ← pure_reply (bad_request "validation_error") (check_material t m);
      mret m
  | None => KeyType_generate
  end.

(** Both inserts, or neither: a lost create race answers 409. *)
Definition create_tx (id domain_id name : string) (name_enc sealed : bytes) (public : option bytes) (t : KeyType)
    (policy : KeyPolicy) (taken : Response) : M (result SqlError unit) :=
  transaction (
    inserted ← sql (fun now => insert_key (MkKey id name_enc (key_name_id domain_id name) domain_id (KeyType_as_str t) 1
                                              policy now now));
    match inserted with
    | Err SqlUnique => reply taken
    | Err e => mret (Err e)
    | Ok _ => sql (fun now => insert_version (MkKeyVersion id 1 sealed public now))
    end).

Definition create_key (req : CreateKeyRequest) (q : DomainQuery) (client : AuthenticatedClient) : M Response :=
  let name := ck_name req in
  _ ← pure_reply id (validate_name name);
  t ← pure_reply (bad_request "validation_error") (KeyType_parse (default "aes256-gcm" (ck_key_type req)));
  let imported := negb (is_null (ck_import_material req)) in
  material ← create_material req t;
  '(domain_id, domain_name) ← or_reply (resolve_and_gate_domain state client q);
  existing ← find_key domain_id name;
  match existing with
  | Some _ =>
      audit_key client "key.create" name AuditDenied (Some "already exists");;
      reply (key_taken name domain_name)
  | None =>
      decision ← or_500 (acl_check mek client domain_id name Create);
      if negb (is_allowed decision) then
        audit_key client "key.create" name AuditDenied None;;
        reply (err 403 "forbidden" ("not permitted to create key '" +:+ name +:+ "'"))
      else
        id ← new_id 32;
        name_enc ← str_500 (enc_str mek name);
        sealed ← seal_material id 1 material;
        let public := public_key t material in
        _ ← or_500 (create_tx id domain_id name name_enc sealed public t (MkKeyPolicy (ck_mfa_required req))
                      (key_taken name domain_name));
        acl_record_use decision;;
        audit_key client "key.create" name AuditOk (Some (if imported then "imported" else "generated"));;
        key ← find_key domain_id name;
        match key with
        | None => reply (internal "key vanished after create")
        | Some k => v ← summary k; mret (json_response 201 v)
        end
  end.

Fixpoint list_key_rows (domain_id : string) (client : AuthenticatedClient) (rows : list Key) : M (list Json) :=
  match rows with
  | [] => mret []
  | k :: rest =>
      match dec_str mek (k_name_enc k) with
      | Err _ => list_key_rows domain_id client rest
      | Ok name =>
          allowed ← (if is_admin client then mret true
                     else dec ← or_500 (acl_check mek client domain_id name Read); mret (is_allowed dec));
          others ← list_key_rows domain_id client rest;
          mret (match allowed, KeyType_parse (k_type k) with
                | true, Ok t =>
                    JObj (list_item (MkKeyRow (k_id k) name t (k_latest k) (k_flags k) (fmt_text (k_created k))
                                       (fmt_text (k_updated k)))) :: others
                | _, _ => others
                end)
      end
  end.

Definition list_keys (q : DomainQuery) (client : AuthenticatedClient) : M Response :=
  '(domain_id, _) ← or_reply (resolve_and_gate_domain state client q);
  rows ← or_500 (query (fun _ d =>
    take 500 (order_by (fun k => - k_created k) (select (fun k => k_domain k =s? domain_id) (keys d)))));
  items ← list_key_rows domain_id client rows;
  audit (audit_hmac_key state) mek (Some (ac_id client)) "key.list" None AuditOk None;;
  mret (json_response 200 (JObj [("keys", JArr items); ("count", JNum (Z.of_nat (length items)))])).

Definition show_key (name : string) (q : DomainQuery) (client : AuthenticatedClient) : M Response :=
  '(key, decision) ← gate client q name Read "key.read";
  v ← summary key;
  acl_record_use decision;;
  audit_key client "key.read" name AuditOk None;;
  mret (json_response 200 v).

Definition key_jwks (name : string) (q : DomainQuery) (client : AuthenticatedClient) : M Response :=
  '(key, decision) ← gate client q name Read "key.read";
  if negb (bool_decide (kr_type key = Ed25519)) then
    reply (bad_request "wrong_key_type"
             ("only Ed25519 keys have public keys; '" +:+ name +:+ "' is " +:+ KeyType_as_str (kr_type key)
              +:+ " (verify its tokens through the API)"))
  else
    rows ← or_500 (query (fun _ d =>
      order_by (fun v => - kv_version v) (select (fun v => kv_key v =s? kr_id key) (key_versions d))));
    let jwks := omap (fun v => pk ← kv_public v ≫= array32;
                               Some (ed25519_jwk pk (name +:+ ":v" +:+ show_Z (kv_version v)))) rows in
    acl_record_use decision;;
    audit_key client "key.read" name AuditOk (Some "jwks");;
    mret (json_response 200 (JObj [("keys", JArr jwks)])).

Definition bump_version (now : Z) (k : Key) : Key :=
  MkKey (k_id k) (k_name_enc k) (k_name_id k) (k_domain k) (k_type k) (k_latest k + 1) (k_flags k) (k_created k) now.

(** [UPDATE ... SET latest_version = latest_version + 1 ... RETURNING]; the
    column is a 32-bit INTEGER. *)
Definition next_version (id : string) (now : Z) (d : Db) : result SqlError (Z * Db) :=
  match first_row (fun k => k_id k =s? id) (keys d) with
  | None => Err SqlRowNotFound
  | Some k =>
      if k_latest k <? 2 ^ 31 - 1
      then Ok (k_latest k + 1, upd_keys (update_where (fun k => k_id k =s? id) (bump_version now)) d)
      else Err (SqlConfig "integer out of range")
  end.

Definition rotate_tx (key_id : string) (material : bytes) (public : option bytes) : M (result SqlError Z) :=
  transaction (
    version ←? sql (next_version key_id);
    sealed ← seal_material key_id version material;
    _ ←? sql (fun now => insert_version (MkKeyVersion key_id version sealed public now));
    mret (Ok version)).

Definition rotate_key (name : string) (q : DomainQuery) (client : AuthenticatedClient) : M Response :=
  '(key, decision) ← gate client q name Update "key.rotate";
  material ← KeyType_generate;
  let public := public_key (kr_type key) material in
  version ← or_500 (rotate_tx (kr_id key) material public);
  acl_record_use decision;;
  audit_key client "key.rotate" name AuditOk (Some ("now v" +:+ show_Z version));;
  v ← summary (MkKeyRow (kr_id key) (kr_name key) (kr_type key) version (kr_policy key) (kr_created key) (kr_updated key));
  mret (json_response 200 v).

(** [ON DELETE CASCADE] takes the versions along. *)
Definition remove_key (id : string) (d : Db) : Db :=
  upd_key_versions (delete_where (fun v => kv_key v =s? id)) (upd_keys (delete_where (fun k => k_id k =s? id)) d).

Definition delete_key (name : string) (q : DomainQuery) (client : AuthenticatedClient) : M Response :=
  '(key, decision) ← gate client q name Delete "key.delete";
  _ ← or_500 (exec (fun _ => remove_key (kr_id key)));
  acl_record_use decision;;
  audit_key client "key.delete" name AuditOk (Some ("destroyed " +:+ show_Z (kr_latest key) +:+ " version(s)"));;
  now ← utc_now;
  mret (json_response 200 (JObj [("deleted", JBool true); ("name", JStr name); ("versions", JNum (kr_latest key));
                                 ("deleted_at", JStr (fmt_rfc3339 now))])).

(** ** Operations *)

Definition begin_op (client : AuthenticatedClient) (h : Headers) (q : DomainQuery) (name op : string)
    (allowed : list KeyType) (uses_secret : KeyType -> bool) : M (KeyRow * AclDecision) :=
  let audit_action := "key." +:+ op in
  '(key, decision) ← gate client q name Read audit_action;
  _ ← pure_reply id (require_type key allowed op);
  _ ← (if uses_secret (kr_type key) then key_mfa_gate client h key audit_action else mret tt);
  mret (key, decision).

Definition finish_op (client : AuthenticatedClient) (decision : AclDecision) (key : KeyRow) (op : string)
    (message : option string) (body : Json) : M Response :=
  acl_record_use decision;;
  audit_key client ("key." +:+ op) (kr_name key) AuditOk message;;
  mret (json_response 200 body).

Definition encrypt (name : string) (req : EncryptRequest) (q : DomainQuery) (h : Headers) (client : AuthenticatedClient) :
    M Response :=
  plaintext ← pure_reply id (b64_field "plaintext" (er_plaintext req));
  aad ← pure_reply id (aad_field (er_aad req));
  '(key, decision) ← begin_op client h q name "encrypt" [Aes256Gcm] (fun _ => true);
  material ← load_material key (kr_latest key);
  nonce ← draw 12;
  ct ← pure_500 crypto_msg (aead_seal_aad nonce plaintext material aad);
  finish_op client decision key "encrypt" None
    (JObj [("ciphertext", JStr (versioned (kr_latest key) ct)); ("version", JNum (kr_latest key))]).

Definition decrypt_failed : Response :=
  bad_request "decrypt_failed"
    "decryption failed — the ciphertext was made by a different key, with different associated data, or was modified".

Definition decrypt (name : string) (req : DecryptRequest) (q : DomainQuery) (h : Headers) (client : AuthenticatedClient) :
    M Response :=
  '(version, ct) ← pure_reply (bad_request "validation_error") (parse_versioned (dr_ciphertext req));
  aad ← pure_reply id (aad_field (dr_aad req));
  '(key, decision) ← begin_op client h q name "decrypt" [Aes256Gcm] (fun _ => true);
  material ← load_material key version;
  match aead_open_aad ct material aad with
  | Err _ =>
      audit_key client "key.decrypt" name AuditError (Some "authentication failed");;
      reply decrypt_failed
  | Ok plaintext =>
      finish_op client decision key "decrypt" None
        (JObj [("plaintext", JStr (b64_encode plaintext)); ("version", JNum version)])
  end.

Definition datakey (name : string) (q : DomainQuery) (h : Headers) (client : AuthenticatedClient) : M Response :=
  '(key, decision) ← begin_op client h q name "datakey" [Aes256Gcm] (fun _ => true);
  material ← load_material key (kr_latest key);
  dek ← op_random_bytes 32;
  nonce ← draw 12;
  wrapped ← pure_500 crypto_msg (aead_seal_aad nonce dek material []);
  finish_op client decision key "datakey" None
    (JObj [("plaintext", JStr (b64_encode dek)); ("ciphertext", JStr (versioned (kr_latest key) wrapped));
           ("version", JNum (kr_latest key))]).

Definition sign (name input : string) (q : DomainQuery) (h : Headers) (client : AuthenticatedClient) : M Response :=
  input ← pure_reply id (b64_field "input" input);
  '(key, decision) ← begin_op client h q name "sign" [Ed25519] (fun _ => true);
  material ← load_material key (kr_latest key);
  sig ← pure_500 id (op_ed25519_sign material input);
  pk ← pure_500 id (op_ed25519_public material);
  finish_op client decision key "sign" None
    (JObj [("signature", JStr (versioned (kr_latest key) sig)); ("version", JNum (kr_latest key));
           ("public_key", JStr (b64_encode pk))]).

Definition hmac_op (name : string) (req : HmacRequest) (q : DomainQuery) (h : Headers) (client : AuthenticatedClient) :
    M Response :=
  input ← pure_reply id (b64_field "input" (hr_input req));
  alg ← pure_reply (bad_request "validation_error") (HashAlg_parse (default "sha3-256" (hr_algorithm req)));
  '(key, decision) ← begin_op client h q name "hmac" [Hmac] (fun _ => true);
  material ← load_material key (kr_latest key);
  let tag := CryptoOps.hmac alg material input in
  finish_op client decision key "hmac" None
    (JObj [("hmac", JStr (versioned (kr_latest key) tag)); ("algorithm", JStr (HashAlg_as_str alg));
           ("version", JNum (kr_latest key))]).

(** Verifying with an Ed25519 key needs no second factor: the half it uses is
    public. *)
Definition only_hmac (t : KeyType) : bool := bool_decide (t = Hmac).

Definition verify (name : string) (req : VerifyRequest) (q : DomainQuery) (h : Headers) (client : AuthenticatedClient) :
    M Response :=
  input ← pure_reply id (b64_field "input" (vr_input req));
  '(version, tag) ← pure_reply (bad_request "validation_error") (parse_versioned (vr_signature req));
  alg ← pure_reply (bad_request "validation_error") (HashAlg_parse (default "sha3-256" (vr_algorithm req)));
  '(key, decision) ← begin_op client h q name "verify" [Ed25519; Hmac] only_hmac;
  valid ← match kr_type key with
          | Ed25519 => pk ← load_public key version; mret (op_ed25519_verify pk input tag)
          | _ => m ← load_material key version; mret (hmac_verify alg m input tag)
          end;
  finish_op client decision key "verify" (Some (if valid : bool then "valid" else "invalid"))
    (JObj [("valid", JBool valid); ("version", JNum version)]).

Definition now_unix : M Z := now ← utc_now; mret (now / micros).

Definition issue_token (name : string) (req : IssueTokenRequest) (q : DomainQuery) (h : Headers)
    (client : AuthenticatedClient) : M Response :=
  '(key, decision) ← begin_op client h q name "token" [Ed25519; Hmac] (fun _ => true);
  now ← now_unix;
  jti ← draw 16;
  claims ← pure_reply (bad_request "validation_error")
    (token_claims (MkTokenRequest (default [] (it_claims req)) (it_subject req) (it_audience req) (it_issuer req)
                     (default DEFAULT_TOKEN_TTL_SECS (it_ttl_secs req)) (it_not_before_secs req)) now jti);
  material ← load_material key (kr_latest key);
  let signer := match kr_type key with Ed25519 => SignEd25519 material | _ => SignHmac material end in
  let kid := name +:+ ":v" +:+ show_Z (kr_latest key) in
  token ← pure_500 id (token_issue signer (Some kid) claims);
  let exp := default 0 (obj_get "exp" claims ≫= as_i64) in
  let note := option_map (fun s => "sub=" +:+ s) (obj_get "sub" claims ≫= as_str) in
  finish_op client decision key "token" note
    (JObj [("token", JStr token); ("kid", JStr kid); ("expires_at", JStr (fmt_unix exp)); ("claims", JObj claims)]).

Definition invalid (reason : string) : Json := JObj [("valid", JBool false); ("reason", JStr reason)].

Definition verify_token (name : string) (req : VerifyTokenRequest) (q : DomainQuery) (h : Headers)
    (client : AuthenticatedClient) : M Response :=
  '(key, decision) ← begin_op client h q name "token.verify" [Ed25519; Hmac] only_hmac;
  match token_version (vt_token req) key with
  | Err e => finish_op client decision key "token.verify" (Some "invalid") (invalid e)
  | Ok version =>
      if negb ((1 <=? version) && (version <=? kr_latest key)) then
        finish_op client decision key "token.verify" (Some "invalid")
          (invalid ("key '" +:+ name +:+ "' has no version " +:+ show_Z version))
      else
        now ← now_unix;
        outcome ← match kr_type key with
                  | Ed25519 => pk ← load_public key version;
                               mret (token_verify (vt_token req) (VerifyEd25519 pk) now (vt_audience req))
                  | _ => m ← load_material key version;
                         mret (token_verify (vt_token req) (VerifyHmac m) now (vt_audience req))
                  end;
        let '(body, note) :=
          match outcome with
          | Ok claims => (JObj [("valid", JBool true); ("kid", JStr (name +:+ ":v" +:+ show_Z version));
                                ("claims", JObj claims)], "valid")
          | Err reason => (invalid reason, "invalid")
          end in
        finish_op client decision key "token.verify" (Some note) body
  end.
End keys.
