(* ===== verification/KeysProps.v ===== *)
(** Properties of managed keys ([Keys.v]): the version numbering stays whole
    under any interleaving, ciphertexts outlive rotations, and no operation
    touches a key the caller was not cleared for. *)
From S2P Require Import Prelude Text AccessRules Crypto ToyPrimitives Store Effects Concurrency ServerBase ToyPlatform AuditLog Auth AuthProps Threshold ThresholdProps ReadLimit Secrets SecretsLemmas CryptoOps ToyOps CryptoOpsProps Keys.

(** ** Frames *)

Section frames.
Context {P : Primitives} {PF : Platform} {O : OpsLib} (state : AppState).

Lemma writes_audit_key c a n st m : writes [PAudits] (audit_key state c a n st m).
Proof. unfold audit_key. solve_writes. Qed.
#[local] Hint Resolve writes_audit_key : writes.

Lemma writes_find_key d n : writes [] (find_key state d n).
Proof. unfold find_key, or_internal, pure_reply. solve_writes. Qed.
Lemma writes_seal_material i v m : writes [] (seal_material state i v m).
Proof. unfold seal_material, pure_reply. solve_writes. Qed.
#[local] Hint Resolve writes_find_key writes_seal_material : writes.
Lemma writes_gate c q n a aa : writes [PAudits] (gate state c q n a aa).
Proof. unfold gate, or_internal. solve_writes. Qed.
Lemma writes_key_mfa_gate c h k a : writes [PAudits; PClients] (key_mfa_gate state c h k a).
Proof. unfold key_mfa_gate, pure_reply. solve_writes. Qed.
Lemma writes_load_material k v : writes [] (load_material state k v).
Proof. unfold load_material, or_internal, pure_reply. solve_writes. Qed.
Lemma writes_load_public k v : writes [] (load_public k v).
Proof. unfold load_public, or_internal, pure_reply. solve_writes. Qed.
Lemma writes_summary k : writes [] (summary k).
Proof. unfold summary, or_internal. solve_writes. Qed.
#[local] Hint Resolve writes_gate writes_key_mfa_gate writes_load_material writes_load_public writes_summary : writes.
Lemma writes_begin_op c h q n op l f : writes [PAudits; PClients] (begin_op state c h q n op l f).
Proof. unfold begin_op, pure_reply. solve_writes. Qed.
Lemma writes_finish_op c d k op m b : writes [PAudits; PAcls] (finish_op state c d k op m b).
Proof. unfold finish_op. solve_writes. Qed.
#[local] Hint Resolve writes_begin_op writes_finish_op : writes.
End frames.

#[export] Hint Resolve writes_audit_key writes_find_key writes_seal_material writes_gate writes_key_mfa_gate
  writes_load_material writes_load_public writes_summary writes_begin_op writes_finish_op : writes.

(** ** Endpoints as calls *)

Inductive key_call :=
| CallCreate (req : CreateKeyRequest)
| CallList
| CallShow (name : string)
| CallJwks (name : string)
| CallRotate (name : string)
| CallDelete (name : string)
| CallEncrypt (name : string) (req : EncryptRequest)
| CallDecrypt (name : string) (req : DecryptRequest)
| CallDatakey (name : string)
| CallSign (name input : string)
| CallHmac (name : string) (req : HmacRequest)
| CallVerify (name : string) (req : VerifyRequest)
| CallIssue (name : string) (req : IssueTokenRequest)
| CallVerifyToken (name : string) (req : VerifyTokenRequest).

Definition is_delete (c : key_call) : bool := match c with CallDelete _ => true | _ => false end.

Section calls.
Context {P : Primitives} {PF : Platform} {O : OpsLib} (state : AppState).

Definition key_endpoint (q : DomainQuery) (h : Headers) (client : AuthenticatedClient) (c : key_call) : M Response :=
  match c with
  | CallCreate req => create_key state req q client
  | CallList => list_keys state q client
  | CallShow name => show_key state name q client
  | CallJwks name => key_jwks state name q client
  | CallRotate name => rotate_key state name q client
  | CallDelete name => delete_key state name q client
  | CallEncrypt name req => encrypt state name req q h client
  | CallDecrypt name req => decrypt state name req q h client
  | CallDatakey name => datakey state name q h client
  | CallSign name input => sign state name input q h client
  | CallHmac name req => hmac_op state name req q h client
  | CallVerify name req => verify state name req q h client
  | CallIssue name req => issue_token state name req q h client
  | CallVerifyToken name req => verify_token state name req q h client
  end.

(** Three endpoints write the key tables. *)
Definition writes_keys (c : key_call) : bool :=
  match c with CallCreate _ | CallRotate _ | CallDelete _ => true | _ => false end.

Lemma writes_list_key_rows d c rows : writes [] (list_key_rows state d c rows).
Proof.
  induction rows as [|k rows IH]; cbn [list_key_rows]; [exact I|]. destruct (dec_str _ _); [|done].
  apply writes_bind; [solve_writes|intros allowed]. apply writes_bind; [done|intros others]. exact I.
Qed.
#[local] Hint Resolve writes_list_key_rows : writes.

Lemma writes_key_use q h client c :
  writes_keys c = false -> writes [PAudits; PClients; PAcls] (key_endpoint q h client c).
Proof.
  destruct c; try done; intros _; cbn [key_endpoint].
  - unfold list_keys. solve_writes.
  - unfold show_key. solve_writes.
  - unfold key_jwks. solve_writes.
  - unfold encrypt, pure_reply. solve_writes.
  - unfold decrypt, pure_reply. solve_writes.
  - unfold datakey, op_random_bytes. solve_writes.
  - unfold sign, pure_reply. solve_writes.
  - unfold hmac_op, pure_reply. solve_writes.
  - unfold verify, pure_reply. solve_writes.
  - unfold issue_token, now_unix, pure_reply. solve_writes.
  - unfold verify_token, now_unix. solve_writes.
Qed.
End calls.

(** ** The version numbering *)

Definition key_tables (d : Db) : list Key * list KeyVersion := (keys d, key_versions d).
Definition key_place (k : Key) : string * string := (k_domain k, k_name_id k).
Definition version_place (v : KeyVersion) : string * Z := (kv_key v, kv_version v).

(** Ids and names are unique, and every key has exactly the versions [1] to
    [latest_version], once each; no version lacks its key. *)
Record keys_wf (t : list Key * list KeyVersion) : Prop := {
  wf_ids : NoDup (k_id <$> t.1);
  wf_names : NoDup (key_place <$> t.1);
  wf_versions : NoDup (version_place <$> t.2);
  wf_latest k : k ∈ t.1 -> 1 <= k_latest k < 2 ^ 31;
  wf_complete k n : k ∈ t.1 -> (1 <= n <= k_latest k <-> (k_id k, n) ∈ version_place <$> t.2);
  wf_owned v : v ∈ t.2 -> kv_key v ∈ k_id <$> t.1;
}.

Lemma NoDup_snoc {A} (l : list A) x : NoDup l -> x ∉ l -> NoDup (l ++ [x]).
Proof. intros Hl Hx. apply NoDup_app. split; [done|]. split; [set_solver|apply NoDup_singleton]. Qed.

Lemma NoDup_fmap_filter {A B} (f : A -> B) p l : NoDup (f <$> l) -> NoDup (f <$> List.filter p l).
Proof.
  induction l as [|x l IH]; [done|]. rewrite fmap_cons. intros [Hx Hl]%NoDup_cons. simpl.
  destruct (p x); [|by apply IH]. rewrite fmap_cons. apply NoDup_cons. split; [|by apply IH].
  intros Hin. apply Hx. apply list_elem_of_fmap in Hin as (y & -> & Hy). apply list_elem_of_fmap. exists y.
  split; [done|]. apply list_elem_of_In, filter_In in Hy as [Hy _]. by apply list_elem_of_In.
Qed.

(** The three changes. *)
Lemma wf_create ks vs k v :
  keys_wf (ks, vs) -> (forall x, x ∈ ks -> k_id x <> k_id k /\ key_place x <> key_place k) ->
  k_latest k = 1 -> version_place v = (k_id k, 1) -> keys_wf (ks ++ [k], vs ++ [v]).
Proof.
  intros [H1 H2 H3 H4 H5 H6] Hnew Hl Hv. simpl in *.
  assert (Hid : k_id k ∉ k_id <$> ks). { intros (x & Hx & Hin)%list_elem_of_fmap. destruct (Hnew x Hin); congruence. }
  assert (Hvk : forall n, (k_id k, n) ∉ version_place <$> vs).
  { intros n (x & Hx & Hin)%list_elem_of_fmap. apply Hid. injection Hx as -> _. by apply H6. }
  split; simpl.
  - rewrite fmap_app. by apply NoDup_snoc.
  - rewrite fmap_app. apply NoDup_snoc; [done|]. intros (x & Hx & Hin)%list_elem_of_fmap. destruct (Hnew x Hin); congruence.
  - rewrite fmap_app. apply NoDup_snoc; [done|]. rewrite Hv. apply Hvk.
  - intros x [Hx| ->%list_elem_of_singleton]%elem_of_app; [by apply H4|lia].
  - intros x n [Hx| ->%list_elem_of_singleton]%elem_of_app; rewrite fmap_app, elem_of_app.
    + rewrite (H5 x n Hx). split; [by left|]. intros [?|Hs]; [done|]. exfalso.
      apply list_elem_of_singleton in Hs. rewrite Hv in Hs. injection Hs as He _. destruct (Hnew x Hx); congruence.
    + cbn [fmap list_fmap]. rewrite list_elem_of_singleton, Hv, Hl. split.
      * intros Hn. right. by assert (n = 1) as -> by lia.
      * intros [Hs|[= ->]]; [by apply Hvk in Hs|lia].
  - intros x [Hx| ->%list_elem_of_singleton]%elem_of_app; rewrite fmap_app, elem_of_app; [left; by apply H6|right].
    apply list_elem_of_singleton. by injection Hv as ->.
Qed.

Lemma bumped_ids id now ks :
  k_id <$> update_where (fun k => k_id k =s? id) (bump_version now) ks = k_id <$> ks.
Proof.
  unfold update_where. induction ks as [|k ks IH]; [done|]. rewrite map_cons, !fmap_cons. f_equal; [|exact IH].
  by destruct (k_id k =s? id).
Qed.

Lemma bumped_places id now ks :
  key_place <$> update_where (fun k => k_id k =s? id) (bump_version now) ks = key_place <$> ks.
Proof.
  unfold update_where. induction ks as [|k ks IH]; [done|]. rewrite map_cons, !fmap_cons. f_equal; [|exact IH].
  by destruct (k_id k =s? id).
Qed.

Lemma wf_rotate ks vs k v now :
  keys_wf (ks, vs) -> k ∈ ks -> k_latest k < 2 ^ 31 - 1 -> version_place v = (k_id k, k_latest k + 1) ->
  keys_wf (update_where (fun x => k_id x =s? k_id k) (bump_version now) ks, vs ++ [v]).
Proof.
  intros [H1 H2 H3 H4 H5 H6] Hk Hlt Hv. simpl in *.
  assert (Huniq : forall x, x ∈ ks -> k_id x = k_id k -> x = k).
  { intros x Hx He. by apply (NoDup_fmap_inj k_id ks). }
  assert (Hnew : (k_id k, k_latest k + 1) ∉ version_place <$> vs).
  { intros Hin%(H5 k _ Hk). lia. }
  split; simpl.
  - by rewrite bumped_ids.
  - by rewrite bumped_places.
  - rewrite fmap_app. apply NoDup_snoc; [done|]. by rewrite Hv.
  - intros x (x0 & Hx0 & ->)%elem_of_update_where. pose proof (H4 x0 Hx0).
    destruct (String.eqb_spec (k_id x0) (k_id k)) as [He|]; [|done]. apply (Huniq x0 Hx0) in He as ->. simpl. lia.
  - intros x n (x0 & Hx0 & ->)%elem_of_update_where. rewrite fmap_app, elem_of_app.
    cbn [fmap list_fmap]. rewrite list_elem_of_singleton, Hv.
    destruct (String.eqb_spec (k_id x0) (k_id k)) as [He|Hne].
    + apply (Huniq x0 Hx0) in He as ->. simpl. pose proof (H5 k n Hk) as Hc. pose proof (H4 k Hk).
      split.
      * intros Hn. destruct (decide (n = k_latest k + 1)) as [->|]; [by right|left]. apply Hc. lia.
      * intros [Hc'%Hc|[= ->]]; lia.
    + rewrite (H5 x0 n Hx0). split; [by left|]. intros [?|[= He _]]; [done|]. by rewrite He in Hne.
  - intros x [Hx| ->%list_elem_of_singleton]%elem_of_app; rewrite bumped_ids; [by apply H6|].
    injection Hv as -> _. apply list_elem_of_fmap. by exists k.
Qed.

Lemma wf_delete ks vs id :
  keys_wf (ks, vs) ->
  keys_wf (delete_where (fun k => k_id k =s? id) ks, delete_where (fun v => kv_key v =s? id) vs).
Proof.
  intros [H1 H2 H3 H4 H5 H6]. simpl in *. split; simpl; try (by apply NoDup_fmap_filter).
  - intros k [Hk _]%elem_of_delete_where. by apply H4.
  - intros k n [Hk Hne]%elem_of_delete_where. rewrite (H5 k n Hk). rewrite !list_elem_of_fmap. split.
    + intros (v & He & Hv). exists v. split; [done|]. apply elem_of_delete_where. split; [done|]. by injection He as <- _.
    + intros (v & He & [Hv _]%elem_of_delete_where). by exists v.
  - intros v [Hv Hne]%elem_of_delete_where. apply H6 in Hv. apply list_elem_of_fmap in Hv as (k & He & Hk).
    rewrite He in Hne |- *. apply list_elem_of_fmap. exists k. split; [done|]. by apply elem_of_delete_where.
Qed.

Section numbering.
Context {P : Primitives} {PF : Platform} {O : OpsLib} (state : AppState).
(** Something else the tables satisfy, which new keys and versions do not undo. *)
Context (E : list Key * list KeyVersion -> Prop).
Context (E_create : forall ks vs k v, E (ks, vs) -> E (ks ++ [k], vs ++ [v])).
Context (E_rotate : forall ks vs id now v, keys_wf (ks, vs) -> E (ks, vs) ->
           E (update_where (fun x => k_id x =s? id) (bump_version now) ks, vs ++ [v])).
Context (E_delete : bool).
Context (E_deletes : E_delete = true -> forall ks vs id, E (ks, vs) ->
           E (delete_where (fun k => k_id k =s? id) ks, delete_where (fun v => kv_key v =s? id) vs)).

Definition numbered (t : list Key * list KeyVersion) : Prop := keys_wf t /\ E t.

Abbreviation keeps := (safe (table_inv key_tables numbered) (fun _ => True)).

Lemma insert_key_inv k d u d' :
  insert_key k d = Ok (u, d') ->
  d' = upd_keys (insert_row k) d /\ forall x, x ∈ keys d -> k_id x <> k_id k /\ key_place x <> key_place k.
Proof.
  unfold insert_key. destruct (existsb _ _) eqn:Ex; [done|]. destruct (one_of _ _); [|done]. intros [= _ <-].
  split; [done|]. intros x Hx. pose proof (existsb_false_elem _ _ Ex x Hx) as H. simpl in H.
  apply orb_false_iff in H as [H1%String.eqb_neq H2]. split; [done|]. unfold key_place. intros [= Hd Hn].
  rewrite Hd, Hn, !String.eqb_refl in H2. done.
Qed.

Lemma insert_version_inv v d u d' : insert_version v d = Ok (u, d') -> d' = upd_key_versions (insert_row v) d.
Proof. unfold insert_version. destruct (existsb _ _); [done|]. by intros [= _ <-]. Qed.

Lemma create_tx_keeps id dom name ne sealed pub t pol taken :
  keeps (create_tx state id dom name ne sealed pub t pol taken).
Proof.
  apply kept_transaction. intros w a w1 [Hwf HE] H. run_inv. destruct x as [u|[]]; run_inv; try discriminate.
  match goal with Hk : insert_key _ _ = _, Hv : insert_version _ _ = _ |- _ =>
    apply insert_key_inv in Hk as [-> Hnew]; apply insert_version_inv in Hv as -> end. split.
  - apply wf_create; [done|exact Hnew|done|done].
  - by apply E_create.
Qed.

Lemma next_version_inv id now d n d' :
  next_version id now d = Ok (n, d') ->
  exists k, k ∈ keys d /\ k_id k = id /\ k_latest k < 2 ^ 31 - 1 /\ n = k_latest k + 1 /\
    d' = upd_keys (update_where (fun k => k_id k =s? id) (bump_version now)) d.
Proof.
  unfold next_version. destruct (first_row _ _) as [k|] eqn:Ef; [|done].
  apply first_row_Some in Ef as [Hk Hid%String.eqb_eq]. destruct (Z.ltb_spec (k_latest k) (2 ^ 31 - 1)); [|done].
  intros [= <- <-]. by exists k.
Qed.

Lemma rotate_tx_keeps id material pub : keeps (rotate_tx state id material pub).
Proof.
  apply kept_transaction. intros w a w1 [Hwf HE] H. run_inv.
  match goal with Hn : next_version _ _ _ = _, Hv : insert_version _ _ = _, Hs : run (seal_material _ _ _ _) _ = _ |- _ =>
    apply next_version_inv in Hn as (k & Hk & <- & Hlt & -> & ->); apply insert_version_inv in Hv as ->;
    destruct (reads_only _ _ _ _ (writes_seal_material _ _ _ _) Hs) as [Hdb _] end.
  unfold table_inv, key_tables in *. simpl in *. rewrite Hdb. simpl. split.
  - by apply wf_rotate.
  - by apply E_rotate.
Qed.

(** The key tables through a phase that leaves them alone. *)
Lemma keeps_phase ps {A B} (m : M A) (f : A -> M B) :
  writes ps m -> bool_decide (PKeys ∈ ps) = false -> bool_decide (PKeyVersions ∈ ps) = false ->
  (forall a, keeps (f a)) -> keeps (m ≫= f).
Proof.
  intros Hm H1 H2 Hf. apply (kept_phase key_tables numbered ps); try done.
  intros w w' Hfr. unfold key_tables. pose proof (Hfr PKeys H1) as He. pose proof (Hfr PKeyVersions H2) as Hv.
  simpl in He, Hv. by rewrite He, Hv.
Qed.

Lemma keeps_writes ps {A} (m : M A) :
  writes ps m -> bool_decide (PKeys ∈ ps) = false -> bool_decide (PKeyVersions ∈ ps) = false -> keeps m.
Proof.
  intros Hm H1 H2. apply safe_steps; [|done]. eapply Steps_impl, Hm. intros w w' Hfr. unfold table_inv, key_tables.
  pose proof (Hfr PKeys H1) as He. pose proof (Hfr PKeyVersions H2) as Hv. simpl in He, Hv. by rewrite He, Hv.
Qed.

Lemma or_500_keeps {A B} (m : M (result SqlError A)) (f : A -> M B) :
  keeps m -> (forall a, keeps (f a)) -> keeps (or_500 m ≫= f).
Proof.
  intros Hm Hf. apply safe_seq; [|done]. apply safe_seq; [done|]. intros [a|e]; done.
Qed.

Ltac keeps_through ps := apply (keeps_phase ps); [unfold create_material, KeyType_generate, pure_reply; solve_writes|reflexivity|reflexivity|].

Lemma create_key_keeps req q client : keeps (create_key state req q client).
Proof.
  unfold create_key. keeps_through (@nil part); intros _. keeps_through (@nil part); intros t.
  keeps_through (@nil part); intros material. keeps_through (@nil part); intros [dom dname].
  keeps_through (@nil part); intros [k|].
  { keeps_through [PAudits]. done. }
  keeps_through (@nil part); intros dec. destruct (negb _); [keeps_through [PAudits]; done|].
  keeps_through (@nil part); intros id. keeps_through (@nil part); intros ne. keeps_through (@nil part); intros sealed.
  apply or_500_keeps; [apply create_tx_keeps|intros u].
  keeps_through [PAcls]; intros _. keeps_through [PAudits]; intros _. keeps_through (@nil part); intros [k|]; [|done].
  by keeps_through (@nil part).
Qed.

Lemma rotate_key_keeps name q client : keeps (rotate_key state name q client).
Proof.
  unfold rotate_key. keeps_through [PAudits]; intros [key dec]. keeps_through (@nil part); intros material.
  apply or_500_keeps; [apply rotate_tx_keeps|intros v].
  keeps_through [PAcls]; intros _. keeps_through [PAudits]; intros _. by keeps_through (@nil part).
Qed.

Lemma delete_key_keeps name q client : E_delete = true -> keeps (delete_key state name q client).
Proof.
  intros Hd. unfold delete_key. keeps_through [PAudits]; intros [key dec].
  apply or_500_keeps; [|intros u].
  - apply kept_sql; [done|]. intros now d [Hwf HE]. split; [split|done].
    + by apply wf_delete.
    + by apply E_deletes.
  - keeps_through [PAcls]; intros _. keeps_through [PAudits]; intros _. by keeps_through (@nil part).
Qed.

Lemma key_call_keeps q h client c :
  (is_delete c = true -> E_delete = true) -> keeps (key_endpoint state q h client c).
Proof.
  intros Hd. destruct (writes_keys c) eqn:Ew.
  - destruct c; try done; [apply create_key_keeps|apply rotate_key_keeps|by apply delete_key_keeps, Hd].
  - eapply keeps_writes; [by apply writes_key_use|done..].
Qed.
End numbering.

(** ** What a passing gate established *)

Section gates.
Context {P : Primitives} {PF : Platform} {O : OpsLib} (state : AppState).

Abbreviation mek := (metadata_enc_key state).

Lemma run_pure_reply {E A} (f : E -> Response) (r : result E A) w a w' :
  run (pure_reply f r) w = (Val a, w') -> r = Ok a /\ w' = w.
Proof. destruct r; simpl; intros; by simplify_eq. Qed.

Lemma run_or_internal {A} (m : M (result SqlError A)) w a w' :
  run (or_internal m) w = (Val a, w') -> run m w = (Val (Ok a), w').
Proof.
  unfold or_internal. rewrite run_bind. destruct (run m w) as [[[x|e]|r|s e] w1]; intros; by simplify_eq/=.
Qed.

Definition key_row (name : string) (k : Key) (t : KeyType) : KeyRow :=
  MkKeyRow (k_id k) name t (k_latest k) (k_flags k) (fmt_text (k_created k)) (fmt_text (k_updated k)).

Definition named_key (dom name : string) (k : Key) : bool :=
  (k_domain k =s? dom) && (k_name_id k =s? key_name_id state dom name).

Lemma find_key_inv dom name w kr w' :
  run (find_key state dom name) w = (Val (Some kr), w') ->
  exists k t, first_row (named_key dom name) (keys (db w)) = Some k /\ KeyType_parse (k_type k) = Ok t /\
    kr = key_row name k t.
Proof.
  unfold find_key. intros H. apply run_bind_Val in H as (row & w1 & Hq & H). apply run_or_internal in Hq.
  apply run_query_Ok in Hq as (-> & l & ->). fold (named_key dom name) in H.
  destruct (first_row (named_key dom name) (keys (db w))) as [k|] eqn:Ek; [|by run_inv].
  apply run_bind_Val in H as (t & w2 & Ht & H). apply run_pure_reply in Ht as [Ht ->]. run_inv. by exists k, t.
Qed.

(** The row a caller was let through to, in the state the request found. *)
Definition key_cleared (d : Db) (now : Z) (q : DomainQuery) (client : AuthenticatedClient) (name : string)
    (action : AclAction) (k : Key) : Prop :=
  exists dom, live_domain_id (domain_name_id_hex (name_index_key state) (DomainQuery_name q)) d = Some dom /\
    (is_admin client = true \/ has_member (ac_id client) dom None d = true) /\
    first_row (named_key dom name) (keys d) = Some k /\ acl_granted mek d now client dom name action.

Lemma gate_inv client q name action aa w kr dec w' :
  run (gate state client q name action aa) w = (Val (kr, dec), w') ->
  db w' = db w /\ clock w' = clock w /\
  exists k t, key_cleared (db w) (clock w) q client name action k /\ KeyType_parse (k_type k) = Ok t /\
    kr = key_row name k t.
Proof.
  unfold gate. intros H. apply run_bind_Val in H as ([dom dn] & w1 & Hg & H).
  apply gate_domain_inv in Hg as (Hd1 & Hc1 & Hlive & Hmem).
  apply run_bind_Val in H as (row & w2 & Hf & H).
  pose proof (run_reads _ _ _ _ (writes_find_key state dom name) Hf) as [Hd2 Hc2].
  destruct row as [key|]; [|by run_inv]. apply find_key_inv in Hf as (k & t & Hk & Ht & ->).
  apply run_bind_Val in H as (d & w3 & Ha & H). apply run_or_internal in Ha.
  pose proof (run_reads _ _ _ _ (writes_acl_check mek client dom name action) Ha) as [Hd3 Hc3].
  destruct (is_allowed d) eqn:Ed; cbn [negb] in H; [|by run_inv]. run_inv.
  split; [congruence|]. split; [congruence|]. exists k, t. split; [|done]. exists dom. rewrite Hd1 in Hk.
  apply acl_check_sound in Ha; [|done]. rewrite Hd2, Hc2, Hd1, Hc1 in Ha. done.
Qed.

Definition key_mfa_passed (d : Db) (now : Z) (client : AuthenticatedClient) (k : Key) (h : Headers) : Prop :=
  kp_mfa_required (k_flags k) = true ->
  exists code kek, h_mfa h = Some code /\ handle (mfa_secret_kek (app_keys state)) = Ok kek /\
    totp_accepts d now kek (ac_id client) code.

Lemma key_mfa_gate_inv client h k name t aa w w' :
  run (key_mfa_gate state client h (key_row name k t) aa) w = (Val tt, w') ->
  key_mfa_passed (db w) (clock w) client k h.
Proof.
  unfold key_mfa_gate. intros H Hreq. change (kr_policy (key_row name k t)) with (k_flags k) in H.
  rewrite Hreq in H. cbn [negb] in H.
  destruct (h_mfa h) as [code|]; [|by run_inv].
  apply run_bind_Val in H as (kek & w1 & Hk & H). apply run_pure_reply in Hk as [Hk ->].
  apply run_bind_Val in H as (r & w2 & Hv & H). apply run_bind_Val in H as (good & w3 & Hg & H).
  apply run_pure_reply in Hg as [-> ->]. destruct good; [|cbn in H; by run_inv].
  exists code, kek. split; [done|]. split; [done|]. by eapply verify_totp_sound.
Qed.

Lemma begin_op_inv client h q name op allowed uses w kr dec w' :
  run (begin_op state client h q name op allowed uses) w = (Val (kr, dec), w') ->
  key_tables (db w') = key_tables (db w) /\
  exists k t, key_cleared (db w) (clock w) q client name Read k /\ KeyType_parse (k_type k) = Ok t /\ t ∈ allowed /\
    kr = key_row name k t /\ (uses t = true -> key_mfa_passed (db w) (clock w) client k h).
Proof.
  intros H. pose proof (writes_run _ _ w (writes_begin_op state client h q name op allowed uses)) as Hfr.
  rewrite H in Hfr. split.
  { unfold key_tables. pose proof (Hfr PKeys eq_refl) as H1. pose proof (Hfr PKeyVersions eq_refl) as H2.
    simpl in H1, H2. by rewrite H1, H2. }
  unfold begin_op in H. cbv zeta in H. apply run_bind_Val in H as ([key d] & w1 & Hg & H).
  apply gate_inv in Hg as (Hd1 & Hc1 & k & t & Hcl & Ht & ->).
  apply run_bind_Val in H as ([] & w2 & Hr & H). apply run_pure_reply in Hr as [Hr ->].
  apply run_bind_Val in H as ([] & w3 & Hm & H). run_inv. exists k, t. split; [done|]. split; [done|].
  unfold require_type in Hr. simpl in Hr. destruct (bool_decide_reflect (t ∈ allowed)); [|done].
  split; [done|]. split; [done|]. simpl in Hm. intros Hu. rewrite Hu in Hm.
  apply key_mfa_gate_inv in Hm. by rewrite Hd1, Hc1 in Hm.
Qed.
End gates.

(** ** No early 200 *)

Section refusals.
Context {P : Primitives} {PF : Platform} {O : OpsLib} (state : AppState).

Lemma refuses_or_internal {A} (m : M (result SqlError A)) : refuses m -> refuses (or_internal m).
Proof. intros H. apply refuses_bind; [done|]. by intros []. Qed.
Lemma refuses_pure_reply {E A} (f : E -> Response) (r : result E A) :
  (forall e, r = Err e -> is_success (resp_status (f e)) = false) -> refuses (pure_reply f r).
Proof. destruct r as [a|e]; intros H; [exact I|]. by apply H. Qed.
Lemma refuses_b64_field f s : refuses (pure_reply id (b64_field f s)).
Proof. apply refuses_pure_reply. unfold b64_field. destruct (b64_decode _); simpl; [done|by intros e [= <-]]. Qed.
Lemma refuses_aad_field a : refuses (pure_reply id (aad_field a)).
Proof. destruct a; [apply refuses_b64_field|exact I]. Qed.
Lemma refuses_audit_key c a n st m : refuses (audit_key state c a n st m).
Proof. unfold audit_key. solve_refuses. Qed.
#[local] Hint Resolve refuses_audit_key : refuses.
#[local] Hint Resolve refuses_verify_totp : refuses.
Lemma refuses_find_key d n : refuses (find_key state d n).
Proof.
  unfold find_key. apply refuses_bind; [apply refuses_or_internal; solve_refuses|]. intros [k|]; [|exact I].
  apply refuses_bind; [by apply refuses_pure_reply|done].
Qed.
#[local] Hint Resolve refuses_find_key : refuses.
Lemma refuses_key_gate c q n a aa : refuses (gate state c q n a aa).
Proof.
  unfold gate. apply refuses_bind; [apply refuses_gate_domain|]. intros [dom dn]. apply refuses_bind; [solve_refuses|].
  intros [k|]; [|solve_refuses]. apply refuses_bind; [apply refuses_or_internal; solve_refuses|]. solve_refuses.
Qed.
Lemma refuses_key_mfa_gate c h k a : refuses (key_mfa_gate state c h k a).
Proof.
  unfold key_mfa_gate. destruct (negb _); [exact I|]. destruct (h_mfa h); [|solve_refuses].
  apply refuses_bind; [by apply refuses_pure_reply|]. intros kek. apply refuses_bind; [solve_refuses|]. intros r.
  apply refuses_bind; [by apply refuses_pure_reply|]. solve_refuses.
Qed.
Lemma refuses_begin_op c h q n op l f : refuses (begin_op state c h q n op l f).
Proof.
  unfold begin_op. apply refuses_bind; [apply refuses_key_gate|]. intros [k d]. apply refuses_bind.
  - apply refuses_pure_reply. unfold require_type. case_bool_decide; [done|by intros e [= <-]].
  - intros _. apply refuses_bind; [|done]. destruct (f _); [apply refuses_key_mfa_gate|exact I].
Qed.
End refusals.

(** The operations: the key used, the types it may have, and whether the
    secret half of a key of that type is involved. *)
Definition key_use (c : key_call) : option (string * list KeyType * (KeyType -> bool)) :=
  match c with
  | CallEncrypt n _ | CallDecrypt n _ | CallDatakey n => Some (n, [Aes256Gcm], fun _ => true)
  | CallSign n _ => Some (n, [Ed25519], fun _ => true)
  | CallHmac n _ => Some (n, [Hmac], fun _ => true)
  | CallIssue n _ => Some (n, [Ed25519; Hmac], fun _ => true)
  | CallVerify n _ | CallVerifyToken n _ => Some (n, [Ed25519; Hmac], only_hmac)
  | _ => None
  end.

Section uses.
Context {P : Primitives} {PF : Platform} {O : OpsLib} (state : AppState).

(** An operation that answers 200 went through its prologue. *)
Definition through {A} (m : M A) (w : World) (o : outcome Response) : Prop :=
  resp_status (respond o) = 200 -> exists a w1, run m w = (Val a, w1).

Lemma through_here {A} (m : M A) (f : A -> M Response) w o w' :
  refuses m -> run (m ≫= f) w = (o, w') -> through m w o.
Proof.
  intros Hr H Hst. pose proof (Leaves_run _ _ w Hr) as Hl. rewrite run_bind in H.
  destruct (run m w) as [[a|r|s e] w1]; [by eexists _, _|..]; simplify_eq/=; by apply not_200 in Hl.
Qed.

Lemma through_pure {E A B} (g : E -> Response) (r : result E B) (m : M A) (f : B -> M Response) w o w' :
  refuses (pure_reply g r) -> run (pure_reply g r ≫= f) w = (o, w') ->
  (forall b, r = Ok b -> run (f b) w = (o, w') -> through m w o) -> through m w o.
Proof.
  intros Hr H Hf Hst. pose proof (Leaves_run _ _ w Hr) as Hl. rewrite run_bind in H.
  destruct r as [b|e]; simpl in *; [by apply (Hf b)|]. simplify_eq/=. by apply not_200 in Hl.
Qed.

Lemma key_use_begins q h client c name allowed uses w o w' :
  key_use c = Some (name, allowed, uses) -> run (key_endpoint state q h client c) w = (o, w') ->
  exists op, through (begin_op state client h q name op allowed uses) w o.
Proof.
  destruct c; try done; intros [= <- <- <-] H; cbn [key_endpoint] in H; eexists;
    unfold encrypt, decrypt, datakey, sign, hmac_op, verify, issue_token, verify_token in H;
    repeat match type of H with
    | run (pure_reply _ _ ≫= _) _ = _ =>
        refine (through_pure _ _ _ _ _ _ _ _ H _);
          [first [apply refuses_b64_field|apply refuses_aad_field|by apply refuses_pure_reply]|];
          clear H; intros [] _ H || (clear H; intros ? _ H)
    end; by apply (through_here _ _ _ _ _ (refuses_begin_op _ _ _ _ _ _ _ _)) in H.
Qed.
End uses.

(** ** Versions outlive rotations *)

Section survival.
Context {P : Primitives} {L : PrimitiveLaws P} {PF : Platform} {O : OpsLib} (state : AppState).

(** The key of this id and place is there, with at least [n] versions, [v]
    among them. *)
Definition still_there (id : string) (place : string * string) (n : Z) (v : KeyVersion)
    (t : list Key * list KeyVersion) : Prop :=
  v ∈ t.2 /\ exists k, k ∈ t.1 /\ k_id k = id /\ key_place k = place /\ n <= k_latest k.

Lemma still_create id place n v ks vs k x :
  still_there id place n v (ks, vs) -> still_there id place n v (ks ++ [k], vs ++ [x]).
Proof.
  intros [Hv (k0 & Hk & H)]. split; [simpl; set_solver|]. exists k0. split; [simpl; set_solver|done].
Qed.

Lemma still_rotate id place n v ks vs id' now x :
  still_there id place n v (ks, vs) ->
  still_there id place n v (update_where (fun k => k_id k =s? id') (bump_version now) ks, vs ++ [x]).
Proof.
  intros [Hv (k & Hk & Hid & Hp & Hn)]. split; [simpl; set_solver|].
  destruct (k_id k =s? id') eqn:E.
  - exists (bump_version now k). split; [apply elem_of_update_where; exists k; by rewrite E|].
    split; [done|]. split; [done|]. simpl. lia.
  - exists k. split; [apply elem_of_update_where; exists k; by rewrite E|done].
Qed.

Lemma version_row_only d v :
  NoDup (version_place <$> key_versions d) -> v ∈ key_versions d ->
  version_row (kv_key v) (kv_version v) d = Some v.
Proof.
  intros Hnd Hv. apply first_row_only; [done|by rewrite String.eqb_refl, Z.eqb_refl|].
  intros y Hy [H1%String.eqb_eq H2%Z.eqb_eq]%andb_true_iff. apply (NoDup_fmap_inj version_place (key_versions d)); try done.
  unfold version_place. congruence.
Qed.

Lemma named_key_only d dom name k :
  NoDup (key_place <$> keys d) -> k ∈ keys d -> key_place k = (dom, key_name_id state dom name) ->
  first_row (named_key state dom name) (keys d) = Some k.
Proof.
  intros Hnd Hk Hp. injection Hp as Hd Hn. apply first_row_only; [done| |].
  - unfold named_key. by rewrite Hd, Hn, !String.eqb_refl.
  - intros y Hy [H1%String.eqb_eq H2%String.eqb_eq]%andb_true_iff.
    apply (NoDup_fmap_inj key_place (keys d)); try done. unfold key_place. congruence.
Qed.

Lemma check_version_inv kr n u : check_version kr n = Ok u -> 1 <= n <= kr_latest kr.
Proof. unfold check_version. destruct (Z.ltb_spec n 1), (Z.ltb_spec (kr_latest kr) n); done || lia. Qed.

Lemma load_material_inv kr n w m w' :
  run (load_material state kr n) w = (Val m, w') ->
  1 <= n <= kr_latest kr /\ exists v, version_row (kr_id kr) n (db w) = Some v /\
    aead_open_aad (kv_material v) (managed_key_kek state) (material_aad (kr_id kr) n) = Ok m.
Proof.
  unfold load_material. intros H. apply run_bind_Val in H as (u & w1 & Hc & H).
  apply run_pure_reply in Hc as [Hc ->]. apply check_version_inv in Hc. split; [done|].
  apply run_bind_Val in H as (row & w2 & Hq & H). apply run_or_internal, run_query_Ok in Hq as (-> & l & ->).
  destruct (version_row _ _ _) as [v|]; [|by run_inv]. apply run_pure_reply in H as [H _]. by exists v.
Qed.

Lemma load_material_run kr n w v m :
  faults w = [] -> 1 <= n <= kr_latest kr -> version_row (kr_id kr) n (db w) = Some v ->
  aead_open_aad (kv_material v) (managed_key_kek state) (material_aad (kr_id kr) n) = Ok m ->
  run (load_material state kr n) w = (Val m, w).
Proof.
  intros Hf Hn Hv Hm. unfold load_material. eapply run_then.
  { unfold check_version. by destruct (Z.ltb_spec n 1), (Z.ltb_spec (kr_latest kr) n); try lia. }
  eapply run_then; [unfold or_internal; eapply run_then; [by apply run_query|reflexivity]|].
  cbv beta. by rewrite Hv, Hm.
Qed.

Lemma run_key_tables ps {A} (m : M A) w o w' :
  bool_decide (PKeys ∈ ps) = false -> bool_decide (PKeyVersions ∈ ps) = false -> writes ps m ->
  run m w = (o, w') -> key_tables (db w') = key_tables (db w).
Proof.
  intros H1 H2 Hm H. pose proof (writes_run _ _ w Hm) as Hf. rewrite H in Hf. unfold key_tables.
  pose proof (Hf PKeys H1) as Hk. pose proof (Hf PKeyVersions H2) as Hv. simpl in Hk, Hv. by rewrite Hk, Hv.
Qed.

(** The latest version of the key a name stands for, and its material. *)
Record current_key (d : Db) (dom name : string) (k : Key) (v : KeyVersion) (material : bytes) : Prop := {
  ck_there : k ∈ keys d;
  ck_place : key_place k = (dom, key_name_id state dom name);
  ck_version : version_row (k_id k) (k_latest k) d = Some v;
  ck_latest : 1 <= k_latest k;
  ck_opens : aead_open_aad (kv_material v) (managed_key_kek state) (material_aad (k_id k) (k_latest k)) = Ok material;
}.

Lemma current_key_tables d d' dom name k v material :
  key_tables d' = key_tables d -> current_key d dom name k v material -> current_key d' dom name k v material.
Proof.
  unfold key_tables. intros [= Hk Hv] []. constructor; rewrite ?Hk; try done. unfold version_row in *. by rewrite Hv.
Qed.

Lemma begin_load_inv client h q name op allowed uses w kr dec w1 material w2 dom :
  run (begin_op state client h q name op allowed uses) w = (Val (kr, dec), w1) ->
  run (load_material state kr (kr_latest kr)) w1 = (Val material, w2) ->
  live_domain_id (domain_name_id_hex (name_index_key state) (DomainQuery_name q)) (db w) = Some dom ->
  exists k v, current_key (db w) dom name k v material /\ kr_latest kr = k_latest k.
Proof.
  intros Hb Hm Hdom. apply begin_op_inv in Hb as (Ht1 & k & t & (dom' & Hd' & _ & Hk & _) & _ & _ & -> & _).
  assert (Hkv : key_versions (db w1) = key_versions (db w)) by (unfold key_tables in Ht1; congruence). simplify_eq.
  apply first_row_Some in Hk as [Hk [Hkd%String.eqb_eq Hkn%String.eqb_eq]%andb_true_iff].
  apply load_material_inv in Hm as (Hn & v & Hv & Hm). unfold version_row in Hv. rewrite Hkv in Hv.
  exists k, v. split; [|done]. constructor; [done| |exact Hv|simpl in Hn; lia|done]. unfold key_place. congruence.
Qed.

(** What a successful encryption used and produced. *)
Lemma encrypt_inv name req q h client w resp w' dom :
  run (encrypt state name req q h client) w = (Val resp, w') ->
  live_domain_id (domain_name_id_hex (name_index_key state) (DomainQuery_name q)) (db w) = Some dom ->
  exists plaintext aad k v material nonce ct,
    b64_field "plaintext" (er_plaintext req) = Ok plaintext /\ aad_field (er_aad req) = Ok aad /\
    current_key (db w) dom name k v material /\
    length nonce = 12%nat /\ aead_seal_aad nonce plaintext material aad = Ok ct /\
    resp = json_response 200 (JObj [("ciphertext", JStr (versioned (k_latest k) ct)); ("version", JNum (k_latest k))]) /\
    key_tables (db w') = key_tables (db w).
Proof.
  intros H Hdom. pose proof (run_key_tables [PAudits; PClients; PAcls] _ _ _ _ eq_refl eq_refl
    (writes_key_use state q h client (CallEncrypt name req) eq_refl) H) as Htab. unfold encrypt in H.
  apply run_bind_Val in H as (plaintext & w1 & Hp & H). apply run_pure_reply in Hp as [Hp ->].
  apply run_bind_Val in H as (aad & w1 & Ha & H). apply run_pure_reply in Ha as [Ha ->].
  apply run_bind_Val in H as ([kr dec] & w1 & Hb & H). apply run_bind_Val in H as (material & w2 & Hm & H).
  destruct (begin_load_inv _ _ _ _ _ _ _ _ _ _ _ _ _ _ Hb Hm Hdom) as (k & v & Hck & Hl). rewrite Hl in H.
  apply run_bind_Val in H as (nonce & w3 & Hnonce & H). rewrite run_draw in Hnonce. injection Hnonce as <- <-.
  apply run_bind_Val in H as (ct & w4 & Hct & H). apply run_pure_500 in Hct as [Hct ->].
  unfold finish_op in H. apply run_bind_Val in H as (u & w5 & _ & H). apply run_bind_Val in H as (u' & w6 & _ & H).
  rewrite run_ret in H. injection H as <- _.
  exists plaintext, aad, k, v, material, (rand_bytes (rng w2) 12), ct. by rewrite rand_length.
Qed.

(** A data key: fresh, and wrapped without associated data. *)
Lemma datakey_inv name q h client w resp w' dom :
  run (datakey state name q h client) w = (Val resp, w') ->
  live_domain_id (domain_name_id_hex (name_index_key state) (DomainQuery_name q)) (db w) = Some dom ->
  exists k v material nonce dek wrapped,
    current_key (db w) dom name k v material /\ length nonce = 12%nat /\ length dek = 32%nat /\
    aead_seal_aad nonce dek material [] = Ok wrapped /\
    resp = json_response 200 (JObj [("plaintext", JStr (b64_encode dek));
      ("ciphertext", JStr (versioned (k_latest k) wrapped)); ("version", JNum (k_latest k))]) /\
    key_tables (db w') = key_tables (db w).
Proof.
  intros H Hdom. pose proof (run_key_tables [PAudits; PClients; PAcls] _ _ _ _ eq_refl eq_refl
    (writes_key_use state q h client (CallDatakey name) eq_refl) H) as Htab. unfold datakey, op_random_bytes in H.
  apply run_bind_Val in H as ([kr dec] & w1 & Hb & H). apply run_bind_Val in H as (material & w2 & Hm & H).
  destruct (begin_load_inv _ _ _ _ _ _ _ _ _ _ _ _ _ _ Hb Hm Hdom) as (k & v & Hck & Hl). rewrite Hl in H.
  apply run_bind_Val in H as (dek & w3 & Hdek & H). rewrite run_draw in Hdek. injection Hdek as <- <-.
  apply run_bind_Val in H as (nonce & w4 & Hnonce & H). rewrite run_draw in Hnonce. injection Hnonce as <- <-.
  apply run_bind_Val in H as (ct & w5 & Hct & H). apply run_pure_500 in Hct as [Hct ->].
  unfold finish_op in H. apply run_bind_Val in H as (u & w6 & _ & H). apply run_bind_Val in H as (u' & w7 & _ & H).
  rewrite run_ret in H. injection H as <- _.
  eexists k, v, material, (rand_bytes (rng (set_rng (S (rng w2)) w2)) 12), (rand_bytes (rng w2) 32), ct. by rewrite !rand_length.
Qed.

(** A ciphertext opens wherever its version still exists. *)
Lemma decrypt_run name text aad64 aad q h client w kr dec w1 n ct v m plaintext :
  faults w1 = [] -> parse_versioned text = Ok (n, ct) -> aad_field aad64 = Ok aad ->
  run (begin_op state client h q name "decrypt" [Aes256Gcm] (fun _ => true)) w = (Val (kr, dec), w1) ->
  1 <= n <= kr_latest kr -> version_row (kr_id kr) n (db w1) = Some v ->
  aead_open_aad (kv_material v) (managed_key_kek state) (material_aad (kr_id kr) n) = Ok m ->
  aead_open_aad ct m aad = Ok plaintext ->
  exists w2, run (decrypt state name (MkDecrypt text aad64) q h client) w =
    (Val (json_response 200 (JObj [("plaintext", JStr (b64_encode plaintext)); ("version", JNum n)])), w2).
Proof.
  intros Hf Hp Ha Hb Hn Hv Hm Hc. unfold decrypt. simpl dr_ciphertext. simpl dr_aad. rewrite Hp, Ha.
  assert (Hfin : returns (finish_op state client dec kr "decrypt" None
    (JObj [("plaintext", JStr (b64_encode plaintext)); ("version", JNum n)]))).
  { unfold finish_op. apply returns_bind; [apply returns_acl_record_use|intros _].
    apply returns_bind; [apply returns_audit|intros _]. apply returns_ret. }
  destruct (returns_run _ w1 Hfin) as (r & w2 & Hr). exists w2.
  assert (r = json_response 200 (JObj [("plaintext", JStr (b64_encode plaintext)); ("version", JNum n)])) as ->.
  { unfold finish_op in Hr. run_inv. done. }
  eapply run_then; [reflexivity|]. eapply run_then; [reflexivity|]. eapply run_then; [exact Hb|]. cbv beta iota.
  eapply run_then; [by eapply load_material_run|]. cbv beta. by rewrite Hc.
Qed.
End survival.

(** ** The properties *)

Record KeyRequest := MkKeyRequest {
  kq_query : DomainQuery; kq_headers : Headers; kq_client : AuthenticatedClient; kq_call : key_call;
}.

Definition key_request `{Primitives} `{Platform} `{OpsLib} (state : AppState) (r : KeyRequest) : M Response :=
  key_endpoint state (kq_query r) (kq_headers r) (kq_client r) (kq_call r).

(** Text that a version of a key sealed opens after any interleaving of calls
    short of deletion, for whoever the gate lets through. *)
Lemma sealed_survives {P : Primitives} {L : PrimitiveLaws P} {PF : Platform} {O : OpsLib} {OL : OpsLaws P O}
    state dom name k v material nonce plaintext aad aad64 ct calls w1 w2 ps' wr q h' reader kr dec w3 :
  keys_wf (key_tables (db w1)) -> current_key state (db w1) dom name k v material ->
  length nonce = 12%nat -> aead_seal_aad nonce plaintext material aad = Ok ct -> aad_field aad64 = Ok aad ->
  (forall c, c ∈ calls -> is_delete (kq_call c) = false) ->
  pool_steps (w1, key_request state <$> calls) (w2, ps') ->
  live_domain_id (domain_name_id_hex (name_index_key state) (DomainQuery_name q)) (db wr) = Some dom ->
  key_tables (db wr) = key_tables (db w2) ->
  run (begin_op state reader h' q name "decrypt" [Aes256Gcm] (fun _ => true)) wr = (Val (kr, dec), w3) ->
  faults w3 = [] ->
  exists w4, run (decrypt state name (MkDecrypt (versioned (k_latest k) ct) aad64) q h' reader) wr =
    (Val (json_response 200 (JObj [("plaintext", JStr (b64_encode plaintext)); ("version", JNum (k_latest k))])), w4).
Proof.
  intros Hw [Hk Hpl Hv Hn Hm] Hlen Hct Ha Hdel Hs Hdom2 Hr Hb Hf.
  pose proof (first_row_Some _ _ _ Hv) as [Hvin [Hvk%String.eqb_eq Hvn%Z.eqb_eq]%andb_true_iff].
  set (place := (dom, key_name_id state dom name)) in *.
  assert (Hnum : numbered (still_there (k_id k) place (k_latest k) v) (key_tables (db w2))).
  { refine (proj1 (pool_safe (table_inv key_tables (numbered (still_there (k_id k) place (k_latest k) v))) _ _
      (fun _ => True) w1 _ w2 ps' _ _ Hs)); [done..| |].
    - split; [done|]. split; [done|]. exists k. repeat split; [done..|lia].
    - apply Forall_fmap, Forall_forall. intros c Hc. apply (key_call_keeps state _) with (E_delete := false).
      + intros. by apply still_create.
      + intros. by apply still_rotate.
      + done.
      + intros Hd. by rewrite (Hdel c Hc) in Hd. }
  rewrite <- Hr in Hnum. destruct Hnum as [[_ Hnames Hvers Hlatest _ _] [Hv2 (k2 & Hk2 & Hid2 & Hpl2 & Hle)]].
  unfold key_tables in Hnames, Hvers, Hlatest, Hv2, Hk2. simpl in Hnames, Hvers, Hlatest, Hv2, Hk2.
  destruct (begin_op_inv state _ _ _ _ _ _ _ _ _ _ _ Hb) as (Ht3 & k3 & t & (dom3 & Hd3 & _ & Hk3 & _) & _ & _ & -> & _).
  assert (dom3 = dom) as -> by congruence.
  rewrite (named_key_only state (db wr) dom name k2) in Hk3 by done. injection Hk3 as <-.
  destruct (decrypt_run state name (versioned (k_latest k) ct) aad64 aad q h' reader wr (key_row name k2 t) dec w3
    (k_latest k) ct v material plaintext) as [w4 Hw4]; try done.
  - apply parse_versioned_text. pose proof (Hlatest k2 Hk2). lia.
  - change (kr_id (key_row name k2 t)) with (k_id k2).
    assert (Hkv : key_versions (db w3) = key_versions (db wr)) by (unfold key_tables in Ht3; congruence).
    rewrite Hid2, <- Hvk, <- Hvn. rewrite <- Hkv in Hvers, Hv2. by apply version_row_only.
  - change (kr_id (key_row name k2 t)) with (k_id k2). by rewrite Hid2.
  - by eapply aead_aad_roundtrip.
  - by exists w4.
Qed.

(** C26. Version numbering is whole: under any interleaving of the fourteen
    key endpoints, with database failures anywhere, key ids and names stay
    unique and every key has exactly the versions 1 to its latest, once each;
    in particular racing rotations never share or skip a number. *)
Theorem key_numbering_whole {P : Primitives} {PF : Platform} {O : OpsLib} state calls w w' ps' :
  keys_wf (key_tables (db w)) -> pool_steps (w, key_request state <$> calls) (w', ps') ->
  keys_wf (key_tables (db w')).
Proof.
  intros Hw Hs.
  refine (proj1 (proj1 (pool_safe (table_inv key_tables (numbered (fun _ => True))) _ _ (fun _ => True) w _ w' ps' _ _ Hs)));
    [done..| |].
  - by split.
  - apply Forall_fmap, Forall_forall. intros c _.
    by apply (key_call_keeps state (fun _ => True) ltac:(done) ltac:(done) true).
Qed.

(** A ciphertext stays readable as its key moves on: whatever other key
    calls interleave after an encryption (rotations, creations, uses, failures;
    only deletions are left out), a caller whom the gate lets through, presenting
    the ciphertext and its associated data, gets the plaintext back. *)
Theorem ciphertext_survives_rotation {P : Primitives} {L : PrimitiveLaws P} {PF : Platform} {O : OpsLib}
    {OL : OpsLaws P O} state name req q h client reader h' calls w resp w1 w2 ps' dom kr dec w3 :
  keys_wf (key_tables (db w)) ->
  live_domain_id (domain_name_id_hex (name_index_key state) (DomainQuery_name q)) (db w) = Some dom ->
  run (encrypt state name req q h client) w = (Val resp, w1) ->
  (forall c, c ∈ calls -> is_delete (kq_call c) = false) ->
  pool_steps (w1, key_request state <$> calls) (w2, ps') ->
  live_domain_id (domain_name_id_hex (name_index_key state) (DomainQuery_name q)) (db w2) = Some dom ->
  run (begin_op state reader h' q name "decrypt" [Aes256Gcm] (fun _ => true)) w2 = (Val (kr, dec), w3) ->
  faults w3 = [] ->
  exists text n plaintext w4,
    resp = json_response 200 (JObj [("ciphertext", JStr text); ("version", JNum n)]) /\
    b64_field "plaintext" (er_plaintext req) = Ok plaintext /\
    run (decrypt state name (MkDecrypt text (er_aad req)) q h' reader) w2 =
      (Val (json_response 200 (JObj [("plaintext", JStr (b64_encode plaintext)); ("version", JNum n)])), w4).
Proof.
  intros Hw Hdom He Hdel Hs Hdom2 Hb Hf.
  destruct (encrypt_inv state name req q h client w resp w1 dom He Hdom)
    as (plaintext & aad & k & v & material & nonce & ct & Hp & Ha & Hck & Hlen & Hct & -> & Htab).
  destruct (sealed_survives state dom name k v material nonce plaintext aad (er_aad req) ct calls w1 w2 ps' w2 q h' reader
    kr dec w3) as [w4 Hw4]; try done.
  - by rewrite Htab.
  - by eapply current_key_tables.
  - by exists (versioned (k_latest k) ct), (k_latest k), plaintext, w4.
Qed.

(** No operation on a managed key answers 200 for a caller who was not
    cleared: a member (or administrator) of a live domain, reading rights on
    the key's name, a key of a type the operation admits, and, where the secret
    half is used and the key asks for it, an accepted TOTP code. *)
Theorem key_use_is_cleared {P : Primitives} {PF : Platform} {O : OpsLib} state q h client c name allowed uses w o w' :
  key_use c = Some (name, allowed, uses) ->
  run (key_endpoint state q h client c) w = (o, w') -> resp_status (respond o) = 200 ->
  exists k t, key_cleared state (db w) (clock w) q client name Read k /\ KeyType_parse (k_type k) = Ok t /\
    t ∈ allowed /\ (uses t = true -> key_mfa_passed state (db w) (clock w) client k h).
Proof.
  intros Hu H Hst. destruct (key_use_begins state q h client c name allowed uses w o w' Hu H) as [op Hop].
  destruct (Hop Hst) as ([kr dec] & w1 & Hb).
  apply begin_op_inv in Hb as (_ & k & t & Hc & Ht & Hal & _ & Hmfa). by exists k, t.
Qed.

(** ** Witnesses *)

Definition no_headers' : Headers := MkHeaders None None.
Definition toy_key_request (c : key_call) : KeyRequest := MkKeyRequest (MkDomainQuery None) no_headers' alice c.
Definition toy_run (c : key_call) (w : World) : outcome Response * World :=
  run (key_request toy_state (toy_key_request c)) w.

Definition keyed_world : World :=
  Eval vm_compute in (toy_run (CallCreate (MkCreateKey "app-k" None false None)) toy_world).2.

Definition toy_rotations : list KeyRequest :=
  toy_key_request <$> [CallRotate "app-k"; CallRotate "app-k"; CallCreate (MkCreateKey "app-k2" (Some "hmac") true None)].
Definition raced : World * list (M Response) :=
  interleave (concat (replicate 40 [0; 1; 2]%nat)) (keyed_world, key_request toy_state <$> toy_rotations).

Lemma keyed_world_wf : keys_wf (key_tables (db keyed_world)).
Proof.
  set (k := hd (MkKey "" [] "" "" "" 0 (MkKeyPolicy false) 0 0) (keys (db keyed_world))).
  set (v := hd (MkKeyVersion "" 0 [] None 0) (key_versions (db keyed_world))).
  assert (Hs : key_tables (db keyed_world) = ([] ++ [k], [] ++ [v])) by reflexivity. rewrite Hs. apply wf_create.
  - split; simpl; try apply NoDup_nil_2; intros; exfalso; by eapply not_elem_of_nil.
  - by intros x Hx%not_elem_of_nil.
  - reflexivity.
  - reflexivity.
Qed.

Lemma key_numbering_whole_witness :
  (kv_version <$> key_versions (db raced.1)) = [1; 2; 3; 1] /\ keys_wf (key_tables (db raced.1)).
Proof.
  split; [vm_compute; reflexivity|].
  apply (key_numbering_whole toy_state toy_rotations keyed_world raced.1 raced.2).
  - exact keyed_world_wf.
  - rewrite <- surjective_pairing. apply interleave_steps.
Defined.

Definition toy_encrypt : EncryptRequest := MkEncrypt (b64_encode (as_bytes "attack at dawn")) (Some (b64_encode (as_bytes "ctx"))).
Definition encrypted : outcome Response * World :=
  Eval vm_compute in toy_run (CallEncrypt "app-k" toy_encrypt) keyed_world.
Definition rotated : World * list (M Response) :=
  interleave (concat (replicate 40 [0; 1; 2]%nat)) (encrypted.2, key_request toy_state <$> toy_rotations).
Definition reading : outcome (KeyRow * AclDecision) * World :=
  Eval vm_compute in run (begin_op toy_state alice no_headers' (MkDomainQuery None) "app-k" "decrypt" [Aes256Gcm] (fun _ => true)) rotated.1.

Lemma ciphertext_survives_rotation_witness :
  (k_latest <$> keys (db rotated.1)) = [3; 1] /\
  exists text n plaintext w4,
    respond encrypted.1 = json_response 200 (JObj [("ciphertext", JStr text); ("version", JNum n)]) /\
    b64_field "plaintext" (er_plaintext toy_encrypt) = Ok plaintext /\
    run (decrypt toy_state "app-k" (MkDecrypt text (er_aad toy_encrypt)) (MkDomainQuery None) no_headers' alice) rotated.1 =
      (Val (json_response 200 (JObj [("plaintext", JStr (b64_encode plaintext)); ("version", JNum n)])), w4).
Proof.
  split; [vm_compute; reflexivity|].
  apply (ciphertext_survives_rotation toy_state "app-k" toy_encrypt (MkDomainQuery None) no_headers' alice alice
           no_headers' toy_rotations keyed_world (respond encrypted.1) encrypted.2 rotated.1 rotated.2 "d-default"
           (match reading.1 with Val (kr, _) => kr | _ => key_row "" (MkKey "" [] "" "" "" 0 (MkKeyPolicy false) 0 0) Hmac end)
           (match reading.1 with Val (_, dec) => dec | _ => Denied end) reading.2).
  - exact keyed_world_wf.
  - vm_compute. reflexivity.
  - vm_compute. reflexivity.
  - intros c Hc. repeat (apply elem_of_cons in Hc as [->|Hc]; [reflexivity|]). by apply not_elem_of_nil in Hc.
  - rewrite <- surjective_pairing. apply interleave_steps.
  - vm_compute. reflexivity.
  - vm_compute. reflexivity.
  - vm_compute. reflexivity.
Defined.

Lemma key_use_is_cleared_witness :
  exists k t, key_cleared toy_state (db keyed_world) (clock keyed_world) (MkDomainQuery None) alice "app-k" Read k /\
    KeyType_parse (k_type k) = Ok t /\ t ∈ [Aes256Gcm] /\
    (true = true -> key_mfa_passed toy_state (db keyed_world) (clock keyed_world) alice k no_headers').
Proof.
  apply (key_use_is_cleared toy_state (MkDomainQuery None) no_headers' alice (CallEncrypt "app-k" toy_encrypt) "app-k"
           [Aes256Gcm] (fun _ => true) keyed_world (run (key_endpoint toy_state (MkDomainQuery None) no_headers' alice (CallEncrypt "app-k" toy_encrypt)) keyed_world).1
           (run (key_endpoint toy_state (MkDomainQuery None) no_headers' alice (CallEncrypt "app-k" toy_encrypt)) keyed_world).2).
  - reflexivity.
  - apply surjective_pairing.
  - vm_compute. reflexivity.
Defined.
