(* ===== verification/Files.v ===== *)
(** The file endpoints of [src/src/server.rs]: [upload_file], [download_file],
    [rekey_file_dek], [delete_file], [list_files] and [rotate_file]. Blobs live
    in the data directory, one file per row of [blackbook_contents]; a page row
    holds the metadata and points to its content row. *)
From S2P Require Import Prelude AccessRules Crypto Store Effects ServerBase AuditLog Auth Threshold Secrets.

Definition MAX_FILE_BYTES : Z := 64 * 1024 * 1024.

(** [FileSummary]; absent optional fields are skipped. *)
Record FileSummary := MkFileSummary {
  fi_id : string; fi_name : string; fi_owner : string; fi_size : Z; fi_mime : option string; fi_hash : string;
  fi_created : string; fi_updated : string; fi_external : string; fi_reads : Z; fi_flags : ResourceFlags;
  fi_exhausted : option string; fi_threshold : option Z; fi_signatories : option nat;
}.

Definition skip_null (k : string) (v : Json) : list (string * Json) :=
  match v with JNull => [] | _ => [(k, v)] end.

Definition file_summary_json (s : FileSummary) : Json :=
  JObj ([("id", JStr (fi_id s)); ("name", JStr (fi_name s)); ("owner", JStr (fi_owner s)); ("size", JNum (fi_size s));
         ("mime_type", opt_json JStr (fi_mime s)); ("content_hash", JStr (fi_hash s));
         ("created_at", JStr (fi_created s)); ("updated_at", JStr (fi_updated s));
         ("external", JStr (fi_external s)); ("read_count", JNum (fi_reads s)); ("flags", flags_json (fi_flags s))]
        ++ skip_null "exhausted_at" (opt_json JStr (fi_exhausted s))
        ++ skip_null "threshold_k" (opt_json JNum (fi_threshold s))
        ++ skip_null "signatory_count" (opt_json (fun n => JNum (Z.of_nat n)) (fi_signatories s))).

(** What an upload writes besides the name. *)
Record StoredFile := MkStoredFile {
  sf_external : bool; sf_meta : option bytes; sf_kind : Z; sf_component : option bytes; sf_copy : bool;
  sf_bytes : bytes; sf_dek : bytes;
}.

(** [plaintext_size.to_be_bytes()] and its inverse, for an [i64]. *)
Definition size_bytes (n : Z) : bytes := be_bytes 8 n.
Definition size_of_bytes (b : bytes) : option Z :=
  if (length b =? 8)%nat then Some (wrap_i64 (be_value b)) else None.

Section files.
Context {P : Primitives} {PF : Platform} (state : AppState).

Abbreviation mek := (metadata_enc_key state).
Abbreviation nik := (name_index_key state).
Abbreviation log := (audit (audit_hmac_key state) (metadata_enc_key state)).

Definition file_kek : M bytes := pure_500 crypto_msg (handle (file_dek_kek (app_keys state))).

(** [aead_seal] with its fresh nonce. *)
Definition seal_blob (plain dek : bytes) : M (CryptoResult bytes) := nonce ← draw 12; mret (aead_seal nonce plain dek).

Definition content_hash (b : bytes) : string := hex_encode (sha3_256 b).
Definition hash_id (b : bytes) : string := file_hash_id_hex nik (content_hash b).

Definition find_page (domain_id name_id : string) (d : Db) : option Page :=
  first_row (fun p => (p_domain p =s? domain_id) && (p_name_id p =s? name_id)) (pages d).

(** The ACL decision a file endpoint needs, or its 403. *)
Definition authorize_file (client : AuthenticatedClient) (domain_id name : string) (action : AclAction)
    (audit_action : string) : M AclDecision :=
  decision ← or_500 (acl_check mek client domain_id name action);
  if is_allowed decision then mret decision
  else
    _ ← log (Some (ac_id client)) audit_action (Some name) AuditDenied None;
    reply (err 403 "forbidden" ("not permitted to " +:+ action_name action +:+ " '" +:+ name +:+ "'")).

(** ** Uploading *)

Definition upload_validate (name : string) (body : bytes) : M unit :=
  if (name =s? "") || str_contains "/" name || str_contains ".." name
  then reply (err 400 "validation_error" "file name must be non-empty and may not contain '/' or '..'")
  else if MAX_FILE_BYTES <? Z.of_nat (length body)
  then reply (err 413 "too_large" ("file exceeds " +:+ show_Z MAX_FILE_BYTES +:+ " bytes"))
  else if (length body =? 0)%nat then reply (err 400 "validation_error" "empty body")
  else mret tt.

Definition upload_conflicts (name : string) (pol : FilePolicyQuery) (client : AuthenticatedClient)
    (existing : option Page) : M unit :=
  match existing with
  | None => mret tt
  | Some p =>
      if no_overwrite (p_flags p) then
        _ ← log (Some (ac_id client)) "file.create" (Some name) AuditDenied (Some "immutable: no_overwrite set");
        reply (err 409 "immutable" ("'" +:+ name
          +:+ "' is immutable (no_overwrite) and cannot be replaced; delete it first"))
      else if negb (default false (fq_overwrite pol)) then
        _ ← log (Some (ac_id client)) "file.create" (Some name) AuditDenied
              (Some "already exists; overwrite not requested");
        reply (err 409 "already_exists" ("'" +:+ name +:+ "' already exists; pass overwrite=true to replace it"))
      else mret tt
  end.

Definition upload_policy (pol : FilePolicyQuery) : M (option AccessPolicy) :=
  match FilePolicyQuery_access_policy pol with
  | Err e => raise 400 e
  | Ok None => mret None
  | Ok (Some p) =>
      if (threshold_k p <? 1) || (Z.of_nat (length (signatories p)) <? threshold_k p)
      then reply (err 400 "validation_error" "threshold_k must be 1..=signatories.len()")
      else mret (Some p)
  end.

(** The client's [{salt, wrapped_dek}] of an external file. *)
Definition upload_meta (pol : FilePolicyQuery) (is_external : bool) : M (option bytes) :=
  if is_external then
    match fq_meta pol with
    | None => raise 400 "external upload requires the `meta` query parameter"
    | Some m =>
        match b64_decode m with
        | None => raise 400 "external meta is not valid base64"
        | Some [] => reply (err 400 "validation_error" "external meta cannot be empty")
        | Some b => mret (Some b)
        end
    end
  else mret None.

(** The server's half of a resident file's key, wrapped. *)
Definition upload_component (pol : FilePolicyQuery) (is_resident : bool) : M (option bytes) :=
  if is_resident then
    match fq_key_component pol with
    | None => raise 400 "resident upload requires the `key_component` query parameter"
    | Some k64 =>
        match b64_decode k64 with
        | None => raise 400 "key_component is not valid base64"
        | Some kc =>
            if negb (length kc =? 32)%nat
            then reply (err 400 "validation_error" "key_component must be 32 bytes")
            else
              kek ← file_kek;
              r ← seal_envelope kc kek;
              wrapped ← pure_500 crypto_msg r;
              mret (Some wrapped)
        end
    end
  else mret None.

(** [(ciphertext, wrapped_dek)] under a fresh per-file key. *)
Definition seal_file (body : bytes) : M (bytes * bytes) :=
  dek ← draw 32;
  r ← seal_blob body dek;
  ct ← pure_500 crypto_msg r;
  kek ← file_kek;
  rw ← seal_envelope dek kek;
  wrapped ← pure_500 crypto_msg rw;
  mret (ct, wrapped).

Definition upload_seal (pol : FilePolicyQuery) (body : bytes) : M StoredFile :=
  let is_resident := default false (fq_resident pol) in
  let is_external := negb is_resident && default false (fq_external pol) in
  let want_server_copy := is_resident && default false (fq_server_copy pol) in
  meta ← upload_meta pol is_external;
  component ← upload_component pol is_resident;
  '(stored, dek) ← (if is_external then mret (body, [])
                    else if is_resident && negb want_server_copy then mret ([], [])
                    else seal_file body);
  mret (MkStoredFile is_external meta (if is_resident then 2 else if is_external then 1 else 0) component
          want_server_copy stored dek).

(** [INSERT INTO blackbook_contents]: the id and the path are unique. *)
Definition insert_content (id path : string) (size now : Z) (d : Db) : result SqlError (unit * Db) :=
  if existsb (fun c => (co_id c =s? id) || (co_path c =s? path)) (contents d) then Err SqlUnique
  else Ok (tt, upd_contents (insert_row (MkContent id path size now)) d).

(** [INSERT INTO blackbook_pages]: PRIMARY KEY and UNIQUE (domain_id, name_id). *)
Definition insert_page (p : Page) (d : Db) : result SqlError (unit * Db) :=
  if existsb (fun x => (p_id x =s? p_id p)
                       || ((p_domain x =s? p_domain p) && (p_name_id x =s? p_name_id p))) (pages d)
  then Err SqlUnique
  else Ok (tt, upd_pages (insert_row p) d).

(** [(mime_type_enc, plaintext_size_enc)] *)
Definition enc_mime (mime : option string) : M (option bytes) :=
  match mime with Some m => c ← str_500 (enc_str mek m); mret (Some c) | None => mret None end.

(** The UPDATE of an overwrite keeps the name, owner, flags, policy, counter
    and tombstone. *)
Definition overwrite_page (p : Page) (content_id hash_id : string) (size_enc : bytes) (mime_enc : option bytes)
    (x : StoredFile) (now : Z) : Page :=
  MkPage (p_id p) (p_name_enc p) (p_name_id p) (p_domain p) (p_owner p) content_id (sf_dek x) hash_id size_enc
    mime_enc (sf_external x) (sf_meta x) (sf_kind x) (sf_component x) (sf_copy x) (p_flags p) (p_read_count p)
    (p_policy p) (p_exhausted p) (p_created p) now.

Definition replace_tx (p : Page) (content_id : string) (body : bytes) (mime : option string) (x : StoredFile) (now : Z) :
    M (result SqlError unit) :=
  transaction (
    _ ←? sql (insert_content content_id content_id (Z.of_nat (length (sf_bytes x))));
    mime_enc ← enc_mime mime;
    size_enc ← str_500 (enc_field mek (size_bytes (Z.of_nat (length body))));
    _ ←? exec (fun _ => upd_pages (update_where (fun r => p_id r =s? p_id p)
                 (fun r => overwrite_page r content_id (hash_id body) size_enc mime_enc x now)));
    _ ←? exec (fun _ => delete_content (p_content p));
    mret (Ok tt)).

Definition create_page_tx (page_id content_id domain_id name_id name : string) (client : AuthenticatedClient) (body : bytes)
    (mime : option string) (x : StoredFile) (flags : ResourceFlags) (policy : option AccessPolicy) :
    M (result SqlError unit) :=
  transaction (
    _ ←? sql (insert_content content_id content_id (Z.of_nat (length (sf_bytes x))));
    name_enc ← str_500 (enc_str mek name);
    mime_enc ← enc_mime mime;
    size_enc ← str_500 (enc_field mek (size_bytes (Z.of_nat (length body))));
    policy_value ← policy_ids state policy;
    _ ←? sql (fun now => insert_page
           (MkPage page_id name_enc name_id domain_id (ac_id client) content_id (sf_dek x) (hash_id body) size_enc
              mime_enc (sf_external x) (sf_meta x) (sf_kind x) (sf_component x) (sf_copy x) flags 0 policy_value
              None now now));
    mret (Ok tt)).

Definition upload_summary (id name : string) (client : AuthenticatedClient) (body : bytes) (mime : option string)
    (now : Z) : FileSummary :=
  MkFileSummary id name (ac_name client) (Z.of_nat (length body)) mime (content_hash body) (fmt_rfc3339 now)
    (fmt_rfc3339 now) "" 0 default_flags None None None.

(** [content_type] is the request's header; [mime_guess] reads the extension. *)
Definition upload_file (mime_guess : string -> option string) (name : string) (body : bytes) (content_type : option string)
    (q : DomainQuery) (pol : FilePolicyQuery) (client : AuthenticatedClient) : M Response :=
  _ ← upload_validate name body;
  '(domain_id, _) ← or_reply (resolve_and_gate_domain state client q);
  let name_id := name_id_hex nik domain_id name in
  existing ← or_500 (query (fun _ => find_page domain_id name_id));
  _ ← upload_conflicts name pol client existing;
  let action := if is_null existing then Create else Update in
  decision ← authorize_file client domain_id name action ("file." +:+ action_name action);
  policy ← upload_policy pol;
  x ← upload_seal pol body;
  let mime := match content_type with Some m => Some m | None => mime_guess name end in
  content_id ← new_id 32;
  _ ← str_500 (fs_write (blob_path content_id) (sf_bytes x));
  now ← utc_now;
  summary ← match existing with
            | Some p =>
                _ ← or_500 (replace_tx p content_id body mime x now);
                _ ← ignore (fs_remove (blob_path (p_content p)));
                mret (upload_summary (p_id p) name client body mime now)
            | None =>
                page_id ← new_id 16;
                _ ← or_500 (create_page_tx page_id content_id domain_id name_id name client body mime x
                              (FilePolicyQuery_flags pol) policy);
                mret (upload_summary page_id name client body mime now)
            end;
  _ ← acl_record_use decision;
  _ ← log (Some (ac_id client)) ("file." +:+ action_name action) (Some name) AuditOk
        (Some (show_Z (Z.of_nat (length body)) +:+ "b"));
  mret (json_response 201 (file_summary_json summary)).

(** ** Downloading *)

Definition lookup_page (name domain_id : string) (client : AuthenticatedClient) : M Page :=
  row ← or_500 (query (fun _ => find_page domain_id (name_id_hex nik domain_id name)));
  match row with
  | Some p => mret p
  | None =>
      _ ← log (Some (ac_id client)) "file.read" (Some name) AuditNotFound None;
      reply (err 404 "not_found" "file not found")
  end.

Definition stored_size (size_enc : bytes) : M Z :=
  b ← pure_500 id (dec_field mek size_enc);
  match size_of_bytes b with
  | Some n => mret n
  | None => raise 500 "decrypted plaintext_size has wrong length"
  end.

Definition dec_mime (mime_enc : option bytes) : M (option string) :=
  match mime_enc with Some b => m ← pure_500 id (dec_str mek b); mret (Some m) | None => mret None end.

Definition download_spent (name : string) (p : Page) (client : AuthenticatedClient) : M unit :=
  match p_exhausted p with
  | Some ts =>
      _ ← log (Some (ac_id client)) "file.read" (Some name) AuditDenied
            (Some "tombstoned: blob was scrubbed at exhaustion");
      reply (err 410 "exhausted" ("'" +:+ name +:+ "' was exhausted at " +:+ fmt_iso ts
                                  +:+ " and its blob has been scrubbed"))
  | None =>
      match max_reads (p_flags p) with
      | Some max =>
          if max <=? p_read_count p then
            _ ← log (Some (ac_id client)) "file.read" (Some name) AuditDenied (Some "max_reads exhausted");
            reply (err 403 "max_reads" ("'" +:+ name +:+ "' has reached its max_reads (" +:+ show_Z max +:+ ")"))
          else mret tt
      | None => mret tt
      end
  end.

Definition download_threshold (domain_id name : string) (p : Page) (h : Headers) (client : AuthenticatedClient) : M unit :=
  match p_policy p with
  | Some policy =>
      refused ← threshold_gate state client "file" domain_id name policy (h_request_id h);
      match refused with Some resp => reply resp | None => mret tt end
  | None => mret tt
  end.

Definition bump_page (p : Page) : Page :=
  MkPage (p_id p) (p_name_enc p) (p_name_id p) (p_domain p) (p_owner p) (p_content p) (p_wrapped_dek p) (p_hash_id p)
    (p_size_enc p) (p_mime_enc p) (p_external p) (p_external_meta p) (p_kind p) (p_key_component p) (p_server_copy p)
    (p_flags p) (p_read_count p + 1) (p_policy p) (p_exhausted p) (p_created p) (p_updated p).

(** [UPDATE ... WHERE exhausted_at IS NULL AND read_count < cap RETURNING read_count] *)
Definition claim_page (id : string) (cap : Z) (d : Db) : option Z * Db :=
  let hit p := (p_id p =s? id) && is_null (p_exhausted p) && (p_read_count p <? cap) in
  (option_map (fun p => p_read_count p + 1) (first_row hit (pages d)),
   upd_pages (update_where hit bump_page) d).

Definition download_claim (name : string) (p : Page) (client : AuthenticatedClient) : M (option Z) :=
  match read_cap (p_flags p) with
  | Some cap =>
      claimed ← or_500 (sql (fun _ d => Ok (claim_page (p_id p) cap d)));
      match claimed with
      | Some c => mret (Some c)
      | None =>
          _ ← log (Some (ac_id client)) "file.read" (Some name) AuditDenied (Some "read limit reached (atomic claim)");
          reply (err 403 "max_reads" ("'" +:+ name +:+ "' has reached its read limit"))
      end
  | None =>
      _ ← ignore (exec (fun _ => upd_pages (update_where (fun x => p_id x =s? p_id p) bump_page)));
      mret None
  end.

Definition reached_max (f : ResourceFlags) (new_count : option Z) : bool :=
  from_option (fun m => from_option (fun c => m <=? c) false new_count) false (max_reads f).

(** Tombstones: the key material is scrubbed, the row stays. *)
Definition scrub_component (now : Z) (p : Page) : Page :=
  MkPage (p_id p) (p_name_enc p) (p_name_id p) (p_domain p) (p_owner p) (p_content p) (p_wrapped_dek p) (p_hash_id p)
    (p_size_enc p) (p_mime_enc p) (p_external p) (p_external_meta p) (p_kind p) None (p_server_copy p)
    (p_flags p) (p_read_count p) (p_policy p) (Some now) (p_created p) (p_updated p).

Definition scrub_dek (now : Z) (p : Page) : Page :=
  MkPage (p_id p) (p_name_enc p) (p_name_id p) (p_domain p) (p_owner p) (p_content p) [] (p_hash_id p)
    (p_size_enc p) (p_mime_enc p) (p_external p) (p_external_meta p) (p_kind p) (p_key_component p) (p_server_copy p)
    (p_flags p) (p_read_count p) (p_policy p) (Some now) (p_created p) (p_updated p).

Definition content_path (id : string) (d : Db) : option string :=
  option_map co_path (first_row (fun c => co_id c =s? id) (contents d)).

Definition resident_teardown (p : Page) (new_count : option Z) : M (option string) :=
  if delete_on_read (p_flags p) then
    _ ← (if p_server_copy p then
           sp ← query (fun _ => content_path (p_content p));
           match sp with
           | Ok (Some path) => ignore (fs_remove (blob_path path))
           | _ => mret tt
           end
         else mret tt);
    _ ← ignore (exec (fun _ => delete_content (p_content p)));
    mret (Some "consumed by delete_on_read")
  else if reached_max (p_flags p) new_count then
    _ ← ignore (exec (fun now => upd_pages (update_where (fun x => p_id x =s? p_id p) (scrub_component now))));
    mret (Some "tombstoned: max_reads reached on this read")
  else mret None.

Definition or_note (note : option string) (dflt : string) : option string :=
  match note with Some n => Some n | None => Some dflt end.

(** A resident file's ciphertext is with the client, who gets the server's half
    of the key. *)
Definition download_resident (name : string) (p : Page) (new_count : option Z) (decision : AclDecision)
    (client : AuthenticatedClient) : M Response :=
  wrapped ← pure_500 id (ok_or "resident file is missing its server key component" (p_key_component p));
  kek ← file_kek;
  kc ← pure_500 crypto_msg (decrypt_aes_gcm wrapped kek);
  post_note ← resident_teardown p new_count;
  _ ← acl_record_use decision;
  _ ← log (Some (ac_id client)) "file.read" (Some name) AuditOk (or_note post_note "read (resident key component)");
  mret (MkResponse 200 ([("X-Blackbook-Resident", "1"); ("X-Blackbook-Key-Component", b64_encode kc)]
                        ++ (if p_server_copy p then [("X-Blackbook-Server-Copy", "1")] else [])) (BinBody [])).

Definition integrity_error (name : string) (client : AuthenticatedClient) (message : string) {A} : M A :=
  _ ← log (Some (ac_id client)) "file.read" (Some name) AuditError (Some "hash mismatch");
  reply (err 500 "integrity_error" message).

(** What is handed back, and the key wrapping key when the server could read it. *)
Definition download_blob (name : string) (p : Page) (size : Z) (stored : bytes) (client : AuthenticatedClient) :
    M (bytes * option bytes) :=
  if p_external p then
    if negb (hash_id stored =s? p_hash_id p) then integrity_error name client "stored blob does not match"
    else mret (stored, None)
  else
    kek ← file_kek;
    dek ← pure_500 crypto_msg (decrypt_aes_gcm (p_wrapped_dek p) kek);
    plain ← pure_500 crypto_msg (aead_open stored dek);
    if negb (hash_id plain =s? p_hash_id p) then integrity_error name client "stored hash does not match"
    else if negb (Z.of_nat (length plain) =? size)
    then reply (err 500 "integrity_error" "stored size does not match")
    else mret (plain, Some kek).

(** A fresh key and a fresh blob for the same plaintext. *)
Definition rebind_page (content_id : string) (wrapped : bytes) (p : Page) : Page :=
  MkPage (p_id p) (p_name_enc p) (p_name_id p) (p_domain p) (p_owner p) content_id wrapped (p_hash_id p)
    (p_size_enc p) (p_mime_enc p) (p_external p) (p_external_meta p) (p_kind p) (p_key_component p) (p_server_copy p)
    (p_flags p) (p_read_count p) (p_policy p) (p_exhausted p) (p_created p) (p_updated p).

Definition rekey_tx (page_id old_content new_content : string) (ct wrapped : bytes) : M (result SqlError unit) :=
  transaction (
    _ ←? sql (insert_content new_content new_content (Z.of_nat (length ct)));
    _ ←? exec (fun _ => upd_pages (update_where (fun p => p_id p =s? page_id) (rebind_page new_content wrapped)));
    _ ←? exec (fun _ => delete_content old_content);
    mret (Ok tt)).

Definition rekey_file_dek (page_id old_content_id old_storage : string) (plain kek : bytes) : M (result string unit) :=
  new_dek ← draw 32;
  r ← seal_blob plain new_dek;
  new_ct ←? mret (map_err crypto_msg r);
  rw ← seal_envelope new_dek kek;
  new_wrapped ←? mret (map_err crypto_msg rw);
  new_content_id ← new_id 32;
  _ ←? fs_write (blob_path new_content_id) new_ct;
  t ← rekey_tx page_id old_content_id new_content_id new_ct new_wrapped;
  _ ←? mret (map_err sql_msg t);
  _ ← ignore (fs_remove (blob_path old_storage));
  mret (Ok tt).

Definition download_teardown (p : Page) (storage_path : string) (new_count : option Z) (served : bytes)
    (kek : option bytes) : M (option string) :=
  if delete_on_read (p_flags p) then
    _ ← ignore (exec (fun _ => delete_content (p_content p)));
    _ ← ignore (fs_remove (blob_path storage_path));
    mret (Some "consumed by delete_on_read")
  else if reached_max (p_flags p) new_count then
    _ ← ignore (exec (fun now => upd_pages (update_where (fun x => p_id x =s? p_id p) (scrub_dek now))));
    _ ← ignore (fs_remove (blob_path storage_path));
    mret (Some "tombstoned: max_reads reached on this read")
  else if rotate_on_read (p_flags p) && negb (p_external p) then
    _ ← match kek with
        | Some kek => ignore (rekey_file_dek (p_id p) (p_content p) storage_path served kek)
        | None => mret tt
        end;
    mret (Some "dek rotated on read")
  else mret None.

Definition download_response (p : Page) (mime : option string) (served : bytes) : Response :=
  MkResponse 200 (match mime with Some m => [("Content-Type", m)] | None => [] end
                  ++ (if p_external p
                      then [("X-Blackbook-External", "1");
                            ("X-Blackbook-External-Meta", b64_encode (default [] (p_external_meta p)))]
                      else [])) (BinBody served).

Definition download_stored (name : string) (p : Page) (size : Z) (mime : option string) (new_count : option Z)
    (decision : AclDecision) (client : AuthenticatedClient) : M Response :=
  path ← or_500 (sql (fun _ d => match content_path (p_content p) d with
                                 | Some s => Ok (s, d)
                                 | None => Err SqlRowNotFound
                                 end));
  stored ← str_500 (fs_read (blob_path path));
  '(served, kek) ← download_blob name p size stored client;
  post_note ← download_teardown p path new_count served kek;
  _ ← acl_record_use decision;
  _ ← log (Some (ac_id client)) "file.read" (Some name) AuditOk (or_note post_note "read");
  mret (download_response p mime served).

Definition download_file (name : string) (q : DomainQuery) (h : Headers) (client : AuthenticatedClient) : M Response :=
  '(domain_id, _) ← or_reply (resolve_and_gate_domain state client q);
  p ← lookup_page name domain_id client;
  size ← stored_size (p_size_enc p);
  mime ← dec_mime (p_mime_enc p);
  decision ← authorize_file client domain_id name Read "file.read";
  _ ← download_spent name p client;
  _ ← download_threshold domain_id name p h client;
  _ ← mfa_gate state (mfa_required (p_flags p)) "file.read" name h client;
  new_count ← download_claim name p client;
  if p_kind p =? 2 then download_resident name p new_count decision client
  else download_stored name p size mime new_count decision client.

(** ** Deleting *)

(** [pages JOIN contents] on a name. *)
Definition find_blob (domain_id name_id : string) (d : Db) : option (Page * string) :=
  head (page_blobs (fun p => (p_domain p =s? domain_id) && (p_name_id p =s? name_id)) d).

Definition delete_file (name : string) (q : DomainQuery) (client : AuthenticatedClient) : M Response :=
  '(domain_id, _) ← or_reply (resolve_and_gate_domain state client q);
  row ← or_500 (query (fun _ => find_blob domain_id (name_id_hex nik domain_id name)));
  match row with
  | None =>
      _ ← log (Some (ac_id client)) "file.delete" (Some name) AuditNotFound None;
      reply (err 404 "not_found" "file not found")
  | Some (p, storage_path) =>
      decision ← authorize_file client domain_id name Delete "file.delete";
      _ ← or_500 (exec (fun _ => upd_pages (delete_where (fun x => p_id x =s? p_id p))));
      _ ← ignore (fs_remove (blob_path storage_path));
      _ ← acl_record_use decision;
      _ ← log (Some (ac_id client)) "file.delete" (Some name) AuditOk None;
      mret (json_response 200 (JObj [("deleted", JBool true); ("name", JStr name)]))
  end.

(** ** Listing *)

(** [pages JOIN clients ON owner_id] *)
Definition owned_pages (domain_id : string) (d : Db) : list (Page * Client) :=
  concat (map (fun p => map (fun c => (p, c)) (select (fun c => c_id c =s? p_owner p) (clients d)))
            (order_by (fun p => - p_created p) (select (fun p => p_domain p =s? domain_id) (pages d)))).

Definition file_item (name : string) (p : Page) (owner : Client) : FileSummary :=
  let '(k, n) := policy_threshold (p_policy p) in
  MkFileSummary (p_id p) name (unwrap_or "?" (dec_str mek (c_name_enc owner)))
    (default 0 (size_of_bytes (unwrap_or [] (dec_field mek (p_size_enc p)))))
    (p_mime_enc p ≫= fun b => ok (dec_str mek b)) (p_hash_id p) (fmt_text (p_created p)) (fmt_text (p_updated p))
    (if p_kind p =? 1 then "key" else if p_kind p =? 2 then "resident" else "")
    (p_read_count p) (p_flags p) (option_map fmt_iso (p_exhausted p)) k n.

Fixpoint list_file_items (domain_id : string) (client : AuthenticatedClient) (rows : list (Page * Client)) : M (list Json) :=
  match rows with
  | [] => mret []
  | (p, owner) :: rest =>
      match dec_str mek (p_name_enc p) with
      | Err _ => list_file_items domain_id client rest
      | Ok name =>
          allowed ← (if is_admin client then mret true
                     else dec ← or_500 (acl_check mek client domain_id name Read); mret (is_allowed dec));
          others ← list_file_items domain_id client rest;
          mret (if allowed : bool then file_summary_json (file_item name p owner) :: others else others)
      end
  end.

Definition list_files (q : DomainQuery) (client : AuthenticatedClient) : M Response :=
  '(domain_id, _) ← or_reply (resolve_and_gate_domain state client q);
  rows ← or_500 (query (fun _ d => take 500 (owned_pages domain_id d)));
  items ← list_file_items domain_id client rows;
  _ ← log (Some (ac_id client)) "file.list" None AuditOk None;
  mret (json_response 200 (JObj [("files", JArr items); ("count", len_json items)])).

(** ** Rotating *)

(** Decrypt under the current key and check against the row. *)
Definition rotate_read (p : Page) (size : Z) (old_storage : string) : M (bytes * bytes) :=
  old_ct ← str_500 (fs_read (blob_path old_storage));
  kek ← file_kek;
  old_dek ← pure_500 crypto_msg (decrypt_aes_gcm (p_wrapped_dek p) kek);
  plain ← pure_500 crypto_msg (aead_open old_ct old_dek);
  if negb (hash_id plain =s? p_hash_id p)
  then reply (err 500 "integrity_error" "plaintext hash mismatch — refusing to rotate")
  else if negb (Z.of_nat (length plain) =? size)
  then reply (err 500 "integrity_error" "plaintext size mismatch — refusing to rotate")
  else mret (plain, kek).

Definition touch_page (now : Z) (p : Page) : Page :=
  MkPage (p_id p) (p_name_enc p) (p_name_id p) (p_domain p) (p_owner p) (p_content p) (p_wrapped_dek p) (p_hash_id p)
    (p_size_enc p) (p_mime_enc p) (p_external p) (p_external_meta p) (p_kind p) (p_key_component p) (p_server_copy p)
    (p_flags p) (p_read_count p) (p_policy p) (p_exhausted p) (p_created p) now.

Definition rotate_file_tx (page_id new_content : string) (ct wrapped : bytes) (now : Z) : M (result SqlError unit) :=
  transaction (
    _ ←? sql (insert_content new_content new_content (Z.of_nat (length ct)));
    old ←? sql (fun _ d => match first_row (fun p => p_id p =s? page_id) (pages d) with
                           | Some p => Ok (p_content p, d)
                           | None => Err SqlRowNotFound
                           end);
    _ ←? exec (fun _ => upd_pages (update_where (fun p => p_id p =s? page_id)
                 (fun p => touch_page now (rebind_page new_content wrapped p))));
    _ ←? exec (fun _ => delete_content old);
    mret (Ok tt)).

Definition rotate_file (name : string) (q : DomainQuery) (client : AuthenticatedClient) : M Response :=
  '(domain_id, _) ← or_reply (resolve_and_gate_domain state client q);
  row ← or_500 (query (fun _ => find_blob domain_id (name_id_hex nik domain_id name)));
  match row with
  | None => reply (err 404 "not_found" "file not found")
  | Some (p, old_storage) =>
      size ← stored_size (p_size_enc p);
      decision ← authorize_file client domain_id name Update "file.rotate";
      '(plain, kek) ← rotate_read p size old_storage;
      new_dek ← draw 32;
      r ← seal_blob plain new_dek;
      new_ct ← pure_500 crypto_msg r;
      rw ← seal_envelope new_dek kek;
      new_wrapped ← pure_500 crypto_msg rw;
      new_content_id ← new_id 32;
      _ ← str_500 (fs_write (blob_path new_content_id) new_ct);
      now ← utc_now;
      _ ← or_500 (rotate_file_tx (p_id p) new_content_id new_ct new_wrapped now);
      _ ← ignore (fs_remove (blob_path old_storage));
      _ ← acl_record_use decision;
      _ ← log (Some (ac_id client)) "file.rotate" (Some name) AuditOk
            (Some (String.substring 0 8 old_storage +:+ " -> " +:+ String.substring 0 8 new_content_id));
      mret (json_response 200 (JObj [("rotated", JBool true); ("name", JStr name)]))
  end.
End files.
