(* ===== verification/FilesLemmas.v ===== *)
(** How the file endpoints of [Files.v] act: what each phase writes, which
    responses it can give early, what the reads of one file cost, and what a
    passing phase established. *)
From S2P Require Import Prelude AccessRules Crypto ToyPrimitives Store Effects Concurrency ServerBase ToyPlatform AuditLog Auth AuthProps Threshold ThresholdProps ReadLimit Secrets SecretsLemmas Files.

(** ** What each phase writes *)

Section frames.
Context {P : Primitives} {PF : Platform} (state : AppState).

Lemma writes_file_kek : writes [] (file_kek state).
Proof. unfold file_kek. solve_writes. Qed.
Lemma writes_seal_blob b k : writes [] (seal_blob b k).
Proof. unfold seal_blob. solve_writes. Qed.
#[local] Hint Resolve writes_file_kek writes_seal_blob : writes.
Lemma writes_seal_file b : writes [] (seal_file state b).
Proof. unfold seal_file. solve_writes. Qed.
#[local] Hint Resolve writes_seal_file : writes.
Lemma writes_upload_seal pol b : writes [] (upload_seal state pol b).
Proof. unfold upload_seal, upload_meta, upload_component. solve_writes. Qed.
Lemma writes_authorize_file c d n a aa : writes [PAudits] (authorize_file state c d n a aa).
Proof. unfold authorize_file. solve_writes. Qed.
Lemma writes_upload_conflicts n pol c e : writes [PAudits] (upload_conflicts state n pol c e).
Proof. unfold upload_conflicts. solve_writes. Qed.
Lemma writes_enc_mime m : writes [] (enc_mime state m).
Proof. unfold enc_mime. solve_writes. Qed.
Lemma writes_policy_ids_file p : writes [] (policy_ids state p).
Proof.
  destruct p as [p|]; [|exact I]. unfold policy_ids. apply writes_bind; [|intros; exact I].
  induction (signatories p); cbn [signatory_ids]; solve_writes; done.
Qed.
Lemma writes_lookup_page n d c : writes [PAudits] (lookup_page state n d c).
Proof. unfold lookup_page. solve_writes. Qed.
Lemma writes_stored_size b : writes [] (stored_size state b).
Proof. unfold stored_size. solve_writes. Qed.
Lemma writes_dec_mime b : writes [] (dec_mime state b).
Proof. unfold dec_mime. solve_writes. Qed.
Lemma writes_download_spent n p c : writes [PAudits] (download_spent state n p c).
Proof. unfold download_spent. solve_writes. Qed.
Lemma writes_download_threshold d n p h c :
  writes [PAudits; PRequests; PGrants] (download_threshold state d n p h c).
Proof. unfold download_threshold. solve_writes. Qed.
Lemma writes_integrity_error n c m A : writes [PAudits] (integrity_error state n c m (A := A)).
Proof. unfold integrity_error. solve_writes. Qed.
#[local] Hint Resolve writes_integrity_error : writes.
Lemma writes_download_blob n p s b c : writes [PAudits] (download_blob state n p s b c).
Proof. unfold download_blob. solve_writes. Qed.
Lemma writes_rotate_read p s o : writes [] (rotate_read state p s o).
Proof. unfold rotate_read. solve_writes. Qed.
Lemma writes_insert_content i pa s : writes [PContents] (sql (insert_content i pa s)).
Proof. unfold insert_content. solve_writes. Qed.
#[local] Hint Resolve writes_insert_content : writes.
End frames.

#[export] Hint Resolve writes_file_kek writes_seal_blob writes_seal_file writes_upload_seal writes_authorize_file
  writes_upload_conflicts writes_enc_mime writes_policy_ids_file writes_lookup_page writes_stored_size writes_dec_mime
  writes_download_spent writes_download_threshold writes_integrity_error writes_download_blob writes_rotate_read
  : writes.

(** ** No phase answers 200 early *)

Section refusals.
Context {P : Primitives} {PF : Platform} (state : AppState).

Lemma refuses_file_kek : refuses (file_kek state).
Proof. unfold file_kek. solve_refuses. Qed.
Lemma refuses_seal_blob b k : refuses (seal_blob b k).
Proof. unfold seal_blob. solve_refuses. Qed.
Lemma refuses_seal_envelope_file b k : refuses (seal_envelope b k).
Proof. unfold seal_envelope. solve_refuses. Qed.
Lemma refuses_authorize_file c d n a aa : refuses (authorize_file state c d n a aa).
Proof. unfold authorize_file. solve_refuses. Qed.
Lemma refuses_lookup_page n d c : refuses (lookup_page state n d c).
Proof. unfold lookup_page. solve_refuses. Qed.
Lemma refuses_stored_size b : refuses (stored_size state b).
Proof. unfold stored_size. solve_refuses. Qed.
Lemma refuses_dec_mime b : refuses (dec_mime state b).
Proof. unfold dec_mime. solve_refuses. Qed.
Lemma refuses_download_spent n p c : refuses (download_spent state n p c).
Proof. unfold download_spent. solve_refuses. Qed.
Lemma refuses_download_threshold d n p h c : refuses (download_threshold state d n p h c).
Proof.
  unfold download_threshold. destruct (p_policy p) as [pol|]; [|exact I].
  apply Leaves_bind. eapply Leaves_mono, threshold_gate_refusals. by intros [[r|]|r|? ?].
Qed.
Lemma refuses_integrity_error n c m A : refuses (integrity_error state n c m (A := A)).
Proof. unfold integrity_error. solve_refuses. Qed.
#[local] Hint Resolve refuses_file_kek refuses_integrity_error : refuses.
Lemma refuses_download_blob n p s b c : refuses (download_blob state n p s b c).
Proof. unfold download_blob. solve_refuses. Qed.
Lemma refuses_fs_read p : refuses (fs_read p).
Proof. apply refuses_perform. Qed.
Lemma refuses_fs_write p b : refuses (fs_write p b).
Proof. apply refuses_perform. Qed.
Lemma refuses_fs_remove p : refuses (fs_remove p).
Proof. apply refuses_perform. Qed.
Lemma refuses_new_id n : refuses (new_id n).
Proof. unfold new_id. solve_refuses. Qed.
#[local] Hint Resolve refuses_seal_blob refuses_seal_envelope_file refuses_fs_read refuses_fs_write refuses_fs_remove
  refuses_new_id : refuses.
Lemma refuses_rekey i o s b k : refuses (rekey_file_dek i o s b k).
Proof. unfold rekey_file_dek, rekey_tx. solve_refuses. Qed.
#[local] Hint Resolve refuses_rekey : refuses.
Lemma refuses_resident_teardown p n : refuses (resident_teardown p n).
Proof. unfold resident_teardown. solve_refuses. Qed.
Lemma refuses_download_teardown p s n b k : refuses (download_teardown p s n b k).
Proof. unfold download_teardown. solve_refuses. Qed.
Lemma refuses_download_claim n p c : refuses (download_claim state n p c).
Proof. unfold download_claim. solve_refuses. Qed.
End refusals.

#[export] Hint Resolve refuses_file_kek refuses_seal_blob refuses_seal_envelope_file refuses_authorize_file
  refuses_lookup_page refuses_stored_size refuses_dec_mime refuses_download_spent refuses_download_threshold
  refuses_integrity_error refuses_download_blob refuses_fs_read refuses_fs_write refuses_fs_remove refuses_new_id
  refuses_rekey refuses_resident_teardown refuses_download_teardown refuses_download_claim : refuses.

(** ** Counting the reads of one file *)

#[export] Instance page_limited : Limited Page := {|
  lim_id := p_id; lim_cap p := read_cap (p_flags p); lim_count := p_read_count; lim_spent := p_exhausted;
  lim_bump := bump_page; lim_bump_id _ := eq_refl; lim_bump_cap _ := eq_refl; lim_bump_count _ := eq_refl;
  lim_bump_spent _ := eq_refl |}.

Definition file_tables (d : Db) : list Domain * list Page := (domains d, pages d).

Section reads.
Context {P : Primitives} {PF : Platform} (state : AppState) (q : DomainQuery) (name r dom : string) (cap : Z).

Abbreviation domain_key := (domain_name_id_hex (name_index_key state) (DomainQuery_name q)).
Abbreviation page_key := (name_id_hex (name_index_key state) dom name).

(** The domain named by the query is [dom], and the file of that name there is
    row [r], which carries the cap. *)
Definition one_file (t : list Domain * list Page) : Prop :=
  (forall x, x ∈ t.1 -> d_name_id x = domain_key -> d_id x = dom) /\
  (forall p, p ∈ t.2 -> p_domain p = dom -> p_name_id p = page_key -> p_id p = r) /\
  capped r cap t.2.

Definition file_budget (t : list Domain * list Page) : nat := reads_budget r cap t.2.

(** Answers of 200; raised errors never are. *)
Definition ok_count (o : outcome Response) : nat :=
  match o with
  | Val resp | Ret resp => if resp_status resp =? 200 then 1%nat else 0%nat
  | Raise _ _ => 0%nat
  end.

Abbreviation spends := (earns (table_inv file_tables one_file) (table_budget file_tables file_budget)).

Lemma file_phase ps {A B} (Q : nat -> outcome B -> Prop) c (m : M A) (f : A -> M B) :
  closed Q -> bool_decide (PDomains ∈ ps) = false -> bool_decide (PPages ∈ ps) = false -> writes ps m -> refuses m ->
  (forall a, spends Q c (f a)) -> spends Q c (m ≫= f).
Proof.
  intros HQ H1 H2. apply spends_phase; [done|]. intros w w' Hfr. unfold file_tables.
  pose proof (Hfr PDomains H1) as Hd. pose proof (Hfr PPages H2) as Hp. simpl in *. by rewrite Hd, Hp.
Qed.

(** Statements on pages that keep ids, names and flags and lower no counter. *)
Definition tame (u : Page -> Page) : Prop :=
  forall p, p_id (u p) = p_id p /\ p_domain (u p) = p_domain p /\ p_name_id (u p) = p_name_id p /\
            p_flags (u p) = p_flags p /\ (reads_left r cap (u p) <= reads_left r cap p)%nat.

Lemma one_file_update f u ds ps :
  tame u -> one_file (ds, ps) ->
  one_file (ds, update_where f u ps) /\ (file_budget (ds, update_where f u ps) <= file_budget (ds, ps))%nat.
Proof.
  intros Hu (Hd & Hp & Hc). split; [|apply budget_update; intros p _; apply Hu].
  split; [exact Hd|]. split.
  - intros x (x0 & Hx0 & ->)%elem_of_update_where. destruct (f x0); [|by apply Hp].
    destruct (Hu x0) as (-> & -> & -> & _). by apply Hp.
  - apply capped_update; [|exact Hc]. intros x. destruct (Hu x) as (H1 & _ & _ & H4 & _). simpl. by rewrite H1, H4.
Qed.

Lemma one_file_delete f ds ps :
  one_file (ds, ps) ->
  one_file (ds, delete_where f ps) /\ (file_budget (ds, delete_where f ps) <= file_budget (ds, ps))%nat.
Proof.
  intros (Hd & Hp & Hc). split; [|apply budget_delete]. split; [exact Hd|].
  split; [|exact (capped_delete r cap _ _ Hc)]. intros x [Hx _]%elem_of_delete_where. by apply Hp.
Qed.

Lemma tame_bump : tame bump_page.
Proof. intros p. repeat split. exact (reads_left_bump r cap p). Qed.
Lemma tame_scrub_dek now : tame (scrub_dek now).
Proof. intros p. repeat split. rewrite reads_left_spent; [lia|done]. Qed.
Lemma tame_scrub_component now : tame (scrub_component now).
Proof. intros p. repeat split. rewrite reads_left_spent; [lia|done]. Qed.
Lemma tame_rebind c k : tame (rebind_page c k).
Proof. by intros p. Qed.

(** The gate lets a request through into [dom] only. *)
Lemma spends_gate {B} (Q : nat -> outcome B -> Prop) c client (f : string * string -> M B) :
  closed Q -> (forall nm, spends Q c (f (dom, nm))) ->
  spends Q c (or_reply (resolve_and_gate_domain state client q) ≫= f).
Proof.
  intros HQ Hf. apply earns_bind, earns_bind. unfold resolve_and_gate_domain. cbv zeta.
  apply earns_bind. unfold resolve_domain. apply earns_sql; [by apply HQ|]. intros now d Hd. split; [done|].
  exists c. split; [done|]. destruct (live_domain_id _ d) as [id|] eqn:El; [|by apply HQ].
  assert (id = dom) as ->.
  { unfold live_domain_id in El. destruct (first_row _ (domains d)) as [x|] eqn:Ex; [|done]. injection El as <-.
    apply first_row_Some in Ex as [Hx [Hn%String.eqb_eq _]%andb_true_iff]. by apply Hd. }
  apply earns_bind. unfold domain_member. destruct (is_admin client); [apply Hf|].
  apply earns_sql; [by apply HQ|]. intros now' d' Hd'. split; [done|]. exists c. split; [done|].
  destruct (has_member _ _ _ _); [apply Hf|by apply HQ].
Qed.

Abbreviation idle := (idles file_tables one_file file_budget).

Lemma idle_writes ps {A} (m : M A) :
  bool_decide (PDomains ∈ ps) = false -> bool_decide (PPages ∈ ps) = false -> writes ps m -> idle m.
Proof.
  intros H1 H2. apply idles_writes. intros w w' Hfr. unfold file_tables.
  pose proof (Hfr PDomains H1) as Hd. pose proof (Hfr PPages H2) as Hp. simpl in *. by rewrite Hd, Hp.
Qed.

Lemma idle_update f u : (forall now, tame (u now)) -> idle (exec (fun now => upd_pages (update_where f (u now)))).
Proof. intros Hu. apply idles_exec. intros now d Hd. by apply one_file_update. Qed.

Lemma idle_delete_content id : idle (exec (fun _ => delete_content id)).
Proof. apply idles_exec. intros now d Hd. exact (one_file_delete _ _ _ Hd). Qed.

Lemma idle_rekey i o s b k : idle (rekey_file_dek i o s b k).
Proof.
  unfold rekey_file_dek.
  apply idles_bind; [by apply (idle_writes []); [..|solve_writes]|intros nk].
  apply idles_bind; [by apply (idle_writes []); [..|solve_writes]|intros r1].
  apply idles_try; [by apply (idle_writes []); [..|solve_writes]|intros ct].
  apply idles_bind; [by apply (idle_writes []); [..|solve_writes]|intros r2].
  apply idles_try; [by apply (idle_writes []); [..|solve_writes]|intros wd].
  apply idles_bind; [by apply (idle_writes []); [..|solve_writes]|intros cid].
  apply idles_try; [by apply (idle_writes [PFiles]); [..|solve_writes]|intros _].
  apply idles_bind; [|intros t].
  - unfold rekey_tx. apply idles_transaction.
    apply idles_try; [apply (idle_writes [PContents]); [done..|apply writes_insert_content]|intros _].
    apply idles_try; [apply (idle_update _ (fun _ => rebind_page cid wd)); intros now; apply tame_rebind|intros _].
    apply idles_try; [apply idle_delete_content|intros _]. by apply (idle_writes []); [..|solve_writes].
  - apply idles_try; [by apply (idle_writes []); [..|solve_writes]|intros _].
    by apply (idle_writes [PFiles]); [..|solve_writes].
Qed.

Lemma idle_ignore {A} (m : M A) : idle m -> idle (ignore m).
Proof. intros Hm. by apply idles_bind. Qed.

Lemma idle_remove p : idle (ignore (fs_remove p)).
Proof. by apply (idle_writes [PFiles]); [..|solve_writes]. Qed.

Lemma idle_resident_teardown p n : idle (resident_teardown p n).
Proof.
  unfold resident_teardown. destruct (delete_on_read _); [|destruct (reached_max _ _)].
  - apply idles_bind; [|intros _; apply idles_bind; [apply idle_ignore, idle_delete_content|done]].
    destruct (p_server_copy p); [|done]. apply idles_bind; [by apply (idle_writes []); [..|solve_writes]|].
    intros [[s|]|e]; [apply idle_remove|done|done].
  - apply idles_bind; [|done]. apply idle_ignore, idle_update. intros now. apply tame_scrub_component.
  - done.
Qed.

Lemma idle_download_teardown p s n b k : idle (download_teardown p s n b k).
Proof.
  unfold download_teardown. destruct (delete_on_read _); [|destruct (reached_max _ _); [|destruct (_ && _)]].
  - apply idles_bind; [apply idle_ignore, idle_delete_content|intros _]. apply idles_bind; [apply idle_remove|done].
  - apply idles_bind; [apply idle_ignore, idle_update; intros now; apply tame_scrub_dek|intros _].
    apply idles_bind; [apply idle_remove|done].
  - apply idles_bind; [|done]. destruct k; [apply idle_ignore, idle_rekey|done].
  - done.
Qed.

(** The claim earns the credit the answer costs. *)
Lemma spends_claim {B} (Q : nat -> outcome B -> Prop) p client (f : option Z -> M B) :
  closed Q -> p_id p = r -> read_cap (p_flags p) = Some cap ->
  (forall x, spends Q 1 (f x)) -> spends Q 0 (download_claim state name p client ≫= f).
Proof.
  intros HQ Hid Hcap Hf. unfold download_claim. rewrite Hcap.
  apply earns_bind, earns_bind, earns_or_500, earns_sql; [by apply HQ|].
  intros now d Hd. unfold claim_page. cbv beta iota zeta.
  pose proof (claim_earns (R:=Page) r cap (p_id p) cap (pages d) ltac:(done)) as Hb.
  rewrite Hid, String.eqb_refl in *. unfold claimable in Hb. simpl in Hb.
  split; [exact (proj1 (one_file_update _ _ _ _ tame_bump Hd))|].
  destruct (first_row _ (pages d)) as [x|]; cbn [option_map].
  - exists 1%nat. split; [unfold table_budget, file_budget, file_tables; simpl; lia|apply Hf].
  - exists 0%nat. split; [unfold table_budget, file_budget, file_tables; simpl; rewrite Hb; lia|].
    apply (file_phase [PAudits]); [by apply closed_then|reflexivity|reflexivity|solve_writes|solve_refuses|].
    intros _. by apply HQ.
Qed.

Lemma spends_lookup {B} (Q : nat -> outcome B -> Prop) c client (f : Page -> M B) :
  closed Q -> (forall p, p_id p = r -> read_cap (p_flags p) = Some cap -> spends Q c (f p)) ->
  spends Q c (lookup_page state name dom client ≫= f).
Proof.
  intros HQ Hf. apply earns_bind. unfold lookup_page. apply spends_query; [by apply closed_then|].
  intros now d (_ & Hn & Hc). destruct (find_page dom _ d) as [p|] eqn:E.
  - unfold find_page in E. apply first_row_Some in E as [Hin [Hd%String.eqb_eq Hk%String.eqb_eq]%andb_true_iff].
    apply Hf; [by apply Hn|by apply Hc, Hn].
  - apply (file_phase [PAudits]); [by apply closed_then|reflexivity|reflexivity|solve_writes|solve_refuses|].
    intros _. by apply HQ.
Qed.

Lemma ok_closed : closed (pays ok_count).
Proof.
  intros c. split; [intros resp Hs|intros s e]; unfold pays, ok_count; [rewrite (proj2 (Z.eqb_neq _ _) Hs)|]; lia.
Qed.

Lemma pays_one o : pays ok_count 1 o.
Proof. unfold pays, ok_count. destruct o as [x|x|]; [destruct (resp_status x =? 200)..|]; lia. Qed.

Ltac file_phase ps := apply (file_phase ps); [done|reflexivity|reflexivity|solve_writes|solve_refuses|].

Lemma download_file_spends h client :
  spends (pays ok_count) 0 (download_file state name q h client).
Proof.
  pose proof ok_closed as HQ. unfold download_file.
  apply spends_gate; [done|]. intros nm. apply spends_lookup; [done|]. intros p Hid Hcap.
  file_phase (@nil part); intros size. file_phase (@nil part); intros mime.
  file_phase [PAudits]; intros dec. file_phase [PAudits]; intros _.
  file_phase [PAudits; PRequests; PGrants]; intros _. file_phase [PAudits; PClients]; intros _.
  apply spends_claim; [done..|]. intros cnt. destruct (p_kind p =? 2).
  - unfold download_resident. apply spends_pure; [done|]. intros wrapped. file_phase (@nil part); intros kek.
    apply spends_pure; [done|]. intros kc.
    apply spends_idle; [done|apply idle_resident_teardown|apply refuses_resident_teardown|]. intros note.
    file_phase [PAcls]; intros _. file_phase [PAudits]; intros _. apply pays_one.
  - unfold download_stored.
    apply spends_idle; [done|by apply (idle_writes []); [..|solve_writes]|solve_refuses|]. intros path.
    file_phase (@nil part); intros stored. file_phase [PAudits]; intros [served kek].
    apply spends_idle; [done|apply idle_download_teardown|apply refuses_download_teardown|]. intros note.
    file_phase [PAcls]; intros _. file_phase [PAudits]; intros _. apply pays_one.
Qed.
End reads.

(** ** What a served download went through *)

Section served.
Context {P : Primitives} {PF : Platform} (state : AppState).

Lemma lookup_page_inv name dom client w p w' :
  run (lookup_page state name dom client) w = (Val p, w') ->
  db w' = db w /\ clock w' = clock w /\ find_page dom (name_id_hex (name_index_key state) dom name) (db w) = Some p.
Proof.
  intros H. unfold lookup_page in H. run_inv. destruct (find_page _ _ _) as [p'|] eqn:E; run_inv; done.
Qed.

Lemma authorize_file_inv client dom name act aa w dec w' :
  run (authorize_file state client dom name act aa) w = (Val dec, w') ->
  db w' = db w /\ clock w' = clock w /\ is_allowed dec = true /\
  run (acl_check (metadata_enc_key state) client dom name act) w = (Val (Ok dec), w').
Proof.
  intros H. unfold authorize_file in H. run_inv.
  match goal with H : run (acl_check _ _ _ _ _) w = (Val (Ok ?d), ?v) |- _ =>
    pose proof (run_reads _ _ _ _ (writes_acl_check _ _ _ _ _) H) as [Hd Hc]; destruct (is_allowed d) eqn:E end;
    run_inv; done.
Qed.

Lemma download_spent_inv name p client w w' :
  run (download_spent state name p client) w = (Val tt, w') ->
  w' = w /\ p_exhausted p = None /\ forall m, max_reads (p_flags p) = Some m -> p_read_count p < m.
Proof.
  unfold download_spent. intros H. destruct (p_exhausted p); [by run_inv|].
  destruct (max_reads (p_flags p)) as [m|]; [|by run_inv].
  destruct (m <=? p_read_count p) eqn:E; run_inv. apply Z.leb_gt in E.
  split; [done|]. split; [done|]. by intros ? [= <-].
Qed.

Lemma download_threshold_inv client dom name p h w w' pol :
  NoDup (r_id <$> requests (db w)) -> approvals_wf (requests (db w)) -> p_policy p = Some pol ->
  run (download_threshold state dom name p h client) w = (Val tt, w') ->
  quorum state (db w) (clock w) client "file" dom name pol (h_request_id h).
Proof.
  unfold download_threshold. intros Hnd Hwf -> H. apply run_bind_Val in H as ([r|] & w1 & Hg & H); [done|].
  by eapply threshold_gate_quorum.
Qed.

(** Whatever is served matches the hash recorded at upload. *)
Lemma download_blob_inv name p size stored client w served kek w' :
  run (download_blob state name p size stored client) w = (Val (served, kek), w') ->
  hash_id state served = p_hash_id p.
Proof.
  unfold download_blob, integrity_error. intros H. destruct (p_external p).
  - destruct (hash_id state stored =s? p_hash_id p) eqn:E; cbn [negb] in H; run_inv. by apply String.eqb_eq in E.
  - apply run_bind_Val in H as (k & w1 & _ & H). apply run_bind_Val in H as (dek & w2 & _ & H).
    apply run_bind_Val in H as (plain & w3 & _ & H).
    destruct (hash_id state plain =s? p_hash_id p) eqn:E; cbn [negb] in H; [|by run_inv].
    destruct (_ =? _); cbn [negb] in H; run_inv. by apply String.eqb_eq in E.
Qed.

(** Everything a 200 of [download_file] guarantees about its row, in the state
    the request found. *)
Definition file_cleared (w : World) (q : DomainQuery) (h : Headers) (client : AuthenticatedClient) (name : string)
    (p : Page) : Prop :=
  let dom := p_domain p in
  live_domain_id (domain_name_id_hex (name_index_key state) (DomainQuery_name q)) (db w) = Some dom /\
  (is_admin client = true \/ has_member (ac_id client) dom None (db w) = true) /\
  p ∈ pages (db w) /\ p_name_id p = name_id_hex (name_index_key state) dom name /\
  acl_granted (metadata_enc_key state) (db w) (clock w) client dom name Read /\
  p_exhausted p = None /\ (forall m, max_reads (p_flags p) = Some m -> p_read_count p < m) /\
  (forall pol, p_policy p = Some pol -> quorum state (db w) (clock w) client "file" dom name pol (h_request_id h)) /\
  mfa_passed state (db w) (clock w) client (mfa_required (p_flags p)) h.

(** The body handed back: none for a resident file, else bytes the row vouches for. *)
Definition vouched (p : Page) (resp : Response) : Prop :=
  exists b, resp_body resp = BinBody b /\ (if p_kind p =? 2 then b = [] else hash_id state b = p_hash_id p).

Lemma download_resident_inv name p cnt dec client w resp w' :
  run (download_resident state name p cnt dec client) w = (Val resp, w') -> resp_body resp = BinBody [].
Proof.
  unfold download_resident. intros H. apply run_bind_Val in H as (wr & w1 & _ & H).
  apply run_bind_Val in H as (kek & w2 & _ & H). apply run_bind_Val in H as (kc & w3 & _ & H).
  apply run_bind_Val in H as (note & w4 & _ & H). apply run_bind_Val in H as (u & w5 & _ & H).
  apply run_bind_Val in H as (u' & w6 & _ & H). rewrite run_ret in H. by injection H as <- _.
Qed.

Lemma download_stored_inv name p size mime cnt dec client w resp w' :
  run (download_stored state name p size mime cnt dec client) w = (Val resp, w') ->
  exists b, resp_body resp = BinBody b /\ hash_id state b = p_hash_id p.
Proof.
  unfold download_stored. intros H. apply run_bind_Val in H as (path & w1 & _ & H).
  apply run_bind_Val in H as (stored & w2 & _ & H). apply run_bind_Val in H as ([served kek] & w3 & Hb & H).
  apply download_blob_inv in Hb. apply run_bind_Val in H as (note & w4 & _ & H).
  apply run_bind_Val in H as (u & w5 & _ & H). apply run_bind_Val in H as (u' & w6 & _ & H).
  rewrite run_ret in H. injection H as <- _. by exists served.
Qed.

Lemma download_file_inv name q h client w resp w' :
  NoDup (r_id <$> requests (db w)) -> approvals_wf (requests (db w)) ->
  run (download_file state name q h client) w = (Val resp, w') ->
  exists p, file_cleared w q h client name p /\ vouched p resp.
Proof.
  intros Hnd Hwf H. unfold download_file in H.
  apply run_bind_Val in H as ([dom nm] & w1 & Hg & H).
  apply gate_domain_inv in Hg as (Hd1 & Hc1 & Hlive & Hmem).
  apply run_bind_Val in H as (p & w2 & Hl & H). apply lookup_page_inv in Hl as (Hd2 & Hc2 & Hfind).
  apply run_bind_Val in H as (size & w2a & Hs & H).
  pose proof (run_reads _ _ _ _ (writes_stored_size state _) Hs) as [Hd2a Hc2a].
  apply run_bind_Val in H as (mime & w3 & Hmi & H).
  pose proof (run_reads _ _ _ _ (writes_dec_mime state _) Hmi) as [Hd3 Hc3].
  apply run_bind_Val in H as (dec & w4 & Ha & H). apply authorize_file_inv in Ha as (Hd4 & Hc4 & Hal & Hacl).
  apply acl_check_sound in Hacl; [|done].
  apply run_bind_Val in H as ([] & w5 & Hsp & H). apply download_spent_inv in Hsp as (-> & Hex & Hmax).
  assert (Hdb : db w4 = db w) by congruence. assert (Hck : clock w4 = clock w) by congruence.
  apply run_bind_Val in H as ([] & w6 & Ht & H).
  pose proof (writes_run _ _ w4 (writes_download_threshold state dom name p h client)) as Hfr. rewrite Ht in Hfr.
  assert (Hq : forall pol, p_policy p = Some pol ->
    quorum state (db w) (clock w) client "file" dom name pol (h_request_id h)).
  { intros pol Hp. rewrite <- Hdb, <- Hck. eapply download_threshold_inv; [by rewrite Hdb..|done|exact Ht]. }
  apply run_bind_Val in H as ([] & w7 & Hm & H). apply mfa_gate_inv in Hm.
  assert (Hmfa : mfa_passed state (db w) (clock w) client (mfa_required (p_flags p)) h).
  { intros Hreq. destruct (Hm Hreq) as (code & kek & Hc & Hk & c & enc & sec & Hin & Hrest).
    pose proof (Hfr PClients eq_refl) as Hcl. pose proof (Hfr PClock eq_refl) as Hclk. simpl in Hcl, Hclk.
    rewrite Hcl, Hdb in Hin. rewrite Hclk, Hck in Hrest. exists code, kek. do 2 (split; [done|]). by exists c, enc, sec. }
  apply run_bind_Val in H as (cnt & w8 & _ & H). exists p. split.
  - unfold find_page in Hfind. apply first_row_Some in Hfind as [Hin [Hdom%String.eqb_eq Hn%String.eqb_eq]%andb_true_iff].
    rewrite Hd1 in Hin. subst dom. split; [done|]. split; [done|]. split; [done|]. split; [done|].
    split; [|done]. by rewrite Hd3, Hd2a, Hd2, Hd1, Hc3, Hc2a, Hc2, Hc1 in Hacl.
  - unfold vouched. destruct (p_kind p =? 2).
    + exists []. split; [by eapply download_resident_inv|done].
    + by eapply download_stored_inv.
Qed.
End served.
