(* ===== verification/FilesContent.v ===== *)
(** What a stored file holds: uploads put it in place, rotations re-key it,
    downloads hand it back. *)
From S2P Require Import Prelude AccessRules Crypto ToyPrimitives Store Effects Concurrency ServerBase ToyPlatform AuditLog Auth AuthProps Threshold ThresholdProps ReadLimit Secrets SecretsLemmas SecretsProps Files FilesLemmas.

Section content.
Context {P : Primitives} {L : PrimitiveLaws P} {PF : Platform} (state : AppState).

Abbreviation mek := (metadata_enc_key state).

(** The stored blob opens to the body under the row's key. *)
Definition file_holds (p : Page) (stored body : bytes) : Prop :=
  if p_external p then stored = body
  else exists kek dek, handle (file_dek_kek (app_keys state)) = Ok kek /\
         decrypt_aes_gcm (p_wrapped_dek p) kek = Ok dek /\ aead_open stored dek = Ok body.

(** The key the row's blob is under. *)
Definition file_key (p : Page) (dek : bytes) : Prop :=
  exists kek, handle (file_dek_kek (app_keys state)) = Ok kek /\ decrypt_aes_gcm (p_wrapped_dek p) kek = Ok dek.

(** Page [p] of these tables and this directory is in good order and holds
    [body]. *)
Record file_at (d : Db) (t : gmap string bytes) (p : Page) (body : bytes) : Prop := {
  at_row : p ∈ pages d;
  at_kind : p_kind p <> 2;
  at_hash : p_hash_id p = hash_id state body;
  at_size : exists b, dec_field mek (p_size_enc p) = Ok b /\ size_of_bytes b = Some (Z.of_nat (length body));
  at_blob : exists path stored, content_path (p_content p) d = Some path /\ t !! blob_path path = Some stored /\
              file_holds p stored body;
}.

Lemma size_roundtrip (n : nat) : Z.of_nat n <= MAX_FILE_BYTES -> size_of_bytes (size_bytes (Z.of_nat n)) = Some (Z.of_nat n).
Proof.
  unfold size_of_bytes, size_bytes, MAX_FILE_BYTES. intros Hn. rewrite be_bytes_length, be_value_be_bytes. simpl Nat.eqb.
  cbv iota. f_equal. change (256 ^ Z.of_nat 8) with (2 ^ 64). rewrite (Z.mod_small (Z.of_nat n)) by lia.
  apply wrap_i64_id. unfold i64_min, i64_max. lia.
Qed.

(** ** Downloading *)

Lemma run_fetch {A : Set} (f : Z -> Db -> result SqlError (A * Db)) w a :
  faults w = [] -> f (clock w) (db w) = Ok (a, db w) -> run (sql f) w = (Val (Ok a), w).
Proof.
  intros Hf H. unfold sql. rewrite run_perform. unfold statement. rewrite next_fault_nil, H by done. by destruct w.
Qed.

Lemma run_fs_read path w b : faults w = [] -> fs w !! path = Some b -> run (fs_read path) w = (Val (Ok b), w).
Proof.
  intros Hf H. unfold fs_read. rewrite run_perform. unfold file_op. rewrite next_fault_nil, H by done. by destruct w.
Qed.

Lemma download_blob_run name p size stored client w body :
  p_hash_id p = hash_id state body -> size = Z.of_nat (length body) -> file_holds p stored body ->
  exists k, run (download_blob state name p size stored client) w = (Val (body, k), w).
Proof.
  unfold file_holds, download_blob. intros Hh -> Hf. destruct (p_external p).
  - subst stored. rewrite Hh, String.eqb_refl. by exists None.
  - destruct Hf as (kek & dek & Hk & Hd & Hb). exists (Some kek).
    eapply run_then; [unfold file_kek; exact (run_pure_500_Ok _ _ _ _ Hk)|].
    eapply run_then; [exact (run_pure_500_Ok _ _ _ _ Hd)|]. eapply run_then; [exact (run_pure_500_Ok _ _ _ _ Hb)|].
    rewrite Hh, String.eqb_refl, Z.eqb_refl. reflexivity.
Qed.

(** A fresh row: neither spent nor guarded by a quorum or a code. *)
Definition open_page (p : Page) : Prop :=
  p_exhausted p = None /\ p_policy p = None /\ mfa_required (p_flags p) = false /\ p_read_count p = 0 /\
  forall m, max_reads (p_flags p) = Some m -> 1 <= m.

Lemma download_claim_run name p client w :
  faults w = [] -> open_page p -> p ∈ pages (db w) ->
  exists c w', run (download_claim state name p client) w = (Val c, w') /\ faults w' = [] /\ fs w' = fs w /\
    contents (db w') = contents (db w).
Proof.
  intros Hf (He & _ & _ & Hz & Hm) Hin. unfold download_claim. destruct (read_cap (p_flags p)) as [cap|] eqn:Ec.
  - assert (1 <= cap).
    { revert Ec. unfold read_cap. destruct (max_reads (p_flags p)) as [m|], (delete_on_read (p_flags p)); intros [= <-];
        try specialize (Hm m eq_refl); lia. }
    destruct (first_row (fun x => (p_id x =s? p_id p) && is_null (p_exhausted x) && (p_read_count x <? cap))
                (pages (db w))) as [x|] eqn:E.
    + eexists _, _. split; [|split; [|split]].
      * eapply run_then.
        { apply run_or_500. unfold sql. rewrite run_perform. unfold statement. rewrite next_fault_nil by done.
          unfold claim_page. rewrite E. reflexivity. }
        reflexivity.
      * done.
      * done.
      * done.
    + apply first_row_None with (r := p) in E; [|done].
      rewrite String.eqb_refl, He, Hz, (proj2 (Z.ltb_lt 0 cap)) in E by lia. done.
  - eexists None, _. split; [|split; [|split]].
    + eapply run_then; [unfold ignore; eapply run_then; [by apply run_exec|reflexivity]|]. reflexivity.
    + done.
    + done.
    + done.
Qed.

Lemma returns_rekey i o s b k : returns (rekey_file_dek i o s b k).
Proof.
  assert (Hp : forall A : Set, forall act : World -> A * World, returns (perform act)) by (intros; apply returns_perform).
  assert (Htry : forall E A B (m : M (result E A)) (f : A -> M (result E B)),
    returns m -> (forall a, returns (f a)) -> returns (try_bind m f)).
  { intros E A B m f Hm Hf. apply returns_bind; [done|]. intros [a|e]; [apply Hf|apply returns_ret]. }
  unfold rekey_file_dek, seal_blob, seal_envelope, new_id, draw, rekey_tx.
  repeat first
    [ apply returns_transaction | apply Hp | apply returns_ret | apply returns_ignore
    | apply Htry; [|intros ?] | apply returns_bind; [|intros ?] ].
Qed.

Lemma returns_download_teardown p s n b k : returns (download_teardown p s n b k).
Proof.
  unfold download_teardown. repeat case_match;
    repeat first [ apply returns_rekey | apply returns_ret | apply returns_ignore | apply returns_perform
                 | apply returns_bind; [|intros ?] ].
Qed.

(** A caller whom the domain and the ACL let through reaches the file. *)
Lemma download_admits name q h client w dom nm p size mime dec :
  faults w = [] -> run (resolve_and_gate_domain state client q) w = (Val (Ok (dom, nm)), w) ->
  find_page dom (name_id_hex (name_index_key state) dom name) (db w) = Some p -> p ∈ pages (db w) ->
  (exists b, dec_field mek (p_size_enc p) = Ok b /\ size_of_bytes b = Some size) -> open_page p ->
  run (dec_mime state (p_mime_enc p)) w = (Val mime, w) ->
  run (acl_check mek client dom name Read) w = (Val (Ok dec), w) -> is_allowed dec = true ->
  exists cnt w1, faults w1 = [] /\ fs w1 = fs w /\ contents (db w1) = contents (db w) /\
    run (download_file state name q h client) w =
    run (if p_kind p =? 2 then download_resident state name p cnt dec client
         else download_stored state name p size mime cnt dec client) w1.
Proof.
  intros Hf Hgate Hfind Hin (sb & Hsb & Hsz) Hop Hmime Hacl Hal.
  destruct (download_claim_run name p client w Hf Hop Hin) as (cnt & w1 & Hclaim & Hf1 & Hfs1 & Hc1).
  destruct Hop as (He & Hp & Hm & Hz & Hmax). exists cnt, w1. do 3 (split; [done|]). unfold download_file.
  eapply run_then; [unfold or_reply; eapply run_then; [exact Hgate|reflexivity]|]. cbv beta iota.
  eapply run_then.
  { unfold lookup_page. eapply run_then; [apply run_or_500; by apply run_query|]. cbv beta. rewrite Hfind. reflexivity. }
  eapply run_then.
  { unfold stored_size. eapply run_then; [exact (run_pure_500_Ok _ _ _ _ Hsb)|]. rewrite Hsz. reflexivity. }
  eapply run_then; [exact Hmime|].
  eapply run_then.
  { unfold authorize_file. eapply run_then; [apply run_or_500, Hacl|]. by rewrite Hal. }
  eapply run_then.
  { unfold download_spent. rewrite He. destruct (max_reads (p_flags p)) as [m|]; [|reflexivity].
    specialize (Hmax m eq_refl). rewrite (proj2 (Z.leb_gt m (p_read_count p))) by lia. reflexivity. }
  eapply run_then; [unfold download_threshold; by rewrite Hp|].
  eapply run_then; [by rewrite Hm|].
  eapply run_then; [exact Hclaim|]. reflexivity.
Qed.

(** Without faults to come there are none after, and only blobs change. *)
Definition sparing (w w' : World) : Prop :=
  (faults w = [] -> faults w' = []) /\ forall p, (forall c, p <> blob_path c) -> fs w' !! p = fs w !! p.

#[local] Instance sparing_preorder : PreOrder sparing.
Proof.
  split; [by split|]. intros x y z [H1 H2] [G1 G2]. split; [auto|]. intros p Hp. by rewrite G2, H2.
Qed.

Lemma sparing_fault w : sparing w (next_fault w).2.
Proof. unfold next_fault. destruct w as [d t c r [|b l]]; by split. Qed.

Lemma sparing_statement {A : Set} (f : Z -> Db -> result SqlError (A * Db)) w : sparing w (statement f w).2.
Proof.
  unfold statement. pose proof (sparing_fault w) as H. destruct (next_fault w) as [[] w1]; [exact H|]. cbn [snd] in H.
  by destruct (f _ _) as [[a d]|e].
Qed.

Lemma sparing_sql {A : Set} (f : Z -> Db -> result SqlError (A * Db)) : Steps sparing (sql f).
Proof. split; [apply sparing_statement|done]. Qed.

Lemma sparing_remove c : Steps sparing (fs_remove (blob_path c)).
Proof.
  split; [|done]. intros w. unfold file_op. pose proof (sparing_fault w) as H.
  destruct (next_fault w) as [[] w1]; [exact H|]. cbn [snd] in H. destruct (fs w1 !! _) eqn:E; [|exact H].
  etrans; [exact H|]. split; [done|]. intros p Hp. cbn. by apply lookup_delete_ne.
Qed.

Lemma sparing_transaction {E A : Set} inj (m : M (result E A)) : Steps sparing m -> Steps sparing (transaction_with inj m).
Proof.
  intros Hm. split; [|done]. intros w. unfold transact_with. pose proof (sparing_fault w) as H.
  destruct (next_fault w) as [[] w1]; [exact H|]. cbn [snd] in H. pose proof (Steps_run sparing m w1 Hm) as H1.
  destruct (run m w1) as [[[a|e]|r|st e] w2]; cbn [snd] in H1; try (by etrans).
  pose proof (sparing_fault w2) as H2. destruct (next_fault w2) as [[] w3]; cbn [snd] in H2; by etrans; [|etrans].
Qed.

Lemma sparing_draw n : Steps sparing (draw n).
Proof. by split. Qed.
Lemma sparing_now : Steps sparing utc_now.
Proof. by split. Qed.

Ltac spare_step := first
  [ exact I | apply sparing_sql | apply sparing_remove | apply sparing_transaction | apply sparing_draw | apply sparing_now
  | apply Steps_bind; [|intros ?] | case_match ].
Ltac solve_sparing := repeat spare_step.

(** What ends every download. *)
Lemma download_ends name client note dec (resp : Response) w :
  exists w', sparing w w' /\ run (_ ← acl_record_use dec;
                  _ ← audit (audit_hmac_key state) mek (Some (ac_id client)) "file.read" (Some name) AuditOk note;
                  mret resp) w = (Val resp, w').
Proof.
  destruct (returns_run _ w (returns_acl_record_use dec)) as (u & w3 & Huse).
  destruct (returns_run (audit (audit_hmac_key state) mek (Some (ac_id client)) "file.read" (Some name) AuditOk note) w3
    (returns_audit _ _ _ _ _ _ _)) as (u' & w4 & Haud).
  exists w4. split; [|by eapply run_then; [exact Huse|]; eapply run_then; [exact Haud|]].
  assert (H1 : Steps sparing (acl_record_use dec)) by (unfold acl_record_use, ignore, exec; solve_sparing).
  apply (Steps_run sparing _ w) in H1. rewrite Huse in H1. etrans; [exact H1|].
  assert (H2 : Steps sparing (audit (audit_hmac_key state) mek (Some (ac_id client)) "file.read" (Some name) AuditOk note))
    by (unfold audit, enc_opt, ignore, exec; solve_sparing).
  apply (Steps_run sparing _ w3) in H2. by rewrite Haud in H2.
Qed.

(** Downloading a file in good order, for a caller the domain and the ACL let
    through. *)
Lemma download_run name q h client w dom nm p body mime dec :
  faults w = [] -> run (resolve_and_gate_domain state client q) w = (Val (Ok (dom, nm)), w) ->
  find_page dom (name_id_hex (name_index_key state) dom name) (db w) = Some p ->
  file_at (db w) (fs w) p body -> open_page p -> run (dec_mime state (p_mime_enc p)) w = (Val mime, w) ->
  run (acl_check mek client dom name Read) w = (Val (Ok dec), w) -> is_allowed dec = true ->
  exists w', run (download_file state name q h client) w = (Val (download_response p mime body), w').
Proof.
  intros Hf Hgate Hfind [Hin Hk Hh Hsz (path & stored & Hpath & Hst & Hb)] Hop Hmime Hacl Hal.
  destruct (download_admits name q h client w dom nm p (Z.of_nat (length body)) mime dec)
    as (cnt & w1 & Hf1 & Hfs1 & Hc1 & ->); try done.
  destruct (download_blob_run name p (Z.of_nat (length body)) stored client w1 body Hh eq_refl Hb) as (k & Hblob).
  destruct (returns_run _ w1 (returns_download_teardown p path cnt body k)) as (note & w2 & Htear).
  destruct (download_ends name client (or_note note "read") dec (download_response p mime body) w2) as (w3 & _ & Hend).
  exists w3. rewrite (proj2 (Z.eqb_neq _ _) Hk). unfold download_stored.
  eapply run_then; [apply run_or_500, run_fetch; [done|]; unfold content_path in *; by rewrite Hc1, Hpath|].
  eapply run_then.
  { unfold str_500. eapply run_then; [apply run_fs_read; [done|by rewrite Hfs1]|reflexivity]. }
  eapply run_then; [exact Hblob|].
  cbv beta iota. eapply run_then; [exact Htear|]. exact Hend.
Qed.

(** Of a resident file the caller gets the server's half of the key. *)
Definition resident_response (p : Page) (kc : bytes) : Response :=
  MkResponse 200 ([("X-Blackbook-Resident", "1"); ("X-Blackbook-Key-Component", b64_encode kc)]
                  ++ (if p_server_copy p then [("X-Blackbook-Server-Copy", "1")] else [])) (BinBody []).

Lemma returns_resident_teardown p n : returns (resident_teardown p n).
Proof.
  unfold resident_teardown. repeat first
    [ apply returns_ret | apply returns_ignore | apply returns_perform | apply returns_bind; [|intros ?] | case_match ].
Qed.

Lemma download_resident_run name q h client w dom nm p size mime wrapped kek kc dec :
  faults w = [] -> run (resolve_and_gate_domain state client q) w = (Val (Ok (dom, nm)), w) ->
  find_page dom (name_id_hex (name_index_key state) dom name) (db w) = Some p -> p ∈ pages (db w) ->
  (exists b, dec_field mek (p_size_enc p) = Ok b /\ size_of_bytes b = Some size) -> open_page p ->
  run (dec_mime state (p_mime_enc p)) w = (Val mime, w) ->
  run (acl_check mek client dom name Read) w = (Val (Ok dec), w) -> is_allowed dec = true ->
  p_kind p = 2 -> p_key_component p = Some wrapped -> handle (file_dek_kek (app_keys state)) = Ok kek ->
  decrypt_aes_gcm wrapped kek = Ok kc ->
  exists w', sparing w w' /\ run (download_file state name q h client) w = (Val (resident_response p kc), w').
Proof.
  intros Hf Hgate Hfind Hin Hsz Hop Hmime Hacl Hal Hk Hw Hkek Hkc.
  destruct (download_admits name q h client w dom nm p size mime dec) as (cnt & w1 & Hf1 & Hfs1 & _ & ->); try done.
  destruct (returns_run _ w1 (returns_resident_teardown p cnt)) as (note & w2 & Htear).
  assert (H2 : Steps sparing (resident_teardown p cnt)) by (unfold resident_teardown, ignore, exec, query; solve_sparing).
  apply (Steps_run sparing _ w1) in H2. rewrite Htear in H2. cbn [snd] in H2.
  destruct (download_ends name client (or_note note "read (resident key component)") dec (resident_response p kc) w2)
    as (w3 & H3 & Hend).
  exists w3. split.
  { assert (H1 : sparing w w1) by (split; [done|by rewrite Hfs1]). etrans; [exact H1|]. by etrans. }
  rewrite Hk. change (2 =? 2) with true. cbv iota. unfold download_resident. rewrite Hw.
  eapply run_then; [apply run_pure_500_Ok; reflexivity|].
  eapply run_then; [unfold file_kek; exact (run_pure_500_Ok _ _ _ _ Hkek)|].
  eapply run_then; [exact (run_pure_500_Ok _ _ _ _ Hkc)|].
  eapply run_then; [exact Htear|]. exact Hend.
Qed.

(** ** Uploading *)

(** Phases that leave the files alone. *)
Lemma run_files ps {A} (m : M A) w o w' :
  writes ps m -> forallb (fun p => negb (bool_decide (p ∈ ps))) [PPages; PContents; PFiles] = true ->
  run m w = (o, w') ->
  pages (db w') = pages (db w) /\ contents (db w') = contents (db w) /\ fs w' = fs w.
Proof.
  intros Hm Hps H. pose proof (writes_run _ _ w Hm) as Hf. rewrite H in Hf.
  apply andb_true_iff in Hps as [H1%negb_true_iff [H2%negb_true_iff [H3%negb_true_iff _]%andb_true_iff]%andb_true_iff].
  split; [exact (Hf PPages H1)|]. split; [exact (Hf PContents H2)|exact (Hf PFiles H3)].
Qed.

Lemma seal_file_inv body w ct wd w' :
  run (seal_file state body) w = (Val (ct, wd), w') ->
  exists kek dek, handle (file_dek_kek (app_keys state)) = Ok kek /\ decrypt_aes_gcm wd kek = Ok dek /\
    aead_open ct dek = Ok body.
Proof.
  unfold seal_file, seal_blob, file_kek. intros H.
  apply run_bind_Val in H as (dek & w1 & Hd & H). apply run_bind_Val in H as (r & w2 & Hr & H).
  apply run_bind_Val in H as (c & w3 & Hc & H). apply run_pure_500 in Hc as [-> ->].
  apply run_bind_Val in H as (kek & w4 & Hk & H). apply run_pure_500 in Hk as [Hk ->].
  apply run_bind_Val in H as (rw & w5 & Hw & H). apply run_bind_Val in H as (wr & w6 & Hwr & H).
  apply run_pure_500 in Hwr as [-> ->]. apply seal_envelope_inv in Hw as [_ Hw]. run_inv.
  exists kek, (rand_bytes (rng w) 32). split; [done|]. split; [done|].
  eapply aead_roundtrip; [|eassumption]. apply rand_length.
Qed.

Lemma upload_seal_inv pol body w x w' :
  default false (fq_resident pol) = false -> run (upload_seal state pol body) w = (Val x, w') ->
  sf_kind x <> 2 /\
  if sf_external x then sf_bytes x = body
  else exists kek dek, handle (file_dek_kek (app_keys state)) = Ok kek /\ decrypt_aes_gcm (sf_dek x) kek = Ok dek /\
         aead_open (sf_bytes x) dek = Ok body.
Proof.
  unfold upload_seal. intros -> H. cbn [negb andb] in H.
  apply run_bind_Val in H as (meta & w1 & _ & H). apply run_bind_Val in H as (comp & w2 & _ & H).
  apply run_bind_Val in H as ([stored dek] & w3 & Hs & H). run_inv. simpl.
  destruct (default false (fq_external pol)); [by run_inv|]. split; [done|]. by eapply seal_file_inv.
Qed.

Lemma enc_mime_inv mime w c w' :
  (forall m, mime = Some m -> is_str m) -> run (enc_mime state mime) w = (Val c, w') ->
  forall v, run (dec_mime state c) v = (Val mime, v).
Proof.
  unfold enc_mime. intros Hs H. destruct mime as [m|]; [|by run_inv].
  apply run_bind_Val in H as (ct & w1 & Hc & H). unfold str_500, enc_str, enc_field in Hc. run_inv.
  match goal with H : run (pure_500 _ _) _ = _ |- _ => apply run_pure_500 in H as [He ->] end.
  intros v. unfold dec_mime. eapply run_then; [|reflexivity]. apply run_pure_500_Ok.
  eapply dec_enc_str; [by apply Hs| |exact He]. apply rand_length.
Qed.

Lemma enc_size_inv n w c w' :
  run (str_500 (enc_field mek (size_bytes n))) w = (Val c, w') -> dec_field mek c = Ok (size_bytes n).
Proof.
  unfold str_500, enc_field. intros H. run_inv.
  match goal with H : run (pure_500 _ _) _ = _ |- _ => apply run_pure_500 in H as [He ->] end.
  unfold enc_field_with, dec_field in *. destruct (aead_seal _ _ _) as [b|e] eqn:E; [|done]. injection He as <-.
  by rewrite (aead_roundtrip _ _ _ _ (rand_length _ _) E).
Qed.

Lemma insert_content_inv id path size now d u d' :
  insert_content id path size now d = Ok (u, d') ->
  d' = upd_contents (insert_row (MkContent id path size now)) d /\
  forall c, c ∈ contents d -> co_id c <> id /\ co_path c <> path.
Proof.
  unfold insert_content. destruct (existsb _ _) eqn:Ex; [done|]. intros [= _ <-]. split; [done|]. intros c Hc.
  pose proof (existsb_false_elem _ _ Ex c Hc) as H. simpl in H. apply orb_false_iff in H as [H1 H2].
  by apply String.eqb_neq in H1, H2.
Qed.

Lemma content_path_new id path size now l (d : Db) :
  contents d = l ++ [MkContent id path size now] -> (forall c, c ∈ l -> co_id c <> id) -> content_path id d = Some path.
Proof.
  intros Hd Hn. unfold content_path. rewrite Hd. unfold first_row, select. rewrite List.filter_app.
  assert (List.filter (fun c => co_id c =s? id) l = []) as ->; [|simpl; by rewrite String.eqb_refl].
  clear Hd. induction l as [|c l IH]; [done|]. simpl. rewrite (proj2 (String.eqb_neq _ _)); [|apply Hn; by left].
  apply IH. intros c' Hc. apply Hn. by right.
Qed.

Lemma create_page_tx_inv page_id cid dom nid name client body mime x flags w w' :
  (forall m, mime = Some m -> is_str m) -> is_str name -> Z.of_nat (length body) <= MAX_FILE_BYTES ->
  run (create_page_tx state page_id cid dom nid name client body mime x flags None) w = (Val (Ok tt), w') ->
  exists p, pages (db w') = pages (db w) ++ [p] /\ p_domain p = dom /\ p_name_id p = nid /\ p_content p = cid /\
    p_wrapped_dek p = sf_dek x /\ p_external p = sf_external x /\ p_kind p = sf_kind x /\ p_external_meta p = sf_meta x /\
    p_key_component p = sf_component x /\ p_flags p = flags /\ p_hash_id p = hash_id state body /\ p_read_count p = 0 /\ p_policy p = None /\ p_exhausted p = None /\
    (exists b, dec_field mek (p_size_enc p) = Ok b /\ size_of_bytes b = Some (Z.of_nat (length body))) /\
    (forall v, run (dec_mime state (p_mime_enc p)) v = (Val mime, v)) /\
    content_path cid (db w') = Some cid /\ fs w' = fs w.
Proof.
  intros Hmime Hname Hlen H. unfold create_page_tx in H.
  apply run_transaction_Ok in H as (l & w1 & l' & H & ->).
  apply run_try_Ok in H as (u & w2 & Hc & H). apply run_sql_Ok in Hc as (d & l2 & Hc & ->).
  apply insert_content_inv in Hc as [-> Hnew].
  apply run_bind_Val in H as (ne & w3 & Hne & H). 
  destruct (run_files [] _ _ _ _ (writes_str_500 [] _ (writes_enc_str [] mek name)) eq_refl Hne) as (Hp3 & Hc3 & Hf3).
  apply run_bind_Val in H as (me & w4 & Hme & H). 
  destruct (run_files [] _ _ _ _ (writes_enc_mime state mime) eq_refl Hme) as (Hp4 & Hc4 & Hf4).
  apply run_bind_Val in H as (se & w5 & Hse & H). 
  destruct (run_files [] _ _ _ _ (writes_str_500 [] _ (writes_enc_field [] mek _)) eq_refl Hse) as (Hp5 & Hc5 & Hf5).
  apply run_bind_Val in H as (pv & w6 & Hpv & H). injection Hpv as <- <-.
  apply run_try_Ok in H as (u' & w7 & Hi & H). apply run_sql_Ok in Hi as (d' & l3 & Hi & ->).
  unfold insert_page in Hi. destruct (existsb _ _); [done|]. injection Hi as _ <-. rewrite run_ret in H. injection H as <-.
  eexists. split; [simpl; rewrite Hp5, Hp4, Hp3; reflexivity|]. cbn -[dec_field size_of_bytes dec_mime run content_path].
  do 13 (split; [done|]). split.
  { exists (size_bytes (Z.of_nat (length body))). split; [by eapply enc_size_inv|by apply size_roundtrip]. }
  split; [by eapply enc_mime_inv|]. split.
  - eapply (content_path_new _ _ _ _ (contents (db w))); [|by intros c Hc; apply Hnew].
    simpl. rewrite Hc5, Hc4, Hc3. reflexivity.
  - simpl. by rewrite Hf5, Hf4, Hf3.
Qed.

Lemma run_fs_write_inv path b w w' :
  run (str_500 (fs_write path b)) w = (Val tt, w') -> fs w' = <[path := b]> (fs w) /\ db w' = db w.
Proof.
  unfold str_500, fs_write. rewrite run_bind, run_perform. unfold file_op, next_fault.
  destruct (faults w) as [|[] l]; simpl; intros H; by simplify_eq.
Qed.

Lemma upload_validate_inv name body w w' :
  run (upload_validate name body) w = (Val tt, w') -> w' = w /\ Z.of_nat (length body) <= MAX_FILE_BYTES.
Proof.
  unfold upload_validate. destruct (_ || _); [done|]. destruct (Z.ltb_spec MAX_FILE_BYTES (Z.of_nat (length body))); [done|].
  destruct (_ =? _)%nat; [done|]. intros H'. run_inv. done.
Qed.

Definition upload_mime (mime_guess : string -> option string) (name : string) (content_type : option string) : option string :=
  match content_type with Some m => Some m | None => mime_guess name end.

(** What uploading a new file without a quorum leaves behind: a row with what
    [upload_seal] made of the body, and the blob it names. *)
Record uploaded (d : Db) (t : gmap string bytes) (dom name : string) (body : bytes) (mime : option string)
    (flags : ResourceFlags) (x : StoredFile) (p : Page) : Prop := {
  up_place : p_domain p = dom /\ p_name_id p = name_id_hex (name_index_key state) dom name;
  up_row : p ∈ pages d;
  up_dek : p_wrapped_dek p = sf_dek x;
  up_external : p_external p = sf_external x;
  up_kind : p_kind p = sf_kind x;
  up_meta : p_external_meta p = sf_meta x;
  up_component : p_key_component p = sf_component x;
  up_flags : p_flags p = flags;
  up_fresh : p_read_count p = 0 /\ p_policy p = None /\ p_exhausted p = None;
  up_hash : p_hash_id p = hash_id state body;
  up_size : exists b, dec_field mek (p_size_enc p) = Ok b /\ size_of_bytes b = Some (Z.of_nat (length body));
  up_mime : forall v, run (dec_mime state (p_mime_enc p)) v = (Val mime, v);
  up_blob : exists cid, content_path (p_content p) d = Some cid /\ t !! blob_path cid = Some (sf_bytes x);
}.

Lemma upload_row mg name body ct q pol client w resp w' dom :
  run (upload_file state mg name body ct q pol client) w = (Val resp, w') ->
  live_domain_id (domain_name_id_hex (name_index_key state) (DomainQuery_name q)) (db w) = Some dom ->
  find_page dom (name_id_hex (name_index_key state) dom name) (db w) = None ->
  fq_quorum pol = None -> fq_signatories pol = None -> is_str name ->
  (forall m, upload_mime mg name ct = Some m -> is_str m) ->
  exists p x wa wb cid, run (upload_seal state pol body) wa = (Val x, wb) /\
    pages (db w') = pages (db w) ++ [p] /\
    uploaded (db w') (fs w') dom name body (upload_mime mg name ct) (FilePolicyQuery_flags pol) x p /\
    fs w' = <[blob_path cid := sf_bytes x]> (fs w).
Proof.
  intros H Hdom Hnew Hq Hs Hname Hmime. unfold upload_file in H.
  apply run_bind_Val in H as ([] & w1 & Hv & H). apply upload_validate_inv in Hv as [-> Hlen].
  apply run_bind_Val in H as ([d nm] & w2 & Hg & H).
  pose proof (run_files [] _ _ _ _ (writes_or_reply _ _ (writes_resolve_and_gate_domain state client q)) eq_refl Hg) as (_ & _ & Hf2).
  apply gate_domain_inv in Hg as (Hd2 & _ & Hlive & _).
  assert (d = dom) as -> by congruence.
  apply run_bind_Val in H as (ex & w3 & Hx & H). apply run_or_500_inv, run_query_Ok in Hx as (-> & l & ->).
  cbv beta in H. rewrite Hd2, Hnew in H. cbn [is_null] in H.
  apply run_bind_Val in H as ([] & w4 & Hc & H). unfold upload_conflicts in Hc. rewrite run_ret in Hc. injection Hc as <-.
  apply run_bind_Val in H as (dec & w5 & Ha & H).
  destruct (run_files [PAudits] _ _ _ _ (writes_authorize_file state _ _ _ _ _) eq_refl Ha) as (_ & _ & Hf5).
  apply authorize_file_inv in Ha as (Hd5 & _ & _ & _).
  apply run_bind_Val in H as (pv & w6 & Hpv & H). unfold upload_policy, FilePolicyQuery_access_policy in Hpv.
  rewrite Hq, Hs in Hpv. injection Hpv as <- <-.
  apply run_bind_Val in H as (x & w7 & Hsl & H).
  destruct (run_files [] _ _ _ _ (writes_upload_seal state pol body) eq_refl Hsl) as (Hp7 & _ & Hf7).
  apply run_bind_Val in H as (cid & w8 & Hid & H).
  destruct (run_files [] _ _ _ _ (writes_new_id [] 32) eq_refl Hid) as (Hp8 & _ & Hf8).
  apply run_bind_Val in H as ([] & w9 & Hw & H). apply run_fs_write_inv in Hw as [Hf9 Hd9].
  apply run_bind_Val in H as (now & w10 & Hnow & H). rewrite run_utc_now in Hnow. injection Hnow as <- <-.
  apply run_bind_Val in H as (sm & w11 & Hcr & H). apply run_bind_Val in Hcr as (pid & w12 & Hpid & Hcr).
  destruct (run_files [] _ _ _ _ (writes_new_id [] 16) eq_refl Hpid) as (Hp12 & _ & Hf12).
  apply run_bind_Val in Hcr as ([] & w13 & Htx & Hcr). apply run_or_500_inv in Htx.
  apply create_page_tx_inv in Htx as (p & Hpages & H1 & H2 & H3 & H4 & H5 & H6 & Hme & Hco & H7 & H8 & H9 & H10 & H11 & H12 & H13 & H14 & Hf13);
    [|done..]. rewrite run_ret in Hcr. injection Hcr as <- <-.
  apply run_bind_Val in H as (u & w14 & Hu & H).
  destruct (run_files [PAcls] _ _ _ _ (writes_acl_record_use dec) eq_refl Hu) as (Hp14 & Hc14 & Hf14).
  apply run_bind_Val in H as (u' & w15 & Hu' & H).
  destruct (run_files [PAudits] _ _ _ _ (writes_audit _ _ _ _ _ _ _) eq_refl Hu') as (Hp15 & Hc15 & Hf15).
  rewrite run_ret in H. injection H as _ <-.
  assert (Hpw : pages (db w15) = pages (db w) ++ [p]).
  { rewrite Hp15, Hp14, Hpages, Hp12, Hd9, Hp8, Hp7, Hd5. simpl. by rewrite Hd2. }
  assert (Hfw : fs w15 = <[blob_path cid := sf_bytes x]> (fs w)).
  { rewrite Hf15, Hf14, Hf13, Hf12, Hf9, Hf8, Hf7, Hf5. simpl. by rewrite Hf2. }
  exists p, x, w5, w7, cid. split; [exact Hsl|]. split; [exact Hpw|]. split; [|exact Hfw].
  constructor; try done.
  - rewrite Hpw. apply elem_of_app. right. by apply list_elem_of_singleton.
  - exists cid. split; [rewrite H3; unfold content_path in *; by rewrite Hc15, Hc14|]. rewrite Hfw. apply lookup_insert_eq.
Qed.

(** A file that is not resident is in good order. *)
Lemma uploaded_file_at d t dom name body mime flags pol x p wa wb :
  uploaded d t dom name body mime flags x p -> default false (fq_resident pol) = false ->
  run (upload_seal state pol body) wa = (Val x, wb) -> file_at d t p body.
Proof.
  intros U Hres Hsl. apply upload_seal_inv in Hsl as [Hkind Hholds]; [|done].
  constructor; [apply U|by rewrite (up_kind _ _ _ _ _ _ _ _ _ U)|apply U|apply U|].
  destruct (up_blob _ _ _ _ _ _ _ _ _ U) as (cid & Hp & Hb). exists cid, (sf_bytes x). do 2 (split; [done|]).
  unfold file_holds. rewrite (up_external _ _ _ _ _ _ _ _ _ U), (up_dek _ _ _ _ _ _ _ _ _ U).
  destruct (sf_external x); [by rewrite Hholds|exact Hholds].
Qed.

Lemma uploaded_open d t dom name body mime flags x p :
  uploaded d t dom name body mime flags x p -> mfa_required flags = false ->
  (forall m, max_reads flags = Some m -> 1 <= m) -> open_page p.
Proof.
  intros [_ _ _ _ _ _ _ Hfl (Hz & Hp & He) _ _ _ _] Hm Hmax. unfold open_page. rewrite Hfl. by split_and!.
Qed.

(** The row is found again while the tables keep the page and what was there. *)
Lemma uploaded_found d0 d d' t dom name body mime flags x p :
  uploaded d t dom name body mime flags x p -> find_page dom (name_id_hex (name_index_key state) dom name) d0 = None ->
  pages d' = pages d0 ++ [p] -> find_page dom (name_id_hex (name_index_key state) dom name) d' = Some p.
Proof.
  intros [[Hd Hn] _ _ _ _ _ _ _ _ _ _ _ _] Hnew Hp. unfold find_page in *. rewrite Hp. unfold first_row, select in *.
  rewrite List.filter_app. destruct (List.filter _ (pages d0)); [|done]. simpl. by rewrite Hd, Hn, !String.eqb_refl.
Qed.

Lemma uploaded_moved d d' t t' dom name body mime flags x p :
  uploaded d t dom name body mime flags x p -> pages d' = pages d -> contents d' = contents d ->
  (forall cid, content_path (p_content p) d = Some cid -> t' !! blob_path cid = t !! blob_path cid) ->
  uploaded d' t' dom name body mime flags x p.
Proof.
  intros [? ? ? ? ? ? ? ? ? ? ? ? (cid & Hc & Hb)] Hp Hco Ht. constructor; try done; [by rewrite Hp|].
  exists cid. unfold content_path in *. rewrite Hco. split; [done|]. by rewrite (Ht cid Hc).
Qed.

(** ** Rotating *)

Definition page_place (p : Page) : string * string := (p_domain p, p_name_id p).

(** The keys of the page and content tables. *)
Record files_wf (d : Db) : Prop := {
  wf_page_ids : NoDup (p_id <$> pages d);
  wf_page_names : NoDup (page_place <$> pages d);
  wf_page_contents : NoDup (p_content <$> pages d);
  wf_content_ids : NoDup (co_id <$> contents d);
}.

Lemma find_blob_inv dom nid d p path :
  find_blob dom nid d = Some (p, path) ->
  p ∈ pages d /\ p_domain p = dom /\ p_name_id p = nid /\
  exists c, c ∈ contents d /\ co_id c = p_content p /\ co_path c = path.
Proof.
  unfold find_blob, page_blobs. intros H. 
  assert (Hin : (p, path) ∈ concat (map (fun pg => map (fun c => (pg, co_path c))
            (select (fun c => co_id c =s? p_content pg) (contents d)))
            (select (fun x => (p_domain x =s? dom) && (p_name_id x =s? nid)) (pages d)))).
  { destruct (concat _); [done|]. injection H as ->. left. }
  apply list_elem_of_In, in_concat in Hin as (l & Hl & Hin). apply in_map_iff in Hl as (p0 & <- & Hp0).
  apply in_map_iff in Hin as (c & [= -> <-] & Hc). apply list_elem_of_In, elem_of_select in Hp0 as [Hp Hb].
  apply list_elem_of_In, elem_of_select in Hc as [Hc He%String.eqb_eq].
  apply andb_true_iff in Hb as [H1%String.eqb_eq H2%String.eqb_eq]. by eauto 10.
Qed.

Lemma rotate_read_inv p size old w plain kek w' :
  run (rotate_read state p size old) w = (Val (plain, kek), w') ->
  exists stored dek, fs w !! blob_path old = Some stored /\ handle (file_dek_kek (app_keys state)) = Ok kek /\
    decrypt_aes_gcm (p_wrapped_dek p) kek = Ok dek /\ aead_open stored dek = Ok plain.
Proof.
  unfold rotate_read, file_kek, str_500. intros H.
  apply run_bind_Val in H as (ct & w1 & Hr & H). apply run_bind_Val in Hr as (r & w0 & Hr & Hp).
  apply run_pure_500 in Hp as [-> ->]. unfold fs_read in Hr. rewrite run_perform in Hr. unfold file_op in Hr.
  assert (Hfs : fs (next_fault w).2 = fs w) by (unfold next_fault; by destruct (faults w)).
  destruct (next_fault w) as [[] w2]; [done|]. simpl in Hfs. rewrite Hfs in Hr.
  destruct (fs w !! blob_path old) as [s|] eqn:Es; [|done]. simplify_eq.
  apply run_bind_Val in H as (k & w1 & Hk & H). apply run_pure_500 in Hk as [Hk ->].
  apply run_bind_Val in H as (dek & w3 & Hd & H). apply run_pure_500 in Hd as [Hd ->].
  apply run_bind_Val in H as (pl & w4 & Ho & H). apply run_pure_500 in Ho as [Ho ->].
  destruct (_ =s? _); cbn [negb] in H; [|by run_inv]. destruct (_ =? _); cbn [negb] in H; run_inv.
  by exists ct, dek.
Qed.

(** The transaction swings the row to the new content. *)
Lemma rotate_file_tx_inv p nc ct wd now w w' :
  files_wf (db w) -> p ∈ pages (db w) -> (exists c, c ∈ contents (db w) /\ co_id c = p_content p) ->
  run (rotate_file_tx (p_id p) nc ct wd now) w = (Val (Ok tt), w') ->
  pages (db w') = update_where (fun r => p_id r =s? p_id p) (fun r => touch_page now (rebind_page nc wd r)) (pages (db w)) /\
  content_path nc (db w') = Some nc /\ (forall c, c ∈ contents (db w) -> co_path c <> nc) /\ fs w' = fs w /\
  nc <> p_content p /\ forall c, c ∈ contents (db w') -> co_id c <> p_content p.
Proof.
  intros [Hids _ Hcs _] Hin (c0 & Hc0 & Hc0p) H. unfold rotate_file_tx in H.
  apply run_transaction_Ok in H as (l & w1 & l' & H & ->).
  apply run_try_Ok in H as (u & w2 & Hc & H). apply run_sql_Ok in Hc as (d & l2 & Hc & ->).
  apply insert_content_inv in Hc as [-> Hnew]. simpl in Hnew.
  apply run_try_Ok in H as (old & w3 & Ho & H). apply run_sql_Ok in Ho as (d & l3 & Ho & ->). simpl in Ho.
  rewrite (first_row_only (fun r => p_id r =s? p_id p) (pages (db w)) p) in Ho;
    [|done|apply String.eqb_refl|intros y Hy He%String.eqb_eq; by apply (NoDup_fmap_inj p_id (pages (db w)))].
  injection Ho as <- <-.
  apply run_try_Ok in H as (u1 & w4 & Hu & H). apply run_exec_Ok in Hu as (l4 & ->).
  apply run_try_Ok in H as (u2 & w5 & Hd & H). apply run_exec_Ok in Hd as (l5 & ->).
  rewrite run_ret in H. injection H as <-. cbn -[content_path].
  assert (Hne : nc <> p_content p) by (intros ->; by destruct (Hnew c0 Hc0)).
  split_and!; [| |by intros c Hc; apply Hnew|done|done|].
  - apply delete_where_none. intros x (x0 & Hx0 & ->)%elem_of_update_where. apply String.eqb_neq.
    destruct (String.eqb_spec (p_id x0) (p_id p)) as [He|Hn]; [done|]. simpl. intros Hsame. apply Hn.
    by rewrite (NoDup_fmap_inj p_content (pages (db w)) x0 p).
  - unfold content_path. simpl. erewrite first_row_only with (x := MkContent nc nc _ _); [done| | |].
    + apply elem_of_delete_where. split; [apply elem_of_insert_row; by right|]. by apply String.eqb_neq.
    + apply String.eqb_refl.
    + intros y [[Hy| ->]%elem_of_insert_row _]%elem_of_delete_where He%String.eqb_eq; [|done].
      by destruct (Hnew y Hy).
  - by intros y [_ Hy%String.eqb_neq]%elem_of_delete_where.
Qed.

Lemma run_fs_remove_inv path w u w' :
  run (ignore (fs_remove path)) w = (Val u, w') ->
  db w' = db w /\ forall x, x <> path -> fs w' !! x = fs w !! x.
Proof.
  unfold ignore, fs_remove. rewrite run_bind, run_perform. unfold file_op, next_fault.
  destruct (faults w) as [|[] l]; simpl; [|intros H; by simplify_eq|];
    (destruct (fs w !! path); intros H; simplify_eq; split; [done| |done|]; intros x Hx; [by apply lookup_delete_ne|done]).
Qed.

Lemma blob_path_inj a b : blob_path a = blob_path b -> a = b.
Proof. unfold blob_path. intros H. by injection H. Qed.

(** A rotation answered with success leaves the file in good order under a key
    drawn for it; the old content is gone. *)
Lemma rotate_file_inv name q client w resp w' dom p body :
  run (rotate_file state name q client) w = (Val resp, w') -> files_wf (db w) ->
  live_domain_id (domain_name_id_hex (name_index_key state) (DomainQuery_name q)) (db w) = Some dom ->
  p_domain p = dom -> p_name_id p = name_id_hex (name_index_key state) dom name -> p_external p = false ->
  file_at (db w) (fs w) p body ->
  exists nc wd now, let swing r := touch_page now (rebind_page nc wd r) in
    pages (db w') = update_where (fun r => p_id r =s? p_id p) swing (pages (db w)) /\
    file_at (db w') (fs w') (swing p) body /\
    nc <> p_content p /\ (forall c, c ∈ contents (db w') -> co_id c <> p_content p) /\
    exists i, (rng w <= i)%nat /\ file_key (swing p) (rand_bytes i 32).
Proof.
  intros H Hwf Hdom Hpd Hpn Hext [Hin Hk Hh Hsz (path & stored & Hpath & Hst & Hb)]. unfold rotate_file in H.
  apply run_bind_Val in H as ([d nm] & w2 & Hg & H). pose proof (run_files [] _ _ _ _ (writes_or_reply _ _
    (writes_resolve_and_gate_domain state client q)) eq_refl Hg) as (_ & _ & Hf2).
  pose proof (run_draws _ _ _ _ _ (writes_or_reply _ _ (writes_resolve_and_gate_domain state client q)) Hg eq_refl) as Hg2.
  apply gate_domain_inv in Hg as (Hd2 & _ & Hlive & _). assert (d = dom) as -> by congruence.
  apply run_bind_Val in H as (row & w3 & Hx & H). apply run_or_500_inv, run_query_Ok in Hx as (-> & l & ->). cbv beta in H.
  rewrite Hd2 in H. destruct (find_blob _ _ _) as [[p0 old]|] eqn:Ef; [|by run_inv].
  apply find_blob_inv in Ef as (Hp0 & Hp0d & Hp0n & c & Hc & Hcid & Hcp).
  assert (p0 = p) as ->.
  { destruct Hwf as [_ Hnames _ _]. apply (NoDup_fmap_inj page_place (pages (db w))); try done. unfold page_place. congruence. }
  assert (old = path) as ->.
  { unfold content_path in Hpath. destruct Hwf as [_ _ _ Hcs].
    rewrite (first_row_only (fun c => co_id c =s? p_content p) (contents (db w)) c) in Hpath;
      [simpl in Hpath; congruence|done|by apply String.eqb_eq|].
    intros y Hy He%String.eqb_eq. apply (NoDup_fmap_inj co_id (contents (db w))); try done. congruence. }
  apply run_bind_Val in H as (size & w4 & Hs & H).
  pose proof (run_reads _ _ _ _ (writes_stored_size state _) Hs) as [Hd4 _].
  pose proof (run_draws _ _ _ _ _ (writes_stored_size state _) Hs eq_refl) as Hg4.
  destruct (run_files [] _ _ _ _ (writes_stored_size state _) eq_refl Hs) as (_ & _ & Hf4).
  apply run_bind_Val in H as (dec & w5 & Ha & H).
  destruct (run_files [PAudits] _ _ _ _ (writes_authorize_file state _ _ _ _ _) eq_refl Ha) as (_ & _ & Hf5).
  pose proof (run_draws _ _ _ _ _ (writes_authorize_file state _ _ _ _ _) Ha eq_refl) as Hg5. cbn in Hg4.
  apply authorize_file_inv in Ha as (Hd5 & _ & _ & _).
  apply run_bind_Val in H as ([plain kek] & w6 & Hr & H).
  pose proof (run_reads _ _ _ _ (writes_rotate_read state _ _ _) Hr) as [Hd6 _].
  destruct (run_files [] _ _ _ _ (writes_rotate_read state _ _ _) eq_refl Hr) as (_ & _ & Hf6).
  pose proof (run_draws _ _ _ _ _ (writes_rotate_read state _ _ _) Hr eq_refl) as Hg6.
  apply rotate_read_inv in Hr as (st & dek & Hst' & Hkek & Hdek & Hopen).
  assert (Hfs5 : fs w5 = fs w) by (rewrite Hf5, Hf4; exact Hf2).
  unfold file_holds in Hb. rewrite Hext in Hb. destruct Hb as (kek' & dek' & Hkek' & Hdek' & Hopen').
  assert (plain = body) as -> by (rewrite Hfs5 in Hst'; congruence).
  apply run_bind_Val in H as (ndek & w7 & Hnd & H). rewrite run_draw in Hnd. injection Hnd as <- <-.
  unfold seal_blob in H. apply run_bind_Val in H as (r & w8 & Hsb & H).
  apply run_bind_Val in Hsb as (nonce & w8' & Hno & Hsb). rewrite run_draw in Hno. injection Hno as <- <-.
  rewrite run_ret in Hsb. injection Hsb as <- <-.
  apply run_bind_Val in H as (nct & w9 & Hnct & H). apply run_pure_500 in Hnct as [Hnct ->].
  apply run_bind_Val in H as (rw & w10 & Hrw & H).
  pose proof (run_files [] _ _ _ _ (writes_seal_envelope [] _ _) eq_refl Hrw) as (_ & _ & Hf10).
  apply run_bind_Val in H as (nwd & w11 & Hnwd & H). apply run_pure_500 in Hnwd as [-> ->].
  apply seal_envelope_inv in Hrw as [Hd10 Hrw].
  apply run_bind_Val in H as (nc & w12 & Hid & H).
  pose proof (run_reads _ _ _ _ (writes_new_id [] 32) Hid) as [Hd12 _].
  destruct (run_files [] _ _ _ _ (writes_new_id [] 32) eq_refl Hid) as (_ & _ & Hf12).
  apply run_bind_Val in H as ([] & w13 & Hw & H). apply run_fs_write_inv in Hw as [Hf13 Hd13].
  apply run_bind_Val in H as (now & w14 & Hnow & H). rewrite run_utc_now in Hnow. injection Hnow as <- <-.
  assert (Hdb : db w13 = db w).
  { rewrite Hd13, Hd12, Hd10. simpl. by rewrite Hd6, Hd5, Hd4. }
  apply run_bind_Val in H as ([] & w15 & Htx & H). apply run_or_500_inv in Htx.
  apply rotate_file_tx_inv in Htx as (Hpg & Hcp' & Hnp & Hf15 & Hnc & Hgone);
    [|by rewrite Hdb|by rewrite Hdb|rewrite Hdb; by exists c].
  rewrite Hdb in Hpg, Hnp.
  apply run_bind_Val in H as (u & w16 & Hrm & H).
  apply run_fs_remove_inv in Hrm as [Hd16 Hf16].
  apply run_bind_Val in H as (u' & w17 & Hu & H).
  destruct (run_files [PAcls] _ _ _ _ (writes_acl_record_use dec) eq_refl Hu) as (Hp17 & Hc17 & Hf17).
  apply run_bind_Val in H as (u'' & w18 & Hu' & H).
  destruct (run_files [PAudits] _ _ _ _ (writes_audit _ _ _ _ _ _ _) eq_refl Hu') as (Hp18 & Hc18 & Hf18).
  rewrite run_ret in H. injection H as _ <-.
  exists nc, nwd, (clock w13). cbv zeta.
  assert (Hpages : pages (db w18) = update_where (fun r => p_id r =s? p_id p)
    (fun r => touch_page (clock w13) (rebind_page nc nwd r)) (pages (db w))) by (rewrite Hp18, Hp17, Hd16; exact Hpg).
  split; [exact Hpages|]. split; [|split_and!; [done| |exists (rng w6); split; [lia|by exists kek]]].
  2: { intros y. rewrite Hc18, Hc17, Hd16. apply Hgone. }
  split; [|done..|].
  - rewrite Hpages. apply elem_of_update_where. exists p. by rewrite String.eqb_refl.
  - exists nc, nct. split; [unfold content_path in *; simpl; by rewrite Hc18, Hc17, Hd16|]. split.
    + rewrite Hf18, Hf17, Hf16, Hf15, Hf13; [apply lookup_insert_eq|].
      intros He%blob_path_inj. pose proof (Hnp c Hc). congruence.
    + unfold file_holds. simpl. rewrite Hext. exists kek, (rand_bytes (rng w6) 32). split; [done|]. split; [done|].
      eapply aead_roundtrip; [|exact Hnct]. apply rand_length.
Qed.
End content.
