(* ===== verification/FilesProps.v ===== *)
(** Properties of the file endpoints ([Files.v]): who is served what, read
    limits under concurrency, and that uploads and rotations keep contents. *)
From S2P Require Import Prelude AccessRules Crypto ToyPrimitives Store Effects Concurrency ServerBase ToyPlatform AuditLog Auth AuthProps Threshold ThresholdProps ReadLimit Secrets SecretsLemmas SecretsProps Files FilesLemmas FilesContent.

Section refusal.
Context {P : Primitives} {PF : Platform} (state : AppState).

(** Early answers are never a success. *)
Lemma download_refuses name q h client : refuses (download_file state name q h client).
Proof.
  unfold download_file, download_resident, download_stored. solve_refuses; reflexivity || auto with refuses.
Qed.
End refusal.

(** A file is served only to a caller who passed every check, and only
    as it was uploaded: a 200 from [download_file] means domain membership, an ACL
    decision for reading this name, a row neither exhausted nor at its cap, a
    quorum and a TOTP code where the row asks for them, all in the state the
    request found; and the body is bytes whose keyed hash the row recorded (or
    empty, for a file resident with its client). *)
Theorem served_file_is_cleared {P : Primitives} {PF : Platform} state name q h client w o w' :
  NoDup (r_id <$> requests (db w)) -> approvals_wf (requests (db w)) ->
  run (download_file state name q h client) w = (o, w') -> resp_status (respond o) = 200 ->
  exists p, file_cleared state w q h client name p /\ vouched state p (respond o).
Proof.
  intros Hnd Hwf H Hst.
  destruct (refuses_success _ _ _ _ (download_refuses state name q h client) H) as [resp ->]; [by rewrite Hst|].
  simpl. by eapply download_file_inv.
Qed.

(** The read limit of a file holds under any concurrency: of any number
    of interleaved downloads of it, by anyone, no more are answered with 200 than
    its counter leaves. *)
Theorem download_limit_enforced {P : Primitives} {PF : Platform} state q name dom p cap
    (calls : list (Headers * AuthenticatedClient)) w w' ps' :
  (forall x, x ∈ domains (db w) ->
     d_name_id x = domain_name_id_hex (name_index_key state) (DomainQuery_name q) -> d_id x = dom) ->
  NoDup (p_id <$> pages (db w)) -> NoDup (page_place <$> pages (db w)) -> p ∈ pages (db w) ->
  page_place p = (dom, name_id_hex (name_index_key state) dom name) -> read_cap (p_flags p) = Some cap ->
  pool_steps (w, (fun c => download_file state name q c.1 c.2) <$> calls) (w', ps') ->
  Z.of_nat (total ok_count ps') <= Z.max 0 (cap - p_read_count p).
Proof.
  intros Hdom Hids Hnames Hin Hplace Hcap Hs.
  assert (Hone : one_file state q name (p_id p) dom cap (file_tables (db w))).
  { split; [exact Hdom|]. split.
    - intros x Hx Hd Hn. rewrite (NoDup_fmap_inj page_place (pages (db w)) x p); [done..|].
      rewrite Hplace. unfold page_place. congruence.
    - intros x Hx Hid. by rewrite (NoDup_fmap_inj p_id (pages (db w)) x p). }
  pose proof (pool_total (table_inv file_tables (one_file state q name (p_id p) dom cap))
    (table_budget file_tables (file_budget (p_id p) cap)) ltac:(done) ltac:(done) ltac:(done) ltac:(done) ok_count w
    ((fun c => download_file state name q c.1 c.2) <$> calls) w' ps' Hone) as Ht.
  destruct Ht as [_ Hle]; [|done|].
  { apply Forall_fmap, Forall_forall. intros c _. exact (download_file_spends state q name (p_id p) dom cap c.1 c.2). }
  pose proof (reads_budget_row (R:=Page) (p_id p) cap (pages (db w)) p Hids Hin eq_refl) as Hb. simpl in Hb.
  unfold table_budget, file_budget, file_tables in Hle. simpl in Hle. lia.
Qed.

(** What is uploaded can be downloaded: after a new file is uploaded
    (stored encrypted, or external and stored as sent), a caller whom the domain
    and the ACL let through gets exactly the bytes sent, and their media type. *)
Theorem uploaded_file_downloads {P : Primitives} {L : PrimitiveLaws P} {PF : Platform}
    state mg name body ct q pol client reader h w w1 w2 resp dom nm dec :
  run (upload_file state mg name body ct q pol client) w = (Val resp, w1) ->
  live_domain_id (domain_name_id_hex (name_index_key state) (DomainQuery_name q)) (db w) = Some dom ->
  find_page dom (name_id_hex (name_index_key state) dom name) (db w) = None ->
  default false (fq_resident pol) = false -> fq_quorum pol = None -> fq_signatories pol = None ->
  default false (fq_mfa_required pol) = false -> (forall m, fq_max_reads pol = Some m -> 1 <= m) ->
  is_str name -> (forall m, upload_mime mg name ct = Some m -> is_str m) ->
  pages (db w2) = pages (db w1) -> contents (db w2) = contents (db w1) -> fs w2 = fs w1 -> faults w2 = [] ->
  run (resolve_and_gate_domain state reader q) w2 = (Val (Ok (dom, nm)), w2) ->
  run (acl_check (metadata_enc_key state) reader dom name Read) w2 = (Val (Ok dec), w2) -> is_allowed dec = true ->
  exists w3 p, run (download_file state name q h reader) w2 =
    (Val (download_response p (upload_mime mg name ct) body), w3).
Proof.
  intros Hup Hdom Hnew Hres Hq Hs Hmfa Hmax Hname Hmime Hp2 Hc2 Hf2 Hfaults Hgate Hacl Hal.
  destruct (upload_row state mg name body ct q pol client w resp w1 dom Hup Hdom Hnew Hq Hs Hname Hmime)
    as (p & x & wa & wb & cid & Hsl & Hpages & U & _).
  assert (U2 : uploaded state (db w2) (fs w2) dom name body (upload_mime mg name ct) (FilePolicyQuery_flags pol) x p).
  { apply (uploaded_moved _ _ _ _ _ _ _ _ _ _ _ _ U); try done. intros c _. by rewrite Hf2. }
  destruct (download_run state name q h reader w2 dom nm p body (upload_mime mg name ct) dec) as [w3 Hw3]; try done.
  - apply (uploaded_found state (db w) (db w2) _ _ _ _ _ _ _ _ _ U2 Hnew). by rewrite Hp2.
  - exact (uploaded_file_at _ _ _ _ _ _ _ _ _ _ _ _ _ U2 Hres Hsl).
  - exact (uploaded_open _ _ _ _ _ _ _ _ _ _ U2 Hmfa Hmax).
  - apply (up_mime _ _ _ _ _ _ _ _ _ _ U2).
  - by exists w3, p.
Qed.

(** A row as it was, but for its content, its wrapped key and the time of the
    last change. *)
Definition same_but_key (p p' : Page) : Prop :=
  p_id p' = p_id p /\ p_name_enc p' = p_name_enc p /\ p_name_id p' = p_name_id p /\ p_domain p' = p_domain p /\
  p_owner p' = p_owner p /\ p_hash_id p' = p_hash_id p /\ p_size_enc p' = p_size_enc p /\ p_mime_enc p' = p_mime_enc p /\
  p_external p' = p_external p /\ p_external_meta p' = p_external_meta p /\ p_kind p' = p_kind p /\
  p_key_component p' = p_key_component p /\ p_server_copy p' = p_server_copy p /\ p_flags p' = p_flags p /\
  p_read_count p' = p_read_count p /\ p_policy p' = p_policy p /\ p_exhausted p' = p_exhausted p /\
  p_created p' = p_created p.

(** C30. Rotating a file changes its key and its blob and nothing else. After a
    success of [rotate_file] the row points to another content and its wrapped
    key opens to 32 bytes drawn during the call; the old content is no longer
    listed; the new blob opens under that key to the contents the file had; all
    else in the row, its policy and flags and counter included, and every other
    row stand as they were. *)
Theorem rotation_keeps_contents {P : Primitives} {L : PrimitiveLaws P} {PF : Platform} state name q client w resp w' dom p body :
  run (rotate_file state name q client) w = (Val resp, w') -> files_wf (db w) ->
  live_domain_id (domain_name_id_hex (name_index_key state) (DomainQuery_name q)) (db w) = Some dom ->
  page_place p = (dom, name_id_hex (name_index_key state) dom name) -> p_external p = false ->
  file_at state (db w) (fs w) p body ->
  exists p', same_but_key p p' /\
    p_content p' <> p_content p /\ (forall c, c ∈ contents (db w') -> co_id c <> p_content p) /\
    (exists i, (rng w <= i)%nat /\ file_key state p' (rand_bytes i 32)) /\
    file_at state (db w') (fs w') p' body /\
    (forall x, x ∈ pages (db w) -> x <> p -> x ∈ pages (db w')) /\
    length (pages (db w')) = length (pages (db w)).
Proof.
  intros H Hwf Hdom Hplace Hext Hat. injection Hplace as Hpd Hpn.
  destruct (rotate_file_inv state name q client w resp w' dom p body H Hwf Hdom Hpd Hpn Hext Hat)
    as (nc & wd & now & Hpages & Hat' & Hnc & Hgone & Hkey).
  exists (touch_page now (rebind_page nc wd p)). split; [by repeat split|]. split; [exact Hnc|]. split; [exact Hgone|].
  split; [exact Hkey|]. split; [exact Hat'|]. split.
  - intros x Hx Hne. rewrite Hpages. apply elem_of_update_where. exists x. split; [done|].
    destruct (String.eqb_spec (p_id x) (p_id p)) as [He|]; [|done]. destruct Hne.
    destruct Hwf as [Hids _ _ _], Hat as [Hin _ _ _ _]. by apply (NoDup_fmap_inj p_id (pages (db w))).
  - rewrite Hpages. unfold update_where. by rewrite length_map.
Qed.

(** ** Witnesses *)

Definition plain_policy : FilePolicyQuery :=
  MkFilePolicyQuery None None None None None None None None None None None None None None.
Definition once_policy : FilePolicyQuery :=
  MkFilePolicyQuery None None (Some 1) None None None None None None None None None None None.
Definition no_guess (name : string) : option string := None.
Definition toy_body : bytes := as_bytes "file body".

Definition toy_upload (pol : FilePolicyQuery) : outcome Response * World :=
  run (upload_file toy_state no_guess "db.bin" toy_body (Some "text/plain") (MkDomainQuery None) pol alice) toy_world.

Definition filed_world : World := Eval vm_compute in (toy_upload plain_policy).2.
Definition once_filed_world : World := Eval vm_compute in (toy_upload once_policy).2.

Definition no_page : Page :=
  MkPage "" [] "" "" "" "" [] "" [] None false None 0 None false default_flags 0 None None 0 0.
Definition the_page (w : World) : Page := hd no_page (pages (db w)).

Lemma served_file_is_cleared_witness :
  exists p, file_cleared toy_state filed_world (MkDomainQuery None) no_headers alice "db.bin" p /\
    vouched toy_state p
      (respond (run (download_file toy_state "db.bin" (MkDomainQuery None) no_headers alice) filed_world).1).
Proof.
  apply (served_file_is_cleared toy_state "db.bin" (MkDomainQuery None) no_headers alice filed_world
           (run (download_file toy_state "db.bin" (MkDomainQuery None) no_headers alice) filed_world).1
           (run (download_file toy_state "db.bin" (MkDomainQuery None) no_headers alice) filed_world).2).
  - apply (bool_decide_unpack _). vm_compute. exact I.
  - intros r Hr. by apply not_elem_of_nil in Hr.
  - apply surjective_pairing.
  - vm_compute. reflexivity.
Defined.

Lemma download_limit_enforced_witness :
  let s := interleave (concat (replicate 40 [0; 1]%nat))
             (once_filed_world, (fun c => download_file toy_state "db.bin" (MkDomainQuery None) c.1 c.2) <$>
                [(no_headers, alice); (no_headers, alice)]) in
  total ok_count s.2 = 1%nat /\
  Z.of_nat (total ok_count s.2) <= Z.max 0 (1 - p_read_count (the_page once_filed_world)).
Proof.
  intros s. split; [vm_compute; reflexivity|].
  apply (download_limit_enforced toy_state (MkDomainQuery None) "db.bin" "d-default" (the_page once_filed_world) 1
           [(no_headers, alice); (no_headers, alice)] once_filed_world s.1 s.2).
  - intros x Hx. repeat (apply elem_of_cons in Hx as [->|Hx]; [vm_compute; congruence|]). by apply not_elem_of_nil in Hx.
  - apply (bool_decide_unpack _). vm_compute. exact I.
  - apply (bool_decide_unpack _). vm_compute. exact I.
  - left.
  - vm_compute. reflexivity.
  - vm_compute. reflexivity.
  - rewrite <- surjective_pairing. apply interleave_steps.
Defined.

Lemma uploaded_file_downloads_witness :
  exists w3 p, run (download_file toy_state "db.bin" (MkDomainQuery None) no_headers bob) filed_world =
    (Val (download_response p (Some "text/plain") toy_body), w3).
Proof.
  apply (uploaded_file_downloads toy_state no_guess "db.bin" toy_body (Some "text/plain") (MkDomainQuery None)
           plain_policy alice bob no_headers toy_world filed_world filed_world (respond (toy_upload plain_policy).1)
           "d-default" "default" (Allowed "acl-3")).
  - vm_compute. reflexivity.
  - vm_compute. reflexivity.
  - vm_compute. reflexivity.
  - reflexivity.
  - reflexivity.
  - reflexivity.
  - reflexivity.
  - discriminate.
  - reflexivity.
  - intros m [= <-]. reflexivity.
  - reflexivity.
  - reflexivity.
  - reflexivity.
  - reflexivity.
  - vm_compute. reflexivity.
  - vm_compute. reflexivity.
  - reflexivity.
Defined.

Definition toy_rotated : outcome Response * World :=
  Eval vm_compute in run (rotate_file toy_state "db.bin" (MkDomainQuery None) alice) filed_world.

Lemma filed_world_at : file_at toy_state (db filed_world) (fs filed_world) (the_page filed_world) toy_body.
Proof.
  split; [left|discriminate|vm_compute; reflexivity| |].
  - exists (size_bytes 9). split; vm_compute; reflexivity.
  - exists (p_content (the_page filed_world)), (default [] (fs filed_world !! blob_path (p_content (the_page filed_world)))).
    split; [vm_compute; reflexivity|]. split; [vm_compute; reflexivity|].
    change (file_holds toy_state (the_page filed_world)) with
      (fun stored body => exists kek dek, handle (file_dek_kek (app_keys toy_state)) = Ok kek /\
         decrypt_aes_gcm (p_wrapped_dek (the_page filed_world)) kek = Ok dek /\ aead_open stored dek = Ok body).
    set (kek := unwrap_or [] (handle (file_dek_kek (app_keys toy_state)))).
    exists kek, (unwrap_or [] (decrypt_aes_gcm (p_wrapped_dek (the_page filed_world)) kek)).
    repeat split; vm_compute; reflexivity.
Qed.

Lemma rotation_keeps_contents_witness :
  exists p', same_but_key (the_page filed_world) p' /\
    p_content p' <> p_content (the_page filed_world) /\
    (forall c, c ∈ contents (db toy_rotated.2) -> co_id c <> p_content (the_page filed_world)) /\
    (exists i, (rng filed_world <= i)%nat /\ file_key toy_state p' (rand_bytes i 32)) /\
    file_at toy_state (db toy_rotated.2) (fs toy_rotated.2) p' toy_body /\
    (forall x, x ∈ pages (db filed_world) -> x <> the_page filed_world -> x ∈ pages (db toy_rotated.2)) /\
    length (pages (db toy_rotated.2)) = length (pages (db filed_world)).
Proof.
  apply (rotation_keeps_contents toy_state "db.bin" (MkDomainQuery None) alice filed_world (respond toy_rotated.1)
           toy_rotated.2 "d-default" (the_page filed_world) toy_body).
  - vm_compute. reflexivity.
  - split; apply (bool_decide_unpack _); vm_compute; exact I.
  - vm_compute. reflexivity.
  - vm_compute. reflexivity.
  - reflexivity.
  - exact filed_world_at.
Defined.
