(* ===== verification/Tunnel.v ===== *)
(** The end-to-end tunnel protocol ([src/src/tunnel_crypto.rs]): the signed
    ephemeral handshake, the directional session keys and the counter-nonce
    framing. X25519, HKDF and openssl's P-256 operations are the parameters of
    class [TunnelPrimitives]. *)
From S2P Require Import Prelude Crypto.

(** The openssl objects are their encodings; each call gives the library's
    error text when it fails. *)
Class TunnelPrimitives := {
  x25519_public : bytes -> bytes;
  x25519 : bytes -> bytes -> bytes;                          (* secret, public *)
  hkdf_sha256 : bytes -> bytes -> bytes -> nat -> option bytes;  (* salt, ikm, info, length *)
  private_key_from_pem : bytes -> result string bytes;
  signer_new : bytes -> result string bytes;
  signer_sign : bytes -> bytes -> result string bytes;       (* update, sign_to_vec *)
  x509_from_pem : bytes -> result string bytes;
  x509_public_key : bytes -> result string bytes;
  verifier_new : bytes -> bytes -> result string bytes;      (* new and update *)
  verifier_verify : bytes -> bytes -> result string bool;
}.

Definition TUNNEL_PROTO : bytes := as_bytes "blackbook/tunnel/v1".

Record Handshake := MkHandshake { hs_from : string; hs_eph_pub : string; hs_cert_pem : string; hs_signature : string }.

Inductive Role := Initiator | Responder.

Record Session := MkSession {
  send_key : bytes; recv_key : bytes; send_ctr : Z; recv_ctr : Z; peer_name : string; peer_fingerprint : string;
}.

Record Pending := MkPending {
  pe_role : Role; pe_tunnel_id : string; pe_my_name : string; pe_my_cert_pem : string; pe_my_key_pem : string;
  pe_eph_secret : bytes; pe_eph_pub : bytes;
}.

(** [str::lines]: pieces between newlines, without a trailing carriage return;
    no empty piece after a final newline. *)
Fixpoint strip_cr (s : string) : string :=
  match s with
  | EmptyString => EmptyString
  | String a EmptyString => if Ascii.eqb a "013"%char then EmptyString else s
  | String a s' => String a (strip_cr s')
  end.

Fixpoint drop_last_empty (l : list string) : list string :=
  match l with
  | [] => []
  | [s] => if String.eqb s "" then [] else [s]
  | s :: l' => s :: drop_last_empty l'
  end.

Definition lines (s : string) : list string := map strip_cr (drop_last_empty (split_on "010"%char s)).

(** The loop of [pem_to_der]: the lines between BEGIN and END, joined. *)
Fixpoint pem_body (in_block : bool) (ls : list string) : string :=
  match ls with
  | [] => ""
  | l :: rest =>
      let l := trim l in
      if starts_with "-----BEGIN" l then pem_body true rest
      else if starts_with "-----END" l then ""
      else if in_block then l +:+ pem_body in_block rest
      else pem_body in_block rest
  end.

Section tunnel.
Context {P : Primitives} {T : TunnelPrimitives}.

Definition field (b : bytes) : bytes := be_bytes 4 (Z.of_nat (length b)) ++ b.

Definition transcript (tunnel_id : string) (init_eph resp_eph : bytes) : bytes :=
  field TUNNEL_PROTO ++ field (as_bytes tunnel_id) ++ field init_eph ++ field resp_eph.

Definition session_base (tunnel_id : string) (init_eph resp_eph : bytes) : bytes :=
  sha3_256 (transcript tunnel_id init_eph resp_eph).

Definition signing_payload (base : bytes) (signer_name signer_fp : string) : bytes :=
  field base ++ field (as_bytes signer_name) ++ field (as_bytes signer_fp).

Definition pem_to_der (pem : string) : CryptoResult bytes :=
  let b64 := pem_body false (lines pem) in
  if String.eqb b64 "" then Err InvalidKeyFormat else ok_or InvalidKeyFormat (b64_decode b64).

Definition cert_fingerprint (cert_pem : string) : CryptoResult string :=
  der ← pem_to_der cert_pem; Ok (hex_encode (sha3_256 der)).

Definition ecdsa_sign (key_pem : string) (msg : bytes) : CryptoResult bytes :=
  pkey ← map_err (fun e => Encryption ("load client key: " +:+ e)) (private_key_from_pem (as_bytes key_pem));
  signer ← map_err (fun e => Encryption ("signer: " +:+ e)) (signer_new pkey);
  map_err Encryption (signer_sign signer msg).

Definition ecdsa_verify (cert_pem : string) (msg sig : bytes) : CryptoResult bool :=
  cert ← map_err (fun e => Decryption ("parse peer cert: " +:+ e)) (x509_from_pem (as_bytes cert_pem));
  pkey ← map_err (fun e => Decryption ("peer cert pubkey: " +:+ e)) (x509_public_key cert);
  verifier ← map_err Decryption (verifier_new pkey msg);
  Ok (unwrap_or false (verifier_verify verifier sig)).

(** [eph_secret] is the fresh draw. *)
Definition begin (role : Role) (tunnel_id my_name my_cert_pem my_key_pem : string) (eph_secret : bytes) : Pending :=
  MkPending role tunnel_id my_name my_cert_pem my_key_pem eph_secret (x25519_public eph_secret).

(** Both ephemeral keys, the initiator's first. *)
Definition role_order (role : Role) (mine peer : bytes) : bytes * bytes :=
  match role with Initiator => (mine, peer) | Responder => (peer, mine) end.

Definition sign (p : Pending) (peer_eph_pub : bytes) : CryptoResult Handshake :=
  my_fp ← cert_fingerprint (pe_my_cert_pem p);
  let '(init_eph, resp_eph) := role_order (pe_role p) (pe_eph_pub p) peer_eph_pub in
  let base := session_base (pe_tunnel_id p) init_eph resp_eph in
  let payload := signing_payload base (pe_my_name p) my_fp in
  sig ← ecdsa_sign (pe_my_key_pem p) payload;
  Ok (MkHandshake (pe_my_name p) (b64_encode (pe_eph_pub p)) (pe_my_cert_pem p) (b64_encode sig)).

Definition derive_keys (shared transcript : bytes) : CryptoResult (bytes * bytes) :=
  k_i2r ← ok_or (KeyDerivation "hkdf i2r") (hkdf_sha256 transcript shared (as_bytes "blackbook/tunnel/v1 i2r") 32);
  k_r2i ← ok_or (KeyDerivation "hkdf r2i") (hkdf_sha256 transcript shared (as_bytes "blackbook/tunnel/v1 r2i") 32);
  Ok (k_i2r, k_r2i).

Definition complete (p : Pending) (peer : Handshake) (expected_peer_name expected_peer_fp : string) :
    CryptoResult Session :=
  peer_fp ← cert_fingerprint (hs_cert_pem peer);
  if negb (String.eqb peer_fp expected_peer_fp)
  then Err (Decryption "peer certificate fingerprint does not match the server-vouched value")
  else if negb (String.eqb (hs_from peer) expected_peer_name)
  then Err (Decryption "peer name does not match the server-vouched value")
  else
    peer_eph ← ok_or (Decryption "peer eph_pub not base64") (b64_decode (hs_eph_pub peer));
    if negb (length peer_eph =? 32)%nat then Err (Decryption "peer eph_pub wrong length")
    else
      let '(init_eph, resp_eph) := role_order (pe_role p) (pe_eph_pub p) peer_eph in
      let base := session_base (pe_tunnel_id p) init_eph resp_eph in
      let peer_payload := signing_payload base (hs_from peer) peer_fp in
      sig ← ok_or (Decryption "peer signature not base64") (b64_decode (hs_signature peer));
      verified ← ecdsa_verify (hs_cert_pem peer) peer_payload sig;
      if negb verified
      then Err (Decryption "peer handshake signature failed — identity not authenticated")
      else
        let shared := x25519 (pe_eph_secret p) peer_eph in
        '(k_i2r, k_r2i) ← derive_keys shared base;
        let '(sk, rk) := match pe_role p with Initiator => (k_i2r, k_r2i) | Responder => (k_r2i, k_i2r) end in
        Ok (MkSession sk rk 0 0 expected_peer_name expected_peer_fp).

(** ** Frames *)

Definition ctr_nonce (ctr : Z) : bytes := replicate 4 Byte.x00 ++ be_bytes 8 ctr.

(** [u64::checked_add(1)] *)
Definition checked_succ (z : Z) : option Z := if z =? u64_max then None else Some (z + 1).

Definition set_send (s : Session) (c : Z) : Session :=
  MkSession (send_key s) (recv_key s) c (recv_ctr s) (peer_name s) (peer_fingerprint s).
Definition set_recv (s : Session) (c : Z) : Session :=
  MkSession (send_key s) (recv_key s) (send_ctr s) c (peer_name s) (peer_fingerprint s).

(** The counter advances before the seal, whatever the seal gives. *)
Definition seal (s : Session) (plaintext : bytes) : CryptoResult bytes * Session :=
  let nonce := ctr_nonce (send_ctr s) in
  match checked_succ (send_ctr s) with
  | None => (Err (Encryption "tunnel nonce space exhausted"), s)
  | Some c => (aead_seal_nonce plaintext (send_key s) nonce, set_send s c)
  end.

Definition open (s : Session) (frame : bytes) : CryptoResult bytes * Session :=
  let nonce := ctr_nonce (recv_ctr s) in
  match aead_open_nonce frame (recv_key s) nonce with
  | Err e => (Err e, s)
  | Ok pt =>
      match checked_succ (recv_ctr s) with
      | None => (Err (Decryption "tunnel nonce space exhausted"), s)
      | Some c => (Ok pt, set_recv s c)
      end
  end.

(** A side sealing messages in turn, and a side offered frames in turn. *)
Fixpoint seal_all (s : Session) (msgs : list bytes) : list (CryptoResult bytes) * Session :=
  match msgs with
  | [] => ([], s)
  | m :: rest => let '(r, s1) := seal s m in let '(rs, s2) := seal_all s1 rest in (r :: rs, s2)
  end.

Fixpoint open_all (s : Session) (frames : list bytes) : list (CryptoResult bytes) * Session :=
  match frames with
  | [] => ([], s)
  | f :: rest => let '(r, s1) := open s f in let '(rs, s2) := open_all s1 rest in (r :: rs, s2)
  end.
End tunnel.
