(* ===== verification/TunnelProps.v ===== *)
(** Properties of the tunnel protocol ([Tunnel.v]): both ends agree, an accepted
    handshake is bound to its session, and the framed channel refines a FIFO
    queue that the relay can only cut short. *)
From S2P Require Import Prelude Crypto ToyPrimitives CryptoProps Store Effects ServerBase Tunnel.

(** Documented facts of X25519 and HKDF. *)
Class TunnelLaws (T : TunnelPrimitives) : Prop := {
  x25519_agree a b : x25519 a (x25519_public b) = x25519 b (x25519_public a);
  x25519_public_length s : length (x25519_public s) = 32%nat;
  hkdf_expands salt ikm info : exists k, hkdf_sha256 salt ikm info 32 = Some k /\ length k = 32%nat;
}.

(** ** Counters and nonces *)

Lemma ctr_nonce_length c : length (ctr_nonce c) = 12%nat.
Proof. unfold ctr_nonce. rewrite length_app, be_bytes_length. done. Qed.

Lemma ctr_nonce_inj i j : 0 <= i <= u64_max -> 0 <= j <= u64_max -> ctr_nonce i = ctr_nonce j -> i = j.
Proof.
  unfold ctr_nonce, u64_max. intros Hi Hj H. apply app_inv_head in H. apply be_bytes_inj in H.
  change (256 ^ Z.of_nat 8) with (2 ^ 64) in H. rewrite !Z.mod_small in H by lia. done.
Qed.

Lemma checked_succ_Some z c : checked_succ z = Some c -> z <> u64_max /\ c = z + 1.
Proof. unfold checked_succ. destruct (Z.eqb_spec z u64_max); [done|]. by intros [= <-]. Qed.

(** The values a side has let through, in order. *)
Definition oks {E A} (rs : list (result E A)) : list A := omap (fun r => ok r) rs.

Lemma oks_Ok {E A} (a : A) (rs : list (result E A)) : oks (Ok a :: rs) = a :: oks rs.
Proof. done. Qed.
Lemma oks_Err {E A} (e : E) (rs : list (result E A)) : oks (Err e :: rs) = oks rs.
Proof. done. Qed.
#[export] Hint Rewrite @oks_Ok @oks_Err : bbk.

Section channel.
Context {P : Primitives} {L : PrimitiveLaws P}.

Lemma seal_inv s m f s' :
  seal s m = (Ok f, s') ->
  take 12 f = ctr_nonce (send_ctr s) /\ aes_gcm_encrypt (send_key s) (ctr_nonce (send_ctr s)) [] m = Some (drop 12 f) /\
  length (send_key s) = 32%nat /\ send_ctr s <> u64_max /\ s' = set_send s (send_ctr s + 1).
Proof.
  unfold seal. destruct (checked_succ (send_ctr s)) as [c|] eqn:Ec; [|done]. apply checked_succ_Some in Ec as [Hc ->].
  unfold aead_seal_nonce. destruct (Nat.eqb_spec (length (send_key s)) 32) as [Hl|]; [|done]. cbn [negb].
  destruct (aes_gcm_encrypt _ _ _ _) as [ct|] eqn:E; [|done]. cbn [ok_or]. rewrite bind_Ok. intros H.
  assert (f = ctr_nonce (send_ctr s) ++ ct) as -> by congruence.
  assert (s' = set_send s (send_ctr s + 1)) as -> by congruence.
  rewrite take_app_length' by (by rewrite ctr_nonce_length). rewrite drop_app_length' by (by rewrite ctr_nonce_length). done.
Qed.

Lemma open_inv s f m s' :
  open s f = (Ok m, s') ->
  take 12 f = ctr_nonce (recv_ctr s) /\ aes_gcm_decrypt (recv_key s) (take 12 f) [] (drop 12 f) = Some m /\
  recv_ctr s <> u64_max /\ s' = set_recv s (recv_ctr s + 1).
Proof.
  unfold open, aead_open_nonce. destruct (negb _); [done|]. destruct (_ <? _)%nat; [done|].
  destruct (bool_decide_reflect (take 12 f = ctr_nonce (recv_ctr s))) as [Hn|]; [|done]. cbn [negb].
  destruct (aes_gcm_decrypt _ _ _ _) as [pt|] eqn:E; [|done]. cbn [ok_or].
  destruct (checked_succ (recv_ctr s)) as [c|] eqn:Ec; [|done]. apply checked_succ_Some in Ec as [Hc ->].
  by intros [= <- <-].
Qed.

(** A refused frame leaves the receiver as it was. *)
Lemma open_err s f e s' : open s f = (Err e, s') -> s' = s.
Proof.
  unfold open. destruct (aead_open_nonce _ _ _); [destruct (checked_succ _)|]; intros; by simplify_eq.
Qed.

(** The frame the sender made opens at the receiver that expects it. *)
Lemma open_sealed s r m f s' :
  seal s m = (Ok f, s') -> recv_key r = send_key s -> recv_ctr r = send_ctr s ->
  open r f = (Ok m, set_recv r (send_ctr s + 1)).
Proof.
  intros H Hk Hc. apply seal_inv in H as (Hn & He & Hl & Hu & _). unfold open, aead_open_nonce.
  rewrite Hk, Hc, Hl, Nat.eqb_refl. cbn [negb].
  pose proof (aes_gcm_length _ _ _ _ _ He) as Hlen. rewrite length_drop in Hlen.
  assert ((length f <? 12 + 16)%nat = false) as -> by (apply Nat.ltb_ge; lia).
  rewrite Hn, bool_decide_true by done. cbn [negb]. rewrite (aes_gcm_roundtrip _ _ _ _ _ He). cbn [ok_or].
  unfold checked_succ. by rewrite (proj2 (Z.eqb_neq _ _) Hu).
Qed.

(** The frames of a list are genuine: what decrypts under its own nonce was
    sealed by the sender, as message number [i] under nonce [i]. *)
Definition unforged (key : bytes) (msgs frames : list bytes) : Prop :=
  forall f m, f ∈ frames -> aes_gcm_decrypt key (take 12 f) [] (drop 12 f) = Some m ->
  exists i, msgs !! i = Some m /\ take 12 f = ctr_nonce (Z.of_nat i).

Lemma open_all_take r k msgs frames :
  unforged (recv_key r) msgs frames -> Z.of_nat (length msgs) <= u64_max -> recv_ctr r = Z.of_nat k ->
  (k <= length msgs)%nat ->
  exists n, (k <= n <= length msgs)%nat /\ oks (open_all r frames).1 = take (n - k) (drop k msgs) /\
    recv_ctr (open_all r frames).2 = Z.of_nat n.
Proof.
  intros Hun Hmax. revert r k Hun. induction frames as [|f frames IH]; intros r k Hun Hk Hle.
  { exists k. by rewrite Nat.sub_diag. }
  cbn [open_all]. destruct (open r f) as [[m|e] r'] eqn:E.
  - apply open_inv in E as (Hn & Hd & _ & ->). destruct (Hun f m (list_elem_of_here _ _) Hd) as (i & Hi & Hni).
    assert (i = k) as ->.
    { apply Nat2Z.inj. pose proof (lookup_lt_Some _ _ _ Hi).
      apply ctr_nonce_inj; [lia|lia|]. by rewrite <- Hni, Hn, Hk. }
    destruct (IH (set_recv r (recv_ctr r + 1)) (S k)) as (n & Hn1 & Hn2 & Hn3).
    { intros f' m' Hf'. apply Hun. by right. }
    { simpl. rewrite Hk. lia. }
    { by apply lookup_lt_Some in Hi. }
    destruct (open_all _ frames) as [rs r2]. cbn [fst snd] in *. exists n. split; [lia|]. split; [|done].
    rewrite oks_Ok, Hn2.
    replace (n - k)%nat with (S (n - S k)) by lia. by rewrite (drop_S _ _ _ Hi).
  - apply open_err in E as ->. destruct (IH r k) as (n & Hn).
    { intros f' m' Hf'. apply Hun. by right. }
    { done. }
    { done. }
    destruct (open_all r frames) as [rs r2]. exists n. exact Hn.
Qed.

(** Sealing from a fresh session: one frame per message, nonces counting up. *)
Lemma seal_all_opens s r msgs frames s' :
  seal_all s msgs = (Ok <$> frames, s') -> recv_key r = send_key s -> recv_ctr r = send_ctr s ->
  oks (open_all r frames).1 = msgs.
Proof.
  revert s r frames s'. induction msgs as [|m msgs IH]; intros s r frames s' H Hk Hc; cbn [seal_all] in H.
  { destruct frames; [done|discriminate]. }
  destruct (seal s m) as [c s1] eqn:E. destruct (seal_all s1 msgs) as [rs s2] eqn:E2.
  destruct frames as [|f frames]; [done|]. rewrite fmap_cons in H. injection H as -> -> ->.
  cbn [open_all]. rewrite (open_sealed s r m f s1 E Hk Hc).
  apply seal_inv in E as (_ & _ & _ & _ & ->).
  specialize (IH _ (set_recv r (send_ctr s + 1)) _ _ E2 Hk eq_refl).
  destruct (open_all _ frames) as [rs r2]. cbn [fst] in *. by rewrite oks_Ok, IH.
Qed.

Lemma seal_all_nonces s msgs :
  0 <= send_ctr s <= u64_max ->
  send_ctr s <= send_ctr (seal_all s msgs).2 <= u64_max /\
  NoDup (take 12 <$> oks (seal_all s msgs).1) /\
  forall f, f ∈ oks (seal_all s msgs).1 -> exists c, send_ctr s <= c < send_ctr (seal_all s msgs).2 /\ take 12 f = ctr_nonce c.
Proof.
  revert s. induction msgs as [|m msgs IH]; intros s Hs; cbn [seal_all].
  { split; [simpl; lia|]. split; [constructor|]. by intros f ?%not_elem_of_nil. }
  assert (Hstep : forall r s1, seal s m = (r, s1) -> send_ctr s <= send_ctr s1 <= u64_max /\
            (s1 = s \/ send_ctr s1 = send_ctr s + 1)).
  { unfold seal. intros r s1. destruct (checked_succ _) as [c|] eqn:Ec; intros [= <- <-]; [|split; [lia|by left]].
    apply checked_succ_Some in Ec as [? ->]. simpl. split; [lia|by right]. }
  destruct (seal s m) as [r s1] eqn:E. destruct (Hstep r s1 eq_refl) as [Hs1 _].
  destruct (IH s1 ltac:(lia)) as (Hle & Hnd & Hin). destruct (seal_all s1 msgs) as [rs s2]. cbn [fst snd] in *.
  split; [lia|]. destruct r as [f|e]; rewrite ?oks_Ok, ?oks_Err, ?fmap_cons.
  - apply seal_inv in E as (Hn & _ & _ & Hu & ->). simpl in *. split.
    + constructor; [|done]. intros (f' & Hf' & Hx)%list_elem_of_fmap. apply Hin in Hx as (c & Hc & Hfc).
      rewrite Hn, Hfc in Hf'. apply ctr_nonce_inj in Hf'; lia.
    + intros f' [->|Hf']%elem_of_cons; [exists (send_ctr s); split; [lia|done]|].
      apply Hin in Hf' as (c & Hc & ?). exists c. split; [lia|done].
  - split; [done|]. intros f' (c & Hc & ?)%Hin. exists c. split; [lia|done].
Qed.
End channel.

(** ** The handshake *)

Section handshake.
Context {P : Primitives} {L : PrimitiveLaws P} {T : TunnelPrimitives} {TL : TunnelLaws T}.

(** The certificate's key verifies what the private key signs. *)
Definition key_pair (cert_pem key_pem : string) : Prop :=
  forall msg sig, ecdsa_sign key_pem msg = Ok sig -> ecdsa_verify cert_pem msg sig = Ok true.

Definition flip_role (r : Role) : Role := match r with Initiator => Responder | Responder => Initiator end.

Lemma derive_keys_Ok shared base :
  exists a b, derive_keys shared base = Ok (a, b) /\ length a = 32%nat /\ length b = 32%nat.
Proof.
  unfold derive_keys. destruct (hkdf_expands base shared (as_bytes "blackbook/tunnel/v1 i2r")) as (a & -> & Ha).
  destruct (hkdf_expands base shared (as_bytes "blackbook/tunnel/v1 r2i")) as (b & -> & Hb). by exists a, b.
Qed.

Lemma complete_inv p peer name fp s :
  complete p peer name fp = Ok s ->
  exists peer_eph sig, cert_fingerprint (hs_cert_pem peer) = Ok fp /\ hs_from peer = name /\
    b64_decode (hs_eph_pub peer) = Some peer_eph /\ length peer_eph = 32%nat /\
    b64_decode (hs_signature peer) = Some sig /\
    let '(ie, re) := role_order (pe_role p) (pe_eph_pub p) peer_eph in
    ecdsa_verify (hs_cert_pem peer) (signing_payload (session_base (pe_tunnel_id p) ie re) name fp) sig = Ok true /\
    peer_name s = name /\ peer_fingerprint s = fp.
Proof.
  unfold complete. intros H. apply result_bind_Ok in H as (fp' & Hfp & H).
  destruct (String.eqb_spec fp' fp) as [->|]; [|done]. destruct (String.eqb_spec (hs_from peer) name) as [Hn|]; [|done].
  cbn [negb] in H. apply result_bind_Ok in H as (eph & Heph & H).
  destruct (b64_decode (hs_eph_pub peer)) as [e|] eqn:Ee; [|done]. simplify_eq/=.
  destruct (Nat.eqb_spec (length eph) 32) as [Hl|]; [|done]. cbn [negb] in H.
  destruct (role_order (pe_role p) (pe_eph_pub p) eph) as [ie re] eqn:Er.
  apply result_bind_Ok in H as (sig & Hs & H). destruct (b64_decode (hs_signature peer)) as [sg|] eqn:Es; [|done].
  simplify_eq/=. apply result_bind_Ok in H as (v & Hv & H). destruct v; [|done]. cbn [negb] in H.
  apply result_bind_Ok in H as ([a b] & _ & H). exists eph, sig. rewrite Er.
  destruct (pe_role p); by simplify_eq/=.
Qed.

Lemma complete_Ok p peer name fp peer_eph sig :
  cert_fingerprint (hs_cert_pem peer) = Ok fp -> hs_from peer = name ->
  hs_eph_pub peer = b64_encode peer_eph -> length peer_eph = 32%nat -> hs_signature peer = b64_encode sig ->
  let '(ie, re) := role_order (pe_role p) (pe_eph_pub p) peer_eph in
  let base := session_base (pe_tunnel_id p) ie re in
  ecdsa_verify (hs_cert_pem peer) (signing_payload base name fp) sig = Ok true ->
  exists a b, derive_keys (x25519 (pe_eph_secret p) peer_eph) base = Ok (a, b) /\ length a = 32%nat /\ length b = 32%nat /\
    complete p peer name fp =
      Ok (let '(sk, rk) := match pe_role p with Initiator => (a, b) | Responder => (b, a) end in
          MkSession sk rk 0 0 name fp).
Proof.
  intros Hfp Hn He Hl Hs. destruct (role_order _ _ _) as [ie re] eqn:Er. cbv zeta. intros Hv.
  destruct (derive_keys_Ok (x25519 (pe_eph_secret p) peer_eph) (session_base (pe_tunnel_id p) ie re))
    as (a & b & Hd & Ha & Hb). exists a, b. split; [done|]. split; [done|]. split; [done|].
  unfold complete. rewrite Hfp, bind_Ok, String.eqb_refl, Hn, String.eqb_refl. cbn [negb].
  rewrite He, b64_roundtrip. cbn [ok_or]. rewrite bind_Ok, Hl, Nat.eqb_refl. cbn [negb]. rewrite Er.
  rewrite Hs, b64_roundtrip. cbn [ok_or]. rewrite bind_Ok, Hv, bind_Ok. cbn [negb]. rewrite Hd, bind_Ok.
  by destruct (pe_role p).
Qed.

Lemma sign_inv p peer_eph h :
  sign p peer_eph = Ok h ->
  exists fp sig, cert_fingerprint (pe_my_cert_pem p) = Ok fp /\
    hs_from h = pe_my_name p /\ hs_eph_pub h = b64_encode (pe_eph_pub p) /\ hs_cert_pem h = pe_my_cert_pem p /\
    hs_signature h = b64_encode sig /\
    let '(ie, re) := role_order (pe_role p) (pe_eph_pub p) peer_eph in
    ecdsa_sign (pe_my_key_pem p) (signing_payload (session_base (pe_tunnel_id p) ie re) (pe_my_name p) fp) = Ok sig.
Proof.
  unfold sign. intros H. apply result_bind_Ok in H as (fp & Hfp & H).
  destruct (role_order _ _ _) as [ie re]. apply result_bind_Ok in H as (sig & Hs & H). injection H as <-.
  by exists fp, sig.
Qed.

Lemma role_order_flip r a b : role_order (flip_role r) a b = role_order r b a.
Proof. by destruct r. Qed.

(** One direction of the exchange: what one side signs the other accepts. *)
Lemma accepts_signed p q name fp h :
  pe_role q = flip_role (pe_role p) -> pe_tunnel_id q = pe_tunnel_id p ->
  (exists b, pe_eph_pub q = x25519_public b) ->
  key_pair (pe_my_cert_pem q) (pe_my_key_pem q) ->
  pe_my_name q = name -> cert_fingerprint (pe_my_cert_pem q) = Ok fp ->
  sign q (pe_eph_pub p) = Ok h ->
  let '(ie, re) := role_order (pe_role p) (pe_eph_pub p) (pe_eph_pub q) in
  let base := session_base (pe_tunnel_id p) ie re in
  exists a b, derive_keys (x25519 (pe_eph_secret p) (pe_eph_pub q)) base = Ok (a, b) /\
    length a = 32%nat /\ length b = 32%nat /\
    complete p h name fp =
      Ok (let '(sk, rk) := match pe_role p with Initiator => (a, b) | Responder => (b, a) end in
          MkSession sk rk 0 0 name fp).
Proof.
  intros Hr Ht [x Hx] Hkp Hn Hfp Hs. apply sign_inv in Hs as (fp' & sig & Hfp' & Hf & He & Hc & Hsig & Hsgn).
  assert (fp' = fp) as -> by congruence. rewrite Hr, role_order_flip, Ht, Hn in Hsgn.
  pose proof (complete_Ok p h name fp (pe_eph_pub q) sig) as Hcomp. rewrite Hc in Hcomp.
  destruct (role_order (pe_role p) (pe_eph_pub p) (pe_eph_pub q)) as [ie re].
  apply Hcomp; try congruence; [rewrite Hx; apply x25519_public_length|]. by apply Hkp.
Qed.

Lemma field_inj a b r s :
  Z.of_nat (length a) < 2 ^ 32 -> Z.of_nat (length b) < 2 ^ 32 -> field a ++ r = field b ++ s -> a = b /\ r = s.
Proof. apply len_prefixed_inj. Qed.

Lemma session_base_inj t1 i1 r1 t2 i2 r2 :
  Z.of_nat (length (as_bytes t1)) < 2 ^ 32 -> Z.of_nat (length (as_bytes t2)) < 2 ^ 32 ->
  length i1 = 32%nat -> length i2 = 32%nat -> length r1 = 32%nat -> length r2 = 32%nat ->
  session_base t1 i1 r1 = session_base t2 i2 r2 -> 
  (t1 = t2 /\ i1 = i2 /\ r1 = r2) \/ collides [transcript t1 i1 r1] [transcript t2 i2 r2].
Proof.
  intros H1 H2 Hi1 Hi2 Hr1 Hr2 H. apply sha3_eq_or_collides in H as [H|]; [left|by right].
  apply field_inj in H as [_ H]; [|done..]. apply field_inj in H as [Ht H]; [|done..].
  apply field_inj in H as [Hi H]; [|rewrite ?Hi1, ?Hi2; done..].
  rewrite <- (app_nil_r (field r1)), <- (app_nil_r (field r2)) in H.
  apply field_inj in H as [Hr _]; [|rewrite ?Hr1, ?Hr2; done..]. apply as_bytes_inj in Ht. done.
Qed.

Lemma signing_payload_inj b1 n1 f1 b2 n2 f2 :
  length b1 = 32%nat -> length b2 = 32%nat ->
  Z.of_nat (length (as_bytes n1)) < 2 ^ 32 -> Z.of_nat (length (as_bytes n2)) < 2 ^ 32 ->
  Z.of_nat (length (as_bytes f1)) < 2 ^ 32 -> Z.of_nat (length (as_bytes f2)) < 2 ^ 32 ->
  signing_payload b1 n1 f1 = signing_payload b2 n2 f2 -> b1 = b2 /\ n1 = n2 /\ f1 = f2.
Proof.
  intros Hb1 Hb2 Hn1 Hn2 Hf1 Hf2 H. unfold signing_payload in H.
  apply field_inj in H as [-> H]; [|rewrite ?Hb1, ?Hb2; done..]. apply field_inj in H as [Hn H]; [|done..].
  rewrite <- (app_nil_r (field (as_bytes f1))), <- (app_nil_r (field (as_bytes f2))) in H.
  apply field_inj in H as [Hf _]; [|done..]. by apply as_bytes_inj in Hn, Hf.
Qed.
End handshake.

(** ** The properties *)

(** C31. Two parties that run the handshake for the same tunnel in opposite
    roles, each given the other's true name and fingerprint, both accept, and
    end with matching sessions: what one seals with, the other opens with. *)
Theorem handshake_agreement {P : Primitives} {L : PrimitiveLaws P} {T : TunnelPrimitives} {TL : TunnelLaws T}
    tid na ca ka ea nb cb kb eb fa fb ha hb :
  let pa := begin Initiator tid na ca ka ea in
  let pb := begin Responder tid nb cb kb eb in
  key_pair ca ka -> key_pair cb kb -> cert_fingerprint ca = Ok fa -> cert_fingerprint cb = Ok fb ->
  sign pa (pe_eph_pub pb) = Ok ha -> sign pb (pe_eph_pub pa) = Ok hb ->
  exists sa sb, complete pa hb nb fb = Ok sa /\ complete pb ha na fa = Ok sb /\
    send_key sa = recv_key sb /\ recv_key sa = send_key sb /\ length (send_key sa) = 32%nat /\
    length (send_key sb) = 32%nat /\ send_ctr sa = 0 /\ recv_ctr sa = 0 /\ send_ctr sb = 0 /\ recv_ctr sb = 0.
Proof.
  intros pa pb Hka Hkb Hfa Hfb Hsa Hsb.
  destruct (accepts_signed pa pb nb fb hb eq_refl eq_refl (ex_intro _ eb eq_refl) Hkb eq_refl Hfb Hsb)
    as (a & b & Hd & Ha & Hb & Hca).
  destruct (accepts_signed pb pa na fa ha eq_refl eq_refl (ex_intro _ ea eq_refl) Hka eq_refl Hfa Hsa)
    as (a' & b' & Hd' & _ & _ & Hcb).
  simpl in Hd, Hd'. rewrite x25519_agree in Hd'. rewrite Hd in Hd'. injection Hd' as <- <-.
  eexists _, _. split; [exact Hca|]. split; [exact Hcb|]. simpl. done.
Qed.

(** Fields that fit the four-byte length prefixes. *)
Definition fits (tid n f : string) (ie re : bytes) : Prop :=
  Z.of_nat (length (as_bytes tid)) < 2 ^ 32 /\ Z.of_nat (length (as_bytes n)) < 2 ^ 32 /\
  Z.of_nat (length (as_bytes f)) < 2 ^ 32 /\ length ie = 32%nat /\ length re = 32%nat.

(** C32. An accepted handshake proves that the holder of the vouched
    certificate attested this very session: if the only messages whose
    signature verifies under that certificate are the ones its holder signed,
    the holder signed for this tunnel, this pair of ephemeral keys and the
    identity the server vouched, or for a session whose transcript collides
    with this one under SHA3-256. Signatures of other
    tunnels, peers or sessions are of no use. *)
Theorem handshake_binds {P : Primitives} {L : PrimitiveLaws P} {T : TunnelPrimitives}
    p peer name fp s (attested : string -> bytes -> bytes -> string -> string -> Prop) :
  complete p peer name fp = Ok s -> fits (pe_tunnel_id p) name fp (pe_eph_pub p) (pe_eph_pub p) ->
  (forall msg sig, ecdsa_verify (hs_cert_pem peer) msg sig = Ok true ->
     exists tid ie re n f, attested tid ie re n f /\ fits tid n f ie re /\
       msg = signing_payload (session_base tid ie re) n f) ->
  peer_name s = name /\ peer_fingerprint s = fp /\ cert_fingerprint (hs_cert_pem peer) = Ok fp /\
  exists peer_eph, b64_decode (hs_eph_pub peer) = Some peer_eph /\
    let '(ie, re) := role_order (pe_role p) (pe_eph_pub p) peer_eph in
    attested (pe_tunnel_id p) ie re name fp \/
    exists tid ie' re', attested tid ie' re' name fp /\
      collides [transcript (pe_tunnel_id p) ie re] [transcript tid ie' re'].
Proof.
  intros H (Ht & Hn & Hf & Hl & _) Hsig.
  apply complete_inv in H as (eph & sig & Hfp & Hfrom & He & Hlen & Hs & H).
  destruct (role_order (pe_role p) (pe_eph_pub p) eph) as [ie re] eqn:Er. destruct H as (Hv & Hpn & Hpf).
  split; [done|]. split; [done|]. split; [done|]. exists eph. split; [done|]. rewrite Er.
  assert (length ie = 32%nat /\ length re = 32%nat) as [Hie Hre] by (destruct (pe_role p); by simplify_eq/=).
  apply Hsig in Hv as (tid & ie' & re' & n & f & Hatt & (Ht' & Hn' & Hf' & Hie' & Hre') & Hmsg).
  apply signing_payload_inj in Hmsg as (Hb & -> & ->); [|apply sha3_256_length|apply sha3_256_length|done..].
  apply session_base_inj in Hb as [(-> & -> & ->)|Hc]; [by left|right; eauto|done..].
Qed.

(** C33. The channel refines a FIFO queue: whatever frames the relay hands over,
    in whatever order, repeated or dropped, as long as it cannot forge one, the
    plaintexts the receiver lets through are a prefix of the messages sent, in
    order and without repetition. *)
Theorem channel_refines_fifo {P : Primitives} r key msgs frames :
  recv_key r = key -> recv_ctr r = 0 -> Z.of_nat (length msgs) <= u64_max -> unforged key msgs frames ->
  exists n, oks (open_all r frames).1 = take n msgs /\ recv_ctr (open_all r frames).2 = Z.of_nat n.
Proof.
  intros <- Hc Hmax Hun. destruct (open_all_take r 0 msgs frames Hun Hmax Hc (Nat.le_0_l _)) as (n & _ & Ho & Hr).
  exists n. rewrite Nat.sub_0_r in Ho. done.
Qed.

(** Delivered in order, every frame opens to the message it was made of. *)
Theorem channel_roundtrip {P : Primitives} {L : PrimitiveLaws P} s r msgs frames s' :
  seal_all s msgs = (Ok <$> frames, s') -> recv_key r = send_key s -> recv_ctr r = send_ctr s ->
  oks (open_all r frames).1 = msgs.
Proof. apply seal_all_opens. Qed.

(** C34. A sender never reuses a nonce: over any run of seals the frames made
    carry pairwise distinct nonces, and the 64-bit counter stops at its maximum
    instead of wrapping. *)
Theorem nonces_never_repeat {P : Primitives} s msgs :
  0 <= send_ctr s <= u64_max ->
  NoDup (take 12 <$> oks (seal_all s msgs).1) /\ send_ctr s <= send_ctr (seal_all s msgs).2 <= u64_max /\
  (send_ctr s = u64_max -> forall m, exists e, seal s m = (Err e, s)).
Proof.
  intros Hs. destruct (seal_all_nonces s msgs Hs) as (Hle & Hnd & _). split; [done|]. split; [done|].
  intros Hmax m. unfold seal, checked_succ. rewrite Hmax, Z.eqb_refl. by eexists.
Qed.

(** ** Witnesses *)

(** A commutative toy exchange and a keyed-hash toy signature. *)
#[export] Instance toy_tunnel : TunnelPrimitives := {|
  x25519_public s := be_bytes 32 (be_value s);
  x25519 a B := be_bytes 32 (toy_hash (be_bytes 32 (be_value a)) + toy_hash B);
  hkdf_sha256 salt ikm info n := Some (be_bytes n (toy_hash (salt ++ ikm ++ info)));
  private_key_from_pem b := Ok b;
  signer_new b := Ok b;
  signer_sign k m := Ok (be_bytes 32 (toy_hash (k ++ m)));
  x509_from_pem b := Ok b;
  x509_public_key b := map_err crypto_msg (pem_to_der (of_bytes b));
  verifier_new k m := Ok (k ++ m);
  verifier_verify v sig := Ok (bool_decide (sig = be_bytes 32 (toy_hash v)));
|}.

#[export] Instance toy_tunnel_laws : TunnelLaws toy_tunnel.
Proof.
  split.
  - intros a b. simpl. by rewrite Z.add_comm.
  - intros s. apply be_bytes_length.
  - intros salt ikm info. eexists. split; [reflexivity|apply be_bytes_length].
Qed.

Definition newline : string := String "010" "".

(** The PEM certificate of a toy key. *)
Definition toy_cert (key : string) : string :=
  "-----BEGIN CERTIFICATE-----" +:+ newline +:+ toy_hex (as_bytes key) +:+ newline
  +:+ "-----END CERTIFICATE-----" +:+ newline.

Definition cert_a : string := Eval vm_compute in toy_cert "ka".
Definition cert_b : string := Eval vm_compute in toy_cert "kb".
Definition fp_of (cert : string) : string := unwrap_or "" (cert_fingerprint cert).

Definition pending_a : Pending := begin Initiator "t1" "alice" cert_a "ka" (be_bytes 32 5).
Definition pending_b : Pending := begin Responder "t1" "bob" cert_b "kb" (be_bytes 32 6).
Definition no_handshake : Handshake := MkHandshake "" "" "" "".
Definition hello_a : Handshake := unwrap_or no_handshake (sign pending_a (pe_eph_pub pending_b)).
Definition hello_b : Handshake := unwrap_or no_handshake (sign pending_b (pe_eph_pub pending_a)).
Definition no_session : Session := MkSession [] [] 0 0 "" "".
Definition session_a : Session := Eval vm_compute in unwrap_or no_session (complete pending_a hello_b "bob" (fp_of cert_b)).
Definition session_b : Session := Eval vm_compute in unwrap_or no_session (complete pending_b hello_a "alice" (fp_of cert_a)).

Lemma toy_key_pair key cert : x509_public_key (as_bytes cert) = Ok (as_bytes key) -> key_pair cert key.
Proof.
  intros Hk msg sig. unfold ecdsa_sign, ecdsa_verify. cbn [private_key_from_pem signer_new signer_sign toy_tunnel].
  cbn [map_err]. rewrite !bind_Ok. intros [= <-].
  change (x509_from_pem (as_bytes cert)) with (Ok (as_bytes cert) : result string bytes). cbn [map_err].
  rewrite bind_Ok, Hk. cbn. by rewrite bool_decide_true.
Qed.

Lemma handshake_agreement_witness :
  exists sa sb, complete pending_a hello_b "bob" (fp_of cert_b) = Ok sa /\
    complete pending_b hello_a "alice" (fp_of cert_a) = Ok sb /\
    send_key sa = recv_key sb /\ recv_key sa = send_key sb /\ length (send_key sa) = 32%nat /\
    length (send_key sb) = 32%nat /\ send_ctr sa = 0 /\ recv_ctr sa = 0 /\ send_ctr sb = 0 /\ recv_ctr sb = 0.
Proof.
  apply (handshake_agreement "t1" "alice" cert_a "ka" (be_bytes 32 5) "bob" cert_b "kb" (be_bytes 32 6)
           (fp_of cert_a) (fp_of cert_b) hello_a hello_b).
  - apply toy_key_pair. vm_compute. reflexivity.
  - apply toy_key_pair. vm_compute. reflexivity.
  - vm_compute. reflexivity.
  - vm_compute. reflexivity.
  - vm_compute. reflexivity.
  - vm_compute. reflexivity.
Defined.

Definition plaintexts : list bytes := [as_bytes "one"; as_bytes "two"; as_bytes "three"].
Definition ciphertexts : list bytes := Eval vm_compute in oks (seal_all session_a plaintexts).1.

(** The relay repeats, reorders and drops. *)
Definition relayed : list bytes := Eval vm_compute in
  match ciphertexts with [a; b; c] => [a; a; c; b; a; b] | _ => [] end.

Lemma relayed_unforged : unforged (send_key session_a) plaintexts relayed.
Proof.
  intros f m Hf Hd. unfold relayed in Hf.
  repeat (apply elem_of_cons in Hf as [->|Hf];
    [vm_compute in Hd; injection Hd as <-;
     first [by exists 0%nat|by exists 1%nat|by exists 2%nat]|]).
  by apply not_elem_of_nil in Hf.
Qed.

Lemma channel_refines_fifo_witness :
  oks (open_all session_b relayed).1 = take 2 plaintexts /\
  exists n, oks (open_all session_b relayed).1 = take n plaintexts /\ recv_ctr (open_all session_b relayed).2 = Z.of_nat n.
Proof.
  split; [vm_compute; reflexivity|].
  apply (channel_refines_fifo session_b (send_key session_a) plaintexts relayed).
  - vm_compute. reflexivity.
  - reflexivity.
  - vm_compute. discriminate.
  - exact relayed_unforged.
Defined.

Lemma channel_roundtrip_witness : oks (open_all session_b ciphertexts).1 = plaintexts.
Proof.
  apply (channel_roundtrip session_a session_b plaintexts ciphertexts (seal_all session_a plaintexts).2).
  - vm_compute. reflexivity.
  - vm_compute. reflexivity.
  - reflexivity.
Defined.

Lemma nonces_never_repeat_witness :
  NoDup (take 12 <$> oks (seal_all (set_send session_a (u64_max - 2)) plaintexts).1) /\
  length (oks (seal_all (set_send session_a (u64_max - 2)) plaintexts).1) = 2%nat.
Proof.
  split; [|vm_compute; reflexivity].
  apply (nonces_never_repeat (set_send session_a (u64_max - 2)) plaintexts).
  vm_compute. split; discriminate.
Defined.

(** Bob's payload for the session, and a verifier that accepts it only. *)
Definition payload_b : bytes := Eval vm_compute in
  signing_payload (session_base "t1" (pe_eph_pub pending_a) (pe_eph_pub pending_b)) "bob" (fp_of cert_b).

Definition toy_once : TunnelPrimitives := {|
  x25519_public := @x25519_public toy_tunnel;
  x25519 := @x25519 toy_tunnel;
  hkdf_sha256 := @hkdf_sha256 toy_tunnel;
  private_key_from_pem := @private_key_from_pem toy_tunnel;
  signer_new := @signer_new toy_tunnel;
  signer_sign := @signer_sign toy_tunnel;
  x509_from_pem := @x509_from_pem toy_tunnel;
  x509_public_key := @x509_public_key toy_tunnel;
  verifier_new := @verifier_new toy_tunnel;
  verifier_verify v sig := Ok (bool_decide (v = as_bytes "kb" ++ payload_b));
|}.

Definition attested_b (tid : string) (ie re : bytes) (n f : string) : Prop :=
  tid = "t1" /\ ie = pe_eph_pub pending_a /\ re = pe_eph_pub pending_b /\ n = "bob" /\ f = fp_of cert_b.

Lemma toy_once_attests msg sig :
  @ecdsa_verify toy_once cert_b msg sig = Ok true ->
  exists tid ie re n f, attested_b tid ie re n f /\ fits tid n f ie re /\
    msg = signing_payload (session_base tid ie re) n f.
Proof.
  intros H. assert (Hv : @ecdsa_verify toy_once cert_b msg sig
                         = Ok (bool_decide (as_bytes "kb" ++ msg = as_bytes "kb" ++ payload_b))) by reflexivity.
  rewrite Hv in H. injection H as H%bool_decide_eq_true. injection H as H.
  exists "t1", (pe_eph_pub pending_a), (pe_eph_pub pending_b), "bob", (fp_of cert_b).
  split; [done|]. split; [|rewrite H; vm_compute; reflexivity]. vm_compute. done.
Qed.

Lemma handshake_binds_witness :
  peer_name session_a = "bob" /\ peer_fingerprint session_a = fp_of cert_b /\
  cert_fingerprint (hs_cert_pem hello_b) = Ok (fp_of cert_b) /\
  exists peer_eph, b64_decode (hs_eph_pub hello_b) = Some peer_eph /\
    (attested_b "t1" (pe_eph_pub pending_a) peer_eph "bob" (fp_of cert_b) \/
     exists tid ie re, attested_b tid ie re "bob" (fp_of cert_b) /\
       collides [transcript "t1" (pe_eph_pub pending_a) peer_eph] [transcript tid ie re]).
Proof.
  apply (handshake_binds (T := toy_once) pending_a hello_b "bob" (fp_of cert_b) session_a attested_b).
  - vm_compute. reflexivity.
  - vm_compute. done.
  - exact toy_once_attests.
Defined.
