(* ===== verification/TunnelRelay.v ===== *)
(** The tunnel relay ([src/src/tunnel_relay.rs] and the tunnel endpoints of
    [src/src/server.rs]): the registry of offers, the pairing of the two
    WebSockets of a tunnel, the vouches and the two pumps of each side. A
    connection is a small state machine; the tasks of all connections interleave
    as the transitions of [relay_step], one per critical section or channel
    operation. The WebSocket library is outside the model: its messages are the
    transitions' labels. *)
From S2P Require Import Prelude AccessRules Crypto Store Effects ServerBase AuditLog.

Record Vouch := MkVouch {
  you_are_initiator : bool;
  v_tunnel_id : string;
  v_peer_name : string;
  v_peer_fingerprint : string;
}.

Inductive RelayMsg := RVouch (v : Vouch) | RFrame (b : bytes) | PeerGone.

(** A sender handle is the number of the connection whose queue it feeds. *)
Record Tunnel := MkTunnel {
  offerer_name : string;
  offerer_fp : string;
  target_name : string;
  answerer_name : option string;
  answerer_fp : option string;
  to_offerer : option nat;
  to_answerer : option nat;
  t_created : Z;
}.

Notation TunnelHub := (gmap string Tunnel).

(** microseconds, as the clock of the model *)
Definition OFFER_TTL : Z := 120 * 1000000.

(** [retain]'s predicate *)
Definition keep_offer (now : Z) (t : Tunnel) : bool :=
  negb (is_null (answerer_name t)) || (now - t_created t <? OFFER_TTL).

(** [id] is the fresh draw. *)
Definition offer (now : Z) (id offerer fp target : string) (hub : TunnelHub) : TunnelHub :=
  <[id := MkTunnel offerer fp target None None None None now]>
    (filter (fun kt => keep_offer now kt.2 = true) hub).

Definition TunnelInfo : Type := string * string * string * string.

Definition tunnel_state (t : Tunnel) : string :=
  if negb (is_null (to_offerer t)) && negb (is_null (to_answerer t)) then "connected"
  else if negb (is_null (answerer_name t)) then "joining"
  else "offered".

(** A HashMap iterates in no particular order. *)
Definition list_for (client_name : string) (hub : TunnelHub) : list TunnelInfo :=
  omap (fun '(id, t) =>
          if (offerer_name t =s? client_name) || (target_name t =s? client_name)
          then Some (id, offerer_name t, target_name t, tunnel_state t) else None)
       (map_to_list hub).

(** ** The endpoints that only touch the registry *)

Section endpoints.
Context {P : Primitives}.

(** Any database error reads as no client. *)
Definition client_fingerprint (state : AppState) (name : string) : M (option string) :=
  let name_id := client_name_id_hex (name_index_key state) name in
  row ← query (fun _ d => first_row (fun c => (c_name_id c =s? name_id) && is_null (c_revoked c)) (clients d));
  mret (match row with Ok (Some c) => c_cert_fp c | _ => None end).

(** The registry is read and written under its lock at the end: [hub] is its
    value then. *)
Definition offer_tunnel (state : AppState) (target : string) (client : AuthenticatedClient) (hub : TunnelHub) :
    M (TunnelHub * Response) :=
  if trim target =s? ""
  then reply (err 400 "validation_error" "target is required")
  else if target =s? ac_name client
  then reply (err 400 "validation_error" "cannot tunnel to yourself")
  else
    target_fp ← client_fingerprint state target;
    match target_fp with
    | None => reply (err 404 "not_found" ("no active client named '" +:+ target +:+ "'"))
    | Some _ =>
        my_fp ← client_fingerprint state (ac_name client);
        match my_fp with
        | None => reply (err 500 "internal" "own fingerprint not found")
        | Some my_fp =>
            id ← new_id 16;
            now ← utc_now;
            let hub := offer now id (ac_name client) my_fp target hub in
            audit (audit_hmac_key state) (metadata_enc_key state) (Some (ac_id client)) "tunnel.offer"
              (Some target) AuditOk None;;
            mret (hub, json_response 201 (JObj [("tunnel_id", JStr id); ("target", JStr target)]))
        end
    end.

Definition list_tunnels (client : AuthenticatedClient) (hub : TunnelHub) : Response :=
  let items := list_for (ac_name client) hub in
  json_response 200 (JObj [("tunnels",
      JArr (map (fun '(id, o, t, s) =>
              JObj [("id", JStr id); ("offerer", JStr o); ("target", JStr t); ("state", JStr s)]) items));
    ("count", JNum (Z.of_nat (length items)))]).
End endpoints.

(** ** One side of a tunnel: [tunnel_ws] *)

(** [Some (Some true)]: the offerer; [Some (Some false)]: the target;
    [Some None]: not a party; [None]: no such tunnel. *)
Definition tunnel_role (hub : TunnelHub) (tunnel_id name : string) : option (option bool) :=
  t ← hub !! tunnel_id;
  Some (if offerer_name t =s? name then Some true
        else if target_name t =s? name then Some false else None).

Definition role_refusal (role : option (option bool)) : option Response :=
  match role with
  | Some (Some _) => None
  | Some None => Some (err 403 "forbidden" "not a party to this tunnel")
  | None => Some (err 404 "not_found" "no such tunnel")
  end.

(** Where a side's tasks are: before the wiring, relaying, after a failed send,
    after the teardown. *)
Inductive Phase := Joining | Live | Closing | Gone.
#[global] Instance Phase_eq_dec : EqDecision Phase. Proof. solve_decision. Defined.

(** [cn_todo]: the sends its task is about to make; [cn_inbox]: its queue;
    [cn_wire]: what the outbound pump has written; [cn_rx]: the queue's receiver
    is alive. *)
Record Conn := MkConn {
  cn_tunnel : string;
  cn_initiator : bool;
  cn_name : string;
  cn_phase : Phase;
  cn_peer : option nat;
  cn_todo : list (nat * RelayMsg);
  cn_inbox : list RelayMsg;
  cn_wire : list RelayMsg;
  cn_rx : bool;
}.

Record Relay := MkRelay { hub : TunnelHub; conns : list Conn }.

Definition set_phase (p : Phase) (c : Conn) : Conn :=
  MkConn (cn_tunnel c) (cn_initiator c) (cn_name c) p (cn_peer c) (cn_todo c) (cn_inbox c) (cn_wire c) (cn_rx c).
Definition set_peer (p : option nat) (c : Conn) : Conn :=
  MkConn (cn_tunnel c) (cn_initiator c) (cn_name c) (cn_phase c) p (cn_todo c) (cn_inbox c) (cn_wire c) (cn_rx c).
Definition set_todo (l : list (nat * RelayMsg)) (c : Conn) : Conn :=
  MkConn (cn_tunnel c) (cn_initiator c) (cn_name c) (cn_phase c) (cn_peer c) l (cn_inbox c) (cn_wire c) (cn_rx c).
Definition set_inbox (l : list RelayMsg) (c : Conn) : Conn :=
  MkConn (cn_tunnel c) (cn_initiator c) (cn_name c) (cn_phase c) (cn_peer c) (cn_todo c) l (cn_wire c) (cn_rx c).
Definition set_wire (l : list RelayMsg) (c : Conn) : Conn :=
  MkConn (cn_tunnel c) (cn_initiator c) (cn_name c) (cn_phase c) (cn_peer c) (cn_todo c) (cn_inbox c) l (cn_rx c).
Definition set_rx (b : bool) (c : Conn) : Conn :=
  MkConn (cn_tunnel c) (cn_initiator c) (cn_name c) (cn_phase c) (cn_peer c) (cn_todo c) (cn_inbox c) (cn_wire c) b.

Definition upd_conn (i : nat) (f : Conn -> Conn) (r : Relay) : Relay := MkRelay (hub r) (alter f i (conns r)).
Definition upd_hub (f : TunnelHub -> TunnelHub) (r : Relay) : Relay := MkRelay (f (hub r)) (conns r).

(** The handle of the opposite side. *)
Definition peer_handle (h : TunnelHub) (tunnel_id : string) (is_initiator : bool) : option nat :=
  t ← h !! tunnel_id; if is_initiator then to_answerer t else to_offerer t.

(** Registering side [i] under the lock. *)
Definition register (i : nat) (is_initiator : bool) (my_name my_fp : string) (t : Tunnel) : Tunnel :=
  if is_initiator
  then MkTunnel my_name my_fp (target_name t) (answerer_name t) (answerer_fp t) (Some i) (to_answerer t) (t_created t)
  else MkTunnel (offerer_name t) (offerer_fp t) (target_name t) (Some my_name) (Some my_fp) (to_offerer t) (Some i)
         (t_created t).

Definition off_vouch (tid : string) (t : Tunnel) : Vouch :=
  MkVouch true tid (default "" (answerer_name t)) (default "" (answerer_fp t)).
Definition ans_vouch (tid : string) (t : Tunnel) : Vouch := MkVouch false tid (offerer_name t) (offerer_fp t).

(** [Wiring]: the peer's handle, and the two vouches to send, mine first. *)
Definition wire_pair (i : nat) (is_initiator : bool) (tid : string) (t : Tunnel) :
    option nat * list (nat * RelayMsg) :=
  match to_offerer t, to_answerer t with
  | Some o, Some a =>
      let '(my_vouch, peer_vouch, peer_tx) :=
        if is_initiator then (off_vouch tid t, ans_vouch tid t, a) else (ans_vouch tid t, off_vouch tid t, o) in
      (Some peer_tx, [(i, RVouch my_vouch); (peer_tx, RVouch peer_vouch)])
  | _, _ => (None, [])
  end.

(** The wiring section of connection [i], [fp] being what
    [client_fingerprint(..).unwrap_or_default()] gave. *)
Definition attach (i : nat) (fp : string) (c : Conn) (r : Relay) : Relay :=
  match hub r !! cn_tunnel c with
  | None => upd_conn i (set_phase Live) r
  | Some t =>
      let t' := register i (cn_initiator c) (cn_name c) fp t in
      let '(peer, sends) := wire_pair i (cn_initiator c) (cn_tunnel c) t' in
      upd_conn i (fun c => set_phase Live (set_peer peer (set_todo sends c))) (upd_hub (insert (cn_tunnel c) t') r)
  end.

(** A binary message from the WebSocket: the peer is looked up again while it is
    not known. *)
Definition receive_frame (i : nat) (b : bytes) (c : Conn) (r : Relay) : Relay :=
  let peer := match cn_peer c with Some p => Some p | None => peer_handle (hub r) (cn_tunnel c) (cn_initiator c) end in
  upd_conn i (fun c => set_peer peer (set_todo (match peer with Some p => [(p, RFrame b)] | None => [] end) c)) r.

(** [tx.send(msg)]: false once the receiver is dropped. *)
Definition enqueue (dst : nat) (m : RelayMsg) (r : Relay) : bool * Relay :=
  match conns r !! dst with
  | Some d => if cn_rx d then (true, upd_conn dst (fun d => set_inbox (cn_inbox d ++ [m]) d) r) else (false, r)
  | None => (false, r)
  end.

(** The next send of connection [i]: a frame that cannot be delivered ends the
    inbound pump, other failures are ignored. *)
Definition send_next (i : nat) (c : Conn) (r : Relay) : Relay :=
  match cn_todo c with
  | [] => r
  | (dst, m) :: rest =>
      let '(sent, r1) := enqueue dst m (upd_conn i (set_todo rest) r) in
      match sent, m with
      | false, RFrame _ => upd_conn i (set_phase Closing) r1
      | _, _ => r1
      end
  end.

(** The teardown: the peer's handle is taken and the tunnel removed under the
    lock, then the peer is told. *)
Definition teardown (i : nat) (c : Conn) (r : Relay) : Relay :=
  let peer := peer_handle (hub r) (cn_tunnel c) (cn_initiator c) in
  upd_conn i (fun c => set_phase Gone (set_todo (match peer with Some p => [(p, PeerGone)] | None => [] end) c))
    (upd_hub (delete (cn_tunnel c)) r).

(** One turn of the outbound pump; [ok] is the WebSocket's verdict. *)
Definition pump (i : nat) (ok : bool) (c : Conn) (r : Relay) : Relay :=
  match cn_inbox c with
  | [] => r
  | PeerGone :: rest => upd_conn i (fun c => set_rx false (set_inbox rest c)) r
  | m :: rest =>
      if ok then upd_conn i (fun c => set_wire (cn_wire c ++ [m]) (set_inbox rest c)) r
      else upd_conn i (fun c => set_rx false (set_inbox rest c)) r
  end.

Definition join (name tid : string) (is_initiator : bool) (r : Relay) : Relay :=
  MkRelay (hub r) (conns r ++ [MkConn tid is_initiator name Joining None [] [] [] true]).

(** ** Interleaving *)

Inductive Event :=
| Offered (now : Z) (id offerer fp target : string)
| Joined (name tid : string)
| Attached (i : nat) (fp : string)
| Binary (i : nat) (b : bytes)
| Sent (i : nat)
| Pumped (i : nat) (ok : bool)
| Closed (i : nat).

Inductive relay_step : Relay -> Event -> Relay -> Prop :=
| step_offer r now id o fp t : relay_step r (Offered now id o fp t) (upd_hub (offer now id o fp t) r)
| step_join r name tid b :
    tunnel_role (hub r) tid name = Some (Some b) -> relay_step r (Joined name tid) (join name tid b r)
| step_attach r i fp c :
    conns r !! i = Some c -> cn_phase c = Joining -> relay_step r (Attached i fp) (attach i fp c r)
| step_binary r i b c :
    conns r !! i = Some c -> cn_phase c = Live -> cn_todo c = [] -> relay_step r (Binary i b) (receive_frame i b c r)
| step_send r i c :
    conns r !! i = Some c -> cn_todo c <> [] -> relay_step r (Sent i) (send_next i c r)
| step_pump r i ok c :
    conns r !! i = Some c -> cn_phase c <> Joining -> cn_rx c = true -> cn_inbox c <> [] ->
    relay_step r (Pumped i ok) (pump i ok c r)
| step_close r i c :
    conns r !! i = Some c -> cn_phase c = Live \/ cn_phase c = Closing -> cn_todo c = [] ->
    relay_step r (Closed i) (teardown i c r).

(** The states reached from an empty hub, with the events so far, oldest first. *)
Inductive reached : list Event -> Relay -> Prop :=
| reached_start : reached [] (MkRelay ∅ [])
| reached_step tr r e r' : reached tr r -> relay_step r e r' -> reached (tr ++ [e]) r'.

(** The same transitions, executable. *)
Definition relay_exec (e : Event) (r : Relay) : option Relay :=
  match e with
  | Offered now id o fp t => Some (upd_hub (offer now id o fp t) r)
  | Joined name tid =>
      match tunnel_role (hub r) tid name with Some (Some b) => Some (join name tid b r) | _ => None end
  | Attached i fp =>
      c ← conns r !! i; if decide (cn_phase c = Joining) then Some (attach i fp c r) else None
  | Binary i b =>
      c ← conns r !! i;
      if decide (cn_phase c = Live /\ length (cn_todo c) = 0%nat) then Some (receive_frame i b c r) else None
  | Sent i =>
      c ← conns r !! i; if decide (length (cn_todo c) <> 0%nat) then Some (send_next i c r) else None
  | Pumped i ok =>
      c ← conns r !! i;
      if decide (cn_phase c <> Joining /\ cn_rx c = true /\ length (cn_inbox c) <> 0%nat)
      then Some (pump i ok c r) else None
  | Closed i =>
      c ← conns r !! i;
      if decide ((cn_phase c = Live \/ cn_phase c = Closing) /\ length (cn_todo c) = 0%nat)
      then Some (teardown i c r) else None
  end.

Fixpoint relay_run (es : list Event) (r : Relay) : option Relay :=
  match es with [] => Some r | e :: es => r' ← relay_exec e r; relay_run es r' end.
