(* ===== verification/RelayProps.v ===== *)
(** Properties of the tunnel relay ([TunnelRelay.v]): whatever the interleaving
    of the connections' tasks, a tunnel's traffic and vouches stay between the
    two clients its offer named. *)
From S2P Require Import Prelude AccessRules Crypto Store Effects ServerBase AuditLog TunnelRelay.

(** What never changes of a connection: tunnel, side, client. *)
Definition ident (c : Conn) : string * bool * string := (cn_tunnel c, cn_initiator c, cn_name c).
Definition idents (r : Relay) : list (string * bool * string) := ident <$> conns r.

Definition offered (tr : list Event) (tid off target : string) : Prop :=
  exists now fp, Offered now tid off fp target ∈ tr.

Definition offer_id (e : Event) : option string :=
  match e with Offered _ id _ _ _ => Some id | _ => None end.

(** Tunnel ids are 128 random bits: no two offers share one. *)
Definition fresh_ids (tr : list Event) : Prop := NoDup (omap offer_id tr).

(** Message [m] may reach a side [b] of tunnel [tid]. *)
Definition delivers (tr : list Event) (ids : list (string * bool * string)) (tid : string) (b : bool) (m : RelayMsg) :
    Prop :=
  exists j n, ids !! j = Some (tid, negb b, n) /\
  match m with
  | RFrame f => Binary j f ∈ tr
  | RVouch v => v_tunnel_id v = tid /\ you_are_initiator v = b /\ v_peer_name v = n /\
                Attached j (v_peer_fingerprint v) ∈ tr
  | PeerGone => Closed j ∈ tr
  end.

Definition is_party (tr : list Event) (tid : string) (b : bool) (name : string) : Prop :=
  exists off target, offered tr tid off target /\ name = if b then off else target.

Record hub_ok (tr : list Event) (ids : list (string * bool * string)) (tid : string) (t : Tunnel) : Prop := {
  hub_offered : offered tr tid (offerer_name t) (target_name t);
  hub_offerer i : to_offerer t = Some i ->
    ids !! i = Some (tid, true, offerer_name t) /\ Attached i (offerer_fp t) ∈ tr;
  hub_answerer i : to_answerer t = Some i ->
    exists n fp, answerer_name t = Some n /\ answerer_fp t = Some fp /\
      ids !! i = Some (tid, false, n) /\ Attached i fp ∈ tr;
}.

Record conn_ok (tr : list Event) (ids : list (string * bool * string)) (c : Conn) : Prop := {
  conn_party : is_party tr (cn_tunnel c) (cn_initiator c) (cn_name c);
  conn_peer p : cn_peer c = Some p -> exists n, ids !! p = Some (cn_tunnel c, negb (cn_initiator c), n);
  conn_todo dst m : (dst, m) ∈ cn_todo c ->
    exists tid b n, ids !! dst = Some (tid, b, n) /\ delivers tr ids tid b m;
  conn_got m : m ∈ cn_wire c ++ cn_inbox c -> delivers tr ids (cn_tunnel c) (cn_initiator c) m;
}.

Definition relay_inv (tr : list Event) (r : Relay) : Prop :=
  (forall tid t, hub r !! tid = Some t -> hub_ok tr (idents r) tid t) /\
  (forall i c, conns r !! i = Some c -> conn_ok tr (idents r) c).

(** ** Growth of the history *)

Section growth.
Context (tr tr' : list Event) (ids ids' : list (string * bool * string)).
Context (Htr : tr ⊆ tr') (Hids : forall i x, ids !! i = Some x -> ids' !! i = Some x).

Lemma offered_grows tid o t : offered tr tid o t -> offered tr' tid o t.
Proof. intros (n & f & H). exists n, f. auto. Qed.

Lemma delivers_grows tid b m : delivers tr ids tid b m -> delivers tr' ids' tid b m.
Proof. intros (j & n & Hj & Hm). exists j, n. split; [auto|]. destruct m; naive_solver. Qed.

Lemma hub_ok_grows tid t : hub_ok tr ids tid t -> hub_ok tr' ids' tid t.
Proof.
  intros [H1 H2 H3]. split; [by apply offered_grows| |].
  - intros i Hi. destruct (H2 i Hi). auto.
  - intros i Hi. destruct (H3 i Hi) as (n & fp & ? & ? & ? & ?). exists n, fp. auto 6.
Qed.

Lemma conn_ok_grows c : conn_ok tr ids c -> conn_ok tr' ids' c.
Proof.
  intros [(o & t & Ho & Hn) Hp Ht Hg]. split.
  - exists o, t. split; [by apply offered_grows|done].
  - intros p Hpp. destruct (Hp p Hpp) as [n Hx]. eauto.
  - intros d m Hdm. destruct (Ht d m Hdm) as (tid & b & n & Hx & Hd). exists tid, b, n. split; [auto|].
    by apply delivers_grows.
  - intros m Hm. by apply delivers_grows, Hg.
Qed.
End growth.

Lemma idents_lookup r i c : conns r !! i = Some c -> idents r !! i = Some (ident c).
Proof. intros H. unfold idents. by rewrite list_lookup_fmap, H. Qed.

Lemma idents_upd i f r : (forall c, ident (f c) = ident c) -> idents (upd_conn i f r) = idents r.
Proof.
  intros Hf. apply list_eq. intros j. unfold idents, upd_conn. simpl. rewrite !list_lookup_fmap.
  destruct (decide (i = j)) as [->|Hne].
  - rewrite list_lookup_alter_eq. destruct (conns r !! j) as [c|]; [|reflexivity]. cbn. by rewrite Hf.
  - by rewrite list_lookup_alter_ne.
Qed.

(** Updating one connection: the new version alone has to be checked. *)
Lemma upd_conn_inv tr i f r :
  relay_inv tr r -> (forall c, ident (f c) = ident c) ->
  (forall c, conns r !! i = Some c -> conn_ok tr (idents r) c -> conn_ok tr (idents r) (f c)) ->
  relay_inv tr (upd_conn i f r).
Proof.
  intros [Hh Hc] Hf Hnew. unfold relay_inv. rewrite idents_upd by done. split; [exact Hh|].
  intros j c Hj. unfold upd_conn in Hj. simpl in Hj. destruct (decide (i = j)) as [->|Hne].
  - rewrite list_lookup_alter_eq in Hj. destruct (conns r !! j) as [c0|] eqn:E; [|done]. injection Hj as <-.
    apply Hnew; eauto.
  - rewrite list_lookup_alter_ne in Hj by done. eauto.
Qed.

Lemma upd_hub_inv tr h r :
  relay_inv tr r -> (forall tid t, h !! tid = Some t -> hub_ok tr (idents r) tid t) ->
  relay_inv tr (MkRelay h (conns r)).
Proof. intros [_ Hc] Hh. by split. Qed.

Lemma relay_inv_grows tr e r : relay_inv tr r -> relay_inv (tr ++ [e]) r.
Proof.
  intros [Hh Hc]. split; intros.
  - eapply hub_ok_grows; [| |by eauto]; [set_solver|done].
  - eapply conn_ok_grows; [| |by eauto]; [set_solver|done].
Qed.

Lemma last_event (tr : list Event) e : e ∈ tr ++ [e].
Proof. apply elem_of_app. right. by apply list_elem_of_singleton. Qed.
#[export] Hint Resolve last_event : core.

(** ** Setters of a connection *)

Lemma conn_ok_phase tr ids p c : conn_ok tr ids c -> conn_ok tr ids (set_phase p c).
Proof. by intros []; split. Qed.

Lemma conn_ok_rx tr ids b c : conn_ok tr ids c -> conn_ok tr ids (set_rx b c).
Proof. by intros []; split. Qed.

Lemma conn_ok_peer tr ids p c :
  conn_ok tr ids c -> (forall j, p = Some j -> exists n, ids !! j = Some (cn_tunnel c, negb (cn_initiator c), n)) ->
  conn_ok tr ids (set_peer p c).
Proof. intros [] H. by split. Qed.

Lemma conn_ok_todo tr ids l c :
  conn_ok tr ids c ->
  (forall dst m, (dst, m) ∈ l -> exists tid b n, ids !! dst = Some (tid, b, n) /\ delivers tr ids tid b m) ->
  conn_ok tr ids (set_todo l c).
Proof. intros [] H. by split. Qed.

Lemma conn_ok_queues tr ids wire inbox c :
  conn_ok tr ids c ->
  (forall m, m ∈ wire ++ inbox -> m ∈ cn_wire c ++ cn_inbox c \/ delivers tr ids (cn_tunnel c) (cn_initiator c) m) ->
  conn_ok tr ids (set_wire wire (set_inbox inbox c)).
Proof. intros [H1 H2 H3 H4] H. split; [done..|]. intros m [Hm|Hm]%H; [by apply H4|done]. Qed.

Lemma peer_handle_ident tr r tid b p :
  relay_inv tr r -> peer_handle (hub r) tid b = Some p -> exists n, idents r !! p = Some (tid, negb b, n).
Proof.
  intros [Hh _] H. unfold peer_handle in H. destruct (hub r !! tid) as [t|] eqn:E; [|done]. simpl in H.
  destruct (Hh _ _ E) as [_ H2 H3]. destruct b.
  - apply H3 in H as (n & fp & _ & _ & ? & _). eauto.
  - apply H2 in H as [? _]. eauto.
Qed.

(** ** The steps keep the invariant *)

Lemma enqueue_inv tr r dst m tid b n :
  relay_inv tr r -> idents r !! dst = Some (tid, b, n) -> delivers tr (idents r) tid b m ->
  relay_inv tr (enqueue dst m r).2.
Proof.
  intros Hr Hd Hm. unfold enqueue. destruct (conns r !! dst) as [d|] eqn:E; [|done].
  destruct (cn_rx d); [|done]. apply upd_conn_inv; [done|done|]. intros c Hc Hok.
  apply idents_lookup in Hc. rewrite Hd in Hc. injection Hc as -> -> ->.
  apply (conn_ok_queues _ _ (cn_wire c) _ c Hok). intros m'. rewrite app_assoc, elem_of_app, list_elem_of_singleton.
  intros [?| ->]; auto.
Qed.

Lemma fresh_ids_unique tr tid o t o' t' :
  fresh_ids tr -> offered tr tid o t -> offered tr tid o' t' -> o' = o /\ t' = t.
Proof.
  intros Hf (n & f & H) (n' & f' & H').
  apply list_elem_of_lookup in H as [i Hi], H' as [j Hj].
  assert (Hrank : forall l k x y, l !! k = Some x -> offer_id x = Some y ->
            exists a b, l = a ++ x :: b /\ length a = k /\ omap offer_id l = omap offer_id a ++ y :: omap offer_id b).
  { intros l k x y Hk Hx. exists (take k l), (drop (S k) l). pose proof (take_drop_middle _ _ _ Hk) as Hl.
    split; [done|]. split; [apply length_take_le; pose proof (lookup_lt_Some _ _ _ Hk); lia|].
    rewrite <- Hl at 1. rewrite omap_app. simpl. by rewrite Hx. }
  destruct (Nat.lt_trichotomy i j) as [Hlt|[->|Hlt]]; [exfalso| |exfalso].
  - destruct (Hrank _ _ _ tid Hj eq_refl) as (a & b & -> & Hl & Heq).
    rewrite lookup_app_l in Hi by lia. unfold fresh_ids in Hf. rewrite Heq in Hf.
    apply NoDup_app in Hf as (_ & Hd & _). apply (Hd tid); [|left].
    apply list_elem_of_omap. exists (Offered n tid o f t). split; [|done]. by eapply list_elem_of_lookup_2.
  - rewrite Hi in Hj. by simplify_eq.
  - destruct (Hrank _ _ _ tid Hi eq_refl) as (a & b & -> & Hl & Heq).
    rewrite lookup_app_l in Hj by lia. unfold fresh_ids in Hf. rewrite Heq in Hf.
    apply NoDup_app in Hf as (_ & Hd & _). apply (Hd tid); [|left].
    apply list_elem_of_omap. exists (Offered n' tid o' f' t'). split; [|done]. by eapply list_elem_of_lookup_2.
Qed.

(** Registering a party keeps the tunnel's record true. *)
Lemma register_ok tr ids tid t i b name fp :
  hub_ok tr ids tid t -> fresh_ids tr -> is_party tr tid b name -> ids !! i = Some (tid, b, name) ->
  Attached i fp ∈ tr -> hub_ok tr ids tid (register i b name fp t).
Proof.
  intros [H1 H2 H3] Hf (o & tg & Ho & Hn) Hi Ha.
  destruct (fresh_ids_unique _ _ _ _ _ _ Hf H1 Ho) as [-> ->]. destruct b; subst name; split; try done.
  - intros j [= <-]. done.
  - intros j [= <-]. by exists (target_name t), fp.
Qed.

Lemma wire_pair_ok tr ids tid t i (b : bool) name peer sends :
  hub_ok tr ids tid t -> ids !! i = Some (tid, b, name) ->
  (if b then to_offerer t else to_answerer t) = Some i -> wire_pair i b tid t = (peer, sends) ->
  (forall j, peer = Some j -> exists n, ids !! j = Some (tid, negb b, n)) /\
  (forall dst m, (dst, m) ∈ sends -> exists tid b n, ids !! dst = Some (tid, b, n) /\ delivers tr ids tid b m).
Proof.
  intros [_ H2 H3] Hi Hmine Hw. unfold wire_pair in Hw.
  destruct (to_offerer t) as [o|] eqn:Eo; [|simplify_eq; split; [done|by intros ?? ?%not_elem_of_nil]].
  destruct (to_answerer t) as [a|] eqn:Ea; [|simplify_eq; split; [done|by intros ?? ?%not_elem_of_nil]].
  destruct (H2 o eq_refl) as [Ho Hao]. destruct (H3 a eq_refl) as (n & fp & Hn & Hfp & Ha & Haa).
  assert (Hoff : delivers tr ids tid true (RVouch (off_vouch tid t))).
  { exists a, n. split; [done|]. unfold off_vouch. rewrite Hn, Hfp. done. }
  assert (Hans : delivers tr ids tid false (RVouch (ans_vouch tid t))) by (by exists o, (offerer_name t)).
  destruct b; simplify_eq; (split; [intros j [= <-]; eauto|]); intros dst m;
    rewrite elem_of_cons, list_elem_of_singleton; intros [[= -> ->]|[= -> ->]]; eauto 6.
Qed.

Lemma attach_inv tr r i fp c :
  relay_inv tr r -> fresh_ids tr -> Attached i fp ∈ tr -> conns r !! i = Some c ->
  relay_inv tr (attach i fp c r).
Proof.
  intros Hr Hf Ha Hc. unfold attach. pose proof (idents_lookup _ _ _ Hc) as Hi. unfold ident in Hi.
  destruct (hub r !! cn_tunnel c) as [t|] eqn:Et.
  2: { apply upd_conn_inv; [done|done|]. intros c' _. apply conn_ok_phase. }
  pose proof (proj1 Hr _ _ Et) as Hh. pose proof (conn_party _ _ _ (proj2 Hr _ _ Hc)) as Hp.
  pose proof (register_ok _ _ _ _ _ _ _ _ Hh Hf Hp Hi Ha) as Hreg.
  destruct (wire_pair _ _ _ _) as [peer sends] eqn:Ew.
  destruct (wire_pair_ok _ _ _ _ _ _ _ _ _ Hreg Hi ltac:(by destruct (cn_initiator c)) Ew) as [Hpeer Hsends].
  apply upd_conn_inv.
  - apply upd_hub_inv; [done|]. intros tid t' Ht'. destruct (decide (tid = cn_tunnel c)) as [->|Hne].
    + rewrite lookup_insert_eq in Ht'. by injection Ht' as <-.
    + rewrite lookup_insert_ne in Ht' by done. by apply Hr.
  - done.
  - intros c' Hc' Hok. change (conns r !! i = Some c') in Hc'. rewrite Hc in Hc'. injection Hc' as <-.
    change (idents (upd_hub _ r)) with (idents r) in *.
    apply conn_ok_phase. apply conn_ok_peer; [by apply conn_ok_todo|done].
Qed.

Lemma todo_one tr ids (peer : option nat) (msg : RelayMsg) tid b :
  (forall p, peer = Some p -> exists n, ids !! p = Some (tid, b, n)) -> delivers tr ids tid b msg ->
  forall dst m, (dst, m) ∈ match peer with Some p => [(p, msg)] | None => [] end ->
  exists tid b n, ids !! dst = Some (tid, b, n) /\ delivers tr ids tid b m.
Proof.
  intros Hp Hd dst m. destruct peer as [p|]; [|by intros ?%not_elem_of_nil].
  intros [= -> ->]%list_elem_of_singleton. destruct (Hp p eq_refl) as [n ?]. by exists tid, b, n.
Qed.

Lemma receive_frame_inv tr r i f c :
  relay_inv tr r -> Binary i f ∈ tr -> conns r !! i = Some c -> relay_inv tr (receive_frame i f c r).
Proof.
  intros Hr Ha Hc. unfold receive_frame.
  set (peer := match cn_peer c with Some _ => _ | None => _ end).
  assert (Hp : forall p, peer = Some p -> exists n, idents r !! p = Some (cn_tunnel c, negb (cn_initiator c), n)).
  { unfold peer. intros p. pose proof (conn_peer _ _ _ (proj2 Hr _ _ Hc)) as Hcp.
    destruct (cn_peer c) as [q|]; [intros [= <-]; eauto|by apply peer_handle_ident with (tr := tr)]. }
  apply upd_conn_inv; [done|done|]. intros c' Hc' Hok. rewrite Hc in Hc'. injection Hc' as <-.
  apply conn_ok_peer; [|exact Hp]. apply conn_ok_todo; [done|]. apply (todo_one _ _ _ _ _ _ Hp).
  exists i, (cn_name c). rewrite negb_involutive. by rewrite (idents_lookup _ _ _ Hc).
Qed.

Lemma send_next_inv tr r i c :
  relay_inv tr r -> conns r !! i = Some c -> relay_inv tr (send_next i c r).
Proof.
  intros Hr Hc. unfold send_next. pose proof (conn_todo _ _ _ (proj2 Hr _ _ Hc)) as Ht.
  destruct (cn_todo c) as [|[dst m] rest]; [done|].
  assert (H1 : relay_inv tr (upd_conn i (set_todo rest) r)).
  { apply upd_conn_inv; [done|done|]. intros c' _ Hok. apply conn_ok_todo; [done|]. intros d m' Hdm. apply Ht. by right. }
  destruct (Ht dst m (list_elem_of_here _ _)) as (tid & b & n & Hd & Hm).
  assert (Hids : idents (upd_conn i (set_todo rest) r) = idents r) by (by apply idents_upd).
  pose proof (enqueue_inv tr (upd_conn i (set_todo rest) r) dst m tid b n H1) as H2. rewrite Hids in H2.
  specialize (H2 Hd Hm). destruct (enqueue _ _ _) as [[|] r1]; [done|]. cbn [snd] in H2.
  destruct m; try done. apply upd_conn_inv; [done|done|]. intros c' _. apply conn_ok_phase.
Qed.

Lemma pump_inv tr r i ok c :
  relay_inv tr r -> conns r !! i = Some c -> relay_inv tr (pump i ok c r).
Proof.
  intros Hr Hc. unfold pump. destruct (cn_inbox c) as [|m rest] eqn:Ei; [done|].
  assert (Hdrop : relay_inv tr (upd_conn i (fun c => set_rx false (set_inbox rest c)) r)).
  { apply upd_conn_inv; [done|done|]. intros c' Hc' Hok. rewrite Hc in Hc'. injection Hc' as <-.
    apply conn_ok_rx, (conn_ok_queues _ _ (cn_wire c) rest c Hok). rewrite Ei. set_solver. }
  assert (Hwrite : relay_inv tr (upd_conn i (fun c => set_wire (cn_wire c ++ [m]) (set_inbox rest c)) r)).
  { apply upd_conn_inv; [done|done|]. intros c' Hc' Hok. rewrite Hc in Hc'. injection Hc' as <-.
    apply (conn_ok_queues _ _ (cn_wire c ++ [m]) rest c Hok). rewrite Ei. set_solver. }
  destruct m; [destruct ok|destruct ok|]; done.
Qed.

Lemma teardown_inv tr r i c :
  relay_inv tr r -> Closed i ∈ tr -> conns r !! i = Some c -> relay_inv tr (teardown i c r).
Proof.
  intros Hr Ha Hc. unfold teardown.
  assert (Hp : forall p, peer_handle (hub r) (cn_tunnel c) (cn_initiator c) = Some p ->
            exists n, idents r !! p = Some (cn_tunnel c, negb (cn_initiator c), n)).
  { intros p. by apply peer_handle_ident with (tr := tr). }
  apply upd_conn_inv.
  - apply upd_hub_inv; [done|]. intros tid t Ht. apply lookup_delete_Some in Ht as [_ Ht]. by apply Hr.
  - done.
  - intros c' Hc' Hok. change (conns r !! i = Some c') in Hc'. rewrite Hc in Hc'. injection Hc' as <-.
    change (idents (upd_hub _ r)) with (idents r) in *.
    apply conn_ok_phase, conn_ok_todo; [done|]. apply (todo_one _ _ _ _ _ _ Hp).
    exists i, (cn_name c). rewrite negb_involutive. by rewrite (idents_lookup _ _ _ Hc).
Qed.

Lemma offer_inv tr r now id o fp t :
  relay_inv tr r -> Offered now id o fp t ∈ tr -> relay_inv tr (upd_hub (offer now id o fp t) r).
Proof.
  intros Hr Ha. apply upd_hub_inv; [done|]. intros tid t' Ht. unfold offer in Ht.
  destruct (decide (tid = id)) as [->|Hne].
  - rewrite lookup_insert_eq in Ht. injection Ht as <-. split; [by exists now, fp|done|done].
  - rewrite lookup_insert_ne in Ht by done. apply map_lookup_filter_Some in Ht as [Ht _]. by apply Hr.
Qed.

Lemma join_inv tr r name tid b :
  relay_inv tr r -> tunnel_role (hub r) tid name = Some (Some b) -> relay_inv tr (join name tid b r).
Proof.
  intros [Hh Hc] Hrole. unfold tunnel_role in Hrole. destruct (hub r !! tid) as [t|] eqn:Et; [|done].
  simpl in Hrole. destruct (Hh _ _ Et) as [Ho _ _].
  assert (Hparty : is_party tr tid b name).
  { exists (offerer_name t), (target_name t). split; [done|].
    destruct (String.eqb_spec (offerer_name t) name) as [He|]; [by simplify_eq|].
    destruct (String.eqb_spec (target_name t) name) as [He|]; by simplify_eq. }
  assert (Hgrow : forall i x, idents r !! i = Some x -> idents (join name tid b r) !! i = Some x).
  { intros i x Hx. unfold idents, join. simpl. rewrite fmap_app. by apply lookup_app_l_Some. }
  split.
  - intros tid' t' Ht'. eapply hub_ok_grows; [done|exact Hgrow|]. by apply Hh.
  - intros i c Hi. unfold join in Hi. simpl in Hi. apply lookup_app_Some in Hi as [Hi|[_ Hi]].
    + eapply conn_ok_grows; [done|exact Hgrow|]. eauto.
    + apply list_lookup_singleton_Some in Hi as [_ <-]. split; [done|done| |]; simpl; intros *; by intros ?%not_elem_of_nil.
Qed.

Lemma relay_step_inv tr r e r' :
  relay_step r e r' -> relay_inv tr r -> fresh_ids (tr ++ [e]) -> relay_inv (tr ++ [e]) r'.
Proof.
  intros Hs Hr%(relay_inv_grows _ e) Hf. destruct Hs.
  - by apply offer_inv.
  - by apply join_inv.
  - by apply attach_inv.
  - by apply receive_frame_inv.
  - by apply send_next_inv.
  - by apply pump_inv.
  - by apply teardown_inv.
Qed.

Lemma reached_inv tr r : reached tr r -> fresh_ids tr -> relay_inv tr r.
Proof.
  induction 1 as [|tr r e r' _ IH Hs]; intros Hf.
  - split; intros ?? H; done.
  - apply (relay_step_inv tr r e r' Hs); [|done]. apply IH. unfold fresh_ids in *. rewrite omap_app in Hf.
    by apply NoDup_app in Hf as [? _].
Qed.

(** ** The executable transitions *)

Lemma relay_exec_step r e r' : relay_exec e r = Some r' -> relay_step r e r'.
Proof.
  destruct e; simpl; intros H.
  - injection H as <-. constructor.
  - destruct (tunnel_role _ _ _) as [[b|]|] eqn:E; simplify_eq. by constructor.
  - destruct (conns r !! i) as [c|] eqn:E; [|done]. simpl in H. destruct (decide (cn_phase c = Joining)) as [Hp|]; simplify_eq/=.
    by constructor.
  - destruct (conns r !! i) as [c|] eqn:E; [|done]. simpl in H. destruct (decide (_ /\ _)) as [[Hp Hl]|]; simplify_eq/=.
    constructor; [done..|]. by apply nil_length_inv.
  - destruct (conns r !! i) as [c|] eqn:E; [|done]. simpl in H. destruct (decide (~ _)) as [Hl|]; simplify_eq/=.
    constructor; [done|]. by intros Hn%length_zero_iff_nil.
  - destruct (conns r !! i) as [c|] eqn:E; [|done]. simpl in H. destruct (decide (_ /\ _)) as [(Hp & Hr & Hl)|]; simplify_eq/=.
    constructor; [done..|]. by intros Hn%length_zero_iff_nil.
  - destruct (conns r !! i) as [c|] eqn:E; [|done]. simpl in H. destruct (decide (_ /\ _)) as [[Hp Hl]|]; simplify_eq/=.
    constructor; [done..|]. by apply nil_length_inv.
Qed.

Lemma relay_run_reached tr es r r' : reached tr r -> relay_run es r = Some r' -> reached (tr ++ es) r'.
Proof.
  revert tr r. induction es as [|e es IH]; intros tr r Hr H; simpl in H.
  { injection H as <-. by rewrite app_nil_r. }
  destruct (relay_exec e r) as [r1|] eqn:E; [|done]. simpl in H.
  rewrite (cons_middle e tr es), app_assoc. eapply IH; [|exact H]. eapply reached_step; [done|]. by apply relay_exec_step.
Qed.

(** ** The properties *)

(** C35. Whatever the interleaving, only the two clients an offer named have a
    connection to its tunnel, and whatever one of them is sent comes from the
    other: every frame was received on a connection of the other party to the
    same tunnel, and every vouch names that party with the certificate
    fingerprint looked up when it attached. The relay cannot be made to cross
    tunnels or to introduce a third client. *)
Theorem relay_confined tr r i c :
  reached tr r -> fresh_ids tr -> conns r !! i = Some c ->
  exists off target, offered tr (cn_tunnel c) off target /\
    cn_name c = (if cn_initiator c then off else target) /\
    forall m, m ∈ cn_wire c ++ cn_inbox c ->
      exists j d, conns r !! j = Some d /\ cn_tunnel d = cn_tunnel c /\ cn_initiator d = negb (cn_initiator c) /\
        cn_name d = (if cn_initiator c then target else off) /\
        match m with
        | RFrame f => Binary j f ∈ tr
        | RVouch v => v_tunnel_id v = cn_tunnel c /\ you_are_initiator v = cn_initiator c /\
                      v_peer_name v = cn_name d /\ Attached j (v_peer_fingerprint v) ∈ tr
        | PeerGone => Closed j ∈ tr
        end.
Proof.
  intros Hr Hf Hi. destruct (reached_inv _ _ Hr Hf) as [_ Hc].
  destruct (conn_party _ _ _ (Hc _ _ Hi)) as (off & target & Ho & Hn). exists off, target.
  split; [done|]. split; [done|]. intros m Hm.
  destruct (conn_got _ _ _ (Hc _ _ Hi) m Hm) as (j & n & Hj & Hmsg).
  unfold idents in Hj. rewrite list_lookup_fmap in Hj. destruct (conns r !! j) as [d|] eqn:Ed; [|done].
  injection Hj as Ht Hb Hnm. exists j, d. split; [done|]. split; [done|]. split; [done|].
  destruct (conn_party _ _ _ (Hc _ _ Ed)) as (off' & target' & Ho' & Hn'). rewrite Ht, Hb in *.
  destruct (fresh_ids_unique _ _ _ _ _ _ Hf Ho Ho') as [-> ->]. split; [by destruct (cn_initiator c)|].
  destruct m; [|done..]. by rewrite Hnm.
Qed.

(** The relay relays: once a side knows its peer and the peer's queue is
    alive, the frame it receives next is appended to that queue and nothing
    else of the peer changes. *)
Theorem relay_forwards r i p c d f :
  conns r !! i = Some c -> cn_phase c = Live -> cn_todo c = [] ->
  match cn_peer c with Some q => Some q | None => peer_handle (hub r) (cn_tunnel c) (cn_initiator c) end = Some p ->
  p <> i -> conns r !! p = Some d -> cn_rx d = true ->
  exists r1 r2, relay_step r (Binary i f) r1 /\ relay_step r1 (Sent i) r2 /\
    conns r2 !! p = Some (set_inbox (cn_inbox d ++ [RFrame f]) d) /\ hub r2 = hub r.
Proof.
  intros Hi Hl Ht Hp Hne Hd Hrx.
  set (c1 := set_peer (Some p) (set_todo [(p, RFrame f)] c)).
  assert (H1 : conns (receive_frame i f c r) !! i = Some c1).
  { unfold receive_frame. rewrite Hp. unfold upd_conn. simpl. by rewrite list_lookup_alter_eq, Hi. }
  exists (receive_frame i f c r), (send_next i c1 (receive_frame i f c r)).
  split; [by constructor|]. split; [by constructor|]. unfold send_next. simpl cn_todo. cbv iota zeta.
  assert (H2 : conns (upd_conn i (set_todo []) (receive_frame i f c r)) !! p = Some d).
  { unfold receive_frame, upd_conn. simpl. by rewrite !list_lookup_alter_ne by done. }
  unfold enqueue. rewrite H2, Hrx. split; [|done]. unfold upd_conn at 1. simpl. rewrite list_lookup_alter_eq.
  unfold upd_conn in H2. simpl in H2. by rewrite H2.
Qed.

(** ** Witnesses *)

Definition meeting : list Event := [
  Offered 0 "t1" "alice" "fp-a" "bob"; Joined "alice" "t1"; Attached 0 "fp-a";
  Joined "bob" "t1"; Attached 1 "fp-b"; Sent 1; Sent 1; Pumped 0 true; Pumped 1 true;
  Binary 0 (as_bytes "hello"); Sent 0; Pumped 1 true].

Definition met : Relay := Eval vm_compute in default (MkRelay ∅ []) (relay_run meeting (MkRelay ∅ [])).

Definition bob_conn : Conn := Eval vm_compute in
  default (MkConn "" false "" Gone None [] [] [] false) (conns met !! 1%nat).
Definition alice_conn : Conn := Eval vm_compute in
  default (MkConn "" false "" Gone None [] [] [] false) (conns met !! 0%nat).

Lemma meeting_reached : reached meeting met.
Proof. apply (relay_run_reached [] meeting (MkRelay ∅ [])); [constructor|]. vm_compute. reflexivity. Qed.

Lemma relay_confined_witness :
  cn_wire bob_conn = [RVouch (MkVouch false "t1" "alice" "fp-a"); RFrame (as_bytes "hello")] /\
  exists off target, offered meeting "t1" off target /\ "bob" = target /\
    forall m, m ∈ cn_wire bob_conn ++ cn_inbox bob_conn ->
      exists j d, conns met !! j = Some d /\ cn_tunnel d = "t1" /\ cn_initiator d = true /\ cn_name d = off /\
        match m with
        | RFrame f => Binary j f ∈ meeting
        | RVouch v => v_tunnel_id v = "t1" /\ you_are_initiator v = false /\ v_peer_name v = cn_name d /\
                      Attached j (v_peer_fingerprint v) ∈ meeting
        | PeerGone => Closed j ∈ meeting
        end.
Proof.
  split; [vm_compute; reflexivity|]. apply (relay_confined meeting met 1 bob_conn).
  - exact meeting_reached.
  - unfold fresh_ids. vm_compute. repeat constructor. apply not_elem_of_nil.
  - vm_compute. reflexivity.
Defined.

Lemma relay_forwards_witness :
  exists r1 r2, relay_step met (Binary 1 (as_bytes "reply")) r1 /\ relay_step r1 (Sent 1) r2 /\
    conns r2 !! 0%nat = Some (set_inbox (cn_inbox alice_conn ++ [RFrame (as_bytes "reply")]) alice_conn) /\
    hub r2 = hub met.
Proof.
  apply (relay_forwards met 1 0 bob_conn alice_conn (as_bytes "reply")); vm_compute; (reflexivity || discriminate).
Defined.
