(* ===== verification/CredStore.v ===== *)
(** Local credentials of the command line client: the passphrase envelope, the
    unlock agent and the scrubbing deletion of [src/src/credstore.rs]. What the
    process inherits (environment variables, home directory, answers typed at
    the terminal) is a record [Environment]; files are paths in the world's
    [fs]. *)
From S2P Require Import Prelude Text Crypto Effects CryptoOps.

(** ** The process environment *)

Record Environment := MkEnv {
  env_var : string -> option string;    (* std::env::var(..).ok() *)
  home_dir : option string;             (* dirs::home_dir() *)
  terminal : string -> option string;   (* rpassword: the answer to a prompt, if a terminal is there *)
}.

(** [Path::join] *)
Definition path_join (base p : string) : string :=
  if starts_with "/" p then p
  else if String.eqb base "" || ends_with "/" base then base +:+ p
  else base +:+ "/" +:+ p.

(** ** File operations the server handlers do not need *)

(** [Path::exists]: never an error. *)
Definition fs_exists (path : string) : M bool :=
  perform (fun w => (bool_decide (is_Some (fs w !! path)), w)).

(** Directories have no state of their own. *)
Definition fs_create_dir_all (path : string) : M (result string unit) :=
  perform (file_op (fun t => Ok (tt, t))).

Definition fs_rename (from to : string) : M (result string unit) :=
  perform (file_op (fun t => match t !! from with
                             | Some b => Ok (tt, <[to := b]> (delete from t))
                             | None => Err "No such file or directory"
                             end)).

(** [set_permissions(path, 0o600)]; modes are not part of the state. *)
Definition fs_chmod (path : string) : M (result string unit) :=
  perform (file_op (fun t => match t !! path with
                             | Some _ => Ok (tt, t)
                             | None => Err "No such file or directory"
                             end)).

(** [?] with a conversion of the error. *)
Definition map_err_m {E E' A} (f : E -> E') (m : M (result E A)) : M (result E' A) :=
  r ← m; mret (map_err f r).

(** ** Reading JSON members *)

Definition member (k : string) (j : Json) : option Json :=
  match j with JObj m => obj_get k m | _ => None end.
Definition str_member (k : string) (j : Json) : option string := member k j ≫= as_str.
Definition as_uint (max : Z) (j : Json) : option Z := match j with JNum z => in_range 0 max z | _ => None end.
Definition uint_member (max : Z) (k : string) (j : Json) : option Z := member k j ≫= as_uint max.

(** A member that may be absent or null, [None] on a value of another type. *)
Definition opt_member {A} (f : Json -> option A) (k : string) (j : Json) : option (option A) :=
  match member k j with
  | None | Some JNull => Some None
  | Some v => Some <$> f v
  end.

Definition u8_max : Z := 255.
Definition u32_max : Z := 2 ^ 32 - 1.

(** ** Sealed profiles *)

Definition DEFAULT_AGENT_TTL_SECS : Z := 900.

Record EncryptedProfile := MkProfile {
  ep_v : Z;
  ep_enc : string;
  ep_salt : string;
  ep_m_cost : Z;
  ep_t_cost : Z;
  ep_p_cost : Z;
  ep_ct : string;
}.

(** Derived [Serialize] and [Deserialize]: members in the order of the fields;
    read in any order, unknown ones ignored. *)
Definition profile_to_json (e : EncryptedProfile) : Json :=
  JObj [("v", JNum (ep_v e)); ("enc", JStr (ep_enc e)); ("salt", JStr (ep_salt e));
        ("m_cost", JNum (ep_m_cost e)); ("t_cost", JNum (ep_t_cost e)); ("p_cost", JNum (ep_p_cost e));
        ("ct", JStr (ep_ct e))].

Definition profile_from_json (j : Json) : option EncryptedProfile :=
  v ← uint_member u8_max "v" j; enc ← str_member "enc" j; salt ← str_member "salt" j;
  m ← uint_member u32_max "m_cost" j; t ← uint_member u32_max "t_cost" j;
  p ← uint_member u32_max "p_cost" j; ct ← str_member "ct" j;
  Some (MkProfile v enc salt m t p ct).

(** The entry the agent caches. *)
Record AgentEntry := MkAgent { ae_kek : string; ae_expires_at : Z }.

Definition agent_to_json (e : AgentEntry) : Json :=
  JObj [("kek", JStr (ae_kek e)); ("expires_at", JNum (ae_expires_at e))].

Definition agent_from_json (j : Json) : option AgentEntry :=
  kek ← str_member "kek" j; t ← uint_member u64_max "expires_at" j; Some (MkAgent kek t).

Section credstore.
Context {P : Primitives} {O : OpsLib}.

Definition seal_profile (passphrase : string) (inner_json : bytes) : M (result CredError EncryptedProfile) :=
  salt ← draw 16;
  match derive_kek passphrase salt ARGON_M_COST ARGON_T_COST ARGON_P_COST with
  | Err e => mret (Err e)
  | Ok kek =>
      nonce ← draw 12;
      mret (ct ← map_err (fun e => CredKdf (crypto_msg e)) (aead_seal nonce inner_json kek);
            Ok (MkProfile 2 "argon2id-aes256gcm" (b64_encode salt) ARGON_M_COST ARGON_T_COST ARGON_P_COST
                  (b64_encode ct)))
  end.

Definition profile_kek (e : EncryptedProfile) (passphrase : string) : result CredError bytes :=
  salt ← ok_or (CredB64 "invalid base64") (b64_decode (ep_salt e));
  derive_kek passphrase salt (ep_m_cost e) (ep_t_cost e) (ep_p_cost e).

Definition open_with_kek (e : EncryptedProfile) (kek : bytes) : result CredError bytes :=
  ct ← ok_or (CredB64 "invalid base64") (b64_decode (ep_ct e));
  map_err (fun _ => CredDecrypt) (aead_open ct kek).

Definition open_with_passphrase (e : EncryptedProfile) (passphrase : string) : result CredError bytes :=
  kek ← profile_kek e passphrase; open_with_kek e kek.

(** ** Where a passphrase comes from *)

(** [var(k).ok().filter(|s| !s.is_empty())] *)
Definition nonempty (o : option string) : option string :=
  match o with Some s => if String.eqb s "" then None else Some s | None => None end.

Definition prompts_suppressed (env : Environment) : bool :=
  match env_var env "BLACKBOOK_NO_PROMPT" with Some v => negb (String.eqb v "") | None => false end.

Definition resolve_passphrase (env : Environment) (explicit : option string) (prompt : string) (confirm : bool) :
    result CredError string :=
  match nonempty explicit with
  | Some p => Ok p
  | None =>
      match nonempty (env_var env "BLACKBOOK_PASSPHRASE") with
      | Some p => Ok p
      | None =>
          if prompts_suppressed env then Err CredNoPassphrase
          else
            p1 ← ok_or CredNoPassphrase (terminal env prompt);
            if String.eqb p1 "" then Err CredNoPassphrase
            else if confirm then
              p2 ← ok_or CredNoPassphrase (terminal env "Confirm passphrase: ");
              if String.eqb p1 p2 then Ok p1 else Err (CredKdf "passphrases did not match")
            else Ok p1
      end
  end.

(** ** Scrubbing deletion *)

(** [f.write_all(buf)] at offset [pos] of an existing file. *)
Definition fs_overwrite (path : string) (pos : nat) (b : bytes) : M (result string unit) :=
  perform (file_op (fun t => match t !! path with
                             | Some old => Ok (tt, <[path := take pos old ++ b ++ drop (pos + length b) old]> t)
                             | None => Err "No such file or directory"
                             end)).

(** [OpenOptions::new().write(true).open(path)] and [flush]/[sync_all]. *)
Definition fs_open_write (path : string) : M (result string unit) := fs_chmod path.
Definition fs_sync (path : string) : M (result string unit) := fs_chmod path.

(** [fs::metadata(path)?.len()] *)
Definition fs_len (path : string) : M (result string nat) :=
  perform (file_op (fun t => match t !! path with
                             | Some b => Ok (length b, t)
                             | None => Err "No such file or directory"
                             end)).

Definition CHUNK : nat := 4096.

(** [while remaining > 0], from offset [pos]; [fuel] bounds the rounds, each of
    which takes at least one byte off [remaining]. *)
Fixpoint scrub_loop (fuel : nat) (path : string) (pos remaining : nat) : M unit :=
  match fuel with
  | 0%nat => mret tt
  | S fuel' =>
      if (remaining =? 0)%nat then mret tt
      else
        buf ← draw CHUNK;
        let n := Nat.min remaining CHUNK in
        r ← fs_overwrite path pos (take n buf);
        match r with
        | Err _ => mret tt
        | Ok _ => scrub_loop fuel' path (pos + n) (remaining - n)
        end
  end.

Definition secure_delete (path : string) : M (result string unit) :=
  meta ← fs_len path;
  _ ← match meta with
      | Ok (S _ as len) =>
          f ← fs_open_write path;
          match f with
          | Ok _ => _ ← scrub_loop len path 0 len; _ ← ignore (fs_sync path); ignore (fs_sync path)
          | Err _ => mret tt
          end
      | _ => mret tt
      end;
  fs_remove path.

(** ** The unlock agent *)

Definition agent_dir (env : Environment) : result CredError string :=
  home ← ok_or (CredIo "no home directory") (home_dir env);
  Ok (path_join (path_join home ".bbk") "agent").

Definition agent_path (env : Environment) (profile : string) : result CredError string :=
  dir ← agent_dir env; Ok (path_join dir profile).

(** Seconds since the epoch; [unwrap_or(0)] before it. *)
Definition now_secs : M Z := now ← utc_now; mret (Z.max 0 (now / 1000000)).

Definition agent_store (env : Environment) (profile : string) (kek : bytes) (ttl_secs : Z) :
    M (result CredError unit) :=
  match agent_dir env with
  | Err e => mret (Err e)
  | Ok dir =>
      _ ←? map_err_m CredIo (fs_create_dir_all dir);
      now ← now_secs;
      let entry := MkAgent (b64_encode kek) ((now + ttl_secs) mod 2 ^ 64) in
      match agent_path env profile with
      | Err e => mret (Err e)
      | Ok path =>
          _ ←? map_err_m CredIo (fs_write path (json_to_vec (agent_to_json entry)));
          _ ← ignore (fs_chmod path);
          mret (Ok tt)
      end
  end.

(** The [Option] function's early [None]s are its [?]s. *)
Definition agent_get (env : Environment) (profile : string) : M (option bytes) :=
  match agent_path env profile with
  | Err _ => mret None
  | Ok path =>
      read ← fs_read path;
      match read with
      | Err _ => mret None
      | Ok b =>
          match json_from_slice b ≫= agent_from_json with
          | None => mret None
          | Some entry =>
              now ← now_secs;
              if ae_expires_at entry <=? now then
                _ ← ignore (secure_delete path);
                mret None
              else
                mret (raw ← b64_decode (ae_kek entry);
                      if (length raw =? 32)%nat then Some raw else None)
          end
      end
  end.

Definition agent_clear (env : Environment) (profile : string) : M bool :=
  match agent_path env profile with
  | Err _ => mret false
  | Ok p =>
      there ← fs_exists p;
      if there : bool then r ← secure_delete p; mret (match r with Ok _ => true | Err _ => false end)
      else mret false
  end.
End credstore.
