(* ===== verification/FileSteps.v ===== *)
(** Reasoning about the local files: normal and failing runs of the file
    operations, the set of paths a program may touch, and the paths below a
    directory. *)
From S2P Require Import Prelude Text Crypto ToyPrimitives Store Effects CryptoOps CredStore.

(** ** Runs of one operation *)

Lemma run_map_err {E E' A} (f : E -> E') (m : M (result E A)) w :
  run (map_err_m f m) w =
    match run m w with
    | (Val r, w') => (Val (map_err f r), w')
    | (Ret r, w') => (Ret r, w')
    | (Raise s e, w') => (Raise s e, w')
    end.
Proof. unfold map_err_m. rewrite run_bind. by destruct (run m w) as [[r|r|s e] w']. Qed.

Lemma run_map_err_Ok {E E' A} (f : E -> E') (m : M (result E A)) w a w' :
  run (map_err_m f m) w = (Val (Ok a), w') -> run m w = (Val (Ok a), w').
Proof. rewrite run_map_err. destruct (run m w) as [[[x|e]|r|s e] w1]; intros; by simplify_eq/=. Qed.

Lemma map_err_Ok {E E' A} (f : E -> E') (r : result E A) a : map_err f r = Ok a -> r = Ok a.
Proof. destruct r; simpl; congruence. Qed.

Lemma run_file_op_Ok {A : Set} (f : gmap string bytes -> result string (A * gmap string bytes)) w a w' :
  run (perform (file_op f)) w = (Val (Ok a), w') ->
  exists t l, f (fs w) = Ok (a, t) /\ w' = set_fs t (set_faults l w).
Proof.
  rewrite run_perform. unfold file_op, next_fault.
  destruct w as [d t c r [|[] l]]; simpl; [|done|]; destruct (f t) as [[x t']|e]; intros H; simplify_eq/=;
    eexists _, _; (split; [done|]); done.
Qed.

Lemma run_file_op_calm {A : Set} (f : gmap string bytes -> result string (A * gmap string bytes)) w :
  faults w = [] ->
  run (perform (file_op f)) w =
    match f (fs w) with Ok (a, t) => (Val (Ok a), set_fs t w) | Err e => (Val (Err e), w) end.
Proof.
  intros Hf. rewrite run_perform. unfold file_op, next_fault. rewrite Hf.
  destruct w as [d t c r l]; simpl in *; subst. by destruct (f t) as [[x t']|e].
Qed.

Lemma set_fs_same w : set_fs (fs w) w = w.
Proof. by destruct w. Qed.

(** *** Success *)

Lemma fs_read_Ok p w b w' : run (fs_read p) w = (Val (Ok b), w') -> fs w !! p = Some b /\ fs w' = fs w.
Proof. intros (t & l & H & ->)%run_file_op_Ok. destruct (fs w !! p) eqn:E; by simplify_eq. Qed.
Lemma fs_write_Ok p b w u w' : run (fs_write p b) w = (Val (Ok u), w') -> fs w' = <[p := b]> (fs w).
Proof. intros (t & l & H & ->)%run_file_op_Ok. by simplify_eq. Qed.
Lemma fs_chmod_Ok p w u w' : run (fs_chmod p) w = (Val (Ok u), w') -> fs w' = fs w.
Proof. intros (t & l & H & ->)%run_file_op_Ok. destruct (fs w !! p) eqn:E; by simplify_eq. Qed.
Lemma fs_create_dir_all_Ok p w u w' : run (fs_create_dir_all p) w = (Val (Ok u), w') -> fs w' = fs w.
Proof. intros (t & l & H & ->)%run_file_op_Ok. by simplify_eq. Qed.
Lemma fs_rename_Ok p q w u w' :
  run (fs_rename p q) w = (Val (Ok u), w') ->
  exists b, fs w !! p = Some b /\ fs w' = <[q := b]> (delete p (fs w)).
Proof. intros (t & l & H & ->)%run_file_op_Ok. destruct (fs w !! p) as [b|] eqn:E; simplify_eq. by exists b. Qed.
Lemma run_fs_exists p w : run (fs_exists p) w = (Val (bool_decide (is_Some (fs w !! p))), w).
Proof. done. Qed.

(** *** Without faults *)

Lemma fs_read_calm p w b : faults w = [] -> fs w !! p = Some b -> run (fs_read p) w = (Val (Ok b), w).
Proof. intros Hf H. unfold fs_read. rewrite run_file_op_calm, H by done. by rewrite set_fs_same. Qed.
Lemma fs_write_calm p b w : faults w = [] -> run (fs_write p b) w = (Val (Ok tt), set_fs (<[p := b]> (fs w)) w).
Proof. intros Hf. unfold fs_write. by rewrite run_file_op_calm. Qed.
Lemma fs_chmod_calm p w : faults w = [] -> is_Some (fs w !! p) -> run (fs_chmod p) w = (Val (Ok tt), w).
Proof. intros Hf [b H]. unfold fs_chmod. rewrite run_file_op_calm, H by done. by rewrite set_fs_same. Qed.
Lemma fs_create_dir_all_calm p w : faults w = [] -> run (fs_create_dir_all p) w = (Val (Ok tt), w).
Proof. intros Hf. unfold fs_create_dir_all. rewrite run_file_op_calm by done. by rewrite set_fs_same. Qed.

(** Open a successful run of file operations into its steps. *)
Ltac fs_inv :=
  repeat (run_inv; repeat match goal with
  | H : run (map_err_m _ _) _ = (Val (Ok _), _) |- _ => apply run_map_err_Ok in H
  | H : run (fs_read _) _ = (Val (Ok _), _) |- _ => apply fs_read_Ok in H as [? ?]
  | H : run (fs_write _ _) _ = (Val (Ok _), _) |- _ => apply fs_write_Ok in H
  | H : run (fs_chmod _) _ = (Val (Ok _), _) |- _ => apply fs_chmod_Ok in H
  | H : run (fs_create_dir_all _) _ = (Val (Ok _), _) |- _ => apply fs_create_dir_all_Ok in H
  | H : run (fs_rename _ _) _ = (Val (Ok _), _) |- _ => apply fs_rename_Ok in H as (? & ? & ?)
  | H : run (fs_exists _) _ = (Val _, _) |- _ => rewrite run_fs_exists in H; simplify_eq
  | H : map_err _ _ = Ok _ |- _ => apply map_err_Ok in H
  end).

(** ** The paths a program may touch *)

(** Files outside [S] keep their contents, and stay absent if they were; the
    database and the clock are not touched, and no fault appears. *)
Definition spare (S : string -> Prop) (w w' : World) : Prop :=
  (forall p, ~ S p -> fs w' !! p = fs w !! p) /\
  db w' = db w /\ clock w' = clock w /\ (faults w = [] -> faults w' = []).

#[export] Instance spare_preorder S : PreOrder (spare S).
Proof.
  split; [by split|]. intros x y z (H1 & H2 & H3 & H4) (G1 & G2 & G3 & G4).
  split; [|split; [congruence|split; [congruence|auto]]]. intros p Hp. by rewrite G1, H1.
Qed.

Definition touches (S : string -> Prop) {A} (m : M A) : Prop := Steps (spare S) m.

Lemma touches_run S {A} (m : M A) w p : touches S m -> ~ S p -> fs (run m w).2 !! p = fs w !! p.
Proof. intros Hm Hp. exact (proj1 (Steps_run (spare S) m w Hm) p Hp). Qed.

Lemma touches_run_rest S {A} (m : M A) w : touches S m ->
  db (run m w).2 = db w /\ clock (run m w).2 = clock w /\ (faults w = [] -> faults (run m w).2 = []).
Proof. intros Hm. exact (proj2 (Steps_run (spare S) m w Hm)). Qed.

(** A program that touches nothing leaves the files as they are. *)
Lemma touches_none_run {A} (m : M A) w : touches (fun _ => False) m -> fs (run m w).2 = fs w.
Proof. intros Hm. apply map_eq. intros p. apply (touches_run (fun _ => False)); [done|tauto]. Qed.

Lemma touches_mono (S T : string -> Prop) {A} (m : M A) : (forall p, S p -> T p) -> touches S m -> touches T m.
Proof. intros H. apply Steps_impl. intros w w' [Hs Hr]. split; [|done]. auto. Qed.

Section touches.
Context (S : string -> Prop).

Lemma touches_bind {A B} (m : M A) (f : A -> M B) : touches S m -> (forall a, touches S (f a)) -> touches S (m ≫= f).
Proof. apply Steps_bind. Qed.
Lemma touches_ret {A} (a : A) : touches S (mret a).
Proof. done. Qed.
Lemma touches_liftR {A} (o : outcome A) : touches S (Done o).
Proof. done. Qed.
Lemma touches_try {E A B} (m : M (result E A)) (f : A -> M (result E B)) :
  touches S m -> (forall a, touches S (f a)) -> touches S (try_bind m f).
Proof. intros Hm Hf. apply touches_bind; [done|]. by intros [a|e]; [apply Hf|]. Qed.
Lemma touches_map_err {E E' A} (f : E -> E') (m : M (result E A)) : touches S m -> touches S (map_err_m f m).
Proof. intros Hm. by apply touches_bind. Qed.
Lemma touches_ignore {A} (m : M A) : touches S m -> touches S (ignore m).
Proof. intros Hm. by apply touches_bind. Qed.

Lemma touches_act {X : Set} {A} (act : World -> X * World) (k : X -> M A) :
  (forall w, spare S w (act w).2) -> (forall x, touches S (k x)) -> touches S (Act act k).
Proof. intros H Hk. by split. Qed.

Lemma spare_file_op {A : Set} (f : gmap string bytes -> result string (A * gmap string bytes)) w :
  (forall t a t' p, f t = Ok (a, t') -> ~ S p -> t' !! p = t !! p) -> spare S w (file_op f w).2.
Proof.
  intros H. unfold file_op, next_fault. destruct w as [d t c r [|[] l]]; simpl; [|by split|];
    (destruct (f t) as [[a t']|e] eqn:E; simpl; [|by split]);
    (split; [intros p Hp; by apply (H t a)|by split]).
Qed.

Lemma touches_file_op {A : Set} (f : gmap string bytes -> result string (A * gmap string bytes)) :
  (forall t a t' p, f t = Ok (a, t') -> ~ S p -> t' !! p = t !! p) -> touches S (perform (file_op f)).
Proof. intros H. split; [|done]. intros w. by apply spare_file_op. Qed.

Lemma touches_fs_read p : touches S (fs_read p).
Proof. apply touches_file_op. intros t a t' q H _. destruct (t !! p); by simplify_eq. Qed.
Lemma touches_fs_len p : touches S (fs_len p).
Proof. apply touches_file_op. intros t a t' q H _. destruct (t !! p); by simplify_eq. Qed.
Lemma touches_fs_exists p : touches S (fs_exists p).
Proof. split; [|done]. by intros w. Qed.
Lemma touches_fs_chmod p : touches S (fs_chmod p).
Proof. apply touches_file_op. intros t a t' q H _. destruct (t !! p); by simplify_eq. Qed.
Lemma touches_fs_create_dir_all p : touches S (fs_create_dir_all p).
Proof. apply touches_file_op. intros t a t' q H _. by simplify_eq. Qed.
Lemma touches_draw `{Primitives} n : touches S (draw n).
Proof. split; [|done]. by intros w. Qed.
Lemma touches_utc_now : touches S utc_now.
Proof. split; [|done]. by intros w. Qed.
Lemma touches_fs_write p b : S p -> touches S (fs_write p b).
Proof.
  intros Hp. apply touches_file_op. intros t a t' q H Hq. simplify_eq. apply lookup_insert_ne. congruence.
Qed.
Lemma touches_fs_overwrite p n b : S p -> touches S (fs_overwrite p n b).
Proof.
  intros Hp. apply touches_file_op. intros t a t' q H Hq. destruct (t !! p); simplify_eq.
  apply lookup_insert_ne. congruence.
Qed.
Lemma touches_fs_remove p : S p -> touches S (fs_remove p).
Proof.
  intros Hp. apply touches_file_op. intros t a t' q H Hq. destruct (t !! p); simplify_eq.
  apply lookup_delete_ne. congruence.
Qed.
Lemma touches_fs_rename p p' : S p -> S p' -> touches S (fs_rename p p').
Proof.
  intros Hp Hp'. apply touches_file_op. intros t a t' q H Hq. destruct (t !! p); simplify_eq.
  rewrite lookup_insert_ne, lookup_delete_ne; congruence.
Qed.
End touches.

Create HintDb fstouch.
#[export] Hint Resolve touches_ret touches_liftR touches_fs_read touches_fs_len touches_fs_exists touches_fs_chmod
  touches_fs_create_dir_all touches_draw touches_utc_now touches_fs_write touches_fs_overwrite
  touches_fs_remove touches_fs_rename : fstouch.

(** Follow a program to its file operations. *)
Ltac touching :=
  repeat match goal with
  | |- touches _ (mbind _ _) => apply touches_bind; [|intros ?]
  | |- touches _ (_ ≫= _) => apply touches_bind; [|intros ?]
  | |- touches _ (try_bind _ _) => apply touches_try; [|intros ?]
  | |- touches _ (map_err_m _ _) => apply touches_map_err
  | |- touches _ (ignore _) => apply touches_ignore
  | |- touches _ (match ?x with _ => _ end) => destruct x
  | |- touches _ _ => solve [auto 6 with fstouch]
  end.

(** ** Scrubbing deletion *)

Lemma touches_scrub `{Primitives} (S : string -> Prop) fuel path pos n : S path -> touches S (scrub_loop fuel path pos n).
Proof.
  intros Hp. revert pos n. induction fuel as [|fuel IH]; intros pos n; cbn [scrub_loop]; [done|].
  touching.
Qed.

Lemma touches_secure_delete `{Primitives} (S : string -> Prop) path : S path -> touches S (secure_delete path).
Proof.
  intros Hp. unfold secure_delete, fs_open_write, fs_sync. touching. by apply touches_scrub.
Qed.
#[export] Hint Resolve touches_secure_delete : fstouch.

(** What [n] bytes of random overwriting leave, from draw [i] on. *)
Fixpoint noise `{Primitives} (fuel i n : nat) : bytes :=
  match fuel with
  | 0%nat => []
  | S fuel' =>
      if (n =? 0)%nat then []
      else take (Nat.min n CHUNK) (rand_bytes i CHUNK) ++ noise fuel' (S i) (n - Nat.min n CHUNK)
  end.

Lemma noise_length `{PrimitiveLaws} fuel i n : (n <= fuel)%nat -> length (noise fuel i n) = n.
Proof.
  revert i n. induction fuel as [|fuel IH]; intros i n Hn; cbn [noise]; [simpl; lia|].
  destruct (Nat.eqb_spec n 0) as [->|Hz]; [done|].
  assert (0 < CHUNK)%nat by (apply Nat.ltb_lt; reflexivity).
  rewrite length_app, length_take, rand_length, IH by lia. lia.
Qed.

(** With as much fuel as bytes the loop runs to its end: it leaves nothing of
    the old contents from [pos] on. *)
Lemma scrub_loop_run `{PrimitiveLaws} fuel path pos n old w :
  faults w = [] -> fs w !! path = Some old -> length old = (pos + n)%nat -> (n <= fuel)%nat ->
  exists w', run (scrub_loop fuel path pos n) w = (Val tt, w') /\ faults w' = [] /\ clock w' = clock w /\
    fs w' = <[path := take pos old ++ noise fuel (rng w) n]> (fs w).
Proof.
  revert pos n old w. induction fuel as [|fuel IH]; intros pos n old w Hf Hp Hlen Hn; cbn [scrub_loop noise].
  { exists w. assert (n = 0)%nat as -> by lia. repeat split; try done.
    rewrite app_nil_r, take_ge by lia. by rewrite insert_id. }
  destruct (Nat.eqb_spec n 0) as [->|Hz].
  { exists w. repeat split; try done. rewrite app_nil_r, take_ge by lia. by rewrite insert_id. }
  assert (0 < CHUNK)%nat by (apply Nat.ltb_lt; reflexivity).
  set (k := Nat.min n CHUNK). set (b := take k (rand_bytes (rng w) CHUNK)).
  assert (Hb : length b = k) by (unfold b; rewrite length_take, rand_length; lia).
  set (old' := take pos old ++ b ++ drop (pos + length b) old).
  set (w1 := set_fs (<[path := old']> (fs w)) (set_rng (S (rng w)) w)).
  destruct (IH (pos + k)%nat (n - k)%nat old' w1) as (w' & Hr & Hf' & Hc & Hfs).
  - done.
  - apply lookup_insert_eq.
  - unfold old'. rewrite !length_app, length_take, length_drop, Hb. lia.
  - lia.
  - exists w'. split; [|split; [done|split; [done|]]].
    + rewrite run_bind, run_draw. cbv beta iota zeta.
      rewrite run_bind. unfold fs_overwrite. rewrite run_file_op_calm by done.
      cbn [fs set_rng]. rewrite Hp. exact Hr.
    + rewrite Hfs. cbn [fs w1 set_fs rng set_rng]. unfold w1. cbn [fs set_fs rng set_rng]. rewrite insert_insert_eq. f_equal.
      assert (Ht : take (pos + k) old' = take pos old ++ b).
      { unfold old'. rewrite app_assoc. apply take_app_length'. rewrite length_app, length_take, Hb. lia. }
      by rewrite Ht, <- app_assoc.
Qed.

Lemma secure_delete_run `{PrimitiveLaws} path w :
  faults w = [] -> is_Some (fs w !! path) ->
  exists w', run (secure_delete path) w = (Val (Ok tt), w') /\ faults w' = [] /\ clock w' = clock w /\
    fs w' = delete path (fs w).
Proof.
  intros Hf [old Hp]. unfold secure_delete.
  assert (Hrm : forall w1 b, faults w1 = [] -> fs w1 = <[path := b]> (fs w) ->
    run (fs_remove path) w1 = (Val (Ok tt), set_fs (delete path (fs w)) w1)).
  { intros w1 b Hf1 Hfs. unfold fs_remove. rewrite run_file_op_calm, Hfs, lookup_insert_eq by done.
    by rewrite delete_insert_eq. }
  rewrite run_bind. unfold fs_len at 1. rewrite run_file_op_calm, Hp, set_fs_same by done.
  destruct old as [|x old]; cbn [length].
  - rewrite run_bind, run_ret. exists (set_fs (delete path (fs w)) w). split; [|done].
    apply (Hrm w []); [done|]. by rewrite insert_id.
  - destruct (scrub_loop_run (S (length old)) path 0 (S (length old)) (x :: old) w) as (w1 & Hr & Hf1 & Hc1 & Hfs1);
      [done..|lia|].
    assert (Hs : run (ignore (fs_sync path)) w1 = (Val tt, w1)).
    { unfold ignore, fs_sync. rewrite run_bind, fs_chmod_calm; [done|done|]. rewrite Hfs1, lookup_insert_eq. by eexists. }
    exists (set_fs (delete path (fs w)) w1). split; [|done].
    eapply run_then.
    + unfold fs_open_write. rewrite run_bind, fs_chmod_calm by (done || (rewrite Hp; by eexists)).
      eapply run_then; [exact Hr|]. eapply run_then; [exact Hs|]. exact Hs.
    + by eapply Hrm.
Qed.

(** ** Paths below a directory *)

Lemma app_inj_l (a b c : string) : a +:+ b = a +:+ c -> b = c.
Proof.
  induction a as [|x a IH]; [done|].
  change (String x (a +:+ b) = String x (a +:+ c) -> b = c). intros [= H]. by apply IH.
Qed.

Lemma path_join_inj dir a b :
  starts_with "/" a = false -> starts_with "/" b = false -> path_join dir a = path_join dir b -> a = b.
Proof.
  intros Ha Hb. unfold path_join. rewrite Ha, Hb.
  destruct (String.eqb dir "" || ends_with "/" dir); intros H; [by apply app_inj_l in H|].
  apply app_inj_l in H. by apply app_inj_l in H.
Qed.

(** ** The scrubbing loop ends *)

(** Fuel beyond the bytes left makes no difference, whatever fails. *)
Lemma scrub_loop_fuel `{Primitives} fuel fuel' path pos n w :
  (n <= fuel)%nat -> (n <= fuel')%nat -> run (scrub_loop fuel path pos n) w = run (scrub_loop fuel' path pos n) w.
Proof.
  assert (0 < CHUNK)%nat by (apply Nat.ltb_lt; reflexivity).
  revert fuel' pos n w. induction fuel as [|fuel IH]; intros fuel' pos n w Hn Hn'; destruct fuel' as [|fuel'];
    cbn [scrub_loop]; try (replace n with 0%nat by lia; done).
  destruct (Nat.eqb_spec n 0); [done|]. rewrite !run_bind, run_draw. cbv zeta. rewrite !run_bind.
  destruct (run (fs_overwrite _ _ _) _) as [[[[]|e]|r|s e] w1]; try done. apply IH; lia.
Qed.

(** A round takes a whole chunk, but for the last. *)
Lemma scrub_loop_rounds `{Primitives} fuel path pos n w :
  exists r, rng (run (scrub_loop fuel path pos n) w).2 = (rng w + r)%nat /\ Z.of_nat r * 4096 < Z.of_nat n + 4096.
Proof.
  assert (Hc : Z.of_nat CHUNK = 4096) by reflexivity.
  revert pos n w. induction fuel as [|fuel IH]; intros pos n w; cbn [scrub_loop].
  { exists 0%nat. split; [simpl; lia|lia]. }
  destruct (Nat.eqb_spec n 0) as [->|Hz]; [exists 0%nat; split; [simpl; lia|lia]|].
  rewrite run_bind, run_draw. cbv zeta. rewrite run_bind.
  assert (Hr : forall b, rng (run (fs_overwrite path pos b) (set_rng (S (rng w)) w)).2 = S (rng w)).
  { intros b. unfold fs_overwrite. rewrite run_perform. unfold file_op, next_fault.
    destruct w as [d t c r [|[] l]]; simpl; try done; by destruct (t !! path). }
  specialize (Hr (take (Nat.min n CHUNK) (rand_bytes (rng w) CHUNK))).
  destruct (run (fs_overwrite _ _ _) _) as [[[u|e]|r|s e] w1]; cbn [fst snd] in *.
  1: destruct (IH (pos + Nat.min n CHUNK)%nat (n - Nat.min n CHUNK)%nat w1) as (r & Hr1 & Hb); exists (S r); split; lia.
  all: exists 1%nat; cbn; split; lia.
Qed.

(** One write: it fails and changes nothing, or it replaces its bytes. *)
Lemma run_overwrite path pos b w old : fs w !! path = Some old ->
  (exists e w', run (fs_overwrite path pos b) w = (Val (Err e), w') /\ fs w' = fs w /\ faults w <> []) \/
  (exists w', run (fs_overwrite path pos b) w = (Val (Ok tt), w') /\
     fs w' = <[path := take pos old ++ b ++ drop (pos + length b) old]> (fs w) /\ rng w' = rng w /\
     (faults w = [] -> faults w' = [])).
Proof.
  intros Hp. unfold fs_overwrite. rewrite run_perform. unfold file_op, next_fault.
  destruct w as [d t c r [|[] l]]; cbn in *; rewrite ?Hp.
  - right. by eexists.
  - left. by eexists _, _.
  - right. eexists. by repeat split.
Qed.

(** Whatever fails, the loop returns, and has overwritten a part of the bytes
    from [pos] on: the first failure ends it. *)
Lemma scrub_loop_part `{PrimitiveLaws} fuel path pos n old w :
  fs w !! path = Some old -> length old = (pos + n)%nat -> (n <= fuel)%nat ->
  exists m w', (m <= n)%nat /\ run (scrub_loop fuel path pos n) w = (Val tt, w') /\ (faults w = [] -> m = n) /\
    fs w' = <[path := take pos old ++ take m (noise fuel (rng w) n) ++ drop (pos + m) old]> (fs w).
Proof.
  assert (Hnone : forall w1, fs w1 = fs w -> fs w !! path = Some old ->
    fs w1 = <[path := take pos old ++ take 0 (noise fuel (rng w) n) ++ drop (pos + 0) old]> (fs w)).
  { intros w1 Hw Hp. rewrite take_0, Nat.add_0_r. cbn [app]. by rewrite take_drop, insert_id. }
  revert pos n old w Hnone. induction fuel as [|fuel IH]; intros pos n old w Hnone Hp Hlen Hn; cbn [scrub_loop].
  { exists 0%nat, w. split; [lia|]. split; [done|]. split; [lia|]. by apply Hnone. }
  destruct (Nat.eqb_spec n 0) as [->|Hz].
  { exists 0%nat, w. split; [lia|]. split; [done|]. split; [done|]. by apply Hnone. }
  assert (0 < CHUNK)%nat by (apply Nat.ltb_lt; reflexivity).
  rewrite run_bind, run_draw. cbv zeta. rewrite run_bind.
  set (k := Nat.min n CHUNK) in *. set (b := take k (rand_bytes (rng w) CHUNK)).
  assert (Hb : length b = k) by (unfold b; rewrite length_take, rand_length; lia).
  destruct (run_overwrite path pos b (set_rng (S (rng w)) w) old Hp) as [(e & w1 & -> & Hf & Hbad)|(w1 & -> & Hf & Hr & Hok)].
  { exists 0%nat, w1. split; [lia|]. split; [done|]. split; [intros Hq; by destruct (Hbad Hq)|]. by apply Hnone. }
  set (old' := take pos old ++ b ++ drop (pos + length b) old) in *. cbn [fs rng set_rng] in Hf, Hr.
  destruct (IH (pos + k)%nat (n - k)%nat old' w1) as (m & w' & Hm & Hrun & Hall & Hfs).
  - intros w2 Hw2 Hp2. rewrite take_0, Nat.add_0_r. cbn [app]. by rewrite take_drop, insert_id.
  - rewrite Hf. apply lookup_insert_eq.
  - unfold old'. rewrite !length_app, length_take, length_drop, Hb. lia.
  - lia.
  - exists (k + m)%nat, w'. split; [lia|]. split; [exact Hrun|]. split.
    { intros Hq. rewrite Hall by by apply Hok. lia. }
    rewrite Hfs, Hf, insert_insert_eq, Hr. f_equal. cbn [noise]. rewrite (proj2 (Nat.eqb_neq n 0) Hz). fold k b.
    assert (Ht : take (pos + k) old' = take pos old ++ b).
    { unfold old'. rewrite app_assoc. apply take_app_length'. rewrite length_app, length_take, Hb. lia. }
    rewrite Ht, <- app_assoc. f_equal. rewrite take_app, Hb. replace (k + m - k)%nat with m by lia.
    rewrite (take_ge b) by lia. rewrite <- app_assoc. do 2 f_equal. unfold old'. rewrite drop_app, length_take.
    rewrite (drop_ge (take pos old)) by (rewrite length_take; lia). cbn [app]. rewrite drop_app, Hb.
    rewrite (drop_ge b) by lia. cbn [app]. rewrite drop_drop. f_equal. lia.
Qed.

(** C40. Scrubbing a file ends, whatever I/O fails. Fuel beyond the file's length
    changes nothing, and the loop takes at most one round for every 4096 bytes
    begun. What it leaves is the old contents with a beginning of them replaced
    by bytes that depend on the random draws and the length alone: the whole
    contents when no I/O fails, what had been written when a write failed. *)
Theorem scrub_terminates {P : Primitives} {L : PrimitiveLaws P} path old w :
  fs w !! path = Some old ->
  let scrub fuel w := run (scrub_loop fuel path 0 (length old)) w in
  (forall fuel, (length old <= fuel)%nat -> scrub fuel w = scrub (length old) w) /\
  (exists r, rng (scrub (length old) w).2 = (rng w + r)%nat /\ Z.of_nat r * 4096 < Z.of_nat (length old) + 4096) /\
  exists b, length b = length old /\
    forall old' w', rng w' = rng w -> fs w' !! path = Some old' -> length old' = length old ->
      (scrub (length old) w').1 = Val tt /\
      exists m, (m <= length old)%nat /\ (faults w' = [] -> m = length old) /\
        fs (scrub (length old) w').2 = <[path := take m b ++ drop m old']> (fs w').
Proof.
  intros Hp scrub. subst scrub. cbv beta. split; [|split].
  - intros fuel Hf. by apply scrub_loop_fuel.
  - apply scrub_loop_rounds.
  - exists (noise (length old) (rng w) (length old)). split; [by apply noise_length|].
    intros old' w' Hr Hp' Hl.
    destruct (scrub_loop_part (length old) path 0 (length old) old' w') as (m & w1 & Hm & Hrun & Hall & Hfs); [done..|].
    rewrite Hrun, <- Hr. split; [done|]. by exists m.
Qed.

Lemma scrub_terminates_witness :
  let w := MkWorld empty_db {["a" := [Byte.x01; Byte.x02]]} 0 0 [] in
  run (scrub_loop 9 "a" 0 2) w = run (scrub_loop 2 "a" 0 2) w /\
  exists b, length b = 2%nat /\ fs (run (scrub_loop 2 "a" 0 2) w).2 = <["a" := b]> (fs w).
Proof.
  intros w. destruct (scrub_terminates "a" [Byte.x01; Byte.x02] w eq_refl) as (H1 & _ & b & Hb & H). split.
  - exact (H1 9%nat ltac:(cbn [length]; lia)).
  - destruct (H [Byte.x01; Byte.x02] w eq_refl eq_refl eq_refl) as (_ & m & _ & Hm & Hfs). exists b. split; [exact Hb|].
    rewrite Hm in Hfs by reflexivity. cbn [length] in Hfs, Hb. rewrite take_ge in Hfs by lia. cbn [drop] in Hfs.
    by rewrite app_nil_r in Hfs.
Defined.
