(* ===== verification/Persistence.v ===== *)
(** The data volume of [src/src/persistence.rs]: the outermost data-encryption
    key (DEK) and its metadata, the master key sealed under it, the certificate
    authority and the first-run bundle. The plaintext DEK is derived at every
    boot by a provider; [resolve_dek] also migrates the old layout. The TLS
    library is the parameter class [CaLib], serde's reading of the master key
    the class [KeyCodec]. *)
From S2P Require Import Prelude Text Crypto Effects CryptoOps ServerBase CredStore.

Definition DEK_LEN : nat := 32.
Definition MODE_AUTO : Z := 0.
Definition MODE_PASSPHRASE : Z := 1.
Definition MIN_PASSPHRASE_LEN : nat := 16.

Inductive PersistenceError :=
| PeIo (msg : string)
| PeCrypto (e : CryptoError)
| PeTls (msg : string)
| PeJson (msg : string)
| PeNoProvider
| PeProviderMismatch (existing requested : string)
| PeKeyfile (path detail : string)
| PePassphraseTooShort
| PeMigration (msg : string)
| PeCorrupt (what detail : string).

(** [DataPaths::under] *)
Record DataPaths := MkPaths {
  dp_dir : string;
  dp_dek_meta : string;
  dp_dek : string;
  dp_mode : string;
  dp_master_key : string;
  dp_admin_token : string;
  dp_admin_cert : string;
  dp_admin_key : string;
  dp_admin_bundle : string;
  dp_ca_cert : string;
  dp_ca_key : string;
  dp_server_cert : string;
  dp_server_key : string;
  dp_contents_dir : string;
}.

Definition DataPaths_under (dir : string) : DataPaths :=
  {| dp_dir := dir;
     dp_dek_meta := path_join dir "dek.meta";
     dp_dek := path_join dir "dek";
     dp_mode := path_join dir "dek.mode";
     dp_master_key := path_join dir "master.bbkey";
     dp_admin_token := path_join dir "admin-token";
     dp_admin_cert := path_join dir "admin-cert.pem";
     dp_admin_key := path_join dir "admin-key.pem";
     dp_admin_bundle := path_join dir "admin-bundle.json";
     dp_ca_cert := path_join dir "ca.crt";
     dp_ca_key := path_join dir "ca.key";
     dp_server_cert := path_join dir "server.crt";
     dp_server_key := path_join dir "server.key";
     dp_contents_dir := path_join dir "contents" |}.

(** [master_key.with_extension("bbkey.rekey")] and ["bbkey.migrating"]: the
    master key's own extension is [bbkey]. *)
Definition rekey_tmp (p : DataPaths) : string := dp_master_key p +:+ ".rekey".
Definition migrating_tmp (p : DataPaths) : string := dp_master_key p +:+ ".migrating".

(** ** DEK providers *)

Inductive DekProvider :=
| ProvPassphrase (pass : string)
| ProvKeyfile (path : string).

Definition kind (p : DekProvider) : string :=
  match p with ProvPassphrase _ => "passphrase" | ProvKeyfile _ => "keyfile" end.

(** [trim_end_matches(['\n', '\r'])] *)
Definition is_newline (a : Ascii.ascii) : bool := Ascii.eqb a "010" || Ascii.eqb a "013".
Fixpoint trim_newlines (s : string) : string :=
  match s with
  | EmptyString => EmptyString
  | String a s' =>
      match trim_newlines s' with
      | EmptyString => if is_newline a then EmptyString else String a EmptyString
      | t => String a t
      end
  end.

Definition from_env (env : Environment) : M (result PersistenceError DekProvider) :=
  passphrase ← match nonempty (env_var env "BLACKBOOK_MASTER_PASSPHRASE") with
               | Some p => mret (Some p)
               | None =>
                   match env_var env "BLACKBOOK_MASTER_PASSPHRASE_FILE" with
                   | None => mret None
                   | Some f =>
                       r ← fs_read f;
                       mret (b ← ok r; s ← from_utf8 b; nonempty (Some (trim_newlines s)))
                   end
               end;
  match passphrase with
  | Some p =>
      if (String.length p <? MIN_PASSPHRASE_LEN)%nat then mret (Err PePassphraseTooShort)
      else mret (Ok (ProvPassphrase p))
  | None =>
      match nonempty (env_var env "BLACKBOOK_MASTER_KEYFILE") with
      | Some kf => mret (Ok (ProvKeyfile kf))
      | None => mret (Err PeNoProvider)
      end
  end.

Record DekMeta := MkMeta {
  dm_v : Z;
  dm_provider : string;
  dm_salt : option string;
  dm_m_cost : option Z;
  dm_t_cost : option Z;
  dm_p_cost : option Z;
  dm_wrapped_dek : option string;
}.

(** Derived serde: absent options are skipped. *)
Definition opt_entry (k : string) (o : option Json) : JsonMap :=
  match o with Some j => [(k, j)] | None => [] end.

Definition meta_to_json (m : DekMeta) : Json :=
  JObj ([("v", JNum (dm_v m)); ("provider", JStr (dm_provider m))] ++ opt_entry "salt" (JStr <$> dm_salt m)
        ++ opt_entry "m_cost" (JNum <$> dm_m_cost m) ++ opt_entry "t_cost" (JNum <$> dm_t_cost m)
        ++ opt_entry "p_cost" (JNum <$> dm_p_cost m) ++ opt_entry "wrapped_dek" (JStr <$> dm_wrapped_dek m)).

Definition meta_from_json (j : Json) : option DekMeta :=
  v ← uint_member u8_max "v" j; provider ← str_member "provider" j;
  salt ← opt_member as_str "salt" j; m ← opt_member (as_uint u32_max) "m_cost" j;
  t ← opt_member (as_uint u32_max) "t_cost" j; p ← opt_member (as_uint u32_max) "p_cost" j;
  w ← opt_member as_str "wrapped_dek" j;
  Some (MkMeta v provider salt m t p w).

(** serde_json's reading of a [BlackbookKey]. *)
Class KeyCodec := { key_from_json : bytes -> option BlackbookKey }.

(** rcgen behind [src/src/tls.rs]: certificate and key as PEM text. *)
Class CaLib := {
  ca_generate : bytes -> result string (string * string);           (* randomness *)
  ca_from_pem : string -> string -> result string (string * string);
  ca_issue_server : string * string -> list string -> bytes -> result string (string * string);
}.

Section volume.
Context {P : Primitives} {O : OpsLib} {PF : Platform} {KC : KeyCodec}.

Definition write_secret (path : string) (contents : bytes) : M (result PersistenceError unit) :=
  _ ←? map_err_m PeIo (fs_write path contents);
  map_err_m PeIo (fs_chmod path).

(** ["blackbook-dek-keyfile/v1\0"] *)
Definition KEYFILE_TAG : bytes := as_bytes "blackbook-dek-keyfile/v1" ++ [byte_of_Z 0].

Definition keyfile_kek (path : string) : M (result PersistenceError bytes) :=
  b ←? map_err_m (fun e => PeKeyfile path ("cannot read keyfile: " +:+ e
         +:+ " (it must exist and be readable, and should live OUTSIDE the data volume — e.g. a Docker secret)"))
         (fs_read path);
  match b with
  | [] => mret (Err (PeKeyfile path "keyfile is empty"))
  | _ => mret (Ok (sha3_256 (KEYFILE_TAG ++ b)))
  end.

Definition argon2_err (e : CredError) : PersistenceError := PeMigration ("argon2: " +:+ cred_msg e).

(** A fresh DEK and its metadata; nothing is written. *)
Definition init_dek (provider : DekProvider) : M (result PersistenceError (bytes * DekMeta)) :=
  match provider with
  | ProvPassphrase pass =>
      salt ← draw 16;
      mret ('(dek, m, t, p) ← map_err argon2_err (argon2_key pass salt);
            Ok (dek, MkMeta 1 "passphrase" (Some (b64_encode salt)) (Some m) (Some t) (Some p) None))
  | ProvKeyfile path =>
      kek ←? keyfile_kek path;
      dek ← draw DEK_LEN;
      nonce ← draw 12;
      mret (wrapped ← map_err PeCrypto (aead_seal nonce dek kek);
            Ok (dek, MkMeta 1 "keyfile" None None None None (Some (b64_encode wrapped))))
  end.

Definition reconstruct_dek (provider : DekProvider) (meta : DekMeta) : M (result PersistenceError bytes) :=
  if negb (String.eqb (dm_provider meta) (kind provider))
  then mret (Err (PeProviderMismatch (dm_provider meta) (kind provider)))
  else
    match provider with
    | ProvPassphrase pass =>
        mret (s ← ok_or (PeCorrupt "dek.meta" "passphrase provider missing salt") (dm_salt meta);
              salt ← ok_or (PeCorrupt "dek.meta" "salt b64") (b64_decode s);
              map_err argon2_err
                (argon2_key_with pass salt (default 0 (dm_m_cost meta)) (default 0 (dm_t_cost meta))
                   (default 0 (dm_p_cost meta))))
    | ProvKeyfile path =>
        kek ←? keyfile_kek path;
        mret (w ← ok_or (PeCorrupt "dek.meta" "keyfile provider missing wrapped_dek") (dm_wrapped_dek meta);
              wrapped ← ok_or (PeCorrupt "dek.meta" "wrapped_dek b64") (b64_decode w);
              plain ← map_err (fun _ => PeKeyfile path "wrong keyfile — wrapped DEK did not unwrap")
                        (aead_open wrapped kek);
              if negb (length plain =? DEK_LEN)%nat then Err (PeCorrupt "wrapped_dek" "not 32 bytes")
              else Ok plain)
    end.

(** ** Moving the master key under a new DEK *)

(** [encrypt_aes_gcm], its salt and time drawn. *)
Definition seal_master (plain dek : bytes) : M (result PersistenceError bytes) :=
  salt ← draw SALT_LEN; now ← utc_now;
  mret (map_err PeCrypto (encrypt_aes_gcm salt (now / 1000000) plain dek)).

(** Decrypt [master.bbkey]; [failed] is the message of a wrong key. *)
Definition open_master (paths : DataPaths) (failed : string) (dek : bytes) : M (result PersistenceError bytes) :=
  sealed ←? map_err_m PeIo (fs_read (dp_master_key paths));
  mret (map_err (fun _ => PeMigration failed) (decrypt_aes_gcm sealed dek)).

(** Write it under a new DEK beside the original, and rename over it. *)
Definition seal_over (paths : DataPaths) (tmp : string) (plain new_dek : bytes) : M (result PersistenceError unit) :=
  new_env ←? seal_master plain new_dek;
  _ ←? write_secret tmp new_env;
  map_err_m PeIo (fs_rename tmp (dp_master_key paths)).

Definition write_meta (paths : DataPaths) (meta : DekMeta) : M (result PersistenceError unit) :=
  write_secret (dp_dek_meta paths) (as_bytes (json_pretty (meta_to_json meta))).

(** The DEK of the old layout. *)
Definition legacy_dek (provider : DekProvider) (mode : Z) (material : bytes) : result PersistenceError bytes :=
  if mode =? MODE_AUTO then
    if negb (length material =? DEK_LEN)%nat
    then Err (PeMigration ("legacy raw dek is " +:+ show_Z (Z.of_nat (length material)) +:+ " bytes, expected 32"))
    else Ok material
  else if mode =? MODE_PASSPHRASE then
    match provider with
    | ProvPassphrase pass =>
        map_err (fun e => PeMigration ("legacy scrypt: " +:+ crypto_msg e)) (scrypt_dek (as_bytes pass) material)
    | ProvKeyfile _ =>
        Err (PeMigration "this volume used a master passphrase; set BLACKBOOK_MASTER_PASSPHRASE to the SAME passphrase to migrate it")
    end
  else Err (PeMigration ("unknown legacy mode byte " +:+ show_Z mode)).

Definition migrate_failed : string :=
  "could not decrypt master.bbkey with the legacy DEK (wrong passphrase, or the raw dek was already removed)".

Definition migrate_legacy_dek (paths : DataPaths) (provider : DekProvider) : M (result PersistenceError unit) :=
  m ← fs_read (dp_mode paths);
  let mode := match m with Ok (b :: _) => Z_of_byte b | _ => MODE_AUTO end in
  material ←? map_err_m (fun e => PeMigration ("reading legacy dek: " +:+ e)) (fs_read (dp_dek paths));
  old_dek ←? mret (legacy_dek provider mode material);
  '(new_dek, meta) ←? init_dek provider;
  there ← fs_exists (dp_master_key paths);
  _ ←? (if there : bool then
          plain ←? open_master paths migrate_failed old_dek;
          seal_over paths (migrating_tmp paths) plain new_dek
        else mret (Ok tt));
  _ ←? write_meta paths meta;
  _ ← ignore (secure_delete (dp_dek paths));
  _ ← ignore (secure_delete (dp_mode paths));
  mret (Ok tt).

(** ** Boot *)

Definition resolve_dek (paths : DataPaths) (provider : DekProvider) : M (result PersistenceError bytes) :=
  _ ←? map_err_m PeIo (fs_create_dir_all (dp_dir paths));
  _ ←? map_err_m PeIo (fs_create_dir_all (dp_contents_dir paths));
  has_meta ← fs_exists (dp_dek_meta paths);
  has_dek ← fs_exists (dp_dek paths);
  has_mode ← fs_exists (dp_mode paths);
  _ ←? (if negb has_meta && (has_dek || has_mode) then migrate_legacy_dek paths provider else mret (Ok tt));
  has_meta ← fs_exists (dp_dek_meta paths);
  if has_meta : bool then
    b ←? map_err_m PeIo (fs_read (dp_dek_meta paths));
    meta ←? mret (ok_or (PeJson "dek.meta") (json_from_slice b ≫= meta_from_json));
    reconstruct_dek provider meta
  else
    '(dek, meta) ←? init_dek provider;
    _ ←? write_meta paths meta;
    mret (Ok dek).

Definition rekey_failed : string :=
  "the current DEK did not decrypt master.bbkey — wrong keyfile/passphrase?".

(** The old key is opened before the new DEK is drawn. *)
Definition rekey_master_dek (paths : DataPaths) (provider : DekProvider) : M (result PersistenceError unit) :=
  there ← fs_exists (dp_master_key paths);
  if negb there
  then mret (Err (PeCorrupt "master.bbkey" "no master key to re-key — start the server once first"))
  else
    old_dek ←? resolve_dek paths provider;
    plain ←? open_master paths rekey_failed old_dek;
    '(new_dek, meta) ←? init_dek provider;
    _ ←? seal_over paths (rekey_tmp paths) plain new_dek;
    write_meta paths meta.

(** [BlackbookKey::generate] draws its randomness in one action. *)
Definition generate_key : M (CryptoResult BlackbookKey) :=
  perform (fun w => (generate (rng w), set_rng (rng w + 6) w)).

Definition load_or_init_master (paths : DataPaths) (dek : bytes) :
    M (result PersistenceError (BlackbookKey * bool)) :=
  there ← fs_exists (dp_master_key paths);
  if there : bool then
    sealed ←? map_err_m PeIo (fs_read (dp_master_key paths));
    mret (plain ← map_err PeCrypto (decrypt_aes_gcm sealed dek);
          key ← ok_or (PeJson "master.bbkey") (key_from_json plain);
          Ok (key, false))
  else
    key ←? map_err_m PeCrypto generate_key;
    plain ←? mret (map_err PeCrypto (key_json key));
    sealed ←? seal_master plain dek;
    _ ←? write_secret (dp_master_key paths) sealed;
    mret (Ok (key, true)).

(** The master key at boot, as [Commands::Server] obtains it. *)
Definition open_volume (paths : DataPaths) (provider : DekProvider) :
    M (result PersistenceError (BlackbookKey * bool)) :=
  dek ←? resolve_dek paths provider;
  load_or_init_master paths dek.
End volume.

(** ** Certificates and the first-run bundle *)

Section certificates.
Context {P : Primitives} {O : OpsLib} {CA : CaLib}.

Definition read_pem (path : string) : M (result PersistenceError string) :=
  b ←? map_err_m PeIo (fs_read path);
  mret (ok_or (PeIo "stream did not contain valid UTF-8") (from_utf8 b)).

(** The CA as (certificate, key), and whether it is new. *)
Definition load_or_init_ca (paths : DataPaths) : M (result PersistenceError ((string * string) * bool)) :=
  has_cert ← fs_exists (dp_ca_cert paths);
  has_key ← fs_exists (dp_ca_key paths);
  if has_cert && has_key then
    cert_pem ←? read_pem (dp_ca_cert paths);
    key_pem ←? read_pem (dp_ca_key paths);
    ca ←? mret (map_err PeTls (ca_from_pem cert_pem key_pem));
    mret (Ok (ca, false))
  else
    seed ← draw 32;
    ca ←? mret (map_err PeTls (ca_generate seed));
    _ ←? write_secret (dp_ca_key paths) (as_bytes ca.2);
    _ ←? map_err_m PeIo (fs_write (dp_ca_cert paths) (as_bytes ca.1));
    mret (Ok (ca, true)).

Definition load_or_init_server_cert (paths : DataPaths) (ca : string * string) (sans : list string) :
    M (result PersistenceError bool) :=
  has_cert ← fs_exists (dp_server_cert paths);
  has_key ← fs_exists (dp_server_key paths);
  if has_cert && has_key then mret (Ok false)
  else
    seed ← draw 32;
    bundle ←? mret (map_err PeTls (ca_issue_server ca sans seed));
    _ ←? map_err_m PeIo (fs_write (dp_server_cert paths) (as_bytes bundle.1));
    _ ←? write_secret (dp_server_key paths) (as_bytes bundle.2);
    mret (Ok true).

Definition admin_bundle_json (token cert_pem key_pem ca_pem server_url : string) : Json :=
  JObj [("ca_pem", JStr ca_pem); ("cert_pem", JStr cert_pem); ("key_pem", JStr key_pem);
        ("name", JStr "admin"); ("role", JStr "admin"); ("server", JStr server_url); ("token", JStr token)].

Definition write_admin_bundle (paths : DataPaths) (token cert_pem key_pem ca_pem server_url : string) :
    M (result PersistenceError unit) :=
  _ ←? write_secret (dp_admin_token paths) (as_bytes token);
  _ ←? map_err_m PeIo (fs_write (dp_admin_cert paths) (as_bytes cert_pem));
  _ ←? write_secret (dp_admin_key paths) (as_bytes key_pem);
  write_secret (dp_admin_bundle paths)
    (as_bytes (json_pretty (admin_bundle_json token cert_pem key_pem ca_pem server_url))).
End certificates.
