(* ===== verification/PersistenceProps.v ===== *)
(** The data volume ([Persistence.v]) against its specification: the files of a
    volume denote a master key ([volume_key]); opening a volume returns the key
    it denotes, a restart finds it again, and neither a migration of the old
    layout nor a rotation of the DEK changes it. *)
From S2P Require Import Prelude Text Crypto ToyPrimitives Store Effects CryptoOps ToyOps CryptoOpsProps Concurrency ServerBase ToyPlatform CredStore FileSteps Persistence.

(** ** What the files say *)

Section spec.
Context {P : Primitives} {O : OpsLib} {KC : KeyCodec} (paths : DataPaths) (prov : DekProvider).

Definition keyfile_kek_of (t : gmap string bytes) (path : string) : option bytes :=
  match t !! path with
  | Some ((_ :: _) as b) => Some (sha3_256 (KEYFILE_TAG ++ b))
  | _ => None
  end.

(** The DEK a metadata record denotes for a provider. *)
Definition recover (t : gmap string bytes) (meta : DekMeta) : option bytes :=
  if String.eqb (dm_provider meta) (kind prov) then
    match prov with
    | ProvPassphrase pass =>
        s ← dm_salt meta; salt ← b64_decode s;
        ok (argon2_key_with pass salt (default 0 (dm_m_cost meta)) (default 0 (dm_t_cost meta))
              (default 0 (dm_p_cost meta)))
    | ProvKeyfile path =>
        kek ← keyfile_kek_of t path; w ← dm_wrapped_dek meta; wrapped ← b64_decode w;
        plain ← ok (aead_open wrapped kek);
        if (length plain =? DEK_LEN)%nat then Some plain else None
    end
  else None.

Definition volume_dek (t : gmap string bytes) : option bytes :=
  b ← t !! dp_dek_meta paths; meta ← json_from_slice b ≫= meta_from_json; recover t meta.

(** The master key in the file of that name, under a given DEK. *)
Definition master_text (t : gmap string bytes) (dek : bytes) : option bytes :=
  sealed ← t !! dp_master_key paths; ok (decrypt_aes_gcm sealed dek).

Definition volume_key (t : gmap string bytes) : option BlackbookKey :=
  dek ← volume_dek t; plain ← master_text t dek; key_from_json plain.

Definition legacy_mode (t : gmap string bytes) : Z :=
  match t !! dp_mode paths with Some (b :: _) => Z_of_byte b | _ => MODE_AUTO end.

(** A volume of the old layout that holds [k]. *)
Definition legacy_volume (t : gmap string bytes) (k : BlackbookKey) : Prop :=
  t !! dp_dek_meta paths = None /\
  exists material dek plain, t !! dp_dek paths = Some material /\
    legacy_dek prov (legacy_mode t) material = Ok dek /\
    master_text t dek = Some plain /\ key_from_json plain = Some k /\
    Z.of_nat (length plain) <= 2 ^ 36 - 32.

(** The files a provider reads. *)
Definition provider_files : list string :=
  match prov with ProvPassphrase _ => [] | ProvKeyfile path => [path] end.

(** The provider can make a DEK: its keyfile is there and not empty, the
    password hash accepts a 16-byte salt at the default costs. *)
Definition provider_ready (t : gmap string bytes) : Prop :=
  match prov with
  | ProvPassphrase pass =>
      forall salt, length salt = 16%nat ->
        exists k, argon2_into pass salt ARGON_M_COST ARGON_T_COST ARGON_P_COST = Ok k
  | ProvKeyfile path => exists b, t !! path = Some b /\ b <> []
  end.

(** The files the volume operations write, and a provider outside them. *)
Definition volume_files : list string :=
  [dp_dek_meta paths; dp_master_key paths; dp_dek paths; dp_mode paths; migrating_tmp paths; rekey_tmp paths].

Definition provider_outside : Prop := forall p, p ∈ provider_files -> p ∉ volume_files.

Lemma recover_ext t t' meta :
  (forall p, p ∈ provider_files -> t' !! p = t !! p) -> recover t' meta = recover t meta.
Proof.
  intros H. unfold recover, provider_files, keyfile_kek_of in *. destruct prov as [pass|path]; [done|].
  by rewrite H by set_solver.
Qed.
End spec.

(** The directory's files have names of their own. *)
Lemma volume_files_distinct dir : NoDup (volume_files (DataPaths_under dir)).
Proof.
  assert (Hj : forall a b, path_join dir a = path_join dir b -> starts_with "/" a = false ->
                 starts_with "/" b = false -> a = b) by (intros; by eapply path_join_inj).
  assert (Hx : forall a x, starts_with "/" a = false -> path_join dir a +:+ x = path_join dir (a +:+ x)
                 \/ starts_with "/" (a +:+ x) = true).
  { intros a x Ha. unfold path_join. rewrite Ha. destruct (starts_with "/" (a +:+ x)); [by right|left].
    destruct (String.eqb dir "" || ends_with "/" dir); by rewrite !string_app_assoc. }
  unfold volume_files, migrating_tmp, rekey_tmp, DataPaths_under; cbn [dp_dek_meta dp_master_key dp_dek dp_mode].
  destruct (Hx "master.bbkey" ".migrating" eq_refl) as [->|]; [|done].
  destruct (Hx "master.bbkey" ".rekey" eq_refl) as [->|]; [|done].
  repeat constructor; rewrite ?not_elem_of_cons; repeat split; try apply not_elem_of_nil;
    intros He; apply Hj in He; try reflexivity; discriminate He.
Qed.

Class KeyCodecLaws (PF : Platform) (KC : KeyCodec) : Prop := {
  key_codec_roundtrip k b : key_json k = Ok b -> key_from_json b = Some k;
}.

(** ** One step at a time *)

Section steps.
Context {P : Primitives} {L : PrimitiveLaws P} {O : OpsLib} {OL : OpsLaws P O} {PF : Platform} {KC : KeyCodec}.

Lemma keyfile_kek_Ok path w kek w' :
  run (keyfile_kek path) w = (Val (Ok kek), w') -> keyfile_kek_of (fs w) path = Some kek /\ fs w' = fs w.
Proof.
  unfold keyfile_kek, keyfile_kek_of. intros H. fs_inv. destruct x as [|b x]; fs_inv.
  by rewrite H.
Qed.

Lemma keyfile_kek_calm path w kek :
  faults w = [] -> keyfile_kek_of (fs w) path = Some kek -> run (keyfile_kek path) w = (Val (Ok kek), w).
Proof.
  unfold keyfile_kek_of. intros Hf H. destruct (fs w !! path) as [[|b x]|] eqn:E; simplify_eq.
  unfold keyfile_kek, try_bind. by rewrite run_bind, run_map_err, (fs_read_calm _ _ _ Hf E).
Qed.

Lemma reconstruct_Ok prov meta w dek w' :
  run (reconstruct_dek prov meta) w = (Val (Ok dek), w') ->
  recover prov (fs w) meta = Some dek /\ fs w' = fs w.
Proof.
  unfold reconstruct_dek, recover. destruct (String.eqb _ _); cbn [negb]; [|done].
  destruct prov as [pass|path]; intros H.
  - rewrite run_ret in H. injection H as H <-. destruct (dm_salt meta) as [s|]; [|done].
    cbn [ok_or] in H. rewrite bind_Ok in H. cbn [mbind option_bind]. destruct (b64_decode s) as [salt|]; [|done].
    cbn [ok_or] in H. rewrite bind_Ok in H. cbn [mbind option_bind]. apply map_err_Ok in H. by rewrite H.
  - fs_inv. apply keyfile_kek_Ok in H as [-> Hfs]. split; [|done]. cbn [mbind option_bind].
    destruct (dm_wrapped_dek meta) as [s|]; [|done]. cbn [ok_or] in H0. rewrite bind_Ok in H0. cbn [mbind option_bind].
    destruct (b64_decode s) as [wr|]; [|done]. cbn [ok_or] in H0. rewrite bind_Ok in H0. cbn [mbind option_bind].
    destruct (aead_open wr x) as [plain|]; [|done]. cbn [map_err] in H0. rewrite bind_Ok in H0. cbn [ok mbind option_bind].
    destruct (length plain =? DEK_LEN)%nat; cbn [negb] in *; by simplify_eq.
Qed.

Lemma reconstruct_calm prov meta w dek :
  faults w = [] -> recover prov (fs w) meta = Some dek ->
  run (reconstruct_dek prov meta) w = (Val (Ok dek), w).
Proof.
  intros Hf. unfold reconstruct_dek, recover. destruct (String.eqb _ _); cbn [negb]; [|done].
  destruct prov as [pass|path].
  - intros H. destruct (dm_salt meta) as [s|]; [|done]. cbn [mbind option_bind] in H. cbn [ok_or]. rewrite bind_Ok.
    destruct (b64_decode s) as [salt|]; [|done]. cbn [mbind option_bind] in H. cbn [ok_or]. rewrite bind_Ok, run_ret.
    destruct (argon2_key_with _ _ _ _ _); simpl in *; by simplify_eq.
  - intros H. destruct (keyfile_kek_of (fs w) path) as [kek|] eqn:Hk; [|done]. cbn [mbind option_bind] in H.
    destruct (dm_wrapped_dek meta) as [s|]; [|done]. cbn [mbind option_bind] in H.
    destruct (b64_decode s) as [wr|] eqn:Eb; [|done]. cbn [mbind option_bind] in H.
    destruct (aead_open wr kek) as [plain|] eqn:Eo; [|done]. cbn [ok mbind option_bind] in H.
    destruct (length plain =? DEK_LEN)%nat eqn:El; [|done]. injection H as <-.
    eapply run_try; [by apply keyfile_kek_calm|]. rewrite run_ret. cbn [ok_or]. rewrite bind_Ok, Eb. cbn [ok_or].
    rewrite bind_Ok, Eo. cbn [map_err]. by rewrite bind_Ok, El.
Qed.

(** Metadata the code writes reads back. *)
Definition written (meta : DekMeta) : Prop :=
  json_from_slice (as_bytes (json_pretty (meta_to_json meta))) ≫= meta_from_json = Some meta.

Lemma passphrase_meta_written salt :
  written (MkMeta 1 "passphrase" (Some (b64_encode salt)) (Some ARGON_M_COST) (Some ARGON_T_COST)
             (Some ARGON_P_COST) None).
Proof.
  unfold written. rewrite json_pretty_reads; [reflexivity|].
  cbn [meta_to_json opt_entry dm_m_cost dm_p_cost dm_provider dm_salt dm_t_cost dm_v dm_wrapped_dek app fmap option_fmap
       option_map json_fits forallb fst snd]. by rewrite b64_str_ok.
Qed.

Lemma keyfile_meta_written b : written (MkMeta 1 "keyfile" None None None None (Some (b64_encode b))).
Proof.
  unfold written. rewrite json_pretty_reads; [reflexivity|].
  cbn [meta_to_json opt_entry dm_m_cost dm_p_cost dm_provider dm_salt dm_t_cost dm_v dm_wrapped_dek app fmap option_fmap
       option_map json_fits forallb fst snd]. by rewrite b64_str_ok.
Qed.

Lemma argon2_key_inv pass salt k m t p :
  argon2_key pass salt = Ok (k, m, t, p) ->
  m = ARGON_M_COST /\ t = ARGON_T_COST /\ p = ARGON_P_COST /\
  argon2_key_with pass salt ARGON_M_COST ARGON_T_COST ARGON_P_COST = Ok k.
Proof.
  unfold argon2_key, argon2_key_with. destruct (derive_kek _ _ _ _ _) as [x|e]; intros H; [|done].
  rewrite bind_Ok in H. by simplify_eq.
Qed.

(** A fresh DEK is recovered from its own metadata. *)
Lemma init_dek_Ok prov w dek meta w' :
  run (init_dek prov) w = (Val (Ok (dek, meta)), w') ->
  recover prov (fs w) meta = Some dek /\ written meta /\ fs w' = fs w.
Proof.
  unfold init_dek, recover. destruct prov as [pass|path]; intros H.
  - apply run_bind_Val in H as (salt & w1 & Hd & H). rewrite run_draw in Hd. simplify_eq/=.
    destruct (argon2_key pass _) as [[[[k m] t] p]|e] eqn:E; [|done]. cbn [map_err] in H. rewrite bind_Ok in H.
    simplify_eq. apply argon2_key_inv in E as (-> & -> & -> & E). split; [|split; [apply passphrase_meta_written|done]].
    cbn. rewrite b64_roundtrip. cbn. by rewrite E.
  - apply run_try_Ok in H as (kek & w1 & Hk & H). apply keyfile_kek_Ok in Hk as [Hk Hfs].
    apply run_bind_Val in H as (d & w2 & Hd & H). rewrite run_draw in Hd. injection Hd as <- <-.
    apply run_bind_Val in H as (n & w3 & Hd & H). rewrite run_draw in Hd. injection Hd as <- <-.
    rewrite run_ret in H. injection H as H <-.
    destruct (aead_seal _ _ kek) as [wr|e] eqn:E; [|done]. cbn [map_err] in H. rewrite bind_Ok in H. simplify_eq.
    split; [|split; [apply keyfile_meta_written|done]].
    cbn [dm_provider kind String.eqb]. rewrite Hk.
    change (("keyfile" =? "keyfile")%string) with true. cbn [mbind option_bind dm_wrapped_dek].
    rewrite b64_roundtrip. cbn [mbind option_bind].
    rewrite (aead_roundtrip _ _ _ _ (rand_length _ _) E). cbn [ok mbind option_bind]. by rewrite rand_length.
Qed.

Lemma init_dek_calm prov w :
  faults w = [] -> provider_ready prov (fs w) ->
  exists dek meta w', run (init_dek prov) w = (Val (Ok (dek, meta)), w') /\ faults w' = [] /\ fs w' = fs w.
Proof.
  unfold init_dek, provider_ready. intros Hf. destruct prov as [pass|path].
  - intros H. destruct (H (rand_bytes (rng w) 16) (rand_length _ _)) as [k Hk].
    eexists _, _, _. split; [|split].
    + rewrite run_bind, run_draw. unfold argon2_key, derive_kek. rewrite Hk. reflexivity.
    + done.
    + done.
  - intros (b & Hb & Hne). destruct b as [|x b]; [done|].
    destruct (aead_seal_total (rand_bytes (S (rng w)) 12) (rand_bytes (rng w) DEK_LEN) (sha3_256 (KEYFILE_TAG ++ x :: b)) [])
      as [c Hc]; [apply sha3_256_length|rewrite rand_length; unfold DEK_LEN; lia|].
    eexists _, _, _. split; [|split].
    + eapply run_try; [apply keyfile_kek_calm; [done|]|].
      { unfold keyfile_kek_of. by rewrite Hb. }
      rewrite run_bind, run_draw. rewrite run_bind, run_draw, run_ret. cbn [rng set_rng].
      unfold aead_seal. change (aead_seal_nonce ?p ?k ?n) with (aead_seal_aad n p k []). rewrite Hc. reflexivity.
    + done.
    + done.
Qed.

Lemma seal_master_Ok plain dek w s w' :
  run (seal_master plain dek) w = (Val (Ok s), w') -> decrypt_aes_gcm s dek = Ok plain /\ fs w' = fs w.
Proof.
  unfold seal_master. intros H. apply run_bind_Val in H as (salt & w1 & Hd & H). rewrite run_draw in Hd. injection Hd as <- <-.
  apply run_bind_Val in H as (n & w2 & Hd & H). rewrite run_utc_now in Hd. injection Hd as <- <-.
  rewrite run_ret in H. injection H as H <-. apply map_err_Ok in H. split; [|done].
  by apply encrypt_aes_gcm_roundtrip in H; [|apply rand_length].
Qed.

Lemma seal_master_calm plain dek w :
  Z.of_nat (length plain) <= 2 ^ 36 - 32 ->
  exists s w', run (seal_master plain dek) w = (Val (Ok s), w') /\ faults w' = faults w /\ fs w' = fs w.
Proof.
  intros Hp. destruct (encrypt_aes_gcm_total (rand_bytes (rng w) SALT_LEN) (clock w / 1000000) plain dek Hp) as [s Hs].
  exists s, (set_rng (S (rng w)) w). unfold seal_master. rewrite run_bind, run_draw, run_bind, run_utc_now, run_ret.
  cbn [clock set_rng]. by rewrite Hs.
Qed.

Lemma write_secret_Ok path b w u w' : run (write_secret path b) w = (Val (Ok u), w') -> fs w' = <[path := b]> (fs w).
Proof. unfold write_secret. intros H. fs_inv. congruence. Qed.

Lemma write_secret_calm path b w :
  faults w = [] -> run (write_secret path b) w = (Val (Ok tt), set_fs (<[path := b]> (fs w)) w).
Proof.
  intros Hf. unfold write_secret. eapply run_try; [by rewrite run_map_err, fs_write_calm|].
  rewrite run_map_err, fs_chmod_calm; [done|done|]. cbn [fs set_fs]. rewrite lookup_insert_eq. by eexists.
Qed.

Lemma touches_write_secret (S : string -> Prop) path b : S path -> touches S (write_secret path b).
Proof. intros H. unfold write_secret. touching. Qed.
End steps.

#[export] Hint Resolve touches_write_secret : fstouch.

(** ** Opening a volume *)

Section volumes.
Context {P : Primitives} {L : PrimitiveLaws P} {O : OpsLib} {OL : OpsLaws P O} {PF : Platform} {KC : KeyCodec}.
Context {KL : KeyCodecLaws PF KC}.
Context (dir : string) (prov : DekProvider).

Abbreviation paths := (DataPaths_under dir).
Abbreviation dek_of t := (volume_dek paths prov t).
Abbreviation key_of t := (volume_key paths prov t).

Lemma meta_not_master : dp_dek_meta paths <> dp_master_key paths.
Proof.
  pose proof (volume_files_distinct dir) as H. unfold volume_files in H. apply NoDup_cons in H as [H _]. set_solver.
Qed.

Lemma volume_dek_spec t dek :
  dek_of t = Some dek <->
  exists b meta, t !! dp_dek_meta paths = Some b /\ json_from_slice b ≫= meta_from_json = Some meta /\
    recover prov t meta = Some dek.
Proof.
  unfold volume_dek. destruct (t !! dp_dek_meta paths) as [b|]; [|split; [done|by intros (? & ? & ? & _)]].
  change (Some b ≫= ?f) with (f b). cbv beta.
  destruct (json_from_slice b ≫= meta_from_json) as [meta|] eqn:E.
  - change (Some meta ≫= ?f) with (f meta). cbv beta. split; [intros H; by exists b, meta|].
    intros (b' & m' & [= <-] & Hm & H). by rewrite E in Hm; injection Hm as <-.
  - split; [done|]. intros (b' & m' & [= <-] & Hm & _). by rewrite E in Hm.
Qed.

Lemma volume_key_spec t k :
  key_of t = Some k <->
  exists dek plain, dek_of t = Some dek /\ master_text paths t dek = Some plain /\ key_from_json plain = Some k.
Proof.
  unfold volume_key. destruct (dek_of t) as [dek|]; [|split; [done|by intros (? & ? & ? & _)]].
  change (Some dek ≫= ?f) with (f dek). cbv beta. destruct (master_text paths t dek) as [plain|] eqn:E.
  - change (Some plain ≫= ?f) with (f plain). split; [intros H; by exists dek, plain|].
    intros (d & pl & [= <-] & Hm & H). by rewrite E in Hm; injection Hm as <-.
  - split; [done|]. intros (d & pl & [= <-] & Hm & _). by rewrite E in Hm.
Qed.

(** The DEK depends on the metadata and the provider's own file. *)
Lemma volume_dek_ext t t' :
  t' !! dp_dek_meta paths = t !! dp_dek_meta paths -> (forall p, p ∈ provider_files prov -> t' !! p = t !! p) ->
  dek_of t' = dek_of t.
Proof.
  intros Hm Hp. unfold volume_dek. rewrite Hm. destruct (t !! dp_dek_meta paths) as [b|]; [|done]. cbn [mbind option_bind].
  destruct (json_from_slice b ≫= meta_from_json); [|done]. by apply recover_ext.
Qed.

Lemma volume_key_ext t t' :
  t' !! dp_dek_meta paths = t !! dp_dek_meta paths -> t' !! dp_master_key paths = t !! dp_master_key paths ->
  (forall p, p ∈ provider_files prov -> t' !! p = t !! p) -> key_of t' = key_of t.
Proof. intros Hm Hk Hp. unfold volume_key, master_text. by rewrite (volume_dek_ext t t' Hm Hp), Hk. Qed.

(** Writing the metadata of a recoverable DEK. *)
Lemma volume_dek_write t meta dek :
  provider_outside paths prov -> written meta -> recover prov t meta = Some dek ->
  dek_of (<[dp_dek_meta paths := as_bytes (json_pretty (meta_to_json meta))]> t) = Some dek.
Proof.
  intros Ho Hw Hr. apply volume_dek_spec. eexists _, meta. split; [apply lookup_insert_eq|]. split; [exact Hw|].
  rewrite <- Hr. apply recover_ext. intros p Hp. apply lookup_insert_ne. intros <-.
  apply (Ho _ Hp). unfold volume_files. set_solver.
Qed.

Lemma resolve_tail_Ok (has_meta : bool) w dek w' :
  provider_outside paths prov ->
  run (if has_meta
       then b ←? map_err_m PeIo (fs_read (dp_dek_meta paths));
            meta ←? mret (ok_or (PeJson "dek.meta") (json_from_slice b ≫= meta_from_json));
            reconstruct_dek prov meta
       else '(dek, meta) ←? init_dek prov; _ ←? write_meta paths meta; mret (Ok dek)) w = (Val (Ok dek), w') ->
  dek_of (fs w') = Some dek.
Proof.
  intros Ho. destruct has_meta; intros H.
  - apply run_try_Ok in H as (b & w1 & Hr & H). apply run_map_err_Ok, fs_read_Ok in Hr as [Hb Hf].
    apply run_try_Ok in H as (meta & w2 & Hm & H). rewrite run_ret in Hm. injection Hm as Hm <-.
    apply reconstruct_Ok in H as [Hr Hf']. rewrite Hf', Hf. rewrite Hf in Hr. apply volume_dek_spec.
    destruct (json_from_slice b ≫= meta_from_json) as [m|] eqn:E; cbn [ok_or] in Hm; [|done].
    simplify_eq. by exists b, meta.
  - apply run_try_Ok in H as ([d meta] & w1 & Hi & H). apply init_dek_Ok in Hi as (Hr & Hw & Hf).
    apply run_try_Ok in H as (u & w2 & Hm & H). rewrite run_ret in H. injection H as <- <-.
    unfold write_meta in Hm. apply write_secret_Ok in Hm. rewrite Hm, Hf. by apply volume_dek_write.
Qed.

Lemma resolve_dek_Ok w dek w' :
  provider_outside paths prov -> run (resolve_dek paths prov) w = (Val (Ok dek), w') -> dek_of (fs w') = Some dek.
Proof.
  intros Ho H. unfold resolve_dek in H.
  do 2 apply run_try_Ok in H as (? & ? & _ & H). do 3 apply run_bind_Val in H as (? & ? & _ & H).
  apply run_try_Ok in H as (? & ? & _ & H). apply run_bind_Val in H as (? & ? & _ & H).
  by eapply resolve_tail_Ok.
Qed.

Lemma resolve_dek_calm w dek :
  faults w = [] -> dek_of (fs w) = Some dek -> run (resolve_dek paths prov) w = (Val (Ok dek), w).
Proof.
  intros Hf (b & meta & Hb & Hm & H)%volume_dek_spec.
  unfold resolve_dek. do 2 (eapply run_try; [by rewrite run_map_err, fs_create_dir_all_calm|]).
  do 3 (rewrite run_bind, run_fs_exists). rewrite (bool_decide_eq_true_2 (is_Some (fs w !! dp_dek_meta paths))) by (rewrite Hb; by eexists).
  cbn [negb andb]. eapply run_try; [apply run_ret|]. rewrite run_bind, run_fs_exists.
  rewrite (bool_decide_eq_true_2 (is_Some (fs w !! dp_dek_meta paths))) by (rewrite Hb; by eexists).
  eapply run_try; [by rewrite run_map_err, (fs_read_calm _ _ _ Hf Hb)|].
  eapply run_try; [by rewrite Hm, run_ret|].
  by apply reconstruct_calm.
Qed.

Lemma load_master_Ok dek w k b w' :
  run (load_or_init_master paths dek) w = (Val (Ok (k, b)), w') ->
  (exists plain, master_text paths (fs w') dek = Some plain /\ key_from_json plain = Some k) /\
  forall p, p <> dp_master_key paths -> fs w' !! p = fs w !! p.
Proof.
  unfold load_or_init_master. intros H. apply run_bind_Val in H as (there & w1 & He & H).
  rewrite run_fs_exists in He. injection He as <- <-. case_bool_decide as Hx.
  - apply run_try_Ok in H as (s & w2 & Hr & H). apply run_map_err_Ok, fs_read_Ok in Hr as [Hs Hf].
    rewrite run_ret in H. injection H as H <-. split; [|by rewrite Hf].
    destruct (decrypt_aes_gcm s dek) as [plain|e] eqn:Ed; [|done]. cbn [map_err] in H. rewrite bind_Ok in H.
    exists plain. unfold master_text. rewrite Hf, Hs. cbn [mbind option_bind]. rewrite Ed. split; [done|].
    destruct (key_from_json plain); [|done]. cbn [ok_or] in H. rewrite bind_Ok in H. by simplify_eq.
  - apply run_try_Ok in H as (key & w2 & Hg & H). apply run_map_err_Ok in Hg. unfold generate_key in Hg.
    rewrite run_perform in Hg. injection Hg as _ <-.
    apply run_try_Ok in H as (plain & w3 & Hj & H). rewrite run_ret in Hj. injection Hj as Hj <-. apply map_err_Ok in Hj.
    apply run_try_Ok in H as (s & w4 & Hs & H). apply seal_master_Ok in Hs as [Hs Hf].
    apply run_try_Ok in H as (u & w5 & Hw & H). apply write_secret_Ok in Hw. rewrite run_ret in H. injection H as <- <- <-.
    split.
    + exists plain. unfold master_text. rewrite Hw, lookup_insert_eq. cbn [mbind option_bind]. rewrite Hs.
      split; [done|]. by apply key_codec_roundtrip.
    + intros p Hp. rewrite Hw, lookup_insert_ne, Hf by done. done.
Qed.

Lemma load_master_calm dek plain k w :
  faults w = [] -> master_text paths (fs w) dek = Some plain -> key_from_json plain = Some k ->
  run (load_or_init_master paths dek) w = (Val (Ok (k, false)), w).
Proof.
  unfold master_text. intros Hf H Hk. destruct (fs w !! dp_master_key paths) as [s|] eqn:Hs; [|done].
  cbn [mbind option_bind] in H. unfold load_or_init_master. rewrite run_bind, run_fs_exists.
  rewrite bool_decide_eq_true_2 by (rewrite Hs; by eexists).
  eapply run_try; [by rewrite run_map_err, (fs_read_calm _ _ _ Hf Hs)|]. rewrite run_ret.
  destruct (decrypt_aes_gcm s dek); [|done]. cbn [ok map_err] in *. simplify_eq. rewrite bind_Ok, Hk. done.
Qed.

(** A successful opening returns the key the files then denote. *)
Lemma open_volume_Ok w k b w' :
  provider_outside paths prov -> run (open_volume paths prov) w = (Val (Ok (k, b)), w') -> key_of (fs w') = Some k.
Proof.
  intros Ho H. unfold open_volume in H. apply run_try_Ok in H as (dek & w1 & Hr & H).
  apply resolve_dek_Ok in Hr; [|done]. apply load_master_Ok in H as [(plain & Hp & Hk) Hf].
  apply volume_key_spec. exists dek, plain. split; [|done]. rewrite (volume_dek_ext (fs w1)); [done| |].
  - apply Hf, meta_not_master.
  - intros p Hin. apply Hf. intros ->. apply (Ho _ Hin). unfold volume_files. set_solver.
Qed.

(** A volume that denotes a key opens to it, and nothing is written. *)
Lemma open_volume_calm w k :
  faults w = [] -> key_of (fs w) = Some k -> run (open_volume paths prov) w = (Val (Ok (k, false)), w).
Proof.
  intros Hf (dek & plain & Hd & Hm & H)%volume_key_spec.
  unfold open_volume. eapply run_try; [by apply resolve_dek_calm|]. by eapply load_master_calm.
Qed.

(** *** Re-sealing the master key *)

Lemma open_master_calm failed dek plain w :
  faults w = [] -> master_text paths (fs w) dek = Some plain ->
  run (open_master paths failed dek) w = (Val (Ok plain), w).
Proof.
  unfold master_text. intros Hf H. destruct (fs w !! dp_master_key paths) as [s|] eqn:Hs; [|done].
  change (ok (decrypt_aes_gcm s dek) = Some plain) in H. unfold open_master.
  eapply run_try; [by rewrite run_map_err, (fs_read_calm _ _ _ Hf Hs)|]. rewrite run_ret.
  destruct (decrypt_aes_gcm s dek); [|done]. simpl in *. by simplify_eq.
Qed.

(** [t'] is [t] with the master key sealed anew, the scratch file gone again. *)
Definition resealed (tmp : string) (plain dek : bytes) (t t' : gmap string bytes) : Prop :=
  master_text paths t' dek = Some plain /\
  forall p, p <> dp_master_key paths -> p <> tmp -> t' !! p = t !! p.

Lemma seal_over_calm tmp plain dek w :
  faults w = [] -> Z.of_nat (length plain) <= 2 ^ 36 - 32 ->
  exists w', run (seal_over paths tmp plain dek) w = (Val (Ok tt), w') /\ faults w' = [] /\
    resealed tmp plain dek (fs w) (fs w').
Proof.
  intros Hf Hp. destruct (seal_master_calm plain dek w Hp) as (s & w1 & Hs & Hf1 & Hfs1).
  pose proof (seal_master_Ok _ _ _ _ _ Hs) as [Hd _]. rewrite Hf in Hf1.
  set (w2 := set_fs (<[tmp := s]> (fs w)) w1).
  exists (set_fs (<[dp_master_key paths := s]> (delete tmp (fs w2))) w2). split; [|split; [done|]].
  - unfold seal_over. eapply run_try; [exact Hs|]. eapply run_try; [by apply write_secret_calm|].
    rewrite Hfs1. change (set_fs _ w1) with w2. rewrite run_map_err. unfold fs_rename.
    rewrite run_file_op_calm by done. unfold w2 at 1. cbn [fs set_fs]. by rewrite lookup_insert_eq.
  - cbn [fs set_fs]. split; [unfold master_text; rewrite lookup_insert_eq; change (ok (decrypt_aes_gcm s dek) = Some plain); by rewrite Hd|].
    intros p H1 H2. rewrite lookup_insert_ne, lookup_delete_ne by congruence. unfold w2. cbn [fs set_fs].
    by rewrite lookup_insert_ne by congruence.
Qed.

Lemma write_meta_calm meta w :
  faults w = [] ->
  run (write_meta paths meta) w =
    (Val (Ok tt), set_fs (<[dp_dek_meta paths := as_bytes (json_pretty (meta_to_json meta))]> (fs w)) w).
Proof. apply write_secret_calm. Qed.

(** Sealing the key and writing the metadata of its DEK makes a volume that
    denotes it. *)
Lemma resealed_key tmp plain dek meta k t t' :
  provider_outside paths prov -> tmp ∈ volume_files paths -> tmp <> dp_dek_meta paths ->
  written meta -> recover prov t meta = Some dek -> resealed tmp plain dek t t' -> key_from_json plain = Some k ->
  key_of (<[dp_dek_meta paths := as_bytes (json_pretty (meta_to_json meta))]> t') = Some k.
Proof.
  intros Ho Ht Htm Hw Hr [Hp Hsame] Hk. apply volume_key_spec. exists dek, plain. split; [|split; [|done]].
  - apply volume_dek_write; [done..|]. rewrite <- Hr. apply recover_ext. intros p Hin. apply Hsame; intros ->.
    + apply (Ho _ Hin). unfold volume_files. set_solver.
    + by apply (Ho _ Hin).
  - unfold master_text in *. by rewrite lookup_insert_ne by apply meta_not_master.
Qed.

(** *** Scrubbing what is left of the old layout *)

Lemma scrub_calm path w :
  faults w = [] ->
  exists w', run (ignore (secure_delete path)) w = (Val tt, w') /\ faults w' = [] /\ fs w' = delete path (fs w).
Proof.
  intros Hf. destruct (fs w !! path) as [b|] eqn:Hp.
  - destruct (secure_delete_run path w Hf) as (w' & Hr & Hf' & _ & Hfs); [by eexists|].
    exists w'. split; [|done]. unfold ignore. by rewrite run_bind, Hr.
  - exists w. split; [|split; [done|by rewrite delete_id]].
    assert (He : run (secure_delete path) w = (Val (Err "No such file or directory"), w)).
    { unfold secure_delete, fs_len, fs_remove. rewrite run_bind, run_file_op_calm, Hp by done.
      rewrite run_bind, run_ret. by rewrite run_file_op_calm, Hp. }
    unfold ignore. by rewrite run_bind, He.
Qed.

Lemma names_apart :
  dp_dek_meta paths <> dp_master_key paths /\ dp_dek_meta paths <> dp_dek paths /\ dp_dek_meta paths <> dp_mode paths /\
  dp_master_key paths <> dp_dek paths /\ dp_master_key paths <> dp_mode paths /\
  migrating_tmp paths <> dp_dek_meta paths /\ rekey_tmp paths <> dp_dek_meta paths /\
  migrating_tmp paths <> dp_dek paths /\ migrating_tmp paths <> dp_mode paths.
Proof.
  pose proof (volume_files_distinct dir) as H. unfold volume_files in H. rewrite !NoDup_cons, !not_elem_of_cons in H.
  repeat split; intros He; intuition congruence.
Qed.

Lemma run_read_mode w :
  faults w = [] ->
  exists r, run (fs_read (dp_mode paths)) w = (Val r, w) /\
    (match r with Ok (b :: _) => Z_of_byte b | _ => MODE_AUTO end) = legacy_mode paths (fs w).
Proof.
  intros Hf. unfold fs_read, legacy_mode. rewrite run_file_op_calm by done.
  destruct (fs w !! dp_mode paths) as [b|]; [rewrite set_fs_same|]; eexists; split; done.
Qed.

Lemma delete_other (t : gmap string bytes) p q : p <> q -> delete p t !! q = t !! q.
Proof. apply lookup_delete_ne. Qed.

Lemma migrate_calm w k :
  faults w = [] -> provider_ready prov (fs w) -> provider_outside paths prov -> legacy_volume paths prov (fs w) k ->
  exists w', run (migrate_legacy_dek paths prov) w = (Val (Ok tt), w') /\ faults w' = [] /\
    key_of (fs w') = Some k /\ fs w' !! dp_dek paths = None /\ fs w' !! dp_mode paths = None.
Proof.
  intros Hf Hrdy Ho (Hnone & mat & dek & plain & Hmat & Hdek & Hm & Hk & Hlen).
  destruct names_apart as (N1 & N2 & N3 & N4 & N5 & N6 & N7 & N8 & N9).
  destruct (run_read_mode w Hf) as (r & Hr & Hmode).
  destruct (init_dek_calm prov w Hf Hrdy) as (nd & meta & w1 & Hi & Hf1 & Hfs1).
  destruct (init_dek_Ok _ _ _ _ _ Hi) as (Hrec & Hwr & _).
  rewrite <- Hfs1 in Hm.
  destruct (seal_over_calm (migrating_tmp paths) plain nd w1 Hf1 Hlen) as (w2 & Hso & Hf2 & Hre).
  pose proof (write_meta_calm meta w2 Hf2) as Hwm.
  set (w3 := set_fs _ w2) in Hwm.
  destruct (scrub_calm (dp_dek paths) w3 Hf2) as (w4 & Hs4 & Hf4 & Hfs4).
  destruct (scrub_calm (dp_mode paths) w4 Hf4) as (w5 & Hs5 & Hf5 & Hfs5).
  exists w5. split; [|split; [done|split; [|split]]].
  - unfold migrate_legacy_dek. eapply run_then; [exact Hr|]. cbv beta zeta. rewrite Hmode.
    eapply run_try; [by rewrite run_map_err, (fs_read_calm _ _ _ Hf Hmat)|].
    eapply run_try; [by rewrite Hdek, run_ret|]. eapply run_try; [exact Hi|]. cbv beta iota.
    eapply run_then; [apply run_fs_exists|].
    rewrite bool_decide_eq_true_2.
    2: { unfold master_text in Hm. destruct (fs w1 !! dp_master_key paths); [by eexists|done]. }
    eapply run_try; [eapply run_try; [by apply open_master_calm|exact Hso]|].
    eapply run_try; [exact Hwm|]. eapply run_then; [exact Hs4|]. eapply run_then; [exact Hs5|]. done.
  - rewrite <- (resealed_key (migrating_tmp paths) plain nd meta k (fs w1) (fs w2)); try done.
    + apply volume_key_ext; rewrite Hfs5, Hfs4; [by rewrite !lookup_delete_ne by congruence..|].
      intros p Hp. rewrite !lookup_delete_ne; [done|intros <-..];
        apply (Ho _ Hp); unfold volume_files; set_solver.
    + unfold volume_files. set_solver.
    + by rewrite Hfs1.
  - rewrite Hfs5, Hfs4. rewrite lookup_delete_ne; [apply lookup_delete_eq|].
    pose proof (volume_files_distinct dir) as H. unfold volume_files in H. rewrite !NoDup_cons, !not_elem_of_cons in H.
    intros He. intuition congruence.
  - rewrite Hfs5. apply lookup_delete_eq.
Qed.
End volumes.

(** ** Rotating the DEK *)

Section rekey.
Context {P : Primitives} {L : PrimitiveLaws P} {O : OpsLib} {OL : OpsLaws P O} {PF : Platform} {KC : KeyCodec} {KL : KeyCodecLaws PF KC}.

(** The DEK that [init_dek] makes of the next draw. *)
Definition fresh_dek (prov : DekProvider) (w : World) : option bytes :=
  match prov with
  | ProvPassphrase pass =>
      ok (argon2_key_with pass (rand_bytes (rng w) 16) ARGON_M_COST ARGON_T_COST ARGON_P_COST)
  | ProvKeyfile _ => Some (rand_bytes (rng w) DEK_LEN)
  end.

Definition same_volume (w w' : World) : Prop := fs w' = fs w /\ rng w' = rng w.

Lemma keyfile_kek_same path w kek w' : run (keyfile_kek path) w = (Val (Ok kek), w') -> same_volume w w'.
Proof.
  unfold keyfile_kek. intros H. apply run_try_Ok in H as (b & w1 & Hr & H).
  apply run_map_err_Ok, run_file_op_Ok in Hr as (t & l & Hb & ->). destruct b as [|x b]; [done|].
  rewrite run_ret in H. injection H as _ <-. destruct (fs w !! path); [|done]. by injection Hb as _ <-.
Qed.

Lemma reconstruct_same prov meta w dek w' : run (reconstruct_dek prov meta) w = (Val (Ok dek), w') -> same_volume w w'.
Proof.
  unfold reconstruct_dek. destruct (negb _); [done|]. destruct prov as [pass|path]; intros H.
  - rewrite run_ret in H. by injection H as _ <-.
  - apply run_try_Ok in H as (kek & w1 & Hk & H). rewrite run_ret in H. injection H as _ <-.
    by eapply keyfile_kek_same.
Qed.

(** With metadata present, resolving the DEK reads it and writes nothing. *)
Lemma resolve_same paths prov w dek d w' :
  volume_dek paths prov (fs w) = Some dek -> run (resolve_dek paths prov) w = (Val (Ok d), w') ->
  d = dek /\ same_volume w w'.
Proof.
  unfold volume_dek. intros Hd H. destruct (fs w !! dp_dek_meta paths) as [b|] eqn:Hb; [|done]. cbn [mbind option_bind] in Hd.
  unfold resolve_dek in H. do 2 (apply run_try_Ok in H as (? & ? & Hm & H);
    apply run_map_err_Ok, run_file_op_Ok in Hm as (? & ? & Hm & ->); cbn [fs set_fs set_faults] in Hm; injection Hm as _ <-).
  do 3 (rewrite run_bind, run_fs_exists in H). cbn [fs set_fs set_faults] in H.
  rewrite (bool_decide_eq_true_2 (is_Some (fs w !! dp_dek_meta paths))) in H by (rewrite Hb; by eexists). cbn [negb andb] in H.
  apply run_try_Ok in H as (? & w2 & Hm & H). rewrite run_ret in Hm. injection Hm as _ <-.
  rewrite run_bind, run_fs_exists in H. cbn [fs set_fs set_faults] in H.
  rewrite (bool_decide_eq_true_2 (is_Some (fs w !! dp_dek_meta paths))) in H by (rewrite Hb; by eexists).
  apply run_try_Ok in H as (b' & w3 & Hr & H). apply run_map_err_Ok, run_file_op_Ok in Hr as (t & l & Hr & ->).
  cbn [fs set_fs set_faults] in Hr. rewrite Hb in Hr. injection Hr as <- <-.
  apply run_try_Ok in H as (meta & w4 & Hm & H). rewrite run_ret in Hm. injection Hm as Hm <-.
  destruct (json_from_slice b ≫= meta_from_json) as [m|]; [|done]. injection Hm as <-. cbn [mbind option_bind] in Hd.
  pose proof (reconstruct_same _ _ _ _ _ H) as [Hs Hg]. apply reconstruct_Ok in H as [Hrec _].
  cbn [fs set_fs set_faults] in Hrec. rewrite Hrec in Hd. by injection Hd as ->.
Qed.

Lemma init_dek_fresh prov w dek meta w' : run (init_dek prov) w = (Val (Ok (dek, meta)), w') -> fresh_dek prov w = Some dek.
Proof.
  unfold init_dek, fresh_dek. destruct prov as [pass|path]; intros H.
  - apply run_bind_Val in H as (salt & w1 & Hd & H). rewrite run_draw in Hd. injection Hd as <- <-.
    rewrite run_ret in H. injection H as H _. destruct (argon2_key pass _) as [[[[k m] t] p]|e] eqn:E; [|done].
    cbn [map_err] in H. rewrite bind_Ok in H. injection H as <- _. apply argon2_key_inv in E as (_ & _ & _ & ->). done.
  - apply run_try_Ok in H as (kek & w1 & Hk & H). apply keyfile_kek_same in Hk as [_ Hg].
    apply run_bind_Val in H as (d & w2 & Hd & H). rewrite run_draw in Hd. injection Hd as <- <-.
    apply run_bind_Val in H as (n & w3 & Hd & H). rewrite run_draw in Hd. injection Hd as <- <-.
    rewrite run_ret in H. injection H as H _. rewrite Hg in H. destruct (aead_seal _ _ kek); [|done]. cbn [map_err] in H.
    rewrite bind_Ok in H. by injection H as <- _.
Qed.

Lemma open_master_Ok paths failed dek w plain w' :
  run (open_master paths failed dek) w = (Val (Ok plain), w') ->
  master_text paths (fs w) dek = Some plain /\ same_volume w w'.
Proof.
  unfold open_master, master_text. intros H. apply run_try_Ok in H as (s & w1 & Hr & H).
  apply run_map_err_Ok, run_file_op_Ok in Hr as (t & l & Hr & ->). destruct (fs w !! dp_master_key paths); [|done].
  injection Hr as <- <-. rewrite run_ret in H. injection H as H <-. apply map_err_Ok in H. split; [|done].
  cbn [mbind option_bind]. by rewrite H.
Qed.

Lemma seal_over_Ok dir tmp plain dek w u w' :
  run (seal_over (DataPaths_under dir) tmp plain dek) w = (Val (Ok u), w') ->
  resealed dir tmp plain dek (fs w) (fs w').
Proof.
  unfold seal_over. intros H. apply run_try_Ok in H as (s & w1 & Hs & H). apply seal_master_Ok in Hs as [Hs Hf1].
  apply run_try_Ok in H as (u1 & w2 & Hw & H). apply write_secret_Ok in Hw.
  apply run_map_err_Ok, fs_rename_Ok in H as (b & Hb & Hf3). rewrite Hw, Hf1, lookup_insert_eq in Hb. injection Hb as <-.
  rewrite Hf3, Hw, Hf1. split.
  - unfold master_text. rewrite lookup_insert_eq. cbn [mbind option_bind]. by rewrite Hs.
  - intros p H1 H2. by rewrite lookup_insert_ne, lookup_delete_ne, lookup_insert_ne by congruence.
Qed.

(** What a rotation that reports success has done, whatever failed on the way. *)
Lemma rekey_Ok dir prov w dek plain w' :
  let paths := DataPaths_under dir in
  provider_outside paths prov -> volume_dek paths prov (fs w) = Some dek -> master_text paths (fs w) dek = Some plain ->
  run (rekey_master_dek paths prov) w = (Val (Ok tt), w') ->
  exists nd, fresh_dek prov w = Some nd /\ volume_dek paths prov (fs w') = Some nd /\
    master_text paths (fs w') nd = Some plain /\
    forall p, p ∉ [dp_dek_meta paths; dp_master_key paths; rekey_tmp paths] -> fs w' !! p = fs w !! p.
Proof.
  intros paths Ho Hdek Hmt H. subst paths. destruct (names_apart dir) as (N1 & _ & _ & _ & _ & _ & N7 & _).
  unfold rekey_master_dek in H. rewrite run_bind, run_fs_exists in H. destruct (bool_decide _); [cbn [negb] in H|done].
  apply run_try_Ok in H as (d & w1 & Hr & H). apply (resolve_same _ _ _ _ _ _ Hdek) in Hr as [-> [F1 G1]].
  apply run_try_Ok in H as (pl & w2 & Hm & H). apply open_master_Ok in Hm as [Hm [F2 G2]]. rewrite F1, Hmt in Hm. injection Hm as <-.
  apply run_try_Ok in H as ([nd meta] & w3 & Hi & H). pose proof (init_dek_fresh _ _ _ _ _ Hi) as Hfresh.
  apply init_dek_Ok in Hi as (Hrec & Hwr & F3). apply run_try_Ok in H as (u & w4 & Hs & H). apply seal_over_Ok in Hs as [Hmt' Hsame].
  unfold write_meta in H. apply write_secret_Ok in H. rewrite F3, F2, F1 in Hsame.
  exists nd. split; [|split; [|split]].
  - rewrite <- Hfresh. unfold fresh_dek. by rewrite G2, G1.
  - rewrite H. apply volume_dek_write; [done..|]. rewrite <- Hrec. apply recover_ext. intros p Hp.
    rewrite F2, F1. apply Hsame; intros ->; apply (Ho _ Hp); unfold volume_files; set_solver.
  - rewrite H. unfold master_text in *. by rewrite lookup_insert_ne by apply meta_not_master.
  - intros p Hp. rewrite !not_elem_of_cons in Hp. destruct Hp as (H1 & H2 & H3 & _).
    rewrite H, lookup_insert_ne by congruence. by apply Hsame.
Qed.
End rekey.

(** ** The claims *)

(** C11. A restart finds the same master key: after any boot that succeeded, on a
    fresh volume, an initialised one or one of the old layout, a later boot with
    the same provider, on the same metadata, master and provider files and
    without I/O errors, loads the key that boot returned and writes nothing. *)
Theorem restart_recovers_master {P : Primitives} {L : PrimitiveLaws P} {O : OpsLib} {OL : OpsLaws P O}
    {PF : Platform} {KC : KeyCodec} {KL : KeyCodecLaws PF KC} dir prov w k new w1 w2 :
  provider_outside (DataPaths_under dir) prov ->
  run (open_volume (DataPaths_under dir) prov) w = (Val (Ok (k, new)), w1) ->
  faults w2 = [] ->
  (forall p, p ∈ [dp_dek_meta (DataPaths_under dir); dp_master_key (DataPaths_under dir)] ++ provider_files prov ->
     fs w2 !! p = fs w1 !! p) ->
  run (open_volume (DataPaths_under dir) prov) w2 = (Val (Ok (k, false)), w2).
Proof.
  intros Ho Hr Hf Hsame. apply open_volume_Ok in Hr; [|done]. apply open_volume_calm; [done|].
  rewrite <- Hr. apply volume_key_ext; [apply Hsame; set_solver..|]. intros p Hp. apply Hsame. set_solver.
Qed.

(** A volume of the old layout, whose DEK lies on the disk in the clear or
    is derived by scrypt, opens to the master key it holds; afterwards the raw
    material and the mode byte are gone and the volume denotes the same key
    under the provider. *)
Theorem migration_keeps_master {P : Primitives} {L : PrimitiveLaws P} {O : OpsLib} {OL : OpsLaws P O}
    {PF : Platform} {KC : KeyCodec} {KL : KeyCodecLaws PF KC} dir prov w k :
  let paths := DataPaths_under dir in
  faults w = [] -> provider_outside paths prov -> provider_ready prov (fs w) -> legacy_volume paths prov (fs w) k ->
  exists w', run (open_volume paths prov) w = (Val (Ok (k, false)), w') /\
    volume_key paths prov (fs w') = Some k /\
    fs w' !! dp_dek paths = None /\ fs w' !! dp_mode paths = None.
Proof.
  intros paths Hf Ho Hrdy Hleg. subst paths. destruct (migrate_calm dir prov w k Hf Hrdy Ho Hleg) as (w1 & Hm & Hf1 & Hk & Hd & Hmo).
  exists w1. split; [|done]. apply volume_key_spec in Hk as (dek & plain & Hdek & Hmt & Hkj).
  destruct Hleg as (Hnone & mat & odek & opl & Hmat & _).
  pose proof Hdek as (b & meta & Hb & Hmeta & Hrec)%volume_dek_spec.
  unfold open_volume. eapply run_try; [|by eapply load_master_calm].
  unfold resolve_dek. do 2 (eapply run_try; [by rewrite run_map_err, fs_create_dir_all_calm|]).
  do 3 (rewrite run_bind, run_fs_exists).
  rewrite (bool_decide_eq_false_2 (is_Some (fs w !! dp_dek_meta (DataPaths_under dir)))) by (rewrite Hnone; by intros []).
  rewrite (bool_decide_eq_true_2 (is_Some (fs w !! dp_dek (DataPaths_under dir)))) by (rewrite Hmat; by eexists).
  cbn [negb andb orb]. eapply run_try; [exact Hm|]. rewrite run_bind, run_fs_exists.
  rewrite (bool_decide_eq_true_2 (is_Some (fs w1 !! dp_dek_meta (DataPaths_under dir)))) by (rewrite Hb; by eexists).
  eapply run_try; [by rewrite run_map_err, (fs_read_calm _ _ _ Hf1 Hb)|].
  eapply run_try; [by rewrite Hmeta, run_ret|]. by apply reconstruct_calm.
Qed.

(** C12. Rotating the DEK re-wraps the master key and changes nothing else.
    Whatever fails on the way, when [rekey_master_dek] reports success the
    metadata denotes the DEK made of the next draw of the random generator, the
    sealed key opens under that DEK to the key that was there, and files other
    than the metadata, the sealed key and the scratch file are untouched. When
    nothing fails it does report success. *)
Theorem rekey_keeps_master {P : Primitives} {L : PrimitiveLaws P} {O : OpsLib} {OL : OpsLaws P O}
    {PF : Platform} {KC : KeyCodec} {KL : KeyCodecLaws PF KC} dir prov w dek plain k :
  let paths := DataPaths_under dir in
  provider_outside paths prov ->
  volume_dek paths prov (fs w) = Some dek -> master_text paths (fs w) dek = Some plain -> key_from_json plain = Some k ->
  (forall w', run (rekey_master_dek paths prov) w = (Val (Ok tt), w') ->
     exists nd, fresh_dek prov w = Some nd /\ volume_dek paths prov (fs w') = Some nd /\
       master_text paths (fs w') nd = Some plain /\ volume_key paths prov (fs w') = Some k /\
       forall p, p ∉ [dp_dek_meta paths; dp_master_key paths; rekey_tmp paths] -> fs w' !! p = fs w !! p) /\
  (faults w = [] -> provider_ready prov (fs w) -> Z.of_nat (length plain) <= 2 ^ 36 - 32 ->
     exists w', run (rekey_master_dek paths prov) w = (Val (Ok tt), w')).
Proof.
  intros paths Ho Hdek Hmt Hk. subst paths. split.
  - intros w' H. destruct (rekey_Ok dir prov w dek plain w' Ho Hdek Hmt H) as (nd & Hf & Hd & Hm & Hs).
    exists nd. split_and!; [done..| |done]. apply volume_key_spec. by exists nd, plain.
  - intros Hf Hrdy Hlen. destruct (init_dek_calm prov w Hf Hrdy) as (nd & meta & w1 & Hi & Hf1 & Hfs1).
    destruct (seal_over_calm dir (rekey_tmp (DataPaths_under dir)) plain nd w1 Hf1 Hlen) as (w2 & Hso & Hf2 & _).
    eexists. unfold rekey_master_dek. rewrite run_bind, run_fs_exists. rewrite bool_decide_eq_true_2.
    2: { unfold master_text in Hmt. destruct (fs w !! dp_master_key (DataPaths_under dir)); [by eexists|done]. }
    cbn [negb]. eapply run_try; [by apply resolve_dek_calm|]. eapply run_try; [by apply open_master_calm|].
    eapply run_try; [exact Hi|]. cbv beta iota. eapply run_try; [exact Hso|]. by apply write_meta_calm.
Qed.

(** *** An initialised volume is only read *)

(** From files [t], whatever fails, a program leaves the files as they are. *)
Definition unwritten (t : gmap string bytes) {A} (m : M A) : Prop :=
  forall w, fs w = t -> fs (run m w).2 = t.

Lemma unwritten_bind t {A B} (m : M A) (f : A -> M B) :
  unwritten t m -> (forall a, unwritten t (f a)) -> unwritten t (m ≫= f).
Proof.
  intros Hm Hf w Hw. rewrite run_bind. specialize (Hm w Hw). destruct (run m w) as [[a|r|s e] w1]; [by apply Hf|done..].
Qed.

Lemma unwritten_try t {E A B} (m : M (result E A)) (f : A -> M (result E B)) :
  unwritten t m -> (forall a, unwritten t (f a)) -> unwritten t (try_bind m f).
Proof. intros Hm Hf. apply unwritten_bind; [done|]. intros [a|e]; [apply Hf|by intros w]. Qed.

Lemma unwritten_exists t p {B} (f : bool -> M B) :
  unwritten t (f (bool_decide (is_Some (t !! p)))) -> unwritten t (fs_exists p ≫= f).
Proof. intros Hf w Hw. rewrite run_bind, run_fs_exists, Hw. by apply Hf. Qed.

Lemma unwritten_touches t {A} (m : M A) : touches (fun _ => False) m -> unwritten t m.
Proof. intros Hm w Hw. by rewrite touches_none_run. Qed.

Lemma touches_keyfile_kek `{Primitives} S path : touches S (keyfile_kek path).
Proof. unfold keyfile_kek. touching. Qed.

Lemma touches_reconstruct `{Primitives} {O : OpsLib} S prov meta : touches S (reconstruct_dek prov meta).
Proof. unfold reconstruct_dek. touching. apply touches_keyfile_kek. Qed.

(** Opening a volume that is initialised writes nothing, whatever the
    provider (the right one, another keyfile or passphrase, the other kind) and
    whatever I/O fails; and a provider of the other kind is refused as such. *)
Theorem initialised_volume_only_read {P : Primitives} {O : OpsLib} {PF : Platform} {KC : KeyCodec} dir prov w :
  let paths := DataPaths_under dir in
  is_Some (fs w !! dp_dek_meta paths) -> is_Some (fs w !! dp_master_key paths) ->
  fs (run (open_volume paths prov) w).2 = fs w /\
  (forall b meta, faults w = [] -> fs w !! dp_dek_meta paths = Some b ->
     json_from_slice b ≫= meta_from_json = Some meta -> dm_provider meta <> kind prov ->
     run (open_volume paths prov) w = (Val (Err (PeProviderMismatch (dm_provider meta) (kind prov))), w)).
Proof.
  intros paths Hm Hk. subst paths. split.
  - assert (Hl : unwritten (fs w) (open_volume (DataPaths_under dir) prov)); [|by apply Hl].
    unfold open_volume. apply unwritten_try.
    + unfold resolve_dek. do 2 (apply unwritten_try; [apply unwritten_touches; touching|intros _]).
      do 3 apply unwritten_exists. rewrite (bool_decide_eq_true_2 _ Hm). cbn [negb andb].
      apply unwritten_try; [by apply unwritten_touches|intros _]. apply unwritten_exists. rewrite (bool_decide_eq_true_2 _ Hm).
      apply unwritten_touches. touching; apply touches_reconstruct.
    + intros dek. unfold load_or_init_master. apply unwritten_exists. rewrite (bool_decide_eq_true_2 _ Hk).
      apply unwritten_touches. touching.
  - intros b meta Hf Hb Hj Hne. unfold open_volume, try_bind at 1. rewrite run_bind.
    assert (run (resolve_dek (DataPaths_under dir) prov) w = (Val (Err (PeProviderMismatch (dm_provider meta) (kind prov))), w)) as ->; [|done].
    unfold resolve_dek. do 2 (eapply run_try; [by rewrite run_map_err, fs_create_dir_all_calm|]).
    do 3 (rewrite run_bind, run_fs_exists). rewrite (bool_decide_eq_true_2 _ Hm). cbn [negb andb].
    eapply run_try; [apply run_ret|]. rewrite run_bind, run_fs_exists, (bool_decide_eq_true_2 _ Hm).
    eapply run_try; [by rewrite run_map_err, (fs_read_calm _ _ _ Hf Hb)|].
    eapply run_try; [by rewrite Hj, run_ret|]. unfold reconstruct_dek.
    by destruct (String.eqb_spec (dm_provider meta) (kind prov)).
Qed.

(** ** A concrete volume *)

Fixpoint un_list (b : bytes) : option (bytes * bytes) :=
  match b with
  | Byte.x01 :: c :: r => '(l, r') ← un_list r; Some (c :: l, r')
  | Byte.x00 :: r => Some ([], r)
  | _ => None
  end.

Fixpoint un_nat (b : bytes) : option (nat * bytes) :=
  match b with
  | Byte.x01 :: r => '(n, r') ← un_nat r; Some (S n, r')
  | Byte.x00 :: r => Some (0%nat, r)
  | _ => None
  end.

Definition un_secondary (b : bytes) : option (SecondaryKey * bytes) :=
  '(s, b) ← un_list b; '(d, b) ← un_list b; '(k, b) ← un_nat b; '(n, b) ← un_nat b;
  Some ({| sk_primary := {| seed := s |}; sk_domain := of_bytes d;
           sk_kdf := match k with 0%nat => Scrypt | _ => Pbkdf2Sha3_512 end; sk_length := n |}, b).

Definition toy_un_key (b : bytes) : option BlackbookKey :=
  '(id, b) ← un_list b; '(wr, b) ← un_list b; '(wp, b) ← un_secondary b; '(it, b) ← un_nat b;
  '(rt, b) ← un_list b; '(l1, b) ← un_secondary b; '(l2, b) ← un_secondary b; '(fk, b) ← un_secondary b;
  '(ix, b) ← un_secondary b; '(hm, b) ← un_secondary b; '(mf, b) ← un_secondary b;
  '(sk, b) ← un_list b; '(vk, b) ← un_list b; '(xk, b) ← un_list b;
  Some {| bk_id := id; symmetric := {| wk_wrapped := wr; wk_wrapper := wp; wk_iterations := it |};
          root := {| seed := rt |}; secret_layer1 := l1; secret_layer2 := l2; file_dek_kek := fk;
          Crypto.index := ix; Crypto.hmac := hm; mfa_secret_kek := mf;
          asymmetric := {| signing_key := sk; verifying_key := vk |}; exchange_key := xk |}.

Lemma un_toy_list l r : un_list (toy_list l ++ r) = Some (l, r).
Proof. induction l as [|b l IH]; [done|]. cbn [toy_list app un_list]. by rewrite IH. Qed.

Lemma un_toy_nat n r : un_nat (toy_nat n ++ r) = Some (n, r).
Proof. induction n as [|n IH]; [done|]. cbn [toy_nat app un_nat]. by rewrite IH. Qed.

Lemma un_toy_secondary k r : un_secondary (toy_secondary k ++ r) = Some (k, r).
Proof.
  destruct k as [[s] d kdf n]. unfold un_secondary, toy_secondary. cbn [sk_primary seed sk_domain sk_kdf sk_length].
  rewrite <- !app_assoc, un_toy_list. cbn [mbind option_bind]. rewrite un_toy_list. cbn [mbind option_bind].
  rewrite un_toy_nat. cbn [mbind option_bind]. rewrite un_toy_nat. cbn [mbind option_bind].
  rewrite of_as_bytes. by destruct kdf.
Qed.

#[export] Instance toy_key_codec : KeyCodec := {| key_from_json := toy_un_key |}.

#[export] Instance toy_key_codec_laws : KeyCodecLaws toy_platform toy_key_codec.
Proof.
  split. intros k b [= <-]. change (toy_un_key (toy_key_bytes k) = Some k).
  destruct k as [id [wr wp it] [rt] l1 l2 fk ix hm mf [sk vk] xk]. unfold toy_key_bytes, toy_un_key.
  cbn [bk_id symmetric wk_wrapped wk_wrapper wk_iterations root seed secret_layer1 secret_layer2 file_dek_kek Crypto.index Crypto.hmac
       mfa_secret_kek asymmetric signing_key verifying_key exchange_key].
  rewrite <- (app_nil_r (toy_list xk)).
  repeat first [rewrite un_toy_list | rewrite un_toy_secondary | rewrite un_toy_nat | progress cbn [mbind option_bind]].
  done.
Qed.

Definition toy_paths : DataPaths := DataPaths_under "/data".
Definition toy_keyfile : DekProvider := ProvKeyfile "/run/keyfile".

(** A fresh volume, and the same one after its first boot. *)
Definition fresh_volume : World :=
  MkWorld empty_db {["/run/keyfile" := as_bytes "off the volume"]} 1000000000 0 [].
Definition booted_volume : World := Eval vm_compute in (run (open_volume toy_paths toy_keyfile) fresh_volume).2.
Definition toy_master : BlackbookKey := Eval vm_compute in
  match (run (open_volume toy_paths toy_keyfile) fresh_volume).1 with Val (Ok (k, _)) => k | _ => toy_bundle end.

Lemma toy_outside : provider_outside toy_paths toy_keyfile.
Proof. intros p Hp. apply list_elem_of_singleton in Hp as ->. apply (bool_decide_unpack _). vm_compute. exact I. Qed.

(** A volume of the old layout: the raw DEK, its mode byte and the master key. *)
Definition old_volume : World := Eval vm_compute in
  MkWorld empty_db
    (<["/data/dek" := be_bytes 32 99]> (<["/data/dek.mode" := [Byte.x00]]>
      (<["/data/master.bbkey" := unwrap_or [] (encrypt_aes_gcm (be_bytes 32 4) 5 (toy_key_bytes toy_bundle) (be_bytes 32 99))]>
        (fs fresh_volume)))) 1000000000 0 [].

Lemma restart_recovers_master_witness :
  run (open_volume toy_paths toy_keyfile) booted_volume = (Val (Ok (toy_master, false)), booted_volume).
Proof.
  apply (restart_recovers_master "/data" toy_keyfile fresh_volume toy_master true booted_volume booted_volume).
  - exact toy_outside.
  - vm_compute. reflexivity.
  - vm_compute. reflexivity.
  - reflexivity.
Defined.

Lemma migration_keeps_master_witness :
  exists w', run (open_volume toy_paths toy_keyfile) old_volume = (Val (Ok (toy_bundle, false)), w') /\
    volume_key toy_paths toy_keyfile (fs w') = Some toy_bundle /\
    fs w' !! dp_dek toy_paths = None /\ fs w' !! dp_mode toy_paths = None.
Proof.
  apply (migration_keeps_master "/data" toy_keyfile old_volume toy_bundle).
  - reflexivity.
  - exact toy_outside.
  - exists (as_bytes "off the volume"). split; [vm_compute; reflexivity|discriminate].
  - split; [vm_compute; reflexivity|].
    exists (be_bytes 32 99), (be_bytes 32 99), (toy_key_bytes toy_bundle).
    repeat split; first [vm_compute; reflexivity|vm_compute; discriminate].
Defined.

Definition rekeyed_volume : World := Eval vm_compute in (run (rekey_master_dek toy_paths toy_keyfile) booted_volume).2.

Lemma rekey_keeps_master_witness :
  (exists nd, fresh_dek toy_keyfile booted_volume = Some nd /\
     volume_dek toy_paths toy_keyfile (fs rekeyed_volume) = Some nd /\
     master_text toy_paths (fs rekeyed_volume) nd = Some (toy_key_bytes toy_master) /\
     volume_key toy_paths toy_keyfile (fs rekeyed_volume) = Some toy_master /\
     forall p, p ∉ [dp_dek_meta toy_paths; dp_master_key toy_paths; rekey_tmp toy_paths] ->
       fs rekeyed_volume !! p = fs booted_volume !! p) /\
  volume_dek toy_paths toy_keyfile (fs booted_volume) <> fresh_dek toy_keyfile booted_volume.
Proof.
  split; [|vm_compute; discriminate].
  apply (rekey_keeps_master "/data" toy_keyfile booted_volume
           (default [] (volume_dek toy_paths toy_keyfile (fs booted_volume))) (toy_key_bytes toy_master) toy_master).
  - exact toy_outside.
  - vm_compute. reflexivity.
  - vm_compute. reflexivity.
  - vm_compute. reflexivity.
  - vm_compute. reflexivity.
Defined.

Definition booted_meta : DekMeta :=
  Eval vm_compute in default (MkMeta 0 "" None None None None None)
    (json_from_slice (default [] (fs booted_volume !! "/data/dek.meta")) ≫= meta_from_json).

Lemma initialised_volume_only_read_witness :
  fs (run (open_volume toy_paths (ProvPassphrase "a-sixteen-char-pp!")) booted_volume).2 = fs booted_volume /\
  run (open_volume toy_paths (ProvPassphrase "a-sixteen-char-pp!")) booted_volume =
    (Val (Err (PeProviderMismatch "keyfile" "passphrase")), booted_volume).
Proof.
  destruct (initialised_volume_only_read "/data" (ProvPassphrase "a-sixteen-char-pp!") booted_volume) as [H1 H2].
  - vm_compute. by eexists.
  - vm_compute. by eexists.
  - split; [exact H1|].
    apply (H2 (default [] (fs booted_volume !! "/data/dek.meta"))
              booted_meta);
      first [vm_compute; reflexivity|vm_compute; discriminate].
Defined.

(** ** Crashes between two files *)

(** [rekey_master_dek] fails when it writes [dek.meta]: [master.bbkey] is
    already under the new DEK, whose metadata is lost, and the volume no longer
    opens. The I/O steps before it are the two directories, the metadata, the
    keyfile, the sealed key, the keyfile again, and the scratch file's write,
    mode and rename. *)
Definition rekey_cut : World := Eval vm_compute in
  (run (rekey_master_dek toy_paths toy_keyfile) (set_faults (replicate 9 false ++ [true]) booted_volume)).2.

Example rekey_interrupted_loses_master :
  volume_key toy_paths toy_keyfile (fs booted_volume) = Some toy_master /\
  (run (rekey_master_dek toy_paths toy_keyfile) (set_faults (replicate 9 false ++ [true]) booted_volume)).1 =
    Val (Err (PeIo "I/O error")) /\
  faults rekey_cut = [] /\
  (run (open_volume toy_paths toy_keyfile) rekey_cut).1 =
    Val (Err (PeCrypto (Decryption "AES-GCM decryption failed"))).
Proof. vm_compute. repeat split. Qed.

(** The same in [migrate_legacy_dek]: the next boot migrates again, with a DEK
    that no longer opens the key. *)
Definition migrate_cut : World := Eval vm_compute in
  (run (open_volume toy_paths toy_keyfile) (set_faults (replicate 9 false ++ [true]) old_volume)).2.

Example migration_interrupted_loses_master :
  (run (open_volume toy_paths toy_keyfile) (set_faults (replicate 9 false ++ [true]) old_volume)).1 =
    Val (Err (PeIo "I/O error")) /\
  faults migrate_cut = [] /\
  (run (open_volume toy_paths toy_keyfile) migrate_cut).1 = Val (Err (PeMigration migrate_failed)).
Proof. vm_compute. repeat split. Qed.

(** Rotating the keyfile: the one provider both opens the old metadata and
    seals the new, so a rekey with a freshly generated keyfile is refused. *)
Example rekey_refuses_a_new_keyfile :
  (run (rekey_master_dek toy_paths toy_keyfile)
     (set_fs (<["/run/keyfile" := as_bytes "freshly generated"]> (fs booted_volume)) booted_volume)).1 =
    Val (Err (PeKeyfile "/run/keyfile" "wrong keyfile — wrapped DEK did not unwrap")).
Proof. vm_compute. reflexivity. Qed.
