(* ===== verification/Session.v ===== *)
(** Profiles of the command line client: the [Session] of [src/src/client.rs]
    and the commands of [src/src/main.rs] that create, unlock, lock, re-seal and
    delete it. Profiles lie under [~/.bbk]; the server is asked only who the
    caller is. *)
From stdpp Require Import sorting pretty.
From S2P Require Import Prelude Text Crypto Effects CryptoOps CredStore.

Inductive ClientError :=
| NoSession
| SessionIo (path detail : string)
| Http (msg : string)
| Api (status : Z) (message : string)
| ClIo (msg : string)
| ClJson (msg : string)
| TlsConfig (msg : string)
| Cred (e : CredError).

Inductive AppError :=
| AppDatabase (msg : string)
| AppConfig (msg : string)
| AppCrypto (msg : string)
| AppIo (msg : string)
| AppJson (msg : string)
| AppClient (msg : string).

(** The messages of [ClientError] and [From<ClientError> for AppError]; a
    request's own detail is in [Http]. *)
Definition client_msg (e : ClientError) : string :=
  match e with
  | NoSession => "not logged in — run `blackbook login --server URL --token TOKEN` first"
  | SessionIo path detail => "session file at " +:+ path +:+ ": " +:+ detail
  | Http m => "http: " +:+ m
  | Api status m => "api error (" +:+ pretty status +:+ "): " +:+ m
  | ClIo m => "io: " +:+ m
  | ClJson m => "json: " +:+ m
  | TlsConfig m => "tls config: " +:+ m
  | Cred e => cred_msg e
  end.

Definition app_of_client (e : ClientError) : AppError := AppClient (client_msg e).

(** [From<CredError> for AppError] *)
Definition app_of_cred (e : CredError) : AppError := AppConfig (cred_msg e).

Record Session := MkSession {
  se_server : string;
  se_token : option string;
  se_cert_pem : option string;
  se_key_pem : option string;
  se_ca_pem : option string;
  se_cmk : option string;
}.

(** An absent [cmk] is skipped, the other options are written as null. *)
Definition session_to_json (s : Session) : Json :=
  JObj ([("server", JStr (se_server s)); ("token", opt_json JStr (se_token s));
         ("cert_pem", opt_json JStr (se_cert_pem s)); ("key_pem", opt_json JStr (se_key_pem s));
         ("ca_pem", opt_json JStr (se_ca_pem s))]
        ++ match se_cmk s with Some k => [("cmk", JStr k)] | None => [] end).

Definition session_from_json (j : Json) : option Session :=
  server ← str_member "server" j; token ← opt_member as_str "token" j;
  cert ← opt_member as_str "cert_pem" j; key ← opt_member as_str "key_pem" j;
  ca ← opt_member as_str "ca_pem" j; cmk ← opt_member as_str "cmk" j;
  Some (MkSession server token cert key ca cmk).

(** ** Paths under [~/.bbk] *)

Definition bbk_dir (env : Environment) : result ClientError string :=
  home ← ok_or (SessionIo "~/.bbk" "could not resolve home directory") (home_dir env);
  Ok (path_join home ".bbk").

Definition path_for (env : Environment) (profile : string) : result ClientError string :=
  d ← bbk_dir env; Ok (path_join (path_join d "profiles") (profile +:+ ".json")).
Definition legacy_path (env : Environment) : result ClientError string :=
  d ← bbk_dir env; Ok (path_join d "session.json").
Definition active_pointer_path (env : Environment) : result ClientError string :=
  d ← bbk_dir env; Ok (path_join d "active").
Definition domain_pointer_path (env : Environment) (profile : string) : result ClientError string :=
  d ← bbk_dir env; Ok (path_join (path_join d "domains") profile).

(** A pure [?] in an effectful function. *)
Definition liftR {E A} (r : result E A) : M (result E A) := mret r.

(** [fs::read_to_string] *)
Definition fs_read_to_string (path : string) : M (result string string) :=
  r ← fs_read path;
  mret (b ← r; ok_or "stream did not contain valid UTF-8" (from_utf8 b)).

Section session.
Context {P : Primitives} {O : OpsLib} (env : Environment).

(** ** Plaintext pointers *)

Definition trimmed (s : string) : option string := nonempty (Some (trim s)).

Definition read_active_pointer : M (result ClientError (option string)) :=
  path ←? liftR (active_pointer_path env);
  there ← fs_exists path;
  if negb there then mret (Ok None)
  else s ←? map_err_m ClIo (fs_read_to_string path); mret (Ok (trimmed s)).

Definition write_active_pointer (name : string) : M (result ClientError unit) :=
  path ←? liftR (active_pointer_path env);
  _ ←? map_err_m ClIo (fs_create_dir_all path);
  map_err_m ClIo (fs_write path (as_bytes name)).

Definition read_domain_pref (profile : string) : M (option string) :=
  match domain_pointer_path env profile with
  | Err _ => mret None
  | Ok path => s ← fs_read_to_string path; mret (t ← ok s; trimmed t)
  end.

Definition write_domain_pref (profile domain : string) : M (result ClientError unit) :=
  path ←? liftR (domain_pointer_path env profile);
  _ ←? map_err_m ClIo (fs_create_dir_all path);
  map_err_m ClIo (fs_write path (as_bytes domain)).

Definition clear_domain_pref (profile : string) : M (result ClientError bool) :=
  path ←? liftR (domain_pointer_path env profile);
  there ← fs_exists path;
  if there : bool then _ ←? map_err_m ClIo (fs_remove path); mret (Ok true) else mret (Ok false).

(** ** Listing *)

(** [p.file_stem()] of a [.json] file directly in the directory; a name that
    starts with its only dot has no extension. *)
Definition json_stem (name : string) : option string :=
  let n := (String.length name - 5)%nat in
  if has_char "/"%char name then None
  else if ends_with ".json" name && negb (String.eqb name ".json") then Some (String.substring 0 n name) else None.

Definition name_order (a b : string) : Prop := String.leb a b = true.
#[local] Instance name_order_dec : RelDecision name_order.
Proof. intros a b. unfold name_order. apply _. Defined.

(** The names below a directory. Directories have no state of their own: one
    without files may as well not be there. *)
Definition below (dir : string) (t : gmap string bytes) : list string :=
  omap (fun kv : string * bytes => strip_prefix (dir +:+ "/") kv.1) (map_to_list t).

Definition fs_dir_exists (dir : string) : M bool :=
  perform (fun w => (negb (bool_decide (below dir (fs w) = [])), w)).
Definition fs_read_dir (dir : string) : M (result string (list string)) :=
  perform (file_op (fun t => Ok (below dir t, t))).

Definition list_profiles : M (result ClientError (list string)) :=
  d ←? liftR (bbk_dir env);
  dir ← fs_dir_exists (path_join d "profiles");
  names ←? (if dir : bool then map_err_m ClIo (fs_read_dir (path_join d "profiles")) else mret (Ok []));
  legacy ←? liftR (legacy_path env);
  there ← fs_exists legacy;
  let names := omap json_stem names in
  let names := if there && negb (existsb (String.eqb "default") names) then names ++ ["default"] else names in
  mret (Ok (merge_sort name_order names)).

(** ** Loading *)

Definition session_of_slice (b : bytes) : result ClientError Session :=
  ok_or (ClJson "not a session") (json_from_slice b ≫= session_from_json).

Definition passphrase_prompt (profile : string) : string := "Passphrase for profile '" +:+ profile +:+ "': ".

(** The second way in: the passphrase, which also refreshes the agent. *)
Definition open_by_passphrase (profile : string) (e : EncryptedProfile) : M (result ClientError Session) :=
  pass ←? liftR (map_err Cred (resolve_passphrase env None (passphrase_prompt profile) false));
  kek ←? liftR (map_err Cred (profile_kek e pass));
  inner ←? liftR (map_err Cred (open_with_kek e kek));
  _ ← ignore (agent_store env profile kek DEFAULT_AGENT_TTL_SECS);
  mret (session_of_slice inner).

Definition from_profile_bytes (profile : string) (b : bytes) : M (result ClientError Session) :=
  match json_from_slice b ≫= profile_from_json with
  | Some e =>
      if 2 <=? ep_v e then
        cached ← agent_get env profile;
        match (kek ← cached; ok (open_with_kek e kek)) with
        | Some inner => mret (session_of_slice inner)
        | None => open_by_passphrase profile e
        end
      else mret (session_of_slice b)
  | None => mret (session_of_slice b)
  end.

Definition load_named (profile : string) : M (result ClientError Session) :=
  path ←? liftR (path_for env profile);
  there ← fs_exists path;
  if there : bool then
    b ←? map_err_m (SessionIo path) (fs_read path);
    from_profile_bytes profile b
  else if String.eqb profile "default" then
    legacy ←? liftR (legacy_path env);
    old ← fs_exists legacy;
    if old : bool then
      b ←? map_err_m (SessionIo legacy) (fs_read legacy);
      from_profile_bytes profile b
    else mret (Err NoSession)
  else mret (Err NoSession).

(** ** The client master key *)

Definition with_cmk (s : Session) (k : option string) : Session :=
  MkSession (se_server s) (se_token s) (se_cert_pem s) (se_key_pem s) (se_ca_pem s) k.

(** The session after the call, and whether a key was minted. *)
Definition ensure_cmk (s : Session) : M (Session * bool) :=
  match se_cmk s with
  | Some _ => mret (s, false)
  | None => k ← draw 32; mret (with_cmk s (Some (b64_encode k)), true)
  end.

Definition cmk_bytes (s : Session) : option bytes :=
  c ← se_cmk s; raw ← b64_decode c;
  if (length raw =? 32)%nat then Some raw else None.

(** ** Saving *)

Definition save_encrypted (s : Session) (profile passphrase : string) : M (result ClientError string) :=
  let inner := json_to_vec (session_to_json s) in
  e ←? map_err_m Cred (seal_profile passphrase inner);
  kek ←? liftR (map_err Cred (profile_kek e passphrase));
  path ←? liftR (path_for env profile);
  _ ←? map_err_m ClIo (fs_create_dir_all path);
  _ ←? map_err_m ClIo (fs_write path (as_bytes (json_pretty (profile_to_json e))));
  _ ←? map_err_m ClIo (fs_chmod path);
  _ ← ignore (agent_store env profile kek DEFAULT_AGENT_TTL_SECS);
  _ ←? write_active_pointer profile;
  mret (Ok path).

Definition clear_named (profile : string) : M (result ClientError bool) :=
  path ←? liftR (path_for env profile);
  there ← fs_exists path;
  removed ←? (if there : bool then _ ←? map_err_m ClIo (fs_remove path); mret (Ok true) else mret (Ok false));
  if String.eqb profile "default" then
    legacy ←? liftR (legacy_path env);
    old ← fs_exists legacy;
    if old : bool then _ ←? map_err_m ClIo (fs_remove legacy); mret (Ok true) else mret (Ok removed)
  else mret (Ok removed).

(** ** Commands *)

Record Whoami := MkWhoami { me_name : string; me_role : string; me_user_domain : option string }.

(** The members of a login bundle; the server address may be overridden. *)
Definition bundle_session (j : Json) (server_override : option string) : option Session :=
  server ← opt_member as_str "server" j; token ← opt_member as_str "token" j;
  cert ← opt_member as_str "cert_pem" j; key ← opt_member as_str "key_pem" j;
  ca ← opt_member as_str "ca_pem" j;
  Some (MkSession (default (default "" server) server_override) token cert key ca None).

Definition missing_fields (s : Session) : list string :=
  (if String.eqb (se_server s) "" then ["server"] else [])
  ++ (match se_token s with None => ["token"] | Some _ => [] end)
  ++ (match se_cert_pem s with None => ["cert"] | Some _ => [] end)
  ++ (match se_key_pem s with None => ["key"] | Some _ => [] end)
  ++ (match se_ca_pem s with None => ["ca"] | Some _ => [] end).

(** From the existing profile, if it loads, to the saved one: which master key
    and which passphrase the profile gets. *)
Definition login_profile (session : Session) (profile : string) : M (result AppError (Session * string)) :=
  loaded ← load_named profile;
  let carried_cmk := s ← ok loaded; se_cmk s in
  pass ←? liftR (match carried_cmk with
                 | Some _ =>
                     map_err (fun e => AppConfig ("the existing profile is passphrase-protected: " +:+ cred_msg e))
                       (resolve_passphrase env None
                          ("Passphrase for existing profile '" +:+ profile +:+ "': ") false)
                 | None =>
                     map_err (fun e => AppConfig ("a passphrase is required to protect local credentials: "
                                                  +:+ cred_msg e))
                       (resolve_passphrase env None "Choose a passphrase to protect this profile: " true)
                 end);
  '(session, _) ← ensure_cmk (with_cmk session carried_cmk);
  path ←? map_err_m app_of_client (save_encrypted session profile pass);
  mret (Ok (session, path)).

(** [raw] is the bundle's text, [whoami] the call to the server. The session
    that was saved. *)
Definition cmd_login (whoami : Session -> M (result ClientError Whoami)) (raw : string)
    (server_override profile_override : option string) : M (result AppError Session) :=
  j ←? liftR (ok_or (AppConfig "bundle") (json_from_slice (as_bytes raw)));
  session ←? liftR (ok_or (AppConfig "bundle") (bundle_session j server_override));
  match missing_fields session with
  | _ :: _ as missing =>
      mret (Err (AppConfig ("incomplete credential bundle — missing: " +:+ String.concat ", " missing
        +:+ ". Use a bundle from `client create` or the first-run admin-bundle.json.")))
  | [] =>
      me ←? map_err_m app_of_client (whoami session);
      let profile := default (me_name me) profile_override in
      '(saved, _) ←? login_profile session profile;
      match me_user_domain me with
      | None => mret (Ok saved)
      | Some ud =>
          pref ← read_domain_pref profile;
          match pref with
          | Some _ => mret (Ok saved)
          | None => _ ←? map_err_m app_of_client (write_domain_pref profile ud); mret (Ok saved)
          end
      end
  end.

Definition cmd_logout (profile : string) : M (result AppError bool) :=
  _ ← agent_clear env profile;
  map_err_m app_of_client (clear_named profile).

Definition no_such_profile (profile : string) : AppError :=
  AppConfig ("no such profile '" +:+ profile +:+ "' — run `blackbook login` first").

(** The encrypted envelope of a profile on disk. *)
Definition read_envelope (profile plain : string) : M (result AppError (string * EncryptedProfile)) :=
  path ←? liftR (map_err (fun e => AppConfig (client_msg e)) (path_for env profile));
  b ←? map_err_m (fun _ => no_such_profile profile) (fs_read path);
  e ←? liftR (ok_or (AppConfig ("profile '" +:+ profile +:+ "' is not " +:+ plain))
                (json_from_slice b ≫= profile_from_json));
  mret (Ok (path, e)).

Definition cmd_unlock (profile : string) (ttl_minutes : Z) : M (result AppError unit) :=
  '(_, e) ←? read_envelope profile "encrypted (legacy plaintext); re-run `blackbook login` to protect it";
  pass ←? liftR (map_err app_of_cred (resolve_passphrase env None (passphrase_prompt profile) false));
  kek ←? liftR (map_err app_of_cred (profile_kek e pass));
  _ ←? liftR (map_err (fun _ => AppConfig "wrong passphrase — profile not unlocked") (open_with_kek e kek));
  map_err_m app_of_cred (agent_store env profile kek (Z.min u64_max (ttl_minutes * 60))).

Definition cmd_lock (profile : string) : M bool := agent_clear env profile.

(** A flag, an environment variable of its own, or [resolve_passphrase]. *)
Definition named_passphrase (flag : option string) (var prompt : string) (confirm : bool) :
    result AppError string :=
  match nonempty flag with
  | Some p => Ok p
  | None =>
      match nonempty (env_var env var) with
      | Some p => Ok p
      | None => map_err app_of_cred (resolve_passphrase env None prompt confirm)
      end
  end.

(** [path.with_extension("json.tmp")] of a path ending in [.json], which is the
    extension unless it is the whole file name. *)
Definition json_tmp (path : string) : string :=
  if ends_with "/.json" path then path +:+ ".json.tmp" else path +:+ ".tmp".

Definition cmd_passphrase (profile : string) (old new : option string) : M (result AppError unit) :=
  '(path, e) ←? read_envelope profile
                 "an encrypted profile (legacy plaintext); re-run `blackbook login` to protect it";
  old_pp ←? liftR (named_passphrase old "BLACKBOOK_OLD_PASSPHRASE"
                     ("Current passphrase for '" +:+ profile +:+ "': ") false);
  inner ←? liftR (map_err (fun _ => AppConfig "current passphrase is incorrect") (open_with_passphrase e old_pp));
  new_pp ←? liftR (named_passphrase new "BLACKBOOK_NEW_PASSPHRASE" "New passphrase: " true);
  if String.eqb new_pp old_pp then mret (Err (AppConfig "new passphrase is the same as the current one"))
  else
    sealed ←? map_err_m app_of_cred (seal_profile new_pp inner);
    _ ←? map_err_m AppIo (fs_write (json_tmp path) (as_bytes (json_pretty (profile_to_json sealed))));
    _ ←? map_err_m AppIo (fs_rename (json_tmp path) path);
    match profile_kek sealed new_pp with
    | Ok kek => _ ← ignore (agent_store env profile kek DEFAULT_AGENT_TTL_SECS); mret (Ok tt)
    | Err _ => mret (Ok tt)
    end.

Definition cmd_profile_use (name : string) : M (result AppError unit) :=
  _ ←? map_err_m (fun _ => AppConfig ("no such profile '" +:+ name +:+ "'")) (load_named name);
  map_err_m app_of_client (write_active_pointer name).
End session.
