(* ===== verification/SessionProps.v ===== *)
(** Properties of the local profiles ([Session.v]): what is saved loads again,
    a locked profile opens only by its passphrase, and neither a new passphrase
    nor a new login loses the client master key, as long as the old profile
    opens. *)
From S2P Require Import Prelude Text Crypto ToyPrimitives Store Effects CryptoOps ToyOps CryptoOpsProps CredStore FileSteps Session.

(** Text that survives JSON. *)
Definition opt_str_ok (o : option string) : bool := match o with Some s => str_ok s | None => true end.

Definition session_ok (s : Session) : bool :=
  str_ok (se_server s) && opt_str_ok (se_token s) && opt_str_ok (se_cert_pem s) && opt_str_ok (se_key_pem s)
  && opt_str_ok (se_ca_pem s) && opt_str_ok (se_cmk s).

Section codecs.
Context {P : Primitives} {L : PrimitiveLaws P} {O : OpsLib} {OL : OpsLaws P O}.

Lemma opt_json_fits o : opt_str_ok o = true -> json_fits (opt_json JStr o) = true.
Proof. by destruct o. Qed.

Lemma session_roundtrip s : session_ok s = true -> session_of_slice (json_to_vec (session_to_json s)) = Ok s.
Proof.
  unfold session_ok. intros H. bool_to_prop. unfold session_of_slice.
  assert (Hj : json_fits (session_to_json s) = true).
  { destruct s as [sv tk ct ky ca cm]. cbn [se_server se_token se_cert_pem se_key_pem se_ca_pem se_cmk] in *.
    unfold session_to_json. cbn [se_server se_token se_cert_pem se_key_pem se_ca_pem se_cmk].
    destruct cm as [k|]; cbn [app json_fits forallb fst snd];
      rewrite ?(opt_json_fits _ H0), ?(opt_json_fits _ H1), ?(opt_json_fits _ H2), ?(opt_json_fits _ H3), ?(opt_json_fits _ H4), ?H; try done.
    all: cbn [opt_str_ok] in *; repeat match goal with E : _ = true |- _ => rewrite E; clear E end; done. }
  rewrite json_vec_reads by done. destruct s as [sv [tk|] [ct|] [ky|] [ca|] [cm|]]; reflexivity.
Qed.

Lemma profile_roundtrip e :
  json_fits (profile_to_json e) = true -> 0 <= ep_v e <= u8_max -> 0 <= ep_m_cost e <= u32_max ->
  0 <= ep_t_cost e <= u32_max -> 0 <= ep_p_cost e <= u32_max ->
  json_from_slice (as_bytes (json_pretty (profile_to_json e))) ≫= profile_from_json = Some e.
Proof.
  intros Hj Hv Hm Ht Hp. rewrite json_pretty_reads by done.
  destruct e as [v en sa m t p ct]. cbn [ep_v ep_m_cost ep_t_cost ep_p_cost] in *.
  assert (Hr : forall mx z, 0 <= z <= mx -> in_range 0 mx z = Some z).
  { intros mx z Hz. unfold in_range. by rewrite (proj2 (Z.leb_le _ _) (proj1 Hz)), (proj2 (Z.leb_le _ _) (proj2 Hz)). }
  change (profile_from_json (json_norm (profile_to_json (MkProfile v en sa m t p ct))) = Some (MkProfile v en sa m t p ct)).
  unfold profile_from_json.
  change (uint_member ?mx "v" _) with (in_range 0 mx v). change (uint_member ?mx "m_cost" _) with (in_range 0 mx m).
  change (uint_member ?mx "t_cost" _) with (in_range 0 mx t). change (uint_member ?mx "p_cost" _) with (in_range 0 mx p).
  by rewrite !Hr by done.
Qed.
End codecs.

(** ** Paths *)

Definition profile_file (home profile : string) : string :=
  path_join (path_join (path_join home ".bbk") "profiles") (profile +:+ ".json").
Definition agent_file (home profile : string) : string :=
  path_join (path_join (path_join home ".bbk") "agent") profile.
Definition active_file (home : string) : string := path_join (path_join home ".bbk") "active".

Lemma path_for_home env home profile : home_dir env = Some home -> path_for env profile = Ok (profile_file home profile).
Proof. unfold path_for, bbk_dir. by intros ->. Qed.
Lemma agent_path_home env home profile : home_dir env = Some home -> agent_path env profile = Ok (agent_file home profile).
Proof. unfold agent_path, agent_dir. by intros ->. Qed.
Lemma active_path_home env home : home_dir env = Some home -> active_pointer_path env = Ok (active_file home).
Proof. unfold active_pointer_path, bbk_dir. by intros ->. Qed.

Lemma starts_with_app_l p a b : starts_with p a = true -> starts_with p (a +:+ b) = true.
Proof.
  unfold starts_with. rewrite !bool_decide_eq_true. intros [r Hr]. apply strip_prefix_Some in Hr as ->.
  rewrite string_app_assoc, strip_prefix_app. by eexists.
Qed.

(** Joining a relative path only appends to the directory. *)
Lemma path_join_rel dir : exists pre, forall a, starts_with "/" a = false -> path_join dir a = pre +:+ a.
Proof.
  unfold path_join. destruct (String.eqb dir "" || ends_with "/" dir).
  - exists dir. by intros a ->.
  - exists (dir +:+ "/"). intros a ->. by rewrite string_app_assoc.
Qed.

(** The part of a profile's paths below [~/.bbk]. *)
Definition relative (profile : string) : Prop := starts_with "/" profile = false /\ profile <> "".

Lemma paths_below home : exists pre, forall profile, relative profile ->
  profile_file home profile = pre +:+ "profiles/" +:+ profile +:+ ".json" /\
  agent_file home profile = pre +:+ "agent/" +:+ profile /\ active_file home = pre +:+ "active".
Proof.
  destruct (path_join_rel (path_join home ".bbk")) as [pre Hpre]. exists pre. intros profile [Hr Hne].
  assert (Hext : starts_with "/" (profile +:+ ".json") = false).
  { destruct profile as [|a s]; [done|]. unfold starts_with in *. rewrite bool_decide_eq_false in *. intros H. apply Hr.
    revert H. change (String a s +:+ ".json") with (String a (s +:+ ".json")).
    unfold strip_prefix. destruct (Ascii.eqb "/" a); [by eexists|done]. }
  assert (Hsub : forall d x, starts_with "/" d = false -> ends_with "/" (pre +:+ d) = false ->
    (pre +:+ d <> "") -> starts_with "/" x = false ->
    path_join (path_join (path_join home ".bbk") d) x = pre +:+ d +:+ "/" +:+ x).
  { intros d x Hd He Hn Hx. rewrite (Hpre d Hd). unfold path_join. rewrite Hx, He.
    destruct (String.eqb_spec (pre +:+ d) ""); [done|]. cbn [orb]. by rewrite !string_app_assoc. }
  assert (Hlast : forall d, String.length d <> 0%nat -> ends_with "/" d = false -> ends_with "/" (pre +:+ d) = false).
  { intros d Hd He. clear -Hd He. induction pre as [|a pre IH]; [done|].
    change (String a pre +:+ d) with (String a (pre +:+ d)). cbn [ends_with]. rewrite IH.
    rewrite orb_false_r. apply String.eqb_neq. intros H. apply (f_equal String.length) in H. cbn in H.
    rewrite string_app_length in H. lia. }
  assert (Hne' : forall d, String.length d <> 0%nat -> pre +:+ d <> "").
  { intros d Hd H. apply (f_equal String.length) in H. rewrite string_app_length in H. simpl in H. lia. }
  unfold profile_file, agent_file, active_file. split; [|split; [|by apply Hpre]].
  - rewrite (Hsub "profiles"); [done|done|by apply Hlast|by apply Hne'|done].
  - rewrite (Hsub "agent"); [done|done|by apply Hlast|by apply Hne'|done].
Qed.

(** The three files of a profile are different. *)
Lemma profile_paths_apart home profile : relative profile ->
  profile_file home profile <> agent_file home profile /\ profile_file home profile <> active_file home /\
  agent_file home profile <> active_file home.
Proof.
  intros Hr. destruct (paths_below home) as [pre H]. destruct (H profile Hr) as (-> & -> & ->).
  split; [|split]; intros He%app_inj_l; discriminate He.
Qed.

(** ** Envelopes and the agent *)

Section store.
Context {P : Primitives} {L : PrimitiveLaws P} {O : OpsLib} {OL : OpsLaws P O}.

(** An envelope as the code writes it, which the key opens to [inner]. *)
Record sealed_under (e : EncryptedProfile) (kek inner : bytes) : Prop := {
  su_version : ep_v e = 2;
  su_open : open_with_kek e kek = Ok inner;
  su_length : length kek = 32%nat;
  su_written : json_from_slice (as_bytes (json_pretty (profile_to_json e))) ≫= profile_from_json = Some e;
}.

Lemma seal_profile_Ok pass inner w e w' :
  run (seal_profile pass inner) w = (Val (Ok e), w') ->
  fs w' = fs w /\ clock w' = clock w /\ faults w' = faults w /\
  exists kek, profile_kek e pass = Ok kek /\ sealed_under e kek inner.
Proof.
  unfold seal_profile. intros H. apply run_bind_Val in H as (salt & w1 & Hd & H). rewrite run_draw in Hd. injection Hd as <- <-.
  destruct (derive_kek pass _ _ _ _) as [kek|err] eqn:Ek; [|done].
  apply run_bind_Val in H as (n & w2 & Hd & H). rewrite run_draw in Hd. injection Hd as <- <-.
  rewrite run_ret in H. injection H as H <-. do 3 (split; [done|]).
  destruct (aead_seal _ inner kek) as [ct|err] eqn:Ea; [|done]. cbn [map_err] in H. rewrite bind_Ok in H. injection H as <-.
  exists kek. unfold profile_kek. cbn [ep_salt ep_m_cost ep_t_cost ep_p_cost]. rewrite b64_roundtrip. cbn [ok_or].
  rewrite bind_Ok. split; [done|].
  assert (Hl : length kek = 32%nat).
  { unfold derive_kek in Ek. destruct (argon2_into _ _ _ _ _) as [k|] eqn:Ei; [|done]. simpl in Ek. simplify_eq.
    by apply (argon2_length _ _ _ _ _ _ Ei). }
  split; [done| |done|].
  - unfold open_with_kek. cbn [ep_ct]. rewrite b64_roundtrip. cbn [ok_or]. rewrite bind_Ok.
    by rewrite (aead_roundtrip _ _ _ _ (rand_length _ _) Ea).
  - apply profile_roundtrip; [cbn; by rewrite !b64_str_ok|..]; vm_compute; split; discriminate.
Qed.

(** What the agent's file holds. *)
Definition agent_text (kek : bytes) (expires : Z) : bytes := json_to_vec (agent_to_json (MkAgent (b64_encode kek) expires)).

Lemma agent_text_parse kek expires :
  0 <= expires <= u64_max ->
  json_from_slice (agent_text kek expires) ≫= agent_from_json = Some (MkAgent (b64_encode kek) expires).
Proof.
  intros He. unfold agent_text. rewrite json_vec_reads.
  - change (agent_from_json (json_norm (agent_to_json (MkAgent (b64_encode kek) expires))) = Some (MkAgent (b64_encode kek) expires)).
    unfold agent_from_json. change (str_member "kek" _) with (Some (b64_encode kek)).
    change (uint_member ?m "expires_at" _) with (in_range 0 m expires). unfold in_range.
    by rewrite (proj2 (Z.leb_le _ _) (proj1 He)), (proj2 (Z.leb_le _ _) (proj2 He)).
  - cbn [agent_to_json ae_expires_at ae_kek json_fits forallb fst snd]. rewrite b64_str_ok.
    change (sorted_keys _) with true. rewrite !andb_true_iff, !Z.leb_le. change i64_min with (- 2 ^ 63). repeat split; try done; lia.
Qed.

Lemma agent_store_calm env home profile kek ttl w :
  faults w = [] -> home_dir env = Some home -> 0 <= clock w ->
  run (agent_store env profile kek ttl) w =
    (Val (Ok tt), set_fs (<[agent_file home profile :=
       agent_text kek ((clock w / 1000000 + ttl) mod 2 ^ 64)]> (fs w)) w).
Proof.
  intros Hf Hh Hc. unfold agent_store. rewrite (agent_path_home env home profile Hh).
  unfold agent_dir at 1. rewrite Hh. cbn [ok_or]. rewrite bind_Ok.
  eapply run_try; [by rewrite run_map_err, fs_create_dir_all_calm|].
  eapply run_then; [unfold now_secs; by rewrite run_bind, run_utc_now, run_ret|].
  rewrite Z.max_r by (apply Z.div_pos; lia). cbv zeta. eapply run_try; [by rewrite run_map_err, fs_write_calm|].
  unfold ignore. rewrite run_bind, run_bind, fs_chmod_calm; [done|done|]. cbn [fs set_fs]. rewrite lookup_insert_eq. by eexists.
Qed.

(** A live entry is returned, an expired one is deleted. *)
Lemma agent_get_live env home profile kek expires w :
  faults w = [] -> home_dir env = Some home -> length kek = 32%nat -> 0 <= expires <= u64_max ->
  fs w !! agent_file home profile = Some (agent_text kek expires) -> Z.max 0 (clock w / 1000000) < expires ->
  run (agent_get env profile) w = (Val (Some kek), w).
Proof.
  intros Hf Hh Hl He Hfile Hlive. unfold agent_get. rewrite (agent_path_home env home profile Hh).
  eapply run_then; [by apply fs_read_calm|]. cbv beta iota. rewrite agent_text_parse by done.
  eapply run_then; [unfold now_secs; by rewrite run_bind, run_utc_now, run_ret|]. cbn [ae_expires_at ae_kek].
  destruct (Z.leb_spec expires (Z.max 0 (clock w / 1000000))); [lia|]. rewrite run_ret, b64_roundtrip.
  cbn [mbind option_bind]. by rewrite Hl.
Qed.

Lemma agent_get_expired env home profile kek expires w :
  faults w = [] -> home_dir env = Some home -> 0 <= expires <= u64_max ->
  fs w !! agent_file home profile = Some (agent_text kek expires) -> expires <= Z.max 0 (clock w / 1000000) ->
  exists w', run (agent_get env profile) w = (Val None, w') /\ faults w' = [] /\ clock w' = clock w /\
    fs w' = delete (agent_file home profile) (fs w).
Proof.
  intros Hf Hh He Hfile Hlate. unfold agent_get. rewrite (agent_path_home env home profile Hh).
  destruct (secure_delete_run (agent_file home profile) w Hf) as (w' & Hr & Hf' & Hc & Hfs); [rewrite Hfile; by eexists|].
  exists w'. split; [|done]. eapply run_then; [by apply fs_read_calm|]. cbv beta iota. rewrite agent_text_parse by done.
  eapply run_then; [unfold now_secs; by rewrite run_bind, run_utc_now, run_ret|]. cbn [ae_expires_at].
  destruct (Z.leb_spec expires (Z.max 0 (clock w / 1000000))); [|lia]. unfold ignore. rewrite run_bind.
  rewrite run_bind, Hr. done.
Qed.

Lemma agent_get_absent env home profile w :
  faults w = [] -> home_dir env = Some home -> fs w !! agent_file home profile = None ->
  run (agent_get env profile) w = (Val None, w).
Proof.
  intros Hf Hh Hn. unfold agent_get. rewrite (agent_path_home env home profile Hh).
  rewrite run_bind. unfold fs_read. by rewrite run_file_op_calm, Hn.
Qed.

(** ** Saving and loading *)

Lemma write_active_calm env home profile w :
  faults w = [] -> home_dir env = Some home ->
  run (write_active_pointer env profile) w = (Val (Ok tt), set_fs (<[active_file home := as_bytes profile]> (fs w)) w).
Proof.
  intros Hf Hh. unfold write_active_pointer. rewrite (active_path_home env home Hh).
  eapply run_try; [apply run_ret|]. eapply run_try; [by rewrite run_map_err, fs_create_dir_all_calm|].
  by rewrite run_map_err, fs_write_calm.
Qed.

Lemma save_encrypted_calm env home s profile pass w path w' :
  faults w = [] -> home_dir env = Some home -> 0 <= clock w -> relative profile ->
  run (save_encrypted env s profile pass) w = (Val (Ok path), w') ->
  exists e kek, profile_kek e pass = Ok kek /\ sealed_under e kek (json_to_vec (session_to_json s)) /\
    fs w' !! profile_file home profile = Some (as_bytes (json_pretty (profile_to_json e))) /\
    fs w' !! agent_file home profile =
      Some (agent_text kek ((clock w / 1000000 + DEFAULT_AGENT_TTL_SECS) mod 2 ^ 64)) /\
    faults w' = [] /\ clock w' = clock w.
Proof.
  intros Hf Hh Hc Hrel H. destruct (profile_paths_apart home profile Hrel) as (N1 & N2 & N3).
  unfold save_encrypted in H. cbv zeta in H. apply run_try_Ok in H as (e & w1 & Hs & H). apply run_map_err_Ok in Hs.
  apply seal_profile_Ok in Hs as (Hfs1 & Hc1 & Hf1 & kek & Hk & Hse). rewrite Hf in Hf1. exists e, kek. do 2 (split; [done|]).
  rewrite Hk, (path_for_home env home profile Hh) in H. cbn [map_err] in H.
  enough (w' = set_fs (<[active_file home := as_bytes profile]>
                (<[agent_file home profile := agent_text kek ((clock w1 / 1000000 + DEFAULT_AGENT_TTL_SECS) mod 2 ^ 64)]>
                (<[profile_file home profile := as_bytes (json_pretty (profile_to_json e))]> (fs w1)))) w1) as ->.
  { cbn [fs set_fs clock faults]. split; [|split; [|done]].
    - rewrite !lookup_insert_ne by congruence. apply lookup_insert_eq.
    - rewrite lookup_insert_ne by congruence. rewrite Hc1. apply lookup_insert_eq. }
  refine (f_equal snd (eq_trans (eq_sym H) (_ : _ = (Val (Ok (profile_file home profile)), _)))). clear H.
  eapply run_try; [apply run_ret|]. eapply run_try; [apply run_ret|].
  eapply run_try; [by rewrite run_map_err, fs_create_dir_all_calm|].
  eapply run_try; [by rewrite run_map_err, fs_write_calm|].
  eapply run_try; [rewrite run_map_err, fs_chmod_calm; [done|done|cbn [fs set_fs]; rewrite lookup_insert_eq; by eexists]|].
  eapply run_then.
  { unfold ignore. rewrite run_bind. rewrite (agent_store_calm env home); [apply run_ret|done|done|cbn [clock set_fs]; lia]. }
  eapply run_try; [by apply write_active_calm|]. apply run_ret.
Qed.

(** What reading the two files of a saved profile needs. *)
Record stored_profile (home profile : string) (e : EncryptedProfile) (kek : bytes) (expires : Z) (w : World) : Prop := {
  sp_faults : faults w = [];
  sp_profile : fs w !! profile_file home profile = Some (as_bytes (json_pretty (profile_to_json e)));
  sp_agent : fs w !! agent_file home profile = Some (agent_text kek expires);
}.

Lemma load_named_file env home profile b w :
  faults w = [] -> home_dir env = Some home -> fs w !! profile_file home profile = Some b ->
  run (load_named env profile) w = run (from_profile_bytes env profile b) w.
Proof.
  intros Hf Hh Hp. unfold load_named. rewrite (path_for_home env home profile Hh).
  eapply run_try; [apply run_ret|]. eapply run_then; [apply run_fs_exists|].
  rewrite Hp. rewrite bool_decide_true by (by eexists).
  eapply run_try; [|reflexivity]. by rewrite run_map_err, (fs_read_calm _ _ _ Hf Hp).
Qed.

Lemma from_envelope_cached env profile e kek inner w w1 :
  sealed_under e kek inner -> run (agent_get env profile) w = (Val (Some kek), w1) ->
  run (from_profile_bytes env profile (as_bytes (json_pretty (profile_to_json e)))) w = (Val (session_of_slice inner), w1).
Proof.
  intros [Hv Ho _ Hw] Ha. unfold from_profile_bytes. rewrite Hw, Hv. change (2 <=? 2) with true. cbv iota.
  eapply run_then; [exact Ha|]. cbn [mbind option_bind]. rewrite Ho. apply run_ret.
Qed.

Lemma from_envelope_locked env profile e kek inner w w1 :
  sealed_under e kek inner -> run (agent_get env profile) w = (Val None, w1) ->
  run (from_profile_bytes env profile (as_bytes (json_pretty (profile_to_json e)))) w =
    run (open_by_passphrase env profile e) w1.
Proof.
  intros [Hv _ _ Hw] Ha. unfold from_profile_bytes. rewrite Hw, Hv. change (2 <=? 2) with true. cbv iota.
  by eapply run_then; [exact Ha|].
Qed.

Lemma open_by_passphrase_calm env home profile e kek inner pass w :
  faults w = [] -> home_dir env = Some home -> 0 <= clock w -> sealed_under e kek inner -> profile_kek e pass = Ok kek ->
  resolve_passphrase env None (passphrase_prompt profile) false = Ok pass ->
  run (open_by_passphrase env profile e) w =
    (Val (session_of_slice inner), set_fs (<[agent_file home profile :=
       agent_text kek ((clock w / 1000000 + DEFAULT_AGENT_TTL_SECS) mod 2 ^ 64)]> (fs w)) w).
Proof.
  intros Hf Hh Hc Hs Hk Hr. unfold open_by_passphrase. rewrite Hr. destruct Hs as [_ Ho _ _].
  eapply run_try; [apply run_ret|]. rewrite Hk. eapply run_try; [apply run_ret|]. rewrite Ho. eapply run_try; [apply run_ret|].
  eapply run_then; [|apply run_ret]. unfold ignore. rewrite run_bind, (agent_store_calm env home) by done. apply run_ret.
Qed.

(** While the agent's entry lives the stored profile loads without a
    passphrase and without a write. *)
Lemma load_unlocked env home profile e kek inner expires w :
  home_dir env = Some home -> sealed_under e kek inner -> stored_profile home profile e kek expires w ->
  0 <= expires <= u64_max -> Z.max 0 (clock w / 1000000) < expires ->
  run (load_named env profile) w = (Val (session_of_slice inner), w).
Proof.
  intros Hh Hs [Hf Hp Ha] He Hlive. rewrite (load_named_file env home profile _ _ Hf Hh Hp).
  apply (from_envelope_cached env profile e kek); [done|]. apply (agent_get_live env home profile kek expires); try done. apply Hs.
Qed.

(** Afterwards only the passphrase opens it; the stale entry is deleted
    first. *)
Lemma load_expired env home profile e kek inner expires w :
  home_dir env = Some home -> sealed_under e kek inner -> stored_profile home profile e kek expires w ->
  0 <= expires <= u64_max -> expires <= Z.max 0 (clock w / 1000000) ->
  exists w', faults w' = [] /\ clock w' = clock w /\ fs w' = delete (agent_file home profile) (fs w) /\
    run (load_named env profile) w = run (open_by_passphrase env profile e) w'.
Proof.
  intros Hh Hs [Hf Hp Ha] He Hlate. rewrite (load_named_file env home profile _ _ Hf Hh Hp).
  destruct (agent_get_expired env home profile kek expires w Hf Hh He Ha Hlate) as (w' & Hr & Hf' & Hc' & Hfs).
  exists w'. do 3 (split; [done|]). by apply (from_envelope_locked env profile e kek inner).
Qed.

Lemma open_without_passphrase env profile e err w :
  resolve_passphrase env None (passphrase_prompt profile) false = Err err ->
  run (open_by_passphrase env profile e) w = (Val (Err (Cred err)), w).
Proof. intros Hr. unfold open_by_passphrase. by rewrite Hr. Qed.

(** *** Changing the passphrase *)

Lemma run_try_liftR {E A B} (r : result E A) (f : A -> M (result E B)) w b w' :
  run (try_bind (liftR r) f) w = (Val (Ok b), w') -> exists a, r = Ok a /\ run (f a) w = (Val (Ok b), w').
Proof.
  intros H. apply run_try_Ok in H as (a & w1 & Hr & H). unfold liftR in Hr. rewrite run_ret in Hr.
  injection Hr as -> <-. by exists a.
Qed.

Lemma read_envelope_calm env home profile plain e b w :
  faults w = [] -> home_dir env = Some home -> fs w !! profile_file home profile = Some b ->
  json_from_slice b ≫= profile_from_json = Some e ->
  run (read_envelope env profile plain) w = (Val (Ok (profile_file home profile, e)), w).
Proof.
  intros Hf Hh Hp Hj. unfold read_envelope. rewrite (path_for_home env home profile Hh).
  eapply run_try; [apply run_ret|]. eapply run_try; [by rewrite run_map_err, (fs_read_calm _ _ _ Hf Hp)|].
  rewrite Hj. eapply run_try; apply run_ret.
Qed.

Lemma json_tmp_app path : exists c, json_tmp path = path +:+ c /\ c <> "".
Proof. unfold json_tmp. destruct (ends_with "/.json" path); by eexists. Qed.

Lemma json_tmp_apart home profile : relative profile ->
  json_tmp (profile_file home profile) <> profile_file home profile /\
  json_tmp (profile_file home profile) <> agent_file home profile.
Proof.
  intros Hr. destruct (json_tmp_app (profile_file home profile)) as (c & -> & Hc). split.
  - intros H. apply Hc. assert (H' : profile_file home profile +:+ c = profile_file home profile +:+ "") by by rewrite string_app_nil_r.
    by apply app_inj_l in H'.
  - destruct (paths_below home) as [pre H]. destruct (H profile Hr) as (-> & -> & _).
    rewrite string_app_assoc. intros He%app_inj_l. discriminate He.
Qed.

Lemma replace_envelope_calm env home profile e pass kek w :
  faults w = [] -> home_dir env = Some home -> 0 <= clock w -> relative profile -> profile_kek e pass = Ok kek ->
  exists w', run (_ ←? map_err_m AppIo (fs_write (json_tmp (profile_file home profile))
                                      (as_bytes (json_pretty (profile_to_json e))));
               _ ←? map_err_m AppIo (fs_rename (json_tmp (profile_file home profile)) (profile_file home profile));
               match profile_kek e pass with
               | Ok kek => _ ← ignore (agent_store env profile kek DEFAULT_AGENT_TTL_SECS); mret (Ok tt)
               | Err _ => mret (Ok tt)
               end) w = (Val (Ok tt), w') /\
    stored_profile home profile e kek ((clock w / 1000000 + DEFAULT_AGENT_TTL_SECS) mod 2 ^ 64) w' /\
    fs w' !! json_tmp (profile_file home profile) = None.
Proof.
  intros Hf Hh Hc Hrel Hk. destruct (json_tmp_apart home profile Hrel) as [N1 N2].
  destruct (profile_paths_apart home profile Hrel) as (N3 & _ & _). eexists. split; [|split].
  - eapply run_try; [by rewrite run_map_err, fs_write_calm|]. eapply run_try.
    { rewrite run_map_err. unfold fs_rename. rewrite run_file_op_calm by done. cbn [fs set_fs].
      by rewrite lookup_insert_eq. }
    rewrite Hk. eapply run_then; [|apply run_ret]. unfold ignore. rewrite run_bind, (agent_store_calm env home) by done.
    apply run_ret.
  - constructor; cbn [fs set_fs clock faults]; [done| |apply lookup_insert_eq].
    rewrite lookup_insert_ne by congruence. apply lookup_insert_eq.
  - cbn [fs set_fs]. rewrite !lookup_insert_ne by congruence. apply lookup_delete_eq.
Qed.
(** *** Logging in *)

Lemma touches_load_named env profile : touches (fun _ => True) (load_named env profile).
Proof.
  assert (Hp : forall e, touches (fun _ => True) (open_by_passphrase env profile e)).
  { intros e. unfold open_by_passphrase, agent_store, now_secs, liftR. touching. }
  assert (Hb : forall b, touches (fun _ => True) (from_profile_bytes env profile b)).
  { intros b. unfold from_profile_bytes, agent_get, now_secs. touching; apply Hp. }
  unfold load_named, liftR. touching; apply Hb.
Qed.

Lemma run_ensure_cmk s w :
  exists w', run (ensure_cmk s) w = (Val (with_cmk s (Some (default (b64_encode (rand_bytes (rng w) 32)) (se_cmk s))),
                                          match se_cmk s with Some _ => false | None => true end), w') /\
    fs w' = fs w /\ clock w' = clock w /\ faults w' = faults w.
Proof.
  unfold ensure_cmk. destruct s as [sv tk ct ky ca [k|]]; cbn [se_cmk].
  - exists w. by rewrite run_ret.
  - rewrite run_bind, run_draw, run_ret. by eexists.
Qed.

End store.

(** C14. A saved profile loads as the session that was saved. On a machine
    whose file system works, after [save_encrypted] the same home directory
    gives the same session back: for the 900 seconds of the agent without any
    passphrase and without touching a file, afterwards for the passphrase it
    was saved under (which unlocks it again), and without a passphrase the
    expired profile stays locked. *)
Theorem saved_profile_loads {P : Primitives} {L : PrimitiveLaws P} {O : OpsLib} {OL : OpsLaws P O}
    env env' home s profile pass w path w1 w2 :
  faults w = [] -> home_dir env = Some home -> home_dir env' = Some home -> relative profile -> session_ok s = true ->
  0 <= clock w -> clock w / 1000000 + DEFAULT_AGENT_TTL_SECS <= u64_max ->
  run (save_encrypted env s profile pass) w = (Val (Ok path), w1) ->
  faults w2 = [] -> fs w2 = fs w1 -> clock w <= clock w2 ->
  (clock w2 / 1000000 < clock w / 1000000 + DEFAULT_AGENT_TTL_SECS ->
     run (load_named env' profile) w2 = (Val (Ok s), w2)) /\
  (clock w / 1000000 + DEFAULT_AGENT_TTL_SECS <= clock w2 / 1000000 ->
     match resolve_passphrase env' None (passphrase_prompt profile) false with
     | Ok pass' => pass' = pass -> (run (load_named env' profile) w2).1 = Val (Ok s)
     | Err err => (run (load_named env' profile) w2).1 = Val (Err (Cred err))
     end).
Proof.
  intros Hf Hh Hh' Hrel Hok Hc Hmax Hsave Hf2 Hfs2 Hc2. pose proof (Z.div_pos _ 1000000 Hc ltac:(lia)) as H0.
  pose proof (Z.div_le_mono _ _ 1000000 ltac:(lia) Hc2) as H1.
  destruct (save_encrypted_calm env home s profile pass w path w1 Hf Hh Hc Hrel Hsave) as (e & kek & Hk & Hs & Hp & Ha & _ & _).
  set (expires := clock w / 1000000 + DEFAULT_AGENT_TTL_SECS) in *.
  assert (Hrange : 0 <= expires <= u64_max) by (unfold expires, DEFAULT_AGENT_TTL_SECS in *; lia).
  rewrite Z.mod_small in Ha by (change (2 ^ 64) with (u64_max + 1); lia). rewrite <- Hfs2 in Hp, Ha.
  pose proof (Build_stored_profile _ _ _ _ _ _ Hf2 Hp Ha) as Hst.
  split; intros Ht.
  - rewrite <- (session_roundtrip s Hok). apply (load_unlocked env' home profile e kek _ expires); try done. lia.
  - destruct (load_expired env' home profile e kek _ expires w2 Hh' Hs Hst Hrange) as (w3 & Hf3 & Hc3 & _ & ->); [lia|].
    destruct (resolve_passphrase _ _ _ _) as [pass'|err] eqn:Hr; [intros ->|by rewrite (open_without_passphrase _ _ _ err)].
    rewrite (open_by_passphrase_calm env' home profile e kek (json_to_vec (session_to_json s)) pass w3); try done; [|lia].
    by rewrite (session_roundtrip s Hok).
Qed.

(** Changing the passphrase re-seals the same bundle. If [cmd_passphrase]
    succeeds on a profile whose envelope holds [inner], then the current
    passphrase it was given opens that envelope, the profile's file afterwards
    is an envelope of the same [inner] under the new passphrase, which differs
    from the old one, the scratch file is gone and the agent holds the new key. *)
Theorem passphrase_change_keeps_bundle {P : Primitives} {L : PrimitiveLaws P} {O : OpsLib} {OL : OpsLaws P O}
    env home profile old new e w w' :
  faults w = [] -> home_dir env = Some home -> 0 <= clock w -> relative profile ->
  fs w !! profile_file home profile = Some (as_bytes (json_pretty (profile_to_json e))) ->
  json_from_slice (as_bytes (json_pretty (profile_to_json e))) ≫= profile_from_json = Some e ->
  run (cmd_passphrase env profile old new) w = (Val (Ok tt), w') ->
  exists old_pp new_pp inner e' kek',
    named_passphrase env old "BLACKBOOK_OLD_PASSPHRASE" ("Current passphrase for '" +:+ profile +:+ "': ") false = Ok old_pp /\
    named_passphrase env new "BLACKBOOK_NEW_PASSPHRASE" "New passphrase: " true = Ok new_pp /\ new_pp <> old_pp /\
    open_with_passphrase e old_pp = Ok inner /\ open_with_passphrase e' new_pp = Ok inner /\
    profile_kek e' new_pp = Ok kek' /\
    stored_profile home profile e' kek' ((clock w / 1000000 + DEFAULT_AGENT_TTL_SECS) mod 2 ^ 64) w' /\
    fs w' !! json_tmp (profile_file home profile) = None.
Proof.
  intros Hf Hh Hc Hrel Hp Hparse H. unfold cmd_passphrase in H. apply run_try_Ok in H as ([path e0] & w1 & Hr & H).
  rewrite (read_envelope_calm env home profile _ e _ w Hf Hh Hp Hparse) in Hr. injection Hr as <- <- <-.
  apply run_try_liftR in H as (old_pp & Ho & H). apply run_try_liftR in H as (inner & Hi & H). apply map_err_Ok in Hi.
  apply run_try_liftR in H as (new_pp & Hn & H). destruct (String.eqb_spec new_pp old_pp) as [|Hne]; [done|].
  apply run_try_Ok in H as (sealed & w2 & Hs & H). apply run_map_err_Ok in Hs.
  apply seal_profile_Ok in Hs as (Hfs & Hc2 & Hf2 & kek & Hk & Hse). rewrite Hf in Hf2.
  exists old_pp, new_pp, inner, sealed, kek. do 4 (split; [done|]). split.
  { unfold open_with_passphrase. rewrite Hk, bind_Ok. apply Hse. }
  split; [done|]. destruct (replace_envelope_calm env home profile sealed new_pp kek w2) as (w3 & Hrun & Hst & Htmp); [done..|lia|done|done|].
  rewrite Hrun in H. injection H as <-. by rewrite <- Hc2.
Qed.

(** Logging in again keeps the client master key. If a profile of that name
    loads with a master key (its passphrase is at hand, or the agent holds its
    key), the profile that [login_profile] writes holds the bundle's session
    with the same master key, sealed under the passphrase that was asked for,
    so what that key sealed stays readable; without one the profile gets 32
    fresh random bytes. The session that is returned is the one on disk. *)
Theorem login_carries_master {P : Primitives} {L : PrimitiveLaws P} {O : OpsLib} {OL : OpsLaws P O}
    env home session profile w loaded s path w' :
  faults w = [] -> home_dir env = Some home -> 0 <= clock w -> relative profile ->
  (run (load_named env profile) w).1 = Val loaded ->
  run (login_profile env session profile) w = (Val (Ok (s, path)), w') ->
  exists k pass e kek,
    s = with_cmk session (Some k) /\
    match ok loaded ≫= se_cmk with
    | Some old => k = old
    | None => exists i, k = b64_encode (rand_bytes i 32)
    end /\
    profile_kek e pass = Ok kek /\ sealed_under e kek (json_to_vec (session_to_json s)) /\
    stored_profile home profile e kek ((clock w / 1000000 + DEFAULT_AGENT_TTL_SECS) mod 2 ^ 64) w'.
Proof.
  intros Hf Hh Hc Hrel Hload H. unfold login_profile in H. cbv zeta in H. apply run_bind_Val in H as (l & w1 & Hl & H).
  pose proof (touches_run_rest _ _ w (touches_load_named env profile)) as (_ & Hc1 & Hf1).
  rewrite Hl in Hload, Hc1, Hf1. cbn [fst snd] in *. injection Hload as ->. specialize (Hf1 Hf).
  apply run_try_liftR in H as (pass & _ & H). apply run_bind_Val in H as ([s1 minted] & w2 & He & H).
  destruct (run_ensure_cmk (with_cmk session (ok loaded ≫= se_cmk)) w1) as (w3 & He' & _ & Hc3 & Hf3).
  change (ok loaded ≫= (fun s => se_cmk s)) with (ok loaded ≫= se_cmk) in *.
  rewrite He' in He. injection He as <- _ <-. cbn [se_cmk with_cmk] in H. cbv beta iota in H.
  apply run_try_Ok in H as (p & w4 & Hs & H). apply run_map_err_Ok in Hs. rewrite run_ret in H. injection H as <- -> <-.
  apply (save_encrypted_calm env home) in Hs as (e & kek & Hk & Hse & Hp & Ha & Hf4 & _); [|congruence|done|lia|done].
  rewrite Hc3, Hc1 in Ha.
  exists (default (b64_encode (rand_bytes (rng w1) 32)) (ok loaded ≫= se_cmk)), pass, e, kek. split; [done|]. split; [|done].
  destruct (ok loaded ≫= se_cmk); [done|]. by eexists.
Qed.

(** ** A concrete home directory *)

Definition toy_home (passphrase : option string) : Environment :=
  MkEnv (fun v => if String.eqb v "BLACKBOOK_PASSPHRASE" then passphrase else None) (Some "/home/u") (fun _ => None).

Definition toy_session : Session :=
  MkSession "h" (Some "t") (Some "c") (Some "k") (Some "a") (Some (b64_encode (be_bytes 32 5))).

Definition toy_desk : World := MkWorld empty_db ∅ (1000 * 1000000) 0 [].

Definition toy_saved : World :=
  Eval vm_compute in (run (save_encrypted (toy_home None) toy_session "dev" "one") toy_desk).2.

(** The same files, [n] seconds later. *)
Definition later (n : Z) (w : World) : World := MkWorld (db w) (fs w) (clock w + n * 1000000) (rng w) (faults w).

Lemma toy_saved_run : run (save_encrypted (toy_home None) toy_session "dev" "one") toy_desk =
  (Val (Ok (profile_file "/home/u" "dev")), toy_saved).
Proof. by vm_compute. Qed.

Definition toy_profile : EncryptedProfile :=
  Eval vm_compute in default (MkProfile 0 "" "" 0 0 0 "")
    (b ← fs toy_saved !! profile_file "/home/u" "dev"; json_from_slice b ≫= profile_from_json).

(** A login whose bundle carries no master key, as bundles do. *)
Definition toy_bundle_session : Session := with_cmk (with_cmk toy_session None) None.

Definition login_cmk (passphrase : string) : option string :=
  match (run (login_profile (toy_home (Some passphrase)) toy_bundle_session "dev") (later 2000 toy_saved)).1 with
  | Val (Ok (s, _)) => se_cmk s
  | _ => None
  end.

Lemma saved_profile_loads_witness :
  (run (load_named (toy_home None) "dev") (later 800 toy_saved)).1 = Val (Ok toy_session) /\
  (run (load_named (toy_home (Some "one")) "dev") (later 900 toy_saved)).1 = Val (Ok toy_session) /\
  (run (load_named (toy_home None) "dev") (later 900 toy_saved)).1 = Val (Err (Cred CredNoPassphrase)).
Proof.
  assert (H : forall n env', 0 <= n -> home_dir env' = Some "/home/u" -> _) by exact (fun n env' Hn Hh =>
    saved_profile_loads (toy_home None) env' "/home/u" toy_session "dev" "one" toy_desk (profile_file "/home/u" "dev")
      toy_saved (later n toy_saved) eq_refl eq_refl Hh ltac:(by split) eq_refl ltac:(by vm_compute) ltac:(by vm_compute)
      toy_saved_run eq_refl eq_refl ltac:(change (1000 * 1000000 <= 1000 * 1000000 + n * 1000000); lia)).
  split; [|split].
  - by rewrite (proj1 (H 800 (toy_home None) ltac:(lia) eq_refl) ltac:(by vm_compute)).
  - exact (proj2 (H 900 (toy_home (Some "one")) ltac:(lia) eq_refl) ltac:(by vm_compute) eq_refl).
  - exact (proj2 (H 900 (toy_home None) ltac:(lia) eq_refl) ltac:(by vm_compute)).
Defined.

Lemma passphrase_change_keeps_bundle_witness :
  exists old_pp new_pp inner e' kek',
    new_pp <> old_pp /\ open_with_passphrase toy_profile old_pp = Ok inner /\ open_with_passphrase e' new_pp = Ok inner /\
    profile_kek e' new_pp = Ok kek'.
Proof.
  pose proof (passphrase_change_keeps_bundle (toy_home None) "/home/u" "dev" (Some "one") (Some "two") toy_profile toy_saved
    (run (cmd_passphrase (toy_home None) "dev" (Some "one") (Some "two")) toy_saved).2
    ltac:(by vm_compute) eq_refl ltac:(by vm_compute) ltac:(by split) ltac:(by vm_compute) ltac:(by vm_compute)
    ltac:(by vm_compute)) as (o & n & i & e' & k' & _ & _ & Hne & Ho & Hn & Hk & _).
  exists o, n, i, e', k'. exact (conj Hne (conj Ho (conj Hn Hk))).
Defined.

Lemma login_carries_master_witness :
  exists s path w' k, run (login_profile (toy_home (Some "one")) toy_bundle_session "dev") (later 2000 toy_saved) =
    (Val (Ok (s, path)), w') /\ s = with_cmk toy_bundle_session (Some k) /\ Some k = se_cmk toy_session.
Proof.
  assert (Hr : exists s path w', run (login_profile (toy_home (Some "one")) toy_bundle_session "dev") (later 2000 toy_saved) =
    (Val (Ok (s, path)), w')) by (do 3 eexists; by vm_compute).
  destruct Hr as (s & path & w' & Hr). exists s, path, w'.
  destruct (login_carries_master (toy_home (Some "one")) "/home/u" toy_bundle_session "dev" (later 2000 toy_saved)
    (Ok toy_session) s path w' eq_refl eq_refl ltac:(by vm_compute) ltac:(by split) ltac:(by vm_compute) Hr)
    as (k & _ & _ & _ & Hs & Hk & _).
  exists k. do 2 (split; [done|]). change (Some k = Some (b64_encode (be_bytes 32 5))). by rewrite <- Hk.
Defined.

(** With the right passphrase a new login keeps the master key. *)
Example login_unlocked_keeps_master : login_cmk "one" = se_cmk toy_session.
Proof. by vm_compute. Qed.

(** A profile that is there but does not open counts as no profile: the login
    seals a fresh master key over it, and the old one is gone. *)
Example login_on_locked_profile_replaces_master :
  is_Some (login_cmk "other") /\ login_cmk "other" <> se_cmk toy_session.
Proof. split; vm_compute; [by eexists|congruence]. Qed.

(** While the agent holds the old key no passphrase is compared with the old
    one: whatever is given seals the profile anew. *)
Example login_accepts_any_passphrase_while_unlocked :
  exists s path, (run (login_profile (toy_home (Some "other")) toy_bundle_session "dev") (later 10 toy_saved)).1 =
    Val (Ok (s, path)) /\ se_cmk s = se_cmk toy_session.
Proof. do 2 eexists. split; by vm_compute. Qed.
