(* ===== verification/External.v ===== *)
(** Client-side encryption of [src/src/main.rs]: envelopes whose key the server
    never sees, resident files whose key is split between client and server, and
    the flags that choose between them. *)
From S2P Require Import Prelude Text Crypto Effects CryptoOps CredStore Session.

(** ** Envelopes *)

Definition EXT_ENVELOPE_V1 : Z := 1.
Definition EXT_ENVELOPE_V2 : Z := 2.
Definition EXT_MODE_CMK : Z := 0.
Definition EXT_MODE_ARGON2 : Z := 1.

Inductive ExtKey :=
| ExtCmk (cmk : bytes)
| ExtPassphrase (p : string).

Record ExtEnvelope := MkEnvelope {
  en_version : Z;
  en_mode : Z;
  en_salt : bytes;
  en_argon : Z * Z * Z;
  en_wrapped_dek : bytes;
  en_ciphertext : bytes;
}.

Definition ext_encode_v2 (mode : Z) (salt : bytes) (m t p : Z) (wrapped_dek ciphertext : bytes) : bytes :=
  [byte_of_Z EXT_ENVELOPE_V2; byte_of_Z mode] ++ be_bytes 4 m ++ be_bytes 4 t ++ be_bytes 4 p
  ++ [byte_of_Z (Z.of_nat (length salt))] ++ salt
  ++ be_bytes 4 (Z.of_nat (length wrapped_dek)) ++ wrapped_dek ++ ciphertext.

Definition malformed : AppError := AppCrypto "malformed external envelope".

(** [buf[p..p + n]], once the length has been checked. *)
Definition slice (p n : nat) (buf : bytes) : bytes := take n (drop p buf).

(** The tail both versions share, from the salt's length byte at [p]. *)
Definition decode_tail (version mode : Z) (argon : Z * Z * Z) (p : nat) (buf : bytes) :
    result AppError ExtEnvelope :=
  let slen := Z.to_nat (be_value (slice p 1 buf)) in
  let p := (p + 1)%nat in
  if (length buf <? p + slen + 4)%nat then Err malformed
  else
    let salt := slice p slen buf in
    let p := (p + slen)%nat in
    let wlen := Z.to_nat (be_value (slice p 4 buf)) in
    let p := (p + 4)%nat in
    if (length buf <? p + wlen)%nat then Err malformed
    else Ok (MkEnvelope version mode salt argon (slice p wlen buf) (drop (p + wlen) buf)).

Definition ext_decode (buf : bytes) : result AppError ExtEnvelope :=
  match buf with
  | [] => Err malformed
  | b0 :: _ =>
      if Z_of_byte b0 =? EXT_ENVELOPE_V1 then
        if (length buf <? 2)%nat then Err malformed
        else decode_tail 1 EXT_MODE_ARGON2 (0, 0, 0) 1 buf
      else if Z_of_byte b0 =? EXT_ENVELOPE_V2 then
        if (length buf <? 2 + 12 + 1)%nat then Err malformed
        else
          let mode := be_value (slice 1 1 buf) in
          let m := be_value (slice 2 4 buf) in
          let t := be_value (slice 6 4 buf) in
          let pc := be_value (slice 10 4 buf) in
          decode_tail 2 mode (m, t, pc) 14 buf
      else Err malformed
  end.

(** ** Which kind of storage the flags ask for *)

Inductive KeySource := Managed | Passphrase.
Inductive DataLoc := InServer | Resident.
Record ExtSpec := MkSpec { spec_key : KeySource; spec_data : DataLoc }.

Record ExtFlags := MkExtFlags {
  ef_external : bool;
  ef_external_key : bool;
  ef_external_data : bool;
  ef_passphrase : option string;
  ef_passphrase_from_env : bool;
}.

(** The header of a stash file. *)
Record ResidentHeader := MkHeader {
  rh_mode : Z;
  rh_salt : string;
  rh_m_cost : Z;
  rh_t_cost : Z;
  rh_p_cost : Z;
  rh_wrapped_c : string;
  rh_orig_name : string;
}.

Definition header_to_json (h : ResidentHeader) : Json :=
  JObj [("mode", JNum (rh_mode h)); ("salt", JStr (rh_salt h)); ("m_cost", JNum (rh_m_cost h));
        ("t_cost", JNum (rh_t_cost h)); ("p_cost", JNum (rh_p_cost h)); ("wrapped_c", JStr (rh_wrapped_c h));
        ("orig_name", JStr (rh_orig_name h))].

Definition header_from_json (j : Json) : option ResidentHeader :=
  mode ← uint_member u8_max "mode" j; salt ← str_member "salt" j;
  m ← uint_member u32_max "m_cost" j; t ← uint_member u32_max "t_cost" j;
  p ← uint_member u32_max "p_cost" j; w ← str_member "wrapped_c" j; n ← str_member "orig_name" j;
  Some (MkHeader mode salt m t p w n).

Definition RESIDENT_MAGIC : bytes := as_bytes "BBKR".

(** [a.iter().zip(b).map(|(a, b)| a ^ b)] *)
Definition xor_byte (a b : byte) : byte := byte_of_Z (Z.lxor (Z_of_byte a) (Z_of_byte b)).
Definition xor_bytes (a b : bytes) : bytes := zip_with xor_byte a b.

Section external.
Context {P : Primitives} {O : OpsLib} (env : Environment).

Definition resolve_external_passphrase_opt (explicit : option string) : option string :=
  match nonempty explicit with
  | Some p => Some p
  | None => nonempty (env_var env "BLACKBOOK_EXTERNAL_PASSPHRASE")
  end.

Definition external_prompt : string := "Passphrase for this external item: ".

Definition resolve_external_passphrase_for_read (explicit : option string) : result AppError string :=
  match resolve_external_passphrase_opt explicit with
  | Some p => Ok p
  | None =>
      if prompts_suppressed env then
        Err (AppConfig "external passphrase required — pass --external-passphrase or set $BLACKBOOK_EXTERNAL_PASSPHRASE")
      else
        p ← ok_or (AppConfig "this item is passphrase-sealed and no passphrase was provided — pass --external-passphrase, set $BLACKBOOK_EXTERNAL_PASSPHRASE, or run interactively so it can be requested")
              (terminal env external_prompt);
        if String.eqb p "" then Err (AppConfig "empty passphrase") else Ok p
  end.

Definition resolve_ext_spec (f : ExtFlags) (data_allowed : bool) : result AppError (option ExtSpec) :=
  let managed_signal := ef_external_key f || ef_external f in
  let pass_flag := match nonempty (ef_passphrase f) with Some _ => true | None => false end in
  let pass_signal := pass_flag || ef_passphrase_from_env f in
  if managed_signal && pass_signal then
    Err (AppConfig "--external-key/--external select the managed key (CMK), but --external-passphrase selects a user-supplied key — choose one. For resident data with a passphrase, use --external-data --external-passphrase.")
  else if negb (managed_signal || ef_external_data f || pass_signal) then Ok None
  else if ef_external_data f && negb data_allowed then
    Err (AppConfig "--external-data is not available for secrets — a secret has no on-disk home, so its data always lives in blackbook. Use --external-key (managed key) or --external-passphrase (user key) to encrypt it client-side.")
  else
    let key :=
      if managed_signal then Managed
      else if pass_signal || (match resolve_external_passphrase_opt (ef_passphrase f) with
                              | Some _ => true | None => false end)
      then Passphrase else Managed in
    let data := if ef_external_data f || (ef_external f && data_allowed) then Resident else InServer in
    Ok (Some (MkSpec key data)).

Definition ext_key_for_spec (spec : ExtSpec) (session : Session) (explicit : option string) :
    result AppError ExtKey :=
  match spec_key spec with
  | Passphrase => p ← resolve_external_passphrase_for_read explicit; Ok (ExtPassphrase p)
  | Managed =>
      k ← ok_or (AppConfig "no managed key (CMK) for --external-key: this profile predates client master keys. Re-run `blackbook login` to mint one, or use --external-passphrase.")
            (cmk_bytes session);
      Ok (ExtCmk k)
  end.

(** ** Sealing and opening *)

(** The wrapping key and what the envelope says of it: mode, salt, costs, KEK. *)
Definition sealing_kek (key : ExtKey) : M (result AppError (Z * bytes * (Z * Z * Z) * bytes)) :=
  match key with
  | ExtCmk cmk => mret (Ok (EXT_MODE_CMK, [], (0, 0, 0), cmk))
  | ExtPassphrase pass =>
      salt ← draw 16;
      mret ('(k, m, t, p) ← map_err app_of_cred (argon2_key pass salt);
            Ok (EXT_MODE_ARGON2, salt, (m, t, p), k))
  end.

(** [aead_seal], its nonce drawn. *)
Definition seal_with (what : string) (plaintext key : bytes) : M (result AppError bytes) :=
  nonce ← draw 12;
  mret (map_err (fun e => AppCrypto (what +:+ ": " +:+ crypto_msg e)) (aead_seal nonce plaintext key)).

(** [(meta, ciphertext)] *)
Definition external_seal_parts (key : ExtKey) (plaintext : bytes) : M (result AppError (bytes * bytes)) :=
  dek ← draw 32;
  '(mode, salt, (m, t, p), kek) ←? sealing_kek key;
  wrapped_dek ←? seal_with "wrap dek" dek kek;
  ciphertext ←? seal_with "seal" plaintext dek;
  mret (Ok (ext_encode_v2 mode salt m t p wrapped_dek [], ciphertext)).

Definition external_seal (key : ExtKey) (plaintext : bytes) : M (result AppError bytes) :=
  '(meta, ct) ←? external_seal_parts key plaintext;
  mret (Ok (meta ++ ct)).

Definition kdf_err (e : CredError) : AppError := AppCrypto ("kdf: " +:+ cred_msg e).

Definition external_kek (e : ExtEnvelope) (session : Session) (explicit_pass : option string) :
    result AppError bytes :=
  if en_version e =? 2 then
    if en_mode e =? EXT_MODE_CMK then
      ok_or (AppCrypto "this external item is sealed under the profile's client master key, but the active profile has none (different identity?)")
        (cmk_bytes session)
    else
      pass ← resolve_external_passphrase_for_read explicit_pass;
      let '(m, t, p) := en_argon e in
      map_err kdf_err (argon2_key_with pass (en_salt e) m t p)
  else
    pass ← resolve_external_passphrase_for_read explicit_pass;
    map_err (fun e => AppCrypto ("kdf: " +:+ crypto_msg e)) (scrypt_dek (as_bytes pass) (en_salt e)).

Definition external_open (e : ExtEnvelope) (session : Session) (explicit_pass : option string) :
    result AppError bytes :=
  kek ← external_kek e session explicit_pass;
  dek ← map_err (fun _ => AppCrypto "wrong key/passphrase or corrupt envelope (DEK unwrap failed)")
          (aead_open (en_wrapped_dek e) kek);
  map_err (fun _ => AppCrypto "decryption failed (wrong key/passphrase or corrupt data)")
    (aead_open (en_ciphertext e) dek).

(** The key a rekey moves to. *)
Definition rekey_target_key (session : Session) (external_key : bool) (new_passphrase : option string) :
    result AppError ExtKey :=
  match nonempty new_passphrase with
  | Some p =>
      if external_key
      then Err (AppConfig "choose one target key: --external-key (managed) OR --external-passphrase (user).")
      else Ok (ExtPassphrase p)
  | None =>
      k ← ok_or (AppConfig "this profile has no managed key (CMK) to rekey to. Re-run `blackbook login`, or pass --external-passphrase to set a user passphrase.")
            (cmk_bytes session);
      Ok (ExtCmk k)
  end.

(** ** Resident files *)

(** Header and ciphertext, framed. *)
Definition stash_bytes (h : ResidentHeader) (ct : bytes) : bytes :=
  let hjson := json_to_vec (header_to_json h) in
  RESIDENT_MAGIC ++ be_bytes 4 (Z.of_nat (length hjson)) ++ hjson ++ ct.

(** Both sealing and rewrapping wrap the client's half the same way: the header. *)
Definition wrap_client_half (key : ExtKey) (kf_c : bytes) (orig_name : string) :
    M (result AppError ResidentHeader) :=
  '(mode, salt, (m, t, p), client_kek) ←? sealing_kek key;
  wrapped_c ←? seal_with "wrap client half" kf_c client_kek;
  mret (Ok (MkHeader mode (match key with ExtCmk _ => "" | ExtPassphrase _ => b64_encode salt end) m t p
              (b64_encode wrapped_c) orig_name)).

(** The stash, the server's half in base64, and the label. *)
Definition resident_seal (key : ExtKey) (plaintext : bytes) (orig_name : string) :
    M (result AppError (bytes * string * string)) :=
  kf ← draw 32;
  kf_c ← draw 32;
  let kf_s := xor_bytes kf kf_c in
  ct ←? seal_with "seal" plaintext kf;
  header ←? wrap_client_half key kf_c orig_name;
  mret (Ok (stash_bytes header ct, b64_encode kf_s,
            match key with ExtCmk _ => "CMK" | ExtPassphrase _ => "passphrase" end)).

Definition bad_stash : AppError := AppCrypto "malformed resident stash file".

Definition resident_parse (stash : bytes) : result AppError (ResidentHeader * bytes) :=
  if (length stash <? 8)%nat || negb (bool_decide (take 4 stash = RESIDENT_MAGIC)) then Err bad_stash
  else
    let hlen := Z.to_nat (be_value (slice 4 4 stash)) in
    if (length stash <? 8 + hlen)%nat then Err bad_stash
    else
      header ← ok_or bad_stash (json_from_slice (slice 8 hlen stash) ≫= header_from_json);
      Ok (header, drop (8 + hlen) stash).

(** The wrapping key of a header. *)
Definition header_kek (h : ResidentHeader) (session : Session) (explicit_pass : option string) :
    result AppError bytes :=
  if rh_mode h =? 0 then
    ok_or (AppCrypto "resident file is sealed under the profile's client master key, but the active profile has none")
      (cmk_bytes session)
  else
    pass ← resolve_external_passphrase_for_read explicit_pass;
    salt ← ok_or (AppCrypto "bad salt") (b64_decode (rh_salt h));
    map_err kdf_err (argon2_key_with pass salt (rh_m_cost h) (rh_t_cost h) (rh_p_cost h)).

Definition unwrap_half (h : ResidentHeader) (client_kek : bytes) : result AppError bytes :=
  wrapped_c ← ok_or (AppCrypto "bad wrapped_c") (b64_decode (rh_wrapped_c h));
  map_err (fun _ => AppCrypto "wrong key/passphrase (client half unwrap failed)") (aead_open wrapped_c client_kek).

Definition resident_open (h : ResidentHeader) (ciphertext : bytes) (kf_s_b64 : string) (session : Session)
    (explicit_pass : option string) : result AppError bytes :=
  client_kek ← header_kek h session explicit_pass;
  kf_c ← unwrap_half h client_kek;
  kf_s ← ok_or (AppCrypto "server key component not base64") (b64_decode kf_s_b64);
  if negb (length kf_c =? 32)%nat || negb (length kf_s =? 32)%nat
  then Err (AppCrypto "key halves must be 32 bytes")
  else
    map_err (fun _ => AppCrypto "decryption failed (wrong key halves or corrupt data)")
      (aead_open ciphertext (xor_bytes kf_c kf_s)).

Definition resident_unwrap_client_half (h : ResidentHeader) (session : Session) (explicit_pass : option string) :
    result AppError bytes :=
  client_kek ← header_kek h session explicit_pass;
  kf_c ← unwrap_half h client_kek;
  if negb (length kf_c =? 32)%nat then Err (AppCrypto "client half must be 32 bytes") else Ok kf_c.

Definition resident_rewrap (new_key : ExtKey) (kf_c ciphertext : bytes) (orig_name : string) :
    M (result AppError bytes) :=
  header ←? wrap_client_half new_key kf_c orig_name;
  mret (Ok (stash_bytes header ciphertext)).

(** ** The local index of stashes *)

Definition resident_dir : result AppError string :=
  home ← ok_or (AppConfig "no home directory") (home_dir env);
  Ok (path_join (path_join home ".bbk") "resident").

Definition resident_index_path : result AppError string := d ← resident_dir; Ok (path_join d "index.json").

Definition index_from_json (j : Json) : option (gmap string string) :=
  match j with
  | JObj m => list_to_map <$> mapM (fun kv => s ← as_str kv.2; Some (kv.1, s)) m
  | _ => None
  end.

(** A [BTreeMap] is written in key order. *)
Definition index_to_json (idx : gmap string string) : Json :=
  JObj (foldr (fun kv m => obj_insert kv.1 (JStr kv.2) m) [] (map_to_list idx)).

Definition resident_index_load : M (gmap string string) :=
  match resident_index_path with
  | Err _ => mret ∅
  | Ok p =>
      r ← fs_read p;
      mret (default ∅ (b ← ok r; json_from_slice b ≫= index_from_json))
  end.

Definition resident_index_save (idx : gmap string string) : M (result AppError unit) :=
  dir ←? liftR resident_dir;
  _ ←? map_err_m AppIo (fs_create_dir_all dir);
  path ←? liftR resident_index_path;
  map_err_m AppIo (fs_write path (as_bytes (json_pretty (index_to_json idx)))).

Definition resident_key (domain name : string) : string := domain +:+ "/" +:+ name.
End external.
