(* ===== verification/ExternalProps.v ===== *)
(** Properties of client-side encryption ([External.v]): envelopes and stashes
    open to what was sealed, a new wrapping key changes nothing but the
    wrapping, and the server's half of a resident file's key tells nothing of
    the key. *)
From S2P Require Import Prelude Text Crypto ToyPrimitives CryptoProps Store Effects CryptoOps ToyOps CryptoOpsProps CredStore FileSteps Session SessionProps External.

(** ** Framing *)

Lemma slice_app pre x post p n : length pre = p -> length x = n -> slice p n (pre ++ x ++ post) = x.
Proof. intros <- <-. unfold slice. by rewrite drop_app_length, take_app_length. Qed.

Lemma be_value_width n z : 0 <= z < 256 ^ Z.of_nat n -> be_value (be_bytes n z) = z.
Proof. intros Hz. by rewrite be_value_be_bytes, Z.mod_small. Qed.

Lemma be_value_byte z : 0 <= z < 256 -> be_value [byte_of_Z z] = z.
Proof. intros Hz. change [byte_of_Z z] with (be_bytes 1 z). by apply be_value_width. Qed.

(** The tail after a prefix of known length. *)
Lemma decode_tail_app v mode argon pre salt wdek ct :
  (length salt < 256)%nat -> Z.of_nat (length wdek) < 2 ^ 32 ->
  decode_tail v mode argon (length pre)
    (pre ++ [byte_of_Z (Z.of_nat (length salt))] ++ salt ++ be_bytes 4 (Z.of_nat (length wdek)) ++ wdek ++ ct) =
    Ok (MkEnvelope v mode salt argon wdek ct).
Proof.
  intros Hs Hw. unfold decode_tail.
  assert (E1 : be_value (slice (length pre) 1 (pre ++ [byte_of_Z (Z.of_nat (length salt))] ++ salt ++
             be_bytes 4 (Z.of_nat (length wdek)) ++ wdek ++ ct)) = Z.of_nat (length salt)).
  { rewrite slice_app by done. apply be_value_byte. lia. }
  rewrite E1, Nat2Z.id. cbv zeta.
  pose proof (be_bytes_length 4 (Z.of_nat (length wdek))) as L4.
  destruct (Nat.ltb_spec (length (pre ++ [byte_of_Z (Z.of_nat (length salt))] ++ salt ++
             be_bytes 4 (Z.of_nat (length wdek)) ++ wdek ++ ct)) (length pre + 1 + length salt + 4)) as [H|_].
  { rewrite !length_app, L4 in H. simpl in H. lia. }
  replace (pre ++ [byte_of_Z (Z.of_nat (length salt))] ++ salt ++ be_bytes 4 (Z.of_nat (length wdek)) ++ wdek ++ ct)
    with ((pre ++ [byte_of_Z (Z.of_nat (length salt))]) ++ salt ++ (be_bytes 4 (Z.of_nat (length wdek)) ++ wdek ++ ct))
    by by rewrite <- !app_assoc.
  rewrite (slice_app (pre ++ _) salt _ (length pre + 1) (length salt)) by (rewrite ?length_app; simpl; lia).
  rewrite app_assoc. rewrite (slice_app ((pre ++ _) ++ salt) (be_bytes 4 _) _ (length pre + 1 + length salt) 4) by (exact L4 || (rewrite !length_app; simpl; lia)).
  rewrite be_value_width, Nat2Z.id by (simpl; lia).
  rewrite app_assoc. set (pre' := (((pre ++ _) ++ salt) ++ be_bytes 4 (Z.of_nat (length wdek)))).
  assert (Hp : length pre' = (length pre + 1 + length salt + 4)%nat).
  { unfold pre'. rewrite !length_app, L4. simpl. lia. }
  rewrite <- Hp, slice_app by done.
  destruct (Nat.ltb_spec (length (pre' ++ wdek ++ ct)) (length pre' + length wdek)) as [H|_].
  { rewrite !length_app in H. lia. }
  rewrite app_assoc, drop_app_length' by (by rewrite length_app). done.
Qed.

(** Fields that fit their width. *)
Record envelope_fits (mode : Z) (salt : bytes) (m t p : Z) (wdek : bytes) : Prop := {
  ef_mode : 0 <= mode < 256;
  ef_salt : (length salt < 256)%nat;
  ef_m : 0 <= m < 2 ^ 32;
  ef_t : 0 <= t < 2 ^ 32;
  ef_p : 0 <= p < 2 ^ 32;
  ef_wdek : Z.of_nat (length wdek) < 2 ^ 32;
}.

Lemma envelope_roundtrip mode salt m t p wdek ct : envelope_fits mode salt m t p wdek ->
  ext_decode (ext_encode_v2 mode salt m t p wdek ct) = Ok (MkEnvelope 2 mode salt (m, t, p) wdek ct).
Proof.
  intros [Hmode Hs Hm Ht Hp Hw]. unfold ext_encode_v2.
  pose proof (be_bytes_length 4 m) as Lm. pose proof (be_bytes_length 4 t) as Lt. pose proof (be_bytes_length 4 p) as Lp.
  set (b2 := byte_of_Z EXT_ENVELOPE_V2). set (bm := byte_of_Z mode).
  set (tail := [byte_of_Z (Z.of_nat (length salt))] ++ salt ++ be_bytes 4 (Z.of_nat (length wdek)) ++ wdek ++ ct).
  change (ext_decode (b2 :: (bm :: be_bytes 4 m ++ be_bytes 4 t ++ be_bytes 4 p ++ tail)) =
          Ok (MkEnvelope 2 mode salt (m, t, p) wdek ct)).
  unfold ext_decode. change (Z_of_byte b2 =? EXT_ENVELOPE_V1) with false. change (Z_of_byte b2 =? EXT_ENVELOPE_V2) with true.
  cbv iota. set (buf := b2 :: _).
  assert (Hbuf : buf = ([b2; bm] ++ be_bytes 4 m ++ be_bytes 4 t ++ be_bytes 4 p) ++ tail).
  { unfold buf. by rewrite <- !app_assoc. }
  destruct (Nat.ltb_spec (length buf) (2 + 12 + 1)) as [H|_].
  { rewrite Hbuf in H. unfold tail in H. rewrite !length_app, Lm, Lt, Lp in H. simpl in H. lia. }
  cbv zeta.
  assert (S1 : slice 1 1 buf = [bm]) by done.
  assert (S2 : slice 2 4 buf = be_bytes 4 m) by (apply (slice_app [b2; bm]); done).
  assert (S3 : slice 6 4 buf = be_bytes 4 t).
  { rewrite Hbuf, <- !app_assoc, (app_assoc [b2; bm]). apply slice_app; rewrite ?length_app, ?Lm; done. }
  assert (S4 : slice 10 4 buf = be_bytes 4 p).
  { rewrite Hbuf, <- !app_assoc, (app_assoc [b2; bm]), (app_assoc ([b2; bm] ++ _)).
    apply slice_app; rewrite ?length_app, ?Lm, ?Lt; done. }
  rewrite S1, S2, S3, S4, (be_value_byte mode Hmode : be_value [bm] = mode), !be_value_width by (simpl; lia). rewrite Hbuf.
  pose proof (decode_tail_app 2 mode (m, t, p) ([b2; bm] ++ be_bytes 4 m ++ be_bytes 4 t ++ be_bytes 4 p) salt wdek ct Hs Hw) as D.
  rewrite !length_app, Lm, Lt, Lp in D. exact D.
Qed.

(** Bytes behind an envelope without data are its data. *)
Lemma encode_append mode salt m t p wdek ct :
  ext_encode_v2 mode salt m t p wdek [] ++ ct = ext_encode_v2 mode salt m t p wdek ct.
Proof. unfold ext_encode_v2. by rewrite app_nil_r, <- !app_assoc. Qed.

(** ** Keys *)

Lemma byte_lxor_range a b : 0 <= a < 256 -> 0 <= b < 256 -> 0 <= Z.lxor a b < 256.
Proof.
  intros Ha Hb. assert (H0 : 0 <= Z.lxor a b) by (apply Z.lxor_nonneg; lia). split; [done|].
  destruct (Z.eq_dec (Z.lxor a b) 0) as [->|Hn]; [lia|]. change 256 with (2 ^ 8). apply Z.log2_lt_pow2; [lia|].
  assert (Hl : forall z, 0 <= z < 256 -> Z.log2 z < 8).
  { intros z Hz. destruct (Z.eq_dec z 0) as [->|]; [done|]. apply Z.log2_lt_pow2; change (2 ^ 8) with 256; lia. }
  pose proof (Z.log2_lxor a b ltac:(lia) ltac:(lia)). pose proof (Hl a Ha). pose proof (Hl b Hb). lia.
Qed.

Lemma xor_byte_cancel a b : xor_byte b (xor_byte a b) = a.
Proof.
  unfold xor_byte. rewrite Z_of_byte_of_Z. pose proof (Z_of_byte_range a). pose proof (Z_of_byte_range b).
  rewrite Z.mod_small by (apply byte_lxor_range; lia).
  by rewrite (Z.lxor_comm (Z_of_byte a)), <- Z.lxor_assoc, Z.lxor_nilpotent, Z.lxor_0_l, byte_of_Z_of_byte.
Qed.

Lemma xor_byte_comm a b : xor_byte a b = xor_byte b a.
Proof. unfold xor_byte. by rewrite Z.lxor_comm. Qed.

Lemma xor_bytes_length a b : length a = length b -> length (xor_bytes a b) = length b.
Proof. intros H. unfold xor_bytes. rewrite length_zip_with. lia. Qed.

(** Either half and the key give the other half back. *)
Lemma xor_bytes_cancel a b : length a = length b -> xor_bytes b (xor_bytes a b) = a.
Proof.
  revert b. induction a as [|x a IH]; intros [|y b] H; try done. cbn [xor_bytes zip_with].
  change (zip_with xor_byte) with xor_bytes. by rewrite xor_byte_cancel, IH by (injection H; done).
Qed.

Lemma xor_bytes_comm a b : xor_bytes a b = xor_bytes b a.
Proof.
  revert b. induction a as [|x a IH]; intros [|y b]; try done. cbn [xor_bytes zip_with].
  change (zip_with xor_byte) with xor_bytes. by rewrite xor_byte_comm, IH.
Qed.

Section opening.
Context {P : Primitives} {L : PrimitiveLaws P} {O : OpsLib} {OL : OpsLaws P O}.

(** Who can open what was sealed under a key: a session with that master key,
    a reader with that passphrase. *)
Definition has_key (env : Environment) (session : Session) (explicit : option string) (key : ExtKey) : Prop :=
  match key with
  | ExtCmk cmk => cmk_bytes session = Some cmk
  | ExtPassphrase p => resolve_external_passphrase_for_read env explicit = Ok p
  end.

Lemma aead_sealed_length nonce pt key c :
  length nonce = 12%nat -> aead_seal nonce pt key = Ok c -> length c = (length pt + 28)%nat.
Proof.
  unfold aead_seal. rewrite aead_seal_nonce_aad. intros Hn (_ & ct & Hct & ->)%aead_seal_aad_inv.
  rewrite length_app, (aes_gcm_length _ _ _ _ _ Hct), Hn. lia.
Qed.

Lemma seal_with_Ok what pt key w c w' : run (seal_with what pt key) w = (Val (Ok c), w') ->
  aead_open c key = Ok pt /\ length c = (length pt + 28)%nat.
Proof.
  unfold seal_with. rewrite run_bind, run_draw, run_ret. intros H. injection H as H <-. apply map_err_Ok in H.
  split; [by apply (aead_roundtrip _ _ _ _ (rand_length _ _) H)|by apply (aead_sealed_length _ _ _ _ (rand_length _ _) H)].
Qed.

(** The wrapping key, and how a reader finds it again. *)
Lemma sealing_kek_Ok key w mode salt m t p kek w' :
  run (sealing_kek key) w = (Val (Ok (mode, salt, (m, t, p), kek)), w') ->
  envelope_fits mode salt m t p [] /\
  match key with
  | ExtCmk cmk => mode = EXT_MODE_CMK /\ salt = [] /\ kek = cmk
  | ExtPassphrase pass => mode = EXT_MODE_ARGON2 /\ argon2_key_with pass salt m t p = Ok kek
  end.
Proof.
  destruct key as [cmk|pass]; cbn [sealing_kek].
  - rewrite run_ret. intros H. injection H as <- <- <- <- <- <- <-. split; [|done].
    unfold EXT_MODE_CMK. constructor; cbn [length]; lia.
  - rewrite run_bind, run_draw, run_ret. intros H. injection H as H <-. unfold argon2_key in H.
    destruct (derive_kek pass (rand_bytes (rng w) 16) ARGON_M_COST ARGON_T_COST ARGON_P_COST) as [k|err] eqn:E; [|done].
    cbn in H. injection H as <- <- <- <- <- <-. split; [|done].
    unfold EXT_MODE_ARGON2, ARGON_M_COST, ARGON_T_COST, ARGON_P_COST. constructor; rewrite ?rand_length; cbn [length]; lia.
Qed.

(** Envelopes open to what was sealed. *)
Lemma external_seal_parts_Ok key pt w meta ct w' :
  match key with ExtCmk cmk => length cmk = 32%nat | ExtPassphrase _ => True end ->
  run (external_seal_parts key pt) w = (Val (Ok (meta, ct)), w') ->
  exists e, ext_decode (meta ++ ct) = Ok e /\ en_ciphertext e = ct /\ length ct = (length pt + 28)%nat /\
    forall env session explicit, has_key env session explicit key -> external_open env e session explicit = Ok pt.
Proof.
  intros Hkey H. unfold external_seal_parts in H. apply run_bind_Val in H as (dek & w1 & Hd & H).
  rewrite run_draw in Hd. injection Hd as <- <-.
  apply run_try_Ok in H as ([[[mode salt] [[m t] p]] kek] & w2 & Hk & H). apply sealing_kek_Ok in Hk as [[Hm Hs Hmc Htc Hpc _] Hk].
  apply run_try_Ok in H as (wd & w3 & Hwd & H). apply seal_with_Ok in Hwd as [Howd Hlwd].
  apply run_try_Ok in H as (c & w4 & Hct & H). apply seal_with_Ok in Hct as [Hoct Hlct].
  rewrite run_ret in H. injection H as <- <- <-. rewrite encode_append. rewrite rand_length in Hlwd.
  eexists. split; [apply envelope_roundtrip; constructor; try done; rewrite Hlwd; vm_compute; done|]. do 2 (split; [done|]).
  intros env session explicit Hhas. unfold external_open, external_kek.
  cbn [en_version en_mode en_argon en_salt en_wrapped_dek en_ciphertext]. change (2 =? 2) with true. cbv iota.
  destruct key as [cmk|pass]; cbn [has_key] in Hhas.
  - destruct Hk as (-> & -> & ->). change (EXT_MODE_CMK =? EXT_MODE_CMK) with true. cbv iota. rewrite Hhas. cbn [ok_or].
    rewrite bind_Ok, Howd. cbn [map_err]. by rewrite bind_Ok, Hoct.
  - destruct Hk as (-> & Hk). change (EXT_MODE_ARGON2 =? EXT_MODE_CMK) with false. cbv iota. rewrite Hhas, bind_Ok, Hk.
    cbn [map_err]. rewrite bind_Ok, Howd. cbn [map_err]. by rewrite bind_Ok, Hoct.
Qed.

(** ** Stashes *)

Record header_ok (h : ResidentHeader) : Prop := {
  ho_mode : 0 <= rh_mode h <= u8_max;
  ho_salt : str_ok (rh_salt h) = true;
  ho_m : 0 <= rh_m_cost h <= u32_max;
  ho_t : 0 <= rh_t_cost h <= u32_max;
  ho_p : 0 <= rh_p_cost h <= u32_max;
  ho_wrapped : str_ok (rh_wrapped_c h) = true;
  ho_name : str_ok (rh_orig_name h) = true;
}.

Lemma in_range_id mx z : 0 <= z <= mx -> in_range 0 mx z = Some z.
Proof. intros [H1 H2]. unfold in_range. by rewrite (proj2 (Z.leb_le _ _) H1), (proj2 (Z.leb_le _ _) H2). Qed.

Lemma u32_json_fits z : 0 <= z <= u32_max -> json_fits (JNum z) = true.
Proof. unfold u32_max. intros H. cbn [json_fits]. unfold i64_min, u64_max. rewrite andb_true_iff, !Z.leb_le. lia. Qed.

Lemma header_roundtrip h : header_ok h ->
  json_from_slice (json_to_vec (header_to_json h)) ≫= header_from_json = Some h.
Proof.
  intros [Hmo Hs Hm Ht Hp Hw Hn]. rewrite json_vec_reads.
  - destruct h as [mo sa m t p wr nm]. cbn [rh_mode rh_m_cost rh_t_cost rh_p_cost] in *.
    change (header_from_json (json_norm (header_to_json (MkHeader mo sa m t p wr nm))) = Some (MkHeader mo sa m t p wr nm)).
    unfold header_from_json.
    change (uint_member ?mx "mode" _) with (in_range 0 mx mo). change (uint_member ?mx "m_cost" _) with (in_range 0 mx m).
    change (uint_member ?mx "t_cost" _) with (in_range 0 mx t). change (uint_member ?mx "p_cost" _) with (in_range 0 mx p).
    by rewrite !in_range_id by done.
  - assert (Hmo' : 0 <= rh_mode h <= u32_max) by (unfold u8_max, u32_max in *; lia).
    pose proof (u32_json_fits _ Hmo') as J1. pose proof (u32_json_fits _ Hm) as J2. pose proof (u32_json_fits _ Ht) as J3.
    pose proof (u32_json_fits _ Hp) as J4. unfold header_to_json. cbn [json_fits forallb fst snd] in *.
    by rewrite Hs, Hw, Hn, J1, J2, J3, J4.
Qed.

Lemma stash_roundtrip h ct : header_ok h -> Z.of_nat (length (json_to_vec (header_to_json h))) < 2 ^ 32 ->
  resident_parse (stash_bytes h ct) = Ok (h, ct).
Proof.
  intros Hh Hl. unfold resident_parse, stash_bytes. set (hj := json_to_vec (header_to_json h)) in *.
  pose proof (be_bytes_length 4 (Z.of_nat (length hj))) as L4. cbv zeta.
  destruct (Nat.ltb_spec (length (RESIDENT_MAGIC ++ be_bytes 4 (Z.of_nat (length hj)) ++ hj ++ ct)) 8) as [H|_].
  { rewrite !length_app, L4 in H. change (length RESIDENT_MAGIC) with 4%nat in H. lia. }
  rewrite (take_app_length' RESIDENT_MAGIC) by done. rewrite bool_decide_eq_true_2 by done. cbn [negb orb].
  rewrite (slice_app RESIDENT_MAGIC) by done. rewrite be_value_width, Nat2Z.id by (simpl; lia).
  rewrite (app_assoc RESIDENT_MAGIC). set (pre := RESIDENT_MAGIC ++ be_bytes 4 _).
  assert (Hp : length pre = 8%nat) by (unfold pre; by rewrite length_app, L4).
  destruct (Nat.ltb_spec (length (pre ++ hj ++ ct)) (8 + length hj)) as [H|_].
  { rewrite !length_app, Hp in H. lia. }
  rewrite (slice_app pre hj) by done. pose proof (header_roundtrip h Hh) as Hr. fold hj in Hr. rewrite Hr. cbn [ok_or]. rewrite bind_Ok.
  rewrite app_assoc, drop_app_length' by (by rewrite length_app, Hp). done.
Qed.

Lemma wrap_client_half_Ok key kf_c name w h w' :
  match key with ExtCmk cmk => length cmk = 32%nat | ExtPassphrase _ => True end -> str_ok name = true ->
  run (wrap_client_half key kf_c name) w = (Val (Ok h), w') ->
  header_ok h /\ rh_orig_name h = name /\
  forall env session explicit, has_key env session explicit key ->
    exists kek, header_kek env h session explicit = Ok kek /\ unwrap_half h kek = Ok kf_c.
Proof.
  intros Hkey Hname H. unfold wrap_client_half in H.
  apply run_try_Ok in H as ([[[mode salt] [[m t] p]] kek] & w2 & Hk & H). apply sealing_kek_Ok in Hk as [[Hm Hs Hmc Htc Hpc _] Hk].
  apply run_try_Ok in H as (wc & w3 & Hwc & H). apply seal_with_Ok in Hwc as [Howc _].
  rewrite run_ret in H. injection H as <- <-. split; [|split; [done|]].
  - constructor; cbn [rh_mode rh_salt rh_m_cost rh_t_cost rh_p_cost rh_wrapped_c rh_orig_name]; unfold u8_max, u32_max;
      try lia; try done; try apply b64_str_ok. destruct key; [done|apply b64_str_ok].
  - intros env session explicit Hhas. exists kek. split.
    + unfold header_kek. cbn [rh_mode rh_salt rh_m_cost rh_t_cost rh_p_cost].
      destruct key as [cmk|pass]; cbn [has_key] in Hhas.
      * destruct Hk as (-> & _ & ->). change (EXT_MODE_CMK =? 0) with true. by rewrite Hhas.
      * destruct Hk as (-> & Hk). change (EXT_MODE_ARGON2 =? 0) with false. cbv iota. rewrite Hhas, bind_Ok, b64_roundtrip.
        cbn [ok_or]. by rewrite bind_Ok, Hk.
    + unfold unwrap_half. cbn [rh_wrapped_c]. rewrite b64_roundtrip. cbn [ok_or]. by rewrite bind_Ok, Howc.
Qed.

(** A header is under 4 GiB in a stash that is under 4 GiB longer than its
    plaintext. *)
Lemma header_fits h ct (pt : bytes) : length ct = (length pt + 28)%nat ->
  Z.of_nat (length (stash_bytes h ct)) - Z.of_nat (length pt) < 2 ^ 32 ->
  Z.of_nat (length (json_to_vec (header_to_json h))) < 2 ^ 32.
Proof. unfold stash_bytes. rewrite !length_app. lia. Qed.
End opening.

(** ** Claims *)

(** A client-side envelope opens to what was sealed. Whatever key
    [external_seal] was given (the profile's master key or a passphrase), the
    bytes it hands to the server decode, and every session or reader that has
    that key opens them to the plaintext; the data's ciphertext is the part a
    server may stream apart from the envelope. *)
Theorem external_envelope_opens {P : Primitives} {L : PrimitiveLaws P} {O : OpsLib} {OL : OpsLaws P O}
    key pt w b w' :
  match key with ExtCmk cmk => length cmk = 32%nat | ExtPassphrase _ => True end ->
  run (external_seal key pt) w = (Val (Ok b), w') ->
  exists e, ext_decode b = Ok e /\ length (en_ciphertext e) = (length pt + 28)%nat /\
    forall env session explicit, has_key env session explicit key -> external_open env e session explicit = Ok pt.
Proof.
  intros Hkey H. unfold external_seal in H. apply run_try_Ok in H as ([meta ct] & w1 & Hs & H).
  rewrite run_ret in H. injection H as <- <-.
  destruct (external_seal_parts_Ok key pt w meta ct w1 Hkey Hs) as (e & Hd & <- & Hl & Ho). by exists e.
Qed.

(** A resident file opens with both halves of its key. The stash that
    [resident_seal] leaves on disk parses, names the file, and whoever has the
    wrapping key and the half the server keeps recovers the plaintext. *)
Theorem resident_stash_opens {P : Primitives} {L : PrimitiveLaws P} {O : OpsLib} {OL : OpsLaws P O}
    key pt name w stash kf_s label w' :
  match key with ExtCmk cmk => length cmk = 32%nat | ExtPassphrase _ => True end -> str_ok name = true ->
  run (resident_seal key pt name) w = (Val (Ok (stash, kf_s, label)), w') ->
  Z.of_nat (length stash) - Z.of_nat (length pt) < 2 ^ 32 ->
  exists h ct, resident_parse stash = Ok (h, ct) /\ rh_orig_name h = name /\
    forall env session explicit, has_key env session explicit key ->
      resident_open env h ct kf_s session explicit = Ok pt.
Proof.
  intros Hkey Hname H Hlen. unfold resident_seal in H.
  apply run_bind_Val in H as (kf & w1 & Hd & H). rewrite run_draw in Hd. injection Hd as <- <-.
  apply run_bind_Val in H as (kf_c & w2 & Hd & H). rewrite run_draw in Hd. injection Hd as <- <-. cbv zeta in H.
  apply run_try_Ok in H as (ct & w3 & Hct & H). apply seal_with_Ok in Hct as [Hoct Hlct].
  apply run_try_Ok in H as (h & w4 & Hh & H). rewrite run_ret in H. injection H as <- <- _ _.
  destruct (wrap_client_half_Ok key _ name _ h _ Hkey Hname Hh) as (Hok & Hn & Hopen).
  exists h, ct. split; [apply stash_roundtrip; [done|by eapply header_fits]|]. split; [done|].
  intros env session explicit Hhas. destruct (Hopen env session explicit Hhas) as (kek & Hkek & Hun).
  unfold resident_open. rewrite Hkek, bind_Ok, Hun, bind_Ok, b64_roundtrip. cbn [ok_or]. rewrite bind_Ok.
  rewrite xor_bytes_length, !rand_length by (by rewrite !rand_length).
  change (negb (32 =? 32)%nat || negb (32 =? 32)%nat) with false. cbv iota.
  by rewrite xor_bytes_cancel, Hoct by (by rewrite !rand_length).
Qed.

(** Rewrapping a resident file changes nothing but the wrapping. When the
    old key unwraps the client's half and [resident_rewrap] wraps it under a
    new key, the new stash holds the same ciphertext and name, the new key
    unwraps the same half, and for every half the server may hold the new stash
    opens to exactly what the old one did. *)
Theorem resident_rewrap_keeps {P : Primitives} {L : PrimitiveLaws P} {O : OpsLib} {OL : OpsLaws P O}
    env session explicit h ct kf_c new_key w stash' w' :
  match new_key with ExtCmk cmk => length cmk = 32%nat | ExtPassphrase _ => True end -> str_ok (rh_orig_name h) = true ->
  resident_unwrap_client_half env h session explicit = Ok kf_c ->
  run (resident_rewrap new_key kf_c ct (rh_orig_name h)) w = (Val (Ok stash'), w') ->
  Z.of_nat (length stash') - Z.of_nat (length ct) < 2 ^ 32 ->
  exists h', resident_parse stash' = Ok (h', ct) /\ rh_orig_name h' = rh_orig_name h /\
    forall env' session' explicit', has_key env' session' explicit' new_key ->
      resident_unwrap_client_half env' h' session' explicit' = Ok kf_c /\
      forall kf_s, resident_open env' h' ct kf_s session' explicit' = resident_open env h ct kf_s session explicit.
Proof.
  intros Hkey Hname Hun H Hlen. unfold resident_rewrap in H. apply run_try_Ok in H as (h' & w1 & Hh & H).
  rewrite run_ret in H. injection H as <- <-.
  destruct (wrap_client_half_Ok new_key kf_c _ w h' w1 Hkey Hname Hh) as (Hok & Hn & Hopen).
  exists h'. split; [|split; [done|]].
  { apply stash_roundtrip; [done|]. unfold stash_bytes in Hlen. rewrite !length_app in Hlen. lia. }
  intros env' session' explicit' Hhas. destruct (Hopen env' session' explicit' Hhas) as (kek' & Hkek' & Hun').
  unfold resident_unwrap_client_half in *. destruct (header_kek env h session explicit) as [kek|] eqn:Hkek; [|done].
  rewrite bind_Ok in Hun. destruct (unwrap_half h kek) as [c|] eqn:Hc; [|done]. rewrite bind_Ok in Hun.
  destruct (length c =? 32)%nat eqn:E32; cbn [negb] in Hun; [|done]. injection Hun as ->. split.
  - by rewrite Hkek', bind_Ok, Hun', bind_Ok, E32.
  - intros kf_s. unfold resident_open. by rewrite Hkek, Hkek', !bind_Ok, Hc, Hun', !bind_Ok.
Qed.

(** Each half determines the other, for every key. *)
Lemma xor_half_unique kf half : length kf = 32%nat -> length half = 32%nat ->
  exists! c, length c = 32%nat /\ xor_bytes kf c = half.
Proof.
  intros Hkf Hh. exists (xor_bytes half kf). split; [split|].
  - rewrite xor_bytes_length; lia.
  - apply xor_bytes_cancel. lia.
  - intros c [Hc <-]. rewrite (xor_bytes_comm kf c). rewrite xor_bytes_comm. apply xor_bytes_cancel. lia.
Qed.

(** C19. A resident file is sealed under a key that is split, and the half the
    server keeps says nothing about it. The stash [resident_seal] leaves on the
    client parses to the contents sealed under a key of 32 fresh bytes, and to a
    header out of which the wrapping key brings the client's half, 32 more fresh
    bytes; what goes to the server is the exclusive-or of the two, and whatever
    the key had been there is exactly one client half that sends the same. *)
Theorem server_half_blind {P : Primitives} {L : PrimitiveLaws P} {O : OpsLib} {OL : OpsLaws P O}
    key pt name w stash kf_s label w' :
  match key with ExtCmk cmk => length cmk = 32%nat | ExtPassphrase _ => True end -> str_ok name = true ->
  run (resident_seal key pt name) w = (Val (Ok (stash, kf_s, label)), w') ->
  Z.of_nat (length stash) - Z.of_nat (length pt) < 2 ^ 32 ->
  let kf := rand_bytes (rng w) 32 in
  let kf_c := rand_bytes (S (rng w)) 32 in
  exists h ct half, resident_parse stash = Ok (h, ct) /\
    aead_seal (rand_bytes (S (S (rng w))) 12) pt kf = Ok ct /\
    (forall env session explicit, has_key env session explicit key ->
       resident_unwrap_client_half env h session explicit = Ok kf_c) /\
    b64_decode kf_s = Some half /\ half = xor_bytes kf kf_c /\
    forall kf', length kf' = 32%nat -> exists! kf_c', length kf_c' = 32%nat /\ xor_bytes kf' kf_c' = half.
Proof.
  intros Hkey Hname H Hlen kf kf_c. unfold resident_seal in H. rewrite !run_bind, run_draw in H. rewrite run_bind, run_draw in H.
  cbn [rng set_rng] in H. fold kf kf_c in H.
  apply run_try_Ok in H as (ct & w3 & Hct & H). pose proof Hct as [_ Hlct]%seal_with_Ok.
  unfold seal_with in Hct. rewrite run_bind, run_draw, run_ret in Hct. injection Hct as Hct <-. apply map_err_Ok in Hct.
  apply run_try_Ok in H as (h & w4 & Hh & H). rewrite run_ret in H. injection H as <- <- _ _.
  destruct (wrap_client_half_Ok key _ name _ h _ Hkey Hname Hh) as (Hok & _ & Hopen).
  exists h, ct, (xor_bytes kf kf_c). split_and!; [|exact Hct| |apply b64_roundtrip|done|].
  - apply stash_roundtrip; [done|by eapply header_fits].
  - intros env session explicit (kek & Hkek & Hun)%Hopen. unfold resident_unwrap_client_half.
    rewrite Hkek, bind_Ok, Hun, bind_Ok. unfold kf_c. by rewrite rand_length.
  - intros kf' Hkf'. apply xor_half_unique; [done|]. unfold kf, kf_c. rewrite xor_bytes_length; by rewrite !rand_length.
Qed.

(** ** Concrete files *)

Definition toy_cmk : ExtKey := ExtCmk (be_bytes 32 5).
Definition toy_pt : bytes := as_bytes "data".

Definition toy_envelope : bytes :=
  Eval vm_compute in match (run (external_seal toy_cmk toy_pt) toy_desk).1 with Val (Ok b) => b | _ => [] end.

Definition toy_resident : bytes * string :=
  Eval vm_compute in match (run (resident_seal toy_cmk toy_pt "a.txt") toy_desk).1 with
                     | Val (Ok (s, k, _)) => (s, k) | _ => ([], "") end.

Definition toy_parsed : ResidentHeader * bytes :=
  Eval vm_compute in match resident_parse toy_resident.1 with Ok r => r | Err _ => (MkHeader 0 "" 0 0 0 "" "", []) end.

Definition toy_half : bytes :=
  Eval vm_compute in match resident_unwrap_client_half (toy_home None) toy_parsed.1 toy_session None with
                     | Ok b => b | Err _ => [] end.

Definition toy_rewrapped : bytes :=
  Eval vm_compute in match (run (resident_rewrap (ExtPassphrase "new") toy_half toy_parsed.2 "a.txt") toy_desk).1 with
                     | Val (Ok b) => b | _ => [] end.

Lemma toy_has_cmk : has_key (toy_home None) toy_session None toy_cmk.
Proof. by vm_compute. Qed.

Lemma toy_resident_run : run (resident_seal toy_cmk toy_pt "a.txt") toy_desk =
  (Val (Ok (toy_resident.1, toy_resident.2, "CMK")), (run (resident_seal toy_cmk toy_pt "a.txt") toy_desk).2).
Proof. by vm_compute. Qed.

Lemma external_envelope_opens_witness :
  exists e, ext_decode toy_envelope = Ok e /\ external_open (toy_home None) e toy_session None = Ok toy_pt.
Proof.
  destruct (external_envelope_opens toy_cmk toy_pt toy_desk toy_envelope (run (external_seal toy_cmk toy_pt) toy_desk).2
    eq_refl ltac:(by vm_compute)) as (e & Hd & _ & Ho).
  exists e. exact (conj Hd (Ho _ _ _ toy_has_cmk)).
Defined.

Lemma resident_stash_opens_witness :
  exists h ct, resident_parse toy_resident.1 = Ok (h, ct) /\
    resident_open (toy_home None) h ct toy_resident.2 toy_session None = Ok toy_pt.
Proof.
  destruct (resident_stash_opens toy_cmk toy_pt "a.txt" toy_desk _ _ _ _ eq_refl ltac:(by vm_compute) toy_resident_run
    ltac:(by vm_compute)) as (h & ct & Hp & _ & Ho).
  exists h, ct. exact (conj Hp (Ho _ _ _ toy_has_cmk)).
Defined.

Lemma resident_rewrap_keeps_witness :
  exists h, resident_parse toy_rewrapped = Ok (h, toy_parsed.2) /\
    resident_open (toy_home None) h toy_parsed.2 toy_resident.2 toy_session (Some "new") =
    resident_open (toy_home None) toy_parsed.1 toy_parsed.2 toy_resident.2 toy_session None.
Proof.
  destruct (resident_rewrap_keeps (toy_home None) toy_session None toy_parsed.1 toy_parsed.2 toy_half (ExtPassphrase "new")
    toy_desk toy_rewrapped (run (resident_rewrap (ExtPassphrase "new") toy_half toy_parsed.2 "a.txt") toy_desk).2
    I ltac:(by vm_compute) ltac:(by vm_compute) ltac:(by vm_compute) ltac:(by vm_compute)) as (h & Hp & _ & Ho).
  exists h. exact (conj Hp (proj2 (Ho (toy_home None) toy_session (Some "new") eq_refl) toy_resident.2)).
Defined.

Lemma server_half_blind_witness :
  exists h ct half, resident_parse toy_resident.1 = Ok (h, ct) /\
    aead_seal (rand_bytes (S (S (rng toy_desk))) 12) toy_pt (rand_bytes (rng toy_desk) 32) = Ok ct /\
    b64_decode toy_resident.2 = Some half /\
    exists! kf_c, length kf_c = 32%nat /\ xor_bytes (be_bytes 32 99) kf_c = half.
Proof.
  destruct (server_half_blind toy_cmk toy_pt "a.txt" toy_desk _ _ _ _ eq_refl ltac:(by vm_compute) toy_resident_run
    ltac:(by vm_compute)) as (h & ct & half & Hp & Hs & _ & Hb & _ & Hu).
  exists h, ct, half. exact (conj Hp (conj Hs (conj Hb (Hu (be_bytes 32 99) eq_refl)))).
Defined.
