(* ===== verification/ClientSecrets.v ===== *)
(** The client's side of secrets: [put], [get] and [rekey] of
    [src/src/main.rs] over the calls of [src/src/client.rs]. A command talks to
    the server through a [ServerApi], the handlers as the network presents them;
    [blackbook_api] is the one the server's own handlers implement. *)
From stdpp Require Import pretty.
From S2P Require Import Prelude Text AccessRules Crypto Store Effects ServerBase Auth CryptoOps Secrets CredStore Session External.

(** ** Calls *)

(** A handler as its caller sees it: every outcome becomes a response. *)
Fixpoint respond_m (m : M Response) : M Response :=
  match m with
  | Done o => Done (Val (respond o))
  | Act act k => Act act (fun x => respond_m (k x))
  end.

(** What the commands call, for one identity, domain and MFA code. *)
Record ServerApi := MkApi {
  api_store : StoreRequest -> M Response;
  api_retrieve : string -> option string -> M Response;
}.

Definition blackbook_api {P : Primitives} {PF : Platform} (state : AppState) (client : AuthenticatedClient)
    (q : DomainQuery) (mfa : option string) : ServerApi := {|
  api_store req := respond_m (store_data state req q client);
  api_retrieve id request_id := respond_m (retrieve_data state id q (MkHeaders request_id mfa) client);
|}.

Record StoreResponse := MkStored {
  st_resource_id : string; st_resource_name : string; st_created_at : string;
  st_encryption_method : string; st_status : string;
}.

Definition stored_from_json (j : Json) : option StoreResponse :=
  id ← str_member "resource_id" j; name ← str_member "resource_name" j; at_ ← str_member "created_at" j;
  m ← str_member "encryption_method" j; s ← str_member "status" j;
  Some (MkStored id name at_ m s).

Record RetrieveResponse := MkRetrieved {
  rt_resource_id : string; rt_resource_name : string; rt_data : string; rt_created_at : string;
  rt_updated_at : string; rt_external : bool; rt_envelope : option string;
}.

(** [#[serde(default)] bool]: absent is [false], null is an error. *)
Definition bool_member (k : string) (j : Json) : option bool :=
  match member k j with None => Some false | Some (JBool b) => Some b | Some _ => None end.

Definition retrieved_from_json (j : Json) : option RetrieveResponse :=
  id ← str_member "resource_id" j; name ← str_member "resource_name" j; data ← str_member "data" j;
  created ← str_member "created_at" j; updated ← str_member "updated_at" j;
  external ← bool_member "external" j; envelope ← opt_member as_str "envelope" j;
  Some (MkRetrieved id name data created updated external envelope).

Section client.
Context {P : Primitives} {O : OpsLib}.

(** The JSON value of a body, and its text. *)
Definition body_json (b : Body) : option Json :=
  match b with JsonBody j => Some j | TextBody t => json_from_slice (as_bytes t) | BinBody d => json_from_slice d end.
Definition body_text (b : Body) : string :=
  match b with JsonBody j => of_bytes (json_to_vec j) | TextBody t => t | BinBody d => of_bytes d end.

Definition api_error_message (j : Json) : option string :=
  error ← str_member "error" j; message ← str_member "message" j;
  Some (if String.eqb error "" then message else message +:+ " [" +:+ error +:+ "]").

Definition handle_response {T} (parse : Json -> option T) (r : Response) : result ClientError T :=
  if is_success (resp_status r) then
    ok_or (Http "error decoding response body") (body_json (resp_body r) ≫= parse)
  else
    Err (Api (resp_status r) (default (body_text (resp_body r)) (body_json (resp_body r) ≫= api_error_message))).

Context (env : Environment).

(** A connection to the server, from a session and the domain and MFA flags;
    TLS is outside. *)
Context (connect : Session -> option string -> option string -> result ClientError ServerApi).

Definition store_inner (api : ServerApi) (name data : string) (flags : option ResourceFlags) (policy : option AccessPolicy)
    (overwrite : bool) (external : option string) : M (result ClientError StoreResponse) :=
  r ← api_store api (MkStore name data flags policy overwrite external);
  mret (handle_response stored_from_json r).

Definition store_external_call (api : ServerApi) (name envelope_b64 : string) (flags : option ResourceFlags)
    (policy : option AccessPolicy) (overwrite : bool) : M (result ClientError StoreResponse) :=
  store_inner api name "" flags policy overwrite (Some envelope_b64).

Definition retrieve_with_request (api : ServerApi) (id_or_name : string) (request_id : option string) :
    M (result ClientError RetrieveResponse) :=
  r ← api_retrieve api id_or_name request_id;
  mret (handle_response retrieved_from_json r).

Definition build_client (session : Session) (domain mfa : option string) : M (result AppError ServerApi) :=
  liftR (map_err app_of_client (connect session domain mfa)).

(** ** put *)

Record PutOpts := MkPut {
  po_flags : ResourceFlags;
  po_quorum : option Z;
  po_signatories : list string;
  po_overwrite : bool;
}.

(** Flags are sent when one of them is set. *)
Definition put_flags (f : ResourceFlags) : option ResourceFlags :=
  if mfa_required f || delete_on_read f || (match max_reads f with Some _ => true | None => false end)
     || rotate_on_read f || preserve_on_cleanup f || no_overwrite f
  then Some f else None.

Definition put_policy (o : PutOpts) : result AppError (option AccessPolicy) :=
  match po_quorum o, po_signatories o with
  | Some _, [] => Err (AppConfig "--quorum requires --signatories <name,name,...>")
  | None, _ :: _ => Err (AppConfig "--signatories requires --quorum N")
  | Some k, (_ :: _) as names => Ok (Some (MkPolicy k names))
  | None, [] => Ok None
  end.

Definition ext_mode_label (key : ExtKey) : string :=
  match key with ExtCmk _ => " [external-key/managed]" | ExtPassphrase _ => " [external-key/passphrase]" end.

Definition put_line (r : StoreResponse) (tag : string) : string :=
  st_status r +:+ " " +:+ st_resource_name r +:+ " (" +:+ st_resource_id r +:+ ")" +:+ tag.

(** [stdin_line] is what the prompt for a missing value reads. *)
Definition cmd_put (profile name : string) (value : option string) (stdin_line : string) (o : PutOpts) (ext : ExtFlags)
    (domain mfa : option string) : M (result AppError string) :=
  session ←? map_err_m app_of_client (load_named env profile);
  bb ←? build_client session domain mfa;
  let value := default stdin_line value in
  spec ←? liftR (resolve_ext_spec env ext false);
  if (match spec with Some _ => true | None => false end) && rotate_on_read (po_flags o) then
    mret (Err (AppConfig "--rotate-on-read is meaningless for client-side secrets (the server can't re-key what it can't read)"))
  else
    let flags := put_flags (po_flags o) in
    policy ←? liftR (put_policy o);
    match spec with
    | Some spec =>
        key ←? liftR (ext_key_for_spec env spec session (ef_passphrase ext));
        envelope ←? external_seal key (as_bytes value);
        resp ←? map_err_m app_of_client
                  (store_external_call bb name (b64_encode envelope) flags policy (po_overwrite o));
        mret (Ok (put_line resp (ext_mode_label key)))
    | None =>
        resp ←? map_err_m app_of_client (store_inner bb name value flags policy (po_overwrite o) None);
        mret (Ok (put_line resp ""))
    end.

(** ** get *)

Definition sleep_secs (n : Z) : M unit :=
  perform (fun w => (tt, MkWorld (db w) (fs w) (clock w + n * 1000000) (rng w) (faults w))).

(** [Instant::now()], on the world's clock. *)
Definition instant_now : M Z := utc_now.

(** The loop of [--wait]; [None] is fuel that ran out. *)
Fixpoint wait_loop {T : Type} (fuel : nat) (deadline wait_timeout : Z) (retrieve : M (result ClientError T)) :
    M (option (result AppError T)) :=
  match fuel with
  | 0%nat => mret None
  | S fuel' =>
      r ← retrieve;
      match r with
      | Ok r => mret (Some (Ok r))
      | Err (Api 412 _) =>
          now ← instant_now;
          if deadline <=? now then
            mret (Some (Err (AppClient ("timed out after " +:+ pretty wait_timeout +:+ "s waiting for approval"))))
          else
            _ ← sleep_secs 3;
            wait_loop fuel' deadline wait_timeout retrieve
      | Err e => mret (Some (Err (app_of_client e)))
      end
  end.

(** Rounds of three seconds until the deadline, and the last one past it. *)
Definition wait_fuel (wait_timeout : Z) : nat := Z.to_nat (wait_timeout / 3 + 2).

Definition until_approved {T : Type} (wait_timeout : Z) (retrieve : M (result ClientError T)) : M (result AppError T) :=
  start ← instant_now;
  r ← wait_loop (wait_fuel wait_timeout) (start + wait_timeout * 1000000) wait_timeout retrieve;
  mret (default (Err (AppClient "fuel")) r).

Definition retrieve_waiting (api : ServerApi) (name : string) (request_id : option string) (wait_timeout : Z) :
    M (result AppError RetrieveResponse) := until_approved wait_timeout (retrieve_with_request api name request_id).

(** The envelope of a response that says it is external. *)
Definition envelope_of (r : RetrieveResponse) : result AppError ExtEnvelope :=
  envelope_b64 ← ok_or (AppCrypto "server marked secret external but returned no envelope") (rt_envelope r);
  envelope ← ok_or (AppCrypto "envelope is not valid base64") (b64_decode envelope_b64);
  ext_decode envelope.

(** What goes to standard output. *)
Definition cmd_get (profile name : string) (request_id : option string) (wait : bool) (wait_timeout : Z)
    (external_passphrase domain mfa : option string) : M (result AppError bytes) :=
  session ←? map_err_m app_of_client (load_named env profile);
  bb ←? build_client session domain mfa;
  resp ←? (if wait then retrieve_waiting bb name request_id wait_timeout
           else map_err_m app_of_client (retrieve_with_request bb name request_id));
  mret (if rt_external resp then
          e ← envelope_of resp;
          external_open env e session external_passphrase
        else Ok (as_bytes (rt_data resp +:+ nl))).

(** ** rekey *)

Definition ext_key_label (k : ExtKey) : string :=
  match k with ExtCmk _ => "managed (CMK)" | ExtPassphrase _ => "passphrase" end.

Definition cmd_rekey (profile name : string) (old_external_passphrase : option string) (external_key : bool)
    (external_passphrase domain mfa : option string) : M (result AppError string) :=
  session ←? map_err_m app_of_client (load_named env profile);
  bb ←? build_client session domain mfa;
  resp ←? map_err_m app_of_client (retrieve_with_request bb name None);
  if negb (rt_external resp) then
    mret (Err (AppConfig ("'" +:+ name +:+ "' is a normal (server-side) secret, not client-side — there is no external key to change.")))
  else
    plain ←? liftR (e ← envelope_of resp; external_open env e session old_external_passphrase);
    new_key ←? liftR (rekey_target_key session external_key external_passphrase);
    new_env ←? external_seal new_key plain;
    _ ←? map_err_m app_of_client (store_external_call bb name (b64_encode new_env) None None true);
    mret (Ok ("✓ rekeyed secret '" +:+ name +:+ "' → " +:+ ext_key_label new_key +:+ ".")).
End client.
