(* ===== verification/ClientSecretsProps.v ===== *)
(** Client and server together ([ClientSecrets.v] over [Secrets.v]): a value
    that [put] seals travels through the server and comes out of [get] on any
    client that has the key, and [rekey] changes only its wrapping. *)
From S2P Require Import Prelude Text AccessRules Crypto ToyPrimitives Store Effects Concurrency ServerBase ToyPlatform AuditLog Auth Threshold Secrets SecretsLemmas SecretsProps CryptoOps ToyOps CryptoOpsProps CredStore FileSteps Session SessionProps External ExternalProps ClientSecrets.

(** ** The boundary *)

Lemma run_respond_m m w : run (respond_m m) w = (Val (respond (run m w).1), (run m w).2).
Proof.
  revert w. induction m as [o|X act k IH]; intros w; [done|]. cbn [respond_m run]. destruct (act w) as [x w1]. apply IH.
Qed.

Section calls.
Context {P : Primitives} {L : PrimitiveLaws P} {PF : Platform} {O : OpsLib} {OL : OpsLaws P O} (state : AppState).

Lemma refuses_store_data req q client : refuses (store_data state req q client).
Proof.
  assert (Hs : forall l, refuses (signatory_ids state l)) by (induction l; cbn [signatory_ids]; solve_refuses; auto).
  unfold store_data, store_validate, store_external, store_conflicts, store_seal, store_layers, store_at_rest,
    store_insert, policy_check, policy_ids, serialize_keys, seal_envelope, new_id, enc_str, enc_field.
  solve_refuses; auto.
Qed.

(** A call that succeeded is a handler that ended normally. *)
Lemma store_call_Ok client q mfa name data flags policy overwrite external w r w' :
  run (store_inner (blackbook_api state client q mfa) name data flags policy overwrite external) w = (Val (Ok r), w') ->
  exists resp, run (store_data state (MkStore name data flags policy overwrite external) q client) w = (Val resp, w').
Proof.
  unfold store_inner. cbn [api_store blackbook_api]. rewrite run_bind, run_respond_m. set (req := MkStore _ _ _ _ _ _).
  destruct (run (store_data state req q client) w) as [o w1] eqn:E. cbn [fst snd]. rewrite run_ret. intros H. injection H as H <-.
  unfold handle_response in H. destruct (is_success (resp_status (respond o))) eqn:Es; [|done].
  destruct (refuses_success _ _ _ _ (refuses_store_data req q client) E Es) as [resp ->]. by exists resp.
Qed.

Definition retrieved (s : Secret) (name : string) (given : string * option string) : RetrieveResponse :=
  MkRetrieved (s_id s) name given.1 (fmt_text (s_created s)) (fmt_text (s_updated s)) (s_external s) given.2.

Lemma retrieve_call_Ok client q mfa id request_id s name given w w' :
  run (retrieve_data state id q (MkHeaders request_id mfa) client) w =
    (Val (json_response 200 (retrieve_response s name given.1 given.2)), w') ->
  run (retrieve_with_request (blackbook_api state client q mfa) id request_id) w = (Val (Ok (retrieved s name given)), w').
Proof.
  intros H. unfold retrieve_with_request. cbn [api_retrieve blackbook_api]. rewrite run_bind, run_respond_m, H.
  cbn [fst snd respond]. rewrite run_ret. do 2 f_equal. destruct given as [data [e|]]; reflexivity.
Qed.

Lemma touches_external_seal S key pt : touches S (external_seal key pt).
Proof. unfold external_seal, external_seal_parts, sealing_kek, seal_with. touching. Qed.

Lemma cmk_bytes_length session k : cmk_bytes session = Some k -> length k = 32%nat.
Proof.
  unfold cmk_bytes. destruct (se_cmk session) as [c|]; [|done]. cbn. destruct (b64_decode c) as [raw|]; [|done]. cbn.
  destruct (Nat.eqb_spec (length raw) 32); intros; by simplify_eq.
Qed.

Lemma rekey_key_length session ek pass key : rekey_target_key session ek pass = Ok key ->
  match key with ExtCmk cmk => length cmk = 32%nat | ExtPassphrase _ => True end.
Proof.
  unfold rekey_target_key. destruct (nonempty pass); [by destruct ek; [|intros [= <-]]|].
  destruct (cmk_bytes session) as [k|] eqn:E; [|done]. cbn. intros [= <-]. by apply cmk_bytes_length in E.
Qed.

Lemma ext_key_length env spec session explicit key :
  ext_key_for_spec env spec session explicit = Ok key ->
  match key with ExtCmk cmk => length cmk = 32%nat | ExtPassphrase _ => True end.
Proof.
  unfold ext_key_for_spec. destruct (spec_key spec).
  - destruct (cmk_bytes session) as [k|] eqn:E; [|done]. cbn. intros [= <-]. by apply cmk_bytes_length in E.
  - destruct (resolve_external_passphrase_for_read env explicit); [|done]. by intros [= <-].
Qed.

(** What an external response opens to. *)
Definition opens (env : Environment) (session : Session) (explicit : option string) (b : bytes) (plain : bytes) : Prop :=
  exists e, ext_decode b = Ok e /\ external_open env e session explicit = Ok plain.

Lemma envelope_of_retrieved s name b : envelope_of (retrieved s name ("", Some (b64_encode b))) = ext_decode b.
Proof. unfold envelope_of. cbn [retrieved rt_envelope snd ok_or]. by rewrite bind_Ok, b64_roundtrip. Qed.

(** The reader whom the domain and the ACL let through in [w]. *)
Definition let_in (reader : AuthenticatedClient) (q : DomainQuery) (dom name : string) (w : World) : Prop :=
  exists nm dec, run (resolve_and_gate_domain state reader q) w = (Val (Ok (dom, nm)), w) /\
    run (acl_check (metadata_enc_key state) reader dom name Read) w = (Val (Ok dec), w) /\ is_allowed dec = true.

Abbreviation name_id dom name := (name_id_hex (name_index_key state) dom name).

(** [get] on a handler that answers. *)
Lemma cmd_get_answered env connect profile name request_id explicit domain mfa session client q s given w w1 w2 :
  run (load_named env profile) w = (Val (Ok session), w1) ->
  connect session domain mfa = Ok (blackbook_api state client q mfa) ->
  run (retrieve_data state name q (MkHeaders request_id mfa) client) w1 =
    (Val (json_response 200 (retrieve_response s name given.1 given.2)), w2) ->
  run (cmd_get env connect profile name request_id false 0 explicit domain mfa) w =
    (Val (if s_external s then e ← envelope_of (retrieved s name given); external_open env e session explicit
          else Ok (as_bytes (given.1 +:+ nl))), w2).
Proof.
  intros Hl Hc Hr. unfold cmd_get. eapply run_try; [by rewrite run_map_err, Hl|].
  unfold build_client. rewrite Hc. eapply run_try; [apply run_ret|]. cbv iota.
  eapply run_try; [by rewrite run_map_err, (retrieve_call_Ok client q mfa _ _ _ _ _ _ _ Hr)|]. apply run_ret.
Qed.

(** What a [put] that succeeded sent: the value itself, or an envelope that
    opens to it for whoever has the key. *)
Definition sent (env : Environment) (session : Session) (ext : ExtFlags) (spec : option ExtSpec) (value : string)
    (data : string) (external : option string) : Prop :=
  match spec with
  | None => data = value /\ external = None
  | Some spec => data = "" /\ exists key b e, external = Some (b64_encode b) /\ ext_decode b = Ok e /\
      ext_key_for_spec env spec session (ef_passphrase ext) = Ok key /\
      forall env' session' explicit, has_key env' session' explicit key ->
        external_open env' e session' explicit = Ok (as_bytes value)
  end.

Lemma cmd_put_sent env connect profile name value stdin o ext domain mfa session client q spec w w1 line w' :
  run (load_named env profile) w = (Val (Ok session), w1) ->
  connect session domain mfa = Ok (blackbook_api state client q mfa) -> resolve_ext_spec env ext false = Ok spec ->
  run (cmd_put env connect profile name value stdin o ext domain mfa) w = (Val (Ok line), w') ->
  exists policy data external w2 resp, put_policy o = Ok policy /\ db w2 = db w1 /\
    sent env session ext spec (default stdin value) data external /\
    run (store_data state (MkStore name data (put_flags (po_flags o)) policy (po_overwrite o) external) q client) w2 =
      (Val resp, w').
Proof.
  intros Hl Hc Hspec H. unfold cmd_put in H.
  apply run_try_Ok in H as (s0 & w2 & Hl' & H). rewrite run_map_err, Hl in Hl'. injection Hl' as <- <-.
  unfold build_client in H. rewrite Hc in H. apply run_try_liftR in H as (api & Ha & H). injection Ha as <-.
  cbv zeta in H. rewrite Hspec in H. apply run_try_liftR in H as (sp & Hsp & H). injection Hsp as <-.
  destruct ((match spec with Some _ => true | None => false end) && rotate_on_read (po_flags o)); [done|].
  apply run_try_liftR in H as (policy & Hp & H). destruct spec as [sp|].
  - apply run_try_liftR in H as (key & Hkey & H).
    apply run_try_Ok in H as (b & w3 & Hs & H). apply run_try_Ok in H as (resp & w4 & Hst & H). rewrite run_ret in H. injection H as _ <-.
    apply run_map_err_Ok in Hst. unfold store_external_call in Hst. apply store_call_Ok in Hst as (r & Hst).
    pose proof (touches_run_rest (fun _ => False) _ w1 (touches_external_seal _ key (as_bytes (default stdin value)))) as (Hdb & _ & _).
    rewrite Hs in Hdb. pose proof (ext_key_length _ _ _ _ _ Hkey) as Hlen.
    unfold external_seal in Hs. apply run_try_Ok in Hs as ([meta ct] & w5 & Hsp & Hs). rewrite run_ret in Hs. injection Hs as <- <-.
    destruct (external_seal_parts_Ok key _ w1 meta ct w5 Hlen Hsp) as (e & Hd & _ & _ & Ho).
    exists policy, "", (Some (b64_encode (meta ++ ct))), w5, r. do 2 (split; [done|]). split; [|done]. split; [done|].
    by exists key, (meta ++ ct), e.
  - apply run_try_Ok in H as (resp & w4 & Hst & H). rewrite run_ret in H. injection H as _ <-.
    apply run_map_err_Ok, store_call_Ok in Hst as (r & Hst). by exists policy, (default stdin value), None, w1, r.
Qed.
End calls.

(** C10. What one client puts, another gets, and with a client-side key the
    server in between only ever held an envelope. If [put] succeeds on a new
    name, without a quorum or an MFA flag, then in any later state that still
    has the secrets, [get] by a client that the domain and the rules let read
    (and that has the key, if there is one) writes exactly the value, whoever it
    is and wherever it connects from; a value the server could read is followed
    by a newline. *)
Theorem put_then_get {P : Primitives} {L : PrimitiveLaws P} {PF : Platform} {O : OpsLib} {OL : OpsLaws P O}
    state env connect profile name value stdin o ext domain mfa session client q spec dom w w1 line w'
    env' connect' profile' explicit domain' mfa' request_id session' reader v v1 :
  (* the put *)
  run (load_named env profile) w = (Val (Ok session), w1) ->
  connect session domain mfa = Ok (blackbook_api state client q mfa) ->
  resolve_ext_spec env ext false = Ok spec -> put_policy o = Ok None -> mfa_required (po_flags o) = false ->
  (forall m, max_reads (po_flags o) = Some m -> 1 <= m) ->
  live_domain_id (domain_name_id_hex (name_index_key state) (DomainQuery_name q)) (db w1) = Some dom ->
  find_secret dom name (name_id_hex (name_index_key state) dom name) (db w1) = None ->
  is_str name -> is_str (default stdin value) ->
  run (cmd_put env connect profile name value stdin o ext domain mfa) w = (Val (Ok line), w') ->
  (* the get *)
  run (load_named env' profile') v = (Val (Ok session'), v1) ->
  connect' session' domain' mfa' = Ok (blackbook_api state reader q mfa') ->
  (forall sp key, spec = Some sp -> ext_key_for_spec env sp session (ef_passphrase ext) = Ok key ->
     has_key env' session' explicit key) ->
  secrets (db v1) = secrets (db w') -> faults v1 = [] -> let_in state reader q dom name v1 ->
  (run (cmd_get env' connect' profile' name request_id false 0 explicit domain' mfa') v).1 =
    Val (Ok (as_bytes (match spec with Some _ => default stdin value | None => default stdin value +:+ nl end))).
Proof.
  intros Hl Hc Hspec Hpol Hmfa Hmax Hdom Hnew Hname Hval Hput Hl' Hc' Hhas Hsec Hf (nm & dec & Hgate & Hacl & Hal).
  destruct (cmd_put_sent state env connect profile name value stdin o ext domain mfa session client q spec w w1
    line w' Hl Hc Hspec Hput) as (policy & data & external & w2 & resp & Hp & Hdb & Hsent & Hst).
  rewrite Hpol in Hp. injection Hp as <-.
  assert (Hfl : default default_flags (put_flags (po_flags o)) = po_flags o).
  { unfold put_flags. destruct (po_flags o) as [[] [] [m|] [] [] []]; reflexivity. }
  assert (Hstr : is_str (handed (MkStore name data (put_flags (po_flags o)) None (po_overwrite o) external)).1).
  { unfold handed. cbn [sr_external sr_data]. destruct spec as [sp|]; [destruct Hsent as (-> & key & b & e & -> & _)|destruct Hsent as [-> ->]; done].
    cbn [mbind option_bind]. by rewrite b64_roundtrip. }
  destruct (stored_then_read state _ q client reader (MkHeaders request_id mfa') w2 w' v1 resp dom nm dec Hst)
    as (v2 & s & _ & Hx & Hr); cbn [sr_resource_name sr_access_policy sr_flags]; rewrite ?Hfl, ?Hdb; try done.
  cbn [sr_resource_name] in Hr.
  rewrite (cmd_get_answered state env' connect' profile' name request_id explicit domain' mfa' session' reader q s _ v v1 v2 Hl' Hc' Hr).
  unfold handed in *. cbn [sr_external sr_data] in *. cbn [fst]. rewrite Hx. destruct spec as [sp|].
  - destruct Hsent as (-> & key & b & e & -> & Hd & Hkey & Ho). cbn [mbind option_bind]. rewrite b64_roundtrip. cbn [is_null negb].
    by rewrite envelope_of_retrieved, Hd, bind_Ok, (Ho env' session' explicit (Hhas sp key eq_refl Hkey)).
  - by destruct Hsent as [-> ->].
Qed.

(** *** Rekeying *)

(** The row of a client-side secret without a read limit, a quorum or a code,
    whose envelope opens to [plain]. *)
Record held_row {P : Primitives} {PF : Platform} {O : OpsLib} (state : AppState) (dom name : string) (d : Db) (row : Secret)
    (b : bytes) : Prop := {
  hr_found : find_secret dom name (name_id_hex (name_index_key state) dom name) d = Some row;
  hr_named : find_named dom (name_id_hex (name_index_key state) dom name) d = Some row;
  hr_name : dec_str (metadata_enc_key state) (s_name_enc row) = Ok name;
  hr_readable : readable row;
  hr_uncapped : read_cap (s_flags row) = None;
  hr_external : s_external row = true;
  hr_carries : carries state true (s_layer2 row) (s_envelope row) ("", Some (b64_encode b));
}.

Section rekey.
Context {P : Primitives} {L : PrimitiveLaws P} {PF : Platform} {O : OpsLib} {OL : OpsLaws P O} (state : AppState).

(** Looking a row up after updates that keep names, ids and domains. *)
Lemma find_after_update dom name nid q u d d' row :
  (forall s, s_id (u s) = s_id s /\ s_domain (u s) = s_domain s /\ s_name_id (u s) = s_name_id s) ->
  secrets d' = update_where q u (secrets d) ->
  (find_secret dom name nid d = Some row -> find_secret dom name nid d' = Some (if q row then u row else row)) /\
  (find_named dom nid d = Some row -> find_named dom nid d' = Some (if q row then u row else row)).
Proof.
  intros Hu Hs. unfold find_secret, find_named. rewrite Hs.
  split; intros Hf; (rewrite first_row_update; [by rewrite Hf|]); intros x; destruct (Hu x) as (E1 & E2 & E3); by rewrite ?E1, E2, E3.
Qed.

(** Counting a read of an uncapped row changes nothing that matters. *)
Lemma held_row_read dom name d d' row b :
  held_row state dom name d row b -> secrets d' = read_once row (secrets d) ->
  held_row state dom name d' (bump_read row) b.
Proof.
  intros [Hf Hn Hname (He & Hp & Hm & Hcap) Hun Hx Hc] Hs.
  destruct (find_after_update dom name (name_id_hex (name_index_key state) dom name)
    (fun x => s_id x =s? s_id row) bump_read d d' row (fun s => conj eq_refl (conj eq_refl eq_refl)) Hs) as [H1 H2].
  rewrite String.eqb_refl in H1, H2. constructor; auto.
  repeat split; try done. intros cap Hcap'. change (read_cap (s_flags row) = Some cap) in Hcap'. by rewrite Hun in Hcap'.
Qed.

(** Overwriting it with another envelope. *)
Lemma held_row_overwritten dom name d d' row x now b b' :
  held_row state dom name d row b -> sl_external x = true ->
  carries state true (sl_layer2 x) (sl_at_rest x) ("", Some (b64_encode b')) ->
  secrets d' = secrets (overwrite_secret (s_id row) x now d) ->
  exists row', held_row state dom name d' row' b' /\ s_id row' = s_id row /\ s_flags row' = s_flags row.
Proof.
  intros [Hf Hn Hname (He & Hp & Hm & Hcap) Hun Hx Hc] Hsx Hsc Hs.
  edestruct (find_after_update dom name (name_id_hex (name_index_key state) dom name)
    (fun s => s_id s =s? s_id row) (fun s =>
    MkSecret (s_id s) (s_name_enc s) (s_name_id s) (s_domain s) (sl_layer1 x) (sl_layer2 x) (sl_wrapped x)
      (sl_external x) (sl_at_rest x) (s_flags s) (s_read_count s) (s_policy s) (s_exhausted s) (s_created s)
      now (sl_method x)) d d' row (fun s => conj eq_refl (conj eq_refl eq_refl)) Hs) as [H1 H2].
  rewrite String.eqb_refl in H1, H2. eexists. split; [constructor; [by apply H1|by apply H2|..]|by split]; try done.
Qed.

(** Reading it. *)
Lemma held_row_get env connect profile name request_id explicit domain mfa session client q dom w w1 row b :
  run (load_named env profile) w = (Val (Ok session), w1) ->
  connect session domain mfa = Ok (blackbook_api state client q mfa) -> faults w1 = [] ->
  held_row state dom name (db w1) row b -> let_in state client q dom name w1 ->
  exists w2, run (retrieve_with_request (blackbook_api state client q mfa) name request_id) w1 =
      (Val (Ok (retrieved row name ("", Some (b64_encode b)))), w2) /\
    secrets (db w2) = read_once row (secrets (db w1)) /\ domains (db w2) = domains (db w1) /\
    run (cmd_get env connect profile name request_id false 0 explicit domain mfa) w =
      (Val (e ← ext_decode b; external_open env e session explicit), w2).
Proof.
  intros Hl Hc Hf [Hfind _ Hname Hr Hun Hx Hcar] (nm & dec & Hgate & Hacl & Hal). rewrite <- Hx in Hcar.
  destruct (retrieve_readable state name q (MkHeaders request_id mfa) client w1 dom nm row name ("", Some (b64_encode b)) dec)
    as (w2 & Hrun & Hrest); try done.
  destruct (Hrest Hun) as [Hs Hd]. exists w2. split; [by apply retrieve_call_Ok|]. do 2 (split; [done|]).
  rewrite (cmd_get_answered state env connect profile name request_id explicit domain mfa session client q row
    ("", Some (b64_encode b)) w w1 w2 Hl Hc Hrun), Hx.
  by rewrite envelope_of_retrieved.
Qed.
End rekey.

(** C16. Rekeying changes only the wrapping. For a client-side secret that may be
    read any number of times and asks for neither approvals nor a second factor,
    if [rekey] succeeds then what it had opened is what [get] writes from then on
    for whoever has the new key; the row keeps its identity and flags. (Where the
    reads are limited it does not hold: [rekey_on_last_read_loses_secret] and
    [rekey_drops_delete_on_read].) *)
Theorem rekey_keeps_plaintext {P : Primitives} {L : PrimitiveLaws P} {PF : Platform} {O : OpsLib} {OL : OpsLaws P O}
    state env connect profile name old external_key passphrase domain mfa session client q dom w w1 row b line w'
    env' connect' profile' explicit domain' mfa' request_id session' reader v v1 :
  (* the rekey *)
  run (load_named env profile) w = (Val (Ok session), w1) ->
  connect session domain mfa = Ok (blackbook_api state client q mfa) -> faults w1 = [] ->
  held_row state dom name (db w1) row b -> let_in state client q dom name w1 ->
  live_domain_id (domain_name_id_hex (name_index_key state) (DomainQuery_name q)) (db w1) = Some dom ->
  run (cmd_rekey env connect profile name old external_key passphrase domain mfa) w = (Val (Ok line), w') ->
  exists e plain new_key b' row',
    ext_decode b = Ok e /\ external_open env e session old = Ok plain /\
    rekey_target_key session external_key passphrase = Ok new_key /\
    held_row state dom name (db w') row' b' /\ s_id row' = s_id row /\ s_flags row' = s_flags row /\
    (* the get *)
    (run (load_named env' profile') v = (Val (Ok session'), v1) ->
     connect' session' domain' mfa' = Ok (blackbook_api state reader q mfa') ->
     has_key env' session' explicit new_key -> secrets (db v1) = secrets (db w') -> faults v1 = [] ->
     let_in state reader q dom name v1 ->
     (run (cmd_get env' connect' profile' name request_id false 0 explicit domain' mfa') v).1 = Val (Ok plain)).
Proof.
  intros Hl Hc Hf Hrow Hin Hdom H. unfold cmd_rekey in H.
  apply run_try_Ok in H as (s0 & w2 & Hl' & H). rewrite run_map_err, Hl in Hl'. injection Hl' as <- <-.
  unfold build_client in H. rewrite Hc in H. apply run_try_liftR in H as (api & Ha & H). injection Ha as <-.
  destruct (held_row_get state env connect profile name None old domain mfa session client q dom w w1 row b Hl Hc Hf Hrow Hin)
    as (w2 & Hr & Hs2 & Hd2 & _).
  apply run_try_Ok in H as (resp & w3 & Hr' & H). rewrite run_map_err, Hr in Hr'. injection Hr' as <- <-.
  change (rt_external (retrieved row name ("", Some (b64_encode b)))) with (s_external row) in H.
  rewrite (hr_external _ _ _ _ _ _ Hrow), envelope_of_retrieved in H. cbn [negb] in H.
  apply run_try_liftR in H as (plain & Hplain & H).
  destruct (ext_decode b) as [e|] eqn:He; [|done]. rewrite bind_Ok in Hplain.
  apply run_try_liftR in H as (new_key & Hk & H). apply run_try_Ok in H as (nb & w4 & Hseal & H).
  apply run_try_Ok in H as (st & w5 & Hst & H). rewrite run_ret in H. injection H as _ <-.
  apply run_map_err_Ok in Hst. unfold store_external_call in Hst. apply store_call_Ok in Hst as (r & Hst).
  pose proof (touches_run_rest (fun _ => False) _ w2 (touches_external_seal _ new_key plain)) as (Hdb4 & _ & _).
  rewrite Hseal in Hdb4. cbn [snd] in Hdb4.
  assert (Hlen : match new_key with ExtCmk cmk => length cmk = 32%nat | ExtPassphrase _ => True end)
    by by eapply rekey_key_length.
  unfold external_seal in Hseal. apply run_try_Ok in Hseal as ([meta ct] & w6 & Hsp & Hseal).
  rewrite run_ret in Hseal. injection Hseal as <- <-.
  destruct (external_seal_parts_Ok new_key plain w2 meta ct w6 Hlen Hsp) as (e' & Hd' & _ & _ & Ho).
  pose proof (held_row_read state dom name (db w1) (db w2) row b Hrow Hs2) as Hrow2.
  destruct (store_overwrite_inv state _ q client w6 r w5 dom (bump_read row) Hst) as (_ & _ & x & now & Hx & Hcar & Hs5).
  { cbn [sr_resource_name]. rewrite Hdb4. unfold live_domain_id. rewrite Hd2. exact Hdom. }
  { cbn [sr_resource_name]. rewrite Hdb4. apply Hrow2. }
  unfold handed in Hcar. cbn [sr_external mbind option_bind] in Hx, Hcar. rewrite b64_roundtrip in Hx, Hcar.
  cbn in Hx. rewrite Hx in Hcar. rewrite Hdb4 in Hs5.
  destruct (held_row_overwritten state dom name (db w2) (db w5) (bump_read row) x now b (meta ++ ct) Hrow2 Hx Hcar Hs5)
    as (row' & Hrow' & Hid & Hfl).
  exists e, plain, new_key, (meta ++ ct), row'. do 6 (split; [done|]).
  intros Hlv Hcv Hhas Hsv Hfv Hinv.
  assert (Hrowv : held_row state dom name (db v1) row' (meta ++ ct)).
  { destruct Hrow' as [H1 H2 H3 H4 H5 H6 H7]. unfold find_secret, find_named in *. rewrite <- Hsv in H1, H2. by constructor. }
  destruct (held_row_get state env' connect' profile' name request_id explicit domain' mfa' session' reader q dom v v1 row'
    (meta ++ ct) Hlv Hcv Hfv Hrowv Hinv) as (v2 & _ & _ & _ & ->).
  by rewrite Hd', bind_Ok, (Ho env' session' explicit Hhas).
Qed.

(** ** A concrete server and two clients *)

(** The toy server's database with the toy profile's files. *)
Definition toy_desk_world : World := Eval vm_compute in set_fs (fs toy_saved) toy_world.

Definition to_server (client : AuthenticatedClient) : Session -> option string -> option string -> result ClientError ServerApi :=
  fun _ _ mfa => Ok (blackbook_api toy_state client (MkDomainQuery None) mfa).

Definition put_opts (f : ResourceFlags) : PutOpts := MkPut f None [] false.
Definition by_passphrase : ExtFlags := MkExtFlags false false false (Some "pw") false.

#[local] Abbreviation toy_put f :=
  (run (cmd_put (toy_home None) (to_server alice) "dev" "db/x" (Some "hunter2") "" (put_opts f) by_passphrase None None)
    toy_desk_world).
Definition put_world : World := Eval vm_compute in (toy_put default_flags).2.

#[local] Abbreviation toy_rekey w :=
  (run (cmd_rekey (toy_home None) (to_server alice) "dev" "db/x" (Some "pw") true None None None) w).
Definition rekeyed_world : World := Eval vm_compute in (toy_rekey put_world).2.

#[local] Abbreviation toy_get explicit w :=
  ((run (cmd_get (toy_home None) (to_server bob) "dev" "db/x" None false 0 explicit None None) w).1).

Lemma put_then_get_witness : toy_get (Some "pw") put_world = Val (Ok (as_bytes "hunter2")).
Proof.
  assert (Hin : let_in toy_state bob (MkDomainQuery None) "d-default" "db/x" put_world).
  { exists "default", (Allowed "acl-3"). split; [|split]; vm_compute; reflexivity. }
  assert (Hput : exists line, run (cmd_put (toy_home None) (to_server alice) "dev" "db/x" (Some "hunter2") ""
    (put_opts default_flags) by_passphrase None None) toy_desk_world = (Val (Ok line), put_world))
    by (eexists; vm_compute; reflexivity).
  destruct Hput as [line Hput].
  apply (put_then_get toy_state (toy_home None) (to_server alice) "dev" "db/x" (Some "hunter2") ""
    (put_opts default_flags) by_passphrase None None toy_session alice (MkDomainQuery None)
    (Some (MkSpec Passphrase InServer)) "d-default" toy_desk_world toy_desk_world line put_world
    (toy_home None) (to_server bob) "dev" (Some "pw") None None None toy_session bob put_world put_world).
  1: vm_compute; reflexivity. 1-4: reflexivity. 1: discriminate. 1-4: vm_compute; reflexivity.
  1: exact Hput. 1: vm_compute; reflexivity. 1: reflexivity.
  - intros sp key [= <-] [= <-]. reflexivity.
  - reflexivity.
  - reflexivity.
  - exact Hin.
Defined.

Definition put_row : Secret := Eval vm_compute in the_row put_world.
Definition put_envelope : bytes :=
  Eval vm_compute in default [] (c ← s_envelope put_row; ok (dec_field (metadata_enc_key toy_state) c)).

Lemma put_row_held : held_row toy_state "d-default" "db/x" (db put_world) put_row put_envelope.
Proof.
  constructor. 1-3: vm_compute; reflexivity. 2-3: reflexivity.
  - do 3 (split; [reflexivity|]). discriminate.
  - exists (default [] (s_envelope put_row)), put_envelope. split; [reflexivity|]. split; vm_compute; reflexivity.
Qed.

(** After the rekey to the managed key no passphrase is asked for. *)
Lemma rekey_keeps_plaintext_witness :
  exists plain, toy_get None rekeyed_world = Val (Ok plain) /\ toy_get (Some "pw") put_world = Val (Ok plain).
Proof.
  assert (Hin : let_in toy_state alice (MkDomainQuery None) "d-default" "db/x" put_world).
  { do 2 eexists. split; [|split]; vm_compute; reflexivity. }
  assert (Hin' : let_in toy_state bob (MkDomainQuery None) "d-default" "db/x" rekeyed_world).
  { do 2 eexists. split; [|split]; vm_compute; reflexivity. }
  assert (Hrun : exists line, toy_rekey put_world = (Val (Ok line), rekeyed_world)) by (eexists; vm_compute; reflexivity).
  destruct Hrun as [line Hrun].
  destruct (rekey_keeps_plaintext toy_state (toy_home None) (to_server alice) "dev" "db/x" (Some "pw") true None None None
    toy_session alice (MkDomainQuery None) "d-default" put_world put_world put_row put_envelope line rekeyed_world
    (toy_home None) (to_server bob) "dev" None None None None toy_session bob rekeyed_world rekeyed_world)
    as (e & plain & new_key & _ & _ & He & Ho & Hk & _ & _ & _ & Hget).
  1, 6: vm_compute; reflexivity.
  1, 2: reflexivity.
  1: exact put_row_held. 1: exact Hin. 1: exact Hrun.
  assert (Hk' : rekey_target_key toy_session true None = Ok toy_cmk) by (vm_compute; reflexivity).
  assert (Ho' : (e ← ext_decode put_envelope; external_open (toy_home None) e toy_session (Some "pw")) =
                Ok (as_bytes "hunter2")) by (vm_compute; reflexivity).
  rewrite Hk' in Hk. injection Hk as <-. rewrite He, bind_Ok, Ho in Ho'. injection Ho' as ->.
  exists (as_bytes "hunter2"). split; [|vm_compute; reflexivity].
  apply Hget; [vm_compute; reflexivity|reflexivity|vm_compute; reflexivity|reflexivity|reflexivity|exact Hin'].
Defined.

(** Rekeying a secret that may be read once: the read that fetches the envelope
    consumes the row, and what is stored back is a new one without the limit. *)
Example rekey_drops_delete_on_read :
  let w := (toy_put (MkFlags false true None false false false)).2 in
  delete_on_read (s_flags (the_row w)) = true /\
  delete_on_read (s_flags (the_row (toy_rekey w).2)) = false.
Proof. split; vm_compute; reflexivity. Qed.

(** Rekeying on the last allowed read stores the new envelope in a row that is
    already exhausted: the command succeeds and nobody reads the value again. *)
Example rekey_on_last_read_loses_secret :
  let w := (toy_put (MkFlags false false (Some 1) false false false)).2 in
  (exists line, (toy_rekey w).1 = Val (Ok line)) /\
  exists m, toy_get None (toy_rekey w).2 = Val (Err (AppClient m)).
Proof. split; eexists; vm_compute; reflexivity. Qed.
