(* ===== verification/Presentation.v ===== *)
(** Renderings of fingerprints for the eye ([src/src/presentation.rs]): the
    drunken bishop's walk and one braille cell per byte. *)
From S2P Require Import Prelude Text Unicode CryptoOps.

(** One glyph per byte, from U+2800. *)
Definition braille (data : bytes) : string := str_of_chars ((fun b => 10240 + Z_of_byte b) <$> data).

Definition W : nat := 17.
Definition H : nat := 9.
Definition COINS : list Ascii.ascii := String.list_ascii_of_string " .o+=*BOX@%&#/^".

Abbreviation Field := (list (list nat)).

Record Walk := MkWalk { wx : nat; wy : nat; field : Field }.

Definition walk_start : Walk := MkWalk (W / 2) (H / 2) (replicate H (replicate W 0%nat)).

Definition bump (c : nat) : nat := if (c <? length COINS - 1)%nat then S c else c.

(** [d] holds two bits: right or left, down or up; the walls stop the bishop. *)
Definition bishop_step (w : Walk) (d : Z) : Walk :=
  let x := if Z.land d 1 =? 0 then Nat.pred (wx w) else if (wx w <? W - 1)%nat then S (wx w) else wx w in
  let y := if Z.land d 2 =? 0 then Nat.pred (wy w) else if (wy w <? H - 1)%nat then S (wy w) else wy w in
  MkWalk x y (alter (alter bump x) y (field w)).

(** Four steps, lowest bits first. *)
Definition byte_steps (b : byte) : list Z :=
  (fun i => Z.land (Z.shiftr (Z_of_byte b) (2 * i)) 3) <$> [0; 1; 2; 3].

Definition walk (data : bytes) : Walk := foldl bishop_step walk_start (data ≫= byte_steps).

Fixpoint repeat_str (s : string) (n : nat) : string := match n with 0%nat => "" | S n' => s +:+ repeat_str s n' end.

(** Indexing past [COINS] would panic; [walk_in_grid] excludes it. *)
Definition glyph (w : Walk) (j i v : nat) : Ascii.ascii :=
  if (i =? W / 2)%nat && (j =? H / 2)%nat then "S"%char
  else if (i =? wx w)%nat && (j =? wy w)%nat then "E"%char
  else default "?"%char (COINS !! v).

Definition row_text (w : Walk) (j : nat) (row : list nat) : string :=
  "|" +:+ String.string_of_list_ascii (imap (glyph w j) row) +:+ "|".

Definition center_in (title : string) (width : nat) : string :=
  let label := if String.eqb title "" then "" else "[" +:+ str_of_chars (take (width - 2) (chars title)) +:+ "]" in
  let pad := (width - length (chars label))%nat in
  let left := (pad / 2)%nat in
  repeat_str "-" left +:+ label +:+ repeat_str "-" (pad - left).

Definition randomart (data : bytes) (title : string) : string :=
  let w := walk data in
  "+" +:+ center_in title W +:+ "+" +:+ nl
  +:+ foldr (fun row rest => row +:+ nl +:+ rest) "" (imap (row_text w) (field w))
  +:+ "+" +:+ repeat_str "-" W +:+ "+".

(** * Properties *)

(** Braille is lossless: the glyphs give the bytes back. *)
Lemma braille_chars data : chars (braille data) = (fun b => 10240 + Z_of_byte b) <$> data.
Proof.
  unfold braille. apply chars_of_chars. apply forallb_forall. intros c (b & <- & _)%in_map_iff.
  pose proof (Z_of_byte_range b). unfold is_scalar. lia.
Qed.

Theorem braille_injective d1 d2 : braille d1 = braille d2 -> d1 = d2.
Proof.
  intros E. apply (f_equal chars) in E. rewrite !braille_chars in E. revert d2 E.
  induction d1 as [|b d1 IH]; intros [|c d2] E; try done. rewrite !fmap_cons in E. injection E as Hb Hd.
  f_equal; [apply Z_of_byte_inj; lia|by apply IH].
Qed.

(** The bishop stays on the board and no cell outgrows the coins. *)
Record in_grid (w : Walk) : Prop := {
  grid_x : (wx w < W)%nat;
  grid_y : (wy w < H)%nat;
  grid_rows : length (field w) = H;
  grid_cells : Forall (fun row => length row = W /\ Forall (fun c => (c < length COINS)%nat) row) (field w);
}.

Lemma Forall_alter_impl {A} (P : A -> Prop) f i l : (forall x, P x -> P (f x)) -> Forall P l -> Forall P (alter f i l).
Proof. intros Hf. revert i. induction l as [|x l IH]; intros [|i]; inversion 1; subst; constructor; auto; by apply IH. Qed.

Lemma bishop_step_grid w d : in_grid w -> in_grid (bishop_step w d).
Proof.
  intros [Hx Hy Hr Hc]. unfold bishop_step. split; cbn [wx wy field].
  - destruct (_ =? 0); [lia|]. destruct (Nat.ltb_spec (wx w) (W - 1)); lia.
  - destruct (_ =? 0); [lia|]. destruct (Nat.ltb_spec (wy w) (H - 1)); lia.
  - by rewrite length_alter.
  - apply Forall_alter_impl; [|done]. intros row [Hl Hrow]. rewrite length_alter. split; [done|].
    apply Forall_alter_impl; [|done]. intros c. unfold bump. destruct (Nat.ltb_spec c (length COINS - 1)); lia.
Qed.

Lemma walk_in_grid data : in_grid (walk data).
Proof.
  unfold walk. assert (in_grid walk_start) as Hs.
  { split; [vm_compute; lia..|reflexivity|]. apply Forall_replicate. split; [by rewrite length_replicate|].
    apply Forall_replicate. vm_compute. lia. }
  revert Hs. generalize walk_start. induction (data ≫= byte_steps) as [|d l IH]; intros w Hw; [done|].
  cbn [foldl]. by apply IH, bishop_step_grid.
Qed.

Lemma repeat_dash_chars f n : f "-"%char = true -> all_chars f (repeat_str "-" n) = true.
Proof. intros Hf. induction n as [|n IH]; [done|]. cbn [repeat_str]. rewrite all_chars_app, IH. simpl. by rewrite Hf. Qed.

Lemma repeat_str_length n : String.length (repeat_str "-" n) = n.
Proof. induction n as [|n IH]; [done|]. cbn [repeat_str]. by rewrite string_app_length, IH. Qed.

(** The row of a field within the coins is one glyph per cell, none of them a
    line break. *)
Definition plain_glyph (a : Ascii.ascii) : bool := negb (Ascii.eqb a "010"%char).

Lemma coin_plain v : (v < length COINS)%nat -> plain_glyph (default "?"%char (COINS !! v)) = true.
Proof. intros Hv. do 15 (destruct v as [|v]; [reflexivity|]). vm_compute in Hv. lia. Qed.

Lemma imap_glyphs w j row (k : nat) :
  Forall (fun c => (c < length COINS)%nat) row ->
  all_chars plain_glyph (String.string_of_list_ascii (imap (fun i => glyph w j (k + i)) row)) = true /\
  String.length (String.string_of_list_ascii (imap (fun i => glyph w j (k + i)) row)) = length row.
Proof.
  intros Hrow. revert k. induction Hrow as [|c row Hc Hrow IH]; intros k; [done|].
  rewrite imap_cons. cbn [String.string_of_list_ascii all_chars String.length length].
  assert (imap ((fun i => glyph w j (k + i)) ∘ S) row = imap (fun i => glyph w j (S k + i)) row) as ->.
  { apply imap_ext. intros i x _. cbn. f_equal. lia. }
  destruct (IH (S k)) as [-> ->]. split; [|done]. rewrite andb_true_r. unfold glyph.
  destruct (_ && _); [done|]. destruct (_ && _); [done|]. by apply coin_plain.
Qed.

Definition row_ok (s : string) : Prop := String.length s = (W + 2)%nat /\ has_char "010"%char s = false.

Lemma no_nl s : all_chars plain_glyph s = true -> has_char "010"%char s = false.
Proof. intros Hs. by apply (has_char_all _ plain_glyph). Qed.

Lemma row_text_ok w j row :
  length row = W -> Forall (fun c => (c < length COINS)%nat) row -> row_ok (row_text w j row).
Proof.
  intros Hl Hrow. destruct (imap_glyphs w j row 0 Hrow) as [Hp Hn]. cbn [Nat.add] in Hp, Hn. unfold row_text. split.
  - rewrite !string_app_length. change (imap (fun i => glyph w j i) row) with (imap (glyph w j) row) in Hn.
    rewrite Hn, Hl. reflexivity.
  - apply no_nl. rewrite !all_chars_app. change (imap (fun i => glyph w j i) row) with (imap (glyph w j) row) in Hp.
    by rewrite Hp.
Qed.

Lemma nl_app s : nl +:+ s = String "010"%char s.
Proof. done. Qed.

Lemma split_rows rows last : Forall row_ok rows -> has_char "010"%char last = false ->
  split_on "010"%char (foldr (fun row rest => row +:+ nl +:+ rest) "" rows +:+ last) = rows ++ [last].
Proof.
  intros Hrows Hlast. induction Hrows as [|row rows [_ Hr] Hrows IH].
  - cbn [foldr]. rewrite string_app_nil_l. by apply split_on_last.
  - cbn [foldr]. rewrite !string_app_assoc, nl_app, split_on_app by done. by rewrite IH.
Qed.

Abbreviation title_ok := (all_chars (fun a => is_ascii a && plain_glyph a)).

Lemma ok_ascii s : title_ok s = true -> all_chars is_ascii s = true.
Proof. apply all_chars_impl. by intros a [? _]%andb_true_iff. Qed.

Lemma ok_plain s : title_ok s = true -> all_chars plain_glyph s = true.
Proof. apply all_chars_impl. by intros a [_ ?]%andb_true_iff. Qed.

Lemma ok_length s : title_ok s = true -> length (chars s) = String.length s.
Proof.
  intros Hs%ok_ascii. rewrite chars_ascii, length_fmap by done.
  by rewrite <- (String.string_of_list_ascii_of_string s) at 2; rewrite string_of_list_length.
Qed.

Lemma shortened title n : title_ok title = true ->
  title_ok (str_of_chars (take n (chars title))) = true /\ (String.length (str_of_chars (take n (chars title))) <= n)%nat.
Proof.
  intros Ht. rewrite chars_ascii, <- fmap_take by by apply ok_ascii. rewrite all_chars_list in Ht.
  rewrite <- (take_drop n (String.list_ascii_of_string title)), forallb_app in Ht. apply andb_true_iff in Ht as [Ht _].
  rewrite str_of_codes.
  2: { revert Ht. rewrite !forallb_forall. intros Ht a Ha. by apply Ht, andb_true_iff in Ha as [? _]. }
  rewrite all_chars_list, String.list_ascii_of_string_of_list_ascii, string_of_list_length. split; [done|].
  rewrite length_take. lia.
Qed.

Lemma center_in_ok title : title_ok title = true -> String.length (center_in title W) = W /\ title_ok (center_in title W) = true.
Proof.
  intros Ht. destruct (shortened title (W - 2) Ht) as [Hs Hn]. unfold center_in.
  set (t := str_of_chars _) in *. clearbody t.
  set (label := if String.eqb title "" then _ else _).
  assert (Hl : title_ok label = true /\ (String.length label <= W)%nat).
  { unfold label. destruct (String.eqb title ""); [split; [done|cbn; lia]|].
    rewrite !all_chars_app, Hs, !string_app_length. split; [done|]. unfold W in *. cbn. lia. }
  destruct Hl as [Hl Hw]. rewrite (ok_length label Hl). cbv zeta. rewrite !string_app_length, !repeat_str_length, !all_chars_app, Hl.
  rewrite !repeat_dash_chars by done. split; [|done]. pose proof (Nat.Div0.div_le_upper_bound (W - String.length label) 2 (W - String.length label)).
  lia.
Qed.

(** The picture has eleven lines of nineteen columns: a title, nine rows and a
    border. *)
Theorem randomart_shape data title : title_ok title = true ->
  exists top rows bottom, split_on "010"%char (randomart data title) = top :: rows ++ [bottom] /\
    length rows = H /\ Forall row_ok (top :: rows ++ [bottom]).
Proof.
  intros Ht. destruct (center_in_ok title Ht) as [Hl Hc]. destruct (walk_in_grid data) as [_ _ Hr Hcells].
  set (w := walk data) in *. set (top := "+" +:+ center_in title W +:+ "+").
  exists top, (imap (row_text w) (field w)), ("+" +:+ repeat_str "-" W +:+ "+").
  assert (Htop : row_ok top).
  { unfold top. split; [rewrite !string_app_length, Hl; reflexivity|]. apply no_nl. by rewrite !all_chars_app, (ok_plain _ Hc). }
  assert (Hrows : Forall row_ok (imap (row_text w) (field w))).
  { clear -Hcells. apply Forall_lookup. intros i s. rewrite list_lookup_imap. intros (row & Hrow & ->)%fmap_Some.
    rewrite Forall_lookup in Hcells. destruct (Hcells i row Hrow). by apply row_text_ok. }
  split; [|split; [by rewrite length_imap|]].
  - unfold randomart. fold w. transitivity (split_on "010"%char (top +:+ String "010"%char
      (foldr (fun row rest => row +:+ nl +:+ rest) "" (imap (row_text w) (field w)) +:+ ("+" +:+ repeat_str "-" W +:+ "+")))).
    { unfold top. by rewrite !string_app_assoc, nl_app. }
    rewrite split_on_app by apply Htop. f_equal. by apply split_rows.
  - constructor; [done|]. apply Forall_app. split; [done|]. constructor; [by split|constructor].
Qed.

Example randomart_once : randomart [] "" =
  "+-----------------+" +:+ nl +:+ "|                 |" +:+ nl +:+ "|                 |" +:+ nl +:+ "|                 |" +:+ nl
  +:+ "|                 |" +:+ nl +:+ "|        S        |" +:+ nl +:+ "|                 |" +:+ nl +:+ "|                 |" +:+ nl
  +:+ "|                 |" +:+ nl +:+ "|                 |" +:+ nl +:+ "+-----------------+".
Proof. vm_compute. reflexivity. Qed.
