(* ===== verification/KeyClient.v ===== *)
(** The key calls of [src/src/client.rs], and the requests of
    [src/src/keys_api.rs] as the wire carries them. A command talks to the
    server through a [KeyApi]; [blackbook_keys] is the one the server's own
    handlers implement. *)
From stdpp Require Import pretty.
From S2P Require Import Prelude Text AccessRules Crypto Store Effects ServerBase Auth CryptoOps Secrets Keys CredStore Session External ClientSecrets.

(** ** Request bodies *)

(** [#[serde(deny_unknown_fields)]] on a struct with the fields [l]. *)
Definition only_fields (l : list string) (j : Json) : option unit :=
  match j with JObj m => if forallb (fun kv => one_of kv.1 l) m then Some tt else None | _ => None end.

Definition as_object (j : Json) : option JsonMap := match j with JObj m => Some m | _ => None end.

Definition create_from_json (j : Json) : option CreateKeyRequest :=
  _ ← only_fields ["name"; "key_type"; "mfa_required"; "import_material"] j;
  name ← str_member "name" j; t ← opt_member as_str "key_type" j; mfa ← bool_member "mfa_required" j;
  import ← opt_member as_str "import_material" j; Some (MkCreateKey name t mfa import).
Definition encrypt_from_json (j : Json) : option EncryptRequest :=
  _ ← only_fields ["plaintext"; "aad"] j;
  p ← str_member "plaintext" j; aad ← opt_member as_str "aad" j; Some (MkEncrypt p aad).
Definition decrypt_from_json (j : Json) : option DecryptRequest :=
  _ ← only_fields ["ciphertext"; "aad"] j;
  c ← str_member "ciphertext" j; aad ← opt_member as_str "aad" j; Some (MkDecrypt c aad).
Definition sign_from_json (j : Json) : option string := _ ← only_fields ["input"] j; str_member "input" j.
Definition hmac_from_json (j : Json) : option HmacRequest :=
  _ ← only_fields ["input"; "algorithm"] j;
  i ← str_member "input" j; a ← opt_member as_str "algorithm" j; Some (MkHmacRequest i a).
Definition verify_from_json (j : Json) : option VerifyRequest :=
  _ ← only_fields ["input"; "signature"; "algorithm"] j;
  i ← str_member "input" j; s ← str_member "signature" j; a ← opt_member as_str "algorithm" j; Some (MkVerify i s a).
Definition issue_from_json (j : Json) : option IssueTokenRequest :=
  _ ← only_fields ["claims"; "subject"; "audience"; "issuer"; "ttl_secs"; "not_before_secs"] j;
  c ← opt_member as_object "claims" j; s ← opt_member as_str "subject" j; a ← opt_member as_str "audience" j;
  i ← opt_member as_str "issuer" j; t ← opt_member as_i64 "ttl_secs" j; n ← opt_member as_i64 "not_before_secs" j;
  Some (MkIssueToken c s a i t n).
Definition verify_token_from_json (j : Json) : option VerifyTokenRequest :=
  _ ← only_fields ["token"; "audience"] j;
  t ← str_member "token" j; a ← opt_member as_str "audience" j; Some (MkVerifyToken t a).

(** ** Calls *)

(** The key endpoints for one identity, domain and MFA code; bodies are JSON. *)
Record KeyApi := MkKeyApi {
  ka_create : Json -> M Response;
  ka_list : M Response;
  ka_show : string -> M Response;
  ka_jwks : string -> M Response;
  ka_rotate : string -> M Response;
  ka_delete : string -> M Response;
  ka_op : string -> string -> Json -> M Response;   (* key name, operation, body *)
}.

(** The routes under [/api/v1/keys]. [bad_body] and [no_route] are the answers of
    the web framework to a body that does not parse and to a path it does not
    know. *)
Section routes.
Context {P : Primitives} {PF : Platform} {O : OpsLib} (bad_body no_route : Response).
Context (state : AppState) (client : AuthenticatedClient) (q : DomainQuery) (h : Headers).

Definition with_body {T} (parse : Json -> option T) (handler : T -> M Response) (j : Json) : M Response :=
  match parse j with Some req => respond_m (handler req) | None => mret bad_body end.

Definition key_route (name op : string) (j : Json) : M Response :=
  if String.eqb op "encrypt" then with_body encrypt_from_json (fun r => encrypt state name r q h client) j
  else if String.eqb op "decrypt" then with_body decrypt_from_json (fun r => decrypt state name r q h client) j
  else if String.eqb op "datakey" then respond_m (datakey state name q h client)
  else if String.eqb op "sign" then with_body sign_from_json (fun i => sign state name i q h client) j
  else if String.eqb op "hmac" then with_body hmac_from_json (fun r => hmac_op state name r q h client) j
  else if String.eqb op "verify" then with_body verify_from_json (fun r => verify state name r q h client) j
  else if String.eqb op "token" then with_body issue_from_json (fun r => issue_token state name r q h client) j
  else if String.eqb op "token/verify" then
    with_body verify_token_from_json (fun r => verify_token state name r q h client) j
  else mret no_route.

Definition blackbook_keys : KeyApi := {|
  ka_create := with_body create_from_json (fun r => create_key state r q client);
  ka_list := respond_m (list_keys state q client);
  ka_show name := respond_m (show_key state name q client);
  ka_jwks name := respond_m (key_jwks state name q client);
  ka_rotate name := respond_m (rotate_key state name q client);
  ka_delete name := respond_m (delete_key state name q client);
  ka_op := key_route;
|}.
End routes.

(** ** Answers *)

(** A JSON text read as a [Value]: every object becomes a sorted map. *)
Fixpoint to_value (j : Json) : Json :=
  match j with
  | JArr l => JArr (map to_value l)
  | JObj m =>
      JObj ((fix go (m : list (string * Json)) : JsonMap :=
               match m with [] => [] | (k, v) :: m' => obj_insert k (to_value v) (go m') end) m)
  | _ => j
  end.
Definition as_value (j : Json) : option Json := Some (to_value j).

Definition i32_member (k : string) (j : Json) : option Z :=
  match member k j with Some (JNum z) => in_range (- 2 ^ 31) (2 ^ 31 - 1) z | _ => None end.

Definition as_list {A} (f : Json -> option A) (j : Json) : option (list A) :=
  match j with JArr l => mapM f l | _ => None end.

(** [#[serde(default)] Vec<_>] *)
Definition list_member {A} (f : Json -> option A) (k : string) (j : Json) : option (list A) :=
  match member k j with None => Some [] | Some v => as_list f v end.

Record KeyVersionView := MkVersionView { vv_version : Z; vv_created_at : string; vv_public_key : option string }.

Definition version_from_json (j : Json) : option KeyVersionView :=
  v ← i32_member "version" j; c ← str_member "created_at" j; p ← opt_member as_str "public_key" j;
  Some (MkVersionView v c p).

Record KeySummary := MkKeySummary {
  ks_name : string; ks_key_type : string; ks_latest_version : Z; ks_mfa_required : bool;
  ks_created_at : string; ks_updated_at : string; ks_versions : list KeyVersionView;
  ks_public_key : option string; ks_public_key_pem : option string;
}.

Definition summary_from_json (j : Json) : option KeySummary :=
  n ← str_member "name" j; t ← str_member "key_type" j; l ← i32_member "latest_version" j;
  m ← bool_member "mfa_required" j; c ← str_member "created_at" j; u ← str_member "updated_at" j;
  v ← list_member version_from_json "versions" j; p ← opt_member as_str "public_key" j;
  pem ← opt_member as_str "public_key_pem" j;
  Some (MkKeySummary n t l m c u v p pem).

(** Fields in order of declaration; empty ones marked so are skipped. *)
Definition version_to_json (v : KeyVersionView) : Json :=
  JObj [("version", JNum (vv_version v)); ("created_at", JStr (vv_created_at v));
        ("public_key", opt_json JStr (vv_public_key v))].
Definition opt_field (k : string) (o : option string) : list (string * Json) :=
  match o with Some s => [(k, JStr s)] | None => [] end.
Definition summary_to_json (k : KeySummary) : Json :=
  JObj ([("name", JStr (ks_name k)); ("key_type", JStr (ks_key_type k)); ("latest_version", JNum (ks_latest_version k));
         ("mfa_required", JBool (ks_mfa_required k)); ("created_at", JStr (ks_created_at k));
         ("updated_at", JStr (ks_updated_at k))]
        ++ match ks_versions k with [] => [] | vs => [("versions", JArr (map version_to_json vs))] end
        ++ opt_field "public_key" (ks_public_key k) ++ opt_field "public_key_pem" (ks_public_key_pem k)).

Record KeyList := MkKeyList { kl_keys : list KeySummary; kl_count : Z }.

Definition key_list_from_json (j : Json) : option KeyList :=
  ks ← member "keys" j ≫= as_list summary_from_json; c ← uint_member u64_max "count" j; Some (MkKeyList ks c).
Definition key_list_to_json (l : KeyList) : Json :=
  JObj [("keys", JArr (map summary_to_json (kl_keys l))); ("count", JNum (kl_count l))].

Section calls.
Context {P : Primitives} {O : OpsLib} (bb : KeyApi).

Definition call {T} (parse : Json -> option T) (m : M Response) : M (result ClientError T) :=
  r ← m; mret (handle_response parse r).

Definition create_body (name key_type : string) (mfa_required : bool) (import_b64 : option string) : Json :=
  JObj [("import_material", opt_json JStr import_b64); ("key_type", JStr key_type);
        ("mfa_required", JBool mfa_required); ("name", JStr name)].

Definition api_key_create (name key_type : string) (mfa_required : bool) (import_b64 : option string) :
    M (result ClientError KeySummary) :=
  call summary_from_json (ka_create bb (create_body name key_type mfa_required import_b64)).
Definition api_key_list : M (result ClientError KeyList) := call key_list_from_json (ka_list bb).
Definition api_key_show (name : string) : M (result ClientError KeySummary) := call summary_from_json (ka_show bb name).
Definition api_key_jwks (name : string) : M (result ClientError Json) := call as_value (ka_jwks bb name).
Definition api_key_rotate (name : string) : M (result ClientError KeySummary) :=
  call summary_from_json (ka_rotate bb name).
Definition api_key_delete (name : string) : M (result ClientError Json) := call as_value (ka_delete bb name).
Definition api_key_op (name op : string) (body : Json) : M (result ClientError Json) := call as_value (ka_op bb name op body).
End calls.
