(* ===== verification/CryptoCommands.v ===== *)
(** [bbk key] and [bbk crypto] ([src/src/crypto_cli.rs]): managed keys through a
    [KeyApi], local keys, tokens and key files through the crypto toolkit. A
    command's output is what it writes to standard output and its exit status;
    hints on standard error are left out. *)
From stdpp Require Import pretty.
From S2P Require Import Prelude Text Unicode AccessRules Crypto Store Effects ServerBase Auth CryptoOps Secrets Keys CredStore Session External ClientSecrets Presentation KeyClient.

(** ** Command lines *)

Record Input := MkInput { in_file : option string; in_text : option string }.

Inductive KeyCmd :=
| KeyCreate (name : string) (key_type : option string) (mfa_required : bool) (import : option string)
| KeyLs (json : bool)
| KeyShow (name : string) (json : bool)
| KeyJwks (name : string)
| KeyRotate (name : string)
| KeyRm (name : string) (yes : bool).

Inductive TokenCmd :=
| TokenIssue (key key_file sub aud iss : option string) (ttl : string) (nbf : option string) (claims : list string)
    (claims_json : option string) (json : bool)
| TokenVerify (token : string) (key key_file public_key aud : option string).

Inductive CryptoCmd :=
| CryptoEncrypt (input : Input) (key : option string) (cmk : bool) (key_file : option string) (passphrase : bool)
    (aad out : option string)
| CryptoDecrypt (input : Input) (key key_file aad out : option string)
| CryptoSign (input : Input) (key key_file : option string)
| CryptoVerify (input : Input) (signature : string) (key key_file public_key : option string) (algorithm : string)
| CryptoHash (input : Input) (algorithm : string) (key : option string) (cmk : bool) (key_file : option string)
    (encoding : string)
| CryptoToken (cmd : TokenCmd)
| CryptoKeygen (key_type out format : string) (force : bool)
| CryptoDatakey (key : string) (json : bool)
| CryptoRandom (n : nat) (encoding : string)
| CryptoDeriveKey (algorithm : string) (salt : option string)
| CryptoPasswordHash
| CryptoPasswordVerify (hash : string)
| CryptoFingerprint (input : Input).

Record Output := MkOut { out_stdout : bytes; out_code : Z }.
Definition print (s : string) : Output := MkOut (as_bytes s) 0.
Definition println (s : string) : Output := print (s +:+ nl).

(** ** Helpers *)

(** [Path::new(p) == Path::new("-")]: empty components and dots behind it do
    not count. *)
Definition is_dash (p : string) : bool :=
  match split_on "/"%char p with
  | c :: rest => String.eqb c "-" && forallb (fun c => String.eqb c "" || String.eqb c ".") rest
  | [] => false
  end.

Definition read_input (stdin : bytes) (input : Input) : M (result AppError bytes) :=
  match in_text input, in_file input with
  | Some t, _ => mret (Ok (as_bytes t))
  | None, Some p => if is_dash p then mret (Ok stdin) else map_err_m AppIo (fs_read p)
  | None, None => mret (Ok stdin)
  end.

Definition read_input_text (stdin : bytes) (input : Input) : M (result AppError string) :=
  b ←? read_input stdin input;
  liftR (s ← ok_or (AppConfig "input is not a text envelope (expected UTF-8)") (from_utf8 b); Ok (trim s)).

(** What reaches standard output. *)
Definition write_output (out : option string) (b : bytes) : M (result AppError Output) :=
  match out with
  | Some p => if is_dash p then mret (Ok (MkOut b 0)) else _ ←? map_err_m AppIo (fs_write p b); mret (Ok (MkOut [] 0))
  | None => mret (Ok (MkOut b 0))
  end.

Definition one_source (sources : list (string * bool)) (required : bool) : result AppError (option string) :=
  match fst <$> List.filter snd sources with
  | [] => if required then Err (AppConfig ("choose a key: " +:+ String.concat ", " (fst <$> sources))) else Ok None
  | [one] => Ok (Some one)
  | many => Err (AppConfig ("pick one key source, not " +:+ String.concat " + " many))
  end.

Definition resp_field (v : Json) (key : string) : result AppError string :=
  ok_or (AppClient ("server response is missing '" +:+ key +:+ "'")) (str_member key v).

Fixpoint split_last (s : string) : option (string * Ascii.ascii) :=
  match s with
  | "" => None
  | String a s' => Some (match split_last s' with Some (r, z) => (String a r, z) | None => ("", a) end)
  end.

Definition unit_secs (c : Ascii.ascii) : option Z :=
  if Ascii.eqb c "s"%char then Some 1 else if Ascii.eqb c "m"%char then Some 60
  else if Ascii.eqb c "h"%char then Some 3600 else if Ascii.eqb c "d"%char then Some 86400
  else if Ascii.eqb c "w"%char then Some 604800 else None.

(** The last [char] is a unit or a digit only if it is the last byte. *)
Definition parse_duration (s : string) : result AppError Z :=
  let s := trim s in
  let bad := AppConfig ("'" +:+ s +:+ "' isn't a duration (use seconds, or 90s / 15m / 1h / 7d / 2w)") in
  '(init, c) ← ok_or bad (split_last s);
  '(num, mult) ← match unit_secs c with
                 | Some m => Ok (init, m)
                 | None => if is_digit c then Ok (s, 1) else Err bad
                 end;
  ok_or bad (n ← parse_i64 num; in_range i64_min i64_max (n * mult)).

(** [{:<n}] *)
Definition pad_right (n : nat) (s : string) : string := s +:+ repeat_str " " (n - length (chars s)).

Definition finish_check (good : bool) (yes : string) : Output :=
  if good then println ("✓ " +:+ yes) else MkOut [] 1.

(** [opts.open(path)] for writing: [None] when [create_new] finds the file. *)
Definition fs_open_out (path : string) (force : bool) : M (result string (option unit)) :=
  perform (file_op (fun t => if negb force && bool_decide (is_Some (t !! path)) then Ok (None, t)
                             else Ok (Some tt, <[path := []]> t))).

Definition write_secret_file (path : string) (b : bytes) (force : bool) : M (result AppError unit) :=
  opened ←? map_err_m (fun e => AppConfig (path +:+ ": " +:+ e)) (fs_open_out path force);
  match opened with
  | None => mret (Err (AppConfig (path +:+ " already exists (pass --force to overwrite)")))
  | Some _ => map_err_m AppIo (fs_write path b)
  end.

Section commands.
Context {P : Primitives} {O : OpsLib} (env : Environment).
Context (connect : Session -> option string -> option string -> result ClientError KeyApi).
Context (profile : string) (domain mfa : option string).
Context (stdin : bytes) (stdin_line : string).

Definition resp_b64 (v : Json) (key : string) : result AppError bytes :=
  s ← resp_field v key;
  ok_or (AppClient ("server response '" +:+ key +:+ "' is not base64")) (b64_decode s).

Definition aad_json (aad : bytes) : Json := match aad with [] => JNull | _ => JStr (b64_encode aad) end.

Definition missing_passphrase : AppError :=
  AppConfig "a passphrase is required — set $BLACKBOOK_CRYPTO_PASSPHRASE or run interactively".

(** The first variable that is set and not empty, else the terminal. *)
Definition crypto_secret (prompt : string) (confirm : bool) : result AppError string :=
  match nonempty (env_var env "BLACKBOOK_CRYPTO_PASSPHRASE") with
  | Some p => Ok p
  | None =>
      match nonempty (env_var env "BLACKBOOK_EXTERNAL_PASSPHRASE") with
      | Some p => Ok p
      | None =>
          if prompts_suppressed env then Err missing_passphrase
          else
            p1 ← ok_or missing_passphrase (terminal env prompt);
            if String.eqb p1 "" then Err (AppConfig "empty passphrase")
            else if confirm then
              p2 ← ok_or missing_passphrase (terminal env "Confirm: ");
              if String.eqb p1 p2 then Ok p1 else Err (AppConfig "entries did not match")
            else Ok p1
      end
  end.

Definition managed_client : M (result AppError KeyApi) :=
  session ←? map_err_m app_of_client (load_named env profile);
  liftR (map_err app_of_client (connect session domain mfa)).

Definition key_op (name op : string) (body : Json) : M (result AppError Json) :=
  bb ←? managed_client; map_err_m app_of_client (api_key_op bb name op body).

Definition profile_cmk : M (result AppError bytes) :=
  session ←? map_err_m app_of_client (load_named env profile);
  liftR (ok_or (AppConfig "this profile has no client master key (CMK) — re-run `bbk login` to mint one")
           (cmk_bytes session)).

Definition load_key_file (path : string) (hint : option KeyType) : M (result AppError LocalKey) :=
  b ←? map_err_m (fun e => AppConfig (path +:+ ": " +:+ e)) (fs_read path);
  liftR (map_err (fun e => AppConfig (path +:+ ": " +:+ e)) (parse_local_key b hint)).

(** [Path::is_file] is [fs_exists]: the file system of the world holds files
    only. *)
Definition public_key_arg (arg : string) : M (result AppError bytes) :=
  there ← fs_exists arg;
  text ←? (if there : bool then map_err_m AppIo (fs_read_to_string arg) else mret (Ok arg));
  liftR (map_err AppConfig (parse_public_key text)).

Definition apply_pair (claims : result AppError JsonMap) (p : string) : result AppError JsonMap :=
  claims ← claims;
  '(k, v) ← ok_or (AppConfig ("claim '" +:+ p +:+ "' isn't KEY=VALUE")) (split_once "="%char p);
  Ok (obj_insert k (default (JStr v) (json_from_slice (as_bytes v))) claims).

Definition build_claims (claims_json : option string) (pairs : list string) : result AppError JsonMap :=
  foldl apply_pair
    (match claims_json with
     | Some j => match json_from_slice (as_bytes j) with
                 | Some (JObj m) => Ok m
                 | _ => Err (AppConfig "--claims-json must be a JSON object")
                 end
     | None => Ok []
     end) pairs.

(** ** bbk key *)

Definition created_line (imported : bool) (k : KeySummary) : string :=
  (if imported then "imported" else "created") +:+ " " +:+ ks_key_type k +:+ " key '" +:+ ks_name k +:+ "' (v"
  +:+ show_Z (ks_latest_version k) +:+ ") in domain '" +:+ default "default" domain +:+ "'"
  +:+ (if ks_mfa_required k then " — MFA required to use it" else "") +:+ nl
  +:+ match ks_public_key k with
      | Some pk => "public key:  " +:+ pk +:+ nl +:+ default "" (ks_public_key_pem k)
      | None => ""
      end.

(** The type and material to create with: asked for, imported, or the default. *)
Definition create_source (key_type import : option string) : M (result AppError (KeyType * option string)) :=
  requested ←? liftR (match key_type with Some t => t ← map_err AppConfig (KeyType_parse t); Ok (Some t) | None => Ok None end);
  match import with
  | Some path =>
      k ←? load_key_file path requested;
      match requested with
      | Some want =>
          if bool_decide (want = lk_type k) then mret (Ok (lk_type k, Some (b64_encode (lk_secret k))))
          else mret (Err (AppConfig (path +:+ " holds an " +:+ KeyType_as_str (lk_type k) +:+ " key, not "
                                     +:+ KeyType_as_str want)))
      | None => mret (Ok (lk_type k, Some (b64_encode (lk_secret k))))
      end
  | None => mret (Ok (default Aes256Gcm requested, None))
  end.

Definition list_row (k : KeySummary) : string :=
  pad_right 28 (ks_name k) +:+ "  " +:+ pad_right 11 (ks_key_type k) +:+ "  "
  +:+ pad_right 7 ("v" +:+ show_Z (ks_latest_version k)) +:+ "  "
  +:+ pad_right 4 (if ks_mfa_required k then "yes" else "no") +:+ "  " +:+ ks_updated_at k +:+ nl.

Definition list_head : string :=
  pad_right 28 "NAME" +:+ "  " +:+ pad_right 11 "TYPE" +:+ "  " +:+ pad_right 7 "VERSION" +:+ "  "
  +:+ pad_right 4 "MFA" +:+ "  " +:+ "UPDATED" +:+ nl +:+ repeat_str "-" 84 +:+ nl.

Definition version_line (v : KeyVersionView) : string :=
  "  v" +:+ pad_right 4 (show_Z (vv_version v)) +:+ " created " +:+ vv_created_at v
  +:+ match vv_public_key v with Some p => "  public " +:+ p | None => "" end +:+ nl.

Definition show_text (k : KeySummary) : string :=
  "name:        " +:+ ks_name k +:+ nl
  +:+ "type:        " +:+ ks_key_type k +:+ " (" +:+ unwrap_or "?" (t ← KeyType_parse (ks_key_type k); Ok (operations t)) +:+ ")" +:+ nl
  +:+ "version:     v" +:+ show_Z (ks_latest_version k) +:+ " (latest)" +:+ nl
  +:+ "mfa:         " +:+ (if ks_mfa_required k then "required" else "not required") +:+ nl
  +:+ "created:     " +:+ ks_created_at k +:+ nl
  +:+ "updated:     " +:+ ks_updated_at k +:+ nl
  +:+ String.concat "" (map version_line (ks_versions k)) +:+ default "" (ks_public_key_pem k).

Definition cmd_key (cmd : KeyCmd) : M (result AppError Output) :=
  bb ←? managed_client;
  match cmd with
  | KeyCreate name key_type mfa_required import =>
      '(t, material) ←? create_source key_type import;
      k ←? map_err_m app_of_client (api_key_create bb name (KeyType_as_str t) mfa_required material);
      mret (Ok (print (created_line (is_set material) k)))
  | KeyLs json =>
      l ←? map_err_m app_of_client (api_key_list bb);
      mret (Ok (if json then println (of_bytes (json_to_vec (key_list_to_json l)))
                else if kl_count l =? 0 then println "(no keys)"
                else print (list_head +:+ String.concat "" (map list_row (kl_keys l)))))
  | KeyShow name json =>
      k ←? map_err_m app_of_client (api_key_show bb name);
      mret (Ok (if json then println (json_pretty (summary_to_json k)) else print (show_text k)))
  | KeyJwks name =>
      j ←? map_err_m app_of_client (api_key_jwks bb name);
      mret (Ok (println (json_pretty j)))
  | KeyRotate name =>
      k ←? map_err_m app_of_client (api_key_rotate bb name);
      mret (Ok (print ("rotated '" +:+ ks_name k +:+ "' — new output uses v" +:+ show_Z (ks_latest_version k)
                       +:+ "; earlier versions still decrypt and verify" +:+ nl
                       +:+ match ks_public_key k with Some pk => "new public key:  " +:+ pk +:+ nl | None => "" end)))
  | KeyRm name yes =>
      if negb yes && negb (String.eqb stdin_line name) then mret (Ok (println "aborted"))
      else
        r ←? map_err_m app_of_client (api_key_delete bb name);
        mret (Ok (println ("deleted key '" +:+ name +:+ "' ("
                           +:+ show_Z (default 0 (member "versions" r ≫= as_i64)) +:+ " version(s))")))
  end.

(** ** bbk crypto *)

Definition wrong_type (msg : KeyType -> string) (want : KeyType) (k : LocalKey) : result AppError unit :=
  if bool_decide (lk_type k = want) then Ok tt else Err (AppConfig (msg (lk_type k))).

Definition no_aes (t : KeyType) : string :=
  "that is an " +:+ KeyType_as_str t +:+ " key; encryption needs an aes256-gcm key (`bbk crypto keygen -t aes256-gcm`)".
Definition no_ed25519 (t : KeyType) : string :=
  "signing needs an ed25519 key; for an " +:+ KeyType_as_str t +:+ " key use `crypto hash --key-file` (an HMAC)".
Definition no_hmac (t : KeyType) : string :=
  "keyed hashing needs an hmac key, not " +:+ KeyType_as_str t +:+ " (`bbk crypto keygen -t hmac`)".

Definition crypto (r : result string string) : M (result AppError string) := liftR (map_err AppCrypto r).

(** The envelope of the source that was chosen. *)
Definition encrypt_with (src : option string) (key key_file : option string) (data aad : bytes) :
    M (result AppError string) :=
  if bool_decide (src = Some "-k/--key") then
    r ←? key_op (default "" key) "datakey" (JObj []);
    dek ←? liftR (resp_b64 r "plaintext");
    wrapped ←? liftR (resp_field r "ciphertext");
    nonce ← draw 12;
    crypto (datakey_seal nonce data dek wrapped aad)
  else if bool_decide (src = Some "--cmk") then
    cmk ←? profile_cmk;
    nonce ← draw 12;
    crypto (cmk_seal nonce data cmk aad)
  else if bool_decide (src = Some "--key-file") then
    k ←? load_key_file (default "" key_file) (Some Aes256Gcm);
    _ ←? liftR (wrong_type no_aes Aes256Gcm k);
    nonce ← draw 12;
    crypto (rawkey_seal nonce data (lk_secret k) aad)
  else
    pass ←? liftR (crypto_secret "Passphrase: " true);
    salt ← draw PASSPHRASE_SALT_LEN;
    nonce ← draw 12;
    crypto (passphrase_seal salt nonce data pass aad).

Definition cmd_encrypt (input : Input) (key : option string) (cmk : bool) (key_file : option string) (passphrase : bool)
    (aad out : option string) : M (result AppError Output) :=
  src ←? liftR (one_source [("-k/--key", is_set key); ("--cmk", cmk); ("--key-file", is_set key_file);
                            ("-p/--passphrase", passphrase)] true);
  let aad := as_bytes (default "" aad) in
  data ←? read_input stdin input;
  envelope ←? encrypt_with src key key_file data aad;
  write_output out (as_bytes (envelope +:+ nl)).

Definition need_key : AppError :=
  AppConfig "this was encrypted with a managed key — pass -k NAME (and -D DOMAIN if the key isn't in your default domain)".

(** The connection is made before the key's name is looked for. *)
Definition named_key_op (key : option string) (op : string) (body : Json) : M (result AppError Json) :=
  bb ←? managed_client;
  name ←? liftR (ok_or need_key key);
  map_err_m app_of_client (api_key_op bb name op body).

Definition decrypt_text (text : string) (key key_file : option string) (aad : bytes) : M (result AppError bytes) :=
  match detect text with
  | Some KManaged =>
      r ←? named_key_op key "decrypt" (JObj [("aad", aad_json aad); ("ciphertext", JStr text)]);
      liftR (resp_b64 r "plaintext")
  | Some KDataKey =>
      '(wrapped, sealed) ←? liftR (map_err AppCrypto (datakey_parse text));
      r ←? named_key_op key "decrypt" (JObj [("ciphertext", JStr wrapped)]);
      dek ←? liftR (resp_b64 r "plaintext");
      liftR (map_err AppCrypto (datakey_open sealed dek aad))
  | Some KPassphrase =>
      pass ←? liftR (crypto_secret "Passphrase: " false);
      liftR (map_err AppCrypto (passphrase_open text pass aad))
  | Some KCmk =>
      cmk ←? profile_cmk;
      liftR (map_err AppCrypto (cmk_open text cmk aad))
  | Some KRawKey =>
      path ←? liftR (ok_or (AppConfig "this was encrypted with a raw key — pass --key-file PATH") key_file);
      k ←? load_key_file path (Some Aes256Gcm);
      liftR (map_err AppCrypto (rawkey_open text (lk_secret k) aad))
  | None =>
      mret (Err (AppConfig "not a Blackbook envelope (expected bbk:v<N>:, bbkd1:, bbkx1:, bbkc1: or bbkk1:)"))
  end.

Definition cmd_decrypt (input : Input) (key key_file aad out : option string) : M (result AppError Output) :=
  text ←? read_input_text stdin input;
  plaintext ←? decrypt_text text key key_file (as_bytes (default "" aad));
  write_output out plaintext.

Definition cmd_sign (input : Input) (key key_file : option string) : M (result AppError Output) :=
  src ←? liftR (one_source [("-k/--key", is_set key); ("--key-file", is_set key_file)] true);
  data ←? read_input stdin input;
  if bool_decide (src = Some "-k/--key") then
    r ←? key_op (default "" key) "sign" (JObj [("input", JStr (b64_encode data))]);
    sig ←? liftR (resp_field r "signature");
    mret (Ok (println sig))
  else
    k ←? load_key_file (default "" key_file) (Some Ed25519);
    _ ←? liftR (wrong_type no_ed25519 Ed25519 k);
    sig ←? liftR (map_err AppCrypto (op_ed25519_sign (lk_secret k) data));
    mret (Ok (println (b64_encode sig))).

(** Whether the check holds, by the source that was chosen. *)
Definition verify_with (src : option string) (key key_file public_key : option string) (alg : HashAlg)
    (signature : string) (data : bytes) : M (result AppError bool) :=
  if bool_decide (src = Some "-k/--key") then
    r ←? key_op (default "" key) "verify"
           (JObj [("algorithm", JStr (HashAlg_as_str alg)); ("input", JStr (b64_encode data));
                  ("signature", JStr (trim signature))]);
    mret (Ok (match member "valid" r with Some (JBool b) => b | _ => false end))
  else if bool_decide (src = Some "--public-key") then
    pk ←? public_key_arg (default "" public_key);
    tag ←? liftR (map_err AppConfig (parse_tag signature));
    mret (Ok (op_ed25519_verify pk data tag))
  else
    k ←? load_key_file (default "" key_file) (Some Hmac);
    tag ←? liftR (map_err AppConfig (parse_tag signature));
    match lk_type k with
    | Ed25519 =>
        pk ←? liftR (map_err AppCrypto (op_ed25519_public (lk_secret k)));
        mret (Ok (op_ed25519_verify pk data tag))
    | _ => mret (Ok (hmac_verify alg (lk_secret k) data tag))
    end.

Definition cmd_verify (input : Input) (signature : string) (key key_file public_key : option string)
    (algorithm : string) : M (result AppError Output) :=
  src ←? liftR (one_source [("-k/--key", is_set key); ("--key-file", is_set key_file);
                            ("--public-key", is_set public_key)] true);
  alg ←? liftR (map_err AppConfig (HashAlg_parse algorithm));
  data ←? read_input stdin input;
  valid ←? verify_with src key key_file public_key alg signature data;
  mret (Ok (finish_check valid "valid")).

Definition cmd_hash (input : Input) (algorithm : string) (key : option string) (cmk : bool) (key_file : option string)
    (encoding : string) : M (result AppError Output) :=
  alg ←? liftR (map_err AppConfig (HashAlg_parse algorithm));
  src ←? liftR (one_source [("-k/--key", is_set key); ("--cmk", cmk); ("--key-file", is_set key_file)] false);
  data ←? read_input stdin input;
  out ←? (if bool_decide (src = None) then liftR (map_err AppConfig (op_encode (digest alg data) encoding))
          else if bool_decide (src = Some "-k/--key") then
            r ←? key_op (default "" key) "hmac"
                   (JObj [("algorithm", JStr (HashAlg_as_str alg)); ("input", JStr (b64_encode data))]);
            liftR (resp_field r "hmac")
          else if bool_decide (src = Some "--cmk") then
            c ←? profile_cmk;
            liftR (map_err AppConfig (op_encode (hmac alg (cmk_subkey c "hmac") data) encoding))
          else
            k ←? load_key_file (default "" key_file) (Some Hmac);
            _ ←? liftR (wrong_type no_hmac Hmac k);
            liftR (map_err AppConfig (op_encode (hmac alg (lk_secret k) data) encoding)));
  mret (Ok (println out)).

(** *** Tokens *)

Definition opt_num (o : option Z) : Json := opt_json JNum o.

(** The signer of a local key, and the key id it puts in the header. *)
Definition local_signer (k : LocalKey) : result AppError (TokenSigner * option string) :=
  match lk_type k with
  | Ed25519 =>
      pk ← map_err AppCrypto (op_ed25519_public (lk_secret k));
      Ok (SignEd25519 (lk_secret k), Some (key_fingerprint pk))
  | Hmac => Ok (SignHmac (lk_secret k), None)
  | Aes256Gcm => Err (AppConfig "tokens need an ed25519 or hmac key, not aes256-gcm")
  end.

Definition issue_locally (path : string) (req : TokenRequest) : M (result AppError Json) :=
  k ←? load_key_file path (Some Hmac);
  '(signer, kid) ←? liftR (local_signer k);
  now ← now_unix;
  jti ← draw 16;
  claims ←? liftR (map_err AppConfig (token_claims req now jti));
  token ←? liftR (map_err AppCrypto (token_issue signer kid claims));
  let exp := default 0 (obj_get "exp" claims ≫= as_i64) in
  mret (Ok (JObj [("claims", JObj claims); ("expires_at", JStr (fmt_unix exp)); ("kid", opt_json JStr kid);
                  ("token", JStr token)])).

Definition cmd_token_issue (key key_file sub aud iss : option string) (ttl : string) (nbf : option string)
    (claims : list string) (claims_json : option string) (json : bool) : M (result AppError Output) :=
  src ←? liftR (one_source [("-k/--key", is_set key); ("--key-file", is_set key_file)] true);
  extra ←? liftR (build_claims claims_json claims);
  ttl_secs ←? liftR (parse_duration ttl);
  nbf_secs ←? liftR (match nbf with Some n => n ← parse_duration n; Ok (Some n) | None => Ok None end);
  resp ←? (if bool_decide (src = Some "-k/--key") then
             key_op (default "" key) "token"
               (JObj [("audience", opt_json JStr aud); ("claims", JObj extra); ("issuer", opt_json JStr iss);
                      ("not_before_secs", opt_num nbf_secs); ("subject", opt_json JStr sub); ("ttl_secs", JNum ttl_secs)])
           else issue_locally (default "" key_file) (MkTokenRequest extra sub aud iss ttl_secs nbf_secs));
  if json then mret (Ok (println (json_pretty resp)))
  else token ←? liftR (resp_field resp "token"); mret (Ok (println token)).

(** The verifier of a local key. *)
Definition local_verifier (k : LocalKey) : result AppError TokenVerifier :=
  match lk_type k with
  | Ed25519 => pk ← map_err AppCrypto (op_ed25519_public (lk_secret k)); Ok (VerifyEd25519 pk)
  | _ => Ok (VerifyHmac (lk_secret k))
  end.

(** The server's verdict. *)
Definition token_outcome (r : Json) : result string JsonMap :=
  match member "valid" r with
  | Some (JBool true) => Ok (default [] (member "claims" r ≫= as_object))
  | _ => Err (default "invalid" (str_member "reason" r))
  end.

Definition verify_token_with (src : option string) (token : string) (key key_file public_key aud : option string)
    (now : Z) : M (result AppError (result string JsonMap)) :=
  if bool_decide (src = Some "-k/--key") then
    r ←? key_op (default "" key) "token/verify" (JObj [("audience", opt_json JStr aud); ("token", JStr token)]);
    mret (Ok (token_outcome r))
  else if bool_decide (src = Some "--public-key") then
    pk ←? public_key_arg (default "" public_key);
    mret (Ok (token_verify token (VerifyEd25519 pk) now aud))
  else
    k ←? load_key_file (default "" key_file) (Some Hmac);
    v ←? liftR (local_verifier k);
    mret (Ok (token_verify token v now aud)).

Definition valid_token_text (claims : JsonMap) : string :=
  "✓ valid token" +:+ nl
  +:+ match obj_get "exp" claims ≫= as_i64 with Some e => "expires: " +:+ fmt_unix e +:+ nl | None => "" end
  +:+ json_pretty (JObj claims) +:+ nl.

Definition cmd_token_verify (token : string) (key key_file public_key aud : option string) : M (result AppError Output) :=
  let token := if String.eqb token "-" then trim (from_utf8_lossy stdin) else token in
  src ←? liftR (one_source [("-k/--key", is_set key); ("--key-file", is_set key_file);
                            ("--public-key", is_set public_key)] true);
  now ← now_unix;
  outcome ←? verify_token_with src token key key_file public_key aud now;
  mret (Ok (match outcome with Ok claims => print (valid_token_text claims) | Err _ => MkOut [] 1 end)).

Definition cmd_token (cmd : TokenCmd) : M (result AppError Output) :=
  match cmd with
  | TokenIssue key key_file sub aud iss ttl nbf claims claims_json json =>
      cmd_token_issue key key_file sub aud iss ttl nbf claims claims_json json
  | TokenVerify token key key_file public_key aud => cmd_token_verify token key key_file public_key aud
  end.

(** *** Key files and the rest *)

Definition keygen_bytes (format : string) (t : KeyType) (secret : bytes) : result AppError bytes :=
  if String.eqb format "json" then Ok (as_bytes (local_key_json t secret))
  else if String.eqb format "pem" then
    match t with
    | Ed25519 => Ok (as_bytes (ed25519_private_pem secret))
    | _ => Err (AppConfig "PEM output is for ed25519 keys; use json or raw")
    end
  else if String.eqb format "raw" then
    match t with
    | Ed25519 => Err (AppConfig "raw output is for aes256-gcm / hmac keys; use json or pem")
    | _ => Ok secret
    end
  else Err (AppConfig ("unknown format '" +:+ format +:+ "' (use json, pem or raw)")).

Definition public_key_text (pk : bytes) : string := "public key:  " +:+ b64_encode pk +:+ nl +:+ ed25519_public_pem pk.

Definition cmd_keygen (key_type out format : string) (force : bool) : M (result AppError Output) :=
  t ←? liftR (map_err AppConfig (KeyType_parse key_type));
  secret ← KeyType_generate;
  b ←? liftR (keygen_bytes format t secret);
  if is_dash out then mret (Ok (MkOut b 0))
  else
    _ ←? write_secret_file out b force;
    mret (Ok (print (match public_key t secret with Some pk => public_key_text pk | None => "" end))).

Definition cmd_datakey (key : string) (json : bool) : M (result AppError Output) :=
  r ←? key_op key "datakey" (JObj []);
  if json then mret (Ok (println (of_bytes (json_to_vec r))))
  else
    p ←? liftR (resp_field r "plaintext");
    c ←? liftR (resp_field r "ciphertext");
    mret (Ok (print ("plaintext:   " +:+ p +:+ nl +:+ "ciphertext:  " +:+ c +:+ nl))).

Definition cmd_random (n : nat) (encoding : string) : M (result AppError Output) :=
  if (n =? 0)%nat || (65536 <? Z.of_nat n) then mret (Err (AppConfig "--bytes must be between 1 and 65536"))
  else
    b ← op_random_bytes n;
    text ←? liftR (map_err AppConfig (op_encode b encoding));
    mret (Ok (println text)).

Definition cmd_derive_key (algorithm : string) (salt : option string) : M (result AppError Output) :=
  alg ←? liftR (map_err AppConfig (KdfAlg_parse algorithm));
  salt ←? (match salt with
           | Some s => liftR (ok_or (AppConfig "--salt is not valid base64") (b64_decode (trim s)))
           | None => b ← op_random_bytes 16; mret (Ok b)
           end);
  pass ←? liftR (crypto_secret "Passphrase: " false);
  key ←? liftR (map_err AppCrypto (derive_key alg pass salt));
  mret (Ok (print ("algorithm:  " +:+ KdfAlg_as_str alg +:+ nl +:+ "key_base64: " +:+ b64_encode key +:+ nl
                   +:+ "key_hex:    " +:+ hex_encode key +:+ nl +:+ "salt:       " +:+ b64_encode salt +:+ nl))).

Definition cmd_password_hash : M (result AppError Output) :=
  pw ←? liftR (crypto_secret "Password: " true);
  salt ← draw 16;
  phc ←? crypto (password_hash salt pw);
  mret (Ok (println phc)).

Definition cmd_password_verify (hash : string) : M (result AppError Output) :=
  pw ←? liftR (crypto_secret "Password: " false);
  good ←? liftR (map_err AppConfig (password_verify pw hash));
  mret (Ok (finish_check good "password matches")).

Definition cmd_fingerprint (input : Input) : M (result AppError Output) :=
  data ←? read_input stdin input;
  let fp := digest Sha3_256 data in
  mret (Ok (print (randomart fp "bbk" +:+ nl +:+ "braille:  " +:+ braille fp +:+ nl +:+ "sha3-256: " +:+ hex_encode fp +:+ nl))).

Definition cmd_crypto (cmd : CryptoCmd) : M (result AppError Output) :=
  match cmd with
  | CryptoEncrypt input key cmk key_file passphrase aad out => cmd_encrypt input key cmk key_file passphrase aad out
  | CryptoDecrypt input key key_file aad out => cmd_decrypt input key key_file aad out
  | CryptoSign input key key_file => cmd_sign input key key_file
  | CryptoVerify input signature key key_file public_key algorithm =>
      cmd_verify input signature key key_file public_key algorithm
  | CryptoHash input algorithm key cmk key_file encoding => cmd_hash input algorithm key cmk key_file encoding
  | CryptoToken cmd => cmd_token cmd
  | CryptoKeygen key_type out format force => cmd_keygen key_type out format force
  | CryptoDatakey key json => cmd_datakey key json
  | CryptoRandom n encoding => cmd_random n encoding
  | CryptoDeriveKey algorithm salt => cmd_derive_key algorithm salt
  | CryptoPasswordHash => cmd_password_hash
  | CryptoPasswordVerify hash => cmd_password_verify hash
  | CryptoFingerprint input => cmd_fingerprint input
  end.
End commands.
