(* ===== verification/CryptoCommandsProps.v ===== *)
(** Properties of the crypto commands ([CryptoCommands.v]): what [encrypt]
    writes [decrypt] reads back, for every kind of key; the data never leaves
    the client; key files, signatures and durations mean what they say. *)
From S2P Require Import Prelude Text Unicode AccessRules Crypto ToyPrimitives Store Effects Concurrency ServerBase ToyPlatform Auth Threshold Secrets SecretsLemmas CryptoOps ToyOps CryptoOpsProps Keys KeysProps CredStore FileSteps Session SessionProps External ClientSecrets ClientSecretsProps Presentation KeyClient CryptoCommands.

(** ** Lines of text *)

Lemma trim_line s : is_line s -> trim (s +:+ nl) = s.
Proof.
  unfold is_line, trim. intros H. destruct s as [|a s]; [reflexivity|].
  assert (trim_start (String a s +:+ nl) = String a s +:+ nl) as ->.
  { cbn [all_chars] in H. apply andb_true_iff in H as [Ha _]. rewrite string_app_cons. by apply trim_start_graphic. }
  revert H. generalize (String a s). clear a s. intros s. induction s as [|a s IH]; [reflexivity|].
  cbn [all_chars]. intros [Ha Hs]%andb_true_iff. rewrite string_app_cons. cbn [trim_end].
  rewrite trim_start_graphic by done. cbn [String.eqb]. by rewrite IH.
Qed.

Lemma line_str s : is_line s -> is_str s.
Proof. intros H. apply ascii_is_str. revert H. apply all_chars_impl. intros a. unfold graphic, is_ascii. lia. Qed.

Lemma line_is_str s : is_line s -> is_str (s +:+ nl).
Proof.
  intros H. apply ascii_is_str. rewrite all_chars_app. apply andb_true_iff. split; [|reflexivity].
  revert H. unfold is_line. apply all_chars_impl. intros a. unfold graphic, is_ascii. lia.
Qed.

Section steps.
Context {P : Primitives} {L : PrimitiveLaws P} {O : OpsLib} {OL : OpsLaws P O}.

(** What [println] of a line sends, the next command reads. *)
Lemma read_back s w : is_line s -> run (read_input_text (as_bytes (s +:+ nl)) (MkInput None None)) w = (Val (Ok s), w).
Proof.
  intros Hs. unfold read_input_text. eapply run_try; [apply run_ret|]. unfold liftR. rewrite run_ret.
  pose proof (line_is_str s Hs) as Hu. unfold is_str in Hu. rewrite Hu. cbn [ok_or]. by rewrite bind_Ok, trim_line.
Qed.

Lemma resp_b64_found v key b : str_member key v = Some (b64_encode b) -> resp_b64 v key = Ok b.
Proof. intros H. unfold resp_b64, resp_field. rewrite H. cbn [ok_or]. by rewrite bind_Ok, b64_roundtrip. Qed.

(** *** Local keys *)

(** The key of the source chosen is also at hand for the reader. *)
Definition shares env profile cmk key_file passphrase w env' profile' key_file' w' : Prop :=
  (cmk = true -> exists c, (run (profile_cmk env profile) w).1 = Val (Ok c) /\
     (run (profile_cmk env' profile') w').1 = Val (Ok c)) /\
  (forall p, key_file = Some p -> exists p' k k', key_file' = Some p' /\
     (run (load_key_file p (Some Aes256Gcm)) w).1 = Val (Ok k) /\
     (run (load_key_file p' (Some Aes256Gcm)) w').1 = Val (Ok k') /\ lk_secret k' = lk_secret k) /\
  (passphrase = true -> exists pw, crypto_secret env "Passphrase: " true = Ok pw /\
     crypto_secret env' "Passphrase: " false = Ok pw).

Section opening.
Context (env : Environment) (connect : Session -> option string -> option string -> result ClientError KeyApi).
Context (profile : string) (domain mfa : option string) (key key_file : option string) (v : World).

(** A line that opens to the data, as [decrypt] finds it. *)
Definition opens_line (a : bytes) (e : string) (data : bytes) : Prop :=
  is_line e /\ (run (decrypt_text env connect profile domain mfa e key key_file a) v).1 = Val (Ok data).

Lemma run_value {A} (m : M A) w r : (run m w).1 = r -> exists w', run m w = (r, w').
Proof. destruct (run m w) as [o w']. cbn. intros ->. by exists w'. Qed.

(** A seal after a fresh nonce. *)
Lemma sealed_fresh n (f : bytes -> result string string) w e w' :
  run (x ← draw n; crypto (f x)) w = (Val (Ok e), w') -> exists x, length x = n /\ f x = Ok e /\ db w' = db w.
Proof.
  intros H. apply run_bind_Val in H as (x & w1 & Hx & H). rewrite run_draw in Hx. injection Hx as <- <-.
  unfold crypto, liftR in H. rewrite run_ret in H. injection H as H <-. apply map_err_Ok in H.
  exists (rand_bytes (rng w) n). by rewrite rand_length.
Qed.

Lemma cmk_opens nonce data c a e :
  length nonce = 12%nat -> cmk_seal nonce data c a = Ok e -> (run (profile_cmk env profile) v).1 = Val (Ok c) ->
  opens_line a e data.
Proof.
  intros Hn (Hl & Hd & Ho)%cmk_roundtrip (v1 & Hc)%run_value; [|done]. split; [done|]. unfold decrypt_text. rewrite Hd.
  erewrite (run_try _ _ _ _ _ _ Hc); [|apply run_ret]. cbn [fst]. by rewrite Ho.
Qed.

Lemma key_file_opens nonce data secret p k a e :
  length nonce = 12%nat -> rawkey_seal nonce data secret a = Ok e -> key_file = Some p ->
  (run (load_key_file p (Some Aes256Gcm)) v).1 = Val (Ok k) -> lk_secret k = secret -> opens_line a e data.
Proof.
  intros Hn (Hl & Hd & Ho)%rawkey_roundtrip Hp (v1 & Hk)%run_value Hs; [|done]. split; [done|]. unfold decrypt_text. rewrite Hd, Hp.
  erewrite run_try; [|apply run_ret|reflexivity]. erewrite (run_try _ _ _ _ _ _ Hk); [|apply run_ret]. cbn [fst]. by rewrite Hs, Ho.
Qed.

Lemma passphrase_opens salt nonce data pw a e :
  length nonce = 12%nat -> length salt = PASSPHRASE_SALT_LEN -> passphrase_seal salt nonce data pw a = Ok e ->
  crypto_secret env "Passphrase: " false = Ok pw -> opens_line a e data.
Proof.
  intros Hn Hs (Hl & Hd & Ho)%passphrase_roundtrip Hpw; [|done..]. split; [done|]. unfold decrypt_text. rewrite Hd, Hpw.
  erewrite run_try; [|apply run_ret|apply run_ret]. cbn [fst]. by rewrite Ho.
Qed.

(** Reading the line back in. *)
Lemma decrypt_line aad e data :
  opens_line (as_bytes (default "" aad)) e data ->
  (run (cmd_decrypt env connect profile domain mfa (as_bytes (e +:+ nl)) (MkInput None None) key key_file aad None) v).1 =
    Val (Ok (MkOut data 0)).
Proof.
  intros [Hl (v1 & Hd)%run_value]. unfold cmd_decrypt. erewrite run_try; [|by apply read_back|reflexivity].
  erewrite (run_try _ _ _ _ _ _ Hd); [|reflexivity]. reflexivity.
Qed.
End opening.
End steps.

(** C28. A local envelope opens wherever its key is: whatever [crypto encrypt]
    writes with a profile's master key, a key file or a passphrase, [crypto
    decrypt] of those bytes recognises and opens to exactly the data, in any
    later state and any other environment that has the same key, given the same
    associated data. *)
Theorem local_encrypt_then_decrypt {P : Primitives} {L : PrimitiveLaws P} {O : OpsLib} {OL : OpsLaws P O}
    env connect profile domain mfa stdin input cmk key_file passphrase aad data out w w0 w1
    env' connect' profile' domain' mfa' key' key_file' v :
  run (read_input stdin input) w = (Val (Ok data), w0) ->
  run (cmd_encrypt env connect profile domain mfa stdin input None cmk key_file passphrase aad None) w =
    (Val (Ok out), w1) ->
  shares env profile cmk key_file passphrase w0 env' profile' key_file' v ->
  (run (cmd_decrypt env' connect' profile' domain' mfa' (out_stdout out) (MkInput None None) key' key_file' aad None) v).1 =
    Val (Ok (MkOut data 0)).
Proof.
  intros Hin H (Hcmk & Hfile & Hpass). unfold cmd_encrypt in H. apply run_try_liftR in H as (src & Hsrc & H).
  apply run_try_Ok in H as (d & w2 & Hd & H). rewrite Hin in Hd. injection Hd as <- <-.
  apply run_try_Ok in H as (e & w2 & He & H). cbn [write_output] in H. rewrite run_ret in H. injection H as <- _.
  apply decrypt_line. unfold one_source in Hsrc. cbn [is_set] in Hsrc. unfold encrypt_with in He.
  destruct cmk, key_file as [p|], passphrase; try (by cbn in Hsrc); cbn in Hsrc; injection Hsrc as <-;
    repeat (rewrite bool_decide_eq_true_2 in He by reflexivity); rewrite ?bool_decide_eq_false_2 in He by discriminate.
  - destruct (Hcmk eq_refl) as (c & (w3 & Hc1)%run_value & Hc2).
    apply run_try_Ok in He as (c' & w4 & Hc & He). rewrite Hc1 in Hc. injection Hc as <- <-.
    apply sealed_fresh in He as (n & Hn & He & _). by eapply cmk_opens.
  - destruct (Hfile p eq_refl) as (p' & k & k' & -> & (w3 & Hk1)%run_value & Hk2 & Hs).
    apply run_try_Ok in He as (k0 & w4 & Hk & He). change (default "" (Some p)) with p in Hk. rewrite Hk1 in Hk. injection Hk as <- <-.
    apply run_try_liftR in He as (u & _ & He). apply sealed_fresh in He as (n & Hn & He & _). by eapply key_file_opens.
  - destruct (Hpass eq_refl) as (pw & Hp1 & Hp2). apply run_try_liftR in He as (pw' & Hp & He). rewrite Hp1 in Hp.
    injection Hp as <-. apply run_bind_Val in He as (salt & w3 & Hsalt & He). rewrite run_draw in Hsalt. injection Hsalt as <- <-.
    apply sealed_fresh in He as (n & Hn & He & _). eapply passphrase_opens; [done|apply rand_length|done..].
Qed.

(** *** Managed keys *)

Section managed.
Context {P : Primitives} {L : PrimitiveLaws P} {PF : Platform} {O : OpsLib} {OL : OpsLaws P O}.
Context (bad_body no_route : Response) (state : AppState).

Lemma refuses_load_material kr n : refuses (load_material state kr n).
Proof.
  unfold load_material. apply refuses_bind.
  { apply refuses_pure_reply. unfold check_version. case_match; [by intros e [= <-]|done]. }
  intros _. apply refuses_bind; [apply refuses_or_internal; solve_refuses|intros row].
  destruct row as [v|]; [|done]. apply refuses_pure_reply. by intros.
Qed.

Lemma refuses_datakey name q h client : refuses (datakey state name q h client).
Proof.
  unfold datakey, op_random_bytes, finish_op. apply refuses_bind; [apply refuses_begin_op|intros [kr dec]].
  apply refuses_bind; [apply refuses_load_material|intros m]. solve_refuses; auto using refuses_audit_key.
Qed.

(** An operation that succeeded is a handler that answered. *)
Lemma op_call_Ok m (Hm : refuses m) w j w' :
  run (call as_value (respond_m m)) w = (Val (Ok j), w') ->
  exists resp, run m w = (Val resp, w') /\ to_value <$> body_json (resp_body resp) = Some j.
Proof.
  unfold call. rewrite run_bind, run_respond_m. destruct (run m w) as [o w1] eqn:E. cbn [fst snd]. rewrite run_ret.
  intros H. injection H as H <-. unfold handle_response in H.
  destruct (is_success (resp_status (respond o))) eqn:Es; [|done].
  destruct (refuses_success _ _ _ _ Hm E Es) as [resp ->]. exists resp. split; [done|]. cbn [respond] in H.
  by destruct (body_json (resp_body resp)); [|done]; cbn in *; injection H as ->.
Qed.

Lemma op_call_answered m w j w' :
  run m w = (Val (json_response 200 j), w') -> run (call as_value (respond_m m)) w = (Val (Ok (to_value j)), w').
Proof. intros H. unfold call. by rewrite run_bind, run_respond_m, H. Qed.
End managed.

Section called.
Context {P : Primitives} {O : OpsLib} (env : Environment).
Context (connect : Session -> option string -> option string -> result ClientError KeyApi).
Context (profile : string) (domain mfa : option string) (session : Session) (bb : KeyApi) (w w1 : World).
Context (Hl : run (load_named env profile) w = (Val (Ok session), w1)) (Hc : connect session domain mfa = Ok bb).

Lemma run_managed_client : run (managed_client env connect profile domain mfa) w = (Val (Ok bb), w1).
Proof.
  unfold managed_client. eapply run_try; [by rewrite run_map_err, Hl|]. cbv beta. rewrite Hc. apply run_ret.
Qed.

(** A call on behalf of a profile that loads and connects. *)
Lemma key_op_Ok name op body r w2 :
  run (key_op env connect profile domain mfa name op body) w = (Val (Ok r), w2) ->
  run (api_key_op bb name op body) w1 = (Val (Ok r), w2).
Proof.
  unfold key_op. intros H. apply run_try_Ok in H as (bb' & w3 & Hbb & H). rewrite run_managed_client in Hbb.
  injection Hbb as <- <-. by apply run_map_err_Ok in H.
Qed.

Lemma named_key_op_run name op body r w2 :
  run (api_key_op bb name op body) w1 = (Val (Ok r), w2) ->
  run (named_key_op env connect profile domain mfa (Some name) op body) w = (Val (Ok r), w2).
Proof.
  intros H. unfold named_key_op. eapply run_try; [apply run_managed_client|]. eapply run_try; [apply run_ret|].
  by rewrite run_map_err, H.
Qed.
End called.

(** C25. Data sealed under a managed key outlives the key's rotations: what
    [crypto encrypt -k] writes, [crypto decrypt -k] by any client the server
    lets use the key opens to exactly the data, after any interleaving of other
    key calls short of deletion (rotations, creations, uses, failures). *)
Theorem managed_encrypt_then_decrypt {P : Primitives} {L : PrimitiveLaws P} {PF : Platform} {O : OpsLib} {OL : OpsLaws P O}
    bad_body no_route state env connect profile domain mfa session client q h dom stdin input name aad data out w w0 w1 w2
    calls v ps' env' connect' profile' domain' mfa' session' reader q' h' v1 kr dec v2 :
  (* the sealing *)
  run (read_input stdin input) w = (Val (Ok data), w0) ->
  run (load_named env profile) w0 = (Val (Ok session), w1) ->
  connect session domain mfa = Ok (blackbook_keys bad_body no_route state client q h) ->
  keys_wf (key_tables (db w1)) ->
  live_domain_id (domain_name_id_hex (name_index_key state) (DomainQuery_name q)) (db w1) = Some dom ->
  run (cmd_encrypt env connect profile domain mfa stdin input (Some name) false None false aad None) w =
    (Val (Ok out), w2) ->
  (* meanwhile *)
  (forall c, c ∈ calls -> is_delete (kq_call c) = false) ->
  pool_steps (w2, key_request state <$> calls) (v, ps') ->
  (* the opening *)
  run (load_named env' profile') v = (Val (Ok session'), v1) ->
  connect' session' domain' mfa' = Ok (blackbook_keys bad_body no_route state reader q' h') ->
  live_domain_id (domain_name_id_hex (name_index_key state) (DomainQuery_name q')) (db v1) = Some dom ->
  run (begin_op state reader h' q' name "decrypt" [Aes256Gcm] (fun _ => true)) v1 = (Val (kr, dec), v2) ->
  faults v2 = [] ->
  (run (cmd_decrypt env' connect' profile' domain' mfa' (out_stdout out) (MkInput None None) (Some name) None aad None) v).1 =
    Val (Ok (MkOut data 0)).
Proof.
  intros Hin Hload Hconn Hwf Hdom H Hdel Hpool Hload' Hconn' Hdom' Hb Hf.
  unfold cmd_encrypt in H. apply run_try_liftR in H as (src & Hsrc & H). injection Hsrc as <-.
  apply run_try_Ok in H as (d & w3 & Hd & H). rewrite Hin in Hd. injection Hd as <- <-.
  apply run_try_Ok in H as (e & w3 & He & H). cbn [write_output] in H. rewrite run_ret in H. injection H as <- <-.
  unfold encrypt_with in He. rewrite bool_decide_eq_true_2 in He by reflexivity.
  apply run_try_Ok in He as (r & w4 & Hr & He). eapply key_op_Ok in Hr; [|exact Hload|exact Hconn].
  change (default "" (Some name)) with name in Hr. cbn [api_key_op blackbook_keys] in Hr. unfold api_key_op in Hr.
  cbn [ka_op blackbook_keys key_route String.eqb Ascii.eqb Bool.eqb] in Hr.
  apply op_call_Ok in Hr as (resp & Hk & Hj); [|apply refuses_datakey].
  destruct (datakey_inv state name q h client w1 resp w4 dom Hk Hdom)
    as (k & vk & material & n1 & dek & wrapped & Hck & Hn1 & Hdl & Hw & -> & Htab).
  injection Hj as <-. apply run_try_liftR in He as (dek' & Hdek & He).
  erewrite resp_b64_found in Hdek by reflexivity. injection Hdek as <-.
  apply run_try_liftR in He as (wr & Hwr & He). injection Hwr as <-. apply sealed_fresh in He as (n2 & Hn2 & He & Hdb).
  apply decrypt_line. pose proof (ck_latest _ _ _ _ _ _ _ Hck) as Hpos.
  destruct (datakey_roundtrip _ _ _ _ _ _ Hn2 (line_str _ (versioned_line _ wrapped Hpos)) He)
    as (Hl & Hd & sealed & Hparse & Hopen). split; [done|].
  pose proof (touches_run_rest _ _ v (touches_load_named env' profile')) as (Hdbv & _ & _). rewrite Hload' in Hdbv. cbn [snd] in Hdbv.
  rewrite <- Hdb in Htab.
  destruct (sealed_survives state dom name k vk material n1 dek [] None wrapped calls w3 v ps' v1 q' h' reader kr dec v2)
    as [v3 Hv3]; try done.
  - by rewrite Htab.
  - by eapply current_key_tables.
  - by rewrite Hdbv.
  - unfold decrypt_text. rewrite Hd, Hparse. erewrite run_try; [|apply run_ret|reflexivity].
    erewrite run_try; [|eapply named_key_op_run; [exact Hload'|exact Hconn'|]|reflexivity].
    2: { unfold api_key_op. cbn [ka_op blackbook_keys key_route String.eqb Ascii.eqb Bool.eqb with_body decrypt_from_json].
         eapply op_call_answered. exact Hv3. }
    erewrite run_try; [|unfold liftR; erewrite resp_b64_found by reflexivity; apply run_ret|apply run_ret].
    cbn [fst]. by rewrite Hopen.
Qed.

(** *** What the server sees *)

(** Two programs that leave the same world behind. *)
Definition alike {A B} (m1 : M A) (m2 : M B) : Prop := forall w, (run m1 w).2 = (run m2 w).2.

Lemma alike_bind {A B C} (m : M A) (f : A -> M B) (g : A -> M C) : (forall a, alike (f a) (g a)) -> alike (m ≫= f) (m ≫= g).
Proof. intros H w. rewrite !run_bind. destruct (run m w) as [[a|r|s e] w1]; [apply H|done..]. Qed.

Lemma alike_try {E A B C} (m : M (result E A)) (f : A -> M (result E B)) (g : A -> M (result E C)) :
  (forall a, alike (f a) (g a)) -> alike (try_bind m f) (try_bind m g).
Proof. intros H. apply alike_bind. intros [a|e]; [apply H|by intros w]. Qed.

Lemma alike_then {E A B C} (m1 m2 : M (result E A)) (f : A -> M (result E B)) (g : A -> M (result E C)) :
  alike m1 m2 -> (forall a w, (run (f a) w).2 = w) -> (forall a w, (run (g a) w).2 = w) ->
  alike (try_bind m1 f) (try_bind m2 g).
Proof.
  intros Hm Hf Hg w. specialize (Hm w). unfold try_bind. rewrite !run_bind.
  destruct (run m1 w) as [[[a|e]|r|s e] w1], (run m2 w) as [[[b|e']|r'|s' e'] w2]; cbn in *; subst; rewrite ?Hf, ?Hg; done.
Qed.

(** C38. What is encrypted never leaves the client: whatever server is at the
    other end (its calls may record anything), [crypto encrypt] of two inputs
    leaves it, the file system and the random generator in the same state;
    [out] is standard output. With a managed key only the wrapped data key
    travels. *)
Theorem encrypted_data_stays {P : Primitives} {O : OpsLib} env connect profile domain mfa key cmk key_file passphrase aad
    data1 data2 w :
  (run (cmd_encrypt env connect profile domain mfa data1 (MkInput None None) key cmk key_file passphrase aad None) w).2 =
  (run (cmd_encrypt env connect profile domain mfa data2 (MkInput None None) key cmk key_file passphrase aad None) w).2.
Proof.
  revert w. change (alike (cmd_encrypt env connect profile domain mfa data1 (MkInput None None) key cmk key_file passphrase aad None)
    (cmd_encrypt env connect profile domain mfa data2 (MkInput None None) key cmk key_file passphrase aad None)).
  unfold cmd_encrypt. apply alike_try. intros src. cbv zeta. set (a := as_bytes (default "" aad)).
  change (alike (e ←? encrypt_with env connect profile domain mfa src key key_file data1 a; write_output None (as_bytes (e +:+ nl)))
    (e ←? encrypt_with env connect profile domain mfa src key key_file data2 a; write_output None (as_bytes (e +:+ nl)))).
  apply alike_then; [|done..]. unfold encrypt_with.
  repeat case_bool_decide; repeat first [apply alike_try; intros ? | apply alike_bind; intros ?]; by intros w.
Qed.

(** *** Durations *)

Lemma in_range_Some lo hi z x : in_range lo hi z = Some x -> x = z /\ lo <= z <= hi.
Proof. unfold in_range. destruct (_ && _) eqn:E; [|done]. intros [= <-]. split; [done|lia]. Qed.

Lemma split_last_app s init c : split_last s = Some (init, c) -> s = init +:+ String c "".
Proof.
  revert init. induction s as [|a s IH]; intros init; [done|]. cbn [split_last].
  destruct (split_last s) as [[r z]|] eqn:E; intros [= <- <-].
  - by rewrite string_app_cons, <- (IH r eq_refl).
  - by destruct s as [|b s]; [|cbn in E; destruct (split_last s) as [[]|]].
Qed.

(** A duration is its number times its unit, computed without overflow; any
    other text is refused. *)
Theorem parse_duration_exact s z : parse_duration s = Ok z ->
  i64_min <= z <= i64_max /\ exists num n,
    parse_i64 num = Some n /\
    ((trim s = num /\ z = n) \/ exists c u, unit_secs c = Some u /\ trim s = num +:+ String c "" /\ z = n * u).
Proof.
  unfold parse_duration. cbv zeta. intros H. apply result_bind_Ok in H as ([init c] & Hl & H).
  destruct (split_last (trim s)) as [[init' c']|] eqn:El; [|done]. injection Hl as -> ->. apply split_last_app in El.
  assert (Hn : forall num mult, ok_or (AppConfig ("'" +:+ trim s +:+ "' isn't a duration (use seconds, or 90s / 15m / 1h / 7d / 2w)"))
     (n ← parse_i64 num; in_range i64_min i64_max (n * mult)) = Ok z ->
     exists n, parse_i64 num = Some n /\ z = n * mult /\ i64_min <= z <= i64_max).
  { intros num mult Hz. destruct (parse_i64 num) as [n|]; [|done]. cbn in Hz.
    destruct (in_range _ _ _) as [x|] eqn:Er; [|done]. injection Hz as <-. apply in_range_Some in Er as [-> Hr]. by exists n. }
  destruct (unit_secs c) as [u|] eqn:Eu.
  - rewrite bind_Ok in H. apply Hn in H as (n & Hp & -> & Hr). split; [done|]. exists init, n. split; [done|]. right. by exists c, u.
  - destruct (is_digit c); [|done]. rewrite bind_Ok in H. apply Hn in H as (n & Hp & Hz & Hr). split; [done|].
    exists (trim s), n. split; [done|]. left. split; [done|lia].
Qed.

Example durations : parse_duration "30" = Ok 30 /\ parse_duration " 15m " = Ok 900 /\ parse_duration "-2w" = Ok (-1209600) /\
  (exists e, parse_duration "1y" = Err e) /\ (exists e, parse_duration "" = Err e) /\
  (exists e, parse_duration "9223372036854775807m" = Err e).
Proof. repeat split; try reflexivity; eexists; vm_compute; reflexivity. Qed.

(** *** Key files *)

Section key_files.
Context {P : Primitives} {L : PrimitiveLaws P} {O : OpsLib} {OL : OpsLaws P O}.

(** Without [--force] a key file is never written over, whatever fails. *)
Theorem keygen_keeps_existing key_type out format w b : is_dash out = false -> fs w !! out = Some b ->
  fs (run (cmd_keygen key_type out format false) w).2 = fs w /\
  exists e, (run (cmd_keygen key_type out format false) w).1 = Val (Err e).
Proof.
  intros Hd Hb. unfold cmd_keygen, liftR, try_bind. rewrite run_bind, run_ret.
  destruct (KeyType_parse key_type) as [t|e]; cbn [map_err]; [|rewrite run_ret; eauto]. rewrite run_bind. unfold KeyType_generate.
  rewrite run_draw, run_bind, run_ret. destruct (keygen_bytes format t _) as [k|e]; [|rewrite run_ret; eauto]. rewrite Hd.
  rewrite run_bind. unfold write_secret_file, try_bind. rewrite run_bind, run_map_err. unfold fs_open_out. cbn [run perform]. unfold file_op.
  destruct (next_fault (set_rng (S (rng w)) w)) as [bad w1] eqn:Ef.
  assert (Hfs : fs w1 = fs w).
  { unfold next_fault in Ef. destruct (faults (set_rng _ w)); injection Ef as _ <-; done. }
  destruct bad; cbn; [rewrite Hfs; eauto|]. rewrite Hfs, Hb, bool_decide_eq_true_2 by eauto. cbn. eauto.
Qed.

Lemma load_key_file_calm path hint v b k :
  faults v = [] -> fs v !! path = Some b -> parse_local_key b hint = Ok k ->
  run (load_key_file path hint) v = (Val (Ok k), v).
Proof.
  intros Hf Hb Hk. unfold load_key_file. eapply run_try; [by rewrite run_map_err, (fs_read_calm _ _ _ Hf Hb)|].
  cbv beta. rewrite Hk. apply run_ret.
Qed.

Lemma write_secret_file_Ok path b force w u w' :
  run (write_secret_file path b force) w = (Val (Ok u), w') -> fs w' !! path = Some b.
Proof.
  unfold write_secret_file. intros H. apply run_try_Ok in H as ([[]|] & w1 & _ & H); [|done].
  apply run_map_err_Ok, fs_write_Ok in H. rewrite H. apply lookup_insert_eq.
Qed.

(** A generated key file holds the key, in the formats that say what it is. *)
Lemma keygen_bytes_parse format t secret b hint :
  length secret = KEY_LEN -> format <> "raw" -> keygen_bytes format t secret = Ok b ->
  parse_local_key b hint = Ok (MkLocalKey t secret).
Proof.
  unfold keygen_bytes, KEY_LEN. intros Hl Hraw. destruct (String.eqb format "json").
  { intros [= <-]. by apply parse_key_json. }
  destruct (String.eqb format "pem").
  { destruct t; [done| |done]. intros [= <-]. by apply parse_private_pem. }
  destruct (String.eqb_spec format "raw"); [done|done].
Qed.

Lemma keygen_Ok key_type path format force w o w1 t :
  run (cmd_keygen key_type path format force) w = (Val (Ok o), w1) -> KeyType_parse key_type = Ok t ->
  is_dash path = false -> format <> "raw" ->
  exists secret b, length secret = KEY_LEN /\ fs w1 !! path = Some b /\
    (forall hint, parse_local_key b hint = Ok (MkLocalKey t secret)) /\
    o = print (match public_key t secret with Some pk => public_key_text pk | None => "" end).
Proof.
  intros H Ht Hd Hraw. unfold cmd_keygen in H. rewrite Ht in H. apply run_try_liftR in H as (t' & Ht' & H). injection Ht' as <-.
  apply run_bind_Val in H as (secret & w2 & Hs & H). unfold KeyType_generate in Hs. rewrite run_draw in Hs. injection Hs as <- <-.
  apply run_try_liftR in H as (b & Hb & H). rewrite Hd in H. apply run_try_Ok in H as (u & w3 & Hw & H).
  rewrite run_ret in H. injection H as <- <-. apply write_secret_file_Ok in Hw.
  exists (rand_bytes (rng w) KEY_LEN), b. split; [apply rand_length|]. split; [done|]. split; [|done].
  intros hint. by eapply keygen_bytes_parse; [apply rand_length|..].
Qed.

(** *** Signatures and codes *)

Lemma not_managed s : all_chars b64_char s = true -> starts_with MANAGED_PREFIX s = false.
Proof.
  intros Hs. unfold starts_with. apply bool_decide_eq_false_2. intros [r ->%strip_prefix_Some].
  by rewrite all_chars_app in Hs.
Qed.

Lemma parse_tag_b64 b : (length b mod 3 <> 0)%nat -> parse_tag (b64_encode b) = Ok b.
Proof.
  intros Hb. unfold parse_tag. pose proof (b64_alphabet b) as Ha. rewrite trim_graphic by by apply b64_graphic.
  cbv zeta. rewrite not_managed by done.
  assert (forallb is_hex_digit (String.list_ascii_of_string (b64_encode b)) = false) as ->.
  { rewrite <- all_chars_list. destruct (all_chars is_hex_digit _) eqn:E; [|done].
    pose proof (has_char_all "="%char _ _ E eq_refl). pose proof (b64_padded b Hb). congruence. }
  rewrite andb_false_r, b64_roundtrip. done.
Qed.

Lemma parse_tag_hex b : parse_tag (hex_encode b) = Ok b.
Proof.
  unfold parse_tag. pose proof (hex_text b) as [He Ha]%andb_true_iff.
  assert (Hg : all_chars b64_char (hex_encode b) = true).
  { revert Ha. apply all_chars_impl. intros a. by destruct a as [[] [] [] [] [] [] [] []]. }
  rewrite trim_graphic by by apply b64_graphic. cbv zeta. rewrite not_managed by done.
  rewrite <- all_chars_list, Ha, He, hex_roundtrip. done.
Qed.

Section local_keys.
Context (env : Environment) (connect : Session -> option string -> option string -> result ClientError KeyApi).
Context (profile : string) (domain mfa : option string) (data : bytes).

Abbreviation valid := (Val (Ok (println "✓ valid")) : outcome (result AppError Output)).
Abbreviation from_stdin := (MkInput None None).

(** [verify], past the flags. *)
Lemma cmd_verify_local signature key_file public_key alg a src good v v' :
  HashAlg_parse alg = Ok a ->
  one_source [("-k/--key", false); ("--key-file", is_set key_file); ("--public-key", is_set public_key)] true = Ok src ->
  run (verify_with env connect profile domain mfa src None key_file public_key a signature data) v = (Val (Ok good), v') ->
  run (cmd_verify env connect profile domain mfa data from_stdin signature None key_file public_key alg) v =
    (Val (Ok (finish_check good "valid")), v').
Proof.
  intros Ha Hs Hv. unfold cmd_verify. cbn [is_set]. rewrite Hs, Ha. eapply run_try; [apply run_ret|].
  eapply run_try; [apply run_ret|]. eapply run_try; [apply run_ret|]. eapply run_try; [exact Hv|]. apply run_ret.
Qed.

(** A check with a local key says whether the tag is right, whatever key it is. *)
Lemma verify_with_key_file path b t secret a signature tag v :
  faults v = [] -> fs v !! path = Some b -> parse_local_key b (Some Hmac) = Ok (MkLocalKey t secret) ->
  length secret = KEY_LEN -> parse_tag signature = Ok tag ->
  run (verify_with env connect profile domain mfa (Some "--key-file") None (Some path) None a signature data) v =
    (Val (Ok (match t with
              | Ed25519 => op_ed25519_verify (ed25519_public secret) data tag
              | _ => hmac_verify a secret data tag
              end)), v).
Proof.
  intros Hf Hb Hk Hl Ht. unfold verify_with. rewrite !bool_decide_eq_false_2 by done.
  eapply run_try; [by apply (load_key_file_calm path (Some Hmac) v b)|]. rewrite Ht.
  eapply run_try; [apply run_ret|]. cbn [lk_type lk_secret]. destruct t; [done| |done].
  unfold KEY_LEN in Hl. rewrite (public_of_secret secret Hl). eapply run_try; apply run_ret.
Qed.

Lemma verify_with_public_key path pk a signature tag v :
  faults v = [] -> fs v !! path = Some (as_bytes (ed25519_public_pem pk)) -> length pk = 32%nat ->
  parse_tag signature = Ok tag ->
  run (verify_with env connect profile domain mfa (Some "--public-key") None None (Some path) a signature data) v =
    (Val (Ok (op_ed25519_verify pk data tag)), v).
Proof.
  intros Hf Hb Hl Ht. unfold verify_with. rewrite bool_decide_eq_false_2, bool_decide_eq_true_2 by done.
  eapply run_try; [|rewrite Ht; eapply run_try; apply run_ret]. unfold public_key_arg. change (default "" (Some path)) with path.
  eapply run_then; [apply run_fs_exists|]. rewrite bool_decide_eq_true_2 by by eexists. cbv beta iota.
  eapply run_try; [|by unfold liftR; rewrite parse_public_pem].
  rewrite run_map_err. unfold fs_read_to_string. rewrite run_bind, (fs_read_calm _ _ _ Hf Hb).
  unfold ed25519_public_pem. by rewrite run_ret, bind_Ok, (proj2 (pem_wrap_text "PUBLIC KEY" (ED25519_SPKI_PREFIX ++ pk) eq_refl)).
Qed.
End local_keys.
End key_files.

(** C37. A generated Ed25519 key signs and verifies end to end: after [crypto
    keygen] wrote a key file, [crypto sign] with that file prints a signature
    that [crypto verify] accepts with the same file and, on any machine, with
    the public key that [keygen] printed; a changed message is accepted only if
    the signature is valid for it. *)
Theorem generated_key_signs {P : Primitives} {L : PrimitiveLaws P} {O : OpsLib} {OL : OpsLaws P O}
    env connect profile domain mfa key_type path format force data w o w1 v :
  run (cmd_keygen key_type path format force) w = (Val (Ok o), w1) -> KeyType_parse key_type = Ok Ed25519 ->
  is_dash path = false -> format <> "raw" -> faults v = [] -> fs v !! path = fs w1 !! path ->
  exists pk sig tag, o = print (public_key_text pk) /\ parse_tag sig = Ok tag /\
    run (cmd_sign env connect profile domain mfa data (MkInput None None) None (Some path)) v = (Val (Ok (println sig)), v) /\
    forall alg a, HashAlg_parse alg = Ok a ->
      run (cmd_verify env connect profile domain mfa data (MkInput None None) sig None (Some path) None alg) v =
        (Val (Ok (println "✓ valid")), v) /\
      forall env' connect' profile' domain' mfa' pub data' v', faults v' = [] ->
        fs v' !! pub = Some (as_bytes (ed25519_public_pem pk)) ->
        run (cmd_verify env' connect' profile' domain' mfa' data' (MkInput None None) sig None None (Some pub) alg) v' =
          (Val (Ok (if bool_decide (data' = data) || ed25519_verify pk data' tag then println "✓ valid" else MkOut [] 1)), v').
Proof.
  intros H Ht Hd Hraw Hf Hfile. destruct (keygen_Ok _ _ _ _ _ _ _ _ H Ht Hd Hraw) as (secret & b & Hl & Hb & Hk & ->).
  rewrite Hb in Hfile. pose proof Hl as Hl'. unfold KEY_LEN in Hl'. unfold public_key. rewrite (public_of_secret secret Hl'). cbn [ok].
  set (tag := ed25519_sign secret data).
  assert (Htag : length tag = 64%nat) by apply ed25519_sign_length.
  assert (Hp : parse_tag (b64_encode tag) = Ok tag) by (apply parse_tag_b64; by rewrite Htag).
  exists (ed25519_public secret), (b64_encode tag), tag. split; [done|]. split; [done|]. split; [|intros alg a Ha; split].
  - unfold cmd_sign. eapply run_try; [apply run_ret|]. eapply run_try; [apply run_ret|].
    rewrite bool_decide_eq_false_2 by done. change (default "" (Some path)) with path.
    eapply run_try; [by apply (load_key_file_calm path (Some Ed25519) v b)|]. eapply run_try; [apply run_ret|].
    eapply run_try; [|apply run_ret]. unfold liftR, op_ed25519_sign, ed25519_signing_key. cbn [lk_secret]. rewrite Hl'.
    apply run_ret.
  - rewrite (cmd_verify_local env connect profile domain mfa data (b64_encode tag) (Some path) None alg a (Some "--key-file") true v v);
      [done|done|done|]. rewrite (verify_with_key_file env connect profile domain mfa data path b Ed25519 secret a _ tag v) by done.
    unfold op_ed25519_verify. rewrite Htag. cbn [Nat.eqb negb]. unfold tag. by rewrite ed25519_signed.
  - intros env' connect' profile' domain' mfa' pub data' v' Hf' Hpub.
    rewrite (cmd_verify_local env' connect' profile' domain' mfa' data' (b64_encode tag) None (Some pub) alg a (Some "--public-key")
      (op_ed25519_verify (ed25519_public secret) data' tag) v' v'); [|done|done|].
    + unfold op_ed25519_verify. rewrite Htag. cbn [Nat.eqb negb]. case_bool_decide as He; [|done]. subst data'. unfold tag.
      by rewrite ed25519_signed.
    + apply verify_with_public_key; [done|done|apply ed25519_public_length|done].
Qed.

(** A keyed hash is a check value: what [hash] prints in hex, or in base64 for
    a 256-bit algorithm, [verify] with the same key file accepts exactly for
    data with the same code. *)
Theorem hash_then_verify {P : Primitives} {L : PrimitiveLaws P} {O : OpsLib} {OL : OpsLaws P O}
    env connect profile domain mfa key_type path format force alg a data data' w o w1 v :
  run (cmd_keygen key_type path format force) w = (Val (Ok o), w1) -> KeyType_parse key_type = Ok Hmac ->
  is_dash path = false -> format <> "raw" -> faults v = [] -> fs v !! path = fs w1 !! path ->
  HashAlg_parse alg = Ok a ->
  exists secret tag,
    run (cmd_hash env connect profile domain mfa data (MkInput None None) alg None false (Some path) "hex") v =
      (Val (Ok (println tag)), v) /\
    run (cmd_verify env connect profile domain mfa data' (MkInput None None) tag None (Some path) None alg) v =
      (Val (Ok (if bool_decide (hmac a secret data' = hmac a secret data) then println "✓ valid" else MkOut [] 1)), v).
Proof.
  intros H Ht Hd Hraw Hf Hfile Ha. destruct (keygen_Ok _ _ _ _ _ _ _ _ H Ht Hd Hraw) as (secret & b & Hl & Hb & Hk & ->).
  rewrite Hb in Hfile. exists secret, (hex_encode (hmac a secret data)). split.
  - unfold cmd_hash. rewrite Ha. eapply run_try; [apply run_ret|]. eapply run_try; [apply run_ret|].
    eapply run_try; [apply run_ret|]. eapply run_try; [|apply run_ret].
    rewrite !bool_decide_eq_false_2 by done. change (default "" (Some path)) with path.
    eapply run_try; [by apply (load_key_file_calm path (Some Hmac) v b)|]. eapply run_try; apply run_ret.
  - rewrite (cmd_verify_local env connect profile domain mfa data' _ (Some path) None alg a (Some "--key-file")
      (hmac_verify a secret data' (hmac a secret data)) v v); [|done|done|].
    + unfold hmac_verify. fold (hmac a secret data'). by destruct (bool_decide _).
    + by apply (verify_with_key_file env connect profile domain mfa data' path b Hmac secret a _ (hmac a secret data) v);
        try done; apply parse_tag_hex.
Qed.

(** *** Tokens *)

Section tokens.
Context {P : Primitives} {L : PrimitiveLaws P} {O : OpsLib} {OL : OpsLaws P O}.

Lemma key_fingerprint_str pk : is_str (key_fingerprint pk).
Proof.
  apply ascii_is_str. unfold key_fingerprint. apply all_chars_substring.
  pose proof (hex_text (digest Sha3_256 pk)) as [_ H]%andb_true_iff. revert H. apply all_chars_impl.
  intros a. by destruct a as [[] [] [] [] [] [] [] []].
Qed.

(** The verifier of a local key is its signer's. *)
Lemma local_signer_verifier k signer kid : local_signer k = Ok (signer, kid) ->
  local_verifier k = Ok (verifier_of signer) /\ forall x, kid = Some x -> is_str x.
Proof.
  unfold local_signer, local_verifier. destruct (lk_type k); [done| |].
  - destruct (op_ed25519_public (lk_secret k)) as [pk|] eqn:E; [|done]. cbn [map_err]. rewrite !bind_Ok. intros [= <- <-].
    unfold op_ed25519_public, ed25519_signing_key in E. destruct (length (lk_secret k) =? 32)%nat; [|done].
    injection E as <-. split; [done|]. intros ? [= <-]. apply key_fingerprint_str.
  - intros [= <- <-]. done.
Qed.
End tokens.

(** C27. A token issued with a local key carries the claims asked for: subject,
    audience and issuer where they are given, the times of issue, end and start,
    an identifier, and every other claim of the command line as it is. It
    verifies with the same key file from a minute before the not-before time
    asked for until a minute after the lifetime asked for has passed since the
    issue (the leeway of [token verify]), whatever the claims given on the
    command line say; it then prints the claims issued. Outside that window
    [token verify] exits with status 1. (Clocks far from the ends of i64.) *)
Theorem issued_token_lifetime {P : Primitives} {L : PrimitiveLaws P} {O : OpsLib} {OL : OpsLaws P O}
    env connect profile domain mfa path sub aud iss ttl nbf claims claims_json extra secs off out w w1
    env' connect' profile' domain' mfa' stdin' v :
  build_claims claims_json claims = Ok extra -> parse_duration ttl = Ok secs ->
  match nbf with Some n => parse_duration n = Ok (default 0 off) /\ is_Some off | None => off = None end ->
  request_ok (MkTokenRequest extra sub aud iss secs off) ->
  run (cmd_token_issue env connect profile domain mfa None (Some path) sub aud iss ttl nbf claims claims_json false) w =
    (Val (Ok out), w1) ->
  0 <= clock w / micros <= 2 ^ 61 -> 0 <= clock v / micros <= 2 ^ 61 -> (forall n, off = Some n -> n <= 2 ^ 61) ->
  faults v = [] -> fs v !! path = fs w !! path ->
  exists tok c, out = println tok /\
    claims_as_asked (MkTokenRequest extra sub aud iss secs off) (clock w / micros) c /\
    run (cmd_token_verify env' connect' profile' domain' mfa' stdin' tok None (Some path) None None) v =
      (Val (Ok (if (clock v / micros <=? clock w / micros + secs + 60) &&
                   match off with Some n => clock w / micros + n <=? clock v / micros + 60 | None => true end
                then print (valid_token_text c) else MkOut [] 1)), v).
Proof.
  intros Hx Ht Hn Hreq H Hcw Hcv Hoff Hf Hfile. unfold cmd_token_issue in H.
  apply run_try_liftR in H as (src & Hsrc & H). injection Hsrc as <-. rewrite Hx in H.
  apply run_try_liftR in H as (x & Hx' & H). injection Hx' as <-. rewrite Ht in H.
  apply run_try_liftR in H as (s & Hs & H). injection Hs as <-.
  apply run_try_liftR in H as (off' & Hoff' & H).
  assert (off' = off) as ->.
  { destruct nbf as [n|]; [|by injection Hoff' as <-]. destruct Hn as [Hn [z ->]]. rewrite Hn in Hoff'. by injection Hoff' as <-. }
  rewrite bool_decide_eq_false_2 in H by done. change (default "" (Some path)) with path in H.
  apply run_try_Ok in H as (resp & w2 & Hi & H). apply run_try_liftR in H as (tok & Htok & H). rewrite run_ret in H. injection H as <- _.
  unfold issue_locally in Hi. apply run_try_Ok in Hi as (k & w3 & Hk & Hi). unfold load_key_file in Hk.
  apply run_try_Ok in Hk as (b & w4 & Hb & Hk). apply run_map_err_Ok in Hb.
  pose proof (touches_run_rest _ _ w (touches_fs_read (fun _ => False) path)) as (_ & Hclock & _). rewrite Hb in Hclock. cbn [snd] in Hclock.
  apply fs_read_Ok in Hb as [Hb _]. unfold liftR in Hk. rewrite run_ret in Hk. injection Hk as Hk <-. apply map_err_Ok in Hk.
  apply run_try_liftR in Hi as ([signer kid] & Hsigner & Hi). apply local_signer_verifier in Hsigner as [Hver Hkid].
  apply run_bind_Val in Hi as (now & w5 & Hnow & Hi). unfold now_unix in Hnow. apply run_bind_Val in Hnow as (t & w6 & Hu & Hnow).
  rewrite run_utc_now in Hu. injection Hu as <- <-. rewrite run_ret in Hnow. injection Hnow as <- <-. rewrite Hclock in Hi.
  apply run_bind_Val in Hi as (jti & w5 & Hj & Hi). rewrite run_draw in Hj. injection Hj as <- <-.
  apply run_try_liftR in Hi as (c & Hc & Hi). apply map_err_Ok in Hc. apply run_try_liftR in Hi as (tk & Htk & Hi). apply map_err_Ok in Htk.
  rewrite run_ret in Hi. injection Hi as <- _. injection Htok as <-.
  destruct (token_lifetime _ _ _ c signer kid tk (clock v / micros) Hc Hreq Hcw Hcv Hoff Hkid Htk) as (_ & Hiff & Honly).
  exists tk, c. split; [done|]. split; [by eapply token_claims_asked|]. cbn [tr_ttl_secs tr_not_before_secs] in Hiff. unfold cmd_token_verify.
  assert (Htok : String.eqb tk "-" = false).
  { apply token_issue_parts in Htk as (sig & -> & _). apply String.eqb_neq. intros E. apply (f_equal String.length) in E.
    rewrite !string_app_length in E. pose proof (b64url_nonempty _ (json_vec_nonempty (JObj (token_head signer kid)))) as Hne.
    destruct (b64url_encode _) as [|x h]; [done|]. cbn in E. lia. }
  rewrite Htok. eapply run_try; [apply run_ret|]. eapply run_then; [unfold now_unix; eapply run_then; [apply run_utc_now|apply run_ret]|].
  eapply run_try.
  - unfold verify_token_with. rewrite !bool_decide_eq_false_2 by done. change (default "" (Some path)) with path.
    eapply run_try; [apply (load_key_file_calm path (Some Hmac) v b k); congruence|]. eapply run_try; [unfold liftR; rewrite Hver; apply run_ret|].
    apply run_ret.
  - rewrite run_ret. do 3 f_equal. set (window := _ && _).
    assert (Hw : window = true <-> token_verify tk (verifier_of signer) (clock v / micros) None = Ok c).
    { rewrite Hiff. unfold window. rewrite andb_true_iff, Z.leb_le. destruct off as [n|].
      - rewrite Z.leb_le. split; [intros [H1 H2]; split; [done|by intros ? [= <-]]|intros [H1 H2]; split; [done|by apply H2]].
      - by split; intros [H1 _]. }
    destruct window; [by rewrite (proj1 Hw eq_refl)|].
    destruct (token_verify tk (verifier_of signer) (clock v / micros) None) as [c'|] eqn:E; [|done].
    by rewrite (Honly c' eq_refl) in Hw; destruct Hw as [_ Hw]; specialize (Hw eq_refl).
Qed.

(** ** Concrete runs *)

Definition bad_body : Response := err 400 "bad_request" "Json deserialize error".
Definition no_route : Response := err 404 "not_found" "".

Definition to_keys (client : AuthenticatedClient) : Session -> option string -> option string -> result ClientError KeyApi :=
  fun _ _ mfa => Ok (blackbook_keys bad_body no_route toy_state client (MkDomainQuery None) (MkHeaders None mfa)).

(** The toy server with a key [app-k], and the toy profile's files. *)
Definition crypto_world : World := Eval vm_compute in set_fs (fs toy_saved) keyed_world.

#[local] Abbreviation stdin_input := (MkInput None None).
#[local] Abbreviation toy_data := (as_bytes "attack at dawn").
#[local] Abbreviation toy_encrypt_run key cmk w :=
  (run (cmd_encrypt (toy_home None) (to_keys alice) "dev" None None toy_data stdin_input key cmk None false (Some "ctx") None) w).
#[local] Abbreviation toy_decrypt_run out key w :=
  (run (cmd_decrypt (toy_home (Some "one")) (to_keys alice) "dev" None None (out_stdout out) stdin_input key None (Some "ctx") None) w).

Definition output_of (o : outcome (result AppError Output)) : Output :=
  match o with Val (Ok out) => out | _ => MkOut [] (-1) end.

Definition cmk_out : Output := Eval vm_compute in output_of (toy_encrypt_run None true toy_saved).1.

(** Half an hour later the agent has forgotten the profile's key and the
    passphrase unlocks it. *)
Lemma local_encrypt_then_decrypt_witness :
  starts_with CMK_PREFIX (of_bytes (out_stdout cmk_out)) = true /\
  (toy_decrypt_run cmk_out None (later 2000 toy_saved)).1 = Val (Ok (MkOut toy_data 0)).
Proof.
  split; [vm_compute; reflexivity|].
  apply (local_encrypt_then_decrypt (toy_home None) (to_keys alice) "dev" None None toy_data stdin_input true None false
    (Some "ctx") toy_data cmk_out toy_saved toy_saved (toy_encrypt_run None true toy_saved).2 (toy_home (Some "one"))
    (to_keys alice) "dev" None None None None (later 2000 toy_saved)).
  - reflexivity.
  - vm_compute. reflexivity.
  - split; [|split; discriminate]. intros _. exists (be_bytes 32 5). split; vm_compute; reflexivity.
Defined.

Definition managed_run : outcome (result AppError Output) * World :=
  Eval vm_compute in toy_encrypt_run (Some "app-k") false crypto_world.
Definition managed_rotated : World * list (M Response) :=
  interleave (concat (replicate 40 [0; 1; 2]%nat)) (managed_run.2, key_request toy_state <$> toy_rotations).
Definition managed_reading : outcome (KeyRow * AclDecision) * World :=
  Eval vm_compute in run (begin_op toy_state alice no_headers' (MkDomainQuery None) "app-k" "decrypt" [Aes256Gcm] (fun _ => true))
    (run (load_named (toy_home (Some "one")) "dev") managed_rotated.1).2.

Lemma managed_encrypt_then_decrypt_witness :
  (k_latest <$> keys (db managed_rotated.1)) = [3; 1] /\
  (toy_decrypt_run (output_of managed_run.1) (Some "app-k") managed_rotated.1).1 = Val (Ok (MkOut toy_data 0)).
Proof.
  split; [vm_compute; reflexivity|].
  apply (managed_encrypt_then_decrypt bad_body no_route toy_state (toy_home None) (to_keys alice) "dev" None None toy_session alice
    (MkDomainQuery None) no_headers' "d-default" toy_data stdin_input "app-k" (Some "ctx") toy_data (output_of managed_run.1)
    crypto_world crypto_world (run (load_named (toy_home None) "dev") crypto_world).2 managed_run.2 toy_rotations
    managed_rotated.1 managed_rotated.2 (toy_home (Some "one")) (to_keys alice) "dev" None None toy_session alice
    (MkDomainQuery None) no_headers' (run (load_named (toy_home (Some "one")) "dev") managed_rotated.1).2
    (match managed_reading.1 with Val (kr, _) => kr | _ => key_row "" (MkKey "" [] "" "" "" 0 (MkKeyPolicy false) 0 0) Hmac end)
    (match managed_reading.1 with Val (_, dec) => dec | _ => Denied end) managed_reading.2).
  1: reflexivity. 1: vm_compute; reflexivity. 1: reflexivity.
  1: exact keyed_world_wf.
  1-2: vm_compute; reflexivity.
  - intros c Hc. repeat (apply elem_of_cons in Hc as [->|Hc]; [reflexivity|]). by apply not_elem_of_nil in Hc.
  - rewrite <- surjective_pairing. apply interleave_steps.
  - vm_compute. reflexivity.
  - reflexivity.
  - vm_compute. reflexivity.
  - vm_compute. reflexivity.
  - vm_compute. reflexivity.
Defined.

#[local] Abbreviation toy_keygen t format := (run (cmd_keygen t "k" format false) toy_desk).

Lemma generated_key_signs_witness : exists pk sig tag,
  output_of (toy_keygen "ed25519" "pem").1 = print (public_key_text pk) /\ parse_tag sig = Ok tag /\
  run (cmd_sign (toy_home None) (to_keys alice) "dev" None None toy_data stdin_input None (Some "k")) (toy_keygen "ed25519" "pem").2 =
    (Val (Ok (println sig)), (toy_keygen "ed25519" "pem").2) /\
  run (cmd_verify (toy_home None) (to_keys bob) "dev" None None toy_data stdin_input sig None None (Some "pub") "sha3-256")
    (set_fs (<["pub" := as_bytes (ed25519_public_pem pk)]> ∅) toy_desk) =
    (Val (Ok (println "✓ valid")), set_fs (<["pub" := as_bytes (ed25519_public_pem pk)]> ∅) toy_desk).
Proof.
  destruct (generated_key_signs (toy_home None) (to_keys alice) "dev" None None "ed25519" "k" "pem" false toy_data toy_desk
    (output_of (toy_keygen "ed25519" "pem").1) (toy_keygen "ed25519" "pem").2 (toy_keygen "ed25519" "pem").2)
    as (pk & sig & tag & Ho & Htag & Hsign & Hver).
  1: vm_compute; reflexivity. 1-2: reflexivity. 1: discriminate. 1-2: vm_compute; reflexivity.
  exists pk, sig, tag. split; [exact Ho|]. split; [exact Htag|]. split; [exact Hsign|].
  destruct (Hver "sha3-256" Sha3_256 eq_refl) as [_ Hpub].
  rewrite (Hpub (toy_home None) (to_keys bob) "dev" None None "pub" toy_data
    (set_fs (<["pub" := as_bytes (ed25519_public_pem pk)]> ∅) toy_desk)); [|reflexivity|apply lookup_insert_eq].
  by rewrite bool_decide_eq_true_2.
Defined.

#[local] Abbreviation toy_issue :=
  (run (cmd_token_issue (toy_home None) (to_keys alice) "dev" None None None (Some "k") (Some "alice") None None "1h" (Some "5m") [] None false)
    (toy_keygen "hmac" "json").2).

(** Issued at second 1000 for an hour, from second 1300; presented at second 3000. *)
Lemma issued_token_lifetime_witness : exists tok c,
  output_of toy_issue.1 = println tok /\ obj_get "sub" c = Some (JStr "alice") /\ obj_get "exp" c = Some (JNum 4600) /\
  run (cmd_token_verify (toy_home None) (to_keys alice) "dev" None None [] tok None (Some "k") None None) (later 2000 toy_issue.2) =
    (Val (Ok (print (valid_token_text c))), later 2000 toy_issue.2).
Proof.
  assert (Hrun : toy_issue = (Val (Ok (output_of toy_issue.1)), toy_issue.2)) by (vm_compute; reflexivity).
  assert (Hnow : clock (later 2000 toy_issue.2) / micros = 3000) by (vm_compute; reflexivity).
  destruct (issued_token_lifetime (toy_home None) (to_keys alice) "dev" None None "k" (Some "alice") None None "1h" (Some "5m")
    [] None [] 3600 (Some 300) (output_of toy_issue.1) (toy_keygen "hmac" "json").2 toy_issue.2
    (toy_home None) (to_keys alice) "dev" None None [] (later 2000 toy_issue.2)) as (tok & c & Ho & Hc & Hv).
  1-2: reflexivity. 1: split; [reflexivity|by eexists].
  1: repeat split; vm_compute; reflexivity. 1: exact Hrun. 1: vm_compute; split; discriminate.
  1: rewrite Hnow; lia. 1: intros ? [= <-]; lia. 1-2: vm_compute; reflexivity.
  exists tok, c. split; [exact Ho|]. destruct Hc as (Hsub & _ & _ & _ & Hexp & _).
  split; [exact Hsub|]. split; [exact Hexp|]. rewrite Hv, Hnow. reflexivity.
Defined.
