(* ===== verification/Client.v ===== *)
(** The HTTP client of [src/src/client.rs]: what each call sends and what it
    makes of the answer. reqwest, TLS and the network are the field [bb_http]
    of a client: a function from a request to the server's answer. The key calls
    over their own interface are in [KeyClient.v]. *)
From stdpp Require Import pretty.
From S2P Require Import Prelude Text Unicode AccessRules Crypto Store Effects ServerBase Auth CryptoOps Admin Threshold Secrets Archive Keys Files CredStore Session External ClientSecrets KeyClient.

(** ** Requests *)

Inductive Method := GET | POST | PUT | DELETE.
#[export] Instance Method_eq : EqDecision Method.
Proof. solve_decision. Defined.

Inductive Payload := NoPayload | JsonPayload (j : Json) | BytesPayload (b : bytes).

(** [rq_query] holds the pairs given to [RequestBuilder::query]; a query string
    may already be in the URL. *)
Record Request := MkRequest {
  rq_method : Method;
  rq_url : string;
  rq_query : list (string * string);
  rq_headers : list (string * string);
  rq_payload : Payload;
}.

Record BlackbookClient := MkClient {
  bb_http : Request -> M (result ClientError Response);
  bb_server : string;
  bb_token : option string;
  bb_domain : string;
  bb_mfa : option string;
}.

Definition with_domain (bb : BlackbookClient) (d : string) : BlackbookClient :=
  MkClient (bb_http bb) (bb_server bb) (bb_token bb) d (bb_mfa bb).
Definition with_mfa (bb : BlackbookClient) (c : string) : BlackbookClient :=
  MkClient (bb_http bb) (bb_server bb) (bb_token bb) (bb_domain bb) (Some c).

(** ** Connecting *)

(** The url and std::net libraries, as far as [redirect_loopback] uses them. *)
Class UrlLib := {
  Url : Set;
  url_parse : string -> option Url;
  host_str : Url -> option string;
  url_port : Url -> option Z;
  set_host : Url -> string -> option Url;
  set_port : Url -> Z -> option Url;
  url_as_str : Url -> string;
  ip_is_loopback : string -> option bool;   (* [None]: not an address *)
}.

Definition redirect_loopback {U : UrlLib} (server : string) (alias : option string) : string :=
  let server := trim_end_char "/" server in
  match nonempty (option_map trim alias) with
  | None => server
  | Some alias =>
      match url_parse server with
      | None => server
      | Some url =>
          let loopback :=
            match host_str url with
            | Some h => String.eqb h "localhost"
                        || default false (ip_is_loopback (trim_end_char "]" (trim_start_char "[" h)))
            | None => false
            end in
          if negb loopback then server
          else
            let alias_url := if is_set (String.index 0 "://" alias) then alias else "https://" +:+ alias in
            match url_parse alias_url with
            | Some target =>
                match host_str target with
                | Some h =>
                    match set_host url h with
                    | Some url =>
                        let url := match url_port target with Some p => default url (set_port url p) | None => url end in
                        trim_end_char "/" (url_as_str url)
                    | None => server
                    end
                | None => server
                end
            | None => server
            end
      end
  end.

Definition no_ca : ClientError :=
  TlsConfig "this profile has no pinned Blackbook CA; run `bbk login` again with a full credential bundle".

(** [http] is [tls_config] and [reqwest::ClientBuilder]: rustls and reqwest, for
    a CA, a certificate and a key. *)
Definition from_session {U : UrlLib} (env : Environment)
    (http : string -> option string -> option string -> result ClientError (Request -> M (result ClientError Response)))
    (session : Session) : result ClientError BlackbookClient :=
  ca_pem ← ok_or no_ca (se_ca_pem session);
  http ← http ca_pem (se_cert_pem session) (se_key_pem session);
  Ok (MkClient http (redirect_loopback (se_server session) (env_var env "BLACKBOOK_LOOPBACK_SERVER"))
        (se_token session) "default" None).

(** ** Building requests *)

(** Uppercase hexadecimal. *)
Definition hex_upper (n : Z) : Ascii.ascii := ascii_of_nat (Z.to_nat (if n <? 10 then 48 + n else 55 + n)).

Definition unreserved (a : Ascii.ascii) : bool :=
  is_digit a || ((97 <=? code a) && (code a <=? 122)) || ((65 <=? code a) && (code a <=? 90))
  || Ascii.eqb a "-"%char || Ascii.eqb a "_"%char || Ascii.eqb a "."%char || Ascii.eqb a "~"%char.

Fixpoint urlencoding_simple (s : string) : string :=
  match s with
  | "" => ""
  | String a s' =>
      if unreserved a then String a (urlencoding_simple s')
      else String "%" (String (hex_upper (code a / 16)) (String (hex_upper (code a mod 16)) (urlencoding_simple s')))
  end.

Section building.
Context (bb : BlackbookClient).

(** The bearer token and the MFA code, when there are any. *)
Definition auth_headers : list (string * string) :=
  match bb_token bb with Some t => [("Authorization", "Bearer " +:+ t)] | None => [] end
  ++ match bb_mfa bb with Some c => [("X-Blackbook-MFA", c)] | None => [] end.

Definition req (m : Method) (path : string) : Request := MkRequest m (bb_server bb +:+ path) [] auth_headers NoPayload.

(** The default domain is left to the server. *)
Definition req_in_domain (m : Method) (path : string) : Request :=
  if String.eqb (bb_domain bb) "default" then req m path
  else
    let sep := if has_char "?"%char path then "&" else "?" in
    MkRequest m (bb_server bb +:+ path +:+ sep +:+ "domain=" +:+ urlencoding_simple (bb_domain bb)) [] auth_headers NoPayload.
End building.

Definition json_body (r : Request) (j : Json) : Request :=
  MkRequest (rq_method r) (rq_url r) (rq_query r) (rq_headers r) (JsonPayload j).
Definition bytes_body (r : Request) (b : bytes) : Request :=
  MkRequest (rq_method r) (rq_url r) (rq_query r) (rq_headers r) (BytesPayload b).
Definition add_query (r : Request) (qs : list (string * string)) : Request :=
  MkRequest (rq_method r) (rq_url r) (rq_query r ++ qs) (rq_headers r) (rq_payload r).
Definition add_header (r : Request) (k : string) (v : option string) : Request :=
  match v with
  | Some v => MkRequest (rq_method r) (rq_url r) (rq_query r) (rq_headers r ++ [(k, v)]) (rq_payload r)
  | None => r
  end.

(** ** Answers *)

Definition i64_member (k : string) (j : Json) : option Z := member k j ≫= as_i64.
Definition as_i32 (j : Json) : option Z := match j with JNum z => in_range (- 2 ^ 31) (2 ^ 31 - 1) z | _ => None end.
Definition strs_member (k : string) (j : Json) : option (list string) := member k j ≫= as_list as_str.

(** [#[serde(default)]] on integers and strings: null is an error. *)
Definition default_member {A} (d : A) (f : Json -> option A) (k : string) (j : Json) : option A :=
  match member k j with None => Some d | Some v => f v end.

Record WhoamiView := MkWhoamiView {
  wv_id : string; wv_name : string; wv_role : string; wv_auth_method : string; wv_user_domain : option string;
}.
Definition whoami_from_json (j : Json) : option WhoamiView :=
  i ← str_member "id" j; n ← str_member "name" j; r ← str_member "role" j; a ← str_member "auth_method" j;
  u ← opt_member as_str "user_domain" j; Some (MkWhoamiView i n r a u).

Record DeleteView := MkDeleteView { dv_deleted : bool; dv_resource_id : string; dv_deleted_at : string }.
Definition delete_from_json (j : Json) : option DeleteView :=
  d ← match member "deleted" j with Some (JBool b) => Some b | _ => None end;
  i ← str_member "resource_id" j; a ← str_member "deleted_at" j; Some (MkDeleteView d i a).

Definition flags_view_from_json (j : Json) : option ResourceFlags :=
  _ ← as_object j;
  m ← bool_member "mfa_required" j; d ← bool_member "delete_on_read" j; x ← opt_member as_i64 "max_reads" j;
  r ← bool_member "rotate_on_read" j; p ← bool_member "preserve_on_cleanup" j; n ← bool_member "no_overwrite" j;
  Some (MkFlags m d x r p n).

Record ResourceSummary := MkResource {
  rs_id : string; rs_name : string; rs_created_at : string; rs_updated_at : string; rs_exhausted_at : option string;
  rs_external : bool; rs_read_count : Z; rs_flags : ResourceFlags; rs_threshold_k : option Z;
  rs_signatory_count : option Z;
}.
Definition resource_from_json (j : Json) : option ResourceSummary :=
  i ← str_member "resource_id" j; n ← str_member "resource_name" j; c ← str_member "created_at" j;
  u ← str_member "updated_at" j; e ← opt_member as_str "exhausted_at" j; x ← bool_member "external" j;
  r ← default_member 0 as_i64 "read_count" j; f ← default_member default_flags flags_view_from_json "flags" j;
  k ← opt_member as_i64 "threshold_k" j; s ← opt_member (as_uint u64_max) "signatory_count" j;
  Some (MkResource i n c u e x r f k s).

(** A list response: the items under their own name, and their number. *)
Definition counted {A} (item : Json -> option A) (name : string) (j : Json) : option (list A * Z) :=
  l ← member name j ≫= as_list item; c ← uint_member u64_max "count" j; Some (l, c).
Definition list_from_json : Json -> option (list ResourceSummary * Z) := counted resource_from_json "resources".

Record CleanupView := MkCleanup {
  cv_deleted : Z; cv_secrets_deleted : Z; cv_files_deleted : Z; cv_preserved : Z; cv_names : list string;
}.
Definition cleanup_from_json (j : Json) : option CleanupView :=
  d ← uint_member u64_max "deleted" j; s ← default_member 0 (as_uint u64_max) "secrets_deleted" j;
  f ← default_member 0 (as_uint u64_max) "files_deleted" j; p ← i64_member "preserved" j; n ← strs_member "names" j;
  Some (MkCleanup d s f p n).

Record Health := MkHealth { hv_status : string; hv_database : string; hv_version : string; hv_uptime : Z }.
Definition health_from_json (j : Json) : option Health :=
  s ← str_member "status" j; d ← str_member "database" j; v ← str_member "version" j;
  u ← uint_member u64_max "uptime" j; Some (MkHealth s d v u).

Record NewClientView := MkNewClientView {
  nv_id : string; nv_name : string; nv_role : string; nv_token : string; nv_cert_pem : string; nv_key_pem : string;
  nv_expires_at : string; nv_user_domain : string;
}.
Definition new_client_from_json (j : Json) : option NewClientView :=
  i ← str_member "id" j; n ← str_member "name" j; r ← str_member "role" j; t ← str_member "token" j;
  c ← str_member "cert_pem" j; k ← str_member "key_pem" j; e ← str_member "expires_at" j;
  u ← default_member "" as_str "user_domain" j; Some (MkNewClientView i n r t c k e u).

Record ClientSummary := MkClientSummary {
  cs_id : string; cs_name : string; cs_role : string; cs_created_at : string; cs_expires_at : option string;
  cs_revoked_at : option string;
}.
Definition client_from_json (j : Json) : option ClientSummary :=
  i ← str_member "id" j; n ← str_member "name" j; r ← str_member "role" j; c ← str_member "created_at" j;
  e ← opt_member as_str "expires_at" j; v ← opt_member as_str "revoked_at" j; Some (MkClientSummary i n r c e v).

Record AclSummary := MkAclSummary {
  as_id : string; as_domain : string; as_client_name : option string; as_group_domain : option string;
  as_pattern : string; as_actions : list string; as_granted_at : string; as_expires_at : option string;
  as_not_before : option string; as_max_uses : option Z; as_use_count : Z; as_rate_max : option Z;
  as_rate_period_secs : option Z; as_schedule : option string;
}.
Definition acl_from_json (j : Json) : option AclSummary :=
  i ← str_member "id" j; d ← str_member "domain" j; c ← opt_member as_str "client_name" j;
  g ← opt_member as_str "group_domain" j; p ← str_member "resource_pattern" j; a ← strs_member "actions" j;
  ga ← str_member "granted_at" j; e ← opt_member as_str "expires_at" j; nb ← opt_member as_str "not_before" j;
  m ← opt_member as_i32 "max_uses" j; u ← i32_member "use_count" j; rm ← opt_member as_i32 "rate_max" j;
  rp ← opt_member as_i32 "rate_period_secs" j; s ← opt_member as_str "schedule" j;
  Some (MkAclSummary i d c g p a ga e nb m u rm rp s).

Record AuditEntry := MkAuditEntry {
  ae_id : Z; ae_ts : string; ae_client_id : option string; ae_client_name : option string; ae_action : string;
  ae_resource : option string; ae_status : string; ae_message : option string;
}.
Definition audit_from_json (j : Json) : option AuditEntry :=
  i ← i64_member "id" j; t ← str_member "ts" j; c ← opt_member as_str "client_id" j;
  n ← opt_member as_str "client_name" j; a ← str_member "action" j; r ← opt_member as_str "resource" j;
  s ← str_member "status" j; m ← opt_member as_str "message" j; Some (MkAuditEntry i t c n a r s m).

Definition file_from_json (j : Json) : option FileSummary :=
  i ← str_member "id" j; n ← str_member "name" j; o ← str_member "owner" j; z ← i64_member "size" j;
  m ← opt_member as_str "mime_type" j; h ← str_member "content_hash" j; c ← str_member "created_at" j;
  u ← str_member "updated_at" j; x ← default_member "" as_str "external" j;
  r ← default_member 0 as_i64 "read_count" j; f ← default_member default_flags flags_view_from_json "flags" j;
  e ← opt_member as_str "exhausted_at" j; k ← opt_member as_i64 "threshold_k" j;
  s ← opt_member (as_uint u64_max) "signatory_count" j;
  Some (MkFileSummary i n o z m h c u x r f e k (Z.to_nat <$> s)).

Record AccessRequestSummary := MkAccessRequest {
  rq_id : string; rq_requester : string; rq_resource_kind : string; rq_domain : string; rq_resource_name : string;
  rq_threshold_k : Z; rq_signatories : list string; rq_approvers : list string; rq_created_at : string;
  rq_expires_at : string; rq_consumed_at : option string; rq_status : string;
}.
Definition access_request_from_json (j : Json) : option AccessRequestSummary :=
  i ← str_member "id" j; r ← str_member "requester" j; k ← str_member "resource_kind" j; d ← str_member "domain" j;
  n ← str_member "resource_name" j; t ← i32_member "threshold_k" j; s ← strs_member "signatories" j;
  a ← strs_member "approvers" j; c ← str_member "created_at" j; e ← str_member "expires_at" j;
  x ← opt_member as_str "consumed_at" j; st ← str_member "status" j;
  Some (MkAccessRequest i r k d n t s a c e x st).

Record AccessGrantSummary := MkAccessGrant {
  gs_id : string; gs_signatory : string; gs_grantee : string; gs_domain : string; gs_resource_kind : string;
  gs_pattern : string; gs_max_uses : option Z; gs_use_count : Z; gs_not_before : option string;
  gs_expires_at : string; gs_created_at : string; gs_revoked : bool;
}.
Definition access_grant_from_json (j : Json) : option AccessGrantSummary :=
  i ← str_member "id" j; s ← str_member "signatory" j; g ← str_member "grantee" j; d ← str_member "domain" j;
  k ← str_member "resource_kind" j; p ← str_member "pattern" j; m ← opt_member as_i32 "max_uses" j;
  u ← i32_member "use_count" j; nb ← opt_member as_str "not_before" j; e ← str_member "expires_at" j;
  c ← str_member "created_at" j; r ← match member "revoked" j with Some (JBool b) => Some b | _ => None end;
  Some (MkAccessGrant i s g d k p m u nb e c r).

Record GrantAddOpts := MkGrantAdd {
  ga_kind : string; ga_uses : option Z; ga_ttl_hours : option Z; ga_expires : option string; ga_from : option string;
}.

Record MfaEnrollView := MkMfaEnroll { me_provisioning_uri : string; me_secret_base32 : string; me_instructions : string }.
Definition mfa_enroll_from_json (j : Json) : option MfaEnrollView :=
  p ← str_member "provisioning_uri" j; s ← str_member "secret_base32" j; i ← str_member "instructions" j;
  Some (MkMfaEnroll p s i).

Record DomainSummary := MkDomainSummary {
  ds_id : string; ds_name : string; ds_description : option string; ds_created_at : string;
}.
Definition domain_from_json (j : Json) : option DomainSummary :=
  i ← str_member "id" j; n ← str_member "name" j; d ← opt_member as_str "description" j; c ← str_member "created_at" j;
  Some (MkDomainSummary i n d c).

Record MemberSummary := MkMemberSummary { ms_client_name : string; ms_role : string; ms_added_at : string }.
Definition member_from_json (j : Json) : option MemberSummary :=
  c ← str_member "client_name" j; r ← str_member "role" j; a ← str_member "added_at" j; Some (MkMemberSummary c r a).

Record FilePutOpts := MkFilePut {
  fp_mime : option string;
  fp_flags : ResourceFlags;
  fp_overwrite : bool;
  fp_quorum : option Z;
  fp_signatories : list string;
  fp_external : bool;
  fp_external_meta : option string;
  fp_resident : bool;
  fp_key_component : option string;
  fp_server_copy : bool;
}.

Record FileDownload := MkDownload {
  dl_bytes : bytes;
  dl_content_type : option string;
  dl_external_meta : option string;
  dl_key_component : option string;
  dl_resident : bool;
}.

(** ** Calls *)

Section calls.
Context {P : Primitives} {O : OpsLib}.

Definition handle {T} (parse : Json -> option T) (sent : M (result ClientError Response)) : M (result ClientError T) :=
  r ←? sent; mret (handle_response parse r).

(** [headers().get(name)]: names compare without case. *)
Definition header (name : string) (r : Response) : option string :=
  snd <$> List.find (fun kv : string * string => String.eqb (to_ascii_lowercase kv.1) (to_ascii_lowercase name)) (resp_headers r).

(** What a body holds as bytes. *)
Definition body_bytes (b : Body) : bytes :=
  match b with JsonBody j => json_to_vec j | TextBody t => as_bytes t | BinBody d => d end.

Definition handle_download (sent : M (result ClientError Response)) : M (result ClientError FileDownload) :=
  r ←? sent;
  mret (if is_success (resp_status r) then
          Ok (MkDownload (body_bytes (resp_body r)) (header "Content-Type" r)
                (match header "X-Blackbook-External" r with
                 | Some _ => Some (default "" (header "X-Blackbook-External-Meta" r))
                 | None => None
                 end)
                (header "X-Blackbook-Key-Component" r)
                (match header "X-Blackbook-Resident" r with Some _ => true | None => false end))
        else
          Err (Api (resp_status r) (default (body_text (resp_body r)) (body_json (resp_body r) ≫= api_error_message)))).

Context (bb : BlackbookClient).

Abbreviation send := (bb_http bb).
Abbreviation rq := (req bb).
Abbreviation rq_dom := (req_in_domain bb).
Abbreviation seg := urlencoding_simple.

Definition bb_tunnel_offer (target : string) : M (result ClientError string) :=
  v ←? handle as_value (send (json_body (rq POST "/api/v1/tunnels") (JObj [("target", JStr target)])));
  liftR (ok_or (Api 500 "no tunnel_id in response") (str_member "tunnel_id" v)).
Definition bb_tunnel_list : M (result ClientError Json) := handle as_value (send (rq GET "/api/v1/tunnels")).

Definition bb_health : M (result ClientError Health) := handle health_from_json (send (rq GET "/health")).
Definition bb_whoami : M (result ClientError WhoamiView) := handle whoami_from_json (send (rq GET "/api/v1/whoami")).

(** Flags that are off are not written. *)
Definition flag_field (k : string) (b : bool) : list (string * Json) := if b then [(k, JBool true)] else [].
Definition flags_to_json (f : ResourceFlags) : Json :=
  JObj (flag_field "delete_on_read" (delete_on_read f) ++ some_field "max_reads" JNum (max_reads f)
        ++ flag_field "mfa_required" (mfa_required f) ++ flag_field "no_overwrite" (no_overwrite f)
        ++ flag_field "preserve_on_cleanup" (preserve_on_cleanup f) ++ flag_field "rotate_on_read" (rotate_on_read f)).
Definition policy_to_json (p : AccessPolicy) : Json :=
  JObj [("signatories", JArr (map JStr (signatories p))); ("threshold_k", JNum (threshold_k p))].

Definition store_body (name data : string) (flags : option ResourceFlags) (policy : option AccessPolicy) (overwrite : bool)
    (external : option string) : Json :=
  JObj [("access_policy", opt_json policy_to_json policy); ("data", JStr data); ("description", JNull);
        ("external", opt_json JStr external); ("flags", opt_json flags_to_json flags);
        ("overwrite", JBool overwrite); ("resource_name", JStr name)].
Definition bb_store_inner (name data : string) (flags : option ResourceFlags) (policy : option AccessPolicy)
    (overwrite : bool) (external : option string) : M (result ClientError StoreResponse) :=
  handle stored_from_json
    (send (json_body (rq_dom POST "/api/v1/store") (store_body name data flags policy overwrite external))).
Definition bb_store (name data : string) (flags : option ResourceFlags) (policy : option AccessPolicy) (overwrite : bool) :
    M (result ClientError StoreResponse) := bb_store_inner name data flags policy overwrite None.
Definition bb_store_external (name envelope_b64 : string) (flags : option ResourceFlags) (policy : option AccessPolicy)
    (overwrite : bool) : M (result ClientError StoreResponse) :=
  bb_store_inner name "" flags policy overwrite (Some envelope_b64).
Definition bb_retrieve_with_request (id_or_name : string) (request_id : option string) :
    M (result ClientError RetrieveResponse) :=
  handle retrieved_from_json
    (send (add_header (json_body (rq_dom POST "/api/v1/retrieve") (JObj [("resource_id", JStr id_or_name)]))
             "X-Blackbook-Request-Id" request_id)).

Definition bb_approve_request (id : string) : M (result ClientError Json) :=
  handle as_value (send (rq POST ("/api/v1/access-requests/" +:+ seg id +:+ "/approve"))).
Definition bb_list_access_requests : M (result ClientError (list AccessRequestSummary * Z)) :=
  handle (counted access_request_from_json "requests") (send (rq GET "/api/v1/access-requests")).
Definition bb_get_access_request (id : string) : M (result ClientError AccessRequestSummary) :=
  handle access_request_from_json (send (rq GET ("/api/v1/access-requests/" +:+ seg id))).

Definition grant_body (grantee pattern : string) (o : GrantAddOpts) : Json :=
  JObj [("expires_at", opt_json JStr (ga_expires o)); ("grantee", JStr grantee); ("max_uses", opt_json JNum (ga_uses o));
        ("not_before", opt_json JStr (ga_from o)); ("pattern", JStr pattern);
        ("resource_kind", JStr (if String.eqb (ga_kind o) "" then "secret" else ga_kind o));
        ("ttl_hours", opt_json JNum (ga_ttl_hours o))].
Definition bb_create_access_grant (grantee pattern : string) (o : GrantAddOpts) : M (result ClientError Json) :=
  handle as_value (send (json_body (rq_dom POST "/api/v1/access-grants") (grant_body grantee pattern o))).
Definition bb_list_access_grants : M (result ClientError (list AccessGrantSummary * Z)) :=
  handle (counted access_grant_from_json "grants") (send (rq GET "/api/v1/access-grants")).
Definition bb_revoke_access_grant (id : string) : M (result ClientError Json) :=
  handle as_value (send (rq DELETE ("/api/v1/access-grants/" +:+ seg id))).

Definition bb_mfa_enroll : M (result ClientError MfaEnrollView) :=
  handle mfa_enroll_from_json (send (rq POST "/api/v1/mfa/enroll")).
Definition bb_mfa_verify (code : string) : M (result ClientError Json) :=
  handle as_value (send (json_body (rq POST "/api/v1/mfa/verify") (JObj [("code", JStr code)]))).

Definition bb_cleanup : M (result ClientError CleanupView) :=
  handle cleanup_from_json (send (rq_dom POST "/api/v1/cleanup")).
Definition bb_delete (id_or_name : string) : M (result ClientError DeleteView) :=
  handle delete_from_json
    (send (json_body (rq_dom POST "/api/v1/delete") (JObj [("confirm", JBool true); ("resource_id", JStr id_or_name)]))).
Definition bb_list : M (result ClientError (list ResourceSummary * Z)) :=
  handle list_from_json (send (rq_dom GET "/api/v1/list")).

(** *** Files *)

Definition flag_pair (k : string) (b : bool) : list (string * string) := if b then [(k, "true")] else [].
Definition some_pair (k : string) (o : option string) : list (string * string) :=
  match o with Some v => [(k, v)] | None => [] end.

Definition file_put_query (o : FilePutOpts) : list (string * string) :=
  (if String.eqb (bb_domain bb) "default" then [] else [("domain", bb_domain bb)])
  ++ flag_pair "mfa_required" (mfa_required (fp_flags o)) ++ flag_pair "delete_on_read" (delete_on_read (fp_flags o))
  ++ some_pair "max_reads" (show_Z <$> max_reads (fp_flags o)) ++ flag_pair "rotate_on_read" (rotate_on_read (fp_flags o))
  ++ flag_pair "preserve_on_cleanup" (preserve_on_cleanup (fp_flags o))
  ++ flag_pair "no_overwrite" (no_overwrite (fp_flags o)) ++ flag_pair "overwrite" (fp_overwrite o)
  ++ some_pair "quorum" (show_Z <$> fp_quorum o)
  ++ match fp_signatories o with [] => [] | l => [("signatories", String.concat "," l)] end
  ++ flag_pair "external" (fp_external o) ++ some_pair "meta" (fp_external_meta o)
  ++ flag_pair "resident" (fp_resident o) ++ some_pair "key_component" (fp_key_component o)
  ++ flag_pair "server_copy" (fp_server_copy o).

Definition bb_file_put (name : string) (body : bytes) (o : FilePutOpts) : M (result ClientError FileSummary) :=
  handle file_from_json
    (send (add_header (bytes_body (add_query (rq PUT ("/api/v1/files/" +:+ seg name)) (file_put_query o)) body)
             "Content-Type" (fp_mime o))).
Definition bb_file_get_download (name : string) (request_id : option string) : M (result ClientError FileDownload) :=
  handle_download
    (send (add_header (rq_dom GET ("/api/v1/files/" +:+ seg name)) "X-Blackbook-Request-Id" request_id)).
Definition bb_file_delete (name : string) : M (result ClientError Json) :=
  handle as_value (send (rq_dom DELETE ("/api/v1/files/" +:+ seg name))).
Definition bb_file_list : M (result ClientError (list FileSummary * Z)) :=
  handle (counted file_from_json "files") (send (rq_dom GET "/api/v1/files")).
Definition bb_file_rotate (name : string) : M (result ClientError Json) :=
  handle as_value (send (rq_dom POST ("/api/v1/files/" +:+ seg name +:+ "/rotate"))).

(** *** Domains *)

Definition bb_create_domain (name : string) (description : option string) : M (result ClientError Json) :=
  handle as_value
    (send (json_body (rq POST "/api/v1/domains") (JObj [("description", opt_json JStr description); ("name", JStr name)]))).
Definition bb_list_domains : M (result ClientError (list DomainSummary * Z)) :=
  handle (counted domain_from_json "domains") (send (rq GET "/api/v1/domains")).
Definition bb_add_domain_member (domain client_name role : string) : M (result ClientError Json) :=
  handle as_value
    (send (json_body (rq POST ("/api/v1/domains/" +:+ seg domain +:+ "/members"))
             (JObj [("client_name", JStr client_name); ("role", JStr role)]))).
Definition bb_list_domain_members (domain : string) : M (result ClientError (list MemberSummary * Z)) :=
  handle (counted member_from_json "members") (send (rq GET ("/api/v1/domains/" +:+ seg domain +:+ "/members"))).
Definition bb_remove_domain_member (domain client_name : string) : M (result ClientError Json) :=
  handle as_value (send (rq DELETE ("/api/v1/domains/" +:+ seg domain +:+ "/members/" +:+ seg client_name))).

(** *** Clients, rules and the audit log *)

Definition bb_create_client (name role : string) (ttl_days : option Z) : M (result ClientError NewClientView) :=
  handle new_client_from_json
    (send (json_body (rq POST "/api/v1/clients")
             (JObj [("name", JStr name); ("role", JStr role); ("ttl_days", opt_json JNum ttl_days)]))).
Definition bb_rotate_my_or_client (name : string) (ttl_days : option Z) : M (result ClientError NewClientView) :=
  handle new_client_from_json
    (send (json_body (rq POST ("/api/v1/clients/" +:+ seg name +:+ "/rotate")) (JObj [("ttl_days", opt_json JNum ttl_days)]))).
Definition bb_list_clients : M (result ClientError (list ClientSummary * Z)) :=
  handle (counted client_from_json "clients") (send (rq GET "/api/v1/clients")).
Definition bb_revoke_client (name : string) : M (result ClientError Json) :=
  handle as_value (send (rq POST ("/api/v1/clients/" +:+ seg name +:+ "/revoke"))).

Definition grant_acl_body (r : GrantAclRequest) : Json :=
  JObj [("actions", JArr (map JStr (ga_actions r))); ("client_name", opt_json JStr (ga_client_name r));
        ("domain", opt_json JStr (ga_domain r)); ("expires_at", opt_json JStr (ga_expires_at r));
        ("group_domain", opt_json JStr (ga_group_domain r)); ("max_uses", opt_json JNum (ga_max_uses r));
        ("not_before", opt_json JStr (ga_not_before r)); ("rate_max", opt_json JNum (ga_rate_max r));
        ("rate_period_secs", opt_json JNum (ga_rate_period r)); ("resource_pattern", JStr (ga_pattern r));
        ("schedule", opt_json JStr (ga_schedule r))].
Definition bb_grant_acl (r : GrantAclRequest) : M (result ClientError Json) :=
  handle as_value (send (json_body (rq POST "/api/v1/acl") (grant_acl_body r))).
Definition bb_list_acl : M (result ClientError (list AclSummary * Z)) :=
  handle (counted acl_from_json "entries") (send (rq GET "/api/v1/acl")).
(** The id goes into the path as it is. *)
Definition bb_revoke_acl (id : string) : M (result ClientError Json) :=
  handle as_value (send (rq DELETE ("/api/v1/acl/" +:+ id))).

Definition bb_audit (limit : Z) : M (result ClientError (list AuditEntry * Z)) :=
  handle (counted audit_from_json "entries") (send (rq GET ("/api/v1/audit?limit=" +:+ show_Z limit))).
Definition bb_audit_verify : M (result ClientError Json) := handle as_value (send (rq GET "/api/v1/audit/verify")).
Definition bb_audit_archive (keep_last : option Z) (before : option string) (prune : bool) : M (result ClientError Json) :=
  handle as_value
    (send (add_query (rq POST "/api/v1/audit/archive")
             ([("prune", if prune then "true" else "false")] ++ some_pair "keep_last" (show_Z <$> keep_last)
              ++ some_pair "before" before))).
Definition bb_audit_archive_verify (file : string) : M (result ClientError Json) :=
  handle as_value (send (rq GET ("/api/v1/audit/archive/verify?file=" +:+ seg file))).
Definition bb_audit_archives : M (result ClientError Json) := handle as_value (send (rq GET "/api/v1/audit/archives")).

(** *** Managed keys *)

Definition bb_key_create (name key_type : string) (mfa_required : bool) (import_b64 : option string) :
    M (result ClientError KeySummary) :=
  handle summary_from_json
    (send (json_body (rq_dom POST "/api/v1/keys") (create_body name key_type mfa_required import_b64))).
Definition bb_key_list : M (result ClientError KeyList) := handle key_list_from_json (send (rq_dom GET "/api/v1/keys")).
Definition bb_key_show (name : string) : M (result ClientError KeySummary) :=
  handle summary_from_json (send (rq_dom GET ("/api/v1/keys/" +:+ seg name))).
Definition bb_key_jwks (name : string) : M (result ClientError Json) :=
  handle as_value (send (rq_dom GET ("/api/v1/keys/" +:+ seg name +:+ "/jwks"))).
Definition bb_key_rotate (name : string) : M (result ClientError KeySummary) :=
  handle summary_from_json (send (rq_dom POST ("/api/v1/keys/" +:+ seg name +:+ "/rotate"))).
Definition bb_key_delete (name : string) : M (result ClientError Json) :=
  handle as_value (send (rq_dom DELETE ("/api/v1/keys/" +:+ seg name))).
Definition bb_key_op (name op : string) (body : Json) : M (result ClientError Json) :=
  handle as_value (send (json_body (rq_dom POST ("/api/v1/keys/" +:+ seg name +:+ "/" +:+ op)) body)).
End calls.
