(* ===== verification/Routes.v ===== *)
(** The server as its clients meet it: the route table of [run_server] in
    [src/src/server.rs], the extractors of its handlers, and the request bodies
    and query strings they read. actix-web's parsing of the URL is the class
    [Web]; the tunnel endpoints, whose state is not in the world, are in
    [TunnelRelay.v]. *)
From S2P Require Import Prelude Text Unicode AccessRules Crypto Store Effects ServerBase AuditLog Archive Auth Admin Threshold Secrets Files Keys CryptoOps CredStore Session External ClientSecrets KeyClient Client.

(** ** Bodies *)

Definition flags_from_json (j : Json) : option ResourceFlags :=
  _ ← only_fields ["mfa_required"; "delete_on_read"; "max_reads"; "rotate_on_read"; "preserve_on_cleanup"; "no_overwrite"] j;
  flags_view_from_json j.
Definition policy_from_json (j : Json) : option AccessPolicy :=
  k ← i32_member "threshold_k" j; s ← strs_member "signatories" j; Some (MkPolicy k s).
Definition store_from_json (j : Json) : option StoreRequest :=
  n ← str_member "resource_name" j; _ ← opt_member as_str "description" j; d ← str_member "data" j;
  f ← opt_member flags_from_json "flags" j; p ← opt_member policy_from_json "access_policy" j;
  o ← bool_member "overwrite" j; x ← opt_member as_str "external" j; Some (MkStore n d f p o x).
Definition retrieve_from_json (j : Json) : option string := str_member "resource_id" j.
Definition delete_request_from_json (j : Json) : option (string * bool) :=
  i ← str_member "resource_id" j;
  c ← match member "confirm" j with Some (JBool b) => Some b | _ => None end; Some (i, c).
Definition create_client_from_json (j : Json) : option CreateClientRequest :=
  n ← str_member "name" j; r ← default_member "user" as_str "role" j; t ← opt_member as_i64 "ttl_days" j;
  Some (MkCreateClient n r t).
Definition rotate_client_from_json (j : Json) : option (option Z) := _ ← as_object j; opt_member as_i64 "ttl_days" j.
Definition grant_acl_from_json (j : Json) : option GrantAclRequest :=
  c ← opt_member as_str "client_name" j; g ← opt_member as_str "group_domain" j; d ← opt_member as_str "domain" j;
  p ← str_member "resource_pattern" j; a ← strs_member "actions" j; e ← opt_member as_str "expires_at" j;
  nb ← opt_member as_str "not_before" j; m ← opt_member as_i32 "max_uses" j; rm ← opt_member as_i32 "rate_max" j;
  rp ← opt_member as_i32 "rate_period_secs" j; s ← opt_member as_str "schedule" j;
  Some (MkGrantAcl c g d p a e nb m rm rp s).
Definition create_domain_from_json (j : Json) : option CreateDomainRequest :=
  n ← str_member "name" j; d ← opt_member as_str "description" j; Some (MkCreateDomain n d).
Definition add_member_from_json (j : Json) : option AddMemberRequest :=
  c ← str_member "client_name" j; r ← default_member "user" as_str "role" j; Some (MkAddMember c r).
Definition create_grant_from_json (j : Json) : option CreateGrantRequest :=
  g ← str_member "grantee" j; p ← str_member "pattern" j; k ← default_member "secret" as_str "resource_kind" j;
  m ← opt_member as_i32 "max_uses" j; e ← opt_member as_str "expires_at" j; t ← opt_member as_i64 "ttl_hours" j;
  nb ← opt_member as_str "not_before" j; Some (MkCreateGrant g p k m e t nb).
Definition mfa_verify_from_json (j : Json) : option string := str_member "code" j.

(** ** Query strings *)

(** A field twice is an error; unknown fields are ignored. *)
Definition query_field {A} (parse : string -> option A) (k : string) (q : list (string * string)) : option (option A) :=
  match List.filter (fun kv => String.eqb kv.1 k) q with
  | [] => Some None
  | [(_, v)] => Some <$> parse v
  | _ => None
  end.
Definition parse_bool (s : string) : option bool :=
  if String.eqb s "true" then Some true else if String.eqb s "false" then Some false else None.

Definition domain_query (q : list (string * string)) : option DomainQuery :=
  d ← query_field Some "domain" q; Some (MkDomainQuery d).
Definition policy_query (q : list (string * string)) : option FilePolicyQuery :=
  m ← query_field parse_bool "mfa_required" q; d ← query_field parse_bool "delete_on_read" q;
  x ← query_field parse_i64 "max_reads" q; r ← query_field parse_bool "rotate_on_read" q;
  p ← query_field parse_bool "preserve_on_cleanup" q; n ← query_field parse_bool "no_overwrite" q;
  o ← query_field parse_bool "overwrite" q; k ← query_field parse_i32 "quorum" q;
  s ← query_field Some "signatories" q; e ← query_field parse_bool "external" q; mt ← query_field Some "meta" q;
  rs ← query_field parse_bool "resident" q; kc ← query_field Some "key_component" q;
  sc ← query_field parse_bool "server_copy" q;
  Some (MkFilePolicyQuery m d x r p n o k s e mt rs kc sc).
Definition audit_query (q : list (string * string)) : option Z :=
  l ← query_field parse_i64 "limit" q; Some (default 100 l).
Definition archive_query (q : list (string * string)) : option ArchiveQuery :=
  b ← query_field Some "before" q; k ← query_field parse_i64 "keep_last" q; p ← query_field parse_bool "prune" q;
  Some (MkArchiveQuery b k (default false p)).
Definition verify_archive_query (q : list (string * string)) : option string :=
  f ← query_field Some "file" q; f.

(** ** Dispatch *)

(** What actix-web makes of a request reqwest sent to a URL with further query
    pairs: decoded path segments and decoded query pairs; and which header values
    reqwest accepts. *)
Class Web := {
  parse_url : string -> list (string * string) -> option (list string * list (string * string));
  header_ok : string -> bool;
}.

Record Incoming := MkIncoming {
  in_method : Method;
  in_path : list string;
  in_query : list (string * string);
  in_headers : list (string * string);
  in_payload : Payload;
  in_peer : option PeerCertInfo;
}.

Definition in_header (k : string) (r : Incoming) : option string :=
  snd <$> List.find (fun kv => String.eqb kv.1 k) (in_headers r).

Inductive Seg := Lit (s : string) | Var.

(** ["/api/v1/keys/{name}"] *)
Definition pattern (s : string) : list Seg :=
  map (fun p => if starts_with "{" p then Var else Lit p) (tl (split_on "/"%char s)).

(** The values of the variables, if the path fits. *)
Fixpoint match_path (pat : list Seg) (path : list string) : option (list string) :=
  match pat, path with
  | [], [] => Some []
  | Lit s :: pat, x :: path => if String.eqb s x then match_path pat path else None
  | Var :: pat, x :: path => vs ← match_path pat path; Some (x :: vs)
  | _, _ => None
  end.

Definition Route : Type := Method * list Seg * (list string -> Incoming -> M Response).

(** The first route of that method and path. *)
Fixpoint dispatch (no_route : Response) (routes : list Route) (r : Incoming) : M Response :=
  match routes with
  | [] => mret no_route
  | (m, pat, h) :: routes =>
      if bool_decide (m = in_method r) then
        match match_path pat (in_path r) with Some vs => h vs r | None => dispatch no_route routes r end
      else dispatch no_route routes r
  end.

Section server.
Context {P : Primitives} {PF : Platform} {O : OpsLib} {C : ArchiveCodec}.
Context (state : AppState) (start_time : Z) (version : string) (mime_guess : string -> option string).

(** The framework's answers to what it does not accept. *)
Context (bad_query bad_body no_route : Response).

Definition Handler : Type := list string -> Incoming -> M Response.

Definition with_client (f : AuthenticatedClient -> M Response) (r : Incoming) : M Response :=
  c ← from_request state (in_header "Authorization" r) (in_peer r); f c.
Definition with_query {T} (parse : list (string * string) -> option T) (f : T -> Incoming -> M Response) (r : Incoming) :
    M Response :=
  match parse (in_query r) with Some q => f q r | None => mret bad_query end.
Definition with_json {T} (parse : Json -> option T) (f : T -> Incoming -> M Response) (r : Incoming) : M Response :=
  match in_payload r with
  | JsonPayload j => match parse j with Some x => f x r | None => mret bad_body end
  | _ => mret bad_body
  end.
Definition request_headers (r : Incoming) : Headers :=
  MkHeaders (in_header "X-Blackbook-Request-Id" r) (in_header "X-Blackbook-MFA" r).
Definition payload_bytes (r : Incoming) : bytes := match in_payload r with BytesPayload b => b | _ => [] end.

(** Handlers by what they extract. *)
Definition plain (f : AuthenticatedClient -> M Response) : Handler := fun _ => with_client f.
Definition named (f : string -> AuthenticatedClient -> M Response) : Handler :=
  fun vs => with_client (f (default "" (head vs))).
Definition body {T} (parse : Json -> option T) (f : T -> AuthenticatedClient -> M Response) : Handler :=
  fun _ => with_json parse (fun x => with_client (f x)).
Definition named_body {T} (parse : Json -> option T) (f : string -> T -> AuthenticatedClient -> M Response) : Handler :=
  fun vs => with_json parse (fun x => with_client (f (default "" (head vs)) x)).
Definition scoped (f : DomainQuery -> Headers -> AuthenticatedClient -> M Response) : Handler :=
  fun _ => with_query domain_query (fun q r => with_client (f q (request_headers r)) r).
Definition scoped_named (f : string -> DomainQuery -> Headers -> AuthenticatedClient -> M Response) : Handler :=
  fun vs => with_query domain_query (fun q r => with_client (f (default "" (head vs)) q (request_headers r)) r).
Definition scoped_body {T} (parse : Json -> option T)
    (f : T -> DomainQuery -> Headers -> AuthenticatedClient -> M Response) : Handler :=
  fun _ => with_query domain_query (fun q => with_json parse (fun x r => with_client (f x q (request_headers r)) r)).
Definition scoped_named_body {T} (parse : Json -> option T)
    (f : string -> T -> DomainQuery -> Headers -> AuthenticatedClient -> M Response) : Handler :=
  fun vs => with_query domain_query (fun q => with_json parse (fun x r =>
    with_client (f (default "" (head vs)) x q (request_headers r)) r)).

Definition upload : Handler := fun vs =>
  with_query domain_query (fun q => with_query policy_query (fun pol r =>
    with_client (upload_file state mime_guess (default "" (head vs)) (payload_bytes r) (in_header "Content-Type" r) q pol) r)).

Definition routes : list Route := [
  (GET, pattern "/health", fun _ _ => health_check start_time version);
  (GET, pattern "/api/v1/whoami", plain (whoami state));
  (POST, pattern "/api/v1/store", scoped_body store_from_json (fun req q _ => store_data state req q));
  (POST, pattern "/api/v1/retrieve", scoped_body retrieve_from_json (fun id => retrieve_data state id));
  (POST, pattern "/api/v1/delete", scoped_body delete_request_from_json (fun '(id, c) q _ => delete_data state id c q));
  (GET, pattern "/api/v1/list", scoped (fun q _ => list_resources state q));
  (POST, pattern "/api/v1/cleanup", scoped (fun q _ => cleanup_secrets state q));
  (GET, pattern "/api/v1/files", scoped (fun q _ => list_files state q));
  (PUT, pattern "/api/v1/files/{name}", upload);
  (GET, pattern "/api/v1/files/{name}", scoped_named (download_file state));
  (DELETE, pattern "/api/v1/files/{name}", scoped_named (fun n q _ => delete_file state n q));
  (POST, pattern "/api/v1/files/{name}/rotate", scoped_named (fun n q _ => rotate_file state n q));
  (POST, pattern "/api/v1/keys", scoped_body create_from_json (fun req q _ => create_key state req q));
  (GET, pattern "/api/v1/keys", scoped (fun q _ => list_keys state q));
  (GET, pattern "/api/v1/keys/{name}", scoped_named (fun n q _ => show_key state n q));
  (DELETE, pattern "/api/v1/keys/{name}", scoped_named (fun n q _ => delete_key state n q));
  (GET, pattern "/api/v1/keys/{name}/jwks", scoped_named (fun n q _ => key_jwks state n q));
  (POST, pattern "/api/v1/keys/{name}/rotate", scoped_named (fun n q _ => rotate_key state n q));
  (POST, pattern "/api/v1/keys/{name}/encrypt", scoped_named_body encrypt_from_json (encrypt state));
  (POST, pattern "/api/v1/keys/{name}/decrypt", scoped_named_body decrypt_from_json (decrypt state));
  (POST, pattern "/api/v1/keys/{name}/datakey", scoped_named (datakey state));
  (POST, pattern "/api/v1/keys/{name}/sign", scoped_named_body sign_from_json (sign state));
  (POST, pattern "/api/v1/keys/{name}/hmac", scoped_named_body hmac_from_json (hmac_op state));
  (POST, pattern "/api/v1/keys/{name}/verify", scoped_named_body verify_from_json (verify state));
  (POST, pattern "/api/v1/keys/{name}/token", scoped_named_body issue_from_json (issue_token state));
  (POST, pattern "/api/v1/keys/{name}/token/verify", scoped_named_body verify_token_from_json (verify_token state));
  (POST, pattern "/api/v1/clients", body create_client_from_json (create_client_endpoint state));
  (GET, pattern "/api/v1/clients", plain (list_clients_endpoint state));
  (POST, pattern "/api/v1/clients/{name}/revoke", named (revoke_client_endpoint state));
  (POST, pattern "/api/v1/clients/{name}/rotate", named_body rotate_client_from_json (rotate_client_endpoint state));
  (POST, pattern "/api/v1/acl", body grant_acl_from_json (grant_acl state));
  (GET, pattern "/api/v1/acl", plain (list_acl state));
  (DELETE, pattern "/api/v1/acl/{id}", named (revoke_acl state));
  (POST, pattern "/api/v1/mfa/enroll", plain (mfa_enroll state));
  (POST, pattern "/api/v1/mfa/verify", body mfa_verify_from_json (mfa_verify state));
  (GET, pattern "/api/v1/access-requests", plain (list_access_requests state));
  (POST, pattern "/api/v1/access-requests/{id}/approve", named (approve_access_request state));
  (GET, pattern "/api/v1/access-requests/{id}", named (get_access_request state));
  (POST, pattern "/api/v1/access-grants", scoped_body create_grant_from_json (fun req q _ => create_access_grant state req q));
  (GET, pattern "/api/v1/access-grants", plain (list_access_grants state));
  (DELETE, pattern "/api/v1/access-grants/{id}", named (revoke_access_grant state));
  (POST, pattern "/api/v1/domains", body create_domain_from_json (create_domain state));
  (GET, pattern "/api/v1/domains", plain (list_domains state));
  (POST, pattern "/api/v1/domains/{name}/members", named_body add_member_from_json (add_domain_member state));
  (GET, pattern "/api/v1/domains/{name}/members", named (list_domain_members state));
  (DELETE, pattern "/api/v1/domains/{name}/members/{client}",
    fun vs => with_client (remove_domain_member state (default "" (head vs)) (default "" (head (tail vs)))));
  (GET, pattern "/api/v1/audit", fun _ => with_query audit_query (fun l => with_client (list_audit state l)));
  (GET, pattern "/api/v1/audit/verify", plain (verify_audit state));
  (POST, pattern "/api/v1/audit/archive",
    fun _ => with_query archive_query (fun q => with_client (audit_archive_create state q)));
  (GET, pattern "/api/v1/audit/archive/verify",
    fun _ => with_query verify_archive_query (fun f => with_client (audit_archive_verify state f)));
  (GET, pattern "/api/v1/audit/archives", plain audit_archive_list)
].

Definition serve (r : Incoming) : M Response := respond_m (dispatch no_route routes r).

(** The network between a client with the certificate [peer] and the server. *)
Definition to_server {W : Web} (peer : option PeerCertInfo) (rq : Request) : M (result ClientError Response) :=
  match parse_url (rq_url rq) (rq_query rq) with
  | Some (path, q) =>
      if forallb (fun kv => header_ok kv.2) (rq_headers rq) then
        resp ← serve (MkIncoming (rq_method rq) path q (rq_headers rq) (rq_payload rq) peer);
        mret (Ok resp)
      else mret (Err (Http "builder error"))
  | None => mret (Err (Http "builder error"))
  end.
End server.
