(* ===== verification/RoutesProps.v ===== *)
(** The calls of the client ([Client.v]) and the routes of the server
    ([Routes.v]) fit together: names survive the URL, requests survive their
    JSON bodies and query strings, and every call is answered by the handler it
    means, in the domain and with the credentials of the client. *)
From S2P Require Import Prelude Text Unicode AccessRules Crypto ToyPrimitives Store Effects Concurrency ServerBase ToyPlatform AuditLog Archive ArchiveProps Auth AuthProps Admin Threshold Secrets Files Keys CryptoOps ToyOps CredStore FileSteps Session External ClientSecrets ClientSecretsProps KeyClient Client Routes.

(** ** Percent encoding *)

(** The inverse of percent encoding, on text of unreserved characters and
    escapes ([None] on any other). *)
Definition hex_value (a : Ascii.ascii) : option Z :=
  if (48 <=? code a) && (code a <=? 57) then Some (code a - 48)
  else if (65 <=? code a) && (code a <=? 70) then Some (code a - 55) else None.

Fixpoint percent_decode (s : string) : option string :=
  match s with
  | "" => Some ""
  | String a s' =>
      if Ascii.eqb a "%"%char then
        match s' with
        | String h (String l s'') =>
            x ← hex_value h; y ← hex_value l; r ← percent_decode s'';
            Some (String (ascii_of_nat (Z.to_nat (16 * x + y))) r)
        | _ => None
        end
      else if unreserved a then String a <$> percent_decode s' else None
  end.

Lemma code_range a : 0 <= code a < 256.
Proof. unfold code. pose proof (Ascii.nat_ascii_bounded a). lia. Qed.

Lemma ascii_code a : ascii_of_nat (Z.to_nat (code a)) = a.
Proof. unfold code. by rewrite Nat2Z.id, Ascii.ascii_nat_embedding. Qed.

Lemma hex_upper_value n : 0 <= n < 16 -> hex_value (hex_upper n) = Some n.
Proof.
  assert (Hall : forallb (fun k => bool_decide (hex_value (hex_upper (Z.of_nat k)) = Some (Z.of_nat k))) (seq 0 16) = true)
    by (vm_compute; reflexivity).
  intros H. rewrite forallb_forall in Hall. specialize (Hall (Z.to_nat n)). rewrite Z2Nat.id in Hall by lia.
  apply (bool_decide_eq_true_1 _), Hall, in_seq. lia.
Qed.

Lemma percent_not_unreserved a : unreserved a = true -> Ascii.eqb a "%"%char = false.
Proof. intros H. apply Ascii.eqb_neq. by intros ->. Qed.

(** Whatever a name holds, the URL carries it. *)
Lemma percent_decode_encode s : percent_decode (urlencoding_simple s) = Some s.
Proof.
  induction s as [|a s IH]; [done|]. cbn [urlencoding_simple]. destruct (unreserved a) eqn:E.
  - cbn [percent_decode]. by rewrite percent_not_unreserved, E, IH.
  - cbn [percent_decode]. change (Ascii.eqb "%" "%") with true. cbn match. pose proof (code_range a) as Hc.
    rewrite !hex_upper_value, IH; [|split; [apply Z.div_pos; lia|apply Z.div_lt_upper_bound; lia]|apply Z.mod_pos_bound; lia].
    cbn. rewrite <- Z.div_mod by lia. by rewrite ascii_code.
Qed.

(** Distinct names have distinct URLs. *)
Theorem urlencoding_injective s t : urlencoding_simple s = urlencoding_simple t -> s = t.
Proof. intros H. pose proof (percent_decode_encode s) as Hs. rewrite H, percent_decode_encode in Hs. congruence. Qed.

Lemma percent_decode_unreserved s : all_chars unreserved s = true -> percent_decode s = Some s.
Proof.
  induction s as [|a s IH]; [done|]. cbn [all_chars percent_decode]. intros [Ha Hs]%andb_true_iff.
  by rewrite percent_not_unreserved, Ha, IH.
Qed.

(** ** Numbers in query strings *)

Lemma digit_unreserved a : is_digit a = true -> unreserved a = true.
Proof. intros H. unfold unreserved. by rewrite H. Qed.

Lemma show_Z_neg z : z < 0 -> show_Z z = "-" +:+ show_Z (- z).
Proof. by destruct z. Qed.

Lemma show_Z_unreserved z : all_chars unreserved (show_Z z) = true.
Proof.
  assert (Hp : forall z, 0 < z -> all_chars unreserved (show_Z z) = true).
  { intros x Hx. eapply all_chars_impl; [apply digit_unreserved|]. by apply show_Z_digits. }
  destruct (Z.lt_trichotomy z 0) as [H|[->|H]]; [|done|by apply Hp].
  rewrite show_Z_neg by done. cbn. apply Hp. lia.
Qed.

Lemma no_sign z c : 0 < z -> is_digit c = false -> strip_prefix (String c "") (show_Z z) = None.
Proof.
  intros Hz Hc. destruct (strip_prefix _ _) as [r|] eqn:E; [|done]. apply strip_prefix_Some in E.
  destruct (show_Z_digits z Hz) as [Hd _]. rewrite E, string_app_cons in Hd. simpl in Hd. by rewrite Hc in Hd.
Qed.

Lemma signed_show z :
  (strip_prefix "-" (show_Z z) = None /\ strip_prefix "+" (show_Z z) = None /\ parse_magnitude (show_Z z) = Some z) \/
  (exists r, strip_prefix "-" (show_Z z) = Some r /\ parse_magnitude r = Some (- z)).
Proof.
  destruct (Z.lt_trichotomy z 0) as [H|[->|H]]; [right|left; done|left].
  - exists (show_Z (- z)). rewrite show_Z_neg by done. split; [done|]. by apply show_Z_digits; lia.
  - split; [by apply no_sign|]. split; [by apply no_sign|]. by apply show_Z_digits.
Qed.

Lemma parse_i64_show z : parse_i64 (show_Z z) = in_range i64_min i64_max z.
Proof.
  unfold parse_i64. destruct (signed_show z) as [(-> & -> & H)|(r & -> & H)]; cbn; rewrite H; cbn; [done|].
  by rewrite Z.opp_involutive.
Qed.

Lemma parse_i32_signed z : parse_i32 (show_Z z) = in_range (- 2 ^ 31) (2 ^ 31 - 1) z.
Proof.
  unfold parse_i32. destruct (signed_show z) as [(-> & -> & H)|(r & -> & H)]; cbn; rewrite H; cbn; [done|].
  by rewrite Z.opp_involutive.
Qed.

Lemma in_range_ok lo hi z : lo <= z <= hi -> in_range lo hi z = Some z.
Proof. intros H. unfold in_range. by assert ((lo <=? z) && (z <=? hi) = true) as -> by lia. Qed.

(** ** URLs *)

Fixpoint path_text (segs : list string) : string :=
  match segs with [] => "" | s :: segs => "/" +:+ s +:+ path_text segs end.
Fixpoint query_text (sep : string) (qs : list (string * string)) : string :=
  match qs with [] => "" | (k, v) :: qs => sep +:+ k +:+ "=" +:+ v +:+ query_text "&" qs end.

(** A segment that URL normalisation leaves alone. *)
Definition segment_ok (s : string) : bool := negb (String.eqb s "" || String.eqb s "." || String.eqb s "..").

(** ["https://host:port"] *)
Definition is_origin (s : string) : Prop :=
  exists authority, s = "https://" +:+ authority /\ authority <> "" /\
    has_char "/"%char authority = false /\ has_char "?"%char authority = false /\ has_char "#"%char authority = false.

(** Visible ASCII and the space. *)
Definition printable (a : Ascii.ascii) : bool := (32 <=? code a) && (code a <=? 126).

Definition decode_pair (kv : string * string) : option (string * string) := v ← percent_decode kv.2; Some (kv.1, v).

(** Documented behaviour of URLs and headers: escapes are decoded in each path segment and
    query value, and [RequestBuilder::query] adds its pairs behind. *)
Class WebLaws (W : Web) : Prop := {
  parse_url_spec origin raws segs qs vals extra :
    is_origin origin -> mapM percent_decode raws = Some segs -> forallb segment_ok segs = true ->
    mapM decode_pair qs = Some vals ->
    forallb (fun kv : string * string => all_chars unreserved kv.1) qs = true ->
    parse_url (origin +:+ path_text raws +:+ query_text "?" qs) extra = Some (segs, vals ++ extra);
  header_ok_spec s : all_chars printable s = true -> header_ok s = true;
}.

(** A URL library that decodes and nothing else. *)
Definition split_query (s : string) : list (string * string) :=
  omap (split_once "="%char) (split_on "&"%char s).

Definition toy_web : Web := {|
  parse_url url extra :=
    rest ← strip_prefix "https://" url;
    let '(p, q) := default (rest, "") (split_once "?"%char rest) in
    segs ← mapM percent_decode (tl (split_on "/"%char p));
    vals ← mapM decode_pair (split_query q);
    Some (segs, vals ++ extra);
  header_ok := all_chars printable;
|}.

Lemma has_char_cons c a s : a <> c -> has_char c (String a s) = has_char c s.
Proof. intros H. change (Ascii.eqb a c || has_char c s = has_char c s). by apply Ascii.eqb_neq in H as ->. Qed.

Lemma hex_unreserved a : is_Some (hex_value a) -> unreserved a = true.
Proof. destruct a as [[] [] [] [] [] [] [] []]; intros [v Hv]; first [reflexivity | discriminate Hv]. Qed.

Lemma decoded_chars s t c :
  percent_decode s = Some t -> unreserved c = false -> c <> "%"%char -> has_char c s = false.
Proof.
  intros H Hc Hp. revert t H.
  induction s as [s IH] using (well_founded_induction (well_founded_ltof _ String.length)).
  intros t. destruct s as [|a s]; [done|]. cbn [percent_decode].
  destruct (Ascii.eqb_spec a "%"%char) as [->|Ha].
  - destruct s as [|h [|l s]]; [by cbn..|].
    assert (Hx : forall x, is_Some (hex_value x) -> x <> c).
    { intros x Hx ->. apply hex_unreserved in Hx. congruence. }
    destruct (hex_value h) as [x|] eqn:Eh; [|done]. cbn. destruct (hex_value l) as [y|] eqn:El; [|done]. cbn.
    destruct (percent_decode s) as [r|] eqn:Er; [|done]. intros _.
    change (has_char c (String "%" (String h (String l s))) = false).
    rewrite !has_char_cons by first [congruence|apply Hx; rewrite ?Eh, ?El; eauto].
    apply (IH s) with (t := r); [unfold ltof; cbn; lia|done].
  - destruct (unreserved a) eqn:E; [|done]. destruct (percent_decode s) as [r|] eqn:Er; [|done]. intros _.
    rewrite has_char_cons by congruence. apply (IH s) with (t := r); [unfold ltof; cbn; lia|done].
Qed.

Lemma unreserved_chars s c : all_chars unreserved s = true -> unreserved c = false -> has_char c s = false.
Proof. apply has_char_all. Qed.

Lemma has_char_app c s t : has_char c (s +:+ t) = has_char c s || has_char c t.
Proof. induction s as [|a s IH]; [done|]. rewrite string_app_cons. cbn. by rewrite IH, orb_assoc. Qed.

Lemma path_text_no raws segs c : mapM percent_decode raws = Some segs -> unreserved c = false -> c <> "%"%char -> c <> "/"%char ->
  has_char c (path_text raws) = false.
Proof.
  intros H Hc Hp Hs. revert segs H. induction raws as [|r raws IH]; intros segs H; [done|].
  apply mapM_Some in H. apply Forall2_cons_inv_l in H as (s & segs' & Hr & H%mapM_Some & ->).
  cbn [path_text]. rewrite !has_char_app, (decoded_chars _ _ _ Hr Hc Hp), (IH _ H).
  by rewrite has_char_cons by congruence.
Qed.

Lemma split_once_none c s : has_char c s = false -> split_once c s = None.
Proof. induction s as [|a s IH]; [done|]. cbn. destruct (Ascii.eqb a c); [done|]. intros H. by rewrite IH. Qed.

Lemma split_path authority raws segs :
  has_char "/"%char authority = false -> mapM percent_decode raws = Some segs ->
  split_on "/"%char (authority +:+ path_text raws) = authority :: raws.
Proof.
  revert authority segs. induction raws as [|r raws IH]; intros authority segs Ha H.
  - cbn [path_text]. rewrite string_app_nil_r. by apply split_on_last.
  - apply mapM_Some in H. apply Forall2_cons_inv_l in H as (s & segs' & Hr & H%mapM_Some & ->). cbn [path_text].
    change ("/" +:+ r +:+ path_text raws) with (String "/" (r +:+ path_text raws)). rewrite split_on_app by done.
    f_equal. eapply IH; [|done]. by eapply decoded_chars.
Qed.

Lemma split_pairs qs vals :
  mapM decode_pair qs = Some vals -> forallb (fun kv : string * string => all_chars unreserved kv.1) qs = true ->
  match qs with [] => True | (k, v) :: qs' => split_query (k +:+ "=" +:+ v +:+ query_text "&" qs') = qs end.
Proof.
  revert vals. induction qs as [|[k v] qs IH]; intros vals H Hk; [done|].
  apply mapM_Some in H. apply Forall2_cons_inv_l in H as (kv & vals' & Hv & H%mapM_Some & ->). unfold decode_pair in Hv. cbn [fst snd] in Hv.
  destruct (percent_decode v) as [x|] eqn:Ex; [|done]. cbn [forallb fst] in Hk. apply andb_true_iff in Hk as [Hk Hks].
  specialize (IH _ H Hks). unfold split_query in *.
  assert (Hno : forall c, unreserved c = false -> c <> "%"%char -> c <> "="%char -> has_char c (k +:+ "=" +:+ v) = false).
  { intros c Hc Hp He. rewrite !has_char_app, (has_char_all _ _ _ Hk Hc), (decoded_chars _ _ _ Ex Hc Hp). by rewrite has_char_cons by congruence. }
  assert (Hone : split_once "="%char (k +:+ "=" +:+ v) = Some (k, v)).
  { change ("=" +:+ v) with (String "=" v). apply split_once_app. by eapply has_char_all. }
  destruct qs as [|[k' v'] qs].
  - cbn [query_text]. rewrite string_app_nil_r, split_on_last by (by apply Hno). cbn [omap list_omap]. by rewrite Hone.
  - cbn [query_text].
    replace (k +:+ "=" +:+ v +:+ "&" +:+ k' +:+ "=" +:+ v' +:+ query_text "&" qs)
      with ((k +:+ "=" +:+ v) +:+ String "&" (k' +:+ "=" +:+ v' +:+ query_text "&" qs)) by (by rewrite !string_app_assoc).
    rewrite (split_on_app "&"%char) by (by apply Hno). cbn [omap list_omap]. rewrite Hone. f_equal. apply IH.
Qed.

#[export] Instance toy_web_laws : WebLaws toy_web.
Proof.
  constructor; [|done]. intros origin raws segs qs vals extra (authority & -> & Ha & Hs & Hq & _) Hr _ Hv Hk.
  cbn [parse_url toy_web]. rewrite string_app_assoc, strip_prefix_app. cbn [mbind option_bind].
  assert (Hp : has_char "?"%char (authority +:+ path_text raws) = false).
  { by rewrite has_char_app, Hq, (path_text_no raws segs) by done. }
  assert (Hsp : split_once "?"%char (authority +:+ path_text raws +:+ query_text "?" qs) =
    match qs with
    | [] => None
    | (k, v) :: qs' => Some (authority +:+ path_text raws, k +:+ "=" +:+ v +:+ query_text "&" qs')
    end).
  { destruct qs as [|[k v] qs]; cbn [query_text].
    - rewrite string_app_nil_r. by apply split_once_none.
    - rewrite <- string_app_assoc. by apply split_once_app. }
  rewrite Hsp. pose proof (split_pairs qs vals Hv Hk) as Hqs.
  destruct qs as [|[k v] qs]; cbn [from_option]; cbv [id]; cbn iota beta.
  - cbn [query_text]. rewrite string_app_nil_r, (split_path _ _ _ Hs Hr). cbn [tl]. rewrite Hr. by injection Hv as <-.
  - rewrite (split_path _ _ _ Hs Hr). cbn [tl]. rewrite Hr. cbn [mbind option_bind].
    by rewrite Hqs, Hv.
Qed.

(** ** Bodies and query strings read back *)

Definition fits_i64 (z : Z) : Prop := i64_min <= z <= i64_max.
Definition fits_i32 (z : Z) : Prop := - 2 ^ 31 <= z <= 2 ^ 31 - 1.
Definition all_fit (fits : Z -> Prop) (o : option Z) : Prop := forall z, o = Some z -> fits z.

Lemma as_strings l : as_list as_str (JArr (map JStr l)) = Some l.
Proof. unfold as_list. induction l as [|s l IH]; [done|]. cbn in *. by rewrite IH. Qed.

(** A member of a body whose key list is concrete. *)
Lemma opt_member_num f fits k o j :
  (forall z, fits z -> f (JNum z) = Some z) -> all_fit fits o -> member k j = Some (opt_json JNum o) -> opt_member f k j = Some o.
Proof. intros Hf Ho H. unfold opt_member. rewrite H. destruct o as [z|]; [|done]. cbn. by rewrite Hf by (by apply Ho). Qed.

Lemma as_i64_fits z : fits_i64 z -> as_i64 (JNum z) = Some z.
Proof. apply in_range_ok. Qed.
Lemma as_i32_fits z : fits_i32 z -> as_i32 (JNum z) = Some z.
Proof. apply in_range_ok. Qed.

Lemma opt_member_str k o j : member k j = Some (opt_json JStr o) -> opt_member as_str k j = Some o.
Proof. intros H. unfold opt_member. rewrite H. by destruct o. Qed.

Lemma flags_read_back f : all_fit fits_i64 (max_reads f) -> flags_from_json (flags_to_json f) = Some f.
Proof.
  destruct f as [m d x r p n]. cbn [max_reads]. intros Hx.
  assert (H : forall j, member "max_reads" j = match x with Some z => Some (JNum z) | None => None end ->
    opt_member as_i64 "max_reads" j = Some x).
  { intros j Hj. unfold opt_member. rewrite Hj. destruct x as [z|]; [|done]. by rewrite as_i64_fits by (by apply Hx). }
  unfold flags_from_json, flags_view_from_json, flags_to_json.
  destruct m, d, r, p, n, x; cbn [flag_field some_field app]; rewrite (H (JObj _)) by reflexivity; reflexivity.
Qed.

Lemma policy_reads_back p : fits_i32 (threshold_k p) -> policy_from_json (policy_to_json p) = Some p.
Proof.
  intros H. unfold policy_from_json, i32_member, strs_member. cbn [policy_to_json member obj_get String.eqb Ascii.eqb Bool.eqb mbind option_bind].
  rewrite in_range_ok by done. cbn [mbind option_bind]. rewrite as_strings. by destruct p.
Qed.
(** What the client writes for a request, the server reads. *)
Lemma store_reads_back n d f p o x :
  (forall f', f = Some f' -> all_fit fits_i64 (max_reads f')) -> (forall p', p = Some p' -> fits_i32 (threshold_k p')) ->
  store_from_json (store_body n d f p o x) = Some (MkStore n d f p o x).
Proof.
  intros Hf Hp. unfold store_from_json, store_body.
  assert (Ef : forall j, member "flags" j = Some (opt_json flags_to_json f) -> opt_member flags_from_json "flags" j = Some f).
  { intros j H. unfold opt_member. rewrite H. destruct f as [f'|]; [|done]. cbn -[flags_from_json flags_to_json].
    unfold flags_to_json at 1. fold (flags_to_json f'). rewrite flags_read_back by (by apply Hf). done. }
  assert (Ep : forall j, member "access_policy" j = Some (opt_json policy_to_json p) -> opt_member policy_from_json "access_policy" j = Some p).
  { intros j H. unfold opt_member. rewrite H. destruct p as [p'|]; [|done]. cbn -[policy_from_json policy_to_json].
    unfold policy_to_json at 1. fold (policy_to_json p'). by rewrite policy_reads_back by (by apply Hp). }
  cbn -[opt_member]. rewrite (Ef (JObj _)), (Ep (JObj _)) by reflexivity.
  cbn -[opt_member]. rewrite (opt_member_str "external" x) by reflexivity. by destruct o.
Qed.

Lemma client_reads_back n r t : all_fit fits_i64 t ->
  create_client_from_json (JObj [("name", JStr n); ("role", JStr r); ("ttl_days", opt_json JNum t)]) = Some (MkCreateClient n r t) /\
  rotate_client_from_json (JObj [("ttl_days", opt_json JNum t)]) = Some t.
Proof.
  intros H. unfold create_client_from_json, rotate_client_from_json. cbn -[opt_member].
  by rewrite !(opt_member_num as_i64 fits_i64 "ttl_days" t) by (done || apply as_i64_fits).
Qed.

Lemma grant_acl_reads_back r :
  all_fit fits_i32 (ga_max_uses r) -> all_fit fits_i32 (ga_rate_max r) -> all_fit fits_i32 (ga_rate_period r) ->
  grant_acl_from_json (grant_acl_body r) = Some r.
Proof.
  intros H1 H2 H3. unfold grant_acl_from_json, grant_acl_body, strs_member. cbn -[opt_member as_list map].
  rewrite (opt_member_str "client_name" (ga_client_name r)), (opt_member_str "group_domain" (ga_group_domain r)),
    (opt_member_str "domain" (ga_domain r)), (opt_member_str "expires_at" (ga_expires_at r)),
    (opt_member_str "not_before" (ga_not_before r)), (opt_member_str "schedule" (ga_schedule r)) by reflexivity.
  rewrite (opt_member_num as_i32 fits_i32 "max_uses" (ga_max_uses r)), (opt_member_num as_i32 fits_i32 "rate_max" (ga_rate_max r)),
    (opt_member_num as_i32 fits_i32 "rate_period_secs" (ga_rate_period r)) by (done || apply as_i32_fits).
  cbn -[as_list map]. rewrite as_strings. by destruct r.
Qed.

Lemma create_grant_reads_back g p o :
  all_fit fits_i32 (ga_uses o) -> all_fit fits_i64 (ga_ttl_hours o) ->
  create_grant_from_json (grant_body g p o) =
    Some (MkCreateGrant g p (if String.eqb (ga_kind o) "" then "secret" else ga_kind o) (ga_uses o) (ga_expires o)
            (ga_ttl_hours o) (ga_from o)).
Proof.
  intros H1 H2. unfold create_grant_from_json, grant_body. cbn -[opt_member].
  rewrite (opt_member_str "expires_at" (ga_expires o)), (opt_member_str "not_before" (ga_from o)) by reflexivity.
  by rewrite (opt_member_num as_i32 fits_i32 "max_uses" (ga_uses o)), (opt_member_num as_i64 fits_i64 "ttl_hours" (ga_ttl_hours o))
    by (done || apply as_i32_fits || apply as_i64_fits).
Qed.

Lemma create_domain_reads_back n d :
  create_domain_from_json (JObj [("description", opt_json JStr d); ("name", JStr n)]) = Some (MkCreateDomain n d).
Proof. unfold create_domain_from_json. cbn -[opt_member]. by rewrite (opt_member_str "description" d) by reflexivity. Qed.

Lemma create_key_reads_back n t m x :
  create_from_json (create_body n t m x) = Some (MkCreateKey n (Some t) m x).
Proof.
  unfold create_from_json, create_body. cbn -[opt_member].
  rewrite (opt_member_str "key_type" (Some t)), (opt_member_str "import_material" x) by reflexivity. by destruct m.
Qed.

(** *** The query string of an upload *)

Definition sent_flag (b : bool) : option bool := if b then Some true else None.
Definition upload_query (o : FilePutOpts) : FilePolicyQuery :=
  let f := fp_flags o in
  MkFilePolicyQuery (sent_flag (mfa_required f)) (sent_flag (delete_on_read f)) (max_reads f) (sent_flag (rotate_on_read f))
    (sent_flag (preserve_on_cleanup f)) (sent_flag (no_overwrite f)) (sent_flag (fp_overwrite o)) (fp_quorum o)
    (match fp_signatories o with [] => None | l => Some (String.concat "," l) end) (sent_flag (fp_external o))
    (fp_external_meta o) (sent_flag (fp_resident o)) (fp_key_component o) (sent_flag (fp_server_copy o)).

(** Pairs as optional fields. *)
Definition pairs_of (fields : list (string * option string)) : list (string * string) :=
  concat (map (fun kv => some_pair kv.1 kv.2) fields).

Lemma filter_none k fields : k ∉ fields.*1 -> List.filter (fun kv : string * string => String.eqb kv.1 k) (pairs_of fields) = [].
Proof.
  intros H.
  induction fields as [|[k' o] fields IH]; [done|]. cbn in H. apply not_elem_of_cons in H as [Hk H].
  cbn. fold (pairs_of fields). rewrite List.filter_app, IH by done. destruct o as [v|]; [|done]. cbn.
  by assert (String.eqb k' k = false) as -> by (apply String.eqb_neq; congruence).
Qed.

Lemma field_found {A} (parse : string -> option A) k fields o : NoDup (fields.*1) -> (k, o) ∈ fields ->
  query_field parse k (pairs_of fields) = match o with None => Some None | Some v => Some <$> parse v end.
Proof.
  intros Hn Hin. unfold query_field.
  enough (List.filter (fun kv : string * string => String.eqb kv.1 k) (pairs_of fields) = some_pair k o) as -> by (by destruct o).
  induction fields as [|[k' o'] fields IH]; [by apply not_elem_of_nil in Hin|]. cbn in Hn. apply NoDup_cons in Hn as [Hk Hn].
  cbn. fold (pairs_of fields). rewrite List.filter_app. apply elem_of_cons in Hin as [[= <- <-]|Hin].
  - rewrite (filter_none k fields Hk), app_nil_r. destruct o as [v|]; [|done]. cbn. by rewrite String.eqb_refl.
  - rewrite IH by done. destruct o' as [v|]; [|done]. cbn.
    assert (String.eqb k' k = false) as ->; [|done]. apply String.eqb_neq. intros ->. apply Hk. apply list_elem_of_fmap. by exists (k, o).
Qed.

Definition flag_field_text (b : bool) : option string := if b then Some "true" else None.

Definition upload_fields (bb : BlackbookClient) (o : FilePutOpts) : list (string * option string) :=
  let f := fp_flags o in
  [("domain", if String.eqb (bb_domain bb) "default" then None else Some (bb_domain bb));
   ("mfa_required", flag_field_text (mfa_required f)); ("delete_on_read", flag_field_text (delete_on_read f));
   ("max_reads", show_Z <$> max_reads f); ("rotate_on_read", flag_field_text (rotate_on_read f));
   ("preserve_on_cleanup", flag_field_text (preserve_on_cleanup f)); ("no_overwrite", flag_field_text (no_overwrite f));
   ("overwrite", flag_field_text (fp_overwrite o)); ("quorum", show_Z <$> fp_quorum o);
   ("signatories", match fp_signatories o with [] => None | l => Some (String.concat "," l) end);
   ("external", flag_field_text (fp_external o)); ("meta", fp_external_meta o);
   ("resident", flag_field_text (fp_resident o)); ("key_component", fp_key_component o);
   ("server_copy", flag_field_text (fp_server_copy o))].

Lemma upload_pairs bb o : file_put_query bb o = pairs_of (upload_fields bb o).
Proof.
  assert (Hf : forall k b, flag_pair k b = some_pair k (flag_field_text b)) by (by intros k []).
  unfold file_put_query, pairs_of, upload_fields. rewrite !Hf. cbn [map concat fst snd].
  by destruct (String.eqb (bb_domain bb) "default"), (fp_signatories o); rewrite ?app_nil_r.
Qed.

Lemma upload_keys bb o : NoDup (upload_fields bb o).*1.
Proof. cbn. apply (bool_decide_unpack _). vm_compute. exact I. Qed.

Lemma upload_query_reads_back bb o :
  all_fit fits_i64 (max_reads (fp_flags o)) -> all_fit fits_i32 (fp_quorum o) ->
  policy_query (file_put_query bb o) = Some (upload_query o) /\
  domain_query (file_put_query bb o) =
    Some (MkDomainQuery (if String.eqb (bb_domain bb) "default" then None else Some (bb_domain bb))).
Proof.
  intros Hx Hk. rewrite upload_pairs. pose proof (upload_keys bb o) as Hn.
  assert (Hb : forall k b, (k, flag_field_text b) ∈ upload_fields bb o ->
    query_field parse_bool k (pairs_of (upload_fields bb o)) = Some (sent_flag b)).
  { intros k b H. rewrite (field_found _ _ _ _ Hn H). by destruct b. }
  assert (Ht : forall k t, (k, t) ∈ upload_fields bb o ->
    query_field Some k (pairs_of (upload_fields bb o)) = Some t).
  { intros k t H. rewrite (field_found _ _ _ _ Hn H). by destruct t. }
  assert (Hmax : query_field parse_i64 "max_reads" (pairs_of (upload_fields bb o)) = Some (max_reads (fp_flags o))).
  { rewrite (field_found _ _ _ (show_Z <$> max_reads (fp_flags o)) Hn) by (repeat constructor).
    destruct (max_reads (fp_flags o)) as [z|]; [|done]. cbn. by rewrite parse_i64_show, in_range_ok by (by apply Hx). }
  assert (Hq : query_field parse_i32 "quorum" (pairs_of (upload_fields bb o)) = Some (fp_quorum o)).
  { rewrite (field_found _ _ _ (show_Z <$> fp_quorum o) Hn) by (repeat constructor).
    destruct (fp_quorum o) as [z|]; [|done]. cbn. by rewrite parse_i32_signed, in_range_ok by (by apply Hk). }
  unfold policy_query, domain_query. rewrite Hmax, Hq.
  rewrite (Hb "mfa_required" _), (Hb "delete_on_read" _), (Hb "rotate_on_read" _), (Hb "preserve_on_cleanup" _),
    (Hb "no_overwrite" _), (Hb "overwrite" _), (Hb "external" _), (Hb "resident" _), (Hb "server_copy" _),
    (Ht "signatories" _), (Ht "meta" _), (Ht "key_component" _), (Ht "domain" _) by (repeat constructor).
  done.
Qed.

(** ** From the call to its handler *)

Section reach.
Context {P : Primitives} {PF : Platform} {O : OpsLib} {C : ArchiveCodec} {W : Web} {WL : WebLaws W}.
Context (state : AppState) (start_time : Z) (version : string) (mime_guess : string -> option string).
Context (bad_query bad_body no_route : Response) (peer : option PeerCertInfo).
Context (origin token domain : string) (mfa : option string).

Abbreviation table := (routes state start_time version mime_guess bad_query bad_body).

(** A client with a token, a domain and maybe an MFA code, over a connection with
    the certificate [peer]. *)
Definition client_of : BlackbookClient :=
  MkClient (to_server state start_time version mime_guess bad_query bad_body no_route peer) origin (Some token) domain mfa.
Abbreviation bb := client_of.

(** The caller the server sees, or its refusal. *)
Definition caller (f : AuthenticatedClient -> M Response) : M Response :=
  c ← from_request state (Some ("Bearer " +:+ token)) peer; f c.

(** The domain the server sees. *)
Definition own_domain : DomainQuery := MkDomainQuery (if String.eqb domain "default" then None else Some domain).

Definition dom_query : list (string * string) :=
  if String.eqb domain "default" then [] else [("domain", urlencoding_simple domain)].
Definition dom_vals : list (string * string) := if String.eqb domain "default" then [] else [("domain", domain)].

Context (Ho : is_origin origin) (Ht : header_ok ("Bearer " +:+ token) = true)
  (Hm : forall c, mfa = Some c -> header_ok c = true).

Lemma decode_segments segs : mapM percent_decode (urlencoding_simple <$> segs) = Some segs.
Proof. induction segs as [|s segs IH]; [done|]. cbn. by rewrite percent_decode_encode, IH. Qed.

Lemma auth_headers_ok : forallb (fun kv : string * string => header_ok kv.2) (auth_headers bb) = true.
Proof. unfold auth_headers. cbn. rewrite Ht. destruct mfa as [c|]; [|done]. cbn. by rewrite (Hm c eq_refl). Qed.

Definition all_headers (o : option string) : Prop := forall s, o = Some s -> header_ok s = true.

Lemma sent rq segs qs vals h w :
  rq_url rq = origin +:+ path_text (urlencoding_simple <$> segs) +:+ query_text "?" qs ->
  forallb segment_ok segs = true -> mapM decode_pair qs = Some vals ->
  forallb (fun kv : string * string => all_chars unreserved kv.1) qs = true ->
  forallb (fun kv : string * string => header_ok kv.2) (rq_headers rq) = true ->
  dispatch no_route table (MkIncoming (rq_method rq) segs (vals ++ rq_query rq) (rq_headers rq) (rq_payload rq) peer) = h ->
  run (bb_http bb rq) w = run (r ← respond_m h; mret (Ok r)) w.
Proof.
  intros Hu Hs Hq Hk Hh Hd. cbn [bb_http client_of]. unfold to_server.
  rewrite Hu, (parse_url_spec origin _ segs qs vals) by (done || apply decode_segments). rewrite Hh. unfold serve. by rewrite Hd.
Qed.

Lemma dom_vals_ok : mapM decode_pair dom_query = Some dom_vals /\
  forallb (fun kv : string * string => all_chars unreserved kv.1) dom_query = true /\ domain_query dom_vals = Some own_domain.
Proof.
  unfold dom_query, dom_vals, own_domain. destruct (String.eqb domain "default"); [done|]. cbn. by rewrite percent_decode_encode.
Qed.

Lemma domain_request m path segs :
  path = path_text (urlencoding_simple <$> segs) ->
  req_in_domain bb m path =
    MkRequest m (origin +:+ path_text (urlencoding_simple <$> segs) +:+ query_text "?" dom_query) [] (auth_headers bb) NoPayload.
Proof.
  intros ->. unfold req_in_domain, dom_query. cbn [bb_domain bb_server client_of].
  destruct (String.eqb domain "default"); cbn [query_text].
  - unfold req. cbn [bb_server client_of]. by rewrite string_app_nil_r.
  - rewrite (path_text_no _ segs) by (done || apply decode_segments). by rewrite string_app_nil_r.
Qed.

Lemma plain_request m path segs qs :
  path = path_text (urlencoding_simple <$> segs) +:+ query_text "?" qs ->
  req bb m path =
    MkRequest m (origin +:+ path_text (urlencoding_simple <$> segs) +:+ query_text "?" qs) [] (auth_headers bb) NoPayload.
Proof. by intros ->. Qed.

(** A call, what it makes of the server's answer, and what the server does for
    it. *)
Inductive Reach : Type :=
| MkReach (T : Type) (m : M (result ClientError T)) (answer : M (result ClientError Response) -> M (result ClientError T))
    (h : M Response).
Arguments MkReach {T} m answer h.

Definition reached (r : Reach) : Prop :=
  match r with MkReach m answer h => forall w, run m w = run (answer (resp ← respond_m h; mret (Ok resp))) w end.

Lemma handle_sent {T} (parse : Json -> option T) sent sent' w :
  run sent w = run sent' w -> run (handle parse sent) w = run (handle parse sent') w.
Proof. intros H. unfold handle, try_bind. by rewrite !run_bind, H. Qed.
Lemma download_sent sent sent' w : run sent w = run sent' w -> run (handle_download sent) w = run (handle_download sent') w.
Proof. intros H. unfold handle_download, try_bind. by rewrite !run_bind, H. Qed.

#[local] Ltac path_eq :=
  cbn [fmap list_fmap path_text query_text];
  repeat match goal with |- context [urlencoding_simple (String ?a ?s)] =>
    let r := eval vm_compute in (urlencoding_simple (String a s)) in change (urlencoding_simple (String a s)) with r end;
  rewrite ?string_app_nil_r, ?string_app_assoc; reflexivity.
#[local] Ltac segs_eq := cbn; repeat match goal with H : segment_ok _ = true |- _ => rewrite H; clear H end; reflexivity.
#[local] Ltac headers_eq :=
  cbn [rq_headers json_body bytes_body add_query add_header]; rewrite ?forallb_app, auth_headers_ok; cbn;
  repeat match goal with H : header_ok _ = true |- _ => rewrite H; clear H end; reflexivity.
#[local] Ltac cases := unfold dom_vals, own_domain, auth_headers; cbn [client_of bb_token bb_mfa];
  destruct (String.eqb domain "default"), mfa.
#[local] Ltac head_of t := lazymatch t with ?f _ => head_of f | ?f => f end.
#[local] Ltac unfold_call := lazymatch goal with |- run ?m _ = _ => let h := head_of m in unfold h end.
#[local] Ltac sent_by := first [apply handle_sent | apply download_sent].
(** The request of a call in the client's domain; its segments. *)
#[local] Ltac in_domain segs :=
  intros w; unfold_call; match goal with |- context [req_in_domain _ ?m ?p] => rewrite (domain_request m p segs) by path_eq end;
  sent_by; apply (sent _ segs dom_query dom_vals); [reflexivity|segs_eq|apply dom_vals_ok|apply dom_vals_ok|headers_eq|cbn [rq_method rq_query rq_headers rq_payload json_body bytes_body add_query add_header]; try rewrite app_nil_r].
#[local] Ltac outside segs qs vals :=
  intros w; unfold_call; match goal with |- context [req _ ?m ?p] => rewrite (plain_request m p segs qs) by path_eq end;
  sent_by; apply (sent _ segs qs vals); [reflexivity|segs_eq|..|headers_eq|cbn [rq_method rq_query rq_headers rq_payload json_body bytes_body add_query add_header]; try rewrite app_nil_r].
#[local] Ltac plainly segs := outside segs (@nil (string * string)) (@nil (string * string)).
(** A body of which it is known what it is read as. *)
#[local] Ltac body_read H :=
  match type of H with ?p ?j = Some ?x =>
    revert H; generalize j; intros ? H;
    match type of H with _ ?j = _ =>
      refine (eq_trans (y := match p j with Some y => _ | None => mret bad_body end) _ _); [reflexivity|rewrite H; reflexivity] end end.

(** *** Secrets and files *)

Definition resource_calls (id : string) (rid : option string) (req : StoreRequest) (put : FilePutOpts) (contents : bytes) : list Reach := [
  MkReach (bb_health bb) (handle health_from_json) (health_check start_time version);
  MkReach (bb_whoami bb) (handle whoami_from_json) (caller (whoami state));
  MkReach (bb_store_inner bb (sr_resource_name req) (sr_data req) (sr_flags req) (sr_access_policy req) (sr_overwrite req) (sr_external req))
    (handle stored_from_json) (caller (store_data state req own_domain));
  MkReach (bb_retrieve_with_request bb id rid) (handle retrieved_from_json)
    (caller (retrieve_data state id own_domain (MkHeaders rid mfa)));
  MkReach (bb_delete bb id) (handle delete_from_json) (caller (delete_data state id true own_domain));
  MkReach (bb_list bb) (handle list_from_json) (caller (list_resources state own_domain));
  MkReach (bb_cleanup bb) (handle cleanup_from_json) (caller (cleanup_secrets state own_domain));
  MkReach (bb_file_put bb id contents put) (handle file_from_json)
    (caller (upload_file state mime_guess id contents (fp_mime put) own_domain (upload_query put)));
  MkReach (bb_file_get_download bb id rid) handle_download
    (caller (download_file state id own_domain (MkHeaders rid mfa)));
  MkReach (bb_file_delete bb id) (handle as_value) (caller (delete_file state id own_domain));
  MkReach (bb_file_list bb) (handle (counted file_from_json "files")) (caller (list_files state own_domain));
  MkReach (bb_file_rotate bb id) (handle as_value) (caller (rotate_file state id own_domain))
].

(** Requests whose numbers are of their machine width. *)
Definition store_fits (req : StoreRequest) : Prop :=
  (forall f, sr_flags req = Some f -> all_fit fits_i64 (max_reads f)) /\
  (forall p, sr_access_policy req = Some p -> fits_i32 (threshold_k p)).
Definition put_fits (put : FilePutOpts) : Prop :=
  all_fit fits_i64 (max_reads (fp_flags put)) /\ all_fit fits_i32 (fp_quorum put) /\ all_headers (fp_mime put).

Lemma upload_reaches id put contents : segment_ok id = true -> put_fits put ->
  reached (MkReach (bb_file_put bb id contents put) (handle file_from_json)
    (caller (upload_file state mime_guess id contents (fp_mime put) own_domain (upload_query put)))).
Proof.
  intros Hid (Hx & Hq & Hmime). destruct (upload_query_reads_back bb put Hx Hq) as [Hpol Hdom].
  assert (Hct : forall p q pl, in_header "Content-Type" (MkIncoming PUT p q (auth_headers bb ++ match fp_mime put with Some v => [("Content-Type", v)] | None => [] end) pl peer) = fp_mime put).
  { intros. unfold auth_headers. cbn [client_of bb_token bb_mfa]. by destruct mfa, (fp_mime put). }
  assert (forall w, run (bb_http bb (add_header (bytes_body (add_query (req bb PUT ("/api/v1/files/" +:+ urlencoding_simple id)) (file_put_query bb put)) contents)
             "Content-Type" (fp_mime put))) w = run (resp ← respond_m (caller (upload_file state mime_guess id contents (fp_mime put) own_domain (upload_query put))); mret (Ok resp)) w) as Hs.
  2: { intros w. unfold bb_file_put. by apply handle_sent. }
  intros w. rewrite (plain_request _ _ ["api"; "v1"; "files"; id] []) by path_eq.
  apply (sent _ ["api"; "v1"; "files"; id] [] []); [by destruct (fp_mime put)|segs_eq|done..| |].
  - destruct (fp_mime put) as [m|]; [specialize (Hmime m eq_refl)|]; headers_eq.
  - transitivity (upload state mime_guess bad_query [id]
      (MkIncoming PUT ["api"; "v1"; "files"; id] (file_put_query bb put)
         (auth_headers bb ++ match fp_mime put with Some v => [("Content-Type", v)] | None => [] end) (BytesPayload contents) peer)).
    { by destruct (fp_mime put); cbn [rq_method rq_query rq_headers rq_payload json_body bytes_body add_query add_header req]; rewrite ?app_nil_r. }
    unfold upload, with_query. cbn [in_query]. rewrite Hdom, Hpol. unfold with_client. rewrite Hct. reflexivity.
Qed.

Lemma resource_calls_reach id rid req put contents :
  segment_ok id = true -> all_headers rid -> store_fits req -> put_fits put ->
  Forall reached (resource_calls id rid req put contents).
Proof.
  intros Hid Hr [Hf Hp] Hput. pose proof (store_reads_back (sr_resource_name req) (sr_data req) _ _ (sr_overwrite req) (sr_external req) Hf Hp) as Hreq.
  unfold resource_calls. rewrite !Forall_cons. split_and!; [..|apply Forall_nil, I].
  1: plainly ["health"]; reflexivity.
  1: plainly ["api"; "v1"; "whoami"]; reflexivity.
  1: in_domain ["api"; "v1"; "store"]; destruct req; cases; body_read Hreq.
  1: destruct rid as [r|]; [specialize (Hr r eq_refl)|]; in_domain ["api"; "v1"; "retrieve"]; cases; reflexivity.
  1: in_domain ["api"; "v1"; "delete"]; cases; reflexivity.
  1: in_domain ["api"; "v1"; "list"]; cases; reflexivity.
  1: in_domain ["api"; "v1"; "cleanup"]; cases; reflexivity.
  1: by apply upload_reaches.
  1: destruct rid as [r|]; [specialize (Hr r eq_refl)|]; in_domain ["api"; "v1"; "files"; id]; cases; reflexivity.
  1: in_domain ["api"; "v1"; "files"; id]; cases; reflexivity.
  1: in_domain ["api"; "v1"; "files"]; cases; reflexivity.
  1: in_domain ["api"; "v1"; "files"; id; "rotate"]; cases; reflexivity.
Qed.

(** *** Managed keys *)

(** The operations and the requests they read. *)
Definition key_operation (op : string) (name : string) (j : Json) (q : DomainQuery) (h : Headers) :
    option (AuthenticatedClient -> M Response) :=
  if String.eqb op "encrypt" then r ← encrypt_from_json j; Some (encrypt state name r q h)
  else if String.eqb op "decrypt" then r ← decrypt_from_json j; Some (decrypt state name r q h)
  else if String.eqb op "datakey" then Some (datakey state name q h)
  else if String.eqb op "sign" then i ← sign_from_json j; Some (sign state name i q h)
  else if String.eqb op "hmac" then r ← hmac_from_json j; Some (hmac_op state name r q h)
  else if String.eqb op "verify" then r ← verify_from_json j; Some (verify state name r q h)
  else if String.eqb op "token" then r ← issue_from_json j; Some (issue_token state name r q h)
  else if String.eqb op "token/verify" then r ← verify_token_from_json j; Some (verify_token state name r q h)
  else None.

Definition key_calls (n key_type : string) (mfa_required : bool) (import : option string) (op : string) (j : Json)
    (f : AuthenticatedClient -> M Response) : list Reach := [
  MkReach (bb_key_create bb n key_type mfa_required import) (handle summary_from_json)
    (caller (create_key state (MkCreateKey n (Some key_type) mfa_required import) own_domain));
  MkReach (bb_key_list bb) (handle key_list_from_json) (caller (list_keys state own_domain));
  MkReach (bb_key_show bb n) (handle summary_from_json) (caller (show_key state n own_domain));
  MkReach (bb_key_jwks bb n) (handle as_value) (caller (key_jwks state n own_domain));
  MkReach (bb_key_rotate bb n) (handle summary_from_json) (caller (rotate_key state n own_domain));
  MkReach (bb_key_delete bb n) (handle as_value) (caller (delete_key state n own_domain));
  MkReach (bb_key_op bb n op j) (handle as_value) (caller f)
].

Lemma key_op_reaches n op j f :
  segment_ok n = true -> key_operation op n j own_domain (MkHeaders None mfa) = Some f ->
  reached (MkReach (bb_key_op bb n op j) (handle as_value) (caller f)).
Proof.
  intros Hn. unfold key_operation. intros H. repeat case_match; simplify_eq.
  all: repeat match goal with E : String.eqb _ _ = true |- _ => apply String.eqb_eq in E; subst end.
  all: try (match type of H with (?m ≫= _) = _ => destruct m eqn:Hread; [injection H as <-|done] end).
  all: try done.
  1: in_domain ["api"; "v1"; "keys"; n; "encrypt"]; cases; body_read Hread.
  1: in_domain ["api"; "v1"; "keys"; n; "decrypt"]; cases; body_read Hread.
  1: in_domain ["api"; "v1"; "keys"; n; "datakey"]; cases; reflexivity.
  1: in_domain ["api"; "v1"; "keys"; n; "sign"]; cases; body_read Hread.
  1: in_domain ["api"; "v1"; "keys"; n; "hmac"]; cases; body_read Hread.
  1: in_domain ["api"; "v1"; "keys"; n; "verify"]; cases; body_read Hread.
  1: in_domain ["api"; "v1"; "keys"; n; "token"]; cases; body_read Hread.
  1: in_domain ["api"; "v1"; "keys"; n; "token"; "verify"]; cases; body_read Hread.
Qed.

Lemma key_calls_reach n key_type mfa_required import op j f :
  segment_ok n = true -> key_operation op n j own_domain (MkHeaders None mfa) = Some f ->
  Forall reached (key_calls n key_type mfa_required import op j f).
Proof.
  intros Hn Hop. pose proof (create_key_reads_back n key_type mfa_required import) as Hcreate.
  unfold key_calls. rewrite !Forall_cons. split_and!; [..|apply Forall_nil, I].
  1: in_domain ["api"; "v1"; "keys"]; cases; body_read Hcreate.
  1: in_domain ["api"; "v1"; "keys"]; cases; reflexivity.
  1-1: in_domain ["api"; "v1"; "keys"; n]; cases; reflexivity.
  1: in_domain ["api"; "v1"; "keys"; n; "jwks"]; cases; reflexivity.
  1: in_domain ["api"; "v1"; "keys"; n; "rotate"]; cases; reflexivity.
  1: in_domain ["api"; "v1"; "keys"; n]; cases; reflexivity.
  1: by apply key_op_reaches.
Qed.

(** *** Administration *)

Record AdminArgs := MkAdminArgs {
  aa_name : string; aa_client : string; aa_role : string; aa_ttl_days : option Z; aa_description : option string;
  aa_rule : GrantAclRequest; aa_pattern : string; aa_grant : GrantAddOpts; aa_code : string; aa_limit : Z;
  aa_keep_last : option Z; aa_before : option string; aa_prune : bool; aa_file : string; aa_rule_id : string;
}.

Definition admin_fits (a : AdminArgs) : Prop :=
  segment_ok (aa_name a) = true /\ segment_ok (aa_client a) = true /\
  (segment_ok (aa_rule_id a) = true /\ all_chars unreserved (aa_rule_id a) = true) /\
  all_fit fits_i64 (aa_ttl_days a) /\ fits_i64 (aa_limit a) /\ all_fit fits_i64 (aa_keep_last a) /\
  all_fit fits_i32 (ga_max_uses (aa_rule a)) /\ all_fit fits_i32 (ga_rate_max (aa_rule a)) /\
  all_fit fits_i32 (ga_rate_period (aa_rule a)) /\
  all_fit fits_i32 (ga_uses (aa_grant a)) /\ all_fit fits_i64 (ga_ttl_hours (aa_grant a)).

Definition admin_calls (a : AdminArgs) : list Reach :=
  let n := aa_name a in let g := aa_grant a in [
  MkReach (bb_create_client bb n (aa_role a) (aa_ttl_days a)) (handle new_client_from_json)
    (caller (create_client_endpoint state (MkCreateClient n (aa_role a) (aa_ttl_days a))));
  MkReach (bb_rotate_my_or_client bb n (aa_ttl_days a)) (handle new_client_from_json)
    (caller (rotate_client_endpoint state n (aa_ttl_days a)));
  MkReach (bb_list_clients bb) (handle (counted client_from_json "clients")) (caller (list_clients_endpoint state));
  MkReach (bb_revoke_client bb n) (handle as_value) (caller (revoke_client_endpoint state n));
  MkReach (bb_grant_acl bb (aa_rule a)) (handle as_value) (caller (grant_acl state (aa_rule a)));
  MkReach (bb_list_acl bb) (handle (counted acl_from_json "entries")) (caller (list_acl state));
  MkReach (bb_mfa_enroll bb) (handle mfa_enroll_from_json) (caller (mfa_enroll state));
  MkReach (bb_mfa_verify bb (aa_code a)) (handle as_value) (caller (mfa_verify state (aa_code a)));
  MkReach (bb_list_access_requests bb) (handle (counted access_request_from_json "requests"))
    (caller (list_access_requests state));
  MkReach (bb_get_access_request bb n) (handle access_request_from_json) (caller (get_access_request state n));
  MkReach (bb_approve_request bb n) (handle as_value) (caller (approve_access_request state n));
  MkReach (bb_create_access_grant bb n (aa_pattern a) g) (handle as_value)
    (caller (create_access_grant state
       (MkCreateGrant n (aa_pattern a) (if String.eqb (ga_kind g) "" then "secret" else ga_kind g) (ga_uses g)
          (ga_expires g) (ga_ttl_hours g) (ga_from g)) own_domain));
  MkReach (bb_list_access_grants bb) (handle (counted access_grant_from_json "grants")) (caller (list_access_grants state));
  MkReach (bb_revoke_access_grant bb n) (handle as_value) (caller (revoke_access_grant state n));
  MkReach (bb_create_domain bb n (aa_description a)) (handle as_value)
    (caller (create_domain state (MkCreateDomain n (aa_description a))));
  MkReach (bb_list_domains bb) (handle (counted domain_from_json "domains")) (caller (list_domains state));
  MkReach (bb_add_domain_member bb n (aa_client a) (aa_role a)) (handle as_value)
    (caller (add_domain_member state n (MkAddMember (aa_client a) (aa_role a))));
  MkReach (bb_list_domain_members bb n) (handle (counted member_from_json "members"))
    (caller (list_domain_members state n));
  MkReach (bb_remove_domain_member bb n (aa_client a)) (handle as_value)
    (caller (remove_domain_member state n (aa_client a)));
  MkReach (bb_revoke_acl bb (aa_rule_id a)) (handle as_value) (caller (revoke_acl state (aa_rule_id a)));
  MkReach (bb_audit bb (aa_limit a)) (handle (counted audit_from_json "entries")) (caller (list_audit state (aa_limit a)));
  MkReach (bb_audit_verify bb) (handle as_value) (caller (verify_audit state));
  MkReach (bb_audit_archive bb (aa_keep_last a) (aa_before a) (aa_prune a)) (handle as_value)
    (caller (audit_archive_create state (MkArchiveQuery (aa_before a) (aa_keep_last a) (aa_prune a))));
  MkReach (bb_audit_archive_verify bb (aa_file a)) (handle as_value) (caller (audit_archive_verify state (aa_file a)));
  MkReach (bb_audit_archives bb) (handle as_value) (caller audit_archive_list)
].



Lemma archive_query_reads_back keep before prune : all_fit fits_i64 keep ->
  archive_query ([("prune", if prune : bool then "true" else "false")] ++ some_pair "keep_last" (show_Z <$> keep)
    ++ some_pair "before" before) = Some (MkArchiveQuery before keep prune).
Proof.
  intros Hk. unfold archive_query, query_field.
  destruct keep as [k|], before as [b|], prune; cbn -[parse_i64 show_Z]; rewrite ?parse_i64_show, ?in_range_ok by (by apply Hk); done.
Qed.

Lemma urlencoding_unreserved s : all_chars unreserved s = true -> urlencoding_simple s = s.
Proof. induction s as [|x s IH]; [done|]. cbn [all_chars urlencoding_simple]. intros [-> Hs]%andb_true_iff. by rewrite IH. Qed.

Lemma revoke_acl_reaches n : segment_ok n = true -> all_chars unreserved n = true ->
  reached (MkReach (bb_revoke_acl bb n) (handle as_value) (caller (revoke_acl state n))).
Proof.
  intros Hn Hu. pose proof (urlencoding_unreserved n Hu) as He. intros w. unfold bb_revoke_acl.
  replace ("/api/v1/acl/" +:+ n) with ("/api/v1/acl/" +:+ urlencoding_simple n) by (by rewrite He).
  rewrite (plain_request _ _ ["api"; "v1"; "acl"; n] []) by path_eq.
  apply handle_sent, (sent _ ["api"; "v1"; "acl"; n] [] []); [reflexivity|segs_eq|done|done|headers_eq|reflexivity].
Qed.

Lemma audit_reaches limit : fits_i64 limit ->
  reached (MkReach (bb_audit bb limit) (handle (counted audit_from_json "entries")) (caller (list_audit state limit))).
Proof.
  intros Hl. outside ["api"; "v1"; "audit"] [("limit", show_Z limit)] [("limit", show_Z limit)].
  - cbn. by rewrite percent_decode_unreserved by apply show_Z_unreserved.
  - done.
  - transitivity (with_query bad_query audit_query (fun l => with_client state (list_audit state l))
      (MkIncoming GET ["api"; "v1"; "audit"] [("limit", show_Z limit)] (auth_headers bb) NoPayload peer)); [reflexivity|].
    unfold with_query, audit_query, query_field. cbn [in_query List.filter String.eqb Ascii.eqb Bool.eqb fst].
    by rewrite parse_i64_show, in_range_ok by done.
Qed.

Lemma admin_calls_reach a : admin_fits a -> Forall reached (admin_calls a).
Proof.
  intros (Hn & Hc & [Hi Hu] & Httl & Hlim & Hkeep & Hr1 & Hr2 & Hr3 & Hg1 & Hg2). destruct a as [n c role ttl desc rule pat g code limit keep before prune file rule_id].
  unfold admin_calls.
  cbn [aa_name aa_client aa_role aa_ttl_days aa_description aa_rule aa_pattern aa_grant aa_code aa_limit aa_keep_last aa_before aa_prune aa_file aa_rule_id] in *.
  destruct (client_reads_back n role ttl Httl) as [Hclient Hrot].
  pose proof (grant_acl_reads_back rule Hr1 Hr2 Hr3) as Hrule.
  pose proof (create_grant_reads_back n pat g Hg1 Hg2) as Hgrant.
  pose proof (create_domain_reads_back n desc) as Hdom.
  rewrite !Forall_cons. split_and!; [..|apply Forall_nil, I].
  1: plainly ["api"; "v1"; "clients"]; [done..|body_read Hclient].
  1: plainly ["api"; "v1"; "clients"; n; "rotate"]; [done..|body_read Hrot].
  1: plainly ["api"; "v1"; "clients"]; [done..|reflexivity].
  1: plainly ["api"; "v1"; "clients"; n; "revoke"]; [done..|reflexivity].
  1: plainly ["api"; "v1"; "acl"]; [done..|body_read Hrule].
  1: plainly ["api"; "v1"; "acl"]; [done..|reflexivity].
  1: plainly ["api"; "v1"; "mfa"; "enroll"]; [done..|reflexivity].
  1: plainly ["api"; "v1"; "mfa"; "verify"]; [done..|reflexivity].
  1: plainly ["api"; "v1"; "access-requests"]; [done..|reflexivity].
  1: plainly ["api"; "v1"; "access-requests"; n]; [done..|reflexivity].
  1: plainly ["api"; "v1"; "access-requests"; n; "approve"]; [done..|reflexivity].
  1: in_domain ["api"; "v1"; "access-grants"]; cases; body_read Hgrant.
  1: plainly ["api"; "v1"; "access-grants"]; [done..|reflexivity].
  1: plainly ["api"; "v1"; "access-grants"; n]; [done..|reflexivity].
  1: plainly ["api"; "v1"; "domains"]; [done..|body_read Hdom].
  1: plainly ["api"; "v1"; "domains"]; [done..|reflexivity].
  1: plainly ["api"; "v1"; "domains"; n; "members"]; [done..|reflexivity].
  1: plainly ["api"; "v1"; "domains"; n; "members"]; [done..|reflexivity].
  1: plainly ["api"; "v1"; "domains"; n; "members"; c]; [done..|reflexivity].
  1: by apply revoke_acl_reaches.
  1: by apply audit_reaches.
  1: plainly ["api"; "v1"; "audit"; "verify"]; [done..|reflexivity].
  1: { plainly ["api"; "v1"; "audit"; "archive"]; [done..|].
       transitivity (with_query bad_query archive_query (fun q => with_client state (audit_archive_create state q))
         (MkIncoming POST ["api"; "v1"; "audit"; "archive"]
           ([("prune", if prune : bool then "true" else "false")] ++ some_pair "keep_last" (show_Z <$> keep) ++ some_pair "before" before)
           (auth_headers bb) NoPayload peer)); [reflexivity|].
       unfold with_query. cbn [in_query]. by rewrite archive_query_reads_back by done. }
  1: outside ["api"; "v1"; "audit"; "archive"; "verify"] [("file", urlencoding_simple file)] [("file", file)];
       [cbn; by rewrite percent_decode_encode|done|reflexivity].
  1: plainly ["api"; "v1"; "audit"; "archives"]; [done..|reflexivity].
Qed.

(** C15. Every call of the client but the tunnel calls reaches the handler it
    means: through the URL, the headers, the query string and the JSON body, the
    server's route table hands the call, with its arguments exactly as given, to
    that handler, as the caller its credentials authenticate and in the client's
    domain; and the call returns what the client makes of that handler's answer,
    and nothing else. The names of secrets, files, keys, clients, domains,
    requests and grants may hold any characters: the path carries them escaped.
    Only [""], ["."] and [".."], which a URL cannot carry, are excluded, and the
    id of a rule, which [revoke_acl] puts into the path as it is, is of
    unreserved characters. *)
Theorem calls_reach_handlers id rid req put contents n key_type mfa_required import op j f a :
  segment_ok id = true -> all_headers rid -> store_fits req -> put_fits put ->
  segment_ok n = true -> key_operation op n j own_domain (MkHeaders None mfa) = Some f -> admin_fits a ->
  Forall reached (resource_calls id rid req put contents ++ key_calls n key_type mfa_required import op j f ++ admin_calls a).
Proof.
  intros Hid Hr Hreq Hput Hn Hop Ha. apply Forall_app. split; [by apply resource_calls_reach|].
  apply Forall_app. split; [by apply key_calls_reach|by apply admin_calls_reach].
Qed.

(** *** The interfaces of the commands *)

(** Once the credentials authenticate, a call over HTTP is the call of the
    interfaces [ServerApi] and [KeyApi]. *)
Lemma run_caller c f w :
  run (from_request state (Some ("Bearer " +:+ token)) peer) w = (Val c, w) ->
  run (respond_m (caller f)) w = run (respond_m (f c)) w.
Proof. intros H. by rewrite !run_respond_m; unfold caller; rewrite run_bind, H. Qed.

Lemma answered {T} (parse : Json -> option T) h w :
  run (handle parse (resp ← respond_m h; mret (Ok resp))) w = run (call parse (respond_m h)) w.
Proof. unfold handle, try_bind, call. rewrite !run_bind. by destruct (run (respond_m h) w) as [[r|r|s e] w1]. Qed.

Theorem secrets_over_http c w id rid req :
  run (from_request state (Some ("Bearer " +:+ token)) peer) w = (Val c, w) ->
  segment_ok id = true -> all_headers rid -> store_fits req ->
  run (bb_retrieve_with_request bb id rid) w =
    run (retrieve_with_request (blackbook_api state c own_domain mfa) id rid) w /\
  run (bb_store_inner bb (sr_resource_name req) (sr_data req) (sr_flags req) (sr_access_policy req) (sr_overwrite req) (sr_external req)) w =
    run (store_inner (blackbook_api state c own_domain mfa) (sr_resource_name req) (sr_data req) (sr_flags req)
           (sr_access_policy req) (sr_overwrite req) (sr_external req)) w.
Proof.
  intros Hc Hid Hrid Hreq.
  assert (Hput : put_fits (MkFilePut None default_flags false None [] false None false None false)) by (by split_and!).
  pose proof (resource_calls_reach id rid req _ [] Hid Hrid Hreq Hput) as H. unfold resource_calls in H.
  rewrite !Forall_cons in H. destruct H as (_ & _ & Hs & Hr & _). cbn [reached] in Hs, Hr.
  rewrite Hs, Hr, !answered. unfold call, retrieve_with_request, store_inner, blackbook_api. cbn [api_store api_retrieve].
  rewrite !run_bind. split; [by rewrite (run_caller c)|]. destruct req. by rewrite (run_caller c).
Qed.
End reach.

(** ** A concrete server *)

#[local] Abbreviation nothing := (err 404 "not_found" "").
Definition toy_origin : string := "https://vault.example:8443".
Definition toy_http : BlackbookClient :=
  client_of (W := toy_web) toy_state 0 "1.0" (fun _ => None) nothing nothing nothing (Some (MkPeer "alice" "fp-a")) toy_origin "tok-a" "eng/ops & co" None.

Definition toy_args : AdminArgs :=
  MkAdminArgs "dév 1/2?x=%41#y" "bob the 2nd/3rd" "user" (Some 30) None (MkGrantAcl (Some "bob") None None "app/*" ["read"] None None (Some 3) None None None)
    "app/*" (MkGrantAdd "" (Some 1) (Some 24) None None) "123456" 50 (Some 100) None true "audit-1..9.bba" "7d9f-4c.2".

Lemma calls_reach_handlers_witness :
  (run (bb_whoami toy_http) toy_world).1 = Val (Ok (MkWhoamiView "c-alice" "alice" "user" "mtls+token" None)) /\
  Forall reached
    (resource_calls (W := toy_web) toy_state 0 "1.0" (fun _ => None) nothing nothing nothing (Some (MkPeer "alice" "fp-a")) toy_origin "tok-a" "eng/ops & co" None
       "café/100%" (Some "r-1") (MkStore "café/100%" "v" None (Some (MkPolicy 2 ["bob"; "carol"])) false None)
       (MkFilePut None default_flags true (Some 2) ["bob"; "carol"] false None false None false) (as_bytes "x")
     ++ key_calls (W := toy_web) toy_state 0 "1.0" (fun _ => None) nothing nothing nothing (Some (MkPeer "alice" "fp-a")) toy_origin "tok-a" "eng/ops & co" None
       "k?x=1#y" "hmac" false None "sign" (JObj [("input", JStr "aGk=")])
       (sign toy_state "k?x=1#y" "aGk=" (MkDomainQuery (Some "eng/ops & co")) (MkHeaders None None))
     ++ admin_calls (W := toy_web) toy_state 0 "1.0" (fun _ => None) nothing nothing nothing (Some (MkPeer "alice" "fp-a")) toy_origin "tok-a" "eng/ops & co" None toy_args).
Proof.
  split; [vm_compute; reflexivity|]. apply (calls_reach_handlers (W := toy_web)).
  - exists "vault.example:8443". repeat split; [discriminate|reflexivity..].
  - reflexivity.
  - intros c [=].
  - reflexivity.
  - intros s [= <-]. reflexivity.
  - split; [intros f [=]|intros p [= <-]; split; vm_compute; discriminate].
  - split; [intros z [=]|]. split; [intros z [= <-]; split; vm_compute; discriminate|intros s [=]].
  - reflexivity.
  - reflexivity.
  - split_and!. 1-4: reflexivity. 2: split; vm_compute; discriminate.
    all: intros z E; first [discriminate E | injection E as <-; split; vm_compute; discriminate].
Defined.
