(* ===== verification/Mcp.v ===== *)
(** The MCP server ([src/src/mcp.rs]): JSON-RPC over lines of standard input,
    offline tools over the crypto toolkit, online tools over the HTTP client.
    The log is left out, and the detail texts of decoding errors. *)
From stdpp Require Import pretty.
From S2P Require Import Prelude Text Unicode AccessRules Crypto Store Effects ServerBase Auth CryptoOps Admin Threshold Secrets Archive Keys Files CredStore Session External ClientSecrets Presentation KeyClient Client CryptoCommands.

Definition PROTO_LATEST : string := "2025-06-18".
Definition PROTO_SUPPORTED : list string := ["2024-11-05"; "2025-03-26"; "2025-06-18"].
Definition WRITE_TOOLS : list string := ["bbk_secret_put"; "bbk_secret_delete"; "bbk_key_create"; "bbk_key_rotate"].
Definition CARGO_PKG_VERSION : string := "0.4.0".

Record McpConfig := MkMcpConfig {
  mc_profile : option string;
  mc_offline : bool;
  mc_allow_write : bool;
  mc_domain : option string;
}.
Definition online (cfg : McpConfig) : bool := negb (mc_offline cfg) && is_set (mc_profile cfg).

(** ** JSON-RPC *)

(** [json!({...})]: the members in the order of their keys. *)
Definition obj (l : list (string * Json)) : Json := JObj (foldr (fun kv m => obj_insert kv.1 kv.2 m) [] l).
Definition strs (l : list string) : Json := JArr (map JStr l).

Definition rpc_result (id : option Json) (r : Json) : Json :=
  obj [("jsonrpc", JStr "2.0"); ("id", default JNull id); ("result", r)].
Definition rpc_error (id : Json) (code : Z) (message : string) : Json :=
  obj [("jsonrpc", JStr "2.0"); ("id", id); ("error", obj [("code", JNum code); ("message", JStr message)])].

Definition initialize_result (requested : option string) : Json :=
  let version := match requested with Some v => if one_of v PROTO_SUPPORTED then v else PROTO_LATEST | None => PROTO_LATEST end in
  obj [("protocolVersion", JStr version);
       ("capabilities", obj [("tools", obj [])]);
       ("serverInfo", obj [("name", JStr "blackbook"); ("version", JStr CARGO_PKG_VERSION)]);
       ("instructions", JStr ("Blackbook data-security tools. Offline tools (bbk_hash, bbk_hmac, bbk_random, "
         +:+ "bbk_encrypt, bbk_decrypt, bbk_derive_key, bbk_fingerprint, bbk_verify_signature, "
         +:+ "bbk_token_verify) run locally and never send data anywhere. Online tools talk "
         +:+ "to a Blackbook server as an authenticated client — including bbk_key_* tools "
         +:+ "that encrypt, sign, MAC and issue tokens with server-managed keys whose "
         +:+ "material never leaves the server. The server enforces its own ACLs/MFA, so "
         +:+ "you can only reach what this profile is allowed to. Never paste real "
         +:+ "secrets into a shared transcript."))].

Definition tool_text (text : string) (is_error : bool) : Json :=
  obj [("content", JArr [obj [("type", JStr "text"); ("text", JStr text)]]); ("isError", JBool is_error)].
Definition tool_ok (text : string) : Json := tool_text text false.
Definition tool_err (text : string) : Json := tool_text text true.

(** ** Tool catalogue *)

Definition tool (name description : string) (schema : Json) : Json :=
  obj [("name", JStr name); ("description", JStr description); ("inputSchema", schema)].
Definition schema (props : list (string * Json)) : Json := obj [("type", JStr "object"); ("properties", obj props)].
Definition schema_req (props : list (string * Json)) (required : list string) : Json :=
  obj [("type", JStr "object"); ("properties", obj props); ("required", strs required)].
Definition type_ (t : string) : Json := obj [("type", JStr t)].
Definition type_desc (t d : string) : Json := obj [("type", JStr t); ("description", JStr d)].
Definition string_ : Json := type_ "string".
Definition enum_ (values : list string) (dflt : string) : Json :=
  obj [("type", JStr "string"); ("enum", strs values); ("default", JStr dflt)].
Definition hash_enum : Json := enum_ ["sha3-256"; "sha3-512"; "sha256"; "sha512"] "sha3-256".
Definition bool_false : Json := obj [("type", JStr "boolean"); ("default", JBool false)].
Definition bool_desc (d : string) : Json := obj [("type", JStr "boolean"); ("default", JBool false); ("description", JStr d)].
Definition as_base64 : Json := bool_desc "Treat `data` as base64 rather than UTF-8 text.".

Definition key_tools : list (string * string * list (string * Json) * list string) := [
  ("bbk_key_encrypt",
   "Encrypt data with a server-managed AES-256-GCM key. Returns 'bbk:v<N>:' ciphertext; the key never leaves the server.",
   [("data", string_); ("data_base64", as_base64); ("aad", type_desc "string" "Associated data (text) that must match at decrypt.")],
   ["data"]);
  ("bbk_key_decrypt",
   "Decrypt 'bbk:v<N>:' ciphertext made by bbk_key_encrypt with the same managed key.",
   [("ciphertext", string_); ("aad", string_)], ["ciphertext"]);
  ("bbk_key_sign",
   "Sign data with a server-managed Ed25519 key. Returns 'bbk:v<N>:' signature and the public key.",
   [("data", string_); ("data_base64", as_base64)], ["data"]);
  ("bbk_key_hmac",
   "Keyed hash (HMAC) of data with a server-managed HMAC key. Returns 'bbk:v<N>:' MAC.",
   [("data", string_); ("data_base64", as_base64); ("algorithm", hash_enum)], ["data"]);
  ("bbk_key_verify",
   "Verify a 'bbk:v<N>:' signature (Ed25519 key) or MAC (HMAC key) over data.",
   [("data", string_); ("data_base64", as_base64); ("signature", string_); ("algorithm", hash_enum)], ["data"; "signature"]);
  ("bbk_key_token_issue",
   "Issue a signed JWT with a managed Ed25519 (EdDSA) or HMAC (HS256) key.",
   [("claims", type_desc "object" "Extra claims."); ("subject", string_); ("audience", string_); ("issuer", string_);
    ("ttl_secs", obj [("type", JStr "integer"); ("minimum", JNum 1); ("default", JNum 3600)])], []);
  ("bbk_key_token_verify",
   "Verify a JWT issued by a managed key (signature, expiry, not-before, optional audience) and return its claims.",
   [("token", string_); ("audience", string_)], ["token"])].

Definition offline_tools : list Json := [
  tool "bbk_hash" "Hash data with a chosen algorithm. Offline; nothing leaves the machine."
    (schema_req [("data", type_desc "string" "Input data."); ("algorithm", hash_enum); ("data_base64", as_base64)] ["data"]);
  tool "bbk_random" "Generate cryptographically secure random bytes (keys, tokens, passwords). Offline."
    (schema [("bytes", obj [("type", JStr "integer"); ("minimum", JNum 1); ("maximum", JNum 4096); ("default", JNum 32)]);
             ("encoding", obj [("type", JStr "string"); ("enum", strs ["hex"; "base64"; "base64url"; "token"]);
                               ("default", JStr "base64url"); ("description", JStr "`token` = URL-safe, unpadded.")])]);
  tool "bbk_encrypt"
    "Encrypt text under a passphrase (Argon2id -> AES-256-GCM). Returns a portable 'bbkx1:' envelope. Offline."
    (schema_req [("plaintext", string_); ("passphrase", type_desc "string" "Never stored; used only to derive the key.")]
       ["plaintext"; "passphrase"]);
  tool "bbk_decrypt" "Decrypt a 'bbkx1:' envelope produced by bbk_encrypt, using its passphrase. Offline."
    (schema_req [("envelope", string_); ("passphrase", string_)] ["envelope"; "passphrase"]);
  tool "bbk_derive_key"
    "Derive a 256-bit key from a passphrase with Argon2id (default), scrypt, or PBKDF2-HMAC-SHA3-512. Returns key + salt so it's reproducible. Offline."
    (schema_req [("passphrase", string_); ("algorithm", enum_ ["argon2id"; "scrypt"; "pbkdf2"] "argon2id");
                 ("salt_base64", type_desc "string" "Reuse a salt (base64). Omit to generate a fresh random 16-byte salt.")]
       ["passphrase"]);
  tool "bbk_fingerprint"
    "Human-verifiable fingerprint of data: OpenSSH-style randomart + braille + SHA3-256 hex. Offline."
    (schema_req [("data", string_); ("data_base64", bool_false)] ["data"]);
  tool "bbk_hmac"
    "Keyed hash (HMAC) of data with a caller-supplied key. Offline. For a server-held key use bbk_key_hmac."
    (schema_req [("data", string_); ("data_base64", bool_false); ("key_base64", type_desc "string" "The HMAC key, base64.");
                 ("algorithm", hash_enum)] ["data"; "key_base64"]);
  tool "bbk_verify_signature" "Verify an Ed25519 signature with a public key (e.g. from `bbk key show`). Offline."
    (schema_req [("data", string_); ("data_base64", bool_false); ("signature", type_desc "string" "bbk:v<N>:…, base64, or hex.");
                 ("public_key", type_desc "string" "Base64/hex key, PEM, or JWK.")] ["data"; "signature"; "public_key"]);
  tool "bbk_token_verify"
    "Verify an EdDSA (Ed25519) JWT with a public key and return its claims: checks signature, expiry, not-before, and optional audience. Offline."
    (schema_req [("token", string_); ("public_key", type_desc "string" "Base64/hex key, PEM, or JWK."); ("audience", string_)]
       ["token"; "public_key"])].

Definition key_tool (t : string * string * list (string * Json) * list string) : Json :=
  let '(name, desc, props, required) := t in
  tool name desc
    (schema_req (props ++ [("key", type_desc "string" "Managed key name."); ("domain", string_);
                           ("mfa", type_desc "string" "Current 6-digit TOTP code, if the key requires MFA.")])
       ("key" :: required)).

Definition read_tools : list Json := [
  tool "bbk_status" "Show the connected identity, server, and health of the Blackbook server this profile targets." (schema []);
  tool "bbk_secret_list"
    "List secret names and metadata (kind, read count, policy flags, K-of-N) in a domain. No values are returned."
    (schema [("domain", type_desc "string" "Override the default domain.")]);
  tool "bbk_secret_get"
    "Read a secret's value from the Blackbook server (subject to the server's ACL/MFA/K-of-N). Returns plaintext for server-side secrets."
    (schema_req [("name", string_); ("domain", string_);
                 ("mfa", type_desc "string" "Current 6-digit TOTP code, if the secret requires MFA.");
                 ("request_id", type_desc "string" "Approved K-of-N request id, if the secret is threshold-gated.")] ["name"]);
  tool "bbk_file_list" "List files stored on the Blackbook server (metadata only)." (schema [("domain", string_)])].

Definition key_list_tool : Json :=
  tool "bbk_key_list" "List managed keys (name, type, latest version) in a domain. No key material is returned."
    (schema [("domain", string_)]).

Definition write_tools : list Json := [
  tool "bbk_key_create" "Create a managed key on the Blackbook server. Requires --allow-write."
    (schema_req [("name", string_); ("key_type", enum_ ["aes256-gcm"; "ed25519"; "hmac"] "aes256-gcm");
                 ("mfa_required", bool_false); ("domain", string_)] ["name"]);
  tool "bbk_key_rotate"
    "Rotate a managed key (new version for new output; old versions still decrypt/verify). Requires --allow-write."
    (schema_req [("key", string_); ("domain", string_)] ["key"]);
  tool "bbk_secret_put" "Store (or overwrite) a secret on the Blackbook server. Requires --allow-write."
    (schema_req [("name", string_); ("value", string_); ("domain", string_); ("overwrite", bool_false);
                 ("mfa_required", bool_false); ("delete_on_read", bool_false);
                 ("max_reads", obj [("type", JStr "integer"); ("minimum", JNum 1)])] ["name"; "value"]);
  tool "bbk_secret_delete" "Delete a secret on the Blackbook server. Requires --allow-write."
    (schema_req [("name", string_); ("domain", string_)] ["name"])].

Definition tools_list (cfg : McpConfig) : list Json :=
  offline_tools
  ++ if online cfg then read_tools ++ map key_tool key_tools ++ [key_list_tool] ++ (if mc_allow_write cfg then write_tools else [])
     else [].

(** ** Arguments *)

Definition arg_str (args : Json) (key : string) : result string string :=
  ok_or ("missing required string argument '" +:+ key +:+ "'") (str_member key args).
Definition arg_str_opt (args : Json) (key : string) : option string := str_member key args.
Definition as_bool (j : Json) : option bool := match j with JBool b => Some b | _ => None end.
Definition arg_bool (args : Json) (key : string) (dflt : bool) : bool := default dflt (member key args ≫= as_bool).

Definition fmt_uptime (secs : Z) : string :=
  let d := secs / 86400 in let h := (secs mod 86400) / 3600 in let m := (secs mod 3600) / 60 in
  if 0 <? d then show_Z d +:+ "d " +:+ show_Z h +:+ "h " +:+ show_Z m +:+ "m"
  else if 0 <? h then show_Z h +:+ "h " +:+ show_Z m +:+ "m" else show_Z m +:+ "m".

Definition lines_text (l : list string) : string := String.concat nl l.

Section tools.
Context {P : Primitives} {O : OpsLib}.

Definition arg_data (args : Json) : result string bytes :=
  s ← arg_str args "data";
  if arg_bool args "data_base64" false
  then ok_or "data_base64 is set but the data isn't valid base64" (b64_decode (trim s)) else Ok (as_bytes s).

(** ** Offline tools *)

Definition tool_hash (args : Json) : result string string :=
  data ← arg_data args;
  alg ← HashAlg_parse (default "sha3-256" (arg_str_opt args "algorithm"));
  Ok (HashAlg_as_str alg +:+ ": " +:+ hex_encode (digest alg data)).

Definition tool_hmac (args : Json) : result string string :=
  data ← arg_data args;
  k ← arg_str args "key_base64";
  key ← ok_or "key_base64 is not valid base64" (b64_decode (trim k));
  alg ← HashAlg_parse (default "sha3-256" (arg_str_opt args "algorithm"));
  Ok ("hmac-" +:+ HashAlg_as_str alg +:+ ": " +:+ hex_encode (hmac alg key data)).

Definition tool_verify_signature (args : Json) : result string string :=
  data ← arg_data args;
  pk ← arg_str args "public_key"; pk ← parse_public_key pk;
  sig ← arg_str args "signature"; sig ← parse_tag sig;
  Ok (if op_ed25519_verify pk data sig then "valid" else "INVALID").

Definition valid_token (claims : JsonMap) : string := "valid token" +:+ nl +:+ json_pretty (JObj claims).

Definition tool_token_verify (args : Json) : M (result string string) :=
  pk ←? liftR (pk ← arg_str args "public_key"; parse_public_key pk);
  token ←? liftR (arg_str args "token");
  now ← now_unix;
  mret (Ok (match token_verify token (VerifyEd25519 pk) now (arg_str_opt args "audience") with
            | Ok claims => valid_token claims
            | Err reason => "INVALID token: " +:+ reason
            end)).

Definition tool_random (args : Json) : M (result string string) :=
  let n := default 32 (member "bytes" args ≫= as_uint u64_max) in
  if (n =? 0) || (4096 <? n) then mret (Err "bytes must be between 1 and 4096")
  else b ← op_random_bytes (Z.to_nat n); mret (op_encode b (default "base64url" (arg_str_opt args "encoding"))).

Definition tool_encrypt (args : Json) : M (result string string) :=
  plaintext ←? liftR (arg_str args "plaintext");
  passphrase ←? liftR (arg_str args "passphrase");
  salt ← draw PASSPHRASE_SALT_LEN;
  nonce ← draw 12;
  mret (passphrase_seal salt nonce (as_bytes plaintext) passphrase []).

Definition tool_decrypt (args : Json) : result string string :=
  envelope ← arg_str args "envelope";
  passphrase ← arg_str args "passphrase";
  pt ← passphrase_open envelope passphrase [];
  ok_or "decrypted bytes are not valid UTF-8 text" (from_utf8 pt).

Definition tool_derive_key (args : Json) : M (result string string) :=
  passphrase ←? liftR (arg_str args "passphrase");
  alg ←? liftR (KdfAlg_parse (default "argon2id" (arg_str_opt args "algorithm")));
  salt ←? match arg_str_opt args "salt_base64" with
          | Some s => liftR (ok_or "salt_base64 is not valid base64" (b64_decode (trim s)))
          | None => s ← op_random_bytes 16; mret (Ok s)
          end;
  liftR (key ← derive_key alg passphrase salt;
         Ok (lines_text ["algorithm: " +:+ KdfAlg_as_str alg; "key_base64: " +:+ b64_encode key;
                         "key_hex: " +:+ hex_encode key; "salt_base64: " +:+ b64_encode salt])).

Definition tool_fingerprint (args : Json) : result string string :=
  data ← arg_data args;
  let fp := digest Sha3_256 data in
  Ok (randomart fp "bbk" +:+ nl +:+ "braille: " +:+ braille fp +:+ nl +:+ "sha3-256: " +:+ hex_encode fp).

(** ** Online tools *)

Context {U : UrlLib} (env : Environment).
Context (http : string -> option string -> option string -> result ClientError (Request -> M (result ClientError Response))).

Definition text_of {T} (m : M (result ClientError T)) : M (result string T) := map_err_m client_msg m.

Definition could_not_open (profile : string) (e : ClientError) : string :=
  "could not open profile '" +:+ profile +:+ "': " +:+ client_msg e +:+ ". Unlock it first: `bbk -P " +:+ profile
  +:+ " unlock`, or set $BLACKBOOK_PASSPHRASE in the MCP server's environment.".

Definition online_client (cfg : McpConfig) (args : Json) : M (result string BlackbookClient) :=
  profile ←? liftR (ok_or "no Blackbook profile is configured" (mc_profile cfg));
  session ←? map_err_m (could_not_open profile) (load_named env profile);
  bb ←? liftR (map_err client_msg (from_session env http session));
  mret (Ok (match arg_str_opt args "domain" with
            | Some d => with_domain bb d
            | None => match mc_domain cfg with Some d => with_domain bb d | None => bb end
            end)).

Definition status_text (bb : BlackbookClient) (who : WhoamiView) (health : option Health) : string :=
  lines_text
    (["identity: " +:+ wv_name who +:+ " (" +:+ wv_role who +:+ ") — id " +:+ wv_id who;
      "auth: " +:+ wv_auth_method who; "server: " +:+ bb_server bb]
     ++ match wv_user_domain who with Some ud => ["user domain: " +:+ ud] | None => [] end
     ++ match health with
        | Some h => ["health: " +:+ hv_status h +:+ " (db " +:+ hv_database h +:+ "), version " +:+ hv_version h
                     +:+ ", uptime " +:+ fmt_uptime (hv_uptime h)]
        | None => []
        end).

Definition secret_line (r : ResourceSummary) : string :=
  "  " +:+ rs_name r +:+ " [" +:+ (if rs_external r then "external" else "server") +:+ "]"
  +:+ (if is_set (rs_exhausted_at r) then " [exhausted]" else "")
  +:+ match rs_threshold_k r, rs_signatory_count r with
      | Some k, Some n => " quorum " +:+ show_Z k +:+ "-of-" +:+ show_Z n
      | _, _ => ""
      end
  +:+ " (reads: " +:+ show_Z (rs_read_count r) +:+ ")".

Definition file_line (f : FileSummary) : string :=
  "  " +:+ fi_name f +:+ " (" +:+ show_Z (fi_size f) +:+ " bytes, " +:+ default "application/octet-stream" (fi_mime f) +:+ ")".

Definition key_line (k : KeySummary) : string :=
  "  " +:+ ks_name k +:+ " [" +:+ ks_key_type k +:+ "] v" +:+ show_Z (ks_latest_version k)
  +:+ (if ks_mfa_required k then " (MFA required)" else "").

Definition with_mfa_arg (bb : BlackbookClient) (args : Json) : BlackbookClient :=
  match arg_str_opt args "mfa" with Some code => with_mfa bb code | None => bb end.

Definition external_note (name : string) : string :=
  "secret '" +:+ name +:+ "' is client-side encrypted (external): the server only holds an "
  +:+ "opaque envelope. Decrypt it with the bbk CLI (which holds the client key).".

(** The endpoint and the request of a key operation. *)
Definition key_request (name : string) (args : Json) : result string (string * Json) :=
  let aad := opt_json (fun a => JStr (b64_encode (as_bytes a))) (arg_str_opt args "aad") in
  let opt k := opt_json JStr (arg_str_opt args k) in
  if String.eqb name "bbk_key_encrypt" then
    d ← arg_data args; Ok ("encrypt", obj [("plaintext", JStr (b64_encode d)); ("aad", aad)])
  else if String.eqb name "bbk_key_decrypt" then
    c ← arg_str args "ciphertext"; Ok ("decrypt", obj [("ciphertext", JStr c); ("aad", aad)])
  else if String.eqb name "bbk_key_sign" then d ← arg_data args; Ok ("sign", obj [("input", JStr (b64_encode d))])
  else if String.eqb name "bbk_key_hmac" then
    d ← arg_data args; Ok ("hmac", obj [("input", JStr (b64_encode d)); ("algorithm", opt "algorithm")])
  else if String.eqb name "bbk_key_verify" then
    d ← arg_data args; s ← arg_str args "signature";
    Ok ("verify", obj [("input", JStr (b64_encode d)); ("signature", JStr s); ("algorithm", opt "algorithm")])
  else if String.eqb name "bbk_key_token_issue" then
    Ok ("token", obj [("claims", default JNull (member "claims" args)); ("subject", opt "subject");
                      ("audience", opt "audience"); ("issuer", opt "issuer");
                      ("ttl_secs", opt_json JNum (member "ttl_secs" args ≫= as_i64))])
  else if String.eqb name "bbk_key_token_verify" then
    t ← arg_str args "token"; Ok ("token/verify", obj [("token", JStr t); ("audience", opt "audience")])
  else Err ("unknown online tool: " +:+ name).

Definition field (v : Json) (k : string) : result string string :=
  ok_or ("server response is missing '" +:+ k +:+ "'") (str_member k v).
Definition is_valid (r : Json) : bool := match member "valid" r with Some (JBool true) => true | _ => false end.

Definition key_answer (op : string) (r : Json) : result string string :=
  if String.eqb op "encrypt" then field r "ciphertext"
  else if String.eqb op "decrypt" then
    p ← field r "plaintext"; pt ← ok_or "server returned bad base64" (b64_decode p);
    Ok (default ("(binary plaintext, base64) " +:+ b64_encode pt) (from_utf8 pt))
  else if String.eqb op "sign" then
    s ← field r "signature"; k ← field r "public_key"; Ok ("signature: " +:+ s +:+ nl +:+ "public key: " +:+ k)
  else if String.eqb op "hmac" then field r "hmac"
  else if String.eqb op "verify" then Ok (if is_valid r then "valid" else "INVALID")
  else if String.eqb op "token" then
    t ← field r "token"; e ← field r "expires_at"; Ok (t +:+ nl +:+ "(expires " +:+ e +:+ ")")
  else
    Ok (if is_valid r then "valid token" +:+ nl +:+ json_pretty (default JNull (member "claims" r))
        else "INVALID token: " +:+ default "unknown" (str_member "reason" r)).

Definition call_key_op (bb : BlackbookClient) (name : string) (args : Json) : M (result string string) :=
  let bb := with_mfa_arg bb args in
  key ←? liftR (arg_str args "key");
  '(op, body) ←? liftR (key_request name args);
  r ←? text_of (bb_key_op bb key op body);
  liftR (key_answer op r).

Definition put_flags_of (args : Json) : ResourceFlags :=
  MkFlags (arg_bool args "mfa_required" false) (arg_bool args "delete_on_read" false) (member "max_reads" args ≫= as_i64)
    false false false.

Definition call_online (cfg : McpConfig) (name : string) (args : Json) : M (result string string) :=
  bb ←? online_client cfg args;
  if String.eqb name "bbk_status" then
    who ←? text_of (bb_whoami bb);
    health ← bb_health bb;
    mret (Ok (status_text bb who (ok health)))
  else if String.eqb name "bbk_secret_list" then
    '(l, count) ←? text_of (bb_list bb);
    mret (Ok (match l with
              | [] => "(no secrets in this domain)"
              | _ => lines_text ((show_Z count +:+ " secret(s):") :: map secret_line l)
              end))
  else if String.eqb name "bbk_secret_get" then
    let bb := with_mfa_arg bb args in
    n ←? liftR (arg_str args "name");
    r ←? text_of (bb_retrieve_with_request bb n (arg_str_opt args "request_id"));
    mret (Ok (if rt_external r then external_note (rt_resource_name r) else rt_data r))
  else if String.eqb name "bbk_file_list" then
    '(l, count) ←? text_of (bb_file_list bb);
    mret (Ok (match l with
              | [] => "(no files in this domain)"
              | _ => lines_text ((show_Z count +:+ " file(s):") :: map file_line l)
              end))
  else if String.eqb name "bbk_secret_put" then
    n ←? liftR (arg_str args "name");
    v ←? liftR (arg_str args "value");
    let flags := put_flags_of args in
    let any_flag := mfa_required flags || delete_on_read flags || is_set (max_reads flags) in
    r ←? text_of (bb_store bb n v (if any_flag then Some flags else None) None (arg_bool args "overwrite" false));
    mret (Ok ("stored '" +:+ st_resource_name r +:+ "' (" +:+ st_encryption_method r +:+ ") at " +:+ st_created_at r))
  else if String.eqb name "bbk_secret_delete" then
    n ←? liftR (arg_str args "name");
    _ ←? text_of (bb_delete bb n);
    mret (Ok ("deleted '" +:+ n +:+ "'"))
  else if String.eqb name "bbk_key_list" then
    l ←? text_of (bb_key_list bb);
    mret (Ok (match kl_keys l with
              | [] => "(no managed keys in this domain)"
              | ks => lines_text ((show_Z (kl_count l) +:+ " key(s):") :: map key_line ks)
              end))
  else if String.eqb name "bbk_key_create" then
    n ←? liftR (arg_str args "name");
    k ←? text_of (bb_key_create bb n (default "aes256-gcm" (arg_str_opt args "key_type"))
                    (arg_bool args "mfa_required" false) None);
    mret (Ok ("created " +:+ ks_key_type k +:+ " key '" +:+ ks_name k +:+ "' (v" +:+ show_Z (ks_latest_version k) +:+ ")"
              +:+ match ks_public_key k with Some pk => nl +:+ "public key: " +:+ pk | None => "" end))
  else if String.eqb name "bbk_key_rotate" then
    n ←? liftR (arg_str args "key");
    k ←? text_of (bb_key_rotate bb n);
    mret (Ok ("rotated '" +:+ ks_name k +:+ "' — new output uses v" +:+ show_Z (ks_latest_version k)))
  else call_key_op bb name args.

(** ** Dispatch *)

Definition ONLINE_TOOLS : list string :=
  ["bbk_status"; "bbk_secret_list"; "bbk_secret_get"; "bbk_file_list"; "bbk_secret_put"; "bbk_secret_delete";
   "bbk_key_list"; "bbk_key_create"; "bbk_key_rotate"; "bbk_key_encrypt"; "bbk_key_decrypt"; "bbk_key_sign";
   "bbk_key_hmac"; "bbk_key_verify"; "bbk_key_token_issue"; "bbk_key_token_verify"].

Definition run_tool (cfg : McpConfig) (name : string) (args : Json) : M (result string string) :=
  if String.eqb name "bbk_hash" then liftR (tool_hash args)
  else if String.eqb name "bbk_random" then tool_random args
  else if String.eqb name "bbk_encrypt" then tool_encrypt args
  else if String.eqb name "bbk_decrypt" then liftR (tool_decrypt args)
  else if String.eqb name "bbk_derive_key" then tool_derive_key args
  else if String.eqb name "bbk_fingerprint" then liftR (tool_fingerprint args)
  else if String.eqb name "bbk_hmac" then liftR (tool_hmac args)
  else if String.eqb name "bbk_verify_signature" then liftR (tool_verify_signature args)
  else if String.eqb name "bbk_token_verify" then tool_token_verify args
  else if one_of name ONLINE_TOOLS then
    if negb (online cfg) then
      mret (Err "online tools are disabled — this MCP server was started offline or with no profile")
    else if one_of name WRITE_TOOLS && negb (mc_allow_write cfg) then
      mret (Err "writes are disabled — restart the MCP server with `--allow-write` to enable this tool")
    else call_online cfg name args
  else mret (Err ("unknown tool: " +:+ name)).

Definition call_tool (cfg : McpConfig) (params : option Json) : M Json :=
  match params with
  | None => mret (tool_err "missing params")
  | Some params =>
      match str_member "name" params with
      | None => mret (tool_err "missing tool name")
      | Some name =>
          outcome ← run_tool cfg name (default (JObj []) (member "arguments" params));
          mret (match outcome with Ok text => tool_ok text | Err msg => tool_err msg end)
      end
  end.

(** One line of input: what is sent back, if anything. *)
Definition handle_line (cfg : McpConfig) (line : string) : M (option Json) :=
  let line := trim line in
  if String.eqb line "" then mret None
  else
    match to_value <$> json_from_slice (as_bytes line) with
    | None => mret (Some (rpc_error JNull (- 32700) "parse error"))
    | Some msg =>
        let id := member "id" msg in
        let method := default "" (str_member "method" msg) in
        if String.eqb method "initialize" then
          mret (Some (rpc_result id (initialize_result (p ← member "params" msg; str_member "protocolVersion" p))))
        else if String.eqb method "ping" then mret (Some (rpc_result id (obj [])))
        else if String.eqb method "tools/list" then mret (Some (rpc_result id (obj [("tools", JArr (tools_list cfg))])))
        else if String.eqb method "tools/call" then
          r ← call_tool cfg (member "params" msg); mret (Some (rpc_result id r))
        else if starts_with "notifications/" method then mret None
        else mret (match id with
                   | Some id => Some (rpc_error id (- 32601) ("method not found: " +:+ method))
                   | None => None
                   end)
    end.

(** What goes to standard output, message by message, until the input ends. *)
Fixpoint mcp_lines (cfg : McpConfig) (lines : list string) : M (list Json) :=
  match lines with
  | [] => mret []
  | line :: lines =>
      sent ← handle_line cfg line;
      rest ← mcp_lines cfg lines;
      mret (match sent with Some j => j :: rest | None => rest end)
  end.

End tools.

(** Standard input is the protocol's: prompts are suppressed. *)
Definition no_prompt (env : Environment) : Environment :=
  MkEnv (fun k => if String.eqb k "BLACKBOOK_NO_PROMPT" then Some "1" else env_var env k) (home_dir env) (terminal env).

Section server.
Context {P : Primitives} {O : OpsLib} {U : UrlLib} (env : Environment).
Context (http : string -> option string -> option string -> result ClientError (Request -> M (result ClientError Response))).

Definition mcp_run (cfg : McpConfig) (lines : list string) : M (list Json) := mcp_lines (no_prompt env) http cfg lines.

(** [bbk mcp]: the profile is used only if it is on disk. *)
Definition cmd_mcp (profile : string) (offline allow_write : bool) (domain : option string) (lines : list string) : M (list Json) :=
  p ← (if offline then mret None
       else match path_for env profile with
            | Ok path => there ← fs_exists path; mret (if there : bool then Some profile else None)
            | Err _ => mret None
            end);
  mcp_run (MkMcpConfig p offline allow_write domain) lines.
End server.
