(* ===== verification/McpProps.v ===== *)
(** Theorems on the MCP server: what an offline or a read-only server can reach,
    which lines are answered, and the round trip of its passphrase tools. *)
From S2P Require Import Prelude Text Unicode AccessRules Crypto ToyPrimitives Store Effects Concurrency ServerBase ToyPlatform Auth CryptoOps ToyOps CryptoOpsProps Admin Threshold Secrets Archive Keys Files CredStore Session SessionProps External ClientSecrets Presentation KeyClient Client CryptoCommands CryptoCommandsProps Mcp.

(** ** Programs with the same runs *)

Definition same_run {A} (m m' : M A) : Prop := forall w, run m w = run m' w.

#[export] Instance same_run_equiv A : Equivalence (@same_run A).
Proof. split; [by intros m w|by intros m m' H w|intros x y z H1 H2 w; by rewrite H1]. Qed.

Lemma same_bind {A B} (m m' : M A) (f g : A -> M B) :
  same_run m m' -> (forall a, same_run (f a) (g a)) -> same_run (m ≫= f) (m' ≫= g).
Proof. intros Hm Hf w. rewrite !run_bind, (Hm w). destruct (run m' w) as [[a|r|s e] w1]; [apply Hf|done..]. Qed.

Lemma same_try {E A B} (m m' : M (result E A)) (f g : A -> M (result E B)) :
  same_run m m' -> (forall a, same_run (f a) (g a)) -> same_run (try_bind m f) (try_bind m' g).
Proof. intros Hm Hf. apply same_bind; [done|]. intros [a|e]; [apply Hf|reflexivity]. Qed.

Lemma same_map_err {E F A} (f : E -> F) (m m' : M (result E A)) : same_run m m' -> same_run (map_err_m f m) (map_err_m f m').
Proof. intros H. apply same_bind; [done|]. reflexivity. Qed.

(** ** The tools on offer *)

Definition tool_names (cfg : McpConfig) : list string := omap (str_member "name") (tools_list cfg).

Definition required_declared (t : Json) : bool :=
  match member "inputSchema" t ≫= member "properties", member "inputSchema" t with
  | Some (JObj props), Some s =>
      match member "required" s with
      | Some r => match as_list as_str r with Some l => forallb (fun k => is_set (member k (JObj props))) l | None => false end
      | None => true
      end
  | _, _ => false
  end.

Lemma tools_list_cases cfg :
  exists o w, online cfg = o /\ mc_allow_write cfg = w /\
    tools_list cfg = tools_list (MkMcpConfig (if o then Some "" else None) false w None).
Proof. exists (online cfg), (mc_allow_write cfg). unfold tools_list. destruct (online cfg), (mc_allow_write cfg); done. Qed.

Definition READ_TOOLS : list string :=
  ["bbk_status"; "bbk_secret_list"; "bbk_secret_get"; "bbk_file_list"; "bbk_key_encrypt"; "bbk_key_decrypt"; "bbk_key_sign";
   "bbk_key_hmac"; "bbk_key_verify"; "bbk_key_token_issue"; "bbk_key_token_verify"; "bbk_key_list"].
Definition OFFLINE_TOOLS : list string :=
  ["bbk_hash"; "bbk_random"; "bbk_encrypt"; "bbk_decrypt"; "bbk_derive_key"; "bbk_fingerprint"; "bbk_hmac";
   "bbk_verify_signature"; "bbk_token_verify"].

Lemma one_of_incl n l l' : forallb (fun x => one_of x l') l = true -> one_of n l = true -> one_of n l' = true.
Proof.
  intros Hl (x & Hx & ->%String.eqb_eq)%existsb_exists. by apply (proj1 (forallb_forall _ _) Hl).
Qed.

Lemma one_of_app n l l' : one_of n (l ++ l') = one_of n l || one_of n l'.
Proof. apply existsb_app. Qed.

Lemma listed cfg name :
  one_of name (tool_names cfg) =
    one_of name OFFLINE_TOOLS ||
    (online cfg && (one_of name READ_TOOLS || (mc_allow_write cfg && one_of name WRITE_TOOLS))).
Proof.
  destruct (tools_list_cases cfg) as (o & w & -> & -> & H). unfold tool_names. rewrite H.
  set (W := ["bbk_key_create"; "bbk_key_rotate"; "bbk_secret_put"; "bbk_secret_delete"]).
  assert (Hn : omap (str_member "name") (tools_list (MkMcpConfig (if o then Some "" else None) false w None)) =
    OFFLINE_TOOLS ++ if o then READ_TOOLS ++ if w then W else [] else []) by (destruct o, w; vm_compute; reflexivity).
  assert (HW : one_of name W = one_of name WRITE_TOOLS)
    by (apply eq_true_iff_eq; split; apply one_of_incl; reflexivity).
  rewrite Hn. destruct o, w; cbn [andb]; rewrite ?one_of_app, ?HW; reflexivity.
Qed.

Section mcp.
Context {P : Primitives} {O : OpsLib} {U : UrlLib}.
Implicit Types (env : Environment) (cfg : McpConfig).

Abbreviation Connector := (string -> option string -> option string -> result ClientError (Request -> M (result ClientError Response))).

(** Two networks that answer the requests of a set alike. *)
Definition agree (Q : Request -> Prop) (http http' : Connector) : Prop :=
  forall ca cert key,
    match http ca cert key, http' ca cert key with
    | Ok f, Ok f' => forall rq, Q rq -> same_run (f rq) (f' rq)
    | Err e, Err e' => e = e'
    | _, _ => False
    end.

(** What a server without [--allow-write] may send: reads, and the retrieval of
    a secret or an operation under a managed key. *)
Definition KEY_OPS : list string := ["encrypt"; "decrypt"; "sign"; "hmac"; "verify"; "token"; "token/verify"].
Definition read_path (path : string) : Prop :=
  path = "/api/v1/retrieve" \/ exists key op, op ∈ KEY_OPS /\ path = "/api/v1/keys/" +:+ urlencoding_simple key +:+ "/" +:+ op.
Definition read_request (rq : Request) : Prop :=
  rq_method rq = GET \/
  rq_method rq = POST /\ exists bb path, read_path path /\ rq_url rq = rq_url (req_in_domain bb POST path).

(** Two clients over such networks. *)
Definition agreeing (Q : Request -> Prop) (bb bb' : BlackbookClient) : Prop :=
  (forall rq, Q rq -> same_run (bb_http bb rq) (bb_http bb' rq)) /\
  bb_server bb = bb_server bb' /\ bb_token bb = bb_token bb' /\ bb_domain bb = bb_domain bb' /\ bb_mfa bb = bb_mfa bb'.

Lemma agreeing_req Q bb bb' m path : agreeing Q bb bb' ->
  req bb m path = req bb' m path /\ req_in_domain bb m path = req_in_domain bb' m path.
Proof. intros (_ & Hs & Ht & Hd & Hm). unfold req_in_domain, req, auth_headers. by rewrite Hs, Ht, Hd, Hm. Qed.

Lemma agreeing_mfa Q bb bb' args : agreeing Q bb bb' -> agreeing Q (with_mfa_arg bb args) (with_mfa_arg bb' args).
Proof. intros (Hh & Hs & Ht & Hd & Hm). unfold with_mfa_arg. case_match; split_and!; done. Qed.

Lemma req_in_domain_method bb m path : rq_method (req_in_domain bb m path) = m.
Proof. unfold req_in_domain. by case_match. Qed.

Lemma post_read bb path j h v : read_path path ->
  read_request (json_body (req_in_domain bb POST path) j) /\
  read_request (add_header (json_body (req_in_domain bb POST path) j) h v).
Proof.
  intros Hp. assert (H : forall r, rq_method r = rq_method (req_in_domain bb POST path) ->
    rq_url r = rq_url (req_in_domain bb POST path) -> read_request r).
  { intros r Hm Hu. right. rewrite Hm, req_in_domain_method, Hu. split; [done|by exists bb, path]. }
  split; apply H; try reflexivity; by destruct v.
Qed.

Lemma same_sent {T} Q bb bb' (parse : Json -> option T) r r' : agreeing Q bb bb' -> r = r' -> Q r ->
  same_run (handle parse (bb_http bb r)) (handle parse (bb_http bb' r')).
Proof. intros (Hh & _) <- HQ. apply same_try; [by apply Hh|]. reflexivity. Qed.

Lemma same_get {T} bb bb' (parse : Json -> option T) r r' : agreeing read_request bb bb' -> r = r' -> rq_method r = GET ->
  same_run (text_of (handle parse (bb_http bb r))) (text_of (handle parse (bb_http bb' r'))).
Proof. intros H Hr Hm. apply same_map_err, (same_sent read_request); [done..|by left]. Qed.

Lemma key_request_op name args op body : key_request name args = Ok (op, body) -> op ∈ KEY_OPS.
Proof.
  unfold key_request. intros H. repeat case_match; try discriminate;
    repeat match goal with H : _ ≫= _ = Ok _ |- _ => apply result_bind_Ok in H as (? & _ & H) end; simplify_eq;
    unfold KEY_OPS; set_solver.
Qed.

Lemma same_key_op bb bb' name args : agreeing read_request bb bb' ->
  same_run (call_key_op bb name args) (call_key_op bb' name args).
Proof.
  intros H. unfold call_key_op. cbv zeta. apply (agreeing_mfa _ _ _ args) in H. set (b := with_mfa_arg bb args) in *.
  set (b' := with_mfa_arg bb' args) in *. clearbody b b'.
  apply same_try; [reflexivity|intros key]. destruct (key_request name args) as [[op body]|e] eqn:E; [|reflexivity].
  apply key_request_op in E. change (try_bind (liftR (Ok (op, body))) ?f) with (f (op, body)). cbv beta match.
  destruct (agreeing_req _ _ _ POST ("/api/v1/keys/" +:+ urlencoding_simple key +:+ "/" +:+ op) H) as [_ Hreq].
  apply same_try; [apply same_map_err|intros r; reflexivity].
  apply (same_sent read_request); [done|by rewrite Hreq|].
  apply (post_read _ _ _ "" None). right. by exists key, op.
Qed.

(** What a program ends with, up to a relation on the values. *)
Definition ends_alike {E A} (R : A -> A -> Prop) (m m' : M (result E A)) : Prop :=
  forall w, match run m w, run m' w with
            | (Val (Ok a), w1), (Val (Ok b), w2) => R a b /\ w1 = w2
            | (Val (Ok _), _), _ | _, (Val (Ok _), _) => False
            | x, y => x = y
            end.

Lemma ends_try {E A B} (R : A -> A -> Prop) (m m' : M (result E A)) (f g : A -> M (result E B)) :
  ends_alike R m m' -> (forall a b, R a b -> same_run (f a) (g b)) -> same_run (try_bind m f) (try_bind m' g).
Proof.
  intros Hm Hf w. specialize (Hm w). unfold try_bind. rewrite !run_bind.
  destruct (run m w) as [[[a|e]|r|s e] w1], (run m' w) as [[[b|e']|r'|s' e'] w2]; simplify_eq/=; try done; try reflexivity.
  destruct Hm as [Hab ->]. by apply Hf.
Qed.

Lemma same_ends {E A B} (R : B -> B -> Prop) (m : M (result E A)) (f g : A -> M (result E B)) :
  (forall a, ends_alike R (f a) (g a)) -> ends_alike R (try_bind m f) (try_bind m g).
Proof. intros Hf w. unfold try_bind. rewrite !run_bind. destruct (run m w) as [[[a|e]|r|s e] w1]; [apply Hf|done..]. Qed.

Lemma online_client_agrees env Q http http' cfg args : agree Q http http' ->
  ends_alike (agreeing Q) (online_client env http cfg args) (online_client env http' cfg args).
Proof.
  intros Ha. unfold online_client. apply same_ends. intros profile. apply same_ends. intros session w. unfold from_session.
  destruct (ok_or no_ca (se_ca_pem session)) as [ca|e]; [|reflexivity]. specialize (Ha ca (se_cert_pem session) (se_key_pem session)).
  cbn. destruct (http _ _ _) as [f|e], (http' _ _ _) as [f'|e']; cbn; [|done..|by subst].
  split; [|reflexivity]. repeat case_match; by split_and!.
Qed.

Lemma online_read_only env http http' cfg name args : one_of name WRITE_TOOLS = false -> agree read_request http http' ->
  same_run (call_online env http cfg name args) (call_online env http' cfg name args).
Proof.
  intros Hw Ha. unfold call_online. apply (ends_try (agreeing read_request)); [by apply online_client_agrees|].
  intros bb bb' H. unfold WRITE_TOOLS, one_of, existsb in Hw. rewrite !orb_false_iff in Hw. destruct Hw as (-> & -> & -> & -> & _).
  assert (Hreq : forall m path, req bb m path = req bb' m path) by (intros; by eapply agreeing_req).
  assert (Hdom : forall m path, req_in_domain bb m path = req_in_domain bb' m path) by (intros; by eapply agreeing_req).
  assert (Hg : forall path, rq_method (req_in_domain bb GET path) = GET) by (intros; apply req_in_domain_method).
  repeat (match goal with |- same_run (if ?b then _ else _) _ => destruct b end).
  - apply same_try; [by apply same_get; [|apply Hreq|]|intros who]. apply same_bind;
      [|intros hv; unfold status_text; by rewrite (proj1 (proj2 H))].
    by apply (same_sent read_request); [|apply Hreq|left].
  - apply same_try; [by apply same_get; [|apply Hdom|apply Hg]|intros []; reflexivity].
  - cbv zeta. apply (agreeing_mfa _ _ _ args) in H. apply same_try; [reflexivity|intros n].
    apply same_try; [apply same_map_err|reflexivity]. apply (same_sent read_request); [done|by rewrite (proj2 (agreeing_req _ _ _ _ _ H))|].
    apply post_read. by left.
  - apply same_try; [by apply same_get; [|apply Hdom|apply Hg]|intros []; reflexivity].
  - apply same_try; [by apply same_get; [|apply Hdom|apply Hg]|reflexivity].
  - by apply same_key_op.
Qed.

(** A call of an unlisted tool is refused, and nothing happens. *)
Lemma unlisted_refused env http cfg name args : one_of name (tool_names cfg) = false ->
  exists msg, run_tool env http cfg name args = mret (Err msg).
Proof.
  rewrite listed. intros [Hoff Hon]%orb_false_iff. unfold run_tool.
  unfold OFFLINE_TOOLS in Hoff. unfold one_of in Hoff at 1. unfold existsb in Hoff. rewrite !orb_false_iff in Hoff.
  destruct Hoff as (-> & -> & -> & -> & -> & -> & -> & -> & -> & _).
  destruct (one_of name ONLINE_TOOLS) eqn:E; [|by eexists]. destruct (online cfg); [|by eexists]. cbn [negb andb] in *.
  apply orb_false_iff in Hon as [Hr Hw].
  assert (Hall : one_of name (READ_TOOLS ++ WRITE_TOOLS) = true) by (by eapply one_of_incl; [|exact E]).
  rewrite one_of_app, Hr in Hall. cbn [orb] in Hall. rewrite Hall in Hw |- *. rewrite andb_true_r in Hw. rewrite Hw. by eexists.
Qed.

Lemma run_tool_offline env http env' http' cfg name args : online cfg = false ->
  run_tool env http cfg name args = run_tool env' http' cfg name args /\ writes [] (run_tool env http cfg name args).
Proof.
  intros H. unfold run_tool. rewrite H. cbn [negb].
  split; [by repeat case_match|].
  unfold tool_random, tool_encrypt, tool_derive_key, tool_token_verify, liftR, now_unix, op_random_bytes. solve_writes.
Qed.

Lemma run_tool_read_only env http http' cfg name args : mc_allow_write cfg = false -> agree read_request http http' ->
  same_run (run_tool env http cfg name args) (run_tool env http' cfg name args).
Proof.
  intros Hw Ha. unfold run_tool. repeat (match goal with |- same_run (if ?b then _ else _) _ => destruct b eqn:? end; try reflexivity).
  apply online_read_only; [|done]. rewrite Hw in *. cbn in *. by rewrite andb_true_r in *.
Qed.

(** Prompts are never asked. *)
Definition with_terminal (t : string -> option string) env : Environment := MkEnv (env_var env) (home_dir env) t.

Lemma run_tool_no_prompt t env http cfg name args :
  run_tool (no_prompt (with_terminal t env)) http cfg name args = run_tool (no_prompt env) http cfg name args.
Proof. reflexivity. Qed.

(** What holds of every tool call holds of the server. *)
Lemma server_same env http env' http' cfg lines :
  (forall name args, same_run (run_tool env http cfg name args) (run_tool env' http' cfg name args)) ->
  same_run (mcp_lines env http cfg lines) (mcp_lines env' http' cfg lines).
Proof.
  intros Ht. induction lines as [|line lines IH]; [reflexivity|]. cbn [mcp_lines]. apply same_bind; [|intros o; apply same_bind; [done|reflexivity]].
  unfold handle_line, call_tool. repeat case_match; try reflexivity. apply same_bind; [|reflexivity]. apply same_bind; [done|reflexivity].
Qed.

Lemma server_writes ps env http cfg lines :
  (forall name args, writes ps (run_tool env http cfg name args)) -> writes ps (mcp_lines env http cfg lines).
Proof.
  intros Ht. induction lines as [|line lines IH]; [exact I|]. cbn [mcp_lines]. unfold handle_line, call_tool.
  repeat first [exact IH | apply Ht | writes_step].
Qed.

(** C18. The MCP server stays within what it was started for. A tool that it
    does not list is refused, and nothing happens. Offline, or without a profile,
    no input makes it use the network, a profile or the environment: with any
    others it sends the same answers, and it leaves files and tables alone.
    Without [--allow-write] no input makes it send a request other than reads,
    the retrieval of a secret and operations under a managed key: of two networks
    that answer those alike, it cannot tell which one it is on. It never reads
    the terminal, and every schema on offer declares the properties it requires. *)
Theorem mcp_confined env http cfg lines w :
  (forall name args, one_of name (tool_names cfg) = false ->
     exists msg, run (run_tool env http cfg name args) w = (Val (Err msg), w)) /\
  (online cfg = false ->
     (forall env' http', run (mcp_run env http cfg lines) w = run (mcp_run env' http' cfg lines) w) /\
     frame [] w (run (mcp_run env http cfg lines) w).2) /\
  (mc_allow_write cfg = false -> forall http', agree read_request http http' ->
     run (mcp_run env http cfg lines) w = run (mcp_run env http' cfg lines) w) /\
  (forall t, run (mcp_run (with_terminal t env) http cfg lines) w = run (mcp_run env http cfg lines) w) /\
  forallb required_declared (tools_list cfg) = true.
Proof.
  unfold mcp_run. split_and!.
  - intros name args H. destruct (unlisted_refused env http cfg name args H) as [msg ->]. by exists msg.
  - intros H. split.
    + intros env' http'. apply (server_same (no_prompt _) _ (no_prompt _)). intros name args.
      by destruct (run_tool_offline (no_prompt env) http (no_prompt env') http' cfg name args H) as [-> _].
    + apply writes_run, server_writes. intros name args. by apply (run_tool_offline _ http env http).
  - intros Hw http' Ha. apply (server_same (no_prompt _) _ (no_prompt _)). intros name args. by apply run_tool_read_only.
  - intros t. apply (server_same (no_prompt _) _ (no_prompt _)). intros name args. by rewrite run_tool_no_prompt.
  - destruct (tools_list_cases cfg) as (o & a & _ & _ & ->). destruct o, a; vm_compute; reflexivity.
Qed.

(** ** Framing *)

(** The id that the answer to a line carries, when the line is answered. *)
Definition METHODS : list string := ["initialize"; "ping"; "tools/list"; "tools/call"].
Definition answer_id (line : string) : option Json :=
  if String.eqb (trim line) "" then None
  else match to_value <$> json_from_slice (as_bytes (trim line)) with
       | None => Some JNull
       | Some msg =>
           let method := default "" (str_member "method" msg) in
           if one_of method METHODS then Some (default JNull (member "id" msg))
           else if starts_with "notifications/" method then None else member "id" msg
       end.

Lemma handle_line_id env http cfg line w o w' :
  run (handle_line env http cfg line) w = (Val o, w') -> member "id" <$> o = Some <$> answer_id line.
Proof.
  unfold handle_line, answer_id, METHODS, one_of, existsb. cbv zeta. destruct (String.eqb (trim line) ""); [by intros [= <- _]|].
  destruct (to_value <$> _) as [msg|]; [|by intros [= <- _]].
  destruct (String.eqb _ "initialize"); [by intros [= <- _]|]. destruct (String.eqb _ "ping"); [by intros [= <- _]|].
  destruct (String.eqb _ "tools/list"); [by intros [= <- _]|].
  destruct (String.eqb _ "tools/call").
  - intros (r & w1 & _ & H)%run_bind_Val. by injection H as <- _.
  - cbn [orb]. destruct (starts_with _ _); [by intros [= <- _]|]. destruct (member "id" msg); by intros [= <- _].
Qed.

Lemma returns_try {E A B} (m : M (result E A)) (f : A -> M (result E B)) :
  returns m -> (forall a, returns (f a)) -> returns (try_bind m f).
Proof. intros Hm Hf. apply returns_bind; [done|]. intros [a|e]; [apply Hf|apply returns_ret]. Qed.

Lemma returns_map_err {E F A} (f : E -> F) (m : M (result E A)) : returns m -> returns (map_err_m f m).
Proof. intros H. apply returns_bind; [done|]. intros r. apply returns_ret. Qed.

Ltac returns_step :=
  lazymatch goal with
  | |- returns (mbind _ _) => apply returns_bind; [|intros ?]
  | |- returns (try_bind _ _) => apply returns_try; [|intros ?]
  | |- returns (map_err_m _ _) => apply returns_map_err
  | |- returns (text_of _) => apply returns_map_err
  | |- returns (ignore _) => apply returns_bind; [|intros ?]
  | |- returns (mret _) => apply returns_ret
  | |- returns (liftR _) => apply returns_ret
  | |- returns (perform _) => apply returns_perform
  | |- returns (match ?x with _ => _ end) => destruct x
  end.

(** A network whose every request comes back, with an answer or an error. *)
Definition answers (http : Connector) : Prop :=
  forall ca cert key f, http ca cert key = Ok f -> forall rq, returns (f rq).

Lemma scrub_loop_returns n path i m : returns (scrub_loop n path i m).
Proof.
  revert i m. induction n as [|n IH]; intros i m; cbn [scrub_loop]; unfold draw; repeat first [apply IH | returns_step | apply returns_perform].
Qed.

Lemma load_named_returns env profile : returns (load_named env profile).
Proof.
  unfold load_named, from_profile_bytes, open_by_passphrase, agent_get, agent_store, ignore, secure_delete, now_secs, utc_now.
  repeat first [apply scrub_loop_returns | returns_step | apply returns_perform].
Qed.

(** What a connected client is given answers. *)
Definition answering (o : outcome (result string BlackbookClient)) : Prop :=
  exists r, o = Val r /\ forall bb, r = Ok bb -> forall rq, returns (bb_http bb rq).

Lemma online_client_gives env http cfg args : answers http -> Leaves answering (online_client env http cfg args).
Proof.
  intros Hh. unfold online_client. destruct (mc_profile cfg) as [p|]; [|by eexists].
  change (try_bind (liftR (ok_or ?m (Some p))) ?f) with (f p). cbv beta.
  unfold try_bind at 1. apply Leaves_bind. eapply Leaves_mono, returns_map_err, load_named_returns.
  intros o [[s|e] ->]; [|by eexists].
  unfold from_session. cbn. destruct (ok_or no_ca (se_ca_pem s)) as [ca|e]; [|by eexists]. cbn.
  destruct (http _ _ _) as [f|e] eqn:E; [|by eexists]. eexists. split; [reflexivity|].
  intros bb [= <-] rq. specialize (Hh _ _ _ _ E rq). by repeat case_match.
Qed.

Lemma call_online_returns env http cfg name args : answers http -> returns (call_online env http cfg name args).
Proof.
  intros Hh. unfold call_online. unfold try_bind at 1. apply Leaves_bind. eapply Leaves_mono; [|by apply online_client_gives].
  intros o ([bb|e] & -> & HQ); [|apply returns_ret].
  assert (Hbb : forall rq, returns (bb_http bb rq)) by (intros; by apply HQ). clear HQ.
  assert (Hmfa : forall rq, returns (bb_http (with_mfa_arg bb args) rq))
    by (intros; unfold with_mfa_arg; case_match; apply Hbb).
  cbn [then_leaves]. match goal with |- Leaves _ ?m => change (returns m) end.
  unfold call_key_op, bb_whoami, bb_health, bb_list, bb_retrieve_with_request, bb_file_list, bb_store, bb_store_inner,
    bb_delete, bb_key_list, bb_key_create, bb_key_rotate, bb_key_op, handle.
  repeat first [apply Hbb | apply Hmfa | returns_step].
Qed.

Lemma run_tool_returns env http cfg name args : answers http -> returns (run_tool env http cfg name args).
Proof.
  intros Hh. unfold run_tool, tool_random, tool_encrypt, tool_derive_key, tool_token_verify, now_unix, op_random_bytes, draw, utc_now.
  repeat first [by apply call_online_returns | returns_step].
Qed.

Lemma handle_line_returns env http cfg line : answers http -> returns (handle_line env http cfg line).
Proof.
  intros Hh. unfold handle_line, call_tool. repeat first [by apply run_tool_returns | returns_step].
Qed.

(** Every line of input is answered at most once and in order, whatever the
    tools do: as long as the network answers, with a result or an error, the server
    reads its input to the end, and the ids of the messages it sends are, one for
    one, those of the lines that call for an answer: the id of the request ([null]
    when there is none, or when the line is not JSON); a notification and an
    unknown method without an id get no answer. *)
Theorem mcp_answers env http cfg lines w : answers http ->
  exists out w', run (mcp_run env http cfg lines) w = (Val out, w') /\
    member "id" <$> out = Some <$> omap answer_id lines.
Proof.
  unfold mcp_run. intros Hh. revert w. induction lines as [|line lines IH]; intros w; [by exists [], w|]. cbn [mcp_lines].
  destruct (returns_run _ w (handle_line_returns (no_prompt env) http cfg line Hh)) as (o & w1 & Ho). rewrite run_bind, Ho.
  destruct (IH w1) as (out & w2 & Hout & Hid). rewrite run_bind, Hout. rewrite run_ret.
  apply handle_line_id in Ho. exists (match o with Some j => j :: out | None => out end), w2. split; [done|].
  cbn [omap list_omap]. destruct o as [j|], (answer_id line); try discriminate; [|done].
  injection Ho as Ho. rewrite !fmap_cons. by f_equal.
Qed.

(** [bbk_encrypt], then [bbk_decrypt] of what it returned. *)
Theorem passphrase_tools_roundtrip {L : PrimitiveLaws P} {OL : OpsLaws P O} plaintext passphrase envelope args args' w w' :
  is_str plaintext -> str_member "plaintext" args = Some plaintext -> str_member "passphrase" args = Some passphrase ->
  run (tool_encrypt args) w = (Val (Ok envelope), w') ->
  str_member "envelope" args' = Some envelope -> str_member "passphrase" args' = Some passphrase ->
  tool_decrypt args' = Ok plaintext.
Proof.
  intros Hs Hpt Hpw H He Hpw'. unfold tool_encrypt, arg_str in H. rewrite Hpt, Hpw in H.
  apply run_try_liftR in H as (? & [= <-] & H). apply run_try_liftR in H as (? & [= <-] & H).
  apply run_bind_Val in H as (salt & w1 & H1 & H). rewrite run_draw in H1. injection H1 as <- <-.
  apply run_bind_Val in H as (nonce & w2 & H2 & H). rewrite run_draw in H2. injection H2 as <- <-.
  rewrite run_ret in H. injection H as H _. apply passphrase_roundtrip in H as (_ & _ & Ho); [|apply rand_length..].
  unfold tool_decrypt, arg_str. rewrite He, Hpw'. cbn. rewrite Ho. cbn. by rewrite Hs.
Qed.
End mcp.

(** ** A concrete server *)

#[local] Instance plain_urls : UrlLib := {|
  Url := string;
  url_parse := Some;
  host_str _ := None;
  url_port _ := None;
  set_host u _ := Some u;
  set_port u _ := Some u;
  url_as_str u := u;
  ip_is_loopback _ := None;
|}.

Definition toy_request (id : Z) (name : string) (args : list (string * Json)) : string :=
  of_bytes (json_to_vec (obj [("id", JNum id); ("method", JStr "tools/call");
                              ("params", obj [("name", JStr name); ("arguments", obj args)])])).
Definition toy_lines : list string := [
  of_bytes (json_to_vec (obj [("id", JNum 1); ("method", JStr "initialize")]));
  "";
  of_bytes (json_to_vec (obj [("method", JStr "notifications/initialized")]));
  toy_request 2 "bbk_hash" [("data", JStr "abc")];
  toy_request 3 "bbk_secret_list" [];
  toy_request 4 "bbk_secret_delete" [("name", JStr "db/x")];
  "not json";
  of_bytes (json_to_vec (obj [("method", JStr "ping")]))].

(** Two networks: the second takes no deletions. *)
Definition toy_net (deletes : bool) (ca : string) (cert key : option string) : result ClientError (Request -> M (result ClientError Response)) :=
  Ok (fun rq => match rq_method rq with
                | DELETE => mret (if deletes then Ok (MkResponse 200 [] (JsonBody (obj []))) else Err (Http "closed"))
                | _ => mret (Ok (MkResponse 200 [] (JsonBody (obj [("resources", JArr []); ("count", JNum 0)]))))
                end).

Definition text_sent (j : Json) : option string :=
  r ← member "result" j; c ← member "content" r;
  match c with JArr [t] => str_member "text" t | _ => None end.
Definition outcome_value {A} (o : outcome A) : option A := match o with Val a => Some a | _ => None end.

#[local] Abbreviation toy_mcp net allow := (run (mcp_run (toy_home None) net (MkMcpConfig (Some "dev") false allow None) toy_lines) toy_saved).

Lemma mcp_confined_witness :
  (omap (M:=list) text_sent <$> outcome_value (toy_mcp (toy_net true) false).1) =
    Some ["sha3-256: 000000000000000000000000000000000000000000000000095e3d2bc2b1bc71"; "(no secrets in this domain)";
          "writes are disabled — restart the MCP server with `--allow-write` to enable this tool"] /\
  toy_mcp (toy_net true) false = toy_mcp (toy_net false) false.
Proof.
  split; [vm_compute; reflexivity|].
  destruct (mcp_confined (toy_home None) (toy_net true) (MkMcpConfig (Some "dev") false false None) toy_lines toy_saved)
    as (_ & _ & H & _).
  apply (H eq_refl). intros ca cert key rq [Hm|[Hm _]] w; cbn; rewrite Hm; reflexivity.
Defined.

Lemma mcp_answers_witness : omap answer_id toy_lines = [JNum 1; JNum 2; JNum 3; JNum 4; JNull; JNull] /\
  exists out w', toy_mcp (toy_net true) true = (Val out, w') /\ member "id" <$> out = Some <$> omap answer_id toy_lines.
Proof.
  split; [vm_compute; reflexivity|].
  apply (mcp_answers (toy_home None) (toy_net true) (MkMcpConfig (Some "dev") false true None) toy_lines toy_saved).
  intros ca cert key f [= <-] rq. cbn. destruct (rq_method rq); by eexists.
Defined.
