(* ===== verification/Commands.v ===== *)
(** The commands of [src/src/main.rs] over the HTTP client: approvals and grants,
    listing and deleting secrets, clients, rules, domains and the audit log. A
    command's output is what it writes to standard output; what goes to standard
    error is left out. *)
From stdpp Require Import pretty.
From S2P Require Import Prelude Text Unicode AccessRules Crypto Store Effects ServerBase Auth CryptoOps Admin Threshold Secrets Archive Keys Files CredStore Session External ClientSecrets Presentation KeyClient Client CryptoCommands.

(** ** Command lines *)

Inductive GrantsCmd :=
| GrantsAdd (grantee pattern kind : string) (max_uses ttl_hours : option Z) (expires_at not_before : option string)
| GrantsLs
| GrantsRm (id : string) (yes : bool).

Inductive ClientCmd :=
| ClientCreate (name role : string) (ttl_days : option Z) (out : option string)
| ClientRotate (name : string) (ttl_days : option Z) (out : option string)
| ClientLs
| ClientRevoke (name : string) (yes : bool).

Inductive AclCmd :=
| AclGrant (subject pattern : string) (create read update delete : bool) (expires_at not_before : option string)
    (max_uses : option Z) (rate schedule : option string)
| AclLs
| AclRevoke (id : string).

Inductive DomainCmd :=
| DomainCreate (name : string) (description : option string)
| DomainLs
| DomainUse (name : option string) (clear : bool)
| DomainMembers (domain : string)
| DomainAddMember (domain client role : string)
| DomainRmMember (domain client : string).

Record AuditCmd := MkAudit {
  au_limit : Z;
  au_verify : bool;
  au_archive : bool;
  au_keep_last : option Z;
  au_before : option string;
  au_prune : bool;
  au_verify_archive : option string;
  au_list_archives : bool;
}.

(** [println!] of each line. *)
Definition printed (l : list string) : Output := print (String.concat "" (map (fun s => s +:+ nl) l)).

(** ** Tables *)

(** [{:<n}  ] for each column, then the last one as it is. *)
Definition columns (ws : list nat) (cells : list string) : string :=
  String.concat "" (zip_with (fun n c => pad_right n c +:+ "  ") ws cells).
Definition table_line (ws : list nat) (cells : list string) (last : string) : string := columns ws cells +:+ last +:+ nl.
Definition rule_line (n : nat) : string := repeat_str "-" n +:+ nl.
Definition table {A} (ws : list nat) (head : list string) (last : string) (rule : nat) (row : A -> string) (l : list A) : Output :=
  print (table_line ws head last +:+ rule_line rule +:+ String.concat "" (map row l)).

(** [&s[..s.len().min(n)]] *)
Definition prefix (n : nat) (s : string) : string := String.substring 0 n s.
Definition short_id (id : string) : string := prefix 8 id.
Definition day (s : string) : string := prefix 10 s.

Definition dash_if_none (l : list string) : string := match l with [] => "-" | _ => String.concat ", " l end.

Definition rules_summary (flags : ResourceFlags) (read_count : Z) (threshold_k signatory_count : option Z) : string :=
  let flag (b : bool) (s : string) := if b then [s] else [] in
  dash_if_none
    (flag (mfa_required flags) "mfa" ++ flag (delete_on_read flags) "burn-after-read"
     ++ match max_reads flags with
        | Some max => ["max-reads " +:+ show_Z read_count +:+ "/" +:+ show_Z max]
        | None => flag (0 <? read_count) ("reads " +:+ show_Z read_count)
        end
     ++ flag (rotate_on_read flags) "rotate-on-read" ++ flag (no_overwrite flags) "immutable"
     ++ flag (preserve_on_cleanup flags) "preserve"
     ++ match threshold_k, signatory_count with
        | Some k, Some n => ["quorum " +:+ show_Z k +:+ "-of-" +:+ show_Z n]
        | _, _ => []
        end).

(** ** Rates *)

(** The first letter, by Unicode's property: [beyond] says which characters
    above ASCII have it. *)
Definition is_alphabetic (beyond : Z -> bool) (c : Z) : bool :=
  if c <? 128 then ((97 <=? c) && (c <=? 122)) || ((65 <=? c) && (c <=? 90)) else beyond c.
Fixpoint split_alphabetic (beyond : Z -> bool) (cs : list Z) : list Z * list Z :=
  match cs with
  | [] => ([], [])
  | c :: cs' =>
      if is_alphabetic beyond c then ([], cs) else let '(a, b) := split_alphabetic beyond cs' in (c :: a, b)
  end.

Definition unit_of (unit : string) : option Z :=
  if String.eqb unit "" || String.eqb unit "s" then Some 1
  else if String.eqb unit "m" then Some 60
  else if String.eqb unit "h" then Some 3600
  else if String.eqb unit "d" then Some 86400
  else None.

(** The product wraps as it does in a release build, and the period is cut to
    its low 32 bits. *)
Definition parse_rate (beyond : Z -> bool) (s : string) : result AppError (Z * Z) :=
  '(n, period) ← ok_or (AppConfig ("rate must be N/PERIOD, e.g. 10/1h — got '" +:+ s +:+ "'")) (split_once "/"%char s);
  max ← ok_or (AppConfig ("bad rate count '" +:+ n +:+ "'")) (parse_i32 (trim n));
  let p := trim period in
  let '(num, unit) := split_alphabetic beyond (chars p) in
  num ← ok_or (AppConfig ("bad rate period '" +:+ p +:+ "'")) (parse_i64 (str_of_chars num));
  mult ← ok_or (AppConfig ("unknown period unit '" +:+ str_of_chars unit +:+ "' (use s/m/h/d)")) (unit_of (str_of_chars unit));
  let secs := wrap_i64 (num * mult) in
  if (max <=? 0) || (secs <=? 0) then Err (AppConfig "rate count and period must be positive")
  else Ok (max, wrap_i32 secs).

Definition fmt_period (s : Z) : string :=
  if Z.rem s 86400 =? 0 then show_Z (Z.quot s 86400) +:+ "d"
  else if Z.rem s 3600 =? 0 then show_Z (Z.quot s 3600) +:+ "h"
  else if Z.rem s 60 =? 0 then show_Z (Z.quot s 60) +:+ "m"
  else show_Z s +:+ "s".

(** In double quotes. *)
Definition dquote : string := String "034"%char "".
Definition quote (s : string) : string := dquote +:+ s +:+ dquote.

Section commands.
Context {P : Primitives} {O : OpsLib} {U : UrlLib} (env : Environment).
Context (http : string -> option string -> option string -> result ClientError (Request -> M (result ClientError Response))).
(** The active profile, and the line read from standard input when one is asked
    for. *)
Context (profile stdin_line : string).

Definition http_client (session : Session) (domain mfa : option string) : result AppError BlackbookClient :=
  bb ← map_err app_of_client (from_session env http session);
  let bb := match domain with Some d => with_domain bb d | None => bb end in
  Ok (match mfa with Some c => with_mfa bb c | None => bb end).

Definition open_client (domain mfa : option string) : M (result AppError (Session * BlackbookClient)) :=
  session ←? map_err_m app_of_client (load_named env profile);
  bb ←? liftR (http_client session domain mfa);
  mret (Ok (session, bb)).

Definition asked {T} (m : M (result ClientError T)) : M (result AppError T) := map_err_m app_of_client m.
Definition say (s : string) : M (result AppError Output) := mret (Ok (println s)).

(** The answer to a [y/N] question. *)
Definition confirmed (yes : bool) : bool := yes || String.eqb (to_ascii_lowercase stdin_line) "y".

(** ** Approvals and grants *)

Definition cmd_approve (request_id : string) : M (result AppError Output) :=
  '(_, bb) ←? open_client None None;
  v ←? asked (bb_approve_request bb request_id);
  say ("approved — total approvers: " +:+ show_Z (default 0 (member "approvers" v ≫= as_uint u64_max))).

Definition request_detail (r : AccessRequestSummary) : list string :=
  ["Request " +:+ rq_id r;
   "  resource : " +:+ rq_resource_name r +:+ " (" +:+ rq_resource_kind r +:+ ") in domain " +:+ rq_domain r;
   "  requester: " +:+ rq_requester r;
   "  threshold: " +:+ show_Z (rq_threshold_k r) +:+ " of " +:+ show_Z (Z.of_nat (length (rq_signatories r))) +:+ " signatories";
   "  status   : " +:+ rq_status r;
   "  created  : " +:+ rq_created_at r;
   "  expires  : " +:+ rq_expires_at r;
   "  signatories (who can approve this request):"]
  ++ map (fun s => "    " +:+ (if one_of s (rq_approvers r) then "[approved]" else "[ pending]") +:+ "  " +:+ s) (rq_signatories r)
  ++ (if existsb (fun a => negb (one_of a (rq_signatories r))) (rq_approvers r)
      then ["  other approvers: " +:+ String.concat ", " (rq_approvers r)] else []).

Definition request_row (verbose : bool) (r : AccessRequestSummary) : string :=
  table_line [14; 10; 14; 24; 6; 10]%nat
    [rq_id r; rq_domain r; rq_requester r; rq_resource_name r; show_Z (rq_threshold_k r);
     show_Z (Z.of_nat (length (rq_approvers r))) +:+ "/" +:+ show_Z (Z.of_nat (length (rq_signatories r)))] (rq_status r)
  +:+ (if verbose then
         "      can approve : " +:+ String.concat ", " (rq_signatories r) +:+ nl
         +:+ "      approved by : " +:+ match rq_approvers r with [] => "(none yet)" | l => String.concat ", " l end +:+ nl
         +:+ match rq_consumed_at r with Some ca => "      consumed at : " +:+ ca +:+ nl | None => "" end
       else "").

Definition cmd_requests (id : option string) (verbose : bool) : M (result AppError Output) :=
  '(_, bb) ←? open_client None None;
  match id with
  | Some id => r ←? asked (bb_get_access_request bb id); mret (Ok (printed (request_detail r)))
  | None =>
      '(l, count) ←? asked (bb_list_access_requests bb);
      if count =? 0 then say "(no access requests)"
      else
        let t := table [14; 10; 14; 24; 6; 10]%nat ["ID"; "DOMAIN"; "REQUESTER"; "RESOURCE"; "K"; "APPROVERS"] "STATUS" 110
                   (request_row verbose) l in
        mret (Ok (MkOut (out_stdout t ++
          as_bytes (if verbose then ""
                    else nl +:+ "Tip: `blackbook requests <ID>` (or `-v`) shows who can approve each request." +:+ nl)) 0))
  end.

Definition grant_row (g : AccessGrantSummary) : string :=
  let exp := day (gs_expires_at g) in
  table_line [14; 12; 12; 10; 6; 20; 7; 23; 11]%nat
    [gs_id g; gs_signatory g; gs_grantee g; gs_domain g; gs_resource_kind g; gs_pattern g;
     match gs_max_uses g with Some m => show_Z (gs_use_count g) +:+ "/" +:+ show_Z m | None => show_Z (gs_use_count g) end;
     match gs_not_before g with Some nb => day nb +:+ "→" +:+ exp | None => exp end;
     day (gs_created_at g)]
    (if gs_revoked g then "revoked" else "active").

Definition cmd_grants (cmd : GrantsCmd) (domain : option string) : M (result AppError Output) :=
  '(_, bb) ←? open_client domain None;
  match cmd with
  | GrantsAdd grantee pattern kind max_uses ttl_hours expires_at not_before =>
      if negb (is_set ttl_hours) && negb (is_set expires_at) then
        mret (Err (AppConfig "a time limit is required: pass --ttl-hours H or --expires-at RFC3339"))
      else if negb (String.eqb kind "secret") && negb (String.eqb kind "file") then
        mret (Err (AppConfig "--kind must be 'secret' or 'file'"))
      else
        v ←? asked (bb_create_access_grant bb grantee pattern (MkGrantAdd kind max_uses ttl_hours expires_at not_before));
        say ("pre-approved " +:+ grantee +:+ " for '" +:+ pattern +:+ "' ("
             +:+ match max_uses with Some m => show_Z m +:+ " use(s)" | None => "unlimited uses" end +:+ ", expires "
             +:+ default "?" (str_member "expires_at" v) +:+ ") — grant " +:+ default "?" (str_member "id" v))
  | GrantsLs =>
      '(l, count) ←? asked (bb_list_access_grants bb);
      if count =? 0 then say "(no advance grants)"
      else mret (Ok (table [14; 12; 12; 10; 6; 20; 7; 23; 11]%nat
             ["ID"; "SIGNATORY"; "GRANTEE"; "DOMAIN"; "KIND"; "PATTERN"; "USE"; "VALIDITY"; "CREATED"] "STATUS" 150 grant_row l))
  | GrantsRm id yes =>
      if negb (confirmed yes) then say "aborted"
      else _ ←? asked (bb_revoke_access_grant bb id); say ("revoked grant '" +:+ id +:+ "'")
  end.

(** ** Secrets *)

Definition flags_view_to_json (f : ResourceFlags) : Json :=
  JObj [("mfa_required", JBool (mfa_required f)); ("delete_on_read", JBool (delete_on_read f));
        ("max_reads", opt_json JNum (max_reads f)); ("rotate_on_read", JBool (rotate_on_read f));
        ("preserve_on_cleanup", JBool (preserve_on_cleanup f)); ("no_overwrite", JBool (no_overwrite f))].
Definition resource_to_json (r : ResourceSummary) : Json :=
  JObj [("resource_id", JStr (rs_id r)); ("resource_name", JStr (rs_name r)); ("created_at", JStr (rs_created_at r));
        ("updated_at", JStr (rs_updated_at r)); ("exhausted_at", opt_json JStr (rs_exhausted_at r));
        ("external", JBool (rs_external r)); ("read_count", JNum (rs_read_count r));
        ("flags", flags_view_to_json (rs_flags r)); ("threshold_k", opt_json JNum (rs_threshold_k r));
        ("signatory_count", opt_json JNum (rs_signatory_count r))].
Definition listed_json {A} (key : string) (item : A -> Json) (l : list A) (count : Z) : Json :=
  JObj [(key, JArr (map item l)); ("count", JNum count)].

Definition secret_row (r : ResourceSummary) : string :=
  table_line [28; 8; 10; 24]%nat
    [rs_name r; if rs_external r then "external" else "server"; if is_set (rs_exhausted_at r) then "exhausted" else "active";
     rs_updated_at r]
    (rules_summary (rs_flags r) (rs_read_count r) (rs_threshold_k r) (rs_signatory_count r)).

Definition cmd_ls (domain mfa : option string) (json : bool) : M (result AppError Output) :=
  '(_, bb) ←? open_client domain mfa;
  '(l, count) ←? asked (bb_list bb);
  if json then say (of_bytes (json_to_vec (listed_json "resources" resource_to_json l count)))
  else if count =? 0 then say "(no secrets)"
  else mret (Ok (table [28; 8; 10; 24]%nat ["NAME"; "KIND"; "STATUS"; "UPDATED"] "RULES" 118 secret_row l)).

Definition cmd_cleanup (domain : option string) : M (result AppError Output) :=
  '(_, bb) ←? open_client domain None;
  r ←? asked (bb_cleanup bb);
  if (cv_deleted r =? 0) && (cv_preserved r =? 0) then say "no tombstoned resources to clean up"
  else
    mret (Ok (printed (("purged " +:+ show_Z (cv_deleted r) +:+ " tombstoned resource(s) (" +:+ show_Z (cv_secrets_deleted r)
                        +:+ " secret(s), " +:+ show_Z (cv_files_deleted r) +:+ " file(s)); kept " +:+ show_Z (cv_preserved r)
                        +:+ " preserved")
                       :: map (fun n => "  - " +:+ n) (cv_names r)))).

Definition cmd_rm (name : string) (yes : bool) (domain mfa : option string) : M (result AppError Output) :=
  '(_, bb) ←? open_client domain mfa;
  if negb (confirmed yes) then say "aborted"
  else
    r ←? asked (bb_delete bb name);
    let subject := "'" +:+ name +:+ "' (id " +:+ short_id (dv_resource_id r) +:+ ") " in
    if dv_deleted r then say ("deleted " +:+ subject +:+ "at " +:+ dv_deleted_at r)
    else say (subject +:+ "was already gone — nothing to delete").

(** ** Clients *)

Definition credential_bundle (session : Session) (new : NewClientView) : string :=
  json_pretty (JObj [("ca_pem", opt_json JStr (se_ca_pem session)); ("cert_pem", JStr (nv_cert_pem new));
    ("expires_at", JStr (nv_expires_at new)); ("key_pem", JStr (nv_key_pem new)); ("name", JStr (nv_name new));
    ("role", JStr (nv_role new)); ("server", JStr (se_server session)); ("token", JStr (nv_token new))]).

(** To a file, or to standard output. *)
Definition give_bundle (session : Session) (new : NewClientView) (out : option string) : M (result AppError Output) :=
  let pretty := credential_bundle session new in
  match out with
  | Some path => _ ←? map_err_m AppIo (fs_write path (as_bytes pretty)); mret (Ok (print ""))
  | None => say pretty
  end.

Definition client_row (c : ClientSummary) : string :=
  table_line [10; 22; 8; 22; 22]%nat
    [short_id (cs_id c); cs_name c; cs_role c; cs_created_at c; default "never" (cs_expires_at c)]
    (default "-" (cs_revoked_at c)).

Definition cmd_client (cmd : ClientCmd) : M (result AppError Output) :=
  '(session, bb) ←? open_client None None;
  match cmd with
  | ClientCreate name role ttl_days out =>
      new ←? asked (bb_create_client bb name role ttl_days); give_bundle session new out
  | ClientRotate name ttl_days out =>
      new ←? asked (bb_rotate_my_or_client bb name ttl_days); give_bundle session new out
  | ClientLs =>
      '(l, count) ←? asked (bb_list_clients bb);
      if count =? 0 then say "(no clients)"
      else mret (Ok (table [10; 22; 8; 22; 22]%nat ["ID"; "NAME"; "ROLE"; "CREATED"; "EXPIRES"] "REVOKED" 100 client_row l))
  | ClientRevoke name yes =>
      if negb (confirmed yes) then say "aborted"
      else _ ←? asked (bb_revoke_client bb name); say ("revoked '" +:+ name +:+ "'")
  end.

(** ** Rules *)

(** [@GROUP], or a client's name. *)
Definition subject_of (subject : string) : option string * option string :=
  match strip_prefix "@" subject with Some g => (None, Some g) | None => (Some subject, None) end.

Definition granted_actions (create read update delete : bool) : list string :=
  (if create then ["create"] else []) ++ (if read then ["read"] else []) ++ (if update then ["update"] else [])
  ++ (if delete then ["delete"] else []).

Definition acl_limits (e : AclSummary) : list string :=
  match as_rate_max e, as_rate_period_secs e with
  | Some m, Some p => ["rate " +:+ show_Z m +:+ "/" +:+ fmt_period p]
  | _, _ => []
  end
  ++ match as_schedule e with Some s => ["cron " +:+ quote s] | None => [] end
  ++ match as_not_before e with Some nb => ["nbf " +:+ day nb] | None => [] end
  ++ match as_expires_at e with Some x => ["exp " +:+ day x] | None => [] end.

Definition acl_row (e : AclSummary) : string :=
  table_line [14; 10; 20; 24; 10; 8; 12]%nat
    [as_id e; as_domain e;
     match as_client_name e with
     | Some c => c
     | None => match as_group_domain e with Some g => "@" +:+ g | None => "?" end
     end;
     as_pattern e; String.concat "," (as_actions e);
     match as_max_uses e with Some m => show_Z (as_use_count e) +:+ "/" +:+ show_Z m | None => show_Z (as_use_count e) end;
     day (as_granted_at e)]
    (dash_if_none (acl_limits e)).

Definition cmd_acl (beyond : Z -> bool) (cmd : AclCmd) (domain : option string) : M (result AppError Output) :=
  '(_, bb) ←? open_client None None;
  match cmd with
  | AclGrant subject pattern create read update delete expires_at not_before max_uses rate schedule =>
      let domain := default "default" domain in
      let actions := granted_actions create read update delete in
      match actions with
      | [] => mret (Err (AppConfig "at least one of --create/--read/--update/--delete required"))
      | _ =>
          limit ←? liftR (match rate with
                          | Some s => '(m, p) ← parse_rate beyond s; Ok (Some m, Some p)
                          | None => Ok (None, None)
                          end);
          let '(client_name, group_domain) := subject_of subject in
          _ ←? asked (bb_grant_acl bb (MkGrantAcl client_name group_domain (Some domain) pattern actions expires_at not_before
                                         max_uses limit.1 limit.2 schedule));
          let extra := String.concat ", " (match rate with Some r => ["rate=" +:+ r] | None => [] end
                                           ++ match schedule with Some s => ["schedule='" +:+ s +:+ "'"] | None => [] end) in
          say ("granted " +:+ String.concat "+" actions +:+ " on '" +:+ pattern +:+ "' to " +:+ subject +:+ " (domain=" +:+ domain
               +:+ ")" +:+ (if String.eqb extra "" then "" else " [" +:+ extra +:+ "]"))
      end
  | AclLs =>
      '(l, count) ←? asked (bb_list_acl bb);
      if count =? 0 then say "(no acl entries)"
      else mret (Ok (table [14; 10; 20; 24; 10; 8; 12]%nat
             ["ID"; "DOMAIN"; "SUBJECT"; "PATTERN"; "ACTIONS"; "USE"; "GRANTED"] "LIMITS" 152 acl_row l))
  | AclRevoke id => _ ←? asked (bb_revoke_acl bb id); say ("revoked acl '" +:+ id +:+ "'")
  end.

(** ** Domains *)

Definition domain_row (d : DomainSummary) : string :=
  table_line [10; 24; 24]%nat [short_id (ds_id d); ds_name d; ds_created_at d] (default "" (ds_description d)).
Definition member_row (m : MemberSummary) : string :=
  table_line [24; 8]%nat [ms_client_name m; ms_role m] (ms_added_at m).

Definition cmd_domain (cmd : DomainCmd) : M (result AppError Output) :=
  '(_, bb) ←? open_client None None;
  match cmd with
  | DomainCreate name description =>
      _ ←? asked (bb_create_domain bb name description); say ("created domain '" +:+ name +:+ "'")
  | DomainLs =>
      '(l, count) ←? asked (bb_list_domains bb);
      if count =? 0 then say "(no domains visible)"
      else mret (Ok (table [10; 24; 24]%nat ["ID"; "NAME"; "CREATED"] "DESCRIPTION" 90 domain_row l))
  | DomainUse name clear =>
      if clear then
        had ←? asked (clear_domain_pref env profile);
        say (if had : bool then "cleared default domain for profile '" +:+ profile +:+ "' (now 'default')"
             else "profile '" +:+ profile +:+ "' had no domain preference")
      else
        match name with
        | Some name =>
            _ ←? asked (write_domain_pref env profile name);
            say ("profile '" +:+ profile +:+ "' now defaults to domain '" +:+ name +:+ "' (override per-command with -D)")
        | None =>
            pref ← read_domain_pref env profile;
            say ("profile '" +:+ profile +:+ "' default domain: " +:+ default "default (none set)" pref)
        end
  | DomainMembers domain =>
      '(l, count) ←? asked (bb_list_domain_members bb domain);
      if count =? 0 then say "(no members)"
      else mret (Ok (table [24; 8]%nat ["CLIENT"; "ROLE"] "ADDED" 64 member_row l))
  | DomainAddMember domain cname role =>
      _ ←? asked (bb_add_domain_member bb domain cname role);
      say ("added '" +:+ cname +:+ "' to '" +:+ domain +:+ "' as " +:+ role)
  | DomainRmMember domain cname =>
      _ ←? asked (bb_remove_domain_member bb domain cname);
      say ("removed '" +:+ cname +:+ "' from '" +:+ domain +:+ "'")
  end.

(** ** Audit log *)

Definition int_at (k : string) (v : Json) : Z := default 0 (member k v ≫= as_i64).
Definition uint_at (k : string) (v : Json) : Z := default 0 (member k v ≫= as_uint u64_max).
Definition ok_at (v : Json) : bool := match member "ok" v with Some (JBool b) => b | _ => false end.

Definition verdict_archive (file : string) (v : Json) : string :=
  if ok_at v then
    "archive '" +:+ file +:+ "' OK — verified " +:+ show_Z (int_at "verified" v) +:+ " row(s) (id "
    +:+ show_Z (int_at "first_id" v) +:+ ".." +:+ show_Z (int_at "last_id" v) +:+ ")"
  else "archive '" +:+ file +:+ "' BROKEN — " +:+ default "unknown" (str_member "reason" v).

Definition archived_line (v : Json) : string :=
  let n := int_at "archived" v in
  if n =? 0 then "nothing archived — " +:+ default "" (str_member "message" v)
  else
    "archived " +:+ show_Z n +:+ " row(s) (id " +:+ show_Z (int_at "first_id" v) +:+ ".." +:+ show_Z (int_at "last_id" v)
    +:+ ") → " +:+ default "?" (str_member "file" v) +:+ " (" +:+ show_Z (uint_at "size_bytes" v) +:+ " bytes); pruned "
    +:+ show_Z (uint_at "pruned" v).

Definition verdict_chain (v : Json) : string :=
  let through := int_at "verified_through" v in
  if ok_at v then "audit chain OK — verified " +:+ show_Z through +:+ " row(s)"
  else
    "audit chain BROKEN after " +:+ show_Z through +:+ " verified row(s): first bad id "
    +:+ show_Z (default (-1) (member "first_bad_id" v ≫= as_i64)) +:+ " — " +:+ default "unknown" (str_member "reason" v).

Definition audit_row (e : AuditEntry) : string :=
  let who := match ae_client_name e with
             | Some n => n
             | None => match ae_client_id e with Some c => short_id c | None => "-" end
             end in
  table_line [8; 26; 14; 16; 8; 20]%nat
    [show_Z (ae_id e); ae_ts e; who; ae_action e; ae_status e; default "-" (ae_resource e)] (default "" (ae_message e)).

Definition cmd_audit (a : AuditCmd) : M (result AppError Output) :=
  '(_, bb) ←? open_client None None;
  match au_verify_archive a with
  | Some file => v ←? asked (bb_audit_archive_verify bb file); say (verdict_archive file v)
  | None =>
      if au_list_archives a then
        v ←? asked (bb_audit_archives bb);
        match member "archives" v with
        | Some (JArr ((_ :: _) as l)) =>
            mret (Ok (table [44]%nat ["FILE"] "SIZE" 60
                        (fun x => table_line [44]%nat [default "?" (str_member "file" x)] (show_Z (uint_at "size_bytes" x))) l))
        | _ => say "(no archives)"
        end
      else if au_archive a then
        if negb (is_set (au_keep_last a)) && negb (is_set (au_before a)) then
          mret (Err (AppConfig "specify --keep-last N or --before TIMESTAMP"))
        else v ←? asked (bb_audit_archive bb (au_keep_last a) (au_before a) (au_prune a)); say (archived_line v)
      else if au_verify a then v ←? asked (bb_audit_verify bb); say (verdict_chain v)
      else
        '(l, count) ←? asked (bb_audit bb (au_limit a));
        if count =? 0 then say "(no audit entries)"
        else mret (Ok (table [8; 26; 14; 16; 8; 20]%nat ["ID"; "TS"; "CLIENT"; "ACTION"; "STATUS"; "RESOURCE"] "MESSAGE" 120
                         audit_row l))
  end.
End commands.
