(* ===== verification/CommandsProps.v ===== *)
(** What the rate limits of [Commands.v] mean: the text [bbk acl ls] shows for a
    limit reads back as the limit, and a period past 32 bits does not. *)
From S2P Require Import Prelude Text Unicode Effects CredStore Session CryptoCommands RoutesProps Commands.

Lemma code_alphabetic beyond a : is_ascii a = true ->
  is_alphabetic beyond (code a) = ((97 <=? code a) && (code a <=? 122)) || ((65 <=? code a) && (code a <=? 90)).
Proof. intros H. unfold is_alphabetic. unfold is_ascii in H. unfold code. by rewrite H. Qed.

Lemma digits_list s : all_chars is_digit s = true ->
  forallb is_ascii (String.list_ascii_of_string s) = true /\
  forall a, In a (String.list_ascii_of_string s) -> is_digit a = true.
Proof.
  intros H. split.
  - rewrite <- all_chars_list. by apply digits_ascii.
  - rewrite all_chars_list, forallb_forall in H. exact H.
Qed.

(** Digits are cut from the unit that follows them. *)
Lemma split_digits beyond l u : (forall a, In a l -> is_digit a = true) ->
  match u with [] => True | c :: _ => is_alphabetic beyond c = true end ->
  split_alphabetic beyond ((code <$> l) ++ u) = (code <$> l, u).
Proof.
  intros Hl Hu. induction l as [|a l IH].
  - destruct u as [|c u]; [done|]. cbn. by rewrite Hu.
  - rewrite fmap_cons. cbn [app split_alphabetic]. assert (Ha : is_digit a = true) by (apply Hl; by left).
    pose proof (is_digit_inv _ Ha) as Hd. rewrite code_alphabetic by (unfold is_ascii; lia).
    unfold code at 1 2 3 4. assert ((_ && _) || (_ && _) = false) as -> by lia.
    rewrite IH; [done|]. intros b Hb. apply Hl. by right.
Qed.

Definition unit_text (u : string) : bool := existsb (String.eqb u) [""; "s"; "m"; "h"; "d"].

Lemma unit_text_inv u : unit_text u = true -> u = "" \/ exists a, u = String a "" /\ In a ["s"; "m"; "h"; "d"]%char.
Proof.
  unfold unit_text. rewrite existsb_exists. intros (v & Hv & ->%String.eqb_eq). cbn in Hv.
  destruct Hv as [<-|[<-|[<-|[<-|[<-|[]]]]]]; [by left|right..]; (eexists; split; [reflexivity|cbn; tauto]).
Qed.

(** A count, a number and a unit, read back. *)
Lemma parse_rate_text beyond n k u m : 0 < n < 2 ^ 31 -> 0 < k <= i64_max -> unit_of u = Some m -> unit_text u = true ->
  parse_rate beyond (show_Z n +:+ "/" +:+ show_Z k +:+ u) =
  (let secs := wrap_i64 (k * m) in
   if secs <=? 0 then Err (AppConfig "rate count and period must be positive") else Ok (n, wrap_i32 secs)).
Proof.
  intros Hn Hk Hm Hu. unfold parse_rate. destruct (show_Z_digits n ltac:(lia)) as [Hdn _].
  destruct (show_Z_digits k ltac:(lia)) as [Hdk _].
  change ("/" +:+ show_Z k +:+ u) with (String "/" (show_Z k +:+ u)).
  rewrite split_once_app by (eapply has_char_all; [exact Hdn|done]). cbn -[parse_i32 trim chars split_alphabetic unit_of parse_i64].
  rewrite (trim_graphic (show_Z n)) by by apply digits_graphic.
  rewrite parse_i32_show by done. cbn -[trim chars split_alphabetic unit_of parse_i64].
  assert (Hg : all_chars graphic (show_Z k +:+ u) = true /\ all_chars is_ascii (show_Z k +:+ u) = true).
  { rewrite !all_chars_app, digits_graphic, digits_ascii by done.
    apply unit_text_inv in Hu as [->|(a & -> & Ha)]; [done|]. cbn in Ha. by decompose [or] Ha; subst. }
  destruct Hg as [Hg Ha]. rewrite (trim_graphic (show_Z k +:+ u)) by done. rewrite chars_ascii by done.
  destruct (digits_list _ Hdk) as [Hka Hkd].
  assert (Hl : String.list_ascii_of_string (show_Z k +:+ u) =
               String.list_ascii_of_string (show_Z k) ++ String.list_ascii_of_string u).
  { clear. induction (show_Z k) as [|a s IH]; [done|]. rewrite string_app_cons. cbn. by rewrite IH. }
  rewrite Hl, fmap_app. rewrite split_digits; [|exact Hkd|].
  2:{ apply unit_text_inv in Hu as [->|(a & -> & Hu)]; [done|]. cbn in Hu. by decompose [or] Hu; subst. }
  assert (Hua : forallb is_ascii (String.list_ascii_of_string u) = true).
  { apply unit_text_inv in Hu as [->|(a & -> & Hu)]; [done|]. cbn in Hu. by decompose [or] Hu; subst. }
  rewrite (str_of_codes _ Hka), (str_of_codes _ Hua), !String.string_of_list_ascii_of_string.
  rewrite parse_i64_show. unfold in_range. assert ((i64_min <=? k) && (k <=? i64_max) = true) as ->
    by (unfold i64_min in *; lia). cbn -[unit_of]. rewrite Hm. cbn. assert (n <=? 0 = false) as -> by lia. done.
Qed.

(** The period, as a number of units. *)
Lemma fmt_period_text p : 0 < p < 2 ^ 31 ->
  exists k u m, fmt_period p = show_Z k +:+ u /\ unit_of u = Some m /\ unit_text u = true /\ 0 < k <= p /\ k * m = p.
Proof.
  intros Hp. unfold fmt_period.
  assert (Hd : forall m, 0 < m -> Z.rem p m =? 0 = true -> 0 < Z.quot p m <= p /\ Z.quot p m * m = p).
  { intros m Hm H. pose proof (Z.quot_rem' p m). assert (m * Z.quot p m = p) by lia. split; [|lia].
    split; [nia|]. apply Z.quot_le_upper_bound; nia. }
  destruct (Z.rem p 86400 =? 0) eqn:E; [exists (Z.quot p 86400), "d", 86400; by apply Hd in E as [??]|].
  destruct (Z.rem p 3600 =? 0) eqn:E1; [exists (Z.quot p 3600), "h", 3600; by apply Hd in E1 as [??]|].
  destruct (Z.rem p 60 =? 0) eqn:E2; [exists (Z.quot p 60), "m", 60; by apply Hd in E2 as [??]|].
  exists p, "s", 1. repeat split; lia || done.
Qed.

(** A rate limit, shown by [bbk acl ls] and typed again, is the same limit. *)
Theorem rate_roundtrip beyond n p : 0 < n < 2 ^ 31 -> 0 < p < 2 ^ 31 ->
  parse_rate beyond (show_Z n +:+ "/" +:+ fmt_period p) = Ok (n, p).
Proof.
  intros Hn Hp. destruct (fmt_period_text p Hp) as (k & u & m & -> & Hm & Hu & Hk & Hkm).
  rewrite (parse_rate_text beyond n k u m) by (done || (unfold i64_max; lia)). cbn zeta. rewrite Hkm.
  rewrite wrap_i64_id by (unfold i64_min, i64_max; lia).
  assert (p <=? 0 = false) as -> by lia. by rewrite wrap_i32_id by lia.
Qed.

Lemma rate_roundtrip_witness :
  fmt_period 5400 = "90m" /\ parse_rate (fun _ => false) (show_Z 10 +:+ "/" +:+ fmt_period 5400) = Ok (10, 5400).
Proof. split; [reflexivity|]. apply (rate_roundtrip (fun _ => false) 10 5400); lia. Defined.

(** A period past 32 bits is not refused but cut: one use in 49,711 days becomes
    one in 63,104 seconds. *)
Theorem rate_period_cut beyond : parse_rate beyond "1/49711d" = Ok (1, 63104) /\ fmt_period 63104 = "63104s".
Proof.
  split; [|reflexivity].
  change "1/49711d" with (show_Z 1 +:+ "/" +:+ show_Z 49711 +:+ "d").
  by rewrite (parse_rate_text beyond 1 49711 "d" 86400 ltac:(lia) ltac:(unfold i64_max; lia) eq_refl eq_refl).
Qed.
