(* ===== verification/ClientFiles.v ===== *)
(** [bbk file] ([src/src/main.rs], [cmd_file]): uploading, downloading and
    rekeying files that are stored encrypted by the server, sealed by the client,
    or resident, with the ciphertext in a local stash and half of the key on the
    server. *)
From S2P Require Import Prelude Text Unicode AccessRules Crypto Store Effects ServerBase Auth CryptoOps Admin Threshold Secrets Archive Keys Files CredStore Session External ClientSecrets Presentation KeyClient Client CryptoCommands Commands.

Inductive FileCmd :=
| FilePut (path : string) (name mime : option string) (flags : ResourceFlags) (quorum : option Z) (signatories : list string)
    (overwrite : bool) (ext : ExtFlags) (server_copy shred : bool)
| FileGet (name : string) (path request_id : option string) (wait : bool) (wait_timeout : Z) (external_passphrase : option string)
| FileLs (json : bool)
| FileRm (name : string) (yes : bool)
| FileRotate (name : string)
| FileRekey (name : string) (old_external_passphrase : option string) (external_key : bool)
    (external_passphrase : option string).

(** [Path::file_name]: the last component, if it is a name. *)
Definition file_name (path : string) : option string :=
  match last (List.filter (fun c => negb (String.eqb c "" || String.eqb c ".")) (split_on "/"%char path)) with
  | Some ".." | None => None
  | Some n => Some n
  end.

(** The ending of a name after its last dot, unless the name starts with it. *)
Definition cut_extension (n : string) : string :=
  match rev (split_on "."%char n) with
  | _ :: ((_ :: _) as stem) =>
      let s := String.concat "." (rev stem) in if String.eqb s "" then n else s
  | _ => n
  end.
(** [path.with_extension(ext)], of a path that ends in a name. *)
Definition with_extension (path ext : string) : string :=
  match rev (split_on "/"%char path) with
  | n :: dirs => String.concat "/" (rev ((cut_extension n +:+ "." +:+ ext) :: dirs))
  | [] => path
  end.

Definition pad_left (n : nat) (s : string) : string := repeat_str " " (n - length (chars s)) +:+ s.

Definition is_resident (spec : option ExtSpec) : bool :=
  match spec with Some (MkSpec _ Resident) => true | _ => false end.

(** What the flags may not ask for. *)
Definition put_allowed (spec : option ExtSpec) (rotate_on_read server_copy shred : bool) (quorum : option Z)
    (signatories : list string) : result AppError unit :=
  if is_set spec && rotate_on_read then
    Err (AppConfig "--rotate-on-read is meaningless for client-side files (the server can't re-key what it can't read)")
  else if negb (is_resident spec) && (server_copy || shred) then
    Err (AppConfig "--server-copy and --shred require --external-data (resident)")
  else
    match quorum, signatories with
    | Some _, [] => Err (AppConfig "--quorum requires --signatories <name,name,...>")
    | None, _ :: _ => Err (AppConfig "--signatories requires --quorum N")
    | _, _ => Ok tt
    end.

Definition key_mode (key : ExtKey) : string := match key with ExtCmk _ => "managed" | ExtPassphrase _ => "passphrase" end.

Definition without_rotation (f : ResourceFlags) : ResourceFlags :=
  MkFlags (mfa_required f) (delete_on_read f) (max_reads f) false (preserve_on_cleanup f) (no_overwrite f).

Definition file_to_json (f : FileSummary) : Json :=
  JObj [("id", JStr (fi_id f)); ("name", JStr (fi_name f)); ("owner", JStr (fi_owner f)); ("size", JNum (fi_size f));
        ("mime_type", opt_json JStr (fi_mime f)); ("content_hash", JStr (fi_hash f));
        ("created_at", JStr (fi_created f)); ("updated_at", JStr (fi_updated f)); ("external", JStr (fi_external f));
        ("read_count", JNum (fi_reads f)); ("flags", flags_view_to_json (fi_flags f));
        ("exhausted_at", opt_json JStr (fi_exhausted f)); ("threshold_k", opt_json JNum (fi_threshold f));
        ("signatory_count", opt_json (fun n : nat => JNum (Z.of_nat n)) (fi_signatories f))].

Definition file_kind (f : FileSummary) : string :=
  let kind := if String.eqb (fi_external f) "key" then "external-key"
              else if String.eqb (fi_external f) "resident" then "resident" else "server" in
  if is_set (fi_exhausted f) then kind +:+ " (exhausted)" else kind.

Definition file_row (f : FileSummary) : string :=
  pad_right 32 (fi_name f) +:+ "  " +:+ pad_left 9 (show_Z (fi_size f)) +:+ "  " +:+ pad_right 14 (fi_owner f) +:+ "  "
  +:+ pad_right 16 (file_kind f) +:+ "  "
  +:+ rules_summary (fi_flags f) (fi_reads f) (fi_threshold f) (Z.of_nat <$> fi_signatories f) +:+ nl.
Definition file_head : string :=
  pad_right 32 "NAME" +:+ "  " +:+ pad_left 9 "SIZE" +:+ "  " +:+ pad_right 14 "OWNER" +:+ "  " +:+ pad_right 16 "KIND" +:+ "  "
  +:+ "RULES" +:+ nl.

Section files.
Context {P : Primitives} {O : OpsLib} {U : UrlLib} (env : Environment).
Context (http : string -> option string -> option string -> result ClientError (Request -> M (result ClientError Response))).
Context (profile stdin_line : string).

(** The stash of a resident file, through the index. *)
Definition stash_path (id : string) : result AppError string := d ← resident_dir env; Ok (path_join d id).
Definition read_stash (id : string) : M (result AppError (ResidentHeader * bytes)) :=
  path ←? liftR (stash_path id);
  stash ←? map_err_m (fun e => AppConfig ("reading resident stash: " +:+ e)) (fs_read path);
  liftR (resident_parse stash).

(** The envelope of an external file: the header from the row, the rest from the
    body. *)
Definition open_external_file (session : Session) (meta_b64 : string) (body : bytes) (passphrase : option string) :
    result AppError bytes :=
  meta ← ok_or (AppCrypto "external meta is not valid base64") (b64_decode meta_b64);
  e ← ext_decode (meta ++ body);
  external_open env e session passphrase.

(** ** put *)

Definition put_resident (session : Session) (bb : BlackbookClient) (spec : ExtSpec) (passphrase : option string)
    (path name : string) (body : bytes) (mime : option string) (flags : ResourceFlags) (quorum : option Z)
    (signatories : list string) (overwrite server_copy shred : bool) : M (result AppError Output) :=
  key ←? liftR (ext_key_for_spec env spec session passphrase);
  '(stash, kc_b64, _) ←? resident_seal key body name;
  id ← draw 16;
  let stash_id := hex_encode id +:+ ".bbkr" in
  stash_file ←? liftR (stash_path stash_id);
  dir ←? liftR (resident_dir env);
  _ ←? map_err_m AppIo (fs_create_dir_all dir);
  _ ←? map_err_m AppIo (fs_write stash_file stash);
  upload_body ←? (if server_copy then liftR ('(_, ct) ← resident_parse stash; Ok ct) else mret (Ok [byte_of_Z 0]));
  r ← bb_file_put bb name upload_body
        (MkFilePut mime (without_rotation flags) overwrite quorum signatories false None true (Some kc_b64) server_copy);
  match r with
  | Ok resp =>
      idx ← resident_index_load env;
      _ ←? resident_index_save env (<[resident_key (bb_domain bb) name := stash_id]> idx);
      _ ← (if shred then ignore (secure_delete path) else mret tt);
      mret (Ok (println ("registered resident " +:+ fi_name resp +:+ " (stash " +:+ stash_file +:+ ", sha3:"
        +:+ prefix 16 (fi_hash resp) +:+ "…) [resident/" +:+ key_mode key +:+ (if server_copy then " + server backup" else "")
        +:+ "]" +:+ (if shred then "; original shredded (overwritten)" else ""))))
  | Err e =>
      _ ← ignore (secure_delete stash_file);
      mret (Err (app_of_client e))
  end.

Definition put_in_server (session : Session) (bb : BlackbookClient) (spec : option ExtSpec) (passphrase : option string)
    (name : string) (body : bytes) (mime : option string) (flags : ResourceFlags) (quorum : option Z)
    (signatories : list string) (overwrite : bool) : M (result AppError Output) :=
  '(upload_body, meta, label) ←?
    match spec with
    | Some spec =>
        key ←? liftR (ext_key_for_spec env spec session passphrase);
        '(meta, ct) ←? external_seal_parts key body;
        mret (Ok (ct, Some (b64_encode meta), ext_mode_label key))
    | None => mret (Ok (body, None, ""))
    end;
  resp ←? asked (bb_file_put bb name upload_body
                   (MkFilePut mime flags overwrite quorum signatories (is_set meta) meta false None false));
  mret (Ok (println ("uploaded " +:+ fi_name resp +:+ " (" +:+ show_Z (fi_size resp) +:+ " bytes stored, sha3:"
                     +:+ prefix 16 (fi_hash resp) +:+ "…)" +:+ label))).

(** ** get *)

Definition open_download (session : Session) (bb : BlackbookClient) (name : string) (dl : FileDownload)
    (external_passphrase : option string) : M (result AppError bytes) :=
  if dl_resident dl then
    let dom := bb_domain bb in
    kc ←? liftR (ok_or (AppCrypto "server flagged file resident but returned no key component") (dl_key_component dl));
    idx ← resident_index_load env;
    stash_id ←? liftR (ok_or (AppConfig ("no local stash for resident file '" +:+ name +:+ "' in domain '" +:+ dom
                               +:+ "' — this machine doesn't hold the ciphertext")) (idx !! resident_key dom name));
    '(header, ct) ←? read_stash stash_id;
    liftR (resident_open env header ct kc session external_passphrase)
  else
    match dl_external_meta dl with
    | Some meta => liftR (open_external_file session meta (dl_bytes dl) external_passphrase)
    | None => mret (Ok (dl_bytes dl))
    end.

(** To a file, named after the resource unless told otherwise, or to standard
    output. *)
Definition deliver (name : string) (path : option string) (b : bytes) : M (result AppError Output) :=
  match path with
  | Some "-" => mret (Ok (MkOut b 0))
  | _ => _ ←? map_err_m AppIo (fs_write (default name path) b); mret (Ok (print ""))
  end.

(** ** rekey *)

Definition rekeyed (kind name : string) (key : ExtKey) (tail : string) : Output :=
  println ("✓ rekeyed " +:+ kind +:+ " file '" +:+ name +:+ "' → " +:+ ext_key_label key +:+ tail +:+ ".").

(** Only the client's half of the key is wrapped anew, in the stash. *)
Definition rekey_resident (session : Session) (name stash_id : string) (old_passphrase : option string) (new_key : ExtKey) :
    M (result AppError Output) :=
  path ←? liftR (stash_path stash_id);
  '(header, ct) ←? read_stash stash_id;
  kf_c ←? liftR (resident_unwrap_client_half env header session old_passphrase);
  new_stash ←? resident_rewrap new_key kf_c ct (rh_orig_name header);
  let tmp := with_extension path "bbkr.tmp" in
  _ ←? map_err_m AppIo (fs_write tmp new_stash);
  _ ←? map_err_m AppIo (fs_rename tmp path);
  mret (Ok (rekeyed "resident" name new_key " (local stash only; no re-upload)")).

Definition rekey_external (session : Session) (bb : BlackbookClient) (name : string) (old_passphrase : option string)
    (new_key : ExtKey) : M (result AppError Output) :=
  dl ←? asked (bb_file_get_download bb name None);
  if dl_resident dl then
    mret (Err (AppConfig ("'" +:+ name +:+ "' is resident but this machine has no local stash for it — rekey must run where the stash lives.")))
  else
    meta_b64 ←? liftR (ok_or (AppConfig ("'" +:+ name +:+ "' is a normal (server-side) file, not client-side — there is no external key to change."))
                         (dl_external_meta dl));
    plain ←? liftR (open_external_file session meta_b64 (dl_bytes dl) old_passphrase);
    '(meta, ct) ←? external_seal_parts new_key plain;
    _ ←? asked (bb_file_put bb name ct
                  (MkFilePut (dl_content_type dl) default_flags true None [] true (Some (b64_encode meta)) false None false));
    mret (Ok (rekeyed "external-key" name new_key "")).

Definition cmd_file (cmd : FileCmd) (domain mfa : option string) : M (result AppError Output) :=
  '(session, bb) ←? open_client env http profile domain mfa;
  match cmd with
  | FilePut path name mime flags quorum signatories overwrite ext server_copy shred =>
      body ←? map_err_m AppIo (fs_read path);
      let name := default (default "" (file_name path)) name in
      if String.eqb name "" then mret (Err (AppConfig "could not derive --name from path"))
      else
        spec ←? liftR (resolve_ext_spec env ext true);
        _ ←? liftR (put_allowed spec (rotate_on_read flags) server_copy shred quorum signatories);
        match spec with
        | Some (MkSpec _ Resident as spec) =>
            put_resident session bb spec (ef_passphrase ext) path name body mime flags quorum signatories overwrite
              server_copy shred
        | _ => put_in_server session bb spec (ef_passphrase ext) name body mime flags quorum signatories overwrite
        end
  | FileGet name path request_id wait wait_timeout external_passphrase =>
      dl ←? (if wait then until_approved wait_timeout (bb_file_get_download bb name request_id)
             else asked (bb_file_get_download bb name request_id));
      b ←? open_download session bb name dl external_passphrase;
      deliver name path b
  | FileLs json =>
      '(l, count) ←? asked (bb_file_list bb);
      if json then say (of_bytes (json_to_vec (listed_json "files" file_to_json l count)))
      else if count =? 0 then say "(no files)"
      else mret (Ok (print (file_head +:+ rule_line 120 +:+ String.concat "" (map file_row l))))
  | FileRm name yes =>
      if negb (confirmed stdin_line yes) then say "aborted"
      else _ ←? asked (bb_file_delete bb name); say ("deleted '" +:+ name +:+ "'")
  | FileRotate name => _ ←? asked (bb_file_rotate bb name); say ("rotated DEK for '" +:+ name +:+ "'")
  | FileRekey name old_external_passphrase external_key external_passphrase =>
      new_key ←? liftR (rekey_target_key session external_key external_passphrase);
      idx ← resident_index_load env;
      match idx !! resident_key (bb_domain bb) name with
      | Some stash_id => rekey_resident session name stash_id old_external_passphrase new_key
      | None => rekey_external session bb name old_external_passphrase new_key
      end
  end.
End files.
