(* ===== verification/ClientFilesProps.v ===== *)
(** [bbk file] end to end ([ClientFiles.v] over the routes and [Files.v]): what
    one client puts, sealed by the server, by the client, or resident, another
    gets. *)
From S2P Require Import Prelude Text Unicode AccessRules Crypto ToyPrimitives Store Effects Concurrency ServerBase ToyPlatform AuditLog Archive ArchiveProps Auth AuthProps Admin Threshold ThresholdProps Secrets SecretsLemmas Files FilesLemmas FilesContent Keys CryptoOps ToyOps CryptoOpsProps CredStore FileSteps Session SessionProps External ExternalProps ClientSecrets ClientSecretsProps Presentation KeyClient Client Routes RoutesProps CryptoCommands Commands ClientFiles.

Section server.
Context {P : Primitives} {L : PrimitiveLaws P} {PF : Platform} {O : OpsLib} {OL : OpsLaws P O} {C : ArchiveCodec} {W : Web} {WL : WebLaws W}.
Context (state : AppState).

Lemma refuses_from_request a p : refuses (from_request state a p).
Proof. unfold from_request, lookup_by_cn, lookup_by_token, live_client. solve_refuses. Qed.

Lemma refuses_upload_file mg name body ct q pol client : refuses (upload_file state mg name body ct q pol client).
Proof.
  assert (Hs : forall l, refuses (signatory_ids state l)) by (induction l; cbn [signatory_ids]; solve_refuses; auto).
  unfold upload_file, upload_validate, upload_conflicts, authorize_file, upload_policy, upload_seal, upload_meta,
    upload_component, seal_file, file_kek, replace_tx, create_page_tx, enc_mime, policy_ids, seal_blob, seal_envelope,
    new_id, enc_str, enc_field.
  solve_refuses; auto.
Qed.
End server.

Section http.
Context {P : Primitives} {L : PrimitiveLaws P} {PF : Platform} {O : OpsLib} {OL : OpsLaws P O} {C : ArchiveCodec} {W : Web} {WL : WebLaws W}.
Context (state : AppState) (start_time : Z) (version : string) (mime_guess : string -> option string).
Context (bad_query bad_body no_route : Response).

(** A client of this server: who it is, and the credentials it connects with. *)
Abbreviation bb_of peer origin token domain mfa :=
  (client_of state start_time version mime_guess bad_query bad_body no_route peer origin token domain mfa).

Context (peer : option PeerCertInfo) (origin token domain : string) (mfa : option string).
Context (Ho : is_origin origin) (Ht : header_ok ("Bearer " +:+ token) = true)
  (Hm : forall c, mfa = Some c -> header_ok c = true).
Abbreviation bb := (bb_of peer origin token domain mfa).

(** An upload that the client saw succeed is a handler that ended normally. *)
Lemma file_put_Ok name body put w r w' :
  segment_ok name = true -> put_fits put -> run (bb_file_put bb name body put) w = (Val (Ok r), w') ->
  exists c w1 resp, db w1 = db w /\ fs w1 = fs w /\
    run (upload_file state mime_guess name body (fp_mime put) (own_domain domain) (upload_query put) c) w1 = (Val resp, w').
Proof.
  intros Hn Hf H.
  rewrite (upload_reaches state start_time version mime_guess bad_query bad_body no_route peer origin token domain mfa
    Ho Ht Hm name put body Hn Hf w) in H.
  unfold handle in H. apply run_try_Ok in H as (rs & w1 & Hr & H). rewrite run_ret in H. injection H as H ->.
  rewrite run_bind, run_respond_m in Hr.
  destruct (run (caller _ _ _ _) w) as [o w2] eqn:E. cbn [fst snd] in Hr. rewrite run_ret in Hr. injection Hr as <- <-.
  unfold handle_response in H. destruct (is_success (resp_status (respond o))) eqn:Es; [|done].
  assert (Hrf : refuses (caller state peer token
    (upload_file state mime_guess name body (fp_mime put) (own_domain domain) (upload_query put)))).
  { apply refuses_bind; [apply refuses_from_request|intros c; apply refuses_upload_file]. }
  destruct (refuses_success _ _ _ _ Hrf E Es) as [resp ->].
  apply run_bind_Val in E as (c & w1 & Hc & E). exists c, w1, resp.
  split; [by apply (run_reads _ _ _ _ (writes_from_request state _ _) Hc)|]. split; [|exact E].
  by apply (run_files [] _ _ _ _ (writes_from_request state _ _) eq_refl Hc).
Qed.

Definition downloaded (r : Response) : FileDownload :=
  MkDownload (body_bytes (resp_body r)) (header "Content-Type" r)
    (match header "X-Blackbook-External" r with
     | Some _ => Some (default "" (header "X-Blackbook-External-Meta" r))
     | None => None
     end)
    (header "X-Blackbook-Key-Component" r)
    (match header "X-Blackbook-Resident" r with Some _ => true | None => false end).

Lemma download_reaches name rid w : segment_ok name = true -> all_headers rid ->
  run (bb_file_get_download bb name rid) w =
  run (handle_download (resp ← respond_m (caller state peer token
    (download_file state name (own_domain domain) (MkHeaders rid mfa))); mret (Ok resp))) w.
Proof.
  intros Hn Hr.
  pose proof (resource_calls_reach state start_time version mime_guess bad_query bad_body no_route peer origin token domain mfa
    Ho Ht Hm name rid (MkStore "" "" None None false None)
    (MkFilePut None default_flags false None [] false None false None false) [] Hn Hr) as H.
  unfold resource_calls in H. rewrite !Forall_cons in H.
  destruct H as (_ & _ & _ & _ & _ & _ & _ & _ & Hd & _); [by split|by split_and!|]. exact (Hd w).
Qed.

Lemma file_get_Ok name rid c w resp w' : segment_ok name = true -> all_headers rid ->
  run (from_request state (Some ("Bearer " +:+ token)) peer) w = (Val c, w) ->
  run (download_file state name (own_domain domain) (MkHeaders rid mfa) c) w = (Val resp, w') ->
  is_success (resp_status resp) = true ->
  run (bb_file_get_download bb name rid) w = (Val (Ok (downloaded resp)), w').
Proof.
  intros Hn Hr Hc Hd Hs. rewrite download_reaches by done. unfold handle_download.
  eapply run_try.
  - rewrite run_bind, (run_caller state peer token c _ w Hc), run_respond_m, Hd. reflexivity.
  - cbn [fst snd respond]. by rewrite Hs.
Qed.
End http.

Section sealed.
Context {P : Primitives} {L : PrimitiveLaws P} {PF : Platform} {O : OpsLib} {OL : OpsLaws P O} (state : AppState).

Lemma upload_query_flags put : FilePolicyQuery_flags (upload_query put) = fp_flags put.
Proof. destruct put as [? [[] [] m [] [] []] ? ? ? ? ? ? ? ?]; reflexivity. Qed.

(** What the server does with a body, by who sealed it. *)
Lemma sealed_by_server pol body w x w' :
  fq_resident pol = None -> fq_external pol = None -> run (upload_seal state pol body) w = (Val x, w') ->
  sf_external x = false.
Proof.
  unfold upload_seal. intros -> -> H. cbn [default negb andb] in H.
  apply run_bind_Val in H as (m & w1 & _ & H). apply run_bind_Val in H as (c & w2 & _ & H).
  apply run_bind_Val in H as ([s d] & w3 & _ & H). by run_inv.
Qed.

Lemma sealed_by_client pol body w x w' meta :
  fq_resident pol = None -> fq_external pol = Some true -> fq_meta pol = Some (b64_encode meta) ->
  run (upload_seal state pol body) w = (Val x, w') -> sf_external x = true /\ sf_meta x = Some meta.
Proof.
  unfold upload_seal. intros -> -> Hm H. cbn [default negb andb] in H.
  apply run_bind_Val in H as (m & w1 & Hmeta & H). apply run_bind_Val in H as (c & w2 & _ & H).
  apply run_bind_Val in H as ([s d] & w3 & _ & H). run_inv. split; [done|]. cbn [sf_meta].
  unfold upload_meta, id in Hmeta. rewrite Hm, b64_roundtrip in Hmeta. destruct meta; by run_inv.
Qed.

Lemma sealed_resident pol body w x w' kc :
  fq_resident pol = Some true -> fq_key_component pol = Some (b64_encode kc) ->
  run (upload_seal state pol body) w = (Val x, w') ->
  sf_kind x = 2 /\ exists wrapped kek, sf_component x = Some wrapped /\ Crypto.handle (file_dek_kek (app_keys state)) = Ok kek /\
    decrypt_aes_gcm wrapped kek = Ok kc.
Proof.
  unfold upload_seal. intros -> Hk H. cbn [default negb andb] in H.
  apply run_bind_Val in H as (m & w1 & _ & H). apply run_bind_Val in H as (c & w2 & Hc & H).
  apply run_bind_Val in H as ([s d] & w3 & _ & H). run_inv. split; [done|]. cbn [sf_component].
  unfold upload_component, id in Hc. rewrite Hk, b64_roundtrip in Hc. destruct (length kc =? 32)%nat; [|done]. cbn [negb] in Hc.
  apply run_bind_Val in Hc as (kek & w4 & Hkek & Hc). unfold file_kek in Hkek. apply run_pure_500 in Hkek as [Hkek ->].
  apply run_bind_Val in Hc as (r & w5 & Hr & Hc). apply run_bind_Val in Hc as (wd & w6 & Hw & Hc).
  apply run_pure_500 in Hw as [-> ->]. apply seal_envelope_inv in Hr as [_ Hr]. run_inv. by exists wd, kek.
Qed.
End sealed.

(** ** What the client makes of a download *)

Section opened.
Context {P : Primitives} {L : PrimitiveLaws P} {PF : Platform} {O : OpsLib} {OL : OpsLaws P O} {U : UrlLib}.

Lemma downloaded_stored p mime body :
  exists ct, downloaded (download_response p mime body) =
    MkDownload body ct (if p_external p then Some (b64_encode (default [] (p_external_meta p))) else None) None false.
Proof. exists mime. unfold downloaded, download_response. by destruct mime, (p_external p). Qed.

Lemma downloaded_resident p kc :
  downloaded (resident_response p kc) = MkDownload [] None None (Some (b64_encode kc)) true.
Proof. unfold downloaded, resident_response. by destruct (p_server_copy p). Qed.

Lemma open_external_file_Ok env session meta ct explicit e pt :
  ext_decode (meta ++ ct) = Ok e -> external_open env e session explicit = Ok pt ->
  open_external_file env session (b64_encode meta) ct explicit = Ok pt.
Proof. intros He Ho. unfold open_external_file. rewrite b64_roundtrip. cbn [ok_or]. by rewrite bind_Ok, He, bind_Ok. Qed.
End opened.

(** ** The commands *)

(** A machine the command runs on: its environment and profile, and what it
    connects to the server with. *)
Record Desk {U : UrlLib} := MkDesk {
  dk_env : Environment;
  dk_http : string -> option string -> option string -> result ClientError (Request -> M (result ClientError Response));
  dk_profile : string;
  dk_stdin : string;
  dk_session : Session;
  dk_peer : option PeerCertInfo;
  dk_origin : string;
  dk_token : string;
  dk_mfa : option string;
}.

Section commands.
Context {P : Primitives} {L : PrimitiveLaws P} {PF : Platform} {O : OpsLib} {OL : OpsLaws P O} {U : UrlLib} {C : ArchiveCodec} {W : Web} {WL : WebLaws W}.
Context (state : AppState) (start_time : Z) (version : string) (mime_guess : string -> option string).
Context (bad_query bad_body no_route : Response).

Definition client_at (k : Desk) (domain : string) : BlackbookClient :=
  client_of state start_time version mime_guess bad_query bad_body no_route (dk_peer k) (dk_origin k) (dk_token k) domain (dk_mfa k).

(** The session opens, and the client it gives talks to this server in
    [domain]. *)
Definition connects (k : Desk) (args : option string * option string) (domain : string) (w w1 : World) : Prop :=
  is_origin (dk_origin k) /\ header_ok ("Bearer " +:+ dk_token k) = true /\
  (forall c, dk_mfa k = Some c -> header_ok c = true) /\
  run (open_client (dk_env k) (dk_http k) (dk_profile k) args.1 args.2) w = (Val (Ok (dk_session k, client_at k domain)), w1).

Definition file_command (k : Desk) (cmd : FileCmd) (args : option string * option string) : M (result AppError Output) :=
  cmd_file (dk_env k) (dk_http k) (dk_profile k) (dk_stdin k) cmd args.1 args.2.

Lemma run_connected k cmd args domain w w1 : connects k args domain w w1 ->
  exists f, (forall r, run (f (dk_session k, client_at k domain)) w1 = r -> run (file_command k cmd args) w = r) /\
    file_command k cmd args = try_bind (open_client (dk_env k) (dk_http k) (dk_profile k) args.1 args.2) f.
Proof.
  intros (_ & _ & _ & Hc). unfold file_command, cmd_file. eexists. split; [|reflexivity].
  intros r Hr. by eapply run_try.
Qed.

Lemma touches_seal_parts S key pt : touches S (external_seal_parts key pt).
Proof. unfold external_seal_parts, sealing_kek, seal_with. touching. Qed.

Lemma touched_nothing {A} (m : M A) w o w' : touches (fun _ => False) m -> run m w = (o, w') -> db w' = db w /\ fs w' = fs w.
Proof.
  intros Hm H. pose proof (touches_run_rest _ m w Hm) as (Hdb & _ & _). pose proof (touches_none_run m w Hm) as Hfs.
  by rewrite H in Hdb, Hfs.
Qed.

(** What [put] hands to the client for the server: the body itself, or what its
    key sealed. *)
Definition sealed_for (env : Environment) (session : Session) (pass : option string) (spec : option ExtSpec) (body sent : bytes)
    (meta : option string) : Prop :=
  match spec with
  | None => sent = body /\ meta = None
  | Some sp => exists key m e, meta = Some (b64_encode m) /\ ext_decode (m ++ sent) = Ok e /\
      ext_key_for_spec env sp session pass = Ok key /\
      forall env' session' explicit, has_key env' session' explicit key -> external_open env' e session' explicit = Ok body
  end.

Lemma put_in_server_sent env session bb spec pass name body mime flags quorum signatories overwrite w out w' :
  run (put_in_server env session bb spec pass name body mime flags quorum signatories overwrite) w = (Val (Ok out), w') ->
  exists sent meta w1 r, db w1 = db w /\ fs w1 = fs w /\ sealed_for env session pass spec body sent meta /\
    run (bb_file_put bb name sent (MkFilePut mime flags overwrite quorum signatories (is_set meta) meta false None false)) w1 =
      (Val (Ok r), w').
Proof.
  intros H. unfold put_in_server in H. apply run_try_Ok in H as ([[sent meta] label] & w1 & Hs & H).
  apply run_try_Ok in H as (r & w2 & Hp & H). rewrite run_ret in H. injection H as _ <-. apply run_map_err_Ok in Hp.
  exists sent, meta, w1, r. destruct spec as [sp|].
  - apply run_try_liftR in Hs as (key & Hkey & Hs). apply run_try_Ok in Hs as ([m ct] & w3 & Hsl & Hs).
    rewrite run_ret in Hs. injection Hs as <- <- _ <-.
    destruct (touched_nothing _ _ _ _ (touches_seal_parts _ key body) Hsl) as [Hdb Hfs]. do 2 (split; [done|]). split; [|done].
    destruct (external_seal_parts_Ok key body w m ct w3 (ext_key_length _ _ _ _ _ Hkey) Hsl) as (e & He & _ & _ & Ho).
    by exists key, m, e.
  - rewrite run_ret in Hs. injection Hs as <- <- _ <-. by split_and!.
Qed.

(** The options of an upload without a quorum, in their widths. *)
Record putting (name : string) (mime : option string) (flags : ResourceFlags) : Prop := {
  pt_segment : segment_ok name = true;
  pt_name : is_str name;
  pt_mime : forall m, mime = Some m -> header_ok m = true;
  pt_guess : forall m, upload_mime mime_guess name mime = Some m -> is_str m;
  pt_mfa : mfa_required flags = false;
  pt_reads : forall m, max_reads flags = Some m -> 1 <= m <= i64_max;
}.

(** The name is free in the live domain [dom]. *)
Definition name_free (domain dom name : string) (d : Db) : Prop :=
  live_domain_id (domain_name_id_hex (name_index_key state) (DomainQuery_name (own_domain domain))) d = Some dom /\
  find_page dom (name_id_hex (name_index_key state) dom name) d = None.

Abbreviation mime_of name mime := (upload_mime mime_guess name mime).

Lemma putting_fits name mime flags overwrite meta external resident component copy :
  putting name mime flags -> put_fits (MkFilePut mime flags overwrite None [] external meta resident component copy).
Proof. intros [_ _ Hm _ _ Hr]. split; [|split; [done|exact Hm]]. intros m H. specialize (Hr m H). unfold fits_i64, i64_min. lia. Qed.

(** What an upload of a new name by [put] leaves behind. *)
Lemma file_put_uploaded k args domain name mime flags put sent w w0 w1 r w' dom :
  connects k args domain w w0 -> putting name mime flags -> name_free domain dom name (db w1) ->
  put_fits put -> fp_mime put = mime -> fp_flags put = flags -> fp_quorum put = None -> fp_signatories put = [] ->
  run (bb_file_put (client_at k domain) name sent put) w1 = (Val (Ok r), w') ->
  exists p x wa wb cid, run (upload_seal state (upload_query put) sent) wa = (Val x, wb) /\
    pages (db w') = pages (db w1) ++ [p] /\
    uploaded state (db w') (fs w') dom name sent (mime_of name mime) flags x p /\
    fs w' = <[blob_path cid := sf_bytes x]> (fs w1).
Proof.
  intros (Ho & Ht & Hmf & _) [Hseg Hname _ Hg _ _] [Hd Hnew] Hfits <- <- Hq Hs H.
  destruct (file_put_Ok state start_time version mime_guess bad_query bad_body no_route (dk_peer k) (dk_origin k) (dk_token k)
    domain (dk_mfa k) Ho Ht Hmf name sent put w1 r w' Hseg Hfits H) as (c & w2 & resp & Hdb & Hfs & Hup). clear H.
  rewrite <- Hdb in Hd, Hnew |- *. rewrite <- Hfs. rewrite <- (upload_query_flags put).
  eapply upload_row; [exact Hup|..]; try done. cbn [upload_query fq_signatories]. by rewrite Hs.
Qed.

(** A reader whom the server knows, the domain lets in and the rules let read. *)
Definition admitted (k : Desk) (domain dom name : string) (w : World) : Prop :=
  faults w = [] /\ exists c, run (from_request state (Some ("Bearer " +:+ dk_token k)) (dk_peer k)) w = (Val c, w) /\
    let_in state c (own_domain domain) dom name w.

(** [get] to standard output. *)
Lemma file_get_run k args domain name rid t explicit w w1 resp w2 c :
  connects k args domain w w1 -> segment_ok name = true -> all_headers rid ->
  run (from_request state (Some ("Bearer " +:+ dk_token k)) (dk_peer k)) w1 = (Val c, w1) ->
  run (download_file state name (own_domain domain) (MkHeaders rid (dk_mfa k)) c) w1 = (Val resp, w2) ->
  is_success (resp_status resp) = true ->
  run (file_command k (FileGet name (Some "-") rid false t explicit) args) w =
  run (b ←? open_download (dk_env k) (dk_session k) (client_at k domain) name (downloaded resp) explicit; deliver name (Some "-") b) w2.
Proof.
  intros (Ho & Ht & Hmf & Hc) Hseg Hrid Hcl Hd Hs. unfold file_command, cmd_file.
  pose proof (file_get_Ok state start_time version mime_guess bad_query bad_body no_route (dk_peer k) (dk_origin k) (dk_token k)
    domain (dk_mfa k) Ho Ht Hmf name rid c w1 resp w2 Hseg Hrid Hcl Hd Hs) as Hg.
  eapply run_try; [exact Hc|]. cbv beta iota. eapply run_try; [|reflexivity].
  unfold asked. rewrite run_map_err. unfold client_at. rewrite Hg. reflexivity.
Qed.

(** The file is still what the upload left. *)
Definition kept (w' v : World) : Prop :=
  pages (db v) = pages (db w') /\ contents (db v) = contents (db w') /\
  forall cid, fs v !! blob_path cid = fs w' !! blob_path cid.

(** Before a [put] asks the server: the file is read, the options are checked. *)
Lemma run_put_checked k args domain path name0 name mime flags sigs overwrite ext copy shred spec w w1 out w' body :
  connects k args domain w w1 -> fs w1 !! path = Some body -> default (default "" (file_name path)) name0 = name ->
  resolve_ext_spec (dk_env k) ext true = Ok spec ->
  run (file_command k (FilePut path name0 mime flags None sigs overwrite ext copy shred) args) w = (Val (Ok out), w') ->
  exists w2, db w2 = db w1 /\ fs w2 = fs w1 /\ put_allowed spec (rotate_on_read flags) copy shred None sigs = Ok tt /\
    run (match spec with
         | Some (MkSpec _ Resident as s) =>
             put_resident (dk_env k) (dk_session k) (client_at k domain) s (ef_passphrase ext) path name body mime flags None sigs
               overwrite copy shred
         | _ => put_in_server (dk_env k) (dk_session k) (client_at k domain) spec (ef_passphrase ext) name body mime flags None sigs
                  overwrite
         end) w2 = (Val (Ok out), w').
Proof.
  intros (_ & _ & _ & Hc) Hfile Hname Hspec H. unfold file_command, cmd_file in H.
  apply run_try_Ok in H as (x & w2 & Hc' & H). rewrite Hc in Hc'. injection Hc' as <- <-. cbv beta iota zeta in H.
  apply run_try_Ok in H as (b & w3 & Hr & H). apply run_map_err_Ok in Hr.
  destruct (touched_nothing _ _ _ _ (touches_fs_read _ path) Hr) as [Hdb Hfs].
  apply fs_read_Ok in Hr as [Hr _]. rewrite Hfile in Hr. injection Hr as <-.
  rewrite Hname in H. destruct (String.eqb name ""); [done|]. rewrite Hspec in H.
  apply run_try_liftR in H as (s & Hs & H). injection Hs as <-. apply run_try_liftR in H as ([] & Hal & H).
  exists w3. do 3 (split; [done|]). exact H.
Qed.

(** A [put] that the server or the client's key seals reaches the client. *)
Lemma file_put_sent k args domain path name0 name mime flags sigs overwrite ext copy shred spec w w1 out w' body :
  connects k args domain w w1 -> fs w1 !! path = Some body -> default (default "" (file_name path)) name0 = name ->
  resolve_ext_spec (dk_env k) ext true = Ok spec -> is_resident spec = false ->
  run (file_command k (FilePut path name0 mime flags None sigs overwrite ext copy shred) args) w = (Val (Ok out), w') ->
  exists sent meta w2 r, db w2 = db w1 /\
    sealed_for (dk_env k) (dk_session k) (ef_passphrase ext) spec body sent meta /\
    run (bb_file_put (client_at k domain) name sent
           (MkFilePut mime flags overwrite None [] (is_set meta) meta false None false)) w2 = (Val (Ok r), w').
Proof.
  intros Hc Hfile Hname Hspec Hres H. apply (run_put_checked k args domain) with (w1 := w1) (spec := spec) (name := name) (body := body) in H
    as (w2 & Hdb & _ & Hal & H); [|done..]. 
  assert (sigs = []) as ->. { unfold put_allowed in Hal. destruct (_ && _); [done|]. destruct (_ && _); [done|]. by destruct sigs. }
  assert (H' : run (put_in_server (dk_env k) (dk_session k) (client_at k domain) spec (ef_passphrase ext) name body mime flags None []
    overwrite) w2 = (Val (Ok out), w')) by (by destruct spec as [[? []]|]).
  apply put_in_server_sent in H' as (sent & meta & w3 & r & Hdb3 & _ & Hs & Hb). exists sent, meta, w3, r.
  split; [congruence|]. by split.
Qed.

(** C29. What one client puts another gets, byte for byte. If [put] of a file
    under a free name succeeds (sealed by the server, or by the client with its
    master key or a passphrase), then in any later state that keeps the file,
    [get] by whoever the server admits, and who has the key if the client sealed
    it, writes exactly the file that was put, from whatever machine. *)
Theorem file_put_then_get (here there : Desk) args args' domain dom path name0 name mime flags sigs overwrite ext copy shred spec
    w w1 out w' v v1 body rid t explicit :
  (* the put *)
  connects here args domain w w1 -> fs w1 !! path = Some body -> default (default "" (file_name path)) name0 = name ->
  resolve_ext_spec (dk_env here) ext true = Ok spec -> is_resident spec = false ->
  putting name mime flags -> name_free domain dom name (db w1) ->
  run (file_command here (FilePut path name0 mime flags None sigs overwrite ext copy shred) args) w = (Val (Ok out), w') ->
  (* the get *)
  connects there args' domain v v1 -> kept w' v1 -> admitted there domain dom name v1 -> all_headers rid ->
  (forall sp key, spec = Some sp -> ext_key_for_spec (dk_env here) sp (dk_session here) (ef_passphrase ext) = Ok key ->
     has_key (dk_env there) (dk_session there) explicit key) ->
  (run (file_command there (FileGet name (Some "-") rid false t explicit) args') v).1 = Val (Ok (MkOut body 0)).
Proof.
  intros Hc Hfile Hname Hspec Hres Hput Hfree H Hc' (Hkp & Hkc & Hkf) (Hf & c & Hcl & nm & dec & Hgate & Hacl & Hal) Hrid Hhas.
  destruct (file_put_sent here args domain path name0 name mime flags sigs overwrite ext copy shred spec w w1 out w' body
    Hc Hfile Hname Hspec Hres H) as (sent & meta & w2 & r & Hdb & Hseal & Hbb).
  rewrite <- Hdb in Hfree. edestruct (file_put_uploaded here args domain name mime flags) as (p & x & wa & wb & cid & Hx & Hpages & Up & _);
    [exact Hc|done|exact Hfree| | | | | |exact Hbb|]; [by eapply putting_fits|done..|].
  assert (U1 : uploaded state (db v1) (fs v1) dom name sent (mime_of name mime) flags x p).
  { apply (uploaded_moved _ _ _ _ _ _ _ _ _ _ _ _ Up); done. }
  assert (Hmax : forall m, max_reads flags = Some m -> 1 <= m) by (intros m Hm; apply (pt_reads _ _ _ Hput m Hm)).
  destruct (download_run state name (own_domain domain) (MkHeaders rid (dk_mfa there)) c v1 dom nm p sent (mime_of name mime) dec)
    as [v2 Hd]; try done.
  - apply (uploaded_found state (db w2) (db v1) _ _ _ _ _ _ _ _ _ U1 (proj2 Hfree)). by rewrite Hkp.
  - eapply uploaded_file_at; [exact U1| |exact Hx]. done.
  - exact (uploaded_open _ _ _ _ _ _ _ _ _ _ U1 (pt_mfa _ _ _ Hput) Hmax).
  - apply (up_mime _ _ _ _ _ _ _ _ _ _ U1).
  - rewrite (file_get_run there args' domain name rid t explicit v v1 _ v2 c Hc' (pt_segment _ _ _ Hput) Hrid Hcl Hd eq_refl).
    destruct (downloaded_stored p (mime_of name mime) sent) as [ct ->]. unfold open_download. cbn [dl_resident dl_external_meta dl_bytes].
    rewrite (up_external _ _ _ _ _ _ _ _ _ _ U1), (up_meta _ _ _ _ _ _ _ _ _ _ U1). destruct spec as [sp|].
    + destruct Hseal as (key & m & e & -> & He & Hkey & Ho).
      apply (sealed_by_client state) with (meta := m) in Hx as [-> ->]; [|done..]. cbv iota. cbn [default from_option id].
      by rewrite (open_external_file_Ok _ _ m sent explicit e body He (Ho _ _ explicit (Hhas sp key eq_refl Hkey))).
    + destruct Hseal as [-> ->]. apply (sealed_by_server state) in Hx; [|done..]. by rewrite Hx.
Qed.

(** *** Resident files *)

Definition texts (idx : gmap string string) : Prop := forall k v, idx !! k = Some v -> is_str k /\ is_str v.
Abbreviation index_entry := (fun kv : string * Json => s ← as_str kv.2; Some (kv.1, s)).

Lemma entries_insert k v m l : mapM index_entry m = Some l ->
  exists l', mapM index_entry (obj_insert k (JStr v) m) = Some l' /\
    (list_to_map l' : gmap string string) = <[k := v]> (list_to_map l).
Proof.
  revert l. induction m as [|[k' j] m IH]; intros l H.
  - injection H as <-. by exists [(k, v)].
  - apply mapM_Some, Forall2_cons_inv_l in H as ([k0 v'] & l' & Hj & H%mapM_Some & ->). cbn [fst snd] in Hj.
    destruct (as_str j) as [s|] eqn:Ej; [|done]. injection Hj as -> ->. cbn [obj_insert].
    destruct (String.compare k k0) eqn:E.
    + apply String.compare_eq_iff in E as ->. exists ((k0, v) :: l'). split.
      * apply mapM_Some. constructor; [done|]. by apply mapM_Some.
      * cbn. by rewrite insert_insert_eq.
    + exists ((k, v) :: (k0, v') :: l'). split; [|done].
      apply mapM_Some. constructor; [done|]. constructor; [cbn [fst snd]; by rewrite Ej|]. by apply mapM_Some.
    + destruct (IH l' H) as (l2 & H2 & Hl2). exists ((k0, v') :: l2). split.
      * apply mapM_Some. constructor; [cbn [fst snd]; by rewrite Ej|]. by apply mapM_Some.
      * cbn. rewrite Hl2. apply insert_insert_ne. intros ->. pose proof (String.compare_antisym k k) as Ha. by rewrite E in Ha.
Qed.

(** The index is read back as it was written. *)
Lemma index_reads_back idx : texts idx ->
  json_ok (index_to_json idx) = true /\ index_from_json (index_to_json idx) = Some idx.
Proof.
  intros Ht. unfold index_to_json, index_from_json.
  assert (H : forall l, (forall k v, (k, v) ∈ l -> is_str k /\ is_str v) ->
    json_ok (JObj (foldr (fun kv m => obj_insert kv.1 (JStr kv.2) m) [] l)) = true /\
    exists l', mapM index_entry (foldr (fun kv m => obj_insert kv.1 (JStr kv.2) m) [] l) = Some l' /\
      (list_to_map l' : gmap string string) = list_to_map l).
  { induction l as [|[k v] l IH]; intros Hl; [split; [done|by exists []]|].
    destruct IH as (Hok & l' & Hm & Hl'); [intros k' v' Hin; apply Hl; by right|].
    destruct (Hl k v) as [Hk Hv]; [by left|]. cbn [foldr fst snd]. split.
    - apply obj_ok_insert; [exact Hok|exact Hk|]. cbn [json_ok]. by unfold str_ok; rewrite bool_decide_true.
    - destruct (entries_insert k v _ _ Hm) as (l2 & Hm2 & Hl2). exists l2. split; [exact Hm2|]. cbn. by rewrite Hl2, Hl'. }
  destruct (H (map_to_list idx)) as (Hok & l' & Hm & Hl').
  { intros k v Hin. apply elem_of_map_to_list in Hin. by apply Ht. }
  split; [exact Hok|]. rewrite Hm. cbn. by rewrite Hl', list_to_map_to_list.
Qed.

(** The paths of a directory's files. *)
Definition inside (dir p : string) : Prop := exists a, starts_with "/" a = false /\ p = path_join dir a.

(** What [put] of a resident file leaves: the stash below the directory, and
    its name in the index. *)
Definition stashed (dir domain name : string) (w : World) (stash : bytes) : Prop :=
  exists idx id, texts idx /\ idx !! resident_key domain name = Some id /\ starts_with "/" id = false /\
    fs w !! path_join dir "index.json" = Some (as_bytes (json_pretty (index_to_json idx))) /\
    fs w !! path_join dir id = Some stash.

Lemma index_load_written env dir idx w : resident_dir env = Ok dir -> faults w = [] -> texts idx ->
  fs w !! path_join dir "index.json" = Some (as_bytes (json_pretty (index_to_json idx))) ->
  run (resident_index_load env) w = (Val idx, w).
Proof.
  intros Hd Hf Ht Hi. unfold resident_index_load, resident_index_path. rewrite Hd, bind_Ok.
  eapply run_then; [apply run_fs_read; [done|exact Hi]|]. rewrite run_ret. do 2 f_equal. cbn [ok mbind option_bind].
  destruct (index_reads_back idx Ht) as [Hok Hr]. rewrite json_pretty_exact by exact Hok. cbn [mbind option_bind]. by rewrite Hr.
Qed.

Lemma index_load_texts env dir w idx w' : resident_dir env = Ok dir ->
  (forall b idx, fs w !! path_join dir "index.json" = Some b -> json_from_slice b ≫= index_from_json = Some idx -> texts idx) ->
  run (resident_index_load env) w = (Val idx, w') -> texts idx /\ db w' = db w /\ fs w' = fs w.
Proof.
  intros Hd Ht H. unfold resident_index_load, resident_index_path in H. rewrite Hd, bind_Ok in H.
  apply run_bind_Val in H as (r & w1 & Hr & H). rewrite run_ret in H. injection H as <- <-.
  destruct (touched_nothing _ _ _ _ (touches_fs_read _ _) Hr) as [Hdb Hfs]. split; [|done].
  assert (Hempty : texts ∅) by (intros k v Hk; by rewrite lookup_empty in Hk).
  destruct r as [b|e]; [|exact Hempty]. apply fs_read_Ok in Hr as [Hb _]. cbn [ok mbind option_bind].
  destruct (json_from_slice b ≫= index_from_json) as [m|] eqn:E; [by eapply Ht|exact Hempty].
Qed.

Lemma written p b w u w' : run (fs_write p b) w = (Val (Ok u), w') -> db w' = db w /\ fs w' = <[p := b]> (fs w).
Proof.
  intros H. pose proof (touches_run_rest (fun _ => True) _ w (touches_fs_write (fun _ => True) p b I)) as (Hdb & _ & _).
  rewrite H in Hdb. by apply fs_write_Ok in H.
Qed.

Lemma index_save_Ok env dir idx w u w' : resident_dir env = Ok dir ->
  run (resident_index_save env idx) w = (Val (Ok u), w') ->
  db w' = db w /\ fs w' = <[path_join dir "index.json" := as_bytes (json_pretty (index_to_json idx))]> (fs w).
Proof.
  intros Hd H. unfold resident_index_save, resident_index_path in H. rewrite Hd, bind_Ok in H.
  apply run_try_liftR in H as (d & Hd' & H). injection Hd' as <-. apply run_try_Ok in H as (x & w1 & Hc & H).
  apply run_map_err_Ok in Hc. destruct (touched_nothing _ _ _ _ (touches_fs_create_dir_all _ _) Hc) as [Hdb Hfs].
  apply run_try_liftR in H as (p & Hp & H). injection Hp as <-. apply run_map_err_Ok in H.
  apply written in H as [-> ->]. by rewrite Hdb, Hfs.
Qed.

Lemma touches_wrap S key kf name : touches S (wrap_client_half key kf name).
Proof. unfold wrap_client_half, sealing_kek, seal_with. touching. Qed.

Lemma touches_resident_seal S key pt name : touches S (resident_seal key pt name).
Proof.
  unfold resident_seal. apply touches_bind; [apply touches_draw|intros kf]. apply touches_bind; [apply touches_draw|intros kf_c].
  apply touches_try; [unfold seal_with; touching|intros ct]. apply touches_try; [apply touches_wrap|intros h]. done.
Qed.

Lemma resident_half key pt name w stash kf_s label w' :
  run (resident_seal key pt name) w = (Val (Ok (stash, kf_s, label)), w') -> exists kc, kf_s = b64_encode kc.
Proof.
  intros H. unfold resident_seal in H. apply run_bind_Val in H as (kf & w1 & _ & H).
  apply run_bind_Val in H as (kf_c & w2 & _ & H). apply run_try_Ok in H as (ct & w3 & _ & H).
  apply run_try_Ok in H as (h & w4 & _ & H). rewrite run_ret in H. injection H as _ <- _ _. by eexists.
Qed.

(** Where the stash of a [put] goes, and what goes to the server. *)
Lemma put_resident_sent k domain spec pass path name body mime flags overwrite copy shred dir w out w' :
  resident_dir (dk_env k) = Ok dir ->
  run (put_resident (dk_env k) (dk_session k) (client_at k domain) spec pass path name body mime flags None [] overwrite copy shred) w =
    (Val (Ok out), w') ->
  exists key stash kc label wa wb id sent w1 r w2,
    ext_key_for_spec (dk_env k) spec (dk_session k) pass = Ok key /\
    run (resident_seal key body name) wa = (Val (Ok (stash, b64_encode kc, label)), wb) /\
    db w1 = db w /\ fs w1 = <[path_join dir (hex_encode id +:+ ".bbkr") := stash]> (fs w) /\
    run (bb_file_put (client_at k domain) name sent
           (MkFilePut mime (without_rotation flags) overwrite None [] false None true (Some (b64_encode kc)) copy)) w1 =
      (Val (Ok r), w2) /\
    exists idx w3 w4, run (resident_index_load (dk_env k)) w2 = (Val idx, w3) /\
      db w4 = db w3 /\
      fs w4 = <[path_join dir "index.json" :=
                as_bytes (json_pretty (index_to_json (<[resident_key domain name := hex_encode id +:+ ".bbkr"]> idx)))]> (fs w3) /\
      db w' = db w4 /\ forall p, (shred = true -> p <> path) -> fs w' !! p = fs w4 !! p.
Proof.
  intros Hd H. unfold put_resident in H. apply run_try_liftR in H as (key & Hkey & H).
  apply run_try_Ok in H as ([[stash kf_s] label] & w1 & Hs & H). destruct (resident_half _ _ _ _ _ _ _ _ Hs) as [kc ->].
  destruct (touched_nothing _ _ _ _ (touches_resident_seal _ _ _ _) Hs) as [Hdb1 Hfs1].
  apply run_bind_Val in H as (id & w2 & Hid & H). destruct (touched_nothing _ _ _ _ (touches_draw _ 16) Hid) as [Hdb2 Hfs2].
  unfold stash_path in H. rewrite Hd, bind_Ok in H. apply run_try_liftR in H as (sf & Hsf & H). injection Hsf as <-.
  apply run_try_liftR in H as (d & Hd' & H). injection Hd' as <-. apply run_try_Ok in H as (x & w3 & Hc & H).
  apply run_map_err_Ok in Hc. destruct (touched_nothing _ _ _ _ (touches_fs_create_dir_all _ _) Hc) as [Hdb3 Hfs3].
  apply run_try_Ok in H as (y & w4 & Hw & H). apply run_map_err_Ok, written in Hw as [Hdb4 Hfs4].
  apply run_try_Ok in H as (sent & w5 & Hsent & H).
  assert (w5 = w4) as ->.
  { destruct copy; [|by injection Hsent]. destruct (resident_parse stash) as [[h ct]|e]; [|done]. by injection Hsent. }
  apply run_bind_Val in H as (r & w6 & Hput & H). destruct r as [r|e].
  2: { apply run_bind_Val in H as (z & w7 & _ & H). by rewrite run_ret in H. }
  apply run_bind_Val in H as (idx & w7 & Hl & H). apply run_try_Ok in H as (z & w8 & Hsv & H).
  apply (index_save_Ok _ _ _ _ _ _ Hd) in Hsv as [Hdb8 Hfs8]. apply run_bind_Val in H as (z' & w9 & Hsh & H).
  rewrite run_ret in H. injection H as _ <-.
  exists key, stash, kc, label, w, w1, id, sent, w4, r, w6. split; [exact Hkey|]. split; [exact Hs|].
  split; [congruence|]. split; [by rewrite Hfs4, Hfs3, Hfs2, Hfs1|]. split; [exact Hput|].
  exists idx, w7, w8. split; [exact Hl|]. split; [exact Hdb8|]. split; [exact Hfs8|].
  assert (Ht : touches (fun p => p = path) (if shred then ignore (secure_delete path) else mret tt)).
  { destruct shred; [|done]. by apply touches_ignore, touches_secure_delete. }
  split.
  - pose proof (touches_run_rest _ _ w8 Ht) as (Hdb & _ & _). by rewrite Hsh in Hdb.
  - intros p Hp. destruct shred; [|by injection Hsh as _ <-]. pose proof (touches_run _ _ w8 p Ht (Hp eq_refl)) as Hfs.
    by rewrite Hsh in Hfs.
Qed.

Lemma stash_name_ok (id : bytes) :
  is_str (hex_encode id +:+ ".bbkr") /\ starts_with "/" (hex_encode id +:+ ".bbkr") = false /\ hex_encode id +:+ ".bbkr" <> "index.json".
Proof.
  pose proof (hex_text id) as H. apply andb_true_iff in H as [_ H].
  assert (Ha : all_chars is_ascii (hex_encode id) = true).
  { eapply all_chars_impl; [|exact H]. intros a. destruct a as [[] [] [] [] [] [] [] []]; done. }
  split; [apply ascii_is_str; by rewrite all_chars_app, Ha|].
  destruct (hex_encode id) as [|a s]; [done|]. cbn [all_chars] in H. apply andb_true_iff in H as [H _].
  rewrite string_app_cons. cbn [starts_with]. destruct a as [[] [] [] [] [] [] [] []]; done.
Qed.

(** The local directory: apart from the server's blobs, its index holds text. *)
Record local_dir (dir : string) (w : World) : Prop := {
  ld_apart : forall c, ~ inside dir (blob_path c);
  ld_index : forall b idx, fs w !! path_join dir "index.json" = Some b -> json_from_slice b ≫= index_from_json = Some idx -> texts idx;
}.

(** A resident [put] that succeeded: the stash and its index entry are on this
    machine, half of the key is on the server. *)
Lemma resident_put_kept k args domain dom path name0 name mime flags sigs overwrite ext copy shred sp dir w w1 out w' body :
  connects k args domain w w1 -> fs w1 !! path = Some body -> default (default "" (file_name path)) name0 = name ->
  resolve_ext_spec (dk_env k) ext true = Ok (Some sp) -> is_resident (Some sp) = true ->
  putting name mime flags -> name_free domain dom name (db w1) ->
  resident_dir (dk_env k) = Ok dir -> local_dir dir w1 -> (shred = true -> ~ inside dir path) ->
  is_str (resident_key domain name) ->
  run (file_command k (FilePut path name0 mime flags None sigs overwrite ext copy shred) args) w = (Val (Ok out), w') ->
  exists key stash kc label wa wb p x sent d t, ext_key_for_spec (dk_env k) sp (dk_session k) (ef_passphrase ext) = Ok key /\
    run (resident_seal key body name) wa = (Val (Ok (stash, b64_encode kc, label)), wb) /\
    stashed dir domain name w' stash /\
    pages (db w') = pages (db w1) ++ [p] /\ pages d = pages (db w') /\
    uploaded state d t dom name sent (mime_of name mime) (without_rotation flags) x p /\
    sf_kind x = 2 /\ exists wrapped kek, sf_component x = Some wrapped /\
      Crypto.handle (file_dek_kek (app_keys state)) = Ok kek /\ decrypt_aes_gcm wrapped kek = Ok kc.
Proof.
  intros Hc Hfile Hname Hspec Hres Hput Hfree Hdir [Hapart Hidx] Hshred Hkeystr H.
  apply (run_put_checked k args domain) with (w1 := w1) (spec := Some sp) (name := name) (body := body) in H
    as (w2 & Hdb2 & Hfs2 & Hal & H); [|done..].
  assert (sigs = []) as ->. { unfold put_allowed in Hal. destruct (_ && _); [done|]. destruct (_ && _); [done|]. by destruct sigs. }
  assert (H' : run (put_resident (dk_env k) (dk_session k) (client_at k domain) sp (ef_passphrase ext) path name body mime flags None []
    overwrite copy shred) w2 = (Val (Ok out), w')) by (by destruct sp as [? []]). clear H.
  apply (put_resident_sent k domain _ _ _ _ _ _ _ _ _ _ _ _ _ _ Hdir) in H' as
    (key & stash & kc & label & wa & wb & id & sent & w3 & r & w4 & Hkey & Hseal & Hdb3 & Hfs3 & Hbb & idx & w5 & w6 & Hl & Hdb6 & Hfs6 & Hdb7 & Hfs7).
  rewrite <- Hdb2, <- Hdb3 in Hfree.
  assert (Hput' : putting name mime (without_rotation flags)) by (by destruct Hput; constructor).
  edestruct (file_put_uploaded k args domain name mime (without_rotation flags)) as (p & x & wc & wd & cid & Hx & Hpages & Up & Hfs4);
    [exact Hc|exact Hput'|exact Hfree| | | | | |exact Hbb|]; [by eapply putting_fits|done..|].
  apply (sealed_resident state) with (kc := kc) in Hx as [Hkind Hcomp]; [|done..].
  destruct (stash_name_ok id) as (Hids & Hidr & Hidn).
  assert (Hbi : inside dir (path_join dir "index.json")) by by exists "index.json".
  assert (Hbs : inside dir (path_join dir (hex_encode id +:+ ".bbkr"))) by by eexists.
  assert (Hstart : fs w4 !! path_join dir "index.json" = fs w1 !! path_join dir "index.json").
  { rewrite Hfs4, lookup_insert_ne by (intros Hp; apply (Hapart cid); by rewrite Hp).
    rewrite Hfs3, lookup_insert_ne, Hfs2; [done|]. intros Hp. by apply path_join_inj in Hp. }
  apply (index_load_texts _ dir) in Hl as (Htx & Hdb5 & Hfs5); [|done|intros b m Hb; rewrite Hstart in Hb; by apply Hidx].
  assert (Hpg : pages (db w') = pages (db w4)) by (rewrite Hdb7, Hdb6, Hdb5; done).
  exists key, stash, kc, label, wa, wb, p, x, sent, (db w4), (fs w4). split; [exact Hkey|]. split; [exact Hseal|]. split.
  { exists (<[resident_key domain name := hex_encode id +:+ ".bbkr"]> idx), (hex_encode id +:+ ".bbkr"). split_and!.
    - intros k' v' Hk'. apply lookup_insert_Some in Hk' as [[<- <-]|[_ Hk']]; [done|by apply Htx in Hk'].
    - apply lookup_insert_eq.
    - exact Hidr.
    - rewrite Hfs7 by (intros Hs Hp; apply (Hshred Hs); by rewrite <- Hp). rewrite Hfs6. apply lookup_insert_eq.
    - rewrite Hfs7 by (intros Hs Hp; apply (Hshred Hs); by rewrite <- Hp).
      rewrite Hfs6, lookup_insert_ne by (intros Hp; by apply path_join_inj in Hp). rewrite Hfs5, Hfs4.
      rewrite lookup_insert_ne by (intros Hp; apply (Hapart cid); by rewrite Hp).
      rewrite Hfs3. apply lookup_insert_eq. }
  split; [by rewrite Hpg, Hpages, Hdb3, Hdb2|]. split; [done|]. split; [exact Up|]. split; [exact Hkind|exact Hcomp].
Qed.

Lemma run_open_resident k domain name kc explicit idx id dir stash h ct w :
  resident_dir (dk_env k) = Ok dir -> faults w = [] -> texts idx -> idx !! resident_key domain name = Some id ->
  fs w !! path_join dir "index.json" = Some (as_bytes (json_pretty (index_to_json idx))) ->
  fs w !! path_join dir id = Some stash -> resident_parse stash = Ok (h, ct) ->
  run (open_download (dk_env k) (dk_session k) (client_at k domain) name (MkDownload [] None None (Some (b64_encode kc)) true) explicit) w =
  (Val (resident_open (dk_env k) h ct (b64_encode kc) (dk_session k) explicit), w).
Proof.
  intros Hd Hf Ht Hid Hi Hs Hp. unfold open_download. cbn [dl_resident dl_key_component ok_or].
  eapply run_try; [reflexivity|]. eapply run_then; [exact (index_load_written _ _ _ _ Hd Hf Ht Hi)|].
  change (bb_domain (client_at k domain)) with domain. rewrite Hid. eapply run_try; [reflexivity|].
  eapply (run_try _ _ _ (h, ct) w); [|reflexivity]. unfold read_stash, stash_path. rewrite Hd, bind_Ok.
  eapply run_try; [reflexivity|]. eapply run_try.
  - rewrite run_map_err, (fs_read_calm _ _ stash) by done. reflexivity.
  - by rewrite Hp.
Qed.

(** C17. A resident file comes back from its two halves. If [put] of a resident
    file under a free name succeeds, then [get] from the same machine, in any
    later state that keeps the row and the local directory, by whoever the
    server admits and who has the wrapping key, writes exactly the file that was
    put; with [--shred] the file itself need not exist any more. *)
Theorem resident_put_then_get (here there : Desk) args args' domain dom path name0 name mime flags sigs overwrite ext copy shred sp
    dir w w1 out w' v v1 body rid t explicit :
  (* the put *)
  connects here args domain w w1 -> fs w1 !! path = Some body -> default (default "" (file_name path)) name0 = name ->
  resolve_ext_spec (dk_env here) ext true = Ok (Some sp) -> is_resident (Some sp) = true ->
  putting name mime flags -> name_free domain dom name (db w1) ->
  resident_dir (dk_env here) = Ok dir -> local_dir dir w1 -> (shred = true -> ~ inside dir path) ->
  is_str (resident_key domain name) ->
  run (file_command here (FilePut path name0 mime flags None sigs overwrite ext copy shred) args) w = (Val (Ok out), w') ->
  (forall p b, inside dir p -> fs w' !! p = Some b -> Z.of_nat (length b) - Z.of_nat (length body) < 2 ^ 32) ->
  (* the get *)
  connects there args' domain v v1 -> resident_dir (dk_env there) = Ok dir -> pages (db v1) = pages (db w') ->
  (forall p, inside dir p -> fs v1 !! p = fs w' !! p) ->
  admitted there domain dom name v1 -> all_headers rid ->
  (forall key, ext_key_for_spec (dk_env here) sp (dk_session here) (ef_passphrase ext) = Ok key ->
     has_key (dk_env there) (dk_session there) explicit key) ->
  (run (file_command there (FileGet name (Some "-") rid false t explicit) args') v).1 = Val (Ok (MkOut body 0)).
Proof.
  intros Hc Hfile Hname Hspec Hres Hput Hfree Hdir Hld Hshred Hkeystr H Hsize Hc' Hdir' Hpg Hkept
    (Hf & c & Hcl & nm & dec & Hgate & Hacl & Hal) Hrid Hhas.
  destruct (resident_put_kept here args domain dom path name0 name mime flags sigs overwrite ext copy shred sp dir w w1 out w' body
    Hc Hfile Hname Hspec Hres Hput Hfree Hdir Hld Hshred Hkeystr H) as
    (key & stash & kc & label & wa & wb & p & x & sent & d & s & Hkey & Hseal & (idx & id & Htx & Hid & Hrel & Hi & Hst) & Hpages & Hd & Up &
     Hkind & wrapped & kek & Hcomp & Hkek & Hkc).
  assert (Hmax : forall m, max_reads (without_rotation flags) = Some m -> 1 <= m) by (intros m Hm; apply (pt_reads _ _ _ Hput m Hm)).
  destruct (resident_stash_opens key body name wa stash (b64_encode kc) label wb (ext_key_length _ _ _ _ _ Hkey)
    (bool_decide_eq_true_2 _ (pt_name _ _ _ Hput)) Hseal (Hsize _ stash (ex_intro _ id (conj Hrel eq_refl)) Hst)) as (h & ct & Hparse & _ & Hopen).
  destruct (download_resident_run state name (own_domain domain) (MkHeaders rid (dk_mfa there)) c v1 dom nm p
    (Z.of_nat (length sent)) (mime_of name mime) wrapped kek kc dec) as (v2 & [Hfv Hsp] & Hdl); try done.
  - apply (uploaded_found state (db w1) d (db v1) _ _ _ _ _ _ _ _ Up (proj2 Hfree)). by rewrite Hpg.
  - rewrite Hpg, <- Hd. apply (up_row _ _ _ _ _ _ _ _ _ _ Up).
  - apply (up_size _ _ _ _ _ _ _ _ _ _ Up).
  - exact (uploaded_open _ _ _ _ _ _ _ _ _ _ Up (pt_mfa _ _ _ Hput) Hmax).
  - apply (up_mime _ _ _ _ _ _ _ _ _ _ Up).
  - by rewrite (up_kind _ _ _ _ _ _ _ _ _ _ Up).
  - by rewrite (up_component _ _ _ _ _ _ _ _ _ _ Up).
  - rewrite (file_get_run there args' domain name rid t explicit v v1 _ v2 c Hc' (pt_segment _ _ _ Hput) Hrid Hcl Hdl eq_refl).
    rewrite downloaded_resident.
    assert (Hloc : forall a, starts_with "/" a = false -> fs v2 !! path_join dir a = fs w' !! path_join dir a).
    { intros a Ha. assert (Hb : inside dir (path_join dir a)) by by exists a.
      rewrite Hsp by (intros cid Hp; apply (ld_apart _ _ Hld cid); by rewrite <- Hp). by apply Hkept. }
    rewrite (surjective_pairing (run (try_bind _ _) _)). cbn [fst]. unfold try_bind at 1. rewrite run_bind.
    rewrite (run_open_resident there domain name kc explicit idx id dir stash h ct v2 Hdir' (Hfv Hf) Htx Hid)
      by (done || by rewrite Hloc by done).
    by rewrite (Hopen _ _ explicit (Hhas key Hkey)).
Qed.
End commands.

(** ** Two machines and a concrete server *)

#[local] Instance no_urls : UrlLib := {|
  Url := unit; url_parse := fun _ => None; host_str := fun _ => None; url_port := fun _ => None; set_host := fun _ _ => None;
  set_port := fun _ _ => None; url_as_str := fun _ => ""; ip_is_loopback := fun _ => None;
|}.
#[local] Existing Instance toy_web.

#[local] Abbreviation nothing := (err 404 "not_found" "").
#[local] Abbreviation plain_mime := (fun _ : string => @None string).

(** [who]'s machine, with the profile of that name. *)
Definition toy_desk_of (who token : string) (peer : PeerCertInfo) : Desk :=
  MkDesk no_urls (toy_home None)
    (fun _ _ _ => Ok (Routes.to_server toy_state 0 "1.0" plain_mime nothing nothing nothing (Some peer))) who ""
    (MkSession toy_origin (Some token) (Some "c") (Some "k") (Some "a") (Some (b64_encode (be_bytes 32 5))))
    (Some peer) toy_origin token None.
Definition alice_desk : Desk := toy_desk_of "alice" "tok-a" (MkPeer "alice" "fp-a").
Definition bob_desk : Desk := toy_desk_of "bob" "tok-b" (MkPeer "bob" "fp-b").

Definition desk_world : World := Eval vm_compute in
  (run (_ ← save_encrypted (toy_home None) (dk_session alice_desk) "alice" "one";
        _ ← save_encrypted (toy_home None) (dk_session bob_desk) "bob" "one";
        fs_write "/tmp/db.txt" (as_bytes "the file")) (set_fs ∅ toy_world)).2.

Definition toy_flags : ResourceFlags := MkFlags false false (Some 3) false false false.
#[local] Abbreviation toy_file_put ext shred :=
  (FilePut "/tmp/db.txt" None (Some "text/plain") toy_flags None [] false ext false shred).
#[local] Abbreviation toy_file_get := (FileGet "db.txt" (Some "-") None false 0 (Some "pw")).

Definition sealed_flags : ExtFlags := MkExtFlags false false false (Some "pw") false.
Definition resident_flags : ExtFlags := MkExtFlags false false true (Some "pw") false.
Definition sealed_put : outcome (result AppError Output) * World :=
  Eval vm_compute in run (file_command alice_desk (toy_file_put sealed_flags false) (None, None)) desk_world.
Definition resident_put : outcome (result AppError Output) * World :=
  Eval vm_compute in run (file_command alice_desk (toy_file_put resident_flags true) (None, None)) desk_world.

#[local] Abbreviation toy_connects := (connects toy_state 0 "1.0" plain_mime nothing nothing nothing).

Lemma toy_connected k w : k = alice_desk \/ k = bob_desk ->
  run (load_named (dk_env k) (dk_profile k)) w = (Val (Ok (dk_session k)), w) -> toy_connects k (None, None) "default" w w.
Proof.
  intros Hk Hl. split; [exists "vault.example:8443"; by destruct Hk as [-> | ->]|].
  split; [by destruct Hk as [-> | ->]|]. split; [by destruct Hk as [-> | ->]|].
  eapply run_try; [by rewrite run_map_err, Hl|]. by destruct Hk as [-> | ->].
Qed.

Lemma toy_putting : putting plain_mime "db.txt" (Some "text/plain") toy_flags.
Proof.
  constructor; try reflexivity; [by intros m [= <-]..|]. intros m [= <-]. by vm_compute.
Qed.

Lemma toy_admitted w : w = sealed_put.2 \/ w = resident_put.2 -> admitted toy_state bob_desk "default" "d-default" "db.txt" w.
Proof.
  intros [-> | ->]; (split; [reflexivity|]; exists bob; split; [vm_compute; reflexivity|];
    exists "default", (Allowed "acl-3"); split; [|split]; vm_compute; reflexivity).
Qed.


Lemma file_put_then_get_witness :
  (run (file_command bob_desk toy_file_get (None, None)) sealed_put.2).1 = Val (Ok (MkOut (as_bytes "the file") 0)).
Proof.
  assert (Hout : exists out, run (file_command alice_desk (toy_file_put sealed_flags false) (None, None)) desk_world =
    (Val (Ok out), sealed_put.2)) by (eexists; vm_compute; reflexivity).
  destruct Hout as [out Hout].
  refine (file_put_then_get toy_state 0 "1.0" plain_mime nothing nothing nothing alice_desk bob_desk (None, None) (None, None)
    "default" "d-default" "/tmp/db.txt" None "db.txt" (Some "text/plain") toy_flags [] false sealed_flags false false
    (Some (MkSpec Passphrase InServer)) desk_world desk_world out sealed_put.2 sealed_put.2 sealed_put.2 (as_bytes "the file") None 0 (Some "pw")
    (toy_connected alice_desk desk_world (or_introl eq_refl) _) _ _ _ _ toy_putting _ Hout
    (toy_connected bob_desk sealed_put.2 (or_intror eq_refl) _) _ (toy_admitted _ (or_introl eq_refl)) _ _).
  1-5, 7: vm_compute; reflexivity.
  - split; vm_compute; reflexivity.
  - split; [reflexivity|split; [reflexivity|intros cid; reflexivity]].
  - discriminate.
  - intros sp key [= <-] [= <-]. reflexivity.
Defined.

Lemma toy_inside p : inside "/home/u/.bbk/resident" p -> starts_with "/home/u" p = true.
Proof. intros (a & Ha & ->). unfold path_join. by rewrite Ha. Qed.

Lemma all_small (t : gmap string bytes) p b :
  forallb (fun kv => Z.of_nat (length (snd kv)) <? 2 ^ 20) (map_to_list t) = true -> t !! p = Some b ->
  Z.of_nat (length b) < 2 ^ 20.
Proof.
  rewrite forallb_forall. intros H Hb. specialize (H (p, b)). cbn [snd] in H. apply Z.ltb_lt, H, list_elem_of_In.
  by apply elem_of_map_to_list.
Qed.

Lemma resident_put_then_get_witness :
  fs resident_put.2 !! "/tmp/db.txt" = None /\
  (run (file_command bob_desk toy_file_get (None, None)) resident_put.2).1 = Val (Ok (MkOut (as_bytes "the file") 0)).
Proof.
  split; [vm_compute; reflexivity|].
  assert (Hout : exists out, run (file_command alice_desk (toy_file_put resident_flags true) (None, None)) desk_world =
    (Val (Ok out), resident_put.2)) by (eexists; vm_compute; reflexivity).
  destruct Hout as [out Hout].
  assert (Hld : local_dir "/home/u/.bbk/resident" desk_world).
  { constructor; [by intros c Hb%toy_inside|]. intros b idx Hb. vm_compute in Hb. discriminate. }
  refine (resident_put_then_get toy_state 0 "1.0" plain_mime nothing nothing nothing alice_desk bob_desk (None, None) (None, None)
    "default" "d-default" "/tmp/db.txt" None "db.txt" (Some "text/plain") toy_flags [] false resident_flags false true
    (MkSpec Passphrase Resident) "/home/u/.bbk/resident" desk_world desk_world out resident_put.2 resident_put.2 resident_put.2
    (as_bytes "the file") None 0 (Some "pw")
    (toy_connected alice_desk desk_world (or_introl eq_refl) _) _ _ _ _ toy_putting _ _ Hld _ _ Hout _
    (toy_connected bob_desk resident_put.2 (or_intror eq_refl) _) _ _ _ (toy_admitted _ (or_intror eq_refl)) _ _).
  1-5, 7, 9, 11-13: vm_compute; reflexivity.
  - split; vm_compute; reflexivity.
  - by intros _ Hb%toy_inside.
  - intros p b _ Hb%all_small; [lia|vm_compute; reflexivity].
  - intros p _. reflexivity.
  - discriminate.
  - intros key [= <-]. reflexivity.
Defined.
