(* ===== verification/Identity.v ===== *)
(** The commands of [src/src/main.rs] about who one is: [whoami], [mfa] and
    [profile]. Output is what goes to standard output. *)
From S2P Require Import Prelude Text Unicode Crypto Store Effects ServerBase CryptoOps CredStore Tunnel Session Presentation Client CryptoCommands Commands.

Inductive MfaCmd := Enroll | Verify (code : string).

Inductive ProfileCmd :=
| ProfileLs
| ProfileUse (name : string)
| ProfileShow (name : option string)
| ProfileRm (name : string) (yes : bool).

(** The certificate's fingerprint as text, in braille and as random art; what
    does not parse is passed over. *)
Definition fingerprint_art `{Primitives} (cert_pem : option string) (name : string) : list string :=
  match cert_pem with
  | None => []
  | Some pem =>
      match cert_fingerprint pem with
      | Err _ => []
      | Ok fp_hex =>
          match hex_decode fp_hex with
          | None => []
          | Some fp => ["cert fingerprint (SHA3-256): " +:+ prefix 32 fp_hex; "  braille: " +:+ braille fp; randomart fp name]
          end
      end
  end.

Definition mark_active (active n : string) : string := (if String.eqb n active then "*" else " ") +:+ " " +:+ n.

Definition profile_listing (active : string) (names : list string) : Output :=
  match names with
  | [] => println "(no profiles — run `blackbook login`)"
  | _ => printed (map (mark_active active) names)
  end.

Section identity.
Context {P : Primitives} {O : OpsLib} {U : UrlLib} (env : Environment).
Context (http : string -> option string -> option string -> result ClientError (Request -> M (result ClientError Response))).
Context (profile stdin_line : string).

Definition cmd_whoami : M (result AppError Output) :=
  '(session, bb) ←? open_client env http profile None None;
  me ←? asked (bb_whoami bb);
  mret (Ok (printed
    ([wv_name me +:+ " (" +:+ wv_role me +:+ ") — id " +:+ wv_id me +:+ " — auth: " +:+ wv_auth_method me;
      "server: " +:+ se_server session]
     ++ match wv_user_domain me with Some ud => ["user domain: " +:+ ud] | None => [] end
     ++ fingerprint_art (se_cert_pem session) (wv_name me)))).

Definition cmd_mfa (cmd : MfaCmd) : M (result AppError Output) :=
  '(_, bb) ←? open_client env http profile None None;
  match cmd with
  | Enroll =>
      resp ←? asked (bb_mfa_enroll bb);
      mret (Ok (printed
        ["Provisioning URI:" +:+ nl +:+ "  " +:+ me_provisioning_uri resp +:+ nl;
         "Or enter this base32 secret in your authenticator:" +:+ nl +:+ "  " +:+ me_secret_base32 resp +:+ nl;
         me_instructions resp]))
  | Verify code => _ ←? asked (bb_mfa_verify bb code); say "MFA verified."
  end.

Definition cmd_profile (cmd : ProfileCmd) : M (result AppError Output) :=
  match cmd with
  | ProfileLs => names ←? asked (list_profiles env); mret (Ok (profile_listing profile names))
  | ProfileUse name => _ ←? cmd_profile_use env name; say ("active profile is now '" +:+ name +:+ "'")
  | ProfileShow name =>
      let profile := default profile name in
      session ←? map_err_m (fun _ => AppConfig ("no such profile '" +:+ profile +:+ "'")) (load_named env profile);
      bb ←? liftR (map_err app_of_client (from_session env http session));
      r ← bb_whoami bb;
      say ("profile '" +:+ profile +:+ "': "
           +:+ match r with
               | Ok me =>
                   wv_name me +:+ " (" +:+ wv_role me +:+ ") @ " +:+ se_server session +:+ " — auth: " +:+ wv_auth_method me
               | Err e => se_server session +:+ " (whoami failed: " +:+ client_msg e +:+ ")"
               end)
  | ProfileRm name yes =>
      if negb (confirmed stdin_line yes) then say "aborted"
      else
        there ←? asked (clear_named env name);
        say ((if there : bool then "deleted profile '" else "no such profile '") +:+ name +:+ "'")
  end.
End identity.
