(* ===== verification/WebConsole.v ===== *)
(** The web console ([src/src/webui.rs]): a page whose requests run this program
    as a child, with the words that were typed. What a child does, and the
    command tree that clap derives, are parameters. *)
From S2P Require Import Prelude Text Unicode Crypto Store Effects ServerBase CryptoOps CredStore Tunnel.

(** ** Splitting a line *)

(** [char::is_whitespace] *)
Definition is_whitespace (c : Z) : bool :=
  ((9 <=? c) && (c <=? 13)) || (c =? 32) || (c =? 133) || (c =? 160) || (c =? 5760) || ((8192 <=? c) && (c <=? 8202))
  || (c =? 8232) || (c =? 8233) || (c =? 8239) || (c =? 8287) || (c =? 12288).

Definition SINGLE : Z := 39.
Definition DOUBLE : Z := 34.
Definition BACKSLASH : Z := 92.

(** The loop: the word so far, the open quotes, whether a word has begun. *)
Fixpoint scan (cs cur : list Z) (in_single in_double started : bool) (out : list string) : result string (list string) :=
  match cs with
  | [] =>
      if in_single || in_double then Err "unterminated quote"
      else Ok (if started then out ++ [str_of_chars cur] else out)
  | c :: cs' =>
      if (c =? SINGLE) && negb in_double then scan cs' cur (negb in_single) in_double true out
      else if (c =? DOUBLE) && negb in_single then scan cs' cur in_single (negb in_double) true out
      else if (c =? BACKSLASH) && negb in_single then
        match cs' with
        | n :: cs'' => scan cs'' (cur ++ [n]) in_single in_double true out
        | [] => scan cs' cur in_single in_double started out
        end
      else if is_whitespace c && negb in_single && negb in_double then
        if started then scan cs' [] in_single in_double false (out ++ [str_of_chars cur])
        else scan cs' cur in_single in_double started out
      else scan cs' (cur ++ [c]) in_single in_double true out
  end.

Definition tokenize (line : string) : result string (list string) := scan (chars line) [] false false false [].

(** ** What the console will not start *)

Definition subcommand (argv : list string) : option string := List.find (fun a => negb (starts_with "-" a)) argv.

Definition is_blocked (argv : list string) : option string :=
  match subcommand argv with
  | Some "server" => Some "`server` runs the API daemon — start it separately, not from the web console."
  | Some "web" => Some "`web` would start another console (no nesting)."
  | _ => None
  end.

(** ** The command catalog *)

Inductive CliCommand := MkCli (name : string) (about : option string) (hidden : bool) (subs : list CliCommand).
Definition cli_name (c : CliCommand) : string := let '(MkCli n _ _ _) := c in n.
Definition cli_subs (c : CliCommand) : list CliCommand := let '(MkCli _ _ _ l) := c in l.
Definition shown (c : CliCommand) : bool := let '(MkCli n _ h _) := c in negb h && negb (String.eqb n "help").
Definition about_line (c : CliCommand) : string :=
  let '(MkCli _ a _ _) := c in match a with Some s => trim (default "" (head (lines s))) | None => "" end.

Fixpoint walk_commands (cmd : CliCommand) (prefix : list string) : list Json :=
  let '(MkCli _ _ _ subs) := cmd in
  (fix walk l :=
     match l with
     | [] => []
     | sub :: l' =>
         (if shown sub then
            let path := prefix ++ [cli_name sub] in
            let has_subs := existsb shown (cli_subs sub) in
            JObj [("about", JStr (about_line sub)); ("group", JStr (default "" (head prefix)));
                  ("leaf", JBool (negb has_subs)); ("path", JStr (String.concat " " path))]
            :: (if has_subs then walk_commands sub path else [])
          else [])
         ++ walk l'
     end) subs.

(** ** Reading the tables of the command line *)

(** [s.split(sub).next()] *)
Fixpoint before (sub s : string) : string :=
  if starts_with sub s then "" else match s with "" => "" | String a s' => String a (before sub s') end.

(** The saved profiles, and the active one, the last that is marked. *)
Fixpoint read_profiles (ls : list string) : list string * option string :=
  match ls with
  | [] => ([], None)
  | raw :: ls' =>
      let '(names, active) := read_profiles ls' in
      let line := trim raw in
      if String.eqb line "" || starts_with "(" line then (names, active)
      else match strip_prefix "* " line with
           | Some rest => (trim rest :: names, match active with Some a => Some a | None => Some (trim rest) end)
           | None => (line :: names, active)
           end
  end.

Definition read_domains (out : string) : list string :=
  List.filter (fun n => negb (String.eqb n ""))
    (map (fun l => trim (before "  " l))
       (List.filter (fun l => negb (String.eqb (trim l) "") && negb (starts_with "(" (trim l))) (drop 2 (lines out)))).

(** ** Children *)

Record Finished := MkFinished { fin_success : bool; fin_code : option Z; fin_out : bytes; fin_err : bytes }.

Record UiCtx := MkUiCtx { ui_profile : option string; ui_domain : option string; ui_passphrase : option string }.
Record RevealReq := MkReveal {
  rv_name : string; rv_profile : option string; rv_domain : option string; rv_passphrase : option string;
  rv_external_passphrase : option string; rv_mfa : option string; rv_request_id : option string;
}.
Record RunRequest := MkRunRequest { rr_line : string; rr_profile_passphrase : option string; rr_external_passphrase : option string }.

(** Passphrases go through the environment; an empty one counts as none. *)
Definition child_env (profile_pass external_pass : option string) : list (string * string) :=
  ("BLACKBOOK_NO_PROMPT", "1")
  :: match nonempty profile_pass with Some p => [("BLACKBOOK_PASSPHRASE", p)] | None => [] end
  ++ match nonempty external_pass with Some p => [("BLACKBOOK_EXTERNAL_PASSPHRASE", p)] | None => [] end.

Definition flag (name : string) (v : option string) : list string := match v with Some v => [name; v] | None => [] end.

Definition run_response (ok : bool) (code : Z) (stdout stderr : string) : Response :=
  json_response 200 (JObj [("ok", JBool ok); ("code", JNum code); ("stdout", JStr stdout); ("stderr", JStr stderr)]).

Section console.
Context {P : Primitives} {O : OpsLib}.
(** Where this program is, and what a child of it does, with the arguments and
    the variables it is given and no standard input. *)
Context (current_exe : result string string).
Context (output : string -> list string -> list (string * string) -> M (result string Finished)).
Context (root : CliCommand).

Definition run_bbk (args : list string) (profile domain profile_pass external_pass : option string) : M (bool * string * string) :=
  match current_exe with
  | Err e => mret (false, "", "cannot locate binary: " +:+ e)
  | Ok exe =>
      r ← output exe (flag "-P" profile ++ flag "-D" domain ++ args) (child_env profile_pass external_pass);
      mret (match r with
            | Ok o => (fin_success o, from_utf8_lossy (fin_out o), from_utf8_lossy (fin_err o))
            | Err e => (false, "", e)
            end)
  end.

Definition ui_profiles : M Response :=
  '(_, out, _) ← run_bbk ["profile"; "ls"] None None None None;
  let '(names, active) := read_profiles (lines out) in
  mret (json_response 200 (JObj [("active", match active with Some a => JStr a | None => JNull end); ("profiles", JArr (map JStr names))])).

Definition ui_domains (ctx : UiCtx) : M Response :=
  '(ok, out, err) ← run_bbk ["domain"; "ls"] (ui_profile ctx) None (ui_passphrase ctx) None;
  mret (json_response 200
    (if negb ok then JObj [("domains", JArr []); ("error", JStr err); ("ok", JBool false)]
     else JObj [("domains", JArr (map JStr (read_domains out))); ("ok", JBool true)])).

(** A listing as JSON, or an empty one if it does not parse. *)
Definition ui_listing (args : list string) (key : string) (ctx : UiCtx) : M Response :=
  '(ok, out, err) ← run_bbk args (ui_profile ctx) (ui_domain ctx) (ui_passphrase ctx) None;
  mret (json_response 200
    (if negb ok then JObj [("error", JStr err); ("ok", JBool false)]
     else JObj [("data", default (JObj [("count", JNum 0); (key, JArr [])]) (json_from_slice (as_bytes out))); ("ok", JBool true)])).
Definition ui_secrets : UiCtx -> M Response := ui_listing ["ls"; "--json"] "resources".
Definition ui_files : UiCtx -> M Response := ui_listing ["file"; "ls"; "--json"] "files".

Definition ui_commands : Response := json_response 200 (JObj [("commands", JArr (walk_commands root []))]).

Definition failed_reveal (e : string) : Response := json_response 200 (JObj [("error", JStr e); ("ok", JBool false)]).

Definition ui_reveal (req : RevealReq) : M Response :=
  match current_exe with
  | Err e => mret (failed_reveal e)
  | Ok exe =>
      r ← output exe (flag "-P" (rv_profile req) ++ flag "-D" (rv_domain req) ++ flag "-m" (rv_mfa req)
                      ++ ["get"; rv_name req] ++ flag "-r" (rv_request_id req))
            (child_env (rv_passphrase req) (rv_external_passphrase req));
      mret (match r with
            | Ok o =>
                json_response 200
                  (JObj [("ok", JBool (fin_success o)); ("stderr", JStr (from_utf8_lossy (fin_err o)));
                         ("value", JStr (trim_end_char "010"%char (from_utf8_lossy (fin_out o))))])
            | Err e => failed_reveal e
            end)
  end.

Definition run_line (req : RunRequest) : M Response :=
  match tokenize (rr_line req) with
  | Err e => mret (run_response false (-1) "" ("parse error: " +:+ e))
  | Ok [] => mret (run_response true 0 "" "")
  | Ok argv =>
      match is_blocked argv with
      | Some reason => mret (run_response false (-1) "" reason)
      | None =>
          match current_exe with
          | Err e => mret (run_response false (-1) "" ("cannot locate blackbook binary: " +:+ e))
          | Ok exe =>
              r ← output exe argv (child_env (rr_profile_passphrase req) (rr_external_passphrase req));
              mret (match r with
                    | Ok o => run_response (fin_success o) (default (-1) (fin_code o)) (from_utf8_lossy (fin_out o))
                                (from_utf8_lossy (fin_err o))
                    | Err e => run_response false (-1) "" ("failed to run: " +:+ e)
                    end)
          end
      end
  end.

(** A line that ends in white space starts a new word. *)
Definition complete_line (line : string) : M Response :=
  let typed := match tokenize line with Ok v => v | Err _ => [] end in
  let fresh := match last (chars line) with Some c => is_whitespace c | None => true end in
  let argv := "bbk" :: typed ++ (if fresh then [""] else []) in
  match current_exe with
  | Err _ => mret (json_response 200 (JObj [("candidates", JArr [])]))
  | Ok exe =>
      r ← output exe ("__complete" :: "--" :: argv) [("BLACKBOOK_NO_PROMPT", "1")];
      mret (json_response 200 (JObj [("candidates",
        JArr (match r with
              | Ok o => map JStr (List.filter (fun s => negb (String.eqb s "")) (lines (from_utf8_lossy (fin_out o))))
              | Err _ => []
              end))]))
  end.
End console.
