(* ===== verification/WebConsoleProps.v ===== *)
(** What the web console runs: a quoted line reaches the child word by word, a
    line runs at most this program, and what the console reads from its tables. *)
From S2P Require Import Prelude Text Unicode Crypto ToyPrimitives Store Effects Concurrency ServerBase CryptoOps ToyOps CredStore Tunnel CryptoCommands Session Client Commands Identity WebConsole.

(** ** Quoting *)

(** A word in single quotes; a quote of its own goes between two quoted parts. *)
Definition quoted_char (c : Z) : list Z := if c =? SINGLE then [SINGLE; BACKSLASH; SINGLE; SINGLE] else [c].
Definition quote_word (w : list Z) : list Z := [SINGLE] ++ concat (map quoted_char w) ++ [SINGLE].

Fixpoint quote_line (ws : list (list Z)) : list Z :=
  match ws with
  | [] => []
  | [w] => quote_word w
  | w :: ws' => quote_word w ++ [32] ++ quote_line ws'
  end.

(** Inside single quotes every character but the quote stands for itself. *)
Lemma scan_single c cs cur out : c <> SINGLE -> scan (c :: cs) cur true false true out = scan cs (cur ++ [c]) true false true out.
Proof. intros Hc. cbn [scan negb andb]. rewrite (proj2 (Z.eqb_neq _ _) Hc). by rewrite !andb_false_r. Qed.

Lemma scan_quoted w rest cur out :
  scan (concat (map quoted_char w) ++ rest) cur true false true out = scan rest (cur ++ w) true false true out.
Proof.
  revert cur. induction w as [|c w IH]; intros cur; [by rewrite app_nil_r|]. cbn [map concat]. rewrite <- app_assoc.
  unfold quoted_char at 1. destruct (Z.eqb_spec c SINGLE) as [->|Hc].
  - change (scan (concat (map quoted_char w) ++ rest) (cur ++ [SINGLE]) true false true out =
            scan rest (cur ++ SINGLE :: w) true false true out). rewrite IH. by rewrite <- app_assoc.
  - cbn [app]. rewrite scan_single by done. rewrite IH. by rewrite <- app_assoc.
Qed.

Lemma scan_word w rest out started : scan (quote_word w ++ rest) [] false false started out = scan rest w false false true out.
Proof.
  unfold quote_word. rewrite <- !app_assoc.
  change (scan (concat (map quoted_char w) ++ [SINGLE] ++ rest) [] true false true out = scan rest w false false true out).
  by rewrite scan_quoted.
Qed.

Lemma scan_line ws out : scan (quote_line ws) [] false false false out = Ok (out ++ (str_of_chars <$> ws)).
Proof.
  revert out. induction ws as [|w [|w' ws] IH]; intros out; [by rewrite app_nil_r| |].
  - cbn [quote_line]. rewrite <- (app_nil_r (quote_word w)), scan_word. done.
  - cbn [quote_line]. cbn [quote_line] in IH. rewrite scan_word.
    change (scan (quote_line (w' :: ws)) [] false false false (out ++ [str_of_chars w]) = Ok (out ++ (str_of_chars <$> w :: w' :: ws))).
    cbn [quote_line]. rewrite IH, <- app_assoc. done.
Qed.

Lemma quoted_scalar ws : Forall (fun w => forallb is_scalar w = true) ws -> forallb is_scalar (quote_line ws) = true.
Proof.
  assert (Hw : forall w, forallb is_scalar w = true -> forallb is_scalar (quote_word w) = true).
  { intros w Hw. unfold quote_word. rewrite !forallb_app, andb_true_r. cbn. induction w as [|c w IH]; [done|].
    cbn [forallb] in Hw. apply andb_true_iff in Hw as [Hc Hw]. cbn [map concat]. rewrite forallb_app, IH by done.
    unfold quoted_char. destruct (c =? SINGLE); [done|]. cbn. by rewrite Hc. }
  induction 1 as [|w ws H Hs IH]; [done|]. destruct ws as [|w' ws]; [by apply Hw|].
  cbn [quote_line] in *. rewrite !forallb_app, Hw by done. cbn. exact IH.
Qed.

(** Whatever words are meant, quoting them one by one makes a line that the
    console takes apart into exactly those words. *)
Theorem tokenize_quoted ws : Forall (fun w => forallb is_scalar w = true) ws ->
  tokenize (str_of_chars (quote_line ws)) = Ok (str_of_chars <$> ws).
Proof. intros H. unfold tokenize. rewrite chars_of_chars by by apply quoted_scalar. apply scan_line. Qed.


(** ** Running *)

Section console.
Context {P : Primitives} {O : OpsLib} (current_exe : result string string).
Context (output : string -> list string -> list (string * string) -> M (result string Finished)).

(** A line runs at most one program: this one, with the words of the line as
    its arguments and the passphrases in its environment. A line that does not
    parse, is empty, or names a blocked command runs none. *)
Theorem run_line_spawns req w :
  (exists resp, run (run_line current_exe output req) w = (Val resp, w) /\
     ((exists e, tokenize (rr_line req) = Err e) \/ tokenize (rr_line req) = Ok [] \/
      (exists argv reason, tokenize (rr_line req) = Ok argv /\ is_blocked argv = Some reason) \/ exists e, current_exe = Err e)) \/
  (exists exe argv answer, current_exe = Ok exe /\ tokenize (rr_line req) = Ok argv /\ argv <> [] /\ is_blocked argv = None /\
     run (run_line current_exe output req) w =
     run (r ← output exe argv (child_env (rr_profile_passphrase req) (rr_external_passphrase req)); mret (answer r)) w).
Proof.
  unfold run_line. destruct (tokenize (rr_line req)) as [[|a argv]|e]; [left|..].
  - eexists. split; [reflexivity|]. by right; left.
  - destruct (is_blocked (a :: argv)) as [reason|] eqn:Eb.
    + left. eexists. split; [reflexivity|]. right; right; left. by exists (a :: argv), reason.
    + destruct current_exe as [exe|e].
      * right. exists exe, (a :: argv). eexists. split; [done|]. split; [done|]. split; [done|]. split; [exact Eb|reflexivity].
      * left. eexists. split; [reflexivity|]. right; right; right. by exists e.
  - left. eexists. split; [reflexivity|]. left. by exists e.
Qed.

(** The servers do not start when they come first, but an option's value counts
    as the command: after [-P dev] nothing is blocked. *)
Theorem blocked_by_first_word argv rest : argv = "server" :: rest \/ argv = "web" :: rest -> is_blocked argv <> None.
Proof. by intros [-> | ->]. Qed.

Theorem option_value_unblocks : is_blocked ["server"] <> None /\ is_blocked ["-P"; "dev"; "server"] = None /\
  tokenize "-P dev server" = Ok ["-P"; "dev"; "server"].
Proof. by vm_compute. Qed.
End console.

(** ** Listing profiles *)

Lemma strip_cr_id s : has_char "013"%char s = false -> strip_cr s = s.
Proof.
  induction s as [|a s IH]; [done|]. intros [Ha Hs]%orb_false_iff. cbn [strip_cr].
  destruct s; [by rewrite Ha|]. by rewrite IH.
Qed.

Lemma split_lines l : forallb (fun s => negb (has_char "010"%char s)) l = true ->
  split_on "010"%char (String.concat "" (map (fun s => s +:+ nl) l)) = l ++ [""].
Proof.
  induction l as [|s l IH]; [done|]. cbn [forallb map]. intros [Hs Hl]%andb_true_iff. apply negb_true_iff in Hs.
  assert (Hc : String.concat "" ((s +:+ nl) :: map (fun s => s +:+ nl) l) =
               s +:+ String "010"%char (String.concat "" (map (fun s => s +:+ nl) l))).
  { cbn [String.concat]. destruct (map _ l); [done|]. by rewrite string_app_assoc. }
  rewrite Hc, split_on_app by done. by rewrite IH.
Qed.

Lemma drop_last_line l : drop_last_empty (l ++ [""]) = l.
Proof. induction l as [|s [|t l] IH]; [done..|]. cbn [app drop_last_empty] in *. by f_equal. Qed.

(** The lines that [printed] puts out. *)
Lemma lines_printed l : forallb (fun s => negb (has_char "010"%char s) && negb (has_char "013"%char s)) l = true ->
  lines (String.concat "" (map (fun s => s +:+ nl) l)) = l.
Proof.
  intros H. unfold lines. rewrite split_lines, drop_last_line.
  - induction l as [|s l IH]; [done|]. cbn in *. apply andb_true_iff in H as [[_ H]%andb_true_iff Hl].
    rewrite strip_cr_id by (by apply negb_true_iff). by rewrite IH.
  - apply forallb_forall. intros s Hs. rewrite forallb_forall in H. by apply H, andb_true_iff in Hs as [? _].
Qed.

(** Names a profile can be listed under: visible ASCII, without a bracket in
    front. *)
Definition listable (n : string) : bool := negb (String.eqb n "") && all_chars graphic n && negb (starts_with "(" n).

Lemma listed_lines active names : forallb listable names = true ->
  lines (String.concat "" (map (fun s => s +:+ nl) (map (mark_active active) names))) = map (mark_active active) names.
Proof.
  intros H. apply lines_printed. apply forallb_forall. intros s (n & <- & Hn)%in_map_iff.
  rewrite forallb_forall in H. apply H in Hn. unfold listable in Hn. apply andb_true_iff in Hn as [[_ Hn]%andb_true_iff _].
  unfold mark_active. destruct (String.eqb n active); rewrite !string_app_cons, !string_app_nil_l; cbn [has_char];
    by rewrite !(has_char_all _ _ _ Hn).
Qed.

Lemma ws_len_space s : ws_len (String " " s) = 1%nat.
Proof. unfold ws_len. by destruct s as [|? [|? ?]]. Qed.

Lemma trim_end_graphic n : all_chars graphic n = true -> trim_end n = n.
Proof.
  intros H. rewrite <- (trim_graphic n H) at 2. unfold trim. f_equal. destruct n as [|a n]; [done|].
  symmetry. apply trim_start_graphic. by apply andb_true_iff in H as [H _].
Qed.

Lemma trim_end_cons c s d t : trim_start (String c s) = String d t -> trim_end (String c s) = String c (trim_end s).
Proof. intros E. cbn [trim_end]. by rewrite E. Qed.

Lemma trim_start_space s : trim_start (String " " s) = trim_start s.
Proof. unfold trim_start at 1. cbn [trim_start_aux]. by rewrite ws_len_space. Qed.

(** The mark, and the blank in its place. *)
Lemma trim_mark active n : listable n = true ->
  trim (mark_active active n) = if String.eqb n active then "* " +:+ n else n.
Proof.
  unfold listable. intros H. apply andb_true_iff in H as [[Hn Hg]%andb_true_iff _].
  destruct n as [|a n]; [done|]. clear Hn. pose proof Hg as [Ha _]%andb_true_iff.
  pose proof (trim_start_graphic a n Ha) as Hs.
  unfold mark_active, trim. destruct (String.eqb _ active); rewrite !string_app_cons, !string_app_nil_l.
  - rewrite trim_start_graphic by done. rewrite (trim_end_cons "*" _ "*" (String " " (String a n))) by by apply trim_start_graphic.
    rewrite (trim_end_cons " " _ a n) by by rewrite trim_start_space. by rewrite trim_end_graphic.
  - rewrite !trim_start_space, Hs. by apply trim_end_graphic.
Qed.

Lemma read_listed active names : forallb listable names = true ->
  read_profiles (map (mark_active active) names) = (names, if bool_decide (active ∈ names) then Some active else None).
Proof.
  induction names as [|n names IH]; [done|]. cbn [forallb map read_profiles]. intros [Hn Hs]%andb_true_iff.
  rewrite IH by done. rewrite trim_mark by done. pose proof Hn as Hl. unfold listable in Hl.
  apply andb_true_iff in Hl as [[He Hg]%andb_true_iff Hb]. apply negb_true_iff in He, Hb.
  destruct (String.eqb_spec n active) as [->|Hne].
  - assert (String.eqb ("* " +:+ active) "" || starts_with "(" ("* " +:+ active) = false) as -> by done.
    rewrite strip_prefix_app, trim_graphic by done. rewrite (bool_decide_eq_true_2 (active ∈ active :: names)) by left.
    by case_bool_decide.
  - rewrite He, Hb. cbn [orb].
    assert (strip_prefix "* " n = None) as ->.
    { destruct (strip_prefix "* " n) as [r|] eqn:E; [|done]. apply strip_prefix_Some in E as ->. done. }
    rewrite (bool_decide_ext (active ∈ n :: names) (active ∈ names)); [done|]. rewrite elem_of_cons. naive_solver.
Qed.

Lemma listing_ascii active names : forallb listable names = true ->
  all_chars is_ascii (String.concat "" (map (fun s => s +:+ nl) (map (mark_active active) names))) = true.
Proof.
  induction names as [|n names IH]; [done|]. cbn [forallb map]. intros [Hn Hs]%andb_true_iff. specialize (IH Hs).
  unfold listable in Hn. apply andb_true_iff in Hn as [[_ Hg]%andb_true_iff _].
  assert (Ha : all_chars is_ascii (mark_active active n +:+ nl) = true).
  { unfold mark_active. rewrite !all_chars_app, andb_true_r. destruct (String.eqb n active); cbn [all_chars];
      (eapply all_chars_impl; [|exact Hg]; intros a; unfold graphic, is_ascii; lia). }
  cbn [String.concat]. destruct (map _ (map _ names)); [done|]. rewrite all_chars_app, Ha.
  by rewrite all_chars_app.
Qed.

(** The console reads a listing as it was meant. *)
Lemma read_profile_listing active names : forallb listable names = true ->
  read_profiles (lines (from_utf8_lossy (out_stdout (profile_listing active names)))) =
  (names, if bool_decide (active ∈ names) then Some active else None).
Proof.
  intros H. destruct names as [|n names]; [by vm_compute|]. unfold profile_listing, printed, print. cbn [out_stdout].
  rewrite from_utf8_lossy_str by by apply ascii_is_str, listing_ascii. rewrite listed_lines by done. by apply read_listed.
Qed.

Section profiles.
Context {P : Primitives} {O : OpsLib} {U : UrlLib} (env : Environment) (active stdin_line : string).
Context (http : string -> option string -> option string -> result ClientError (Request -> M (result ClientError Response))).

(** This program as a child, as far as it lists profiles. *)
Definition profile_child (exe : string) (args : list string) (vars : list (string * string)) : M (result string Finished) :=
  if bool_decide (args = ["profile"; "ls"]) then
    r ← cmd_profile env http active stdin_line ProfileLs;
    mret (Ok (match r with
              | Ok o => MkFinished true (Some 0) (out_stdout o) []
              | Err e => MkFinished false (Some 1) [] []
              end))
  else mret (Err "not modelled").

(** The profile menu of the console is the list of profiles, with the active one
    if it is among them. *)
Theorem ui_profiles_lists exe names w w' : run (list_profiles env) w = (Val (Ok names), w') ->
  forallb listable names = true ->
  run (ui_profiles (Ok exe) profile_child) w =
  (Val (json_response 200 (JObj [("active", if bool_decide (active ∈ names) then JStr active else JNull);
                                 ("profiles", JArr (map JStr names))])), w').
Proof.
  intros Hr Hl. unfold ui_profiles, run_bbk, flag, profile_child. cbn [app]. rewrite bool_decide_eq_true_2 by done.
  rewrite !run_bind. unfold cmd_profile, asked, try_bind, map_err_m. rewrite !run_bind, Hr. cbn -[profile_listing lines read_profiles from_utf8_lossy].
  rewrite read_profile_listing by done. by case_bool_decide.
Qed.
End profiles.

(** ** Listing domains *)

(** The first column of [bbk domain ls] holds the short identifier, so the
    domain menu of the console offers identifiers where it means names. *)
Theorem ui_domains_offers_ids :
  read_domains (from_utf8_lossy (out_stdout (table [10; 24; 24]%nat ["ID"; "NAME"; "CREATED"] "DESCRIPTION" 90 domain_row
    [MkDomainSummary "5f0c2a9e-77aa-4a0e-9c1e-000000000001" "finance" (Some "ledgers") "2024-01-01T00:00:00Z"]))) = ["5f0c2a9e"].
Proof. by vm_compute. Qed.
